(* ===== verification/_CoqProject ===== *)
-Q . S2P
Prelude.v
Wire.v
Target.v
Limbs.v
Vardiff.v
Nonce.v
LargestRemainder.v
Pplns.v
RateLimit.v
Backend.v
PayoutFees.v
Stream.v
Framing.v
Hex.v
Zip301.v
Jobs.v
JobsInv.v
JobsWorld.v
JobsLife.v
JobsProps.v
Session.v
BackendClient.v
BackendClientProps.v
BackendClientHistory.v
Router.v
RouterProps.v
RouterThreads.v
Edge.v
Connection.v
ConnectionRun.v
ConnectionInv.v
ConnectionSteps.v
ConnectionRouter.v
ConnectionProps.v
Ledger.v
PayoutRequest.v
StoreDb.v
PayoutStore.v
Configuration.v
PayoutWatch.v
WinnerStore.v
Books.v
BatchPlan.v
StoreInv.v
WinnerInv.v
StoreOps.v
StoreEvolve.v
StoreDemo.v
Solvency.v
StoreProps.v
StoreJournal.v
SigningFence.v
WatchRotation.v
Proc.v
WecSigner.v
Settlement.v
PayoutRuntime.v
PayoutExpiry.v
Worker.v
WorkerSafe.v
WorkerReads.v
WorkerSteps.v
WorkerSettles.v
RuntimeChecks.v
WorkerTicks.v
WorkerRuns.v
WorkerProps.v
WorkerCrash.v
WecSignerRuns.v
WecSignerProps.v
WecSignerDemo.v
WecSignerIdempotent.v
