(* ===== verification/Prelude.v ===== *)
(** * The w-cash mining pool

    A verification of the pool's core: the policies, the wire protocols and the registry of work
    that decide which proofs of work the pool accepts and to whom they are attributed, the
    accounting store that divides rewards and reserves payouts, and the worker and signer that
    turn a reserved payout into one transaction.

    ** The program and how its parts interact

    Miners speak ZIP-301 over TCP to the edge (crates/wcash-pool-edge).  A connection is a
    [MiningSession]: it subscribes (and is given a nonce prefix no other session has), authorises
    one worker, is announced jobs, each with a share target, and submits solutions.  Jobs come from
    a trusted local backend over a Unix socket as snapshots and a journal of events; the
    [GenerationRegistry] of crates/wcash-pool-core turns them into roles and deadlines, and hands
    out one admission guard per submission in flight.  An admitted submission is sent to the
    backend.  The backend's journal of shares, winners and maturities is projected into the
    tables of crates/wcash-pool-store, where shares are weighted by PPLNS when a block is found and
    every movement of value is a balanced ledger transaction.  The payout worker of
    crates/wcash-poold polls: it watches the payouts it has broadcast, recovers expired ones, takes
    the oldest incomplete batch through the store's signing and broadcast fences with a chain's
    signer and broadcaster, and creates the next batch.  The Wcash signer
    (crates/wcash-wec-payout-signer) keeps a journal of one record per batch, so that a batch
    gets one transaction however often it is asked for.

    ** Files

    - Prelude: [result], the state-and-error monad [M] with its notations, machine widths with
      checked arithmetic, byte strings and their numeric value, and the shared tactics.
    - Wire, Hex: fixed-size values, endian-typed targets, nonce partition and hexadecimal text
      (wcash-pool-protocol/src/fixed_hex.rs, zip301.rs).
    - Target, Limbs, Vardiff: share targets, the policy interval, 256-bit limb arithmetic and the
      variable-difficulty controller (wcash-pool-core/src/target.rs, vardiff.rs).
    - Nonce: prefix allocation (wcash-pool-core/src/nonce.rs).
    - LargestRemainder, Pplns, PayoutFees: apportionment, reward allocation
      (wcash-pool-store/src/accounting.rs) and the arithmetic of payouts (postgres.rs).
    - RateLimit: per-connection request budgets (wcash-pool-edge/src/rate_limit.rs).
    - Backend, Framing: messages of the backend protocol with their validation, and the
      length-prefixed codec (wcash-pool-protocol/src/backend.rs).
    - Stream: what an incremental codec promises ([StreamCodec]), and what follows for a stream
      cut into arbitrary chunks.  Framing and Zip301 provide the instances.
    - Zip301: requests, server messages and the line codec (wcash-pool-protocol/src/zip301.rs).
    - Jobs: the generation registry (wcash-pool-core/src/jobs.rs).  JobsInv, JobsWorld and JobsLife
      hold its invariants and its transition system, JobsProps what follows.
    - Session: miner sessions and the preparation of submissions
      (wcash-pool-core/src/session.rs).
    - Ledger, StoreDb: the ledger with its constraints and the chain freeze, and the other tables
      of the store (wcash-pool-store/migrations, src/postgres.rs).
    - PayoutRequest: the request made of a signer and its commitment
      (wcash-pool-portal/src/signer.rs).
    - PayoutStore, Configuration, PayoutWatch, WinnerStore: the transactions of the payout
      lifecycle, of policies and destinations, of the payout observer, and the projection of the
      backend's journal (wcash-pool-store/src/postgres.rs, portal.rs).  Each is a function from the
      tables to the tables or an error; [StoreOps.run_op] is one operation of any of them.
    - Books, BatchPlan, StoreInv, WinnerInv, StoreOps, StoreEvolve: the balance sheet the ledger
      must show, the invariant of the tables and how one operation may change them; StoreProps,
      Solvency, StoreJournal, SigningFence and WatchRotation draw the consequences, and StoreDemo
      holds a concrete history.
    - Proc: asynchronous procedures as finite trees of calls, the interleaving of any number of
      them with an environment, stops at any call, and the rely-guarantee rule [wp].
    - Settlement, PayoutRuntime, PayoutExpiry: the coordinator, a pass and the loop of the payout
      worker, and expiry recovery (wcash-poold/src/settlement.rs, payout_runtime.rs,
      payout_expiry.rs).  The traits of the source are records of procedures.
    - Worker: the calls of the worker with the answers the store, the wallets and the validators
      may give ([handles]), and the system they form.  WorkerSafe, WorkerReads, WorkerSteps,
      WorkerSettles and WorkerTicks show that every call is permitted; RuntimeChecks, WorkerProps
      and WorkerCrash state what follows; WorkerRuns holds an executable world.
    - WecSigner: the Wcash signer (wcash-wec-payout-signer/src: pipeline.rs, journal.rs,
      transport.rs, config.rs, error.rs).  WecSignerRuns, WecSignerProps and WecSignerIdempotent
      are its histories of attempts and crashes; WecSignerDemo holds a concrete signer.
    - BackendClient: the client of the backend's Unix socket
      (wcash-pool-backend-client/src/unix.rs), every operation over one connection, with what the
      socket does during an exchange as an argument.  BackendClientProps holds the rule of each
      operation, BackendClientHistory any sequence of them.
    - Router: the registry shared by all connections, its health pauses, recoveries and broadcast
      (wcash-pool-edge/src/router.rs); RouterProps interleaves the locked sections and the late
      broadcasts of any number of callers, and RouterThreads shows what the calls of other threads
      leave of the registry between two calls of one.
    - Edge: limits, miner-facing errors, telemetry calls and the failures of a submission
      (wcash-pool-edge/src/config.rs, error.rs, telemetry.rs).
    - Connection: the actor of one miner connection (wcash-pool-edge/src/connection.rs), over the
      interface [RouterView] of the router.  ConnectionRun is any sequence of its inputs,
      ConnectionInv and ConnectionSteps its invariant, ConnectionRouter gives it the router of
      Router with other threads calling it in between, and ConnectionProps states what follows.

    ** Conventions

    A Rust [Result] is [result]; a method on [&mut self] that may fail is a function into
    [M S E A], which also returns the state an error leaves behind.  Integers are [Z] with their
    width written out where the source checks, wraps or saturates; [BigUint] is [Z].  Byte arrays
    are lists of bytes with well-formedness predicates ([hex_wf] and the like) where a length
    matters.  [BTreeMap] and [HashMap] are [gmap]; where the source iterates a [BTreeMap] the
    entries are sorted.  An [Arc] shared between the registry and its guards is an address in an
    explicit heap, so that dropping a guard and reading a counter act on the same cell; dropping a
    guard is a step of its own in the transition system.  A mutex is its poison flag with calls
    serialised.  A database transaction is one atomic step that commits the new tables or returns
    an error and commits nothing: it runs under the row and advisory locks the source takes.  An
    [async] method is a tree of calls, and other programs act between any two of them.

    Code outside the repository is a parameter: SHA-256 is an arbitrary function (no property
    needs collision resistance; a property that two commitments are equal exhibits the encodings
    that would collide), serde_json appears through [from_slice], [to_vec] and the class
    [JsonOps], the hex crate through [HexOps] and [HexLaws], the allocator's answer to
    [try_reserve_exact] as a boolean function, random identifiers and the database clock as
    arguments of the operation that reads them.  The wallets, the validators, the journal's file
    system and the interruption hook are calls that may answer anything of the right shape.  The
    hypotheses on them (a printed value parses back, a bounded reservation succeeds, hex decodes
    what it encodes) are named in the theorems that use them and are met by concrete functions in
    their witnesses.

    ** What the theorems show

    - Registry: in every reachable state roles are bounded, unique and exactly the accepting jobs;
      admission succeeds exactly when it should; nothing resurrects, extends or forgets a job;
      every failure closes admission; counters equal live guards; the journal is followed without
      gap; snapshots are authoritative; recovery admits only potential Zcash winners.
    - Sessions: the life cycle and its bounds, submissions that carry exactly the authorised
      identity, target, nonce and time, and guards that balance on every path.
    - Money: PPLNS allocates the whole reward by largest remainder and fails only for a fault of
      its input; fee reserves keep outputs positive; actual fees stay within reserves; batches
      conserve value; ledger transactions balance.
    - Store: after any sequence of operations the ledger is the balance sheet of the winners and
      batches, the collector covers every liability, no miner is paid more than was earned, a
      frozen chain releases nothing, batches move one way and only as the schema's trigger permits,
      the journal is projected exactly once and in order, a batch's request is rebuilt byte for
      byte at any later time, and the observer's rotation reaches every confirmed payout.
    - Worker: in every interleaving, after every crash and whatever the others answer, each
      request, submission, confirmation, reorganisation, hold and release is warranted by the
      committed rows and by what was reported; a batch has one request and one transaction; a
      settlement that would have broadcast its batch, stopped anywhere and run again against the
      same wallets, ends the same; a validator snapshot is accepted exactly when it answers every
      watch once with evidence bound to it; retries back off within the policy and a failing worker
      stops.
    - Wcash signer: over any history of attempts and crashes one batch has one transaction,
      broadcasts carry bytes the journal already holds at a stage that allows it, a signature is
      asked for only when the wallet holds none, another request under the same identifier is refused, and every call returns.
    - Backend client: under any history and whatever arrives, events are handed out gapless and
      once, a share is reported committed only with its receipt and its journal event, only the
      configured backend is connected to, and an uncertain connection is never used again.
    - Router: in any interleaving it stays a reachable registry of one backend authority,
      announcements are exact, no subscriber misses a suspension, and a health pause lets only
      proven Zcash candidates through.
    - Connection: whatever arrives and in whatever order operations complete, each request that
      expects a reply gets one, a share is accepted only on the receipt of exactly that share and carries the
      target the miner was told, difficulty samples follow admission, and telemetry balances.
    - Difficulty and nonces: retargeting is the exact clamped ratio, ticks only ease, a revision
      identifies a binding, a network winner is a valid share, session nonces never collide.
    - Protocols: both streams decode exactly and with bounded memory under any chunking, the
      one-shot and incremental decoders agree, event pages are contiguous, decoded submissions are
      acceptable to the backend, encodings round trip.
    - Rate limits: exact admission and bounds over any interval.

    ** Bounds and fuel

    [Stream.drain] calls a codec until its input is used up; every call that returns a message
    consumes at least one byte, so fuel [S (length input)] is enough and [drain_stream] shows that
    the result does not depend on it.  The stage loops of the signer take two iterations to prepare
    and three to execute, and [wec_signer_terminates] shows that more are never needed.
    [PayoutRuntime.run_loop] polls for ever, so its fuel is the number of passes a theorem speaks
    of; safety is proved for every number, and [failing_worker_stops] with the failure budget.
    Bit-serial division is a fold over the 320 bits of its operand, and everything else recurses
    on its data.  [usize] has the width of [u64].
    The reading loop of a backend exchange has one iteration more than there are bytes to read, and
    [exchange_loop_terminates] shows that further fuel changes nothing.

    ** What is not modelled

    Sockets, subprocesses, HTTP and the text of SQL statements; the order in which a power
    loss keeps or loses file writes (the journal's rename is atomic here, and a failed store may
    have written or not); panics of a spawned task other than as the error they are mapped to;
    Debug redaction; the parsing of addresses, password hashing and randomness,
    which are other crates' work; weak-memory effects of the in-flight counters.
    Of the program's own code: the submission worker and the stream driver of the edge, the
    JSON-RPC adapters of live_payout.rs, the ZEC signer, which the running service does not start,
    the order of the service's start-up steps, nonce-namespace and worker leases of the store, the
    portal's routes and credentials, and the receiver policy around address validation. *)

From Stdlib Require Import ZArith Lia.
From stdpp Require Import prelude gmap sorting strings.

Declare Scope pool_scope.
Delimit Scope pool_scope with pool.
Open Scope pool_scope.
Open Scope Z_scope.

(** ** Results and stateful computations *)

(** Rust's [Result<A, E>]. *)
Inductive result (A E : Type) : Type :=
| Ok (a : A)
| Err (e : E).
Arguments Ok {A E} _.
Arguments Err {A E} _.

#[global] Instance result_eq_dec {A E} `{!EqDecision A} `{!EqDecision E} :
  EqDecision (result A E).
Proof. solve_decision. Defined.

(** The [?] operator on a result. *)
Notation "'let?' x ':=' r 'in' k" :=
  (match r with Ok x => k | Err e => Err e end)
  (at level 10, x pattern, r at level 100, k at level 200,
   format "'[v' 'let?'  x  ':='  r  'in' '//' k ']'") : pool_scope.

(** [Option::ok_or] and [Result::map_err]. *)
Definition ok_or {A E} (o : option A) (e : E) : result A E :=
  match o with Some a => Ok a | None => Err e end.

Definition map_err {A E F} (f : E -> F) (r : result A E) : result A F :=
  match r with Ok a => Ok a | Err e => Err (f e) end.

Definition is_ok {A E} (r : result A E) : bool :=
  match r with Ok _ => true | Err _ => false end.

(** A method on [&mut self] that returns a [Result]: the state it leaves behind is
    kept on the error path too, as in Rust. *)
Definition M (S E A : Type) : Type := S -> S * result A E.

Definition st_ret {S E A} (a : A) : M S E A := fun s => (s, Ok a).
Definition st_throw {S E A} (e : E) : M S E A := fun s => (s, Err e).
Definition st_get {S E} : M S E S := fun s => (s, Ok s).
Definition st_modify {S E} (f : S -> S) : M S E unit := fun s => (f s, Ok tt).
Definition st_lift {S E A} (r : result A E) : M S E A := fun s => (s, r).
Definition st_bind {S E A B} (m : M S E A) (f : A -> M S E B) : M S E B :=
  fun s => match m s with
           | (s', Ok a) => f a s'
           | (s', Err e) => (s', Err e)
           end.

Notation "'let*' x ':=' m 'in' k" := (st_bind m (fun x => k))
  (at level 10, x name, m at level 100, k at level 200,
   format "'[v' 'let*'  x  ':='  m  'in' '//' k ']'") : pool_scope.
Notation "'do*' m 'in' k" := (st_bind m (fun _ => k))
  (at level 10, m at level 100, k at level 200,
   format "'[v' 'do*'  m  'in' '//' k ']'") : pool_scope.

(** ** Fixed-width unsigned integers *)

Definition U8_MAX : Z := 255.
Definition U16_MAX : Z := 65535.
Definition U32_MAX : Z := 4294967295.
Definition U64_MAX : Z := 18446744073709551615.
Definition U128_MAX : Z := 340282366920938463463374607431768211455.

Definition in_range (max x : Z) : Prop := 0 <= x <= max.

(** [checked_add], [checked_mul], [checked_sub] at the width whose maximum is [max]. *)
Definition checked_add (max a b : Z) : option Z :=
  if a + b <=? max then Some (a + b) else None.
Definition checked_mul (max a b : Z) : option Z :=
  if a * b <=? max then Some (a * b) else None.
Definition checked_sub (a b : Z) : option Z :=
  if b <=? a then Some (a - b) else None.
Definition saturating_sub (a b : Z) : Z := Z.max 0 (a - b).
Definition abs_diff (a b : Z) : Z := Z.abs (a - b).

(** ** Byte strings *)

Definition is_byte (b : Z) : Prop := 0 <= b < 256.
Definition is_byteb (b : Z) : bool := (0 <=? b) && (b <? 256).

(** An array [[u8; n]]. *)
Definition byte_array (n : nat) (l : list Z) : Prop :=
  length l = n /\ Forall is_byte l.

(** Numeric value of a big-endian and of a little-endian byte string. *)
Definition be_val (l : list Z) : Z := foldl (fun acc b => acc * 256 + b) 0 l.
Fixpoint le_val (l : list Z) : Z :=
  match l with
  | [] => 0
  | b :: l' => b + 256 * le_val l'
  end.

(** [to_le_bytes] and [to_be_bytes] of an [n]-byte integer. *)
Fixpoint le_bytes (n : nat) (v : Z) : list Z :=
  match n with
  | O => []
  | S n' => v mod 256 :: le_bytes n' (v / 256)
  end.
Definition be_bytes (n : nat) (v : Z) : list Z := reverse (le_bytes n v).

(** The derived [Ord] of a byte array: lexicographic comparison. *)
Fixpoint bytes_compare (l1 l2 : list Z) : comparison :=
  match l1, l2 with
  | [], [] => Eq
  | [], _ :: _ => Lt
  | _ :: _, [] => Gt
  | a :: l1', b :: l2' =>
      match a ?= b with
      | Eq => bytes_compare l1' l2'
      | c => c
      end
  end.

(** [bytes == [0; n]]. *)
Definition all_zero (l : list Z) : bool := forallb (fun b => b =? 0) l.

(** ** Paths *)

(** The segments of a Unix path between slashes. *)
Fixpoint path_segments (path : list Z) (current : list Z) : list (list Z) :=
  match path with
  | [] => [reverse current]
  | b :: rest => if b =? 47 then reverse current :: path_segments rest [] else path_segments rest (b :: current)
  end.

(** [Path::is_absolute], and no [Component::ParentDir]; [Path::components] drops the [.] segments
    of an absolute path. *)
Definition is_absolute (path : list Z) : bool := match path with 47 :: _ => true | _ => false end.
Definition has_parent_component (path : list Z) : bool :=
  existsb (fun s => bool_decide (s = [46; 46])) (path_segments path []).
Definition absolute_without_parents (path : list Z) : bool :=
  is_absolute path && negb (has_parent_component path).

(** ** Automation *)

(** Split the boolean guards of the code into propositions. *)
Ltac boolprop :=
  repeat match goal with
  | H : (_ && _)%bool = true |- _ => apply andb_true_iff in H; destruct H
  | H : (_ || _)%bool = false |- _ => apply orb_false_iff in H; destruct H
  | H : negb _ = true |- _ => apply negb_true_iff in H
  | H : negb _ = false |- _ => apply negb_false_iff in H
  | H : (_ <=? _) = true |- _ => apply Z.leb_le in H
  | H : (_ <=? _) = false |- _ => apply Z.leb_gt in H
  | H : (_ <? _) = true |- _ => apply Z.ltb_lt in H
  | H : (_ <? _) = false |- _ => apply Z.ltb_ge in H
  | H : (_ =? _) = true |- _ => apply Z.eqb_eq in H
  | H : (_ =? _) = false |- _ => apply Z.eqb_neq in H
  | H : bool_decide _ = true |- _ => apply bool_decide_eq_true_1 in H
  | H : bool_decide _ = false |- _ => apply bool_decide_eq_false_1 in H
  end.

(** Case analysis on the scrutinee of a [match] or [if] of a hypothesis. *)
Ltac case_in H :=
  match type of H with
  | context [match ?x with _ => _ end] =>
      lazymatch x with
      | context [match _ with _ => _ end] => fail
      | _ => let E := fresh "E" in destruct x eqn:E
      end
  end.

(** Run a fallible straight-line body in hypothesis [H] to its end. *)
Ltac run_in H :=
  repeat (case_in H; simpl in H; try discriminate H); boolprop; simplify_eq.

(** The same without simplifying, for bodies over large states. *)
Ltac run_steps H := repeat (case_in H; try discriminate H).

(** The outermost fallible call of the body in [H]. *)
Ltac bind_in H x E :=
  match type of H with match ?r with _ => _ end = _ => destruct r as [x|] eqn:E; [|discriminate H] end.

Ltac widths :=
  unfold in_range, U8_MAX, U16_MAX, U32_MAX, U64_MAX, U128_MAX in *.

(** Evaluate the state-and-error monad one layer. *)
Ltac st_unfold :=
  unfold st_bind, st_get, st_ret, st_throw, st_modify, st_lift, ok_or, map_err in *.

Create HintDb pool.

(** ** Lemmas on machine integers *)

Lemma checked_add_Some max a b c :
  checked_add max a b = Some c <-> c = a + b /\ a + b <= max.
Proof. unfold checked_add. destruct (Z.leb_spec (a + b) max); split; intros; naive_solver lia. Qed.

Lemma checked_add_None max a b : checked_add max a b = None <-> max < a + b.
Proof. unfold checked_add. destruct (Z.leb_spec (a + b) max); split; intros; naive_solver lia. Qed.

Lemma checked_mul_Some max a b c :
  checked_mul max a b = Some c <-> c = a * b /\ a * b <= max.
Proof. unfold checked_mul. destruct (Z.leb_spec (a * b) max); split; intros; naive_solver lia. Qed.

Lemma checked_sub_Some a b c : checked_sub a b = Some c <-> c = a - b /\ b <= a.
Proof. unfold checked_sub. destruct (Z.leb_spec b a); split; intros; naive_solver lia. Qed.

Lemma checked_sub_None a b : checked_sub a b = None <-> a < b.
Proof. unfold checked_sub. destruct (Z.leb_spec b a); split; intros; naive_solver lia. Qed.

(** Setting a bit that is clear adds its weight. *)
Lemma lor_clear_bit a s : 0 <= s -> (a / 2 ^ s) mod 2 = 0 -> Z.lor a (2 ^ s) = a + 2 ^ s.
Proof.
  intros Hs Hbit. pose proof (Z.add_lor_land a (2 ^ s)) as Hsum.
  enough (Z.land a (2 ^ s) = 0) by lia.
  apply Z.bits_inj'. intros n Hn. rewrite Z.land_spec, Z.bits_0, Z.pow2_bits_eqb by lia.
  destruct (Z.eqb_spec s n) as [->|]; [|by rewrite andb_false_r].
  rewrite andb_true_r. rewrite <- Z.testbit_spec' in Hbit by lia. by destruct (Z.testbit a n).
Qed.

(** ** Lemmas on byte strings *)

Lemma foldl_be_acc l a :
  foldl (fun acc b => acc * 256 + b) a l = a * 256 ^ Z.of_nat (length l) + be_val l.
Proof.
  unfold be_val. revert a. induction l as [|b l IH]; intros a; cbn [foldl length].
  - lia.
  - rewrite IH, (IH (0 * 256 + b)), Nat2Z.inj_succ, Z.pow_succ_r by lia. ring.
Qed.

Lemma be_val_app l1 l2 :
  be_val (l1 ++ l2) = be_val l1 * 256 ^ Z.of_nat (length l2) + be_val l2.
Proof. unfold be_val at 1. rewrite foldl_app. apply foldl_be_acc. Qed.

Lemma be_val_cons b l : be_val (b :: l) = b * 256 ^ Z.of_nat (length l) + be_val l.
Proof. change (b :: l) with ([b] ++ l). rewrite be_val_app. unfold be_val at 1; simpl. lia. Qed.

Lemma be_val_nil : be_val [] = 0.
Proof. reflexivity. Qed.

Lemma be_val_bound l : Forall is_byte l -> 0 <= be_val l < 256 ^ Z.of_nat (length l).
Proof.
  induction 1 as [|b l Hb _ IH]; [rewrite be_val_nil; simpl; lia|].
  rewrite be_val_cons. cbn [length]. rewrite Nat2Z.inj_succ, Z.pow_succ_r by lia.
  unfold is_byte in Hb. nia.
Qed.

Lemma be_val_reverse l : be_val (reverse l) = le_val l.
Proof.
  induction l as [|b l IH]; [reflexivity|].
  rewrite reverse_cons, be_val_app, IH. cbn [length le_val]. unfold be_val; simpl. lia.
Qed.

Lemma length_le_bytes n v : length (le_bytes n v) = n.
Proof. revert v; induction n as [|n IH]; intros v; simpl; [done|by rewrite IH]. Qed.

Lemma length_be_bytes n v : length (be_bytes n v) = n.
Proof. unfold be_bytes. by rewrite length_reverse, length_le_bytes. Qed.

Lemma le_bytes_is_byte n v : Forall is_byte (le_bytes n v).
Proof.
  revert v; induction n as [|n IH]; intros v; simpl; constructor; [|done].
  unfold is_byte. apply Z.mod_pos_bound. lia.
Qed.

Lemma be_bytes_is_byte n v : Forall is_byte (be_bytes n v).
Proof. unfold be_bytes. apply Forall_reverse, le_bytes_is_byte. Qed.

Lemma le_val_le_bytes n v : 0 <= v < 256 ^ Z.of_nat n -> le_val (le_bytes n v) = v.
Proof.
  revert v; induction n as [|n IH]; intros v Hv; [simpl in *; lia|].
  rewrite Nat2Z.inj_succ, Z.pow_succ_r in Hv by lia. cbn [le_bytes le_val].
  rewrite IH.
  - pose proof (Z.div_mod v 256). lia.
  - split; [apply Z.div_pos; lia|]. apply Z.div_lt_upper_bound; lia.
Qed.

Lemma le_bytes_inj n v w :
  0 <= v < 256 ^ Z.of_nat n -> 0 <= w < 256 ^ Z.of_nat n ->
  le_bytes n v = le_bytes n w -> v = w.
Proof. intros Hv Hw E. by rewrite <- (le_val_le_bytes n v Hv), <- (le_val_le_bytes n w Hw), E. Qed.

Lemma take_le_bytes k n v : (k <= n)%nat -> take k (le_bytes n v) = le_bytes k v.
Proof.
  revert n v; induction k as [|k IH]; intros [|n] v Hk; simpl; try done; try lia.
  f_equal. apply IH. lia.
Qed.

Lemma be_val_be_bytes n v : 0 <= v < 256 ^ Z.of_nat n -> be_val (be_bytes n v) = v.
Proof. intros Hv. unfold be_bytes. rewrite be_val_reverse. by apply le_val_le_bytes. Qed.

Lemma be_val_inj l1 l2 :
  length l1 = length l2 -> Forall is_byte l1 -> Forall is_byte l2 ->
  be_val l1 = be_val l2 -> l1 = l2.
Proof.
  intros Hlen H1. revert l2 Hlen.
  induction H1 as [|a l1 Ha H1 IH]; intros [|b l2] Hlen H2 Hv; try done.
  apply Forall_cons in H2 as [Hb H2]. injection Hlen as Hlen.
  rewrite !be_val_cons, Hlen in Hv.
  pose proof (be_val_bound l1 H1) as B1. pose proof (be_val_bound l2 H2) as B2.
  rewrite Hlen in B1. assert (a = b) as -> by nia.
  f_equal. apply IH; [done..|lia].
Qed.

(** Lexicographic order on byte arrays of one length is numeric order. *)
Lemma bytes_compare_be_val l1 l2 :
  length l1 = length l2 -> Forall is_byte l1 -> Forall is_byte l2 ->
  bytes_compare l1 l2 = (be_val l1 ?= be_val l2).
Proof.
  intros Hlen H1. revert l2 Hlen.
  induction H1 as [|a l1 Ha H1 IH]; intros [|b l2] Hlen H2; try done.
  apply Forall_cons in H2 as [Hb H2]. injection Hlen as Hlen.
  rewrite !be_val_cons, Hlen. cbn [bytes_compare].
  pose proof (be_val_bound l1 H1) as B1. pose proof (be_val_bound l2 H2) as B2.
  rewrite Hlen in B1. destruct (Z.compare_spec a b) as [->|Hab|Hab].
  - rewrite IH by done. symmetry. apply Z.add_compare_mono_l.
  - symmetry. apply Z.compare_lt_iff. nia.
  - symmetry. apply Z.compare_gt_iff. nia.
Qed.

Lemma bytes_compare_refl l : bytes_compare l l = Eq.
Proof. induction l as [|b l IH]; simpl; [done|]. by rewrite Z.compare_refl. Qed.

Lemma bytes_compare_eq l1 l2 : bytes_compare l1 l2 = Eq <-> l1 = l2.
Proof.
  split; [|intros ->; apply bytes_compare_refl].
  revert l2; induction l1 as [|a l1 IH]; intros [|b l2]; simpl; try done.
  destruct (Z.compare_spec a b) as [->|?|?]; try done. intros H. by rewrite (IH _ H).
Qed.

Lemma all_zero_be_val l : Forall is_byte l -> all_zero l = (be_val l =? 0).
Proof.
  induction 1 as [|b l Hb Hl IH]; [done|].
  cbn [all_zero forallb]. unfold all_zero in IH. rewrite IH, be_val_cons.
  pose proof (be_val_bound l Hl). unfold is_byte in Hb.
  destruct (Z.eqb_spec b 0), (Z.eqb_spec (be_val l) 0); simpl; symmetry;
    [apply Z.eqb_eq|apply Z.eqb_neq|apply Z.eqb_neq|apply Z.eqb_neq]; nia.
Qed.

(** ** Lemmas on lists *)

Lemma filter_none {A} (P : A -> Prop) `{!forall x, Decision (P x)} (l : list A) :
  (forall x, x ∈ l -> ~ P x) -> filter P l = [].
Proof.
  induction l as [|x l IH]; intros Hno; [done|].
  rewrite filter_cons_False by (apply Hno; left). apply IH. intros y Hy. apply Hno. by right.
Qed.

Lemma filter_all {A} (P : A -> Prop) `{!forall x, Decision (P x)} (l : list A) : Forall P l -> filter P l = l.
Proof. induction 1 as [|x l Hx _ IH]; [done|]. by rewrite filter_cons, decide_True, IH. Qed.

Lemma existsb_false {A} (f : A -> bool) (l : list A) : Forall (fun x => f x = false) l -> existsb f l = false.
Proof. induction 1 as [|x l Hx _ IH]; [done|]. cbn. by rewrite Hx. Qed.

Lemma length_filter_le {A} (P Q : A -> Prop) `{!forall x, Decision (P x)}
    `{!forall x, Decision (Q x)} (l : list A) :
  (forall x, x ∈ l -> P x -> Q x) -> (length (filter P l) <= length (filter Q l))%nat.
Proof.
  induction l as [|x l IH]; intros Himp; [done|]. rewrite !filter_cons.
  assert (length (filter P l) <= length (filter Q l))%nat
    by (apply IH; intros y Hy; apply Himp; by right).
  destruct (decide (P x)) as [HP|HP], (decide (Q x)) as [HQ|HQ]; simpl; try lia.
  exfalso. apply HQ, Himp; [left|done].
Qed.

(** A filter split along a second predicate. *)
Lemma length_filter_split {A} (P Q : A -> Prop) `{!forall x, Decision (P x)}
    `{!forall x, Decision (Q x)} (l : list A) :
  length (filter P l) =
  (length (filter (fun x => P x /\ Q x) l) + length (filter (fun x => P x /\ ~ Q x) l))%nat.
Proof.
  induction l as [|x l IH]; [done|]. rewrite !filter_cons.
  repeat case_decide; simpl; tauto || lia.
Qed.

(** ** Lemmas on results *)

(** A validation step succeeds iff both parts do. *)
Lemma seq_Ok {A E} (m : result unit E) (k : result A E) (x : A) :
  (let? _ := m in k) = Ok x <-> m = Ok tt /\ k = Ok x.
Proof. destruct m as [[]|e]; split; [by intros|by intros [_ ?]|done|by intros [? _]]. Qed.

Lemma bind_Ok {A B E} (m : result A E) (k : A -> result B E) (x : B) :
  (let? a := m in k a) = Ok x <-> exists a, m = Ok a /\ k a = Ok x.
Proof.
  destruct m as [a|e]; split; [by intros; exists a|by intros (b & [= <-] & ?)|done|by intros (? & ? & _)].
Qed.

Lemma ok_or_Ok {A E} (o : option A) (e : E) (a : A) : ok_or o e = Ok a <-> o = Some a.
Proof. destruct o; simpl; split; congruence. Qed.

(** ** Partial correctness of stateful computations *)

(** What holds of the result and of the state a computation leaves. *)
Definition leads {S E A} (m : M S E A) (Q : result A E -> S -> Prop) (s : S) : Prop :=
  let '(s', x) := m s in Q x s'.

Lemma leads_bind {S E A B} (m : M S E A) (k : A -> M S E B) Q s :
  leads m (fun x s' => match x with Ok a => leads (k a) Q s' | Err e => Q (Err e) s' end) s ->
  leads (st_bind m k) Q s.
Proof. unfold leads, st_bind. by destruct (m s) as [s' [a|e]]. Qed.

Lemma leads_mono {S E A} (m : M S E A) (Q Q' : result A E -> S -> Prop) s :
  leads m Q s -> (forall x s', Q x s' -> Q' x s') -> leads m Q' s.
Proof. unfold leads. destruct (m s). auto. Qed.
