(* ===== verification/Wire.v ===== *)
(** Wire values shared by the protocol and the policy crates
    (crates/wcash-pool-protocol/src/fixed_hex.rs): fixed-size byte arrays, the two
    endian-typed 256-bit targets, and UUIDs. *)

From Stdlib Require Import ZArith Lia.
From stdpp Require Import prelude gmap sorting strings.
From S2P Require Import Prelude.
Open Scope Z_scope.

(** [FixedHex<N>]: exactly [N] bytes (the length is the invariant [hex_wf]). *)
Record FixedHex (N : nat) : Type := FixedHex_new { as_bytes : list Z }.
Arguments FixedHex_new {N} _.
Arguments as_bytes {N} _.

Definition Hex4 : Type := FixedHex 4.
Definition Hex8 : Type := FixedHex 8.
Definition Hex24 : Type := FixedHex 24.
Definition Hex28 : Type := FixedHex 28.
Definition Hex32 : Type := FixedHex 32.
Definition Hex108 : Type := FixedHex 108.
Definition Hex1344 : Type := FixedHex 1344.

Definition hex_wf {N} (h : FixedHex N) : Prop := byte_array N (as_bytes h).

#[global] Instance FixedHex_eq_dec N : EqDecision (FixedHex N).
Proof. solve_decision. Defined.

Definition FixedHex_is_zero {N} (h : FixedHex N) : bool := all_zero (as_bytes h).

(** [TargetLe], least-significant byte first, and [TargetBe], most-significant first. *)
Record TargetLe : Type := TargetLe_new { tle_bytes : list Z }.
Record TargetBe : Type := TargetBe_new { tbe_bytes : list Z }.

#[global] Instance TargetLe_eq_dec : EqDecision TargetLe.
Proof. solve_decision. Defined.
#[global] Instance TargetBe_eq_dec : EqDecision TargetBe.
Proof. solve_decision. Defined.

Definition tle_wf (t : TargetLe) : Prop := byte_array 32 (tle_bytes t).
Definition tbe_wf (t : TargetBe) : Prop := byte_array 32 (tbe_bytes t).

Definition TargetLe_is_zero (t : TargetLe) : bool := all_zero (tle_bytes t).
Definition TargetBe_is_zero (t : TargetBe) : bool := all_zero (tbe_bytes t).

Definition TargetBe_from_TargetLe (t : TargetLe) : TargetBe :=
  TargetBe_new (reverse (tle_bytes t)).
Definition TargetLe_from_TargetBe (t : TargetBe) : TargetLe :=
  TargetLe_new (reverse (tbe_bytes t)).

(** [uuid::Uuid] is a plain 128-bit value: nil is zero, [as_bytes] is the big-endian
    encoding, and the byte-lexicographic [Ord] is the numeric order of the value. *)
Abbreviation Uuid := Z (only parsing).
Definition Uuid_is_nil (u : Uuid) : bool := u =? 0.
Definition Uuid_as_bytes (u : Uuid) : list Z := be_bytes 16 u.
Definition uuid_wf (u : Uuid) : Prop := 0 <= u <= U128_MAX.

(** A byte-array equality [bytes == [0; N]] agrees with [is_zero]. *)
Lemma reverse_all_zero l : all_zero (reverse l) = all_zero l.
Proof.
  unfold all_zero. induction l as [|b l IH]; [done|].
  rewrite reverse_cons, forallb_app, IH. simpl. by rewrite andb_true_r, andb_comm.
Qed.

Lemma target_endian_roundtrip_le t : TargetLe_from_TargetBe (TargetBe_from_TargetLe t) = t.
Proof. destruct t. unfold TargetLe_from_TargetBe, TargetBe_from_TargetLe; simpl. by rewrite reverse_involutive. Qed.

Lemma target_endian_roundtrip_be t : TargetBe_from_TargetLe (TargetLe_from_TargetBe t) = t.
Proof. destruct t. unfold TargetLe_from_TargetBe, TargetBe_from_TargetLe; simpl. by rewrite reverse_involutive. Qed.

(** Defensive bound on any chain value (crates/wcash-pool-protocol/src/backend.rs). *)
Definition MAX_CHAIN_VALUE_ZAT : Z := 2100000000000000.

(** ** Protocol errors (crates/wcash-pool-protocol/src/error.rs) *)

Inductive ProtocolError : Type :=
| MissingLengthPrefix
| EmptyFrame (protocol : string)
| FrameTooLarge (protocol : string) (maximum actual : Z)
| InvalidFrameLength (declared actual : Z)
| InvalidLineFraming
| Json (message : string)
| InvalidField (field reason : string)
| UnsupportedMethod (method : string).

#[global] Instance ProtocolError_eq_dec : EqDecision ProtocolError.
Proof. solve_decision. Defined.

Definition invalid (field reason : string) : ProtocolError := InvalidField field reason.

(** ** Nonce partition (crates/wcash-pool-protocol/src/zip301.rs) *)

Inductive NonceProfile : Type := FourByte | EightByte.

#[global] Instance NonceProfile_eq_dec : EqDecision NonceProfile.
Proof. solve_decision. Defined.

Definition prefix_bytes (p : NonceProfile) : nat :=
  match p with FourByte => 4 | EightByte => 8 end.

Definition suffix_bytes (p : NonceProfile) : nat := 32 - prefix_bytes p.

Inductive NoncePrefix : Type :=
| Four (h : Hex4)
| Eight (h : Hex8).

#[global] Instance NoncePrefix_eq_dec : EqDecision NoncePrefix.
Proof. solve_decision. Defined.

Definition NoncePrefix_profile (p : NoncePrefix) : NonceProfile :=
  match p with Four _ => FourByte | Eight _ => EightByte end.

Definition NoncePrefix_as_bytes (p : NoncePrefix) : list Z :=
  match p with Four h => as_bytes h | Eight h => as_bytes h end.

Definition prefix_wf (p : NoncePrefix) : Prop :=
  match p with Four h => hex_wf h | Eight h => hex_wf h end.

Lemma prefix_wf_bytes p :
  prefix_wf p <-> byte_array (prefix_bytes (NoncePrefix_profile p)) (NoncePrefix_as_bytes p).
Proof. by destruct p. Qed.

Inductive NonceSuffix : Type :=
| TwentyEight (h : Hex28)
| TwentyFour (h : Hex24).

#[global] Instance NonceSuffix_eq_dec : EqDecision NonceSuffix.
Proof. solve_decision. Defined.

Definition NonceSuffix_profile (s : NonceSuffix) : NonceProfile :=
  match s with TwentyEight _ => FourByte | TwentyFour _ => EightByte end.

Definition suffix_wf (s : NonceSuffix) : Prop :=
  match s with TwentyEight h => hex_wf h | TwentyFour h => hex_wf h end.

(** The two [copy_from_slice] calls fill the whole array, so the nonce is the
    concatenation. *)
Definition join_nonce (prefix : NoncePrefix) (suffix : NonceSuffix) : result Hex32 ProtocolError :=
  match prefix, suffix with
  | Four p, TwentyEight s => Ok (FixedHex_new (as_bytes p ++ as_bytes s))
  | Eight p, TwentyFour s => Ok (FixedHex_new (as_bytes p ++ as_bytes s))
  | _, _ => Err (invalid "ZIP-301 nonce" "prefix and suffix use different profiles")
  end.

Lemma join_nonce_Ok p s :
  prefix_wf p -> suffix_wf s ->
  match join_nonce p s with
  | Ok n => NoncePrefix_profile p = NonceSuffix_profile s /\ hex_wf n /\
            exists t, as_bytes n = NoncePrefix_as_bytes p ++ t
  | Err _ => NoncePrefix_profile p <> NonceSuffix_profile s
  end.
Proof.
  destruct p as [p|p], s as [s|s]; cbn; intros [Hp Bp] [Hs Bs]; try done;
    (split; [done|]; split; [|by eexists]); split; simpl;
    rewrite ?length_app, ?Hp, ?Hs, ?Forall_app; done.
Qed.
