(* ===== verification/Target.v ===== *)
(** Endian-typed share targets and the interval of targets the pool may assign
    (crates/wcash-pool-core/src/target.rs). *)

From Stdlib Require Import ZArith Lia.
From stdpp Require Import prelude gmap sorting strings.
From S2P Require Import Prelude Wire.
Open Scope Z_scope.

(** ** Data *)

(** [ShareTarget([u8; 32])], big-endian; [Ord] is derived from the array. *)
Record ShareTarget : Type := mkShareTarget { st_bytes : list Z }.

#[global] Instance ShareTarget_eq_dec : EqDecision ShareTarget.
Proof. solve_decision. Defined.

Inductive ShareTargetError : Type := Zero.

Inductive TargetPolicyError : Type :=
| OperatorLimitExcludesNetworkWinner (required configured : ShareTarget)
| OutsideBounds (target hardest easiest : ShareTarget).

#[global] Instance TargetPolicyError_eq_dec : EqDecision TargetPolicyError.
Proof. solve_decision. Defined.

Record TargetBounds : Type := mkTargetBounds {
  wcash_network : ShareTarget;
  zcash_network : ShareTarget;
  hardest_allowed : ShareTarget;
  easiest_allowed : ShareTarget
}.

#[global] Instance TargetBounds_eq_dec : EqDecision TargetBounds.
Proof. solve_decision. Defined.

Record TargetBinding : Type := mkTargetBinding {
  tb_revision : Z;
  tb_target : ShareTarget;
  tb_bounds : TargetBounds
}.

#[global] Instance TargetBinding_eq_dec : EqDecision TargetBinding.
Proof. solve_decision. Defined.

(** ** Operations *)

Definition ShareTarget_MAX : ShareTarget := mkShareTarget (replicate 32 U8_MAX).

Definition ShareTarget_from_be_bytes (bytes : list Z) : result ShareTarget ShareTargetError :=
  if bool_decide (bytes = replicate 32 0) then Err Zero else Ok (mkShareTarget bytes).

Definition ShareTarget_from_zip301 (target : TargetBe) : result ShareTarget ShareTargetError :=
  ShareTarget_from_be_bytes (tbe_bytes target).

Definition ShareTarget_from_backend (target : TargetLe) : result ShareTarget ShareTargetError :=
  ShareTarget_from_zip301 (TargetBe_from_TargetLe target).

Definition ShareTarget_to_zip301 (self : ShareTarget) : TargetBe := TargetBe_new (st_bytes self).

Definition ShareTarget_to_backend (self : ShareTarget) : TargetLe :=
  TargetLe_from_TargetBe (ShareTarget_to_zip301 self).

(** The derived comparison and the [Ord] methods built on it. *)
Definition ShareTarget_cmp (a b : ShareTarget) : comparison :=
  bytes_compare (st_bytes a) (st_bytes b).

Definition ShareTarget_lt (a b : ShareTarget) : bool :=
  match ShareTarget_cmp a b with Lt => true | _ => false end.

Definition ShareTarget_min (a b : ShareTarget) : ShareTarget :=
  match ShareTarget_cmp a b with Gt => b | _ => a end.

Definition ShareTarget_max (a b : ShareTarget) : ShareTarget :=
  match ShareTarget_cmp a b with Gt => a | _ => b end.

(** [Ord::clamp]; Rust panics when [lo > hi], which the callers exclude
    (the last clause of [bounds_wf] below and [step_ordered] in Vardiff). *)
Definition ShareTarget_clamp (x lo hi : ShareTarget) : ShareTarget :=
  if ShareTarget_lt x lo then lo else if ShareTarget_lt hi x then hi else x.

Definition ShareTarget_harder (self other : ShareTarget) : ShareTarget := ShareTarget_min self other.
Definition ShareTarget_easier (self other : ShareTarget) : ShareTarget := ShareTarget_max self other.

Definition TargetBounds_new (wcash zcash operator_easiest : ShareTarget)
    : result TargetBounds TargetPolicyError :=
  let hardest := ShareTarget_max wcash zcash in
  if ShareTarget_lt operator_easiest hardest then
    Err (OperatorLimitExcludesNetworkWinner hardest operator_easiest)
  else
    Ok {| wcash_network := wcash; zcash_network := zcash;
          hardest_allowed := hardest; easiest_allowed := operator_easiest |}.

Definition TargetBounds_clamp (self : TargetBounds) (target : ShareTarget) : ShareTarget :=
  ShareTarget_clamp target (hardest_allowed self) (easiest_allowed self).

Definition TargetBounds_contains (self : TargetBounds) (target : ShareTarget) : bool :=
  negb (ShareTarget_lt target (hardest_allowed self)) &&
  negb (ShareTarget_lt (easiest_allowed self) target).

Definition TargetBinding_new (revision : Z) (target : ShareTarget) (bounds : TargetBounds)
    : result TargetBinding TargetPolicyError :=
  if negb (TargetBounds_contains bounds target) then
    Err (OutsideBounds target (hardest_allowed bounds) (easiest_allowed bounds))
  else
    Ok {| tb_revision := revision; tb_target := target; tb_bounds := bounds |}.

(** ** Invariants *)

(** The numeric 256-bit value of a target. *)
Definition tval (t : ShareTarget) : Z := be_val (st_bytes t).

Definition TARGET_MAX : Z := 2 ^ 256 - 1.

(** A target is a non-zero 32-byte array. *)
Definition target_wf (t : ShareTarget) : Prop :=
  byte_array 32 (st_bytes t) /\ 0 < tval t.

Definition bounds_wf (b : TargetBounds) : Prop :=
  target_wf (wcash_network b) /\ target_wf (zcash_network b) /\
  target_wf (hardest_allowed b) /\ target_wf (easiest_allowed b) /\
  tval (hardest_allowed b) = Z.max (tval (wcash_network b)) (tval (zcash_network b)) /\
  tval (hardest_allowed b) <= tval (easiest_allowed b).

Definition binding_wf (b : TargetBinding) : Prop :=
  bounds_wf (tb_bounds b) /\ target_wf (tb_target b) /\
  tval (hardest_allowed (tb_bounds b)) <= tval (tb_target b)
    <= tval (easiest_allowed (tb_bounds b)) /\
  0 <= tb_revision b <= U64_MAX.

(** ** Lemmas *)

Lemma target_wf_bound t : target_wf t -> 1 <= tval t <= TARGET_MAX.
Proof.
  intros [[Hlen Hb] Hpos]. pose proof (be_val_bound _ Hb) as Hv. rewrite Hlen in Hv.
  unfold tval, TARGET_MAX in *. change (256 ^ Z.of_nat 32) with (2 ^ 256) in Hv. lia.
Qed.

Lemma tval_inj a b : target_wf a -> target_wf b -> tval a = tval b -> a = b.
Proof.
  intros [[La Ba] _] [[Lb Bb] _] H. destruct a, b; simpl in *. f_equal.
  apply be_val_inj; [congruence|done..].
Qed.

Lemma ShareTarget_cmp_tval a b :
  target_wf a -> target_wf b -> ShareTarget_cmp a b = (tval a ?= tval b).
Proof. intros [[La Ba] _] [[Lb Bb] _]. apply bytes_compare_be_val; [congruence|done..]. Qed.

Lemma ShareTarget_lt_tval a b :
  target_wf a -> target_wf b -> ShareTarget_lt a b = (tval a <? tval b).
Proof. intros. unfold ShareTarget_lt, Z.ltb. by rewrite ShareTarget_cmp_tval. Qed.

Lemma ShareTarget_max_wf a b :
  target_wf a -> target_wf b -> target_wf (ShareTarget_max a b).
Proof. intros. unfold ShareTarget_max. by destruct ShareTarget_cmp. Qed.

Lemma ShareTarget_max_tval a b :
  target_wf a -> target_wf b -> tval (ShareTarget_max a b) = Z.max (tval a) (tval b).
Proof.
  intros. unfold ShareTarget_max. rewrite ShareTarget_cmp_tval by done.
  destruct (Z.compare_spec (tval a) (tval b)); lia.
Qed.

Lemma ShareTarget_min_tval a b :
  target_wf a -> target_wf b -> tval (ShareTarget_min a b) = Z.min (tval a) (tval b).
Proof.
  intros. unfold ShareTarget_min. rewrite ShareTarget_cmp_tval by done.
  destruct (Z.compare_spec (tval a) (tval b)); lia.
Qed.

Lemma ShareTarget_clamp_wf x lo hi :
  target_wf x -> target_wf lo -> target_wf hi -> target_wf (ShareTarget_clamp x lo hi).
Proof. intros. unfold ShareTarget_clamp. by repeat case_match. Qed.

Lemma ShareTarget_clamp_tval x lo hi :
  target_wf x -> target_wf lo -> target_wf hi -> tval lo <= tval hi ->
  tval (ShareTarget_clamp x lo hi) = Z.min (tval hi) (Z.max (tval lo) (tval x)).
Proof.
  intros. unfold ShareTarget_clamp. rewrite !ShareTarget_lt_tval by done.
  destruct (Z.ltb_spec (tval x) (tval lo)), (Z.ltb_spec (tval hi) (tval x)); lia.
Qed.

Lemma TargetBounds_clamp_wf b t :
  bounds_wf b -> target_wf t -> target_wf (TargetBounds_clamp b t).
Proof. intros (?&?&?&?&_) ?. by apply ShareTarget_clamp_wf. Qed.

Lemma TargetBounds_clamp_tval b t :
  bounds_wf b -> target_wf t ->
  tval (TargetBounds_clamp b t) =
  Z.min (tval (easiest_allowed b)) (Z.max (tval (hardest_allowed b)) (tval t)).
Proof. intros (?&?&?&?&?&?) ?. by apply ShareTarget_clamp_tval. Qed.

Lemma TargetBounds_contains_spec b t :
  bounds_wf b -> target_wf t ->
  TargetBounds_contains b t = true <->
  tval (hardest_allowed b) <= tval t <= tval (easiest_allowed b).
Proof.
  intros (?&?&?&?&?&?) ?. unfold TargetBounds_contains.
  rewrite !ShareTarget_lt_tval by done.
  destruct (Z.ltb_spec (tval t) (tval (hardest_allowed b))),
    (Z.ltb_spec (tval (easiest_allowed b)) (tval t)); simpl; split; intros; (done || lia).
Qed.

Lemma TargetBounds_new_Ok w z e b :
  target_wf w -> target_wf z -> target_wf e ->
  TargetBounds_new w z e = Ok b ->
  bounds_wf b /\ wcash_network b = w /\ zcash_network b = z /\ easiest_allowed b = e.
Proof.
  intros Hw Hz He. unfold TargetBounds_new.
  rewrite ShareTarget_lt_tval by auto using ShareTarget_max_wf.
  destruct (Z.ltb_spec (tval e) (tval (ShareTarget_max w z))); intros [= <-].
  split_and!; try done. unfold bounds_wf; simpl.
  split_and!; auto using ShareTarget_max_wf, ShareTarget_max_tval.
Qed.

(** Clamping into well-formed bounds always yields a bindable target. *)
Lemma TargetBinding_new_clamp r b t :
  bounds_wf b -> target_wf t -> 0 <= r <= U64_MAX ->
  exists tb, TargetBinding_new r (TargetBounds_clamp b t) b = Ok tb /\
    tb = mkTargetBinding r (TargetBounds_clamp b t) b /\ binding_wf tb.
Proof.
  intros Hb Ht Hr. pose proof (TargetBounds_clamp_wf b t Hb Ht) as Hw.
  pose proof (TargetBounds_clamp_tval b t Hb Ht) as Hv.
  assert (tval (hardest_allowed b) <= tval (TargetBounds_clamp b t) <= tval (easiest_allowed b))
    as Hin by (destruct Hb as (?&?&?&?&?&?); lia).
  assert (TargetBounds_contains b (TargetBounds_clamp b t) = true) as Hc
    by (by apply TargetBounds_contains_spec).
  unfold TargetBinding_new. rewrite Hc. simpl. eexists; split; [done|]; split; [done|].
  unfold binding_wf; simpl. tauto.
Qed.
#[export] Hint Resolve TargetBounds_clamp_wf ShareTarget_max_wf ShareTarget_clamp_wf : pool.

Lemma TargetBinding_new_Ok r t b tb :
  bounds_wf b -> target_wf t -> 0 <= r <= U64_MAX ->
  TargetBinding_new r t b = Ok tb -> binding_wf tb /\ tb = mkTargetBinding r t b.
Proof.
  intros Hb Ht Hr H. unfold TargetBinding_new in H.
  destruct (TargetBounds_contains b t) eqn:Hc; [|discriminate]. injection H as <-.
  apply TargetBounds_contains_spec in Hc; [|done..]. split; [|done].
  unfold binding_wf; simpl. tauto.
Qed.

Lemma ShareTarget_from_be_bytes_Ok l :
  byte_array 32 l -> 0 < be_val l ->
  ShareTarget_from_be_bytes l = Ok (mkShareTarget l) /\ target_wf (mkShareTarget l).
Proof.
  intros Hl Hv. unfold ShareTarget_from_be_bytes. rewrite bool_decide_eq_false_2; [by split|].
  intros ->. vm_compute in Hv. discriminate.
Qed.

(** ** Properties *)

(** The bounds constructor accepts an operator ceiling exactly when it is at least as
    easy as the easier of the two network targets, and otherwise reports that ceiling
    together with the required floor.  A target bound under accepted bounds is therefore
    never harder than either network target: a header hash that wins on Wcash or on Zcash
    is also a valid pool share. *)
Theorem network_winner_is_valid_share
    (wcash zcash easiest target : ShareTarget) (revision : Z)
    (Hw : target_wf wcash) (Hz : target_wf zcash) (He : target_wf easiest)
    (Ht : target_wf target) (Hr : 0 <= revision <= U64_MAX) :
  (Z.max (tval wcash) (tval zcash) <= tval easiest ->
   exists b, TargetBounds_new wcash zcash easiest = Ok b /\
     forall tb hash,
       TargetBinding_new revision target b = Ok tb ->
       (hash <= tval wcash \/ hash <= tval zcash) -> hash <= tval (tb_target tb)) /\
  (tval easiest < Z.max (tval wcash) (tval zcash) ->
   TargetBounds_new wcash zcash easiest =
     Err (OperatorLimitExcludesNetworkWinner (ShareTarget_max wcash zcash) easiest)).
Proof.
  pose proof (ShareTarget_max_wf _ _ Hw Hz) as Hm.
  assert (ShareTarget_lt easiest (ShareTarget_max wcash zcash) =
          (tval easiest <? Z.max (tval wcash) (tval zcash))) as Hlt
    by (by rewrite ShareTarget_lt_tval, ShareTarget_max_tval).
  split; intros Hle.
  - destruct (TargetBounds_new wcash zcash easiest) as [b|e] eqn:Hb.
    + exists b. split; [done|]. intros tb hash Htb Hh.
      destruct (TargetBounds_new_Ok _ _ _ _ Hw Hz He Hb) as (Hbw & <- & <- & _).
      destruct (TargetBinding_new_Ok _ _ _ _ Hbw Ht Hr Htb) as [(_ & _ & Hin & _) ->].
      destruct Hbw as (_&_&_&_&Hmax&_). simpl in *. lia.
    + unfold TargetBounds_new in Hb. rewrite Hlt in Hb.
      destruct (Z.ltb_spec (tval easiest) (Z.max (tval wcash) (tval zcash))); [lia|done].
  - unfold TargetBounds_new. rewrite Hlt.
    destruct (Z.ltb_spec (tval easiest) (Z.max (tval wcash) (tval zcash))); [done|lia].
Qed.

(** Importing an exported target gives it back, in either byte order: the ZIP-301
    (big-endian) and the backend (little-endian) encodings are mutually inverse on valid
    targets, both reject zero, and the derived array order is the numeric order. *)
Theorem target_encodings_roundtrip (t u : ShareTarget) (Ht : target_wf t) (Hu : target_wf u) :
  ShareTarget_from_backend (ShareTarget_to_backend t) = Ok t /\
  ShareTarget_from_zip301 (ShareTarget_to_zip301 t) = Ok t /\
  le_val (tle_bytes (ShareTarget_to_backend t)) = tval t /\
  ShareTarget_from_backend (TargetLe_new (replicate 32 0)) = Err Zero /\
  ShareTarget_from_zip301 (TargetBe_new (replicate 32 0)) = Err Zero /\
  ShareTarget_cmp t u = (tval t ?= tval u).
Proof.
  destruct Ht as [Hl Hp] eqn:Heq.
  destruct (ShareTarget_from_be_bytes_Ok (st_bytes t) Hl Hp) as [Hok _].
  assert (mkShareTarget (st_bytes t) = t) as Et by (by destruct t). rewrite Et in Hok.
  split_and!; [|done| |done|done|by apply ShareTarget_cmp_tval].
  - unfold ShareTarget_from_backend, ShareTarget_to_backend.
    by rewrite target_endian_roundtrip_be.
  - unfold ShareTarget_to_backend, TargetLe_from_TargetBe, tval; simpl.
    by rewrite <- (reverse_involutive (st_bytes t)), be_val_reverse, reverse_involutive.
Qed.

(** A one-byte target for concrete examples ([small] of the code's own tests). *)
Definition small (v : Z) : ShareTarget := mkShareTarget (replicate 31 0 ++ [v]).

Lemma small_wf v : 0 < v < 256 -> target_wf (small v).
Proof.
  intros Hv. unfold target_wf, byte_array, small, tval; simpl. split_and!.
  - done.
  - repeat constructor; unfold is_byte; lia.
  - unfold be_val; simpl. lia.
Qed.

Lemma network_winner_is_valid_share_witness :
  Z.max (tval (small 2)) (tval (small 4)) <= tval (small 8) /\
  exists b, TargetBounds_new (small 2) (small 4) (small 8) = Ok b.
Proof.
  split; [vm_compute; discriminate|].
  destruct (network_winner_is_valid_share (small 2) (small 4) (small 8) (small 5) 7
    ltac:(apply small_wf; lia) ltac:(apply small_wf; lia) ltac:(apply small_wf; lia)
    ltac:(apply small_wf; lia) ltac:(vm_compute; split; discriminate)) as [H _].
  destruct H as [b [Hb _]]; [vm_compute; discriminate|]. exists b; exact Hb.
Defined.

Lemma target_encodings_roundtrip_witness :
  ShareTarget_from_backend (ShareTarget_to_backend (small 9)) = Ok (small 9).
Proof.
  exact (proj1 (target_encodings_roundtrip (small 9) (small 3)
    ltac:(apply small_wf; lia) ltac:(apply small_wf; lia))).
Defined.
