(* ===== verification/Limbs.v ===== *)
(** 256-bit limb arithmetic of the variable-difficulty policy
    (crates/wcash-pool-core/src/vardiff.rs, lines 301-377) and its exact numeric meaning:
    multiplication, bit-serial division and scaling of share targets. *)

From Stdlib Require Import ZArith Lia.
From stdpp Require Import prelude gmap sorting strings.
From S2P Require Import Prelude Wire Target.
Open Scope Z_scope.

(** ** 256-bit limb arithmetic *)

Definition limb_base : Z := 2 ^ 64.

(** [bytes[start..start + src.len()].copy_from_slice(src)]. *)
Definition copy_slice (bytes : list Z) (start : nat) (src : list Z) : list Z :=
  take start bytes ++ src ++ drop (start + length src) bytes.

(** [bytes.rchunks_exact(8).enumerate()]: limb [i] is the [i]-th chunk from the end. *)
Definition to_little_limbs (target : ShareTarget) : list Z :=
  (fun index : nat => be_val (take 8 (drop (24 - index * 8) (st_bytes target)))) <$> seq 0 4.

Definition from_little_limbs (limbs : list Z) : ShareTarget :=
  let bytes :=
    foldl (fun bytes '(index, limb) => copy_slice bytes (24 - index * 8) (be_bytes 8 limb))
      (replicate 32 0) (imap pair limbs) in
  let bytes := if bool_decide (bytes = replicate 32 0) then <[31%nat := 1]> bytes else bytes in
  mkShareTarget bytes.

Definition multiply_limbs (limbs : list Z) (multiplier : Z) : list Z :=
  let '(result, carry) :=
    foldl (fun '(result, carry) '(index, limb) =>
             let product := limb * multiplier + carry in
             (<[index := product mod limb_base]> result, Z.shiftr product 64))
      (replicate 5 0, 0) (imap pair limbs) in
  <[4%nat := carry mod limb_base]> result.

(** State of the bit-serial division: [(quotient, remainder, overflow)]. *)
Definition divide_step (numerator : list Z) (divisor : Z)
    (st : list Z * Z * bool) (bit_index : nat) : list Z * Z * bool :=
  let '(quotient, remainder, overflow) := st in
  let limb := (bit_index `div` 64)%nat in
  let shift := Z.of_nat (bit_index `mod` 64)%nat in
  let input_bit := Z.land (Z.shiftr (numerator !!! limb) shift) 1 in
  let high := negb (Z.shiftr remainder 127 =? 0) in
  let remainder := Z.lor (Z.shiftl remainder 1 mod 2 ^ 128) input_bit in
  if high || (divisor <=? remainder) then
    let remainder := (remainder - divisor) mod 2 ^ 128 in
    if (256 <=? bit_index)%nat then (quotient, remainder, true)
    else (<[limb := Z.lor (quotient !!! limb) (Z.shiftl 1 shift)]> quotient, remainder, overflow)
  else (quotient, remainder, overflow).

Definition divide_320_by_128 (numerator : list Z) (divisor : Z) : list Z :=
  let '(quotient, _, overflow) :=
    foldl (divide_step numerator divisor) (replicate 4 0, 0, false) (reverse (seq 0 320)) in
  if (overflow : bool) then replicate 4 (2 ^ 64 - 1) else quotient.

Definition scale_target (target : ShareTarget) (multiplier divisor : Z) : ShareTarget :=
  let product := multiply_limbs (to_little_limbs target) multiplier in
  from_little_limbs (divide_320_by_128 product divisor).

Definition multiply_target (target : ShareTarget) (multiplier : Z) : ShareTarget :=
  let product := multiply_limbs (to_little_limbs target) multiplier in
  if negb (product !!! 4%nat =? 0) then ShareTarget_MAX
  else from_little_limbs (take 4 product).

Definition divide_target (target : ShareTarget) (divisor : Z) : ShareTarget :=
  scale_target target 1 divisor.

(** The code's own test vectors. *)
Definition target_hex (v : Z) : ShareTarget := mkShareTarget (be_bytes 32 v).
Definition asymmetric : ShareTarget :=
  target_hex 0x0123456789abcdef00112233445566778899aabbccddeeff1020304050607080.

Example vector_multiply : multiply_target asymmetric 3 =
  target_hex 0x0369d0369d0369cd00336699cd00336699cd00336699ccfd306090c0f1215180.
Proof. vm_compute. reflexivity. Qed.
Example vector_divide : divide_target asymmetric 3 =
  target_hex 0x00611722833944a50005b61116c72227d83338e94449fa550560101570202580.
Proof. vm_compute. reflexivity. Qed.
Example vector_scale : scale_target asymmetric 17 13 =
  target_hex 0x017ce49b167e34aeb1517b7e1e484aeb1517b7e1e484aeb001652b67cb91ce31.
Proof. vm_compute. reflexivity. Qed.
Example vector_saturates : multiply_target ShareTarget_MAX 2 = ShareTarget_MAX.
Proof. vm_compute. reflexivity. Qed.
Example vector_zero : scale_target (small 1) 0 1 = small 1.
Proof. vm_compute. reflexivity. Qed.

(** ** Numeric meaning of the limb arithmetic *)

Fixpoint limbs_val (l : list Z) : Z :=
  match l with
  | [] => 0
  | x :: l' => x + limb_base * limbs_val l'
  end.

Definition is_limb (x : Z) : Prop := 0 <= x < limb_base.

Lemma limbs_val_bound l :
  Forall is_limb l -> 0 <= limbs_val l < limb_base ^ Z.of_nat (length l).
Proof.
  induction 1 as [|x l Hx _ IH]; [simpl; lia|].
  cbn [limbs_val length]. rewrite Nat2Z.inj_succ, Z.pow_succ_r by lia.
  unfold is_limb, limb_base in *. nia.
Qed.

Lemma limbs_val_insert l (i : nat) x :
  (i < length l)%nat ->
  limbs_val (<[i := x]> l) = limbs_val l + (x - l !!! i) * limb_base ^ Z.of_nat i.
Proof.
  revert i; induction l as [|y l IH]; intros [|i] Hi; simpl in Hi; try lia.
  - cbn. lia.
  - change (<[S i := x]> (y :: l)) with (y :: <[i := x]> l). cbn [limbs_val].
    rewrite IH by lia. change ((y :: l) !!! S i) with (l !!! i).
    rewrite Nat2Z.inj_succ, Z.pow_succ_r by lia. ring.
Qed.

(** Bit [b] of the limb array is bit [b mod 64] of limb [b / 64]. *)
Lemma limbs_val_bit l (b : nat) :
  Forall is_limb l -> (b < 64 * length l)%nat ->
  (limbs_val l / 2 ^ Z.of_nat b) mod 2 =
  (l !!! (b `div` 64)%nat / 2 ^ Z.of_nat (b `mod` 64)) mod 2.
Proof.
  intros Hl. revert b. induction Hl as [|x l Hx Hl IH]; intros b Hb; simpl in Hb; [lia|].
  cbn [limbs_val]. destruct (decide (b < 64)%nat) as [Hlt|Hge].
  - rewrite Nat.div_small, Nat.mod_small by lia. cbn [lookup_total list_lookup_total].
    replace (x + limb_base * limbs_val l)
      with (x + (2 * 2 ^ (63 - Z.of_nat b) * limbs_val l) * 2 ^ Z.of_nat b).
    + rewrite Z.div_add by lia.
      replace (2 * 2 ^ (63 - Z.of_nat b) * limbs_val l)
        with ((2 ^ (63 - Z.of_nat b) * limbs_val l) * 2) by ring.
      by rewrite Z_mod_plus_full.
    + unfold limb_base.
      replace (2 ^ 64) with (2 * 2 ^ (63 - Z.of_nat b) * 2 ^ Z.of_nat b); [ring|].
      rewrite <- (Z.pow_succ_r 2 (63 - Z.of_nat b)), <- Z.pow_add_r by lia. f_equal; lia.
  - replace b with (1 * 64 + (b - 64))%nat by lia.
    rewrite Nat.div_add_l, Nat.add_comm, Nat.Div0.mod_add by lia.
    replace (1 + (b - 64) `div` 64)%nat with (S ((b - 64) `div` 64)) by lia.
    change ((x :: l) !!! S ((b - 64) `div` 64)) with (l !!! ((b - 64) `div` 64)%nat).
    rewrite <- IH by lia.
    replace (2 ^ Z.of_nat (b - 64 + 1 * 64)) with (limb_base * 2 ^ Z.of_nat (b - 64)).
    + rewrite <- Z.div_div by (unfold limb_base; lia). do 2 f_equal.
      unfold is_limb in Hx. rewrite Z.mul_comm, Z.div_add, Z.div_small by (unfold limb_base in *; lia).
      lia.
    + unfold limb_base. rewrite <- Z.pow_add_r by lia. f_equal; lia.
Qed.

Lemma lor_set_bit a s :
  0 <= a < 2 ^ 64 -> 0 <= s < 64 -> (a / 2 ^ s) mod 2 = 0 ->
  Z.lor a (Z.shiftl 1 s) = a + 2 ^ s /\ a + 2 ^ s < 2 ^ 64.
Proof.
  intros Ha Hs Hbit. rewrite Z.shiftl_mul_pow2, Z.mul_1_l by lia.
  assert (Z.lor a (2 ^ s) = a + 2 ^ s) as Hlor by (apply lor_clear_bit; [lia|done]).
  split; [done|]. rewrite <- Hlor.
  destruct (Z.lt_ge_cases (Z.lor a (2 ^ s)) (2 ^ 64)) as [|Hge]; [done|exfalso].
  assert (Z.shiftr (Z.lor a (2 ^ s)) 64 = 0) as H0.
  { rewrite Z.shiftr_lor, !Z.shiftr_div_pow2 by lia. rewrite (Z.div_small a), Z.div_small; [done| |lia].
    split; [lia|]. apply Z.pow_lt_mono_r; lia. }
  rewrite Z.shiftr_div_pow2 in H0 by lia. apply Z.div_small_iff in H0; lia.
Qed.

Lemma lor_even_bit a c : a mod 2 = 0 -> 0 <= c <= 1 -> Z.lor a c = a + c.
Proof.
  intros Ha Hc. pose proof (Z.add_lor_land a c) as Hsum.
  enough (Z.land a c = 0) by lia.
  assert (c = 0 \/ c = 1) as [-> | ->] by lia; [apply Z.land_0_r|].
  change 1 with (Z.ones 1). by rewrite Z.land_ones by lia.
Qed.

(** One step of schoolbook division on the whole prefix. *)
Lemma quotient_step P c d :
  0 < d -> 0 <= c <= 1 ->
  let x := 2 * (P mod d) + c in
  let carry := if d <=? x then 1 else 0 in
  (2 * P + c) / d = 2 * (P / d) + carry /\ (2 * P + c) mod d = x - carry * d.
Proof.
  intros Hd Hc x carry. pose proof (Z.div_mod P d) as HP. pose proof (Z.mod_pos_bound P d Hd).
  assert (0 <= x - carry * d < d) as Hr
    by (unfold carry; destruct (Z.leb_spec d x); unfold x in *; lia).
  assert (2 * P + c = d * (2 * (P / d) + carry) + (x - carry * d)) as Heq
    by (unfold x in *; nia).
  split; symmetry; [eapply Z.div_unique_pos|eapply Z.mod_unique_pos]; eauto.
Qed.

(** The 128-bit remainder update: the dropped top bit is recovered by [high]. *)
Lemma remainder_step r c d :
  0 <= r < d -> d <= U128_MAX -> 0 <= c <= 1 ->
  let r' := Z.lor (Z.shiftl r 1 mod 2 ^ 128) c in
  let x := 2 * r + c in
  (negb (Z.shiftr r 127 =? 0) || (d <=? r'))%bool = (d <=? x) /\
  (d <= x -> (r' - d) mod 2 ^ 128 = x - d) /\ (x < d -> r' = x).
Proof.
  intros Hr Hd Hc r' x. unfold U128_MAX in Hd.
  assert (r' = 2 * r mod 2 ^ 128 + c) as Hr'.
  { unfold r'. rewrite Z.shiftl_mul_pow2 by lia. rewrite (Z.mul_comm r).
    apply lor_even_bit; [|done].
    change (2 ^ 1 * r) with (2 * r). change (2 ^ 128) with (2 * 2 ^ 127).
    rewrite Z.mul_mod_distr_l by lia. rewrite Z.mul_comm. apply Z.mod_mul; lia. }
  rewrite Hr', Z.shiftr_div_pow2 by lia. unfold x in *.
  destruct (Z.lt_ge_cases r (2 ^ 127)) as [Hlow|Hhigh].
  - rewrite Z.div_small by lia. rewrite (Z.mod_small (2 * r)) by lia.
    split_and!; [done| |done].
    intros. rewrite Z.mod_small; lia.
  - assert (2 * r mod 2 ^ 128 = 2 * r - 2 ^ 128) as ->.
    { symmetry. apply (Z.mod_unique_pos _ _ 1); lia. }
    assert (r / 2 ^ 127 <> 0) as Hnz by (intros Hz; apply Z.div_small_iff in Hz; lia).
    apply Z.eqb_neq in Hnz. rewrite Hnz. simpl negb. rewrite orb_true_l.
    split_and!; [symmetry; apply Z.leb_le; lia| |lia].
    intros. replace (2 * r - 2 ^ 128 + c - d) with ((2 * r + c - d) + (-1) * 2 ^ 128) by ring.
    rewrite Z_mod_plus_full, Z.mod_small; lia.
Qed.

Definition div_inv (N d : Z) (k : nat) (st : list Z * Z * bool) : Prop :=
  let '(q, r, ov) := st in
  let F := N / 2 ^ Z.of_nat k / d * 2 ^ Z.of_nat k in
  length q = 4%nat /\ Forall is_limb q /\ r = (N / 2 ^ Z.of_nat k) mod d /\
  limbs_val q = F mod 2 ^ 256 /\ ov = (2 ^ 256 <=? F).

(** Adding bit [b] to a multiple of [2^(b+1)], below bit 256. *)
Lemma set_quotient_bit A (b : nat) :
  (b < 256)%nat ->
  let F := A * 2 ^ Z.of_nat (S b) in
  ((F mod 2 ^ 256) / 2 ^ Z.of_nat b) mod 2 = 0 /\
  (F + 2 ^ Z.of_nat b) mod 2 ^ 256 = F mod 2 ^ 256 + 2 ^ Z.of_nat b /\
  (2 ^ 256 <=? F + 2 ^ Z.of_nat b) = (2 ^ 256 <=? F).
Proof.
  intros Hb F. set (p := 2 ^ Z.of_nat b). assert (0 < p) as Hp by (apply Z.pow_pos_nonneg; lia).
  assert (F = A * 2 * p) as HF
    by (unfold F, p; rewrite Nat2Z.inj_succ, Z.pow_succ_r by lia; ring).
  set (m := 2 ^ (255 - Z.of_nat b)).
  assert (0 < m) as Hm by (apply Z.pow_pos_nonneg; lia).
  assert (2 ^ 256 = m * 2 * p) as HM.
  { unfold m, p. rewrite <- (Z.mul_assoc _ 2), (Z.mul_comm 2), Z.mul_assoc.
    rewrite <- Z.pow_add_r, <- (Z.mul_comm 2), <- Z.pow_succ_r by lia. f_equal; lia. }
  rewrite HM, HF. rewrite <- (Z.mul_assoc A), <- (Z.mul_assoc m).
  assert (0 < 2 * p) as H2p by lia.
  rewrite Z.mul_mod_distr_r by lia. split_and!.
  - rewrite Z.mul_assoc, Z.div_mul by lia. apply Z.mod_mul; lia.
  - pose proof (Z.mod_pos_bound A m Hm). symmetry.
    apply (Z.mod_unique_pos _ _ (A / m)); [nia|].
    pose proof (Z.div_mod A m). nia.
  - destruct (Z.leb_spec (m * (2 * p)) (A * (2 * p)));
      [apply Z.leb_le; lia|apply Z.leb_gt].
    assert (A + 1 <= m) by nia. nia.
Qed.

(** Recording quotient bit [b]: above bit 255 only the overflow flag, otherwise the limb's bit. *)
Lemma overflow_bit A (b : nat) : (256 <= b)%nat -> 0 <= A ->
  let F := A * 2 ^ Z.of_nat (S b) in
  (F + 2 ^ Z.of_nat b) mod 2 ^ 256 = F mod 2 ^ 256 /\ (2 ^ 256 <=? F + 2 ^ Z.of_nat b) = true.
Proof.
  intros Hb HA F. split.
  - replace (2 ^ Z.of_nat b) with (2 ^ (Z.of_nat b - 256) * 2 ^ 256)
      by (rewrite <- Z.pow_add_r by lia; f_equal; lia).
    by rewrite Z_mod_plus_full.
  - apply Z.leb_le. assert (2 ^ 256 <= 2 ^ Z.of_nat b) by (apply Z.pow_le_mono_r; lia).
    assert (0 <= F); [|lia]. apply Z.mul_nonneg_nonneg; lia.
Qed.

Lemma record_bit A q (b : nat) : (b < 256)%nat -> length q = 4%nat -> Forall is_limb q ->
  limbs_val q = (A * 2 ^ Z.of_nat (S b)) mod 2 ^ 256 ->
  let q' := <[(b `div` 64)%nat := Z.lor (q !!! (b `div` 64)%nat) (Z.shiftl 1 (Z.of_nat (b `mod` 64)))]> q in
  length q' = 4%nat /\ Forall is_limb q' /\
  limbs_val q' = (A * 2 ^ Z.of_nat (S b) + 2 ^ Z.of_nat b) mod 2 ^ 256.
Proof.
  intros Hlo Hql Hq Hval. cbv zeta. destruct (set_quotient_bit A b Hlo) as (Hz & Hadd & _).
  rewrite <- Hval, limbs_val_bit in Hz by (done || lia).
  assert ((b `div` 64 < 4)%nat) as Hi by (apply Nat.Div0.div_lt_upper_bound; lia).
  assert (exists y, q !! (b `div` 64)%nat = Some y) as [y Hy] by (apply lookup_lt_is_Some_2; lia).
  pose proof (Forall_lookup_1 _ _ _ _ Hq Hy) as Hyl.
  rewrite (list_lookup_total_correct _ _ _ Hy) in Hz |- *.
  pose proof (Nat.mod_upper_bound b 64 ltac:(lia)) as Hms.
  destruct (lor_set_bit y (Z.of_nat (b `mod` 64))) as [Hlor Hlb]; [done|lia|done|].
  rewrite Hlor. split_and!.
  - by rewrite length_insert.
  - apply Forall_insert; [done|]. unfold is_limb, limb_base in *. lia.
  - rewrite limbs_val_insert by lia. rewrite (list_lookup_total_correct _ _ _ Hy).
    rewrite Hadd, Hval. f_equal. unfold limb_base.
    rewrite Z.add_simpl_l, <- Z.pow_mul_r, <- Z.pow_add_r by lia.
    f_equal. pose proof (Nat.div_mod_eq b 64). lia.
Qed.

Lemma divide_step_inv num d (b : nat) st :
  Forall is_limb num -> length num = 5%nat -> 0 < d <= U128_MAX -> (b < 320)%nat ->
  div_inv (limbs_val num) d (S b) st ->
  div_inv (limbs_val num) d b (divide_step num d st b).
Proof.
  intros Hnum Hlen Hd Hb. destruct st as [[q r] ov]. unfold div_inv, divide_step.
  set (N := limbs_val num). intros (Hql & Hq & Hr & Hval & Hov).
  set (P := N / 2 ^ Z.of_nat (S b)) in *.
  set (c := (N / 2 ^ Z.of_nat b) mod 2).
  assert (0 <= c <= 1) as Hc by (pose proof (Z.mod_pos_bound (N / 2 ^ Z.of_nat b) 2); lia).
  assert (Z.land (Z.shiftr (num !!! (b `div` 64)%nat) (Z.of_nat (b `mod` 64)%nat)) 1 = c) as ->.
  { change 1 with (Z.ones 1). rewrite Z.land_ones, Z.shiftr_div_pow2 by lia.
    unfold c, N. by rewrite limbs_val_bit by (done || lia). }
  assert (N / 2 ^ Z.of_nat b = 2 * P + c) as HP.
  { unfold P, c. rewrite Nat2Z.inj_succ, Z.pow_succ_r by lia.
    rewrite (Z.mul_comm 2 (2 ^ Z.of_nat b)), <- Z.div_div by lia. apply Z.div_mod. lia. }
  assert (0 <= P / d) as HPd
    by (apply Z.div_pos; [apply Z.div_pos; [by apply limbs_val_bound|lia]|lia]).
  rewrite HP. pose proof (Z.mod_pos_bound P d ltac:(lia)) as Hrd. rewrite <- Hr in Hrd.
  destruct (remainder_step r c d Hrd ltac:(lia) Hc) as (Hcond & Hsub & Hkeep).
  destruct (quotient_step P c d ltac:(lia) Hc) as (Hquot & Hmod).
  rewrite <- Hr in Hquot, Hmod. rewrite Hcond.
  assert (P / d * 2 * 2 ^ Z.of_nat b = P / d * 2 ^ Z.of_nat (S b)) as HF
    by (rewrite Nat2Z.inj_succ, Z.pow_succ_r by lia; ring).
  destruct (Z.leb_spec d (2 * r + c)) as [Hge|Hlt]; rewrite Hquot, Hmod.
  - replace ((2 * (P / d) + 1) * 2 ^ Z.of_nat b)
      with (P / d * 2 ^ Z.of_nat (S b) + 2 ^ Z.of_nat b) by lia.
    destruct (Nat.leb_spec 256 b) as [Hhi|Hlo].
    + destruct (overflow_bit (P / d) b Hhi HPd) as [H1 H2].
      split_and!; [done..|rewrite Hsub by done; lia|by rewrite H1|by rewrite H2].
    + destruct (record_bit (P / d) q b Hlo Hql Hq Hval) as (H1 & H2 & H3).
      destruct (set_quotient_bit (P / d) b Hlo) as (_ & _ & Hle).
      split_and!; [done..|rewrite Hsub by done; lia|done|by rewrite Hle].
  - replace ((2 * (P / d) + 0) * 2 ^ Z.of_nat b) with (P / d * 2 ^ Z.of_nat (S b)) by lia.
    split_and!; [done..|rewrite Hkeep by done; lia|done|done].
Qed.

Lemma divide_loop num d (n : nat) :
  Forall is_limb num -> length num = 5%nat -> 0 < d <= U128_MAX -> (n <= 320)%nat ->
  div_inv (limbs_val num) d (320 - n)
    (foldl (divide_step num d) (replicate 4 0, 0, false) (reverse (seq (320 - n) n))).
Proof.
  intros Hnum Hlen Hd. induction n as [|n IH]; intros Hn.
  - assert (limbs_val num / 2 ^ Z.of_nat (320 - 0) = 0) as HP.
    { pose proof (limbs_val_bound num Hnum) as HB. rewrite Hlen in HB.
      apply Z.div_small. change (2 ^ Z.of_nat (320 - 0)) with (limb_base ^ Z.of_nat 5). lia. }
    cbn [seq reverse foldl]. unfold div_inv. rewrite HP, Z.div_0_l, Z.mul_0_l, !Z.mod_0_l by lia.
    split_and!; [done| |done..]. repeat constructor; unfold is_limb, limb_base; lia.
  - replace (320 - n)%nat with (S (320 - S n)) in IH by lia.
    cbn [seq]. rewrite reverse_cons, foldl_app. cbn [foldl].
    apply divide_step_inv; [done..|lia|]. apply IH. lia.
Qed.

(** The bit-serial routine is floor division, saturating at 256 bits. *)
Lemma divide_320_by_128_val num d :
  Forall is_limb num -> length num = 5%nat -> 0 < d <= U128_MAX ->
  let q := divide_320_by_128 num d in
  length q = 4%nat /\ Forall is_limb q /\
  limbs_val q = Z.min TARGET_MAX (limbs_val num / d).
Proof.
  intros Hnum Hlen Hd. unfold divide_320_by_128.
  pose proof (divide_loop num d 320 Hnum Hlen Hd ltac:(lia)) as Hinv.
  change (320 - 320)%nat with 0%nat in Hinv.
  destruct (foldl _ _ _) as [[q r] ov]. unfold div_inv in Hinv.
  change (2 ^ Z.of_nat 0) with 1 in Hinv. rewrite Z.div_1_r, Z.mul_1_r in Hinv.
  destruct Hinv as (Hl & Hq & _ & Hv & ->).
  pose proof (limbs_val_bound num Hnum) as HB. unfold TARGET_MAX.
  assert (0 <= limbs_val num / d) by (apply Z.div_pos; lia).
  destruct (Z.leb_spec (2 ^ 256) (limbs_val num / d)).
  - split_and!; [done|repeat constructor; unfold is_limb, limb_base; lia|].
    transitivity (2 ^ 256 - 1); [reflexivity|lia].
  - split_and!; [done..|]. rewrite Hv, Z.mod_small; lia.
Qed.

Lemma be_val_take_drop (n : nat) l :
  be_val l = be_val (take n l) * 256 ^ Z.of_nat (length l - n) + be_val (drop n l).
Proof. by rewrite <- (take_drop n l) at 1; rewrite be_val_app, length_drop. Qed.

Lemma chunk_is_limb l : Forall is_byte l -> length l = 8%nat -> is_limb (be_val l).
Proof. intros Hl E. pose proof (be_val_bound l Hl) as HB. by rewrite E in HB. Qed.

Lemma to_little_limbs_val t :
  target_wf t ->
  length (to_little_limbs t) = 4%nat /\ Forall is_limb (to_little_limbs t) /\
  limbs_val (to_little_limbs t) = tval t.
Proof.
  intros [[Hlen Hb] _]. destruct t as [l]; unfold tval, to_little_limbs in *; simpl in Hlen, Hb.
  cbn [fmap list_fmap seq st_bytes Nat.mul Nat.sub Nat.add].
  split_and!; [done| |].
  - assert (forall n : nat, (n <= 24)%nat -> is_limb (be_val (take 8 (drop n l)))) as Hchunk.
    { intros n Hn. apply chunk_is_limb; [by apply Forall_take, Forall_drop|].
      rewrite length_take, length_drop. lia. }
    repeat (apply Forall_cons_2; [apply Hchunk; lia|]). apply Forall_nil_2.
  - rewrite (be_val_take_drop 8 l), (be_val_take_drop 8 (drop 8 l)),
      (be_val_take_drop 8 (drop 8 (drop 8 l))), !length_drop, Hlen.
    rewrite !(skipn_skipn). cbn [Nat.add Nat.sub Nat.mul limbs_val].
    rewrite (take_ge (drop 24 l) 8) by (rewrite length_drop; lia).
    rewrite drop_0. unfold limb_base.
    change (256 ^ Z.of_nat 24) with (2 ^ 64 * (2 ^ 64 * 2 ^ 64)).
    change (256 ^ Z.of_nat 16) with (2 ^ 64 * 2 ^ 64).
    change (256 ^ Z.of_nat 8) with (2 ^ 64). ring.
Qed.

Lemma copy_slice_app l1 l2 l3 (n : nat) src :
  length l1 = n -> length l2 = length src ->
  copy_slice (l1 ++ l2 ++ l3) n src = l1 ++ src ++ l3.
Proof.
  intros Hn Hs. unfold copy_slice. rewrite take_app_length' by done. f_equal. f_equal.
  rewrite app_assoc, drop_app_length'; [done|]. rewrite length_app. lia.
Qed.

Lemma from_little_limbs_bytes a b c d :
  foldl (fun bytes '(index, limb) => copy_slice bytes (24 - index * 8) (be_bytes 8 limb))
    (replicate 32 0) (imap pair [a; b; c; d]) =
  be_bytes 8 d ++ be_bytes 8 c ++ be_bytes 8 b ++ be_bytes 8 a.
Proof.
  cbn [imap foldl Nat.mul Nat.sub Nat.add compose].
  change (replicate 32 0)
    with (replicate 24 0 ++ replicate 8 0 ++ []) at 1.
  rewrite copy_slice_app by (by rewrite ?length_be_bytes).
  change (replicate 24 0) with (replicate 16 0 ++ replicate 8 0).
  rewrite <- (app_assoc (replicate 16 0)), (copy_slice_app (replicate 16 0))
    by (by rewrite ?length_be_bytes).
  change (replicate 16 0) with (replicate 8 0 ++ replicate 8 0).
  rewrite <- (app_assoc (replicate 8 0)), (copy_slice_app (replicate 8 0))
    by (by rewrite ?length_be_bytes).
  rewrite <- (app_nil_l (replicate 8 0 ++ _)).
  rewrite copy_slice_app by (by rewrite ?length_be_bytes).
  by rewrite app_nil_r.
Qed.

Lemma from_little_limbs_val l :
  length l = 4%nat -> Forall is_limb l ->
  target_wf (from_little_limbs l) /\ tval (from_little_limbs l) = Z.max 1 (limbs_val l).
Proof.
  intros Hlen Hl. destruct l as [|a [|b [|c [|d [|]]]]]; try done.
  rewrite !Forall_cons in Hl. destruct Hl as (Ha & Hb & Hc & Hd & _).
  unfold from_little_limbs. rewrite from_little_limbs_bytes.
  set (bs := be_bytes 8 d ++ be_bytes 8 c ++ be_bytes 8 b ++ be_bytes 8 a).
  assert (byte_array 32 bs) as [Hbl Hbb].
  { split; [unfold bs; by rewrite !length_app, !length_be_bytes|].
    unfold bs. repeat apply Forall_app_2; apply be_bytes_is_byte. }
  assert (be_val bs = limbs_val [a; b; c; d]) as Hv.
  { unfold bs. rewrite !be_val_app, !length_app, !length_be_bytes.
    rewrite !be_val_be_bytes by (change (256 ^ Z.of_nat 8) with limb_base; done).
    cbn [limbs_val]. unfold limb_base.
    change (256 ^ Z.of_nat (8 + (8 + 8))) with (2 ^ 64 * (2 ^ 64 * 2 ^ 64)).
    change (256 ^ Z.of_nat (8 + 8)) with (2 ^ 64 * 2 ^ 64).
    change (256 ^ Z.of_nat 8) with (2 ^ 64). ring. }
  rewrite <- Hv. pose proof (be_val_bound bs Hbb) as HB.
  case_bool_decide as Hz.
  - rewrite Hz. split; [|done]. split; [split; [done|]|done].
    repeat constructor; unfold is_byte; lia.
  - unfold target_wf, tval; simpl.
    assert (be_val bs <> 0); [|split; [split; [done|lia]|lia]].
    intros H0. apply Hz. apply be_val_inj; [by rewrite Hbl|done| |by rewrite H0].
    apply Forall_replicate. unfold is_byte; lia.
Qed.

Lemma multiply_limbs_val l m :
  length l = 4%nat -> Forall is_limb l -> 0 <= m <= U64_MAX ->
  length (multiply_limbs l m) = 5%nat /\ Forall is_limb (multiply_limbs l m) /\
  limbs_val (multiply_limbs l m) = limbs_val l * m.
Proof.
  intros Hlen Hl Hm. destruct l as [|a [|b [|c [|d [|]]]]]; try done.
  rewrite !Forall_cons in Hl. destruct Hl as (Ha & Hb & Hc & Hd & _).
  unfold multiply_limbs. cbn [imap foldl compose replicate insert list_insert length limbs_val].
  rewrite !Z.shiftr_div_pow2 by lia. change (2 ^ 64) with limb_base.
  unfold is_limb in *. unfold U64_MAX in Hm.
  assert (0 < limb_base) as HL by (unfold limb_base; lia).
  assert (forall x k, 0 <= x < limb_base -> 0 <= k < limb_base -> 0 <= (x * m + k) / limb_base < limb_base)
    as Hcarry.
  { intros x k Hx Hk. split; [apply Z.div_pos; nia|].
    apply Z.div_lt_upper_bound; [lia|]. unfold limb_base in *. nia. }
  set (k0 := (a * m + 0) / limb_base).
  assert (0 <= k0 < limb_base) as Hk0 by (apply Hcarry; lia).
  set (k1 := (b * m + k0) / limb_base).
  assert (0 <= k1 < limb_base) as Hk1 by (apply Hcarry; lia).
  set (k2 := (c * m + k1) / limb_base).
  assert (0 <= k2 < limb_base) as Hk2 by (apply Hcarry; lia).
  set (k3 := (d * m + k2) / limb_base).
  assert (0 <= k3 < limb_base) as Hk3 by (apply Hcarry; lia).
  split_and!; [done|repeat constructor; by apply Z.mod_pos_bound|].
  rewrite (Z.mod_small k3) by done.
  assert (a * m + 0 = limb_base * k0 + (a * m + 0) mod limb_base) by (apply Z.div_mod; lia).
  assert (b * m + k0 = limb_base * k1 + (b * m + k0) mod limb_base) by (apply Z.div_mod; lia).
  assert (c * m + k1 = limb_base * k2 + (c * m + k1) mod limb_base) by (apply Z.div_mod; lia).
  assert (d * m + k2 = limb_base * k3 + (d * m + k2) mod limb_base) by (apply Z.div_mod; lia).
  clearbody k0 k1 k2 k3. clear Hcarry. nia.
Qed.

(** [scale_target] is exact integer scaling, rounded down, at least one, saturating. *)
Lemma scale_target_val t m d :
  target_wf t -> 0 <= m <= U64_MAX -> 0 < d <= U128_MAX ->
  target_wf (scale_target t m d) /\
  tval (scale_target t m d) = Z.max 1 (Z.min TARGET_MAX (tval t * m / d)).
Proof.
  intros Ht Hm Hd. unfold scale_target.
  destruct (to_little_limbs_val t Ht) as (L1 & L2 & L3).
  destruct (multiply_limbs_val _ m L1 L2 Hm) as (M1 & M2 & M3).
  destruct (divide_320_by_128_val _ d M2 M1 Hd) as (D1 & D2 & D3).
  destruct (from_little_limbs_val _ D1 D2) as [F1 F2].
  split; [done|]. by rewrite F2, D3, M3, L3.
Qed.

Lemma limbs_val_take4 l :
  length l = 5%nat -> Forall is_limb l ->
  limbs_val l = limbs_val (take 4 l) + 2 ^ 256 * (l !!! 4%nat) /\
  0 <= limbs_val (take 4 l) < 2 ^ 256.
Proof.
  intros Hlen Hl. pose proof (limbs_val_bound (take 4 l) (Forall_take _ _ _ Hl)) as HB.
  rewrite length_take, Hlen in HB. split; [|exact HB].
  destruct l as [|a [|b [|c [|d [|e [|]]]]]]; try done.
  cbn [take firstn limbs_val lookup_total list_lookup_total]. unfold limb_base. ring.
Qed.

Lemma ShareTarget_MAX_wf : target_wf ShareTarget_MAX /\ tval ShareTarget_MAX = TARGET_MAX.
Proof.
  split; [|reflexivity]. split; [|reflexivity]. split; [done|].
  apply Forall_replicate. unfold is_byte, U8_MAX. lia.
Qed.

Lemma multiply_target_val t m :
  target_wf t -> 1 <= m <= U64_MAX ->
  target_wf (multiply_target t m) /\
  tval (multiply_target t m) = Z.min TARGET_MAX (tval t * m).
Proof.
  intros Ht Hm. unfold multiply_target.
  destruct (to_little_limbs_val t Ht) as (L1 & L2 & L3).
  destruct (multiply_limbs_val _ m L1 L2 ltac:(lia)) as (M1 & M2 & M3).
  set (p := multiply_limbs (to_little_limbs t) m) in *.
  destruct (limbs_val_take4 p M1 M2) as [Hsplit Hlow].
  pose proof (target_wf_bound t Ht) as Hb. rewrite M3, L3 in Hsplit.
  assert (0 <= p !!! 4%nat) as Hp.
  { destruct (lookup_lt_is_Some_2 p 4 ltac:(lia)) as [y Hy].
    rewrite (list_lookup_total_correct _ _ _ Hy). by apply (Forall_lookup_1 _ _ _ _ M2 Hy). }
  destruct (Z.eqb_spec (p !!! 4%nat) 0) as [H0|Hn]; cbn [negb].
  - destruct (from_little_limbs_val (take 4 p)) as [F1 F2];
      [rewrite length_take; lia|by apply Forall_take|].
    split; [done|]. rewrite F2. unfold TARGET_MAX in *. nia.
  - destruct ShareTarget_MAX_wf as [HM ->]. split; [done|]. unfold TARGET_MAX in *. nia.
Qed.
