(* ===== verification/Vardiff.v ===== *)
(** The variable-difficulty controller (crates/wcash-pool-core/src/vardiff.rs): sampling of
    accepted-share intervals, hysteresis, step-clamped retargeting, inactivity ticks and
    rebinding when a network target changes. *)

From Stdlib Require Import ZArith Lia.
From stdpp Require Import prelude gmap sorting strings.
From S2P Require Import Prelude Wire Target Limbs.
Open Scope Z_scope.

(** ** The controller *)

Definition BASIS_POINTS : Z := 10000.
Definition MINIMUM_SAMPLE_INTERVALS : Z := 8.
Definition MINIMUM_SAMPLE_WINDOW_MS : Z := 60000.
Definition MINIMUM_HYSTERESIS_BPS : Z := 2500.
Definition MAXIMUM_ADJUSTMENT_FACTOR : Z := 4.

Inductive VardiffError : Type :=
| InvalidConfig
| TargetPolicy (e : TargetPolicyError)
| ClockMovedBackwards
| IntervalOverflow
| SampleCounterOverflow
| RevisionOverflow.

Inductive VardiffUpdate : Type :=
| Sampling (observed_intervals required_intervals : Z)
| IgnoredStaleBinding
| Unchanged (b : TargetBinding)
| Changed (previous current : TargetBinding).

Record VardiffConfig : Type := mkVardiffConfig {
  sample_intervals : Z;
  sample_window_ms : Z;
  hysteresis_bps : Z;
  maximum_adjustment_factor : Z;
  operator_easiest : ShareTarget
}.

Definition VardiffConfig_new (target_interval_ms intervals hysteresis factor : Z)
    (easiest : ShareTarget) : result VardiffConfig VardiffError :=
  let? window := ok_or (checked_mul U64_MAX target_interval_ms intervals) IntervalOverflow in
  if (intervals <? MINIMUM_SAMPLE_INTERVALS)
     || (window <? MINIMUM_SAMPLE_WINDOW_MS)
     || negb ((MINIMUM_HYSTERESIS_BPS <=? hysteresis) && (hysteresis <? BASIS_POINTS))
     || negb ((1 <=? factor) && (factor <=? MAXIMUM_ADJUSTMENT_FACTOR))
  then Err InvalidConfig
  else Ok {| sample_intervals := intervals; sample_window_ms := window;
             hysteresis_bps := hysteresis; maximum_adjustment_factor := factor;
             operator_easiest := easiest |}.

Record VardiffController : Type := mkVardiffController {
  vc_config : VardiffConfig;
  vc_binding : TargetBinding;
  window_start_ms : option Z;
  observed_intervals : Z;
  last_now_ms : option Z
}.

Definition vc_set_binding (b : TargetBinding) (c : VardiffController) : VardiffController :=
  {| vc_config := vc_config c; vc_binding := b; window_start_ms := window_start_ms c;
     observed_intervals := observed_intervals c; last_now_ms := last_now_ms c |}.
Definition vc_set_window (w : option Z) (c : VardiffController) : VardiffController :=
  {| vc_config := vc_config c; vc_binding := vc_binding c; window_start_ms := w;
     observed_intervals := observed_intervals c; last_now_ms := last_now_ms c |}.
Definition vc_set_observed (n : Z) (c : VardiffController) : VardiffController :=
  {| vc_config := vc_config c; vc_binding := vc_binding c;
     window_start_ms := window_start_ms c; observed_intervals := n;
     last_now_ms := last_now_ms c |}.
Definition vc_set_last (t : option Z) (c : VardiffController) : VardiffController :=
  {| vc_config := vc_config c; vc_binding := vc_binding c;
     window_start_ms := window_start_ms c; observed_intervals := observed_intervals c;
     last_now_ms := t |}.

Definition VM (A : Type) : Type := M VardiffController VardiffError A.

Definition VardiffController_new (config : VardiffConfig) (wcash zcash initial : ShareTarget)
    (initial_revision : Z) : result VardiffController VardiffError :=
  let? bounds := map_err TargetPolicy (TargetBounds_new wcash zcash (operator_easiest config)) in
  let? binding := map_err TargetPolicy
    (TargetBinding_new initial_revision (TargetBounds_clamp bounds initial) bounds) in
  Ok {| vc_config := config; vc_binding := binding; window_start_ms := None;
        observed_intervals := 0; last_now_ms := None |}.

Definition next_revision (self : VardiffController) : result Z VardiffError :=
  ok_or (checked_add U64_MAX (tb_revision (vc_binding self)) 1) RevisionOverflow.

Definition reset_sample (self : VardiffController) : VardiffController :=
  vc_set_observed 0 (vc_set_window None self).

Definition reset_sample_at (now_ms : Z) (self : VardiffController) : VardiffController :=
  vc_set_observed 0 (vc_set_window (Some now_ms) self).

Definition update_network_targets (wcash zcash : ShareTarget) : VM TargetBinding :=
  let* self := st_get in
  let* bounds := st_lift (map_err TargetPolicy
    (TargetBounds_new wcash zcash (operator_easiest (vc_config self)))) in
  if bool_decide (bounds <> tb_bounds (vc_binding self)) then
    let* revision := st_lift (next_revision self) in
    let* binding := st_lift (map_err TargetPolicy (TargetBinding_new revision
      (TargetBounds_clamp bounds (tb_target (vc_binding self))) bounds)) in
    do* st_modify (vc_set_binding binding) in
    do* st_modify reset_sample in
    st_ret binding
  else st_ret (vc_binding self).

(** The shared tail of [observe_share] and [tick]: install [next_target] under a new
    revision, or keep the binding when it does not change. *)
Definition install_target (previous : TargetBinding) (next_target : ShareTarget) (now_ms : Z)
    : VM VardiffUpdate :=
  if bool_decide (next_target = tb_target previous) then
    do* st_modify (reset_sample_at now_ms) in
    st_ret (Unchanged previous)
  else
    let* self := st_get in
    let* revision := st_lift (next_revision self) in
    let* binding := st_lift (map_err TargetPolicy
      (TargetBinding_new revision next_target (tb_bounds previous))) in
    do* st_modify (vc_set_binding binding) in
    do* st_modify (reset_sample_at now_ms) in
    st_ret (Changed previous binding).

Definition clock_regressed (self : VardiffController) (now_ms : Z) : bool :=
  match last_now_ms self with Some last => now_ms <? last | None => false end.

Definition observe_share (submitted : TargetBinding) (now_ms : Z) : VM VardiffUpdate :=
  let* self := st_get in
  if bool_decide (submitted <> vc_binding self) then st_ret IgnoredStaleBinding else
  if clock_regressed self now_ms then st_throw ClockMovedBackwards else
  do* st_modify (vc_set_last (Some now_ms)) in
  let config := vc_config self in
  match window_start_ms self with
  | None =>
      do* st_modify (vc_set_window (Some now_ms)) in
      st_ret (Sampling 0 (sample_intervals config))
  | Some window_start =>
      let* observed := st_lift (ok_or (checked_add U32_MAX (observed_intervals self) 1)
                                  SampleCounterOverflow) in
      do* st_modify (vc_set_observed observed) in
      if observed <? sample_intervals config then
        st_ret (Sampling observed (sample_intervals config))
      else
        let* elapsed_ms := st_lift (ok_or (checked_sub now_ms window_start)
                                      ClockMovedBackwards) in
        let expected_ms := sample_window_ms config in
        let delta := abs_diff elapsed_ms expected_ms in
        if delta * BASIS_POINTS <=? expected_ms * hysteresis_bps config then
          do* st_modify (reset_sample_at now_ms) in
          st_ret (Unchanged (vc_binding self))
        else
          let previous := vc_binding self in
          let raw := scale_target (tb_target previous) elapsed_ms expected_ms in
          let hardest_step :=
            divide_target (tb_target previous) (maximum_adjustment_factor config) in
          let easiest_step :=
            multiply_target (tb_target previous) (maximum_adjustment_factor config) in
          let stepped := ShareTarget_clamp raw hardest_step easiest_step in
          install_target previous (TargetBounds_clamp (tb_bounds previous) stepped) now_ms
  end.

Definition tick (now_ms : Z) : VM VardiffUpdate :=
  let* self := st_get in
  if clock_regressed self now_ms then st_throw ClockMovedBackwards else
  do* st_modify (vc_set_last (Some now_ms)) in
  let config := vc_config self in
  match window_start_ms self with
  | None =>
      do* st_modify (vc_set_window (Some now_ms)) in
      st_ret (Sampling (observed_intervals self) (sample_intervals config))
  | Some window_start =>
      let* elapsed_ms := st_lift (ok_or (checked_sub now_ms window_start)
                                    ClockMovedBackwards) in
      let expected_ms := sample_window_ms config in
      if (elapsed_ms <=? expected_ms)
         || ((elapsed_ms - expected_ms) * BASIS_POINTS
               <=? expected_ms * hysteresis_bps config)
      then st_ret (Sampling (observed_intervals self) (sample_intervals config))
      else
        let previous := vc_binding self in
        let raw := scale_target (tb_target previous) elapsed_ms expected_ms in
        let easiest_step :=
          multiply_target (tb_target previous) (maximum_adjustment_factor config) in
        let stepped := ShareTarget_clamp raw (tb_target previous) easiest_step in
        install_target previous (TargetBounds_clamp (tb_bounds previous) stepped) now_ms
  end.

(** ** Invariant *)

Definition config_wf (cfg : VardiffConfig) : Prop :=
  MINIMUM_SAMPLE_INTERVALS <= sample_intervals cfg <= U32_MAX /\
  MINIMUM_SAMPLE_WINDOW_MS <= sample_window_ms cfg <= U64_MAX /\
  MINIMUM_HYSTERESIS_BPS <= hysteresis_bps cfg < BASIS_POINTS /\
  1 <= maximum_adjustment_factor cfg <= MAXIMUM_ADJUSTMENT_FACTOR /\
  target_wf (operator_easiest cfg).

Definition ctrl_wf (c : VardiffController) : Prop :=
  config_wf (vc_config c) /\ binding_wf (vc_binding c) /\
  easiest_allowed (tb_bounds (vc_binding c)) = operator_easiest (vc_config c) /\
  0 <= observed_intervals c <= U32_MAX /\
  (forall w, window_start_ms c = Some w ->
     exists l, last_now_ms c = Some l /\ 0 <= w <= l /\ l <= U64_MAX) /\
  (forall l, last_now_ms c = Some l -> 0 <= l <= U64_MAX).

(** The numeric value a full sample asks for: the interval ratio applied to the target,
    limited to one adjustment step and then to the network and operator bounds. *)
Definition ideal_target (floor_step : Z) (b : TargetBinding) (factor elapsed expected : Z) : Z :=
  let t := tval (tb_target b) in
  let raw := Z.max 1 (Z.min TARGET_MAX (t * elapsed / expected)) in
  let stepped := Z.min (Z.min TARGET_MAX (t * factor)) (Z.max floor_step raw) in
  Z.min (tval (easiest_allowed (tb_bounds b))) (Z.max (tval (hardest_allowed (tb_bounds b))) stepped).

(** The harder end of one adjustment step. *)
Definition hardest_step_val (b : TargetBinding) (factor : Z) : Z :=
  Z.max 1 (tval (tb_target b) / factor).

Lemma VardiffConfig_new_wf i n h f e cfg :
  0 <= i <= U64_MAX -> 0 <= n <= U32_MAX -> target_wf e ->
  VardiffConfig_new i n h f e = Ok cfg -> config_wf cfg /\ sample_window_ms cfg = i * n.
Proof.
  intros Hi Hn He. unfold VardiffConfig_new, ok_or.
  destruct (checked_mul U64_MAX i n) as [w|] eqn:Hm; [|done].
  apply checked_mul_Some in Hm as [-> Hle].
  destruct (_ || _)%bool eqn:Hc; [done|]. intros [= <-]. boolprop.
  unfold config_wf; simpl. split_and!; (done || lia).
Qed.

(** *** The shared tail *)

Lemma install_target_spec c x now :
  ctrl_wf c -> target_wf x ->
  let prev := vc_binding c in
  let next := TargetBounds_clamp (tb_bounds prev) x in
  let cur := mkTargetBinding (tb_revision prev + 1) next (tb_bounds prev) in
  install_target prev next now c =
    if bool_decide (next = tb_target prev) then (reset_sample_at now c, Ok (Unchanged prev))
    else if tb_revision prev <? U64_MAX
    then (reset_sample_at now (vc_set_binding cur c), Ok (Changed prev cur))
    else (c, Err RevisionOverflow).
Proof.
  intros (_ & (Hb & Ht & Hin & Hr) & _) Hx. cbv zeta.
  unfold install_target. case_bool_decide as Heq; [done|].
  unfold next_revision. st_unfold.
  destruct (Z.ltb_spec (tb_revision (vc_binding c)) U64_MAX) as [Hlt|Hge].
  - destruct (checked_add U64_MAX (tb_revision (vc_binding c)) 1) as [r|] eqn:Hca.
    + apply checked_add_Some in Hca as [-> _].
      destruct (TargetBinding_new_clamp (tb_revision (vc_binding c) + 1)
        (tb_bounds (vc_binding c)) x Hb Hx ltac:(lia)) as (tb & -> & -> & _). done.
    + apply checked_add_None in Hca. lia.
  - destruct (checked_add U64_MAX (tb_revision (vc_binding c)) 1) as [r|] eqn:Hca; [|done].
    apply checked_add_Some in Hca. lia.
Qed.

Lemma ctrl_wf_reset_at now c :
  ctrl_wf c -> last_now_ms c = Some now -> ctrl_wf (reset_sample_at now c).
Proof.
  intros (H1 & H2 & H3 & H4 & H5 & H6) Hl.
  refine (conj H1 (conj H2 (conj H3 (conj _ (conj _ H6))))); simpl; [widths; lia|].
  intros w [= <-]. exists now. pose proof (H6 _ Hl). split_and!; (done || lia).
Qed.

Lemma ctrl_wf_set_binding b c :
  ctrl_wf c -> binding_wf b -> easiest_allowed (tb_bounds b) = operator_easiest (vc_config c) ->
  ctrl_wf (vc_set_binding b c).
Proof. intros (H1 & H2 & H3 & H4 & H5 & H6) Hb He. by unfold ctrl_wf. Qed.

Lemma ctrl_wf_set_last now c :
  ctrl_wf c -> 0 <= now <= U64_MAX -> clock_regressed c now = false ->
  ctrl_wf (vc_set_last (Some now) c).
Proof.
  intros (H1 & H2 & H3 & H4 & H5 & H6) Hn Hc.
  refine (conj H1 (conj H2 (conj H3 (conj H4 (conj _ _))))); simpl.
  - intros w Hw. destruct (H5 w Hw) as (l & Hl & Hwl). exists now.
    unfold clock_regressed in Hc. rewrite Hl in Hc. boolprop. split_and!; (done || lia).
  - by intros l [= <-].
Qed.

Lemma ctrl_wf_start now c :
  ctrl_wf (vc_set_last (Some now) c) ->
  ctrl_wf (vc_set_window (Some now) (vc_set_last (Some now) c)).
Proof.
  intros (H1 & H2 & H3 & H4 & H5 & H6).
  refine (conj H1 (conj H2 (conj H3 (conj H4 (conj _ H6))))); simpl.
  intros w [= <-]. exists now. pose proof (H6 now eq_refl). split_and!; (done || lia).
Qed.

Lemma ctrl_wf_set_observed n c : ctrl_wf c -> 0 <= n <= U32_MAX -> ctrl_wf (vc_set_observed n c).
Proof. intros (H1 & H2 & H3 & H4 & H5 & H6) Hn. by unfold ctrl_wf. Qed.

#[export] Hint Resolve ctrl_wf_reset_at ctrl_wf_set_binding ctrl_wf_set_last
  ctrl_wf_set_observed : pool.

Lemma install_target_wf prev c x now c' r :
  prev = vc_binding c -> ctrl_wf c -> target_wf x -> last_now_ms c = Some now ->
  install_target prev (TargetBounds_clamp (tb_bounds prev) x) now c = (c', r) ->
  ctrl_wf c'.
Proof.
  intros -> Hc Hx Hl. rewrite install_target_spec by done. pose proof Hc as (_ & Hbw & He & _).
  destruct Hbw as (Hb & Ht & Hin & Hr).
  case_bool_decide; [intros [= <- <-]; auto with pool|].
  destruct (Z.ltb_spec (tb_revision (vc_binding c)) U64_MAX); intros [= <- <-]; [|done].
  apply ctrl_wf_reset_at; [|done]. apply ctrl_wf_set_binding; [done| |done].
  destruct (TargetBinding_new_clamp (tb_revision (vc_binding c) + 1) (tb_bounds (vc_binding c)) x
    Hb Hx ltac:(lia)) as (tb & _ & -> & Hwf). exact Hwf.
Qed.

(** *** The candidate targets *)

Section Candidates.
Context (c : VardiffController) (Hc : ctrl_wf c) (elapsed : Z) (He : 0 <= elapsed <= U64_MAX).

Local Abbreviation t := (tb_target (vc_binding c)).
Local Abbreviation factor := (maximum_adjustment_factor (vc_config c)).
Local Abbreviation expected := (sample_window_ms (vc_config c)).

Lemma current_target_wf : target_wf t /\ 1 <= tval t <= TARGET_MAX /\ 1 <= factor <= 4 /\
  0 < expected <= U64_MAX.
Proof.
  destruct Hc as ((_ & Hw & _ & Hf & _) & (_ & Ht & _) & _).
  split; [done|]. split; [by apply target_wf_bound|].
  unfold MAXIMUM_ADJUSTMENT_FACTOR, MINIMUM_SAMPLE_WINDOW_MS in *. lia.
Qed.

Lemma raw_spec : target_wf (scale_target t elapsed expected) /\
  tval (scale_target t elapsed expected) =
    Z.max 1 (Z.min TARGET_MAX (tval t * elapsed / expected)).
Proof.
  destruct current_target_wf as (Ht & _ & _ & Hx). apply scale_target_val; [done|lia|widths; lia].
Qed.

Lemma hardest_step_spec : target_wf (divide_target t factor) /\
  tval (divide_target t factor) = hardest_step_val (vc_binding c) factor.
Proof.
  destruct current_target_wf as (Ht & Hb & Hf & _). unfold divide_target, hardest_step_val.
  destruct (scale_target_val t 1 factor Ht ltac:(widths; lia) ltac:(widths; lia)) as [Hw ->].
  split; [done|]. rewrite Z.mul_1_r.
  assert (tval t / factor <= tval t) by (apply Z.div_le_upper_bound; nia). lia.
Qed.

Lemma easiest_step_spec : target_wf (multiply_target t factor) /\
  tval (multiply_target t factor) = Z.min TARGET_MAX (tval t * factor).
Proof.
  destruct current_target_wf as (Ht & _ & Hf & _). apply multiply_target_val; [done|widths; lia].
Qed.

(** The [clamp] of [observe_share] never panics: its bounds are ordered. *)
Lemma step_ordered :
  tval (divide_target t factor) <= tval t <= tval (multiply_target t factor).
Proof.
  destruct current_target_wf as (Ht & Hb & Hf & _).
  rewrite (proj2 hardest_step_spec), (proj2 easiest_step_spec). unfold hardest_step_val.
  assert (tval t / factor <= tval t) by (apply Z.div_le_upper_bound; nia). nia.
Qed.

Lemma clamped_spec lo : target_wf lo -> tval lo <= tval t ->
  let x := ShareTarget_clamp (scale_target t elapsed expected) lo (multiply_target t factor) in
  target_wf x /\
  tval (TargetBounds_clamp (tb_bounds (vc_binding c)) x) =
    ideal_target (tval lo) (vc_binding c) factor elapsed expected.
Proof.
  intros Hlo Hle x. pose proof step_ordered. destruct raw_spec as [Hr Hrv].
  destruct easiest_step_spec as [Hew Hev].
  assert (target_wf x) as Hx by (by apply ShareTarget_clamp_wf). split; [done|].
  destruct Hc as (_ & (Hb & _) & _).
  rewrite TargetBounds_clamp_tval by done. unfold x.
  rewrite ShareTarget_clamp_tval, Hrv, Hev by (done || lia). done.
Qed.
End Candidates.

(** *** One full sample, and one idle window *)

Lemma window_before_now c now w :
  ctrl_wf c -> window_start_ms c = Some w -> clock_regressed c now = false -> 0 <= w <= now.
Proof.
  intros (_ & _ & _ & _ & Hwin & _) Hw Hclk. destruct (Hwin w Hw) as (l & Hl & Hwl & _).
  unfold clock_regressed in Hclk. rewrite Hl in Hclk. boolprop. lia.
Qed.

Lemma clamped_wf c elapsed lo :
  ctrl_wf c -> 0 <= elapsed <= U64_MAX -> target_wf lo ->
  target_wf (ShareTarget_clamp
    (scale_target (tb_target (vc_binding c)) elapsed (sample_window_ms (vc_config c))) lo
    (multiply_target (tb_target (vc_binding c)) (maximum_adjustment_factor (vc_config c)))).
Proof.
  intros Hc He Hlo. apply ShareTarget_clamp_wf; [by apply raw_spec|done|by apply easiest_step_spec].
Qed.

(** [observe_share] on a current binding with a monotone clock, as a case distinction on
    the sample. *)
Definition observe_result (now w : Z) (c : VardiffController)
    : VardiffController * result VardiffUpdate VardiffError :=
  let cfg := vc_config c in
  let n := observed_intervals c + 1 in
  let c1 := vc_set_observed n (vc_set_last (Some now) c) in
  if n <? sample_intervals cfg then (c1, Ok (Sampling n (sample_intervals cfg)))
  else if Z.abs (now - w - sample_window_ms cfg) * BASIS_POINTS
            <=? sample_window_ms cfg * hysteresis_bps cfg
  then (reset_sample_at now c1, Ok (Unchanged (vc_binding c)))
  else install_target (vc_binding c)
    (TargetBounds_clamp (tb_bounds (vc_binding c))
      (ShareTarget_clamp
        (scale_target (tb_target (vc_binding c)) (now - w) (sample_window_ms cfg))
        (divide_target (tb_target (vc_binding c)) (maximum_adjustment_factor cfg))
        (multiply_target (tb_target (vc_binding c)) (maximum_adjustment_factor cfg))))
    now c1.

Lemma observe_share_cases c now w :
  ctrl_wf c -> window_start_ms c = Some w -> clock_regressed c now = false ->
  observed_intervals c < U32_MAX ->
  observe_share (vc_binding c) now c = observe_result now w c.
Proof.
  intros Hc Hw Hclk Hobs.
  pose proof (window_before_now c now w Hc Hw Hclk).
  unfold observe_share, observe_result, st_bind, st_get, st_modify, st_lift, st_ret.
  rewrite bool_decide_eq_false_2 by (by intros []). rewrite Hclk, Hw.
  unfold checked_add, checked_sub. rewrite (proj2 (Z.leb_le _ _)) by lia. cbn [ok_or].
  destruct (_ <? _); [done|]. rewrite (proj2 (Z.leb_le _ _)) by lia. cbn [ok_or].
  unfold abs_diff. by destruct (_ <=? _).
Qed.

Lemma observe_result_wf c now w c' r :
  ctrl_wf c -> window_start_ms c = Some w -> clock_regressed c now = false ->
  0 <= now <= U64_MAX -> observed_intervals c < U32_MAX ->
  observe_result now w c = (c', r) -> ctrl_wf c'.
Proof.
  intros Hc Hw Hclk Hn Ho. pose proof Hc as (_ & _ & _ & Hobs & _).
  pose proof (window_before_now c now w Hc Hw Hclk).
  assert (ctrl_wf (vc_set_observed (observed_intervals c + 1) (vc_set_last (Some now) c)))
    as Hc1 by (apply ctrl_wf_set_observed; [by apply ctrl_wf_set_last|lia]).
  unfold observe_result. destruct (_ <? _); [by intros [= <- <-]|].
  destruct (_ <=? _); [intros [= <- <-]; by apply ctrl_wf_reset_at|].
  intros Hi. eapply install_target_wf in Hi; [exact Hi|done|exact Hc1| |done].
  apply clamped_wf; [exact Hc|lia|by apply hardest_step_spec].
Qed.

Definition tick_result (now w : Z) (c : VardiffController)
    : VardiffController * result VardiffUpdate VardiffError :=
  let cfg := vc_config c in
  let c1 := vc_set_last (Some now) c in
  if (now - w <=? sample_window_ms cfg)
     || ((now - w - sample_window_ms cfg) * BASIS_POINTS
           <=? sample_window_ms cfg * hysteresis_bps cfg)
  then (c1, Ok (Sampling (observed_intervals c) (sample_intervals cfg)))
  else install_target (vc_binding c)
    (TargetBounds_clamp (tb_bounds (vc_binding c))
      (ShareTarget_clamp
        (scale_target (tb_target (vc_binding c)) (now - w) (sample_window_ms cfg))
        (tb_target (vc_binding c))
        (multiply_target (tb_target (vc_binding c)) (maximum_adjustment_factor cfg))))
    now c1.

Lemma tick_cases c now w :
  ctrl_wf c -> window_start_ms c = Some w -> clock_regressed c now = false ->
  tick now c = tick_result now w c.
Proof.
  intros Hc Hw Hclk. pose proof (window_before_now c now w Hc Hw Hclk).
  unfold tick, tick_result, st_bind, st_get, st_modify, st_lift, st_ret.
  rewrite Hclk, Hw. unfold checked_sub. rewrite (proj2 (Z.leb_le _ _)) by lia. cbn [ok_or].
  by destruct (_ || _)%bool.
Qed.

Lemma tick_result_wf c now w c' r :
  ctrl_wf c -> window_start_ms c = Some w -> clock_regressed c now = false ->
  0 <= now <= U64_MAX -> tick_result now w c = (c', r) -> ctrl_wf c'.
Proof.
  intros Hc Hw Hclk Hn. pose proof Hc as (_ & (_ & Ht & _) & _).
  pose proof (window_before_now c now w Hc Hw Hclk).
  pose proof (ctrl_wf_set_last now c Hc Hn Hclk) as Hc1.
  unfold tick_result. destruct (_ || _)%bool; [by intros [= <- <-]|].
  intros Hi. eapply install_target_wf in Hi; [exact Hi|done|exact Hc1| |done].
  apply clamped_wf; [exact Hc|lia|done].
Qed.

(** What a retarget towards the numeric value [ideal] leaves behind. *)
Definition retarget_outcome (prev : TargetBinding) (ideal now : Z) (c' : VardiffController)
    (r : result VardiffUpdate VardiffError) : Prop :=
  (ideal = tval (tb_target prev) ->
     r = Ok (Unchanged prev) /\ vc_binding c' = prev /\
     window_start_ms c' = Some now /\ observed_intervals c' = 0) /\
  (ideal <> tval (tb_target prev) -> tb_revision prev < U64_MAX ->
     exists cur, r = Ok (Changed prev cur) /\ vc_binding c' = cur /\
       tval (tb_target cur) = ideal /\ tb_revision cur = tb_revision prev + 1 /\
       tb_bounds cur = tb_bounds prev /\
       window_start_ms c' = Some now /\ observed_intervals c' = 0) /\
  (ideal <> tval (tb_target prev) -> tb_revision prev = U64_MAX ->
     r = Err RevisionOverflow /\ vc_binding c' = prev).

Lemma install_target_outcome prev c x now ideal c' r :
  prev = vc_binding c -> ctrl_wf c -> target_wf x ->
  tval (TargetBounds_clamp (tb_bounds prev) x) = ideal ->
  install_target prev (TargetBounds_clamp (tb_bounds prev) x) now c = (c', r) ->
  retarget_outcome prev ideal now c' r.
Proof.
  intros -> Hc Hx <-. pose proof Hc as (_ & (Hb & Ht & _) & _).
  rewrite install_target_spec by done. case_bool_decide as Heq.
  - intros [= <- <-]. rewrite Heq. split_and!; naive_solver.
  - assert (tval (TargetBounds_clamp (tb_bounds (vc_binding c)) x) <>
            tval (tb_target (vc_binding c))) as Hne
      by (intros E; apply Heq, tval_inj; auto with pool).
    destruct (Z.ltb_spec (tb_revision (vc_binding c)) U64_MAX); intros [= <- <-];
      (split; [done|]); split; intros _ Hr; try (exfalso; lia); [|done].
    eexists; split_and!; reflexivity.
Qed.

Lemma ideal_target_step fl b factor elapsed expected :
  binding_wf b -> 1 <= factor -> fl <= tval (tb_target b) ->
  fl <= ideal_target fl b factor elapsed expected <= tval (tb_target b) * factor /\
  tval (hardest_allowed (tb_bounds b)) <= ideal_target fl b factor elapsed expected
    <= tval (easiest_allowed (tb_bounds b)).
Proof.
  intros (Hb & Ht & Hin & _) Hf Hfl. unfold ideal_target.
  pose proof (target_wf_bound _ Ht).
  set (raw := Z.max 1 (Z.min TARGET_MAX (tval (tb_target b) * elapsed / expected))).
  destruct Hb as (_ & _ & _ & _ & _ & Hord). nia.
Qed.

(** ** Properties *)

(** C38. A full sample on the current binding retargets exactly as documented.  With a
    monotone clock, the [sample_intervals]-th interval of a window that took [now - w]
    milliseconds leaves the binding alone when the deviation from the configured window is
    within the hysteresis, and otherwise moves the target to the rational ratio
    [target * elapsed / expected], limited to one adjustment factor in each direction and to
    the network and operator bounds, under the next revision; the sample restarts at [now].
    The target value is exact 256-bit arithmetic: nothing wraps. *)
Theorem observe_share_retargets (c : VardiffController) (now w : Z)
    (Hc : ctrl_wf c) (Hw : window_start_ms c = Some w) (Hclk : clock_regressed c now = false)
    (Hnow : 0 <= now <= U64_MAX) (Hobs : observed_intervals c < U32_MAX)
    (Hfull : sample_intervals (vc_config c) <= observed_intervals c + 1) :
  let cfg := vc_config c in
  let prev := vc_binding c in
  let deviation := Z.abs (now - w - sample_window_ms cfg) in
  let ideal := ideal_target (hardest_step_val prev (maximum_adjustment_factor cfg)) prev
                 (maximum_adjustment_factor cfg) (now - w) (sample_window_ms cfg) in
  let (c', r) := observe_share prev now c in
  (deviation * BASIS_POINTS <= sample_window_ms cfg * hysteresis_bps cfg ->
     r = Ok (Unchanged prev) /\ vc_binding c' = prev /\ window_start_ms c' = Some now /\
     observed_intervals c' = 0) /\
  (sample_window_ms cfg * hysteresis_bps cfg < deviation * BASIS_POINTS ->
     retarget_outcome prev ideal now c' r /\
     Z.max 1 (tval (tb_target prev) / maximum_adjustment_factor cfg) <= ideal
       <= tval (tb_target prev) * maximum_adjustment_factor cfg /\
     tval (hardest_allowed (tb_bounds prev)) <= ideal
       <= tval (easiest_allowed (tb_bounds prev))).
Proof.
  cbv zeta. destruct (observe_share (vc_binding c) now c) as [c' r] eqn:E.
  rewrite (observe_share_cases c now w) in E by done. unfold observe_result in E.
  pose proof (window_before_now c now w Hc Hw Hclk).
  rewrite (proj2 (Z.ltb_ge _ _)) in E by done.
  assert (ctrl_wf (vc_set_observed (observed_intervals c + 1) (vc_set_last (Some now) c))) as Hc1
    by (pose proof Hc as (_&_&_&?&_); apply ctrl_wf_set_observed; [by apply ctrl_wf_set_last|lia]).
  destruct (Z.leb_spec (Z.abs (now - w - sample_window_ms (vc_config c)) * BASIS_POINTS)
    (sample_window_ms (vc_config c) * hysteresis_bps (vc_config c))).
  - injection E as <- <-. split; [done|]. intros; exfalso; lia.
  - split; [intros; exfalso; lia|]. intros _.
    destruct (hardest_step_spec c Hc) as [Hdw Hdv].
    pose proof (step_ordered c Hc) as [Hle _].
    destruct (clamped_spec c Hc (now - w) ltac:(lia) _ Hdw Hle) as [Hxw Hxv].
    rewrite Hdv in Hle, Hxv. split.
    + eapply install_target_outcome; [|exact Hc1|exact Hxw|exact Hxv|exact E]. done.
    + pose proof Hc as ((_ & _ & _ & Hf & _) & Hbw & _).
      apply ideal_target_step; (done || lia).
Qed.

(** Inactivity can only ease.  A tick inside the sample window or its hysteresis keeps the
    binding; past it, the target becomes numerically larger (easier), by at most the
    adjustment factor and never past the operator ceiling, or stays unchanged when it already
    sits at a limit. *)
Theorem tick_only_eases (c : VardiffController) (now w : Z)
    (Hc : ctrl_wf c) (Hw : window_start_ms c = Some w) (Hclk : clock_regressed c now = false)
    (Hnow : 0 <= now <= U64_MAX) :
  let cfg := vc_config c in
  let prev := vc_binding c in
  let ideal := ideal_target (tval (tb_target prev)) prev (maximum_adjustment_factor cfg)
                 (now - w) (sample_window_ms cfg) in
  let (c', r) := tick now c in
  ((now - w - sample_window_ms cfg) * BASIS_POINTS <= sample_window_ms cfg * hysteresis_bps cfg ->
     r = Ok (Sampling (observed_intervals c) (sample_intervals cfg)) /\ vc_binding c' = prev /\
     window_start_ms c' = Some w) /\
  (sample_window_ms cfg * hysteresis_bps cfg < (now - w - sample_window_ms cfg) * BASIS_POINTS ->
     retarget_outcome prev ideal now c' r /\
     tval (tb_target prev) <= ideal <= tval (tb_target prev) * maximum_adjustment_factor cfg /\
     ideal <= tval (operator_easiest cfg)).
Proof.
  cbv zeta. destruct (tick now c) as [c' r] eqn:E.
  rewrite (tick_cases c now w) in E by done. unfold tick_result in E.
  pose proof (window_before_now c now w Hc Hw Hclk).
  pose proof Hc as ((_ & Hwin & Hhy & Hf & _) & Hbw & Hop & _).
  unfold MINIMUM_HYSTERESIS_BPS, MINIMUM_SAMPLE_WINDOW_MS, BASIS_POINTS in *.
  destruct (_ || _)%bool eqn:Hg.
  - injection E as <- <-. split; [done|]. intros Hlt. exfalso.
    apply orb_true_iff in Hg as [Hg|Hg]; apply Z.leb_le in Hg; nia.
  - apply orb_false_iff in Hg as [Hg1 Hg2]. boolprop. split; [intros; exfalso; lia|]. intros _.
    assert (target_wf (tb_target (vc_binding c))) as Ht by (by destruct Hbw as (_ & Ht & _)).
    destruct (clamped_spec c Hc (now - w) ltac:(lia) _ Ht ltac:(lia)) as [Hxw Hxv].
    split.
    + eapply install_target_outcome; [|by apply (ctrl_wf_set_last now c)|exact Hxw|exact Hxv|exact E].
      done.
    + rewrite <- Hop. split; apply ideal_target_step; (done || lia).
Qed.

(** *** Histories *)

(** The calls a session makes on its controller. *)
Inductive vardiff_op : Type :=
| OpNetwork (wcash zcash : ShareTarget)
| OpShare (submitted : TargetBinding) (now : Z)
| OpTick (now : Z).

Definition vardiff_op_wf (o : vardiff_op) : Prop :=
  match o with
  | OpNetwork w z => target_wf w /\ target_wf z
  | OpShare _ now | OpTick now => 0 <= now <= U64_MAX
  end.

(** The state after one call, on the success and on the error path. *)
Definition vardiff_run (o : vardiff_op) (c : VardiffController) : VardiffController :=
  match o with
  | OpNetwork w z => fst (update_network_targets w z c)
  | OpShare b now => fst (observe_share b now c)
  | OpTick now => fst (tick now c)
  end.

(** Every call keeps the configuration, and either keeps the binding or installs one under
    the next revision. *)
Definition binding_evolves (c c' : VardiffController) : Prop :=
  vc_config c' = vc_config c /\
  (vc_binding c' = vc_binding c \/
   tb_revision (vc_binding c') = tb_revision (vc_binding c) + 1).

Lemma step_keep c c' :
  ctrl_wf c' -> vc_config c' = vc_config c -> vc_binding c' = vc_binding c ->
  ctrl_wf c' /\ binding_evolves c c'.
Proof. intros. split; [done|]. by split; [|left]. Qed.

Lemma install_target_evolves prev c x now c' r :
  prev = vc_binding c -> ctrl_wf c -> target_wf x ->
  install_target prev (TargetBounds_clamp (tb_bounds prev) x) now c = (c', r) ->
  binding_evolves c c'.
Proof.
  intros -> Hc Hx. rewrite install_target_spec by done. unfold binding_evolves.
  case_bool_decide; [intros [= <- <-]; auto|].
  destruct (_ <? _); intros [= <- <-]; simpl; auto.
Qed.

Lemma update_network_targets_step w z c :
  ctrl_wf c -> target_wf w -> target_wf z ->
  ctrl_wf (vardiff_run (OpNetwork w z) c) /\ binding_evolves c (vardiff_run (OpNetwork w z) c).
Proof.
  intros Hc Hw Hz. pose proof Hc as (H1 & (Hb & Ht & Hin & Hr) & H3 & H4 & H5 & H6).
  assert (target_wf (operator_easiest (vc_config c))) as He by (by destruct H1 as (_&_&_&_&He)).
  unfold vardiff_run, update_network_targets. st_unfold.
  destruct (TargetBounds_new w z (operator_easiest (vc_config c))) as [b|e] eqn:Hnew;
    [|by apply step_keep].
  destruct (TargetBounds_new_Ok _ _ _ _ Hw Hz He Hnew) as (Hbw & _ & _ & Heq).
  case_bool_decide; [|by apply step_keep].
  unfold next_revision, ok_or.
  destruct (checked_add _ _ _) as [r|] eqn:Hca; [|by apply step_keep].
  apply checked_add_Some in Hca as [-> Hle].
  destruct (TargetBinding_new_clamp (tb_revision (vc_binding c) + 1) b (tb_target (vc_binding c))
    Hbw Ht ltac:(lia)) as (tb & -> & -> & Htb).
  simpl. split; [|by split; [|right]].
  refine (conj H1 (conj Htb (conj Heq (conj _ (conj _ H6))))); simpl; [widths; lia|done].
Qed.

Lemma observe_share_step b now c :
  ctrl_wf c -> 0 <= now <= U64_MAX ->
  ctrl_wf (vardiff_run (OpShare b now) c) /\ binding_evolves c (vardiff_run (OpShare b now) c).
Proof.
  intros Hc Hn. unfold vardiff_run.
  destruct (decide (b = vc_binding c)) as [->|Hne].
  2:{ unfold observe_share. st_unfold. rewrite bool_decide_eq_true_2 by done.
      by apply step_keep. }
  destruct (clock_regressed c now) eqn:Hclk.
  { unfold observe_share. st_unfold. rewrite bool_decide_eq_false_2, Hclk by (by intros []).
    by apply step_keep. }
  pose proof (ctrl_wf_set_last now c Hc Hn Hclk) as Hc1.
  destruct (window_start_ms c) as [w|] eqn:Hw.
  - destruct (Z.lt_ge_cases (observed_intervals c) U32_MAX) as [Ho|Ho].
    + rewrite (observe_share_cases c now w) by done.
      destruct (observe_result now w c) as [c' r] eqn:E.
      pose proof (observe_result_wf c now w c' r Hc Hw Hclk Hn Ho E).
      pose proof Hc as (_ & _ & _ & Hobs & _).
      pose proof (window_before_now c now w Hc Hw Hclk).
      unfold observe_result in E. destruct (_ <? _); [injection E as <- <-; by apply step_keep|].
      destruct (_ <=? _); [injection E as <- <-; by apply step_keep|].
      split; [done|]. eapply install_target_evolves in E; [exact E|done| |].
      * apply ctrl_wf_set_observed; [done|lia].
      * apply clamped_wf; [done|lia|by apply hardest_step_spec].
    + unfold observe_share. st_unfold. rewrite bool_decide_eq_false_2, Hclk, Hw by (by intros []).
      rewrite (proj2 (checked_add_None _ _ _)) by lia. by apply step_keep.
  - unfold observe_share. st_unfold. rewrite bool_decide_eq_false_2, Hclk, Hw by (by intros []).
    split; [|by split; [|left]]. by apply (ctrl_wf_start now).
Qed.

Lemma tick_step now c :
  ctrl_wf c -> 0 <= now <= U64_MAX ->
  ctrl_wf (vardiff_run (OpTick now) c) /\ binding_evolves c (vardiff_run (OpTick now) c).
Proof.
  intros Hc Hn. unfold vardiff_run. destruct (clock_regressed c now) eqn:Hclk.
  { unfold tick. st_unfold. rewrite Hclk. by apply step_keep. }
  pose proof (ctrl_wf_set_last now c Hc Hn Hclk) as Hc1.
  destruct (window_start_ms c) as [w|] eqn:Hw.
  - rewrite (tick_cases c now w) by done. destruct (tick_result now w c) as [c' r] eqn:E.
    pose proof (tick_result_wf c now w c' r Hc Hw Hclk Hn E).
    pose proof (window_before_now c now w Hc Hw Hclk).
    unfold tick_result in E. destruct (_ || _)%bool; [injection E as <- <-; by apply step_keep|].
    split; [done|]. eapply install_target_evolves in E; [exact E|done|done|].
    apply clamped_wf; [done|lia|]. by destruct Hc as (_ & (_ & Ht & _) & _).
  - unfold tick. st_unfold. rewrite Hclk, Hw. apply step_keep; [|done..].
    by apply (ctrl_wf_start now).
Qed.

Lemma vardiff_run_step o c :
  ctrl_wf c -> vardiff_op_wf o ->
  ctrl_wf (vardiff_run o c) /\ binding_evolves c (vardiff_run o c).
Proof.
  intros Hc Ho. destruct o; [destruct Ho; by apply update_network_targets_step
    |by apply observe_share_step|by apply tick_step].
Qed.

Definition vardiff_history (os : list vardiff_op) (c : VardiffController) : VardiffController :=
  foldl (fun c o => vardiff_run o c) c os.

Lemma vardiff_history_step os c :
  ctrl_wf c -> Forall vardiff_op_wf os ->
  ctrl_wf (vardiff_history os c) /\
  tb_revision (vc_binding c) <= tb_revision (vc_binding (vardiff_history os c)) /\
  (tb_revision (vc_binding c) = tb_revision (vc_binding (vardiff_history os c)) ->
   vc_binding c = vc_binding (vardiff_history os c)).
Proof.
  intros Hc Hos. revert c Hc. induction Hos as [|o os Ho _ IH]; intros c Hc; [done|].
  destruct (vardiff_run_step o c Hc Ho) as [Hc1 [_ Hev]].
  destruct (IH _ Hc1) as (Hwf & Hle & Heq). cbn [vardiff_history foldl] in *.
  unfold vardiff_history in *. split; [done|]. destruct Hev as [Hev|Hev].
  - rewrite Hev in *. split; [lia|]. intros E. by apply Heq.
  - split; [lia|]. intros E. exfalso. lia.
Qed.

Lemma VardiffController_new_wf cfg w z t r c :
  config_wf cfg -> target_wf w -> target_wf z -> target_wf t -> 0 <= r <= U64_MAX ->
  VardiffController_new cfg w z t r = Ok c -> ctrl_wf c /\ tb_revision (vc_binding c) = r.
Proof.
  intros Hcfg Hw Hz Ht Hr. unfold VardiffController_new, map_err.
  assert (target_wf (operator_easiest cfg)) as He by (by destruct Hcfg as (_&_&_&_&He)).
  destruct (TargetBounds_new w z (operator_easiest cfg)) as [b|e] eqn:Hb; [|done].
  destruct (TargetBounds_new_Ok _ _ _ _ Hw Hz He Hb) as (Hbw & _ & _ & Heq).
  destruct (TargetBinding_new_clamp r b t Hbw Ht Hr) as (tb & -> & -> & Htb).
  intros [= <-]. split; [|done].
  refine (conj Hcfg (conj Htb (conj Heq (conj _ (conj _ _))))); simpl; [widths; lia|done..].
Qed.

(** A target revision identifies its binding for the life of a controller.  From a freshly
    constructed controller, after any calls (network-target updates, share observations and
    ticks, with any clock readings and whether or not they fail), the controller is
    well-formed: its target is in the current bounds, so easier than both network targets and
    no easier than the operator ceiling.  Revisions never decrease, and two points of the
    history with the same revision have the same target and bounds. *)
Theorem revision_identifies_binding (interval n hyst factor r : Z) (easiest w z t : ShareTarget)
    (cfg : VardiffConfig) (c : VardiffController) (past future : list vardiff_op)
    (Hi : 0 <= interval <= U64_MAX) (Hn : 0 <= n <= U32_MAX) (Hr : 0 <= r <= U64_MAX)
    (He : target_wf easiest) (Hw : target_wf w) (Hz : target_wf z) (Ht : target_wf t)
    (Hcfg : VardiffConfig_new interval n hyst factor easiest = Ok cfg)
    (Hnew : VardiffController_new cfg w z t r = Ok c)
    (Hpast : Forall vardiff_op_wf past) (Hfuture : Forall vardiff_op_wf future) :
  let c1 := vardiff_history past c in
  let c2 := vardiff_history future c1 in
  ctrl_wf c1 /\ ctrl_wf c2 /\
  tb_revision (vc_binding c1) <= tb_revision (vc_binding c2) /\
  (tb_revision (vc_binding c1) = tb_revision (vc_binding c2) -> vc_binding c1 = vc_binding c2).
Proof.
  destruct (VardiffConfig_new_wf _ _ _ _ _ _ Hi Hn He Hcfg) as [Hc0 _].
  destruct (VardiffController_new_wf _ _ _ _ _ _ Hc0 Hw Hz Ht Hr Hnew) as [Hwf _].
  destruct (vardiff_history_step past c Hwf Hpast) as [H1 _].
  destruct (vardiff_history_step future _ H1 Hfuture) as (H2 & H3 & H4). done.
Qed.

(** ** Concrete runs *)

(** The configuration and the controller of the code's own tests. *)
Definition demo_config : VardiffConfig := mkVardiffConfig 8 160000 2500 4 (small 200).
Definition demo_bounds : TargetBounds := mkTargetBounds (small 2) (small 4) (small 4) (small 200).
Definition demo_controller : VardiffController :=
  mkVardiffController demo_config (mkTargetBinding 7 (small 40) demo_bounds) (Some 0) 7 (Some 1000).

Lemma demo_controller_wf : ctrl_wf demo_controller.
Proof.
  assert (bounds_wf demo_bounds) as Hb.
  { unfold bounds_wf; simpl. split_and!; try (apply small_wf; lia); vm_compute; congruence. }
  refine (conj _ (conj (conj Hb (conj _ (conj _ _))) (conj eq_refl (conj _ (conj _ _))))); simpl.
  - unfold config_wf; simpl. repeat split; try (vm_compute; congruence); repeat constructor; unfold is_byte; lia.
  - apply small_wf; lia.
  - split; vm_compute; congruence.
  - split; vm_compute; congruence.
  - split; vm_compute; congruence.
  - intros w [= <-]. exists 1000. repeat split; (lia || vm_compute; congruence).
  - intros l [= <-]. split; vm_compute; congruence.
Qed.

Lemma observe_share_retargets_witness :
  tval (tb_target (vc_binding (fst (observe_share (vc_binding demo_controller) 80000
    demo_controller)))) = 20.
Proof.
  pose proof (observe_share_retargets demo_controller 80000 0 demo_controller_wf eq_refl eq_refl
    ltac:(widths; lia) ltac:(vm_compute; reflexivity) ltac:(vm_compute; congruence)) as H.
  cbv zeta in H. destruct (observe_share _ _ _) as [c' r] in H |- *; simpl fst.
  destruct H as [_ H]. destruct H as [(_ & H & _) _]; [vm_compute; reflexivity|].
  destruct H as (cur & _ & <- & -> & _); [vm_compute; congruence|vm_compute; reflexivity|].
  vm_compute. reflexivity.
Defined.

Lemma tick_only_eases_witness :
  tval (tb_target (vc_binding (fst (tick 320000 demo_controller)))) = 80.
Proof.
  pose proof (tick_only_eases demo_controller 320000 0 demo_controller_wf eq_refl eq_refl
    ltac:(widths; lia)) as H.
  cbv zeta in H. destruct (tick _ _) as [c' r] in H |- *; simpl fst.
  destruct H as [_ H]. destruct H as [(_ & H & _) _]; [vm_compute; reflexivity|].
  destruct H as (cur & _ & <- & -> & _); [vm_compute; congruence|vm_compute; reflexivity|].
  vm_compute. reflexivity.
Defined.

Lemma revision_identifies_binding_witness :
  exists cfg c, VardiffConfig_new 20000 8 2500 4 (small 200) = Ok cfg /\
    VardiffController_new cfg (small 2) (small 4) (small 40) 7 = Ok c /\
    ctrl_wf (vardiff_history [OpTick 0; OpTick 320000] c) /\
    tb_revision (vc_binding (vardiff_history [OpTick 0; OpTick 320000] c)) = 8.
Proof.
  eexists _, _. split; [reflexivity|]. split; [reflexivity|]. split; [|vm_compute; reflexivity].
  refine (proj1 (revision_identifies_binding 20000 8 2500 4 7 (small 200) (small 2) (small 4)
    (small 40) _ _ [OpTick 0; OpTick 320000] [] _ _ _ _ _ _ _ eq_refl eq_refl _ _));
    try (apply small_wf; lia); try (widths; lia); repeat constructor; simpl; widths; lia.
Defined.
