(* ===== verification/Nonce.v ===== *)
(** Session nonce-prefix allocation (crates/wcash-pool-core/src/nonce.rs): leased namespaces,
    durable cursors and the process-local allocator over a reserved range. *)

From Stdlib Require Import ZArith Lia.
From stdpp Require Import prelude gmap sorting strings.
From S2P Require Import Prelude Wire.
Open Scope Z_scope.

(** ** Data *)

Definition capacity (profile : NonceProfile) : Z :=
  match profile with
  | FourByte => Z.shiftl 1 24
  | EightByte => Z.shiftl 1 56
  end.

Inductive NoncePrefixError : Type :=
| ZeroNamespace
| NamespaceOutOfRange (n : Z)
| Exhausted (p : NonceProfile)
| Poisoned
| InvalidCursor (profile : NonceProfile) (next : Z)
| LeaseMismatch (cursor_namespace provided_namespace : Z)
| InvalidReservation (start end_exclusive : Z)
| NonContiguousReservation (current_end proposed_start proposed_end : Z).

(** [NonceNamespaceLease(NonZeroU8)]. *)
Record NonceNamespaceLease : Type := mkLease { namespace : Z }.

#[global] Instance NonceNamespaceLease_eq_dec : EqDecision NonceNamespaceLease.
Proof. solve_decision. Defined.

Record NonceCursor : Type := mkNonceCursor {
  nc_profile : NonceProfile;
  nc_lease : NonceNamespaceLease;
  nc_next : Z
}.

Record ReservedRange : Type := mkReservedRange { rr_next : Z; rr_end_exclusive : Z }.

(** The allocator; [range_poisoned] is the poison flag of [Mutex<ReservedRange>]. *)
Record NoncePrefixAllocator : Type := mkAllocator {
  na_profile : NonceProfile;
  na_lease : NonceNamespaceLease;
  na_range : ReservedRange;
  range_poisoned : bool
}.

Definition AM (A : Type) : Type := M NoncePrefixAllocator NoncePrefixError A.

(** ** Operations *)

Definition NonceNamespaceLease_new (ns : Z) : result NonceNamespaceLease NoncePrefixError :=
  if ns =? 0 then Err ZeroNamespace
  else if 127 <? ns then Err (NamespaceOutOfRange ns)
  else Ok (mkLease ns).

Definition domain_byte (profile : NonceProfile) (lease : NonceNamespaceLease) : Z :=
  match profile with
  | FourByte => namespace lease
  | EightByte => Z.lor 128 (namespace lease)
  end.

Definition NonceCursor_new (profile : NonceProfile) (lease : NonceNamespaceLease) (next : Z)
    : result NonceCursor NoncePrefixError :=
  if capacity profile <? next then Err (InvalidCursor profile next)
  else Ok (mkNonceCursor profile lease next).

Definition NoncePrefixAllocator_new (profile : NonceProfile) (lease : NonceNamespaceLease)
    : NoncePrefixAllocator :=
  mkAllocator profile lease (mkReservedRange 0 (capacity profile)) false.

Definition restore (cursor : NonceCursor) (lease : NonceNamespaceLease)
    : result NoncePrefixAllocator NoncePrefixError :=
  if bool_decide (nc_lease cursor <> lease) then
    Err (LeaseMismatch (namespace (nc_lease cursor)) (namespace lease))
  else Ok (mkAllocator (nc_profile cursor) lease
             (mkReservedRange (nc_next cursor) (capacity (nc_profile cursor))) false).

Definition restore_reserved (cursor : NonceCursor) (lease : NonceNamespaceLease)
    (end_exclusive : Z) : result NoncePrefixAllocator NoncePrefixError :=
  if bool_decide (nc_lease cursor <> lease) then
    Err (LeaseMismatch (namespace (nc_lease cursor)) (namespace lease))
  else if (end_exclusive <=? nc_next cursor) || (capacity (nc_profile cursor) <? end_exclusive) then
    Err (InvalidReservation (nc_next cursor) end_exclusive)
  else Ok (mkAllocator (nc_profile cursor) lease
             (mkReservedRange (nc_next cursor) end_exclusive) false).

(** [self.range.lock().map_err(|_| Poisoned)?]. *)
Definition lock_range : AM ReservedRange :=
  fun self => if range_poisoned self then (self, Err Poisoned) else (self, Ok (na_range self)).

Definition set_range (r : ReservedRange) : AM unit :=
  st_modify (fun self => mkAllocator (na_profile self) (na_lease self) r (range_poisoned self)).

Definition extend_reserved (start end_exclusive : Z) : AM unit :=
  let* range := lock_range in
  let* self := st_get in
  if negb (start =? rr_end_exclusive range) || (end_exclusive <=? start)
     || (capacity (na_profile self) <? end_exclusive)
  then st_throw (NonContiguousReservation (rr_end_exclusive range) start end_exclusive)
  else set_range (mkReservedRange (rr_next range) end_exclusive).

Definition remaining : AM Z :=
  let* range := lock_range in
  st_ret (saturating_sub (rr_end_exclusive range) (rr_next range)).

(** The prefix the counter [value] encodes to: [counter[0..3]] of the truncated [u32], or
    [counter[0..7]] of the [u64], behind the domain byte. *)
Definition encode_prefix (profile : NonceProfile) (lease : NonceNamespaceLease) (value : Z)
    : NoncePrefix :=
  match profile with
  | FourByte =>
      let counter := le_bytes 4 (value mod 2 ^ 32) in
      Four (FixedHex_new (domain_byte profile lease :: take 3 counter))
  | EightByte =>
      let counter := le_bytes 8 value in
      Eight (FixedHex_new (domain_byte profile lease :: take 7 counter))
  end.

Definition allocate : AM NoncePrefix :=
  let* range := lock_range in
  let* self := st_get in
  if rr_end_exclusive range <=? rr_next range then st_throw (Exhausted (na_profile self)) else
  let value := rr_next range in
  do* set_range (mkReservedRange (rr_next range + 1) (rr_end_exclusive range)) in
  st_ret (encode_prefix (na_profile self) (na_lease self) value).

Definition next_cursor (self : NoncePrefixAllocator) : result NonceCursor NoncePrefixError :=
  match lock_range self with
  | (_, Err e) => Err e
  | (_, Ok range) => NonceCursor_new (na_profile self) (na_lease self) (rr_next range)
  end.

(** ** Invariant *)

Definition lease_wf (l : NonceNamespaceLease) : Prop := 1 <= namespace l <= 127.

Definition allocator_wf (a : NoncePrefixAllocator) : Prop :=
  lease_wf (na_lease a) /\
  0 <= rr_next (na_range a) <= rr_end_exclusive (na_range a) /\
  rr_end_exclusive (na_range a) <= capacity (na_profile a).

Definition counter_bytes (p : NonceProfile) : nat :=
  match p with FourByte => 3 | EightByte => 7 end.

Lemma capacity_bytes p : capacity p = 256 ^ Z.of_nat (counter_bytes p).
Proof. by destruct p. Qed.

Lemma NonceNamespaceLease_new_Ok ns l :
  0 <= ns <= U8_MAX -> NonceNamespaceLease_new ns = Ok l -> l = mkLease ns /\ lease_wf l.
Proof.
  intros Hn H. unfold NonceNamespaceLease_new in H.
  destruct (Z.eqb_spec ns 0), (Z.ltb_spec 127 ns); simplify_eq. split; [done|].
  unfold lease_wf; simpl. lia.
Qed.

Lemma domain_byte_val p l :
  lease_wf l ->
  domain_byte p l = namespace l + match p with FourByte => 0 | EightByte => 128 end.
Proof.
  unfold lease_wf. intros Hl. destruct p; cbn [domain_byte]; [lia|].
  rewrite Z.lor_comm. apply (lor_clear_bit (namespace l) 7); [lia|].
  rewrite Z.div_small; [done|]. lia.
Qed.

Lemma encode_prefix_bytes p l v :
  0 <= v < capacity p ->
  NoncePrefix_as_bytes (encode_prefix p l v) = domain_byte p l :: le_bytes (counter_bytes p) v /\
  NoncePrefix_profile (encode_prefix p l v) = p.
Proof.
  intros Hv. destruct p; cbn [capacity counter_bytes] in *; split; try done; unfold encode_prefix;
    cbn [NoncePrefix_as_bytes as_bytes]; f_equal.
  rewrite Z.mod_small by (change (Z.shiftl 1 24) with 16777216 in Hv; lia). done.
Qed.

Lemma encode_prefix_wf p l v : lease_wf l -> 0 <= v < capacity p -> prefix_wf (encode_prefix p l v).
Proof.
  intros Hl Hv. assert (is_byte (domain_byte p l)) as Hd.
  { rewrite domain_byte_val by done. unfold lease_wf, is_byte in *. destruct p; lia. }
  destruct (encode_prefix_bytes p l v Hv) as [Hb Hp].
  apply prefix_wf_bytes. rewrite Hp, Hb.
  split; [destruct p; simpl; by rewrite ?length_le_bytes|].
  apply Forall_cons. split; [done|apply le_bytes_is_byte].
Qed.

(** Equal prefix bytes mean the same listener profile, namespace and counter. *)
Lemma encode_prefix_inj p1 l1 v1 p2 l2 v2 t1 t2 :
  lease_wf l1 -> lease_wf l2 -> 0 <= v1 < capacity p1 -> 0 <= v2 < capacity p2 ->
  NoncePrefix_as_bytes (encode_prefix p1 l1 v1) ++ t1 =
  NoncePrefix_as_bytes (encode_prefix p2 l2 v2) ++ t2 ->
  p1 = p2 /\ l1 = l2 /\ v1 = v2.
Proof.
  intros Hl1 Hl2 Hv1 Hv2. destruct (encode_prefix_bytes p1 l1 v1 Hv1) as [-> _].
  destruct (encode_prefix_bytes p2 l2 v2 Hv2) as [-> _]. simpl. intros [= Hd Ht].
  rewrite !domain_byte_val in Hd by done. unfold lease_wf in *.
  assert (p1 = p2) as -> by (destruct p1, p2; (done || lia)).
  assert (l1 = l2) as -> by (destruct l1, l2; simpl in *; f_equal; lia).
  split_and!; try done. apply app_inj_1 in Ht as [Ht _]; [|by rewrite !length_le_bytes].
  rewrite capacity_bytes in *. by eapply le_bytes_inj.
Qed.

(** ** Histories of one allocator *)

(** The calls on a shared allocator, in the order the lock serialises them; the prefixes
    issued so far are accumulated. *)
Inductive nonce_op : Type := NAllocate | NExtend (start end_exclusive : Z).

Definition nonce_step (st : NoncePrefixAllocator * list NoncePrefix) (o : nonce_op)
    : NoncePrefixAllocator * list NoncePrefix :=
  let (a, issued) := st in
  match o with
  | NAllocate => match allocate a with
                 | (a', Ok p) => (a', issued ++ [p])
                 | (a', Err _) => (a', issued)
                 end
  | NExtend s e => (fst (extend_reserved s e a), issued)
  end.

Definition nonce_history (ops : list nonce_op) (a : NoncePrefixAllocator)
    : NoncePrefixAllocator * list NoncePrefix := foldl nonce_step (a, []) ops.

(** The prefixes an allocator that started at [s] and stands at [n] must have issued. *)
Definition issued_range (p : NonceProfile) (l : NonceNamespaceLease) (s n : Z) : list NoncePrefix :=
  (fun i => encode_prefix p l (s + Z.of_nat i)) <$> seq 0 (Z.to_nat (n - s)).

Lemma issued_range_snoc p l s n :
  s <= n -> issued_range p l s n ++ [encode_prefix p l n] = issued_range p l s (n + 1).
Proof.
  intros Hn. unfold issued_range. replace (Z.to_nat (n + 1 - s)) with (S (Z.to_nat (n - s))) by lia.
  rewrite seq_S, fmap_app. simpl. do 3 f_equal. lia.
Qed.

Lemma elem_of_issued_range p l s n x :
  x ∈ issued_range p l s n <-> exists v, s <= v < n /\ x = encode_prefix p l v.
Proof.
  unfold issued_range. rewrite list_elem_of_fmap. split.
  - intros (i & -> & Hi%elem_of_seq). exists (s + Z.of_nat i). split; [lia|done].
  - intros (v & Hv & ->). exists (Z.to_nat (v - s)). split; [f_equal; lia|].
    apply elem_of_seq. lia.
Qed.

Lemma allocate_cases a :
  allocate a =
    if range_poisoned a then (a, Err Poisoned)
    else if rr_end_exclusive (na_range a) <=? rr_next (na_range a)
    then (a, Err (Exhausted (na_profile a)))
    else (mkAllocator (na_profile a) (na_lease a)
            (mkReservedRange (rr_next (na_range a) + 1) (rr_end_exclusive (na_range a)))
            (range_poisoned a),
          Ok (encode_prefix (na_profile a) (na_lease a) (rr_next (na_range a)))).
Proof.
  unfold allocate, lock_range, st_bind, st_get, set_range, st_modify, st_ret, st_throw.
  destruct (range_poisoned a) eqn:E; [done|]. destruct (_ <=? _); [done|]. by rewrite E.
Qed.

Lemma extend_reserved_cases s e a :
  extend_reserved s e a =
    if range_poisoned a then (a, Err Poisoned)
    else if negb (s =? rr_end_exclusive (na_range a)) || (e <=? s) || (capacity (na_profile a) <? e)
    then (a, Err (NonContiguousReservation (rr_end_exclusive (na_range a)) s e))
    else (mkAllocator (na_profile a) (na_lease a) (mkReservedRange (rr_next (na_range a)) e) false,
          Ok tt).
Proof.
  unfold extend_reserved, lock_range, st_bind, st_get, set_range, st_modify, st_throw.
  destruct (range_poisoned a) eqn:E; [done|]. destruct (_ || _)%bool; [done|]. by rewrite E.
Qed.

Definition same_namespace (a b : NoncePrefixAllocator) : Prop :=
  na_profile a = na_profile b /\ na_lease a = na_lease b.

Lemma nonce_step_inv a0 s st o :
  allocator_wf (fst st) -> same_namespace a0 (fst st) -> s <= rr_next (na_range (fst st)) ->
  snd st = issued_range (na_profile a0) (na_lease a0) s (rr_next (na_range (fst st))) ->
  let st' := nonce_step st o in
  allocator_wf (fst st') /\ same_namespace a0 (fst st') /\ s <= rr_next (na_range (fst st')) /\
  snd st' = issued_range (na_profile a0) (na_lease a0) s (rr_next (na_range (fst st'))).
Proof.
  destruct st as [a issued]; simpl. intros (Hl & Hn & He) [Hp Hle] Hs ->.
  unfold lease_wf in Hl. destruct o as [|st e].
  - cbn [nonce_step]. rewrite allocate_cases.
    destruct (range_poisoned a); [done|]. destruct (Z.leb_spec (rr_end_exclusive (na_range a)) (rr_next (na_range a)));
      [done|]. simpl. split; [repeat split; simpl; (done || lia)|]. split; [done|].
    split; [lia|]. rewrite <- Hp, <- Hle. by apply issued_range_snoc.
  - cbn [nonce_step]. rewrite extend_reserved_cases.
    destruct (range_poisoned a); [done|]. destruct (_ || _)%bool eqn:Hg; [done|]. boolprop. simpl.
    repeat split; simpl; (done || lia).
Qed.

Lemma nonce_history_inv a ops :
  allocator_wf a ->
  let st := nonce_history ops a in
  allocator_wf (fst st) /\ same_namespace a (fst st) /\
  rr_next (na_range a) <= rr_next (na_range (fst st)) /\
  snd st = issued_range (na_profile a) (na_lease a) (rr_next (na_range a))
             (rr_next (na_range (fst st))).
Proof.
  intros Ha. unfold nonce_history.
  assert (forall st, allocator_wf (fst st) -> same_namespace a (fst st) ->
    rr_next (na_range a) <= rr_next (na_range (fst st)) ->
    snd st = issued_range (na_profile a) (na_lease a) (rr_next (na_range a))
               (rr_next (na_range (fst st))) ->
    let st' := foldl nonce_step st ops in
    allocator_wf (fst st') /\ same_namespace a (fst st') /\
    rr_next (na_range a) <= rr_next (na_range (fst st')) /\
    snd st' = issued_range (na_profile a) (na_lease a) (rr_next (na_range a))
                (rr_next (na_range (fst st')))) as Hgen.
  { induction ops as [|o ops IH]; intros st H1 H2 H3 H4; [done|]. simpl.
    destruct (nonce_step_inv a _ st o H1 H2 H3 H4) as (?&?&?&?). by apply IH. }
  apply Hgen; simpl; [done|done|lia|]. unfold issued_range. by rewrite Z.sub_diag.
Qed.

(** ** Properties *)

(** C37. Header nonces never collide between sessions.  Take two allocators over disjoint
    counter ranges, or with different namespaces, or for different listener profiles, and let
    each serve any history of allocations and contiguous range extensions.  Complete any
    prefix the first one issued and any prefix the second one issued with whatever suffixes
    the two miners submit: when both joins succeed, the 32-byte header nonces differ. *)
Theorem session_nonces_disjoint (a b : NoncePrefixAllocator) (opsa opsb : list nonce_op)
    (p q : NoncePrefix) (sp sq : NonceSuffix) (np nq : Hex32)
    (Ha : allocator_wf a) (Hb : allocator_wf b)
    (Hp : p ∈ snd (nonce_history opsa a)) (Hq : q ∈ snd (nonce_history opsb b))
    (Hsp : suffix_wf sp) (Hsq : suffix_wf sq)
    (Hjp : join_nonce p sp = Ok np) (Hjq : join_nonce q sq = Ok nq)
    (Hdisj : ~ same_namespace a b \/
       rr_next (na_range (fst (nonce_history opsa a))) <= rr_next (na_range b) \/
       rr_next (na_range (fst (nonce_history opsb b))) <= rr_next (na_range a)) :
  np <> nq.
Proof.
  destruct (nonce_history_inv a opsa Ha) as ((Hla & Hna & Hea) & [Hpa Hnsa] & _ & Hia).
  destruct (nonce_history_inv b opsb Hb) as ((Hlb & Hnb & Heb) & [Hpb Hnsb] & _ & Hib).
  pose proof Ha as (? & ? & _). pose proof Hb as (? & ? & _).
  rewrite <- Hpa, <- Hnsa in *. rewrite <- Hpb, <- Hnsb in *.
  rewrite Hia in Hp. rewrite Hib in Hq.
  apply elem_of_issued_range in Hp as (v & Hv & ->).
  apply elem_of_issued_range in Hq as (w & Hw & ->).
  assert (0 <= v < capacity (na_profile a)) as Hvc by lia.
  assert (0 <= w < capacity (na_profile b)) as Hwc by lia.
  pose proof (join_nonce_Ok _ sp (encode_prefix_wf _ _ _ Hla Hvc) Hsp) as Jp.
  pose proof (join_nonce_Ok _ sq (encode_prefix_wf _ _ _ Hlb Hwc) Hsq) as Jq.
  rewrite Hjp in Jp. rewrite Hjq in Jq.
  destruct Jp as (_ & _ & tp & Etp), Jq as (_ & _ & tq & Etq). intros ->. rewrite Etp in Etq.
  apply encode_prefix_inj in Etq as (E1 & E2 & ->); [|done..].
  destruct Hdisj as [Hd|[Hd|Hd]]; [by apply Hd|lia..].
Qed.

(** An allocator issues exactly its reserved counters, each once.  Starting from a restored
    reservation, after any history the prefixes issued are, in order, the encodings of the
    consecutive counters from the cursor up to the current position: no prefix repeats, the
    position never passes the reserved end or the profile's capacity (it does not wrap), and
    [remaining] reports what is left, with [allocate] failing exactly when that is zero. *)
Theorem allocator_issues_reserved_counters (cursor : NonceCursor) (lease : NonceNamespaceLease)
    (e : Z) (a : NoncePrefixAllocator) (ops : list nonce_op)
    (Hl : lease_wf lease) (Hnext : 0 <= nc_next cursor)
    (Hr : restore_reserved cursor lease e = Ok a) :
  let (a', issued) := nonce_history ops a in
  let n := rr_next (na_range a') in
  issued = issued_range (nc_profile cursor) lease (nc_next cursor) n /\ NoDup issued /\
  nc_next cursor <= n <= rr_end_exclusive (na_range a') /\
  rr_end_exclusive (na_range a') <= capacity (nc_profile cursor) /\
  (range_poisoned a' = false ->
     snd (remaining a') = Ok (rr_end_exclusive (na_range a') - n) /\
     (snd (allocate a') = Err (Exhausted (nc_profile cursor)) <->
        n = rr_end_exclusive (na_range a')) /\
     (n < rr_end_exclusive (na_range a') ->
        snd (allocate a') = Ok (encode_prefix (nc_profile cursor) lease n))).
Proof.
  unfold restore_reserved in Hr. destruct (bool_decide _) eqn:Hd; [done|].
  destruct (_ || _)%bool eqn:Hg; [done|]. injection Hr as <-. boolprop.
  match goal with |- context [nonce_history ops ?x] => set (a := x) end.
  assert (allocator_wf a) as Ha by (repeat split; simpl; (apply Hl || lia)).
  pose proof (nonce_history_inv a ops Ha) as Hinv.
  destruct (nonce_history ops a) as [a' issued]. simpl in Hinv.
  destruct Hinv as ((Hl' & Hn' & He') & [Hp' Hns'] & Hge & ->). simpl in *.
  rewrite <- Hp' in *. split; [done|]. split.
  { unfold issued_range. apply NoDup_fmap_2_strong; [|apply NoDup_seq].
    intros i j Hi%elem_of_seq Hj%elem_of_seq E. apply (f_equal NoncePrefix_as_bytes) in E.
    apply (f_equal (fun l => l ++ [])) in E.
    apply encode_prefix_inj in E as (_ & _ & E); [lia|done|done|lia|lia]. }
  split; [lia|]. split; [lia|]. intros Hpo. split_and!.
  - unfold remaining, lock_range, st_bind. rewrite Hpo. unfold saturating_sub. simpl. do 2 f_equal. lia.
  - rewrite allocate_cases, Hpo, <- Hp', <- Hns'.
    destruct (Z.leb_spec (rr_end_exclusive (na_range a')) (rr_next (na_range a'))); simpl;
      split; intros; (done || lia).
  - intros Hlt. rewrite allocate_cases, Hpo, <- Hp', <- Hns'.
    by rewrite (proj2 (Z.leb_gt _ _)) by lia.
Qed.

(** ** Concrete runs *)

Definition demo_allocator (s e : Z) : NoncePrefixAllocator :=
  mkAllocator FourByte (mkLease 5) (mkReservedRange s e) false.

Definition demo_suffix (b : Z) : NonceSuffix := TwentyEight (FixedHex_new (replicate 28 b)).
Definition demo_nonce (c b : Z) : Hex32 := FixedHex_new ([5; c; 0; 0] ++ replicate 28 b).

Lemma session_nonces_disjoint_witness :
  encode_prefix FourByte (mkLease 5) 1 ∈ snd (nonce_history [NAllocate; NAllocate] (demo_allocator 0 2)) /\
  encode_prefix FourByte (mkLease 5) 2 ∈ snd (nonce_history [NAllocate] (demo_allocator 2 3)) /\
  demo_nonce 1 7 <> demo_nonce 2 9.
Proof.
  assert (encode_prefix FourByte (mkLease 5) 1 ∈
    snd (nonce_history [NAllocate; NAllocate] (demo_allocator 0 2))) as Hp
    by (vm_compute; apply list_elem_of_further, list_elem_of_here).
  assert (encode_prefix FourByte (mkLease 5) 2 ∈ snd (nonce_history [NAllocate] (demo_allocator 2 3)))
    as Hq by (vm_compute; apply list_elem_of_here).
  split; [exact Hp|]. split; [exact Hq|].
  refine (session_nonces_disjoint (demo_allocator 0 2) (demo_allocator 2 3)
    [NAllocate; NAllocate] [NAllocate] _ _ (demo_suffix 7) (demo_suffix 9) _ _
    _ _ Hp Hq _ _ eq_refl eq_refl _).
  1,2: repeat split; vm_compute; congruence.
  1,2: split; [reflexivity|apply Forall_replicate; unfold is_byte; lia].
  right; left. vm_compute. congruence.
Defined.

Lemma allocator_issues_reserved_counters_witness :
  exists a, restore_reserved (mkNonceCursor FourByte (mkLease 5) 10) (mkLease 5) 12 = Ok a /\
    snd (nonce_history [NAllocate; NExtend 12 13; NAllocate; NAllocate; NAllocate] a) =
      issued_range FourByte (mkLease 5) 10 13.
Proof.
  eexists. split; [reflexivity|].
  pose proof (allocator_issues_reserved_counters (mkNonceCursor FourByte (mkLease 5) 10) (mkLease 5)
    12 _ [NAllocate; NExtend 12 13; NAllocate; NAllocate; NAllocate]
    ltac:(split; vm_compute; congruence) ltac:(vm_compute; congruence) eq_refl) as H.
  exact (proj1 H).
Defined.
