(* ===== verification/LargestRemainder.v ===== *)
(** Largest-remainder apportionment, the integer division shared by the PPLNS allocation
    (crates/wcash-pool-store/src/accounting.rs, allocate_pplns) and by the two network-fee
    splits (crates/wcash-pool-store/src/postgres.rs, deduct_network_fee_reserve and
    allocate_actual_network_fee), with Rust's stable sort_by. *)

From Stdlib Require Import ZArith Lia.
From stdpp Require Import prelude gmap sorting strings.
From S2P Require Import Prelude.
Open Scope Z_scope.

(** ** Definitions *)

(** [Ordering::then_with] and "not greater". *)
Definition cmp_then (c d : comparison) : comparison := match c with Eq => d | _ => c end.
Definition cmp_le (c : comparison) : bool := match c with Gt => false | _ => true end.

(** A stable sort by a comparison, as [slice::sort_by]: equal elements keep their order. *)
Fixpoint sort_insert {A} (cmp : A -> A -> comparison) (x : A) (l : list A) : list A :=
  match l with
  | [] => [x]
  | y :: l' => if cmp_le (cmp x y) then x :: l else y :: sort_insert cmp x l'
  end.
Definition sort_by {A} (cmp : A -> A -> comparison) (l : list A) : list A :=
  foldr (sort_insert cmp) [] l.

Definition sumZ (l : list Z) : Z := foldr Z.add 0 l.

(** The floor pass: quotient and remainder of [R * w / W] for each weight, each quotient
    checked to fit a [u64], with the running checked total. *)
Fixpoint floor_pass {E} (overflow : E) (R W : Z) (ws : list Z) (floor_total : Z)
    : result (list (Z * Z) * Z) E :=
  match ws with
  | [] => Ok ([], floor_total)
  | w :: ws' =>
      let numerator := R * w in
      if U64_MAX <? numerator / W then Err overflow else
      let? total := ok_or (checked_add U64_MAX floor_total (numerator / W)) overflow in
      let? rest := floor_pass overflow R W ws' total in
      Ok ((numerator / W, numerator mod W) :: fst rest, snd rest)
  end.

(** The final loop: one extra unit for each listed index. *)
Fixpoint bump_all {E} (overflow : E) (idx : list nat) (c : list Z) : result (list Z) E :=
  match idx with
  | [] => Ok c
  | i :: idx' =>
      let? v := ok_or (checked_add U64_MAX (c !!! i) 1) overflow in
      bump_all overflow idx' (<[i := v]> c)
  end.

(** The whole apportionment of [R] over the weights: floors, then the leftover units to the
    first indices in the order [cmp], which sees the remainders.  [usize::try_from] of a [u64]
    is total on the 64-bit targets the pool supports. *)
Definition largest_remainder {E} (overflow rounding : E) (R W : Z) (ws : list Z)
    (cmp : list Z -> nat -> nat -> comparison) : result (list Z) E :=
  let? provisional := floor_pass overflow R W ws 0 in
  let? leftover := ok_or (checked_sub R (snd provisional)) overflow in
  let remainder_order := sort_by (cmp (snd <$> fst provisional)) (seq 0 (length ws)) in
  if Z.of_nat (length remainder_order) <? leftover then Err rounding
  else bump_all overflow (take (Z.to_nat leftover) remainder_order) (fst <$> fst provisional).

(** ** Sums *)

Lemma sumZ_app l1 l2 : sumZ (l1 ++ l2) = sumZ l1 + sumZ l2.
Proof. unfold sumZ. induction l1 as [|x l1 IH]; simpl; [done|]. rewrite IH. lia. Qed.

Lemma sumZ_perm l1 l2 : l1 ≡ₚ l2 -> sumZ l1 = sumZ l2.
Proof. unfold sumZ. induction 1; simpl; lia. Qed.

Lemma sumZ_nonneg l : Forall (fun x => 0 <= x) l -> 0 <= sumZ l.
Proof. unfold sumZ. induction 1; simpl; lia. Qed.

Lemma sumZ_elem_le l x : Forall (fun x => 0 <= x) l -> x ∈ l -> x <= sumZ l.
Proof.
  induction 1 as [|y l Hy Hl IH]; intros Hx; [by apply not_elem_of_nil in Hx|].
  pose proof (sumZ_nonneg l Hl). unfold sumZ in *. simpl.
  apply elem_of_cons in Hx as [->|Hx]; [lia|]. specialize (IH Hx). lia.
Qed.

Lemma sumZ_le_const l b : Forall (fun x => x <= b) l -> sumZ l <= Z.of_nat (length l) * b.
Proof. unfold sumZ. induction 1; cbn [foldr length]; lia. Qed.

Lemma sumZ_le_const_but_one l b :
  Forall (fun x => x <= b) l -> 0 ∈ l -> sumZ l <= (Z.of_nat (length l) - 1) * b.
Proof.
  induction 1 as [|y l Hy Hl IH]; intros H0; [by apply not_elem_of_nil in H0|].
  cbn [length]. apply elem_of_cons in H0 as [<-|H0].
  - pose proof (sumZ_le_const l b Hl). unfold sumZ in *. simpl. lia.
  - specialize (IH H0). unfold sumZ in *. simpl. lia.
Qed.

Lemma sumZ_parts_le l i x : Forall (fun x => 0 <= x) l -> l !! i = Some x -> x <= sumZ l.
Proof. intros Hl Hi. apply sumZ_elem_le; [done|]. by eapply list_elem_of_lookup_2. Qed.

Lemma sumZ_insert l i v x : l !! i = Some x -> sumZ (<[i := v]> l) = sumZ l + v - x.
Proof.
  revert i; induction l as [|y l IH]; intros [|i] Hi; simplify_eq/=; unfold sumZ in *; simpl.
  - lia.
  - rewrite IH by done. lia.
Qed.

Lemma sumZ_lookup_seq l : sumZ ((fun i => l !!! i) <$> seq 0 (length l)) = sumZ l.
Proof.
  f_equal. apply list_eq. intros i. rewrite list_lookup_fmap.
  destruct (decide (i < length l)%nat) as [Hi|Hi].
  - rewrite lookup_seq_lt by done. simpl. by rewrite list_lookup_lookup_total_lt.
  - rewrite lookup_seq_ge by lia. simpl. symmetry. apply lookup_ge_None. lia.
Qed.

Lemma sumZ_cons x l : sumZ (x :: l) = x + sumZ l.
Proof. done. Qed.

Lemma sumZ_all_zero l : Forall (fun x => x = 0) l -> sumZ l = 0.
Proof. unfold sumZ. induction 1; simpl; lia. Qed.

(** ** The sort *)

Lemma cmp_le_Z a b : cmp_le (a ?= b) = true <-> a <= b.
Proof. destruct (Z.compare_spec a b); simpl; split; intros; (done || lia). Qed.

Lemma cmp_then_Z a b c : cmp_le (cmp_then (a ?= b) c) = true <-> a < b \/ (a = b /\ cmp_le c = true).
Proof.
  destruct (Z.compare_spec a b) as [->|H|H]; simpl; split; try done; try (by right).
  - intros [?|[_ ?]]; [lia|done].
  - by left.
  - intros [?|[? _]]; lia.
Qed.

(** Lexicographic comparison by an integer key and then by a tie-break. *)
Lemma cmp_then_total {A} (k : A -> Z) (tie : A -> A -> comparison) x y :
  (cmp_le (tie x y) = false -> cmp_le (tie y x) = true) ->
  cmp_le (cmp_then (k x ?= k y) (tie x y)) = false ->
  cmp_le (cmp_then (k y ?= k x) (tie y x)) = true.
Proof.
  intros Ht Hf. rewrite cmp_then_Z. destruct (Z.compare_spec (k x) (k y)); simpl in Hf; [|done|].
  - right. split; [done|]. by apply Ht.
  - by left.
Qed.

Lemma cmp_then_trans {A} (k : A -> Z) (tie : A -> A -> comparison) x y z :
  (cmp_le (tie x y) = true -> cmp_le (tie y z) = true -> cmp_le (tie x z) = true) ->
  cmp_le (cmp_then (k x ?= k y) (tie x y)) = true ->
  cmp_le (cmp_then (k y ?= k z) (tie y z)) = true ->
  cmp_le (cmp_then (k x ?= k z) (tie x z)) = true.
Proof.
  intros Ht. rewrite !cmp_then_Z. intros [?|[? ?]] [?|[? ?]]; [left; lia..|].
  right. split; [lia|]. by apply Ht.
Qed.

Lemma cmp_le_Z_total a b : cmp_le (a ?= b) = false -> cmp_le (b ?= a) = true.
Proof. intros Hf. apply cmp_le_Z. destruct (Z.compare_spec a b); simpl in Hf; (done || lia). Qed.

Section Sort.
Context {A : Type} (cmp : A -> A -> comparison).

Lemma sort_insert_perm x l : sort_insert cmp x l ≡ₚ x :: l.
Proof.
  induction l as [|y l IH]; simpl; [done|]. destruct (cmp_le _); [done|].
  rewrite IH. apply Permutation_swap.
Qed.

Lemma sort_by_perm l : sort_by cmp l ≡ₚ l.
Proof. induction l as [|x l IH]; simpl; [done|]. by rewrite sort_insert_perm, IH. Qed.

Context (Htotal : forall x y, cmp_le (cmp x y) = false -> cmp_le (cmp y x) = true).
Context (Htrans : forall x y z,
  cmp_le (cmp x y) = true -> cmp_le (cmp y z) = true -> cmp_le (cmp x z) = true).

Local Abbreviation le := (fun x y => cmp_le (cmp x y) = true).

Lemma sort_insert_sorted x l : StronglySorted le l -> StronglySorted le (sort_insert cmp x l).
Proof using Htotal Htrans.
  induction 1 as [|y l Hl IH Hy]; simpl; [by repeat constructor|].
  destruct (cmp_le (cmp x y)) eqn:E.
  - constructor; [by constructor|]. constructor; [done|].
    eapply Forall_impl; [exact Hy|]. intros z Hz. by eapply Htrans.
  - constructor; [done|]. rewrite sort_insert_perm. constructor; [by apply Htotal|done].
Qed.

Lemma sort_by_sorted l : StronglySorted le (sort_by cmp l).
Proof using Htotal Htrans. induction l; simpl; [constructor|]. by apply sort_insert_sorted. Qed.

End Sort.

Lemma StronglySorted_take_drop {A} (R : A -> A -> Prop) (l : list A) k x y :
  StronglySorted R l -> x ∈ take k l -> y ∈ drop k l -> R x y.
Proof.
  intros Hs. revert k. induction Hs as [|z l Hl IH Hz]; intros [|k] Hx Hy; simpl in *;
    try by apply not_elem_of_nil in Hx.
  apply elem_of_cons in Hx as [->|Hx]; [|by eapply IH].
  rewrite Forall_forall in Hz. apply Hz. rewrite <- (take_drop k l), elem_of_app. by right.
Qed.

(** ** Correctness of the apportionment *)

Definition quotients (R W : Z) (ws : list Z) : list Z := (fun w => R * w / W) <$> ws.
Definition remainders (R W : Z) (ws : list Z) : list Z := (fun w => R * w mod W) <$> ws.

Lemma quotients_nonneg R W ws :
  0 <= R -> 0 < W -> Forall (fun w => 0 <= w) ws -> Forall (fun q => 0 <= q) (quotients R W ws).
Proof.
  intros HR HW Hws. apply Forall_fmap. eapply Forall_impl; [exact Hws|].
  intros x Hx; simpl in *. apply Z.div_pos; nia.
Qed.

Lemma floor_pass_Ok {E} (e : E) R W ws ft :
  0 <= R -> 0 < W -> Forall (fun w => 0 <= w) ws -> 0 <= ft ->
  ft + sumZ (quotients R W ws) <= U64_MAX ->
  exists ps, floor_pass e R W ws ft = Ok (ps, ft + sumZ (quotients R W ws)) /\
    fst <$> ps = quotients R W ws /\ snd <$> ps = remainders R W ws.
Proof.
  intros HR HW Hws. revert ft. induction Hws as [|w ws Hw Hws IH]; intros ft Hft Hmax.
  - exists []. simpl. unfold sumZ; simpl. by rewrite Z.add_0_r.
  - simpl in Hw. assert (0 <= R * w / W) by (apply Z.div_pos; nia).
    pose proof (sumZ_nonneg _ (quotients_nonneg R W ws HR HW Hws)).
    change (sumZ (quotients R W (w :: ws))) with (R * w / W + sumZ (quotients R W ws)) in *.
    destruct (IH (ft + R * w / W)) as (ps & Hps & H1 & H2); [lia|lia|].
    exists ((R * w / W, R * w mod W) :: ps). cbn [floor_pass].
    rewrite (proj2 (Z.ltb_ge _ _)) by lia. unfold checked_add, ok_or.
    rewrite (proj2 (Z.leb_le _ _)) by lia. rewrite Hps. cbn [fst snd].
    split; [by rewrite Z.add_assoc|]. rewrite !fmap_cons, H1, H2. done.
Qed.

Lemma sumZ_quotients R W ws :
  0 < W -> W * sumZ (quotients R W ws) + sumZ (remainders R W ws) = R * sumZ ws.
Proof.
  intros HW. unfold sumZ, quotients, remainders.
  induction ws as [|w ws IH]; [simpl; lia|]. rewrite !fmap_cons. cbn [foldr].
  pose proof (Z.div_mod (R * w) W). nia.
Qed.

Lemma bump_all_Ok {E} (e : E) idx c :
  NoDup idx -> Forall (fun i => (i < length c)%nat) idx ->
  (forall i v, i ∈ idx -> c !! i = Some v -> v < U64_MAX) ->
  exists c', bump_all e idx c = Ok c' /\ length c' = length c /\
    sumZ c' = sumZ c + Z.of_nat (length idx) /\
    forall i v, c !! i = Some v -> c' !! i = Some (if bool_decide (i ∈ idx) then v + 1 else v).
Proof.
  intros Hnd. revert c. induction Hnd as [|i idx Hi Hnd IH]; intros c Hlt Hmax.
  { exists c. simpl. split_and!; [done|done|lia|]. intros i v Hv. by rewrite Hv. }
  apply Forall_cons in Hlt as [Hil Hlt].
  destruct (lookup_lt_is_Some_2 c i Hil) as [x Hx].
  assert (x < U64_MAX) by (apply (Hmax i); [left|done]).
  cbn [bump_all]. rewrite (list_lookup_total_correct _ _ _ Hx).
  unfold checked_add, ok_or. rewrite (proj2 (Z.leb_le _ _)) by lia.
  destruct (IH (<[i:=x + 1]> c)) as (c' & -> & Hlen & Hsum & Hc').
  - by rewrite length_insert.
  - intros j v Hj. rewrite list_lookup_insert_ne by (intros ->; done).
    apply Hmax. by right.
  - rewrite length_insert in Hlen. exists c'. split_and!; [done|done| |].
    + rewrite Hsum, (sumZ_insert _ _ _ _ Hx). cbn [length]. lia.
    + intros j v Hv. destruct (decide (i = j)) as [<-|Hij].
      * rewrite (Hc' i (x + 1)) by (by apply list_lookup_insert_eq).
        rewrite bool_decide_eq_false_2 by done. rewrite bool_decide_eq_true_2 by left.
        congruence.
      * rewrite (Hc' j v) by (by rewrite list_lookup_insert_ne).
        assert (j ∈ i :: idx <-> j ∈ idx) as Hiff by (rewrite elem_of_cons; split; [by intros [->|]|by right]).
        by rewrite (bool_decide_ext _ _ Hiff).
Qed.

(** What an apportionment of [R] over the weights [ws] (of total [W]) guarantees: every unit is
    assigned, each share is the exact quotient rounded down or up, it is rounded up only when
    the division is inexact, and the shares rounded up come first in the order [cmp]. *)
Definition apportionment (R W : Z) (ws : list Z) (cmp : nat -> nat -> comparison) (cs : list Z)
    : Prop :=
  length cs = length ws /\ sumZ cs = R /\
  (forall i w c, ws !! i = Some w -> cs !! i = Some c ->
     c = R * w / W \/ (c = R * w / W + 1 /\ 0 < R * w mod W)) /\
  (forall i j w c v d, ws !! i = Some w -> cs !! i = Some c -> ws !! j = Some v ->
     cs !! j = Some d -> c = R * w / W + 1 -> d = R * v / W -> cmp_le (cmp i j) = true).

Section Apportion.
Context {E : Type} (overflow rounding : E) (R W : Z) (ws : list Z).
Context (cmp : list Z -> nat -> nat -> comparison).
Context (HR : 0 <= R <= U64_MAX) (HW : 0 < W) (HWs : W = sumZ ws).
Context (Hws : Forall (fun w => 0 <= w) ws).

Local Abbreviation rems := (remainders R W ws).
Local Abbreviation quots := (quotients R W ws).
Local Abbreviation order := (sort_by (cmp rems) (seq 0 (length ws))).
Local Abbreviation leftover := (R - sumZ quots).

Context (Htotal : forall i j, cmp_le (cmp rems i j) = false -> cmp_le (cmp rems j i) = true).
Context (Htrans : forall i j k, cmp_le (cmp rems i j) = true -> cmp_le (cmp rems j k) = true ->
  cmp_le (cmp rems i k) = true).
Context (Hrem : forall i j, cmp_le (cmp rems i j) = true -> rems !!! j <= rems !!! i).

Lemma remainders_bound : Forall (fun r => 0 <= r <= W - 1) rems.
Proof using HW.
  apply Forall_fmap, Forall_true. intros w. simpl. pose proof (Z.mod_pos_bound (R * w) W HW). lia.
Qed.

Lemma leftover_sum : W * leftover = sumZ rems.
Proof using HW HWs. pose proof (sumZ_quotients R W ws HW). rewrite <- HWs in *. nia. Qed.

Lemma leftover_bound : 0 <= leftover <= Z.of_nat (length ws).
Proof using HW HWs.
  pose proof leftover_sum as HS. pose proof remainders_bound as HB.
  assert (0 <= sumZ rems) by (apply sumZ_nonneg; eapply Forall_impl; [exact HB|]; simpl; lia).
  assert (sumZ rems <= Z.of_nat (length rems) * (W - 1)) as HU
    by (apply sumZ_le_const; eapply Forall_impl; [exact HB|]; simpl; lia).
  unfold remainders in HU at 2. rewrite length_fmap in HU. nia.
Qed.

Lemma order_perm : order ≡ₚ seq 0 (length ws).
Proof using. apply sort_by_perm. Qed.

Lemma order_length : length order = length ws.
Proof using. by rewrite order_perm, length_seq. Qed.

Lemma order_NoDup : NoDup order.
Proof using. rewrite order_perm. apply NoDup_seq. Qed.

Lemma elem_of_order i : i ∈ order <-> (i < length ws)%nat.
Proof using. rewrite order_perm, elem_of_seq. lia. Qed.

Lemma rems_lookup i w : ws !! i = Some w -> rems !!! i = R * w mod W.
Proof using.
  intros Hi. apply list_lookup_total_correct. unfold remainders. by rewrite list_lookup_fmap, Hi.
Qed.

(** An index that receives a leftover unit has an inexact quotient. *)
Lemma bumped_inexact i : i ∈ take (Z.to_nat leftover) order -> 0 < rems !!! i.
Proof using HR HW HWs Hrem Htotal Htrans.
  intros Hi. pose proof leftover_bound as HL. pose proof leftover_sum as HS.
  assert (forall j, j ∈ order -> 0 <= rems !!! j <= W - 1) as HB.
  { intros j Hj%elem_of_order. pose proof remainders_bound as HB. rewrite Forall_forall in HB.
    apply HB, list_elem_of_lookup_total_2. unfold remainders. by rewrite length_fmap. }
  assert (i ∈ order) as Hio by (eapply elem_of_take in Hi as (? & ? & ?); by eapply list_elem_of_lookup_2).
  destruct (Z.lt_ge_cases 0 (rems !!! i)) as [|Hz]; [done|exfalso].
  pose proof (HB i Hio) as Hi0.
  assert (sumZ rems = sumZ ((fun j => rems !!! j) <$> take (Z.to_nat leftover) order) +
                      sumZ ((fun j => rems !!! j) <$> drop (Z.to_nat leftover) order)) as Hsplit.
  { rewrite <- sumZ_app, <- fmap_app, take_drop.
    rewrite <- (sumZ_lookup_seq rems). apply sumZ_perm. unfold remainders at 2.
    rewrite length_fmap. apply fmap_Permutation. symmetry. apply order_perm. }
  assert (sumZ ((fun j => rems !!! j) <$> drop (Z.to_nat leftover) order) <= 0) as Hdrop.
  { etransitivity; [apply (sumZ_le_const _ 0)|lia]. apply Forall_fmap, Forall_forall. intros j Hj.
    simpl. pose proof (StronglySorted_take_drop _ _ _ i j
      (sort_by_sorted (cmp rems) Htotal Htrans (seq 0 (length ws))) Hi Hj) as Hle.
    apply Hrem in Hle. lia. }
  assert (sumZ ((fun j => rems !!! j) <$> take (Z.to_nat leftover) order) <= (leftover - 1) * (W - 1)).
  { etransitivity; [apply (sumZ_le_const_but_one _ (W - 1))|].
    - apply Forall_fmap, Forall_forall. intros j Hj. simpl. apply HB.
      eapply elem_of_take in Hj as (? & ? & ?); by eapply list_elem_of_lookup_2.
    - apply list_elem_of_fmap. exists i. split; [lia|done].
    - rewrite length_fmap, length_take, order_length. apply Z.mul_le_mono_nonneg_r; lia. }
  assert (1 <= leftover).
  { destruct (Z.le_gt_cases 1 leftover); [done|]. replace (Z.to_nat leftover) with O in Hi by lia.
    by apply not_elem_of_nil in Hi. }
  nia.
Qed.
Lemma largest_remainder_apportions :
  exists cs, largest_remainder overflow rounding R W ws cmp = Ok cs /\
    apportionment R W ws (cmp rems) cs.
Proof using HR HW HWs Hws Hrem Htotal Htrans.
  pose proof leftover_bound as HL. pose proof (quotients_nonneg R W ws (proj1 HR) HW Hws) as Hqn.
  destruct (floor_pass_Ok overflow R W ws 0 (proj1 HR) HW Hws) as (ps & Hps & Hf & Hs); [lia|lia|].
  set (idx := take (Z.to_nat leftover) order).
  assert (length idx = Z.to_nat leftover) as Hidx
    by (unfold idx; rewrite length_take, order_length; lia).
  assert (length quots = length ws) as Hql by (unfold quotients; by rewrite length_fmap).
  destruct (bump_all_Ok overflow idx quots) as (cs & Hb & Hlen & Hsum & Hcs).
  - pose proof order_NoDup as Hnd. rewrite <- (take_drop (Z.to_nat leftover) order) in Hnd.
    by apply NoDup_app in Hnd as [Hnd _].
  - unfold idx. rewrite Hql. apply Forall_take, Forall_forall. intros i. by rewrite elem_of_order.
  - intros i v Hi Hv. assert (1 <= leftover).
    { destruct (Z.le_gt_cases 1 leftover); [done|]. unfold idx in Hi.
      replace (Z.to_nat leftover) with O in Hi by lia. by apply not_elem_of_nil in Hi. }
    pose proof (sumZ_elem_le _ v Hqn ltac:(by eapply list_elem_of_lookup_2)). lia.
  - exists cs. split.
    + unfold largest_remainder. rewrite Hps. cbn [fst snd]. rewrite Hs, Hf, Z.add_0_l.
      unfold checked_sub, ok_or. rewrite (proj2 (Z.leb_le _ _)) by lia.
      rewrite order_length, (proj2 (Z.ltb_ge _ _)) by lia. exact Hb.
    + assert (forall i w c, ws !! i = Some w -> cs !! i = Some c ->
        c = if bool_decide (i ∈ idx) then R * w / W + 1 else R * w / W) as Hval.
      { intros i w c Hw Hc. specialize (Hcs i (R * w / W)).
        unfold quotients in Hcs. rewrite list_lookup_fmap, Hw in Hcs. specialize (Hcs eq_refl).
        congruence. }
      split_and!; [congruence|rewrite Hsum, Hidx; lia| |].
      * intros i w c Hw Hc. rewrite (Hval i w c Hw Hc). case_bool_decide as Hi; [right|by left].
        split; [done|]. rewrite <- (rems_lookup i w Hw). by apply bumped_inexact.
      * intros i j w c v d Hw Hc Hv Hd -> ->. apply (Hval i w _ Hw) in Hc. apply (Hval j v _ Hv) in Hd.
        revert Hc Hd. case_bool_decide as Hi; [|lia]. case_bool_decide as Hj; [lia|]. intros _ _.
        apply (StronglySorted_take_drop _ order (Z.to_nat leftover) i j
          (sort_by_sorted (cmp rems) Htotal Htrans _) Hi).
        assert (j ∈ order) as Hjo by (apply elem_of_order; by eapply lookup_lt_Some).
        rewrite <- (take_drop (Z.to_nat leftover) order), elem_of_app in Hjo. by destruct Hjo.
Qed.

(** When no more than the total is apportioned, nobody receives more than their weight. *)
Lemma apportionment_le_weight c cs i w x :
  R <= W -> apportionment R W ws c cs -> ws !! i = Some w -> cs !! i = Some x -> 0 <= x <= w.
Proof using HR HW Hws.
  intros Hle (_ & _ & Hc & _) Hw Hx. rewrite Forall_lookup in Hws. pose proof (Hws i w Hw) as Hw0.
  simpl in Hw0. pose proof (Z.div_mod (R * w) W). pose proof (Z.mod_pos_bound (R * w) W HW).
  assert (0 <= R * w / W) by (apply Z.div_pos; nia).
  destruct (Hc i w x Hw Hx) as [->|[-> Hpos]]; nia.
Qed.
(** No part is negative or exceeds what is apportioned. *)
Lemma apportionment_le_total c cs i x :
  apportionment R W ws c cs -> cs !! i = Some x -> 0 <= x <= R.
Proof using HR HW Hws.
  intros (Hlen & Hsum & Hc & _) Hx.
  assert (Forall (fun y => 0 <= y) cs) as Hcs.
  { apply Forall_lookup. intros j y Hy.
    destruct (lookup_lt_is_Some_2 ws j) as [w Hw]; [rewrite <- Hlen; by eapply lookup_lt_Some|].
    rewrite Forall_lookup in Hws. pose proof (Hws j w Hw) as Hw0. simpl in Hw0.
    assert (0 <= R * w / W) by (apply Z.div_pos; nia). destruct (Hc j w y Hw Hy) as [->|[-> _]]; lia. }
  rewrite <- Hsum. split; [|by eapply sumZ_parts_le]. rewrite Forall_lookup in Hcs. by apply (Hcs i).
Qed.
End Apportion.
