(* ===== verification/Pplns.v ===== *)
(** Deterministic PPLNS weighting and reward conservation
    (crates/wcash-pool-store/src/accounting.rs). *)

From Stdlib Require Import ZArith Lia.
From stdpp Require Import prelude gmap sorting strings.
From S2P Require Import Prelude Wire LargestRemainder.
Open Scope Z_scope.

(** ** Data *)

Definition MAX_POOL_FEE_BPS : Z := 1000.
Definition PPLNS_BASIS_POINTS : Z := 10000.

Inductive PplnsError : Type :=
| ZeroTarget
| ZeroWindow
| InvalidReward (reward : Z)
| FeeTooHigh (bps : Z)
| NoEligibleWork
| NilAccount
| ZeroShareId
| DuplicateShare
| ZeroWork
| ArithmeticOverflow
| ConservationFailure.

#[global] Instance PplnsError_eq_dec : EqDecision PplnsError.
Proof. solve_decision. Defined.

(** [work] is a [BigUint]: an unbounded natural number. *)
Record WeightedShare : Type := mkWeightedShare {
  ws_share_id : list Z;
  ws_account_id : Uuid;
  ws_work : Z
}.

Record AccountAllocation : Type := mkAccountAllocation {
  aa_account_id : Uuid;
  aa_work : Z;
  aa_amount_zat : Z
}.

Record AllocationPlan : Type := mkAllocationPlan {
  selected_work : Z;
  pool_fee_zat : Z;
  ap_accounts : list AccountAllocation
}.

(** ** Operations *)

Definition miner_total_zat (plan : AllocationPlan) : Z :=
  sumZ (aa_amount_zat <$> ap_accounts plan).

Definition target_work (target : TargetLe) : result Z PplnsError :=
  let numeric_target := le_val (tle_bytes target) in
  if numeric_target =? 0 then Err ZeroTarget
  else Ok (Z.shiftl 1 256 / (numeric_target + 1)).

(** The window loop: [seen] is the [HashSet] of share identifiers and [by_account] the
    [BTreeMap] of selected work. *)
Fixpoint select_window (newest_first : list WeightedShare) (remaining : Z)
    (by_account : gmap Z Z) (seen : gset (list Z)) : result (gmap Z Z) PplnsError :=
  match newest_first with
  | [] => Ok by_account
  | share :: rest =>
      if Uuid_is_nil (ws_account_id share) then Err NilAccount
      else if bool_decide (ws_share_id share = replicate 32 0) then Err ZeroShareId
      else if bool_decide (ws_share_id share ∈ seen) then Err DuplicateShare
      else if ws_work share =? 0 then Err ZeroWork
      else if remaining =? 0 then Ok by_account
      else
        let selected := Z.min (ws_work share) remaining in
        select_window rest (remaining - selected)
          (<[ws_account_id share :=
               default 0 (by_account !! ws_account_id share) + selected]> by_account)
          ({[ws_share_id share]} ∪ seen)
  end.

(** Iteration over a [BTreeMap]: entries in ascending key order. *)
Definition btree_entries (m : gmap Z Z) : list (Z * Z) :=
  sort_by (fun a b => fst a ?= fst b) (map_to_list m).

(** The order in which leftover units are handed out: largest remainder first, ties by
    account identifier. *)
Definition pplns_order (ids : list Z) (rems : list Z) (left right : nat) : comparison :=
  cmp_then (rems !!! right ?= rems !!! left) (ids !!! left ?= ids !!! right).

Definition allocate_pplns (newest_first : list WeightedShare) (window_work reward_zat fee_bps : Z)
    : result AllocationPlan PplnsError :=
  if window_work =? 0 then Err ZeroWindow
  else if (reward_zat =? 0) || (MAX_CHAIN_VALUE_ZAT <? reward_zat) then Err (InvalidReward reward_zat)
  else if MAX_POOL_FEE_BPS <? fee_bps then Err (FeeTooHigh fee_bps)
  else
    let? by_account := select_window newest_first window_work ∅ ∅ in
    if bool_decide (by_account = ∅) then Err NoEligibleWork else
    let entries := btree_entries by_account in
    let selected := sumZ (snd <$> entries) in
    let? product := ok_or (checked_mul U64_MAX reward_zat fee_bps) ArithmeticOverflow in
    let pool_fee := product / PPLNS_BASIS_POINTS in
    let? miner_reward := ok_or (checked_sub reward_zat pool_fee) ArithmeticOverflow in
    let? amounts := largest_remainder ArithmeticOverflow ArithmeticOverflow miner_reward selected
                      (snd <$> entries) (pplns_order (fst <$> entries)) in
    let plan := mkAllocationPlan selected pool_fee
      (zip_with (fun e amount => mkAccountAllocation (fst e) (snd e) amount) entries amounts) in
    if bool_decide (checked_add U64_MAX (miner_total_zat plan) (pool_fee_zat plan) = Some reward_zat)
    then Ok plan else Err ConservationFailure.

(** The code's own examples. *)
Definition share_of (id account work : Z) : WeightedShare :=
  mkWeightedShare (replicate 32 id) account work.

Example window_partially_selects_oldest_share :
  allocate_pplns [share_of 1 1 70; share_of 2 2 70; share_of 3 3 70] 100 1001 100 =
  Ok (mkAllocationPlan 100 10 [mkAccountAllocation 1 70 694; mkAccountAllocation 2 30 297]).
Proof. vm_compute. reflexivity. Qed.

Example largest_remainder_is_deterministic_under_ties :
  allocate_pplns [share_of 1 2 1; share_of 2 1 1; share_of 3 3 1] 3 2 0 =
  Ok (mkAllocationPlan 3 0 [mkAccountAllocation 1 1 1; mkAccountAllocation 2 1 1;
                            mkAccountAllocation 3 1 0]).
Proof. vm_compute. reflexivity. Qed.

Example repeated_account_aggregates_before_rounding :
  allocate_pplns [share_of 1 1 2; share_of 2 2 3; share_of 3 1 2] 7 700 0 =
  Ok (mkAllocationPlan 7 0 [mkAccountAllocation 1 4 400; mkAccountAllocation 2 3 300]).
Proof. vm_compute. reflexivity. Qed.

Example unsafe_inputs_fail_closed :
  allocate_pplns [] 1 1 0 = Err NoEligibleWork /\
  allocate_pplns [share_of 1 1 1] 1 1 1001 = Err (FeeTooHigh 1001) /\
  allocate_pplns [share_of 1 1 1; share_of 1 1 1] 2 1 0 = Err DuplicateShare.
Proof. vm_compute. done. Qed.

(** ** Reference semantics of the window *)

(** What each share contributes: its work, cut at what is left of the window. *)
Fixpoint contributions (shares : list WeightedShare) (remaining : Z) : list (Z * Z) :=
  match shares with
  | [] => []
  | s :: rest =>
      let x := Z.min (ws_work s) remaining in
      (ws_account_id s, x) :: contributions rest (remaining - x)
  end.

(** An account's selected work. *)
Definition account_work (shares : list WeightedShare) (window account : Z) : Z :=
  sumZ (snd <$> filter (fun e => fst e = account) (contributions shares window)).

Definition shares_wf (shares : list WeightedShare) : Prop :=
  Forall (fun s => 0 <= ws_work s) shares.

Lemma contributions_exhausted shares : shares_wf shares ->
  Forall (fun e => snd e = 0) (contributions shares 0).
Proof.
  induction 1 as [|s shares Hs _ IH]; cbn [contributions]; [constructor|]. simpl in Hs.
  rewrite (Z.min_r (ws_work s) 0) by lia. rewrite Z.sub_0_r. by constructor.
Qed.

Lemma account_work_exhausted shares a : shares_wf shares -> account_work shares 0 a = 0.
Proof.
  intros H%contributions_exhausted. unfold account_work. apply sumZ_all_zero, Forall_fmap.
  apply Forall_forall. intros e [_ He]%list_elem_of_filter. rewrite Forall_forall in H. by apply H.
Qed.

Lemma account_work_cons s shares w a :
  account_work (s :: shares) w a =
  (if bool_decide (ws_account_id s = a) then Z.min (ws_work s) w else 0) +
  account_work shares (w - Z.min (ws_work s) w) a.
Proof.
  unfold account_work. cbn [contributions]. rewrite filter_cons. simpl.
  case_bool_decide; case_decide; simplify_eq; done.
Qed.

(** *** Sums over the account map *)

Definition msum (m : gmap Z Z) : Z := sumZ (snd <$> map_to_list m).

Lemma msum_insert_new m k v : m !! k = None -> msum (<[k := v]> m) = v + msum m.
Proof. intros Hk. unfold msum. by rewrite (sumZ_perm _ _ (fmap_Permutation snd _ _ (map_to_list_insert m k v Hk))). Qed.

Lemma msum_insert m k v : msum (<[k := v]> m) = msum m + v - default 0 (m !! k).
Proof.
  destruct (m !! k) as [x|] eqn:Hk; simpl; [|rewrite msum_insert_new by done; lia].
  rewrite <- (insert_delete_id m k x Hk) at 2.
  rewrite <- (insert_delete_eq m k v).
  rewrite !msum_insert_new by apply lookup_delete_eq. lia.
Qed.

Lemma btree_entries_perm m : btree_entries m ≡ₚ map_to_list m.
Proof. apply sort_by_perm. Qed.

Lemma btree_entries_sum m : sumZ (snd <$> btree_entries m) = msum m.
Proof. unfold msum. apply sumZ_perm. by rewrite btree_entries_perm. Qed.

Lemma elem_of_btree_entries m k v : (k, v) ∈ btree_entries m <-> m !! k = Some v.
Proof. rewrite btree_entries_perm. apply elem_of_map_to_list. Qed.

Lemma btree_entries_sorted m : StronglySorted Z.lt (fst <$> btree_entries m).
Proof.
  assert (StronglySorted Z.le (fst <$> btree_entries m)) as Hs.
  { unfold btree_entries. set (l := map_to_list m).
    pose proof (sort_by_sorted (fun a b : Z * Z => fst a ?= fst b)) as H.
    assert (forall x y : Z * Z, cmp_le (fst x ?= fst y) = false -> cmp_le (fst y ?= fst x) = true) as Ht.
    { intros x y. destruct (Z.compare_spec (fst x) (fst y)); [done..|]. intros _. apply cmp_le_Z. lia. }
    specialize (H Ht). clear Ht.
    assert (StronglySorted (fun x y : Z * Z => cmp_le (fst x ?= fst y) = true)
      (sort_by (fun a b => fst a ?= fst b) l)) as Hl.
    { apply H. intros x y z. rewrite !cmp_le_Z. lia. }
    induction Hl as [|e es Hes IH Hall]; simpl; constructor; [done|].
    apply Forall_fmap. eapply Forall_impl; [exact Hall|]. intros y Hy. simpl. by apply cmp_le_Z. }
  assert (NoDup (fst <$> btree_entries m)) as Hnd.
  { rewrite (btree_entries_perm m). apply NoDup_fst_map_to_list. }
  induction Hs as [|x l Hl IH Hall]; [constructor|]. apply NoDup_cons in Hnd as [Hx Hnd].
  constructor; [by apply IH|]. apply Forall_forall. intros y Hy. rewrite Forall_forall in Hall.
  specialize (Hall y Hy). assert (x <> y) by (by intros ->). lia.
Qed.

(** *** The window *)

Definition total_work (shares : list WeightedShare) : Z := sumZ (ws_work <$> shares).

Lemma total_work_nonneg shares : shares_wf shares -> 0 <= total_work shares.
Proof. intros H. by apply sumZ_nonneg, Forall_fmap. Qed.

Lemma total_work_cons s shares : total_work (s :: shares) = ws_work s + total_work shares.
Proof. done. Qed.

Lemma select_window_spec shares : shares_wf shares -> forall rem m seen m',
  0 <= rem -> select_window shares rem m seen = Ok m' ->
  (forall a, default 0 (m' !! a) = default 0 (m !! a) + account_work shares rem a) /\
  msum m' = msum m + Z.min rem (total_work shares) /\
  (map_Forall (fun _ v => 0 < v) m -> map_Forall (fun _ v => 0 < v) m').
Proof.
  induction 1 as [|s shares Hs Hwf IH]; intros rem m seen m' Hrem; cbn [select_window].
  { intros [= <-]. change (total_work []) with 0. rewrite Z.min_r, Z.add_0_r by done.
    split_and!; [|done|done]. intros a. unfold account_work. simpl. unfold sumZ; simpl. lia. }
  simpl in Hs. pose proof (total_work_nonneg shares Hwf).
  destruct (Uuid_is_nil _); [done|]. case_bool_decide; [done|]. case_bool_decide; [done|].
  destruct (Z.eqb_spec (ws_work s) 0) as [|Hw]; [done|].
  destruct (Z.eqb_spec rem 0) as [->|Hr].
  { intros [= <-]. rewrite total_work_cons. split_and!; [|lia|done].
    intros a. rewrite account_work_exhausted by (by constructor). lia. }
  intros Hsel. set (x := Z.min (ws_work s) rem) in *.
  assert (0 < x <= rem) by (unfold x; lia).
  apply IH in Hsel as (Hacc & Hsum & Hpos); [|lia]. split_and!.
  - intros a. rewrite Hacc, account_work_cons. fold x.
    destruct (decide (ws_account_id s = a)) as [<-|Hne].
    + rewrite lookup_insert_eq, bool_decide_eq_true_2 by done. simpl. by rewrite Z.add_assoc.
    + by rewrite lookup_insert_ne, bool_decide_eq_false_2 by done.
  - rewrite Hsum, msum_insert, total_work_cons.
    generalize (default 0 (m !! ws_account_id s)) as d. intros d. unfold x. lia.
  - intros Hm. apply Hpos. apply map_Forall_insert_2; [|done].
    destruct (m !! ws_account_id s) as [v|] eqn:Hv; simpl; [|lia].
    specialize (Hm _ _ Hv). simpl in Hm. lia.
Qed.

Lemma select_window_nonempty s shares rem m' :
  shares_wf (s :: shares) -> 0 < rem -> 0 < ws_work s ->
  select_window (s :: shares) rem ∅ ∅ = Ok m' -> m' <> ∅.
Proof.
  intros Hwf Hrem Hw Hsel ->. apply (select_window_spec _ Hwf) in Hsel as (Ha & _); [|lia].
  specialize (Ha (ws_account_id s)). rewrite lookup_empty, account_work_cons in Ha. simpl in Ha.
  rewrite bool_decide_eq_true_2 in Ha by done. apply Forall_cons in Hwf as [_ Hwf].
  assert (0 <= account_work shares (rem - Z.min (ws_work s) rem) (ws_account_id s)); [|lia].
  apply sumZ_nonneg, Forall_fmap, Forall_forall. intros e [_ He]%list_elem_of_filter. simpl.
  assert (0 <= rem - Z.min (ws_work s) rem) as Hr by lia. clear Ha Hrem.
  revert Hr He. generalize (rem - Z.min (ws_work s) rem) as r.
  induction Hwf as [|t shares Ht _ IH]; intros r Hr He; [by apply not_elem_of_nil in He|].
  simpl in Ht. cbn [contributions] in He. apply elem_of_cons in He as [->|He]; simpl; [lia|].
  eapply IH; [|exact He]. lia.
Qed.

(** The hand-out order is a total preorder that puts larger remainders first. *)
Lemma pplns_order_key ids rems i j :
  pplns_order ids rems i j =
  cmp_then (- (rems !!! i) ?= - (rems !!! j)) (ids !!! i ?= ids !!! j).
Proof. unfold pplns_order. by rewrite Z.compare_opp. Qed.

Lemma pplns_order_total ids rems i j :
  cmp_le (pplns_order ids rems i j) = false -> cmp_le (pplns_order ids rems j i) = true.
Proof.
  rewrite !pplns_order_key.
  apply (cmp_then_total (fun i => - (rems !!! i)) (fun i j => ids !!! i ?= ids !!! j)).
  apply cmp_le_Z_total.
Qed.

Lemma pplns_order_trans ids rems i j k :
  cmp_le (pplns_order ids rems i j) = true -> cmp_le (pplns_order ids rems j k) = true ->
  cmp_le (pplns_order ids rems i k) = true.
Proof.
  rewrite !pplns_order_key.
  apply (cmp_then_trans (fun i => - (rems !!! i)) (fun i j => ids !!! i ?= ids !!! j)).
  rewrite !cmp_le_Z. lia.
Qed.

Lemma pplns_order_rem ids rems i j :
  cmp_le (pplns_order ids rems i j) = true -> rems !!! j <= rems !!! i.
Proof. unfold pplns_order. rewrite cmp_then_Z. lia. Qed.

(** ** Properties *)

(** Every share may enter a window: it names an account, has an identifier of its own and
    represents work. *)
Definition share_valid (s : WeightedShare) : Prop :=
  ws_account_id s <> 0 /\ ws_share_id s <> replicate 32 0 /\ 0 < ws_work s.

Lemma select_window_valid shares : Forall share_valid shares -> NoDup (ws_share_id <$> shares) ->
  forall rem m seen, (forall s, s ∈ shares -> ws_share_id s ∉ seen) ->
  exists m', select_window shares rem m seen = Ok m'.
Proof.
  induction 1 as [|s shares (Ha & Hid & Hw) _ IH]; intros Hnd rem m seen Hseen; [by eexists|].
  rewrite fmap_cons in Hnd. apply NoDup_cons in Hnd as [Hs Hnd]. cbn [select_window].
  unfold Uuid_is_nil. rewrite (proj2 (Z.eqb_neq _ _)) by done.
  rewrite bool_decide_eq_false_2 by done.
  rewrite bool_decide_eq_false_2 by (apply Hseen; left).
  rewrite (proj2 (Z.eqb_neq (ws_work s) _)) by lia.
  destruct (rem =? 0); [by eexists|]. apply IH; [done|]. intros t Ht.
  rewrite not_elem_of_union, elem_of_singleton. split; [|by apply Hseen; right].
  intros E. apply Hs. rewrite <- E. by apply list_elem_of_fmap_2.
Qed.

(** The plan that [allocate_pplns] builds once a window is selected. *)
Definition plan_ok (shares : list WeightedShare) (window reward fee_bps : Z) (plan : AllocationPlan)
    : Prop :=
  let miner_reward := reward - pool_fee_zat plan in
  let share_of a := miner_reward * account_work shares window a in
  pool_fee_zat plan = reward * fee_bps / 10000 /\
  miner_total_zat plan + pool_fee_zat plan = reward /\
  selected_work plan = Z.min window (total_work shares) /\
  sumZ (aa_work <$> ap_accounts plan) = selected_work plan /\
  StronglySorted Z.lt (aa_account_id <$> ap_accounts plan) /\
  (forall a, 0 < account_work shares window a <-> a ∈ (aa_account_id <$> ap_accounts plan)) /\
  (forall e, e ∈ ap_accounts plan ->
     aa_work e = account_work shares window (aa_account_id e) /\
     (aa_amount_zat e = share_of (aa_account_id e) / selected_work plan \/
      aa_amount_zat e = share_of (aa_account_id e) / selected_work plan + 1 /\
      0 < share_of (aa_account_id e) mod selected_work plan)) /\
  (forall e f, e ∈ ap_accounts plan -> f ∈ ap_accounts plan ->
     aa_amount_zat e = share_of (aa_account_id e) / selected_work plan + 1 ->
     aa_amount_zat f = share_of (aa_account_id f) / selected_work plan ->
     let r a := share_of a mod selected_work plan in
     r (aa_account_id f) < r (aa_account_id e) \/
     r (aa_account_id f) = r (aa_account_id e) /\ aa_account_id e <= aa_account_id f).

Lemma zip_with_accounts (entries : list (Z * Z)) (amounts : list Z) :
  length amounts = length entries ->
  let accounts := zip_with (fun e amount => mkAccountAllocation (fst e) (snd e) amount)
                    entries amounts in
  aa_account_id <$> accounts = fst <$> entries /\
  aa_work <$> accounts = snd <$> entries /\
  aa_amount_zat <$> accounts = amounts.
Proof.
  revert amounts; induction entries as [|e es IH]; intros [|a l] Hlen; try done.
  injection Hlen as Hlen. destruct (IH l Hlen) as (H1 & H2 & H3).
  cbv zeta. cbn [zip_with]. rewrite !fmap_cons, H1, H2, H3. done.
Qed.

(** The entries of a selected window: positive work per account, in account order, adding up
    to the window or to all the work there is. *)
Lemma window_entries shares window m :
  shares_wf shares -> 0 < window -> select_window shares window ∅ ∅ = Ok m -> m <> ∅ ->
  let es := btree_entries m in
  (forall a w, (a, w) ∈ es -> w = account_work shares window a /\ 0 < w) /\
  (forall a, 0 < account_work shares window a <-> a ∈ (fst <$> es)) /\
  Forall (fun w => 0 <= w) (snd <$> es) /\
  sumZ (snd <$> es) = Z.min window (total_work shares) /\ 0 < sumZ (snd <$> es).
Proof.
  intros Hwf Hwin Hsel Hne es.
  destruct (select_window_spec _ Hwf _ _ _ _ (Z.lt_le_incl _ _ Hwin) Hsel) as (Hacc & Hsum & Hpos).
  specialize (Hpos ltac:(apply map_Forall_empty)).
  assert (forall a, default 0 (m !! a) = account_work shares window a) as Hd
    by (intros a; rewrite Hacc, lookup_empty; simpl; lia).
  assert (forall a w, (a, w) ∈ es -> w = account_work shares window a /\ 0 < w) as Hm.
  { intros a w Ha%elem_of_btree_entries. specialize (Hd a). rewrite Ha in Hd.
    split; [done|]. by apply (Hpos a). }
  assert (Forall (fun w => 0 <= w) (snd <$> es)) as Hnn.
  { apply Forall_fmap, Forall_forall. intros [a w] He. simpl. apply Hm in He. lia. }
  split; [done|]. split; [|split; [done|split]].
  - intros a. rewrite list_elem_of_fmap. split.
    + intros Hp. rewrite <- Hd in Hp. destruct (m !! a) as [w|] eqn:Ha; [|simpl in Hp; lia].
      exists (a, w). split; [done|]. by apply elem_of_btree_entries.
    + intros ([b w] & -> & He). simpl. apply Hm in He. lia.
  - unfold es. rewrite btree_entries_sum, Hsum. unfold msum. by rewrite map_to_list_empty.
  - destruct (map_choose m Hne) as (a & w & Ha%elem_of_btree_entries). pose proof (Hm a w Ha).
    pose proof (sumZ_elem_le _ w Hnn (list_elem_of_fmap_2 snd es (a, w) Ha)). lia.
Qed.

Lemma zip_with_account_elem (es : list (Z * Z)) cs e :
  e ∈ zip_with (fun e amount => mkAccountAllocation (fst e) (snd e) amount) es cs ->
  exists i w c, e = mkAccountAllocation (fst w) (snd w) c /\ es !! i = Some w /\ cs !! i = Some c.
Proof.
  intros (i & Hi)%list_elem_of_lookup_1. apply lookup_zip_with_Some in Hi as (w & c & -> & Hw & Hc).
  by exists i, w, c.
Qed.

Lemma apportioned_plan_ok shares window reward fee_bps m cs :
  shares_wf shares -> 0 < window -> select_window shares window ∅ ∅ = Ok m -> m <> ∅ ->
  let es := btree_entries m in
  let fee := reward * fee_bps / 10000 in
  apportionment (reward - fee) (sumZ (snd <$> es)) (snd <$> es)
    (pplns_order (fst <$> es) (remainders (reward - fee) (sumZ (snd <$> es)) (snd <$> es))) cs ->
  plan_ok shares window reward fee_bps (mkAllocationPlan (sumZ (snd <$> es)) fee
    (zip_with (fun e amount => mkAccountAllocation (fst e) (snd e) amount) es cs)).
Proof.
  intros Hwf Hwin Hsel Hne es fee (Hlen & Hcs & Hval & Hord).
  destruct (window_entries shares window m Hwf Hwin Hsel Hne) as (Hm & Hin & _ & HW & _).
  fold es in Hm, Hin, HW. rewrite length_fmap in Hlen.
  destruct (zip_with_accounts es cs Hlen) as (H1 & H2 & H3).
  assert (forall i w, es !! i = Some w -> (snd <$> es) !! i = Some (snd w)) as Hsnd
    by (intros i w Hi; by rewrite list_lookup_fmap, Hi).
  assert (forall i w, es !! i = Some w -> snd w = account_work shares window (fst w)) as Hwork.
  { intros i [a x] Hi. apply (Hm a x). by eapply list_elem_of_lookup_2. }
  unfold plan_ok, miner_total_zat; cbn [pool_fee_zat selected_work ap_accounts].
  rewrite H1, H2, H3. split_and!; [done|rewrite Hcs; lia|done|done|apply btree_entries_sorted|done| |].
  - intros e (i & w & c & -> & Hw & Hc)%zip_with_account_elem. simpl.
    rewrite <- (Hwork i w Hw). split; [done|]. exact (Hval i (snd w) c (Hsnd i w Hw) Hc).
  - intros e f (i & w & c & -> & Hw & Hc)%zip_with_account_elem
      (j & v & d & -> & Hv & Hd)%zip_with_account_elem. simpl.
    rewrite <- (Hwork i w Hw), <- (Hwork j v Hv). intros Hup Hdown.
    pose proof (Hord i j _ _ _ _ (Hsnd i w Hw) Hc (Hsnd j v Hv) Hd Hup Hdown) as Hle.
    unfold pplns_order in Hle. rewrite cmp_then_Z, cmp_le_Z in Hle.
    rewrite (rems_lookup _ _ _ i _ (Hsnd i w Hw)), (rems_lookup _ _ _ j _ (Hsnd j v Hv)) in Hle.
    rewrite (list_lookup_total_correct (fst <$> es) i (fst w)) in Hle by (by rewrite list_lookup_fmap, Hw).
    rewrite (list_lookup_total_correct (fst <$> es) j (fst v)) in Hle by (by rewrite list_lookup_fmap, Hv).
    lia.
Qed.

Lemma allocate_after_window shares window reward fee_bps m :
  shares_wf shares -> 0 < window -> 0 < reward <= MAX_CHAIN_VALUE_ZAT ->
  0 <= fee_bps <= MAX_POOL_FEE_BPS ->
  select_window shares window ∅ ∅ = Ok m -> m <> ∅ ->
  exists plan, allocate_pplns shares window reward fee_bps = Ok plan /\
    plan_ok shares window reward fee_bps plan.
Proof.
  intros Hwf Hwin Hrew Hfee Hsel Hne. unfold MAX_CHAIN_VALUE_ZAT, MAX_POOL_FEE_BPS in *.
  assert (0 <= reward * fee_bps / 10000 <= reward) as Hf
    by (split; [apply Z.div_pos|apply Z.div_le_upper_bound]; nia).
  destruct (window_entries shares window m Hwf Hwin Hsel Hne) as (_ & _ & Hnn & _ & HWpos).
  set (es := btree_entries m) in *.
  destruct (largest_remainder_apportions ArithmeticOverflow ArithmeticOverflow
    (reward - reward * fee_bps / 10000) _ (snd <$> es)
    (pplns_order (fst <$> es)) ltac:(widths; lia) HWpos eq_refl Hnn
    (pplns_order_total _ _) (pplns_order_trans _ _) (pplns_order_rem _ _)) as (cs & Hlr & Happ).
  pose proof (apportioned_plan_ok shares window reward fee_bps m cs Hwf Hwin Hsel Hne Happ) as Hplan.
  eexists. split; [|exact Hplan]. pose proof Hplan as (_ & Htot & _). cbn [pool_fee_zat] in Htot. fold es in Htot.
  unfold allocate_pplns, MAX_CHAIN_VALUE_ZAT, MAX_POOL_FEE_BPS.
  rewrite (proj2 (Z.eqb_neq _ _)), (proj2 (Z.eqb_neq reward 0)) by lia.
  rewrite !(proj2 (Z.ltb_ge _ _)) by lia. cbn [orb]. rewrite Hsel, bool_decide_eq_false_2 by done.
  unfold checked_mul, checked_sub, ok_or.
  rewrite (proj2 (Z.leb_le (reward * fee_bps) _)) by (widths; nia).
  rewrite (proj2 (Z.leb_le _ _)) by (unfold PPLNS_BASIS_POINTS; lia).
  unfold PPLNS_BASIS_POINTS. fold es. rewrite Hlr. cbn [pool_fee_zat].
  rewrite bool_decide_eq_true_2; [done|]. unfold checked_add. rewrite Htot.
  by rewrite (proj2 (Z.leb_le _ _)) by (widths; lia).
Qed.

(** Why a window can be refused. *)
Definition window_error (shares : list WeightedShare) (seen : gset (list Z)) (e : PplnsError) : Prop :=
  (e = NilAccount /\ exists s, s ∈ shares /\ ws_account_id s = 0) \/
  (e = ZeroShareId /\ exists s, s ∈ shares /\ ws_share_id s = replicate 32 0) \/
  (e = DuplicateShare /\
     (~ NoDup (ws_share_id <$> shares) \/ exists s, s ∈ shares /\ ws_share_id s ∈ seen)) \/
  (e = ZeroWork /\ exists s, s ∈ shares /\ ws_work s = 0).

Lemma window_error_cons s shares seen e :
  window_error shares ({[ws_share_id s]} ∪ seen) e -> window_error (s :: shares) seen e.
Proof.
  intros [(-> & t & Ht & H)|[(-> & t & Ht & H)|[(-> & H)|(-> & t & Ht & H)]]].
  - left. split; [done|]. exists t. split; [by right|done].
  - right; left. split; [done|]. exists t. split; [by right|done].
  - right; right; left. split; [done|]. rewrite fmap_cons, NoDup_cons. destruct H as [H|(t & Ht & H)].
    + left. by intros [_ ?].
    + apply elem_of_union in H as [H%elem_of_singleton|H].
      * left. intros [Hs _]. apply Hs. rewrite <- H. by apply list_elem_of_fmap_2.
      * right. exists t. split; [by right|done].
  - do 3 right. split; [done|]. exists t. split; [by right|done].
Qed.

Lemma select_window_err shares rem m seen e :
  select_window shares rem m seen = Err e -> window_error shares seen e.
Proof.
  revert rem m seen. induction shares as [|s shares IH]; intros rem m seen; [done|].
  cbn [select_window]. unfold Uuid_is_nil. destruct (Z.eqb_spec (ws_account_id s) 0).
  { intros [= <-]. left. split; [done|]. exists s. split; [left|done]. }
  case_bool_decide.
  { intros [= <-]. right; left. split; [done|]. exists s. split; [left|done]. }
  case_bool_decide.
  { intros [= <-]. right; right; left. split; [done|]. right. exists s. split; [left|done]. }
  destruct (Z.eqb_spec (ws_work s) 0).
  { intros [= <-]. do 3 right. split; [done|]. exists s. split; [left|done]. }
  destruct (rem =? 0); [done|]. intros Hrest%IH. by apply window_error_cons.
Qed.

(** C8. A valid PPLNS window is always allocated, and every zatoshi of the reward is accounted
    for.  For a positive window, a reward and a fee within their limits and a non-empty
    sequence of distinct, attributed, non-zero shares, [allocate_pplns] returns a plan in which
    the fee is the floor of the disclosed rate and fee plus miner amounts is exactly the
    reward.  The newest shares are selected up to the window, the oldest one only in part; the
    accounts listed are exactly those with selected work, in strictly ascending identifier
    order.  Each account gets its exact proportional amount rounded down or up, rounded up only
    when it is inexact, and the accounts rounded up are those with the largest remainders, ties
    going to the smaller identifier. *)
Theorem pplns_allocates_whole_reward (s : WeightedShare) (shares : list WeightedShare)
    (window reward fee_bps : Z)
    (Hvalid : Forall share_valid (s :: shares)) (Hnd : NoDup (ws_share_id <$> s :: shares))
    (Hwindow : 0 < window) (Hreward : 0 < reward <= MAX_CHAIN_VALUE_ZAT)
    (Hfee : 0 <= fee_bps <= MAX_POOL_FEE_BPS) :
  exists plan, allocate_pplns (s :: shares) window reward fee_bps = Ok plan /\
    plan_ok (s :: shares) window reward fee_bps plan.
Proof.
  assert (shares_wf (s :: shares)) as Hwf
    by (eapply Forall_impl; [exact Hvalid|]; intros t (_ & _ & Ht); lia).
  destruct (select_window_valid _ Hvalid Hnd window ∅ ∅ ltac:(set_solver)) as [m Hm].
  apply Forall_cons in Hvalid as [(_ & _ & Hw) _].
  eapply allocate_after_window; try done. by eapply select_window_nonempty.
Qed.

(** A refused allocation always names a fault of its input.  [allocate_pplns] fails only for
    an empty window, a reward or fee outside its limits, an empty share list, or a share that
    has no account, no identifier or no work or that repeats an identifier, and the error says
    which.  Its arithmetic-overflow and conservation-failure errors are unreachable. *)
Theorem pplns_errors_blame_input (shares : list WeightedShare) (window reward fee_bps : Z)
    (e : PplnsError)
    (Hwf : shares_wf shares) (Hwindow : 0 <= window) (Hreward : 0 <= reward <= U64_MAX)
    (Hfee : 0 <= fee_bps <= U16_MAX)
    (He : allocate_pplns shares window reward fee_bps = Err e) :
  (e = ZeroWindow /\ window = 0) \/
  (e = InvalidReward reward /\ (reward = 0 \/ MAX_CHAIN_VALUE_ZAT < reward)) \/
  (e = FeeTooHigh fee_bps /\ MAX_POOL_FEE_BPS < fee_bps) \/
  (e = NoEligibleWork /\ shares = []) \/
  window_error shares ∅ e.
Proof.
  pose proof He as Herr. unfold allocate_pplns in He.
  destruct (Z.eqb_spec window 0); [left; by simplify_eq|].
  destruct (Z.eqb_spec reward 0); [right; left; simpl in He; simplify_eq; by auto|].
  destruct (Z.ltb_spec MAX_CHAIN_VALUE_ZAT reward); [right; left; simpl in He; simplify_eq; by auto|].
  cbn [orb] in He.
  destruct (Z.ltb_spec MAX_POOL_FEE_BPS fee_bps); [do 2 right; left; by simplify_eq|].
  destruct (select_window shares window ∅ ∅) as [m|e'] eqn:Hsel.
  - case_bool_decide as Hm.
    + do 3 right; left. simplify_eq. split; [done|]. destruct shares as [|s shares]; [done|exfalso].
      eapply (select_window_nonempty s shares window ∅); [done|lia| |exact Hsel|done].
      apply Forall_cons in Hwf as [Hs _]. cbn [select_window] in Hsel.
      destruct (Uuid_is_nil _); [done|]. do 2 (case_bool_decide; [done|]).
      destruct (Z.eqb_spec (ws_work s) 0); [done|]. lia.
    + destruct (allocate_after_window shares window reward fee_bps m) as (plan & Hok & _);
        [done|lia|lia|lia|done|done|]. congruence.
  - do 4 right. simplify_eq. by eapply select_window_err.
Qed.

(** Share work is the exact floor of [2^256 / (target + 1)] of the little-endian target: it
    is at least one, it is zero-target that is refused, and an easier target never weighs more
    than a harder one. *)
Theorem target_work_exact (t u : TargetLe) (Ht : tle_wf t) (Hu : tle_wf u) :
  (target_work t = Err ZeroTarget <-> le_val (tle_bytes t) = 0) /\
  (forall w, target_work t = Ok w ->
     1 <= w /\ w * (le_val (tle_bytes t) + 1) <= 2 ^ 256 < (w + 1) * (le_val (tle_bytes t) + 1)) /\
  (forall w v, target_work t = Ok w -> target_work u = Ok v ->
     le_val (tle_bytes t) <= le_val (tle_bytes u) -> v <= w).
Proof.
  assert (forall x, tle_wf x -> 0 <= le_val (tle_bytes x) < 2 ^ 256) as Hb.
  { intros x [Hl Hx]. rewrite <- be_val_reverse.
    pose proof (be_val_bound (reverse (tle_bytes x)) (proj2 (Forall_reverse _ _) Hx)) as H.
    rewrite length_reverse, Hl in H. exact H. }
  pose proof (Hb t Ht) as Bt. pose proof (Hb u Hu) as Bu. clear Hb. revert Bt Bu.
  unfold target_work. change (Z.shiftl 1 256) with (2 ^ 256).
  generalize (le_val (tle_bytes t)) (le_val (tle_bytes u)) (2 ^ 256). intros a b N Ba Bb.
  destruct (Z.eqb_spec a 0), (Z.eqb_spec b 0); split_and!; try done; try lia.
  - intros w [= <-]. pose proof (Z.div_mod N (a + 1)). pose proof (Z.mod_pos_bound N (a + 1)).
    assert (1 <= N / (a + 1)) by (apply Z.div_le_lower_bound; lia). nia.
  - intros w [= <-]. pose proof (Z.div_mod N (a + 1)). pose proof (Z.mod_pos_bound N (a + 1)).
    assert (1 <= N / (a + 1)) by (apply Z.div_le_lower_bound; lia). nia.
  - intros w v [= <-] [= <-] Hle. apply Z.div_le_compat_l; lia.
Qed.

(** ** Concrete runs *)

Lemma pplns_allocates_whole_reward_witness :
  exists plan, allocate_pplns [share_of 1 1 70; share_of 2 2 70; share_of 3 3 70] 100 1001 100 = Ok plan /\
    miner_total_zat plan + pool_fee_zat plan = 1001.
Proof.
  destruct (pplns_allocates_whole_reward (share_of 1 1 70) [share_of 2 2 70; share_of 3 3 70]
    100 1001 100) as (plan & Hok & _ & Htot & _).
  - repeat constructor; simpl; try lia; congruence.
  - apply (bool_decide_unpack _). vm_compute. exact I.
  - lia.
  - unfold MAX_CHAIN_VALUE_ZAT. lia.
  - unfold MAX_POOL_FEE_BPS. lia.
  - exists plan. split; [exact Hok|exact Htot].
Defined.

Lemma pplns_errors_blame_input_witness :
  allocate_pplns [share_of 1 1 1; share_of 1 1 1] 2 1 0 = Err DuplicateShare /\
  window_error [share_of 1 1 1; share_of 1 1 1] ∅ DuplicateShare.
Proof.
  split; [vm_compute; reflexivity|].
  destruct (pplns_errors_blame_input [share_of 1 1 1; share_of 1 1 1] 2 1 0 DuplicateShare)
    as [[H _]|[[H _]|[[H _]|[[H _]|H]]]]; try discriminate; try exact H; try (widths; lia).
  - repeat constructor; simpl; lia.
  - vm_compute; reflexivity.
Defined.

Lemma target_work_exact_witness :
  target_work (TargetLe_new (replicate 32 255)) = Ok 1 /\
  target_work (TargetLe_new (replicate 31 255 ++ [127])) = Ok 2 /\ 1 <= 2.
Proof.
  assert (tle_wf (TargetLe_new (replicate 31 255 ++ [127]))) as H1
    by (split; [reflexivity|]; repeat constructor; unfold is_byte; lia).
  assert (tle_wf (TargetLe_new (replicate 32 255))) as H2
    by (split; [reflexivity|]; repeat constructor; unfold is_byte; lia).
  split; [vm_compute; reflexivity|]. split; [vm_compute; reflexivity|].
  destruct (target_work_exact _ _ H1 H2) as (_ & _ & H).
  apply (H 2 1); [vm_compute; reflexivity|vm_compute; reflexivity|vm_compute; congruence].
Defined.
