(* ===== verification/RateLimit.v ===== *)
(** Per-connection request budgets (crates/wcash-pool-edge/src/rate_limit.rs). *)

From Stdlib Require Import ZArith Lia.
From stdpp Require Import prelude gmap sorting strings.
From S2P Require Import Prelude.
Open Scope Z_scope.

(** ** Data *)

Inductive RateLimitError : Type :=
| InvalidMaximum (n : Z)
| InvalidWindow
| InvalidConnectionCapacity (n : Z)
| Exceeded
| RateClockMovedBackwards
| CounterOverflow
| ConnectionCapacityExceeded.

Record RateLimit : Type := mkRateLimit { maximum_requests : Z; window_ms : Z }.

Record RequestRateLimiter : Type := mkRequestRateLimiter {
  rl_policy : RateLimit;
  rl_window_start_ms : Z;
  rl_used : Z;
  rl_last_now_ms : Z
}.

(** ** Operations *)

(** [std::time::Duration] is a number of nanoseconds. *)
Definition MAXIMUM_RATE_WINDOW : Z := 300 * 1000000000.
Definition MAXIMUM_BURST : Z := 65535.

Definition RateLimit_new (maximum window_ns : Z) : result RateLimit RateLimitError :=
  if (maximum =? 0) || (MAXIMUM_BURST <? maximum) then Err (InvalidMaximum maximum)
  else if (window_ns =? 0) || (MAXIMUM_RATE_WINDOW <? window_ns) then Err InvalidWindow
  else
    let millis := window_ns / 1000000 in
    if U64_MAX <? millis then Err InvalidWindow
    else if millis =? 0 then Err InvalidWindow
    else Ok (mkRateLimit maximum millis).

Definition RequestRateLimiter_new (policy : RateLimit) (now_ms : Z) : RequestRateLimiter :=
  mkRequestRateLimiter policy now_ms 0 now_ms.

Definition rl_set_last (t : Z) (r : RequestRateLimiter) : RequestRateLimiter :=
  mkRequestRateLimiter (rl_policy r) (rl_window_start_ms r) (rl_used r) t.
Definition rl_restart (t : Z) (r : RequestRateLimiter) : RequestRateLimiter :=
  mkRequestRateLimiter (rl_policy r) t 0 (rl_last_now_ms r).
Definition rl_set_used (n : Z) (r : RequestRateLimiter) : RequestRateLimiter :=
  mkRequestRateLimiter (rl_policy r) (rl_window_start_ms r) n (rl_last_now_ms r).

Definition admit_request (now_ms : Z) : M RequestRateLimiter RateLimitError unit :=
  let* self := st_get in
  if now_ms <? rl_last_now_ms self then st_throw RateClockMovedBackwards else
  do* st_modify (rl_set_last now_ms) in
  let* elapsed := st_lift (ok_or (checked_sub now_ms (rl_window_start_ms self))
                             RateClockMovedBackwards) in
  do* (if window_ms (rl_policy self) <=? elapsed then st_modify (rl_restart now_ms)
       else st_ret tt) in
  let* self' := st_get in
  if rl_used self' =? maximum_requests (rl_policy self') then st_throw Exceeded else
  let* used := st_lift (ok_or (checked_add U32_MAX (rl_used self') 1) CounterOverflow) in
  st_modify (rl_set_used used).

(** ** Histories *)

(** Run [admit_request] over the clock readings of successive requests; each admitted request is logged
    with the window it was counted in. *)
Definition admit_step (st : RequestRateLimiter * list (Z * Z)) (now : Z)
    : RequestRateLimiter * list (Z * Z) :=
  let (r, log) := st in
  match admit_request now r with
  | (r', Ok _) => (r', (rl_window_start_ms r', now) :: log)
  | (r', Err _) => (r', log)
  end.

Definition admit_history (policy : RateLimit) (start : Z) (clock : list Z)
    : RequestRateLimiter * list (Z * Z) :=
  foldl admit_step (RequestRateLimiter_new policy start, []) clock.

(** ** Invariant *)

Definition policy_wf (p : RateLimit) : Prop :=
  1 <= maximum_requests p <= MAXIMUM_BURST /\ 1 <= window_ms p <= 300000.

Definition in_window (w : Z) (log : list (Z * Z)) : list (Z * Z) := filter (fun e => fst e = w) log.

Definition limiter_inv (p : RateLimit) (st : RequestRateLimiter * list (Z * Z)) : Prop :=
  let (r, log) := st in
  rl_policy r = p /\ rl_window_start_ms r <= rl_last_now_ms r /\
  0 <= rl_used r <= maximum_requests p /\
  Z.of_nat (length (in_window (rl_window_start_ms r) log)) = rl_used r /\
  (forall w, Z.of_nat (length (in_window w log)) <= maximum_requests p) /\
  (forall e, e ∈ log -> fst e <= snd e < fst e + window_ms p /\ snd e <= rl_last_now_ms r /\
     (fst e = rl_window_start_ms r \/ fst e + window_ms p <= rl_window_start_ms r)) /\
  (forall e f, e ∈ log -> f ∈ log ->
     fst e = fst f \/ fst e + window_ms p <= fst f \/ fst f + window_ms p <= fst e).

Lemma RateLimit_new_Ok maximum window p :
  0 <= maximum <= U32_MAX -> 0 <= window -> RateLimit_new maximum window = Ok p -> policy_wf p.
Proof.
  intros Hm Hw H. unfold RateLimit_new, MAXIMUM_BURST, MAXIMUM_RATE_WINDOW in H.
  destruct (_ || _)%bool eqn:H1; [done|]. destruct (_ || _)%bool eqn:H2 in H; [done|].
  destruct (U64_MAX <? _) eqn:H3; [done|]. destruct (_ =? 0) eqn:H4 in H; [done|].
  injection H as <-. boolprop. unfold policy_wf, MAXIMUM_BURST; simpl.
  assert (window / 1000000 <= 300000) by (apply Z.div_le_upper_bound; lia).
  assert (0 <= window / 1000000) by (apply Z.div_pos; lia). lia.
Qed.

(** The state [admit_request] counts the request in: the current window, or a fresh one. *)
Definition counted (now : Z) (r : RequestRateLimiter) : RequestRateLimiter :=
  if window_ms (rl_policy r) <=? now - rl_window_start_ms r
  then rl_restart now (rl_set_last now r) else rl_set_last now r.

Lemma admit_cases p r log now :
  policy_wf p -> limiter_inv p (r, log) ->
  admit_request now r =
    if now <? rl_last_now_ms r then (r, Err RateClockMovedBackwards)
    else if rl_used (counted now r) =? maximum_requests p then (counted now r, Err Exceeded)
    else (rl_set_used (rl_used (counted now r) + 1) (counted now r), Ok tt).
Proof.
  intros [Hp _] (Hpol & Hle & Hu & _). unfold admit_request, st_bind, st_get, st_throw, st_modify, st_lift, st_ret.
  destruct (Z.ltb_spec now (rl_last_now_ms r)) as [|Hnow]; [done|].
  unfold checked_sub, checked_add. rewrite (proj2 (Z.leb_le _ _)) by lia. cbn [ok_or].
  unfold counted, MAXIMUM_BURST in *.
  destruct (window_ms (rl_policy r) <=? now - rl_window_start_ms r);
    cbn [rl_used rl_policy rl_restart rl_set_last]; rewrite Hpol.
  - by destruct (0 =? maximum_requests p).
  - destruct (rl_used r =? maximum_requests p); [done|].
    by rewrite (proj2 (Z.leb_le _ _)) by (widths; lia).
Qed.

Lemma counted_inv p r log now :
  policy_wf p -> limiter_inv p (r, log) -> rl_last_now_ms r <= now ->
  limiter_inv p (counted now r, log) /\ rl_last_now_ms (counted now r) = now /\
  rl_window_start_ms (counted now r) <= now < rl_window_start_ms (counted now r) + window_ms p.
Proof.
  intros [Hmax Hwin] (Hpol & Hle & Hu & Hcnt & Hall & Hlog & Hsep) Hnow.
  unfold counted. rewrite Hpol.
  destruct (Z.leb_spec (window_ms p) (now - rl_window_start_ms r)) as [Hnew|Hold]; simpl.
  - split; [|split; [done|lia]]. split_and!; simpl; try done; try lia.
    + replace (in_window now log) with (@nil (Z * Z)); [done|]. symmetry.
      apply filter_none. intros e He Hw. destruct (Hlog e He) as (_ & _ & [|]); lia.
    + intros e He. destruct (Hlog e He) as (H1 & H2 & H3). split; [done|]. split; [lia|].
      right. destruct H3; lia.
  - split; [|split; [done|lia]]. split_and!; simpl; try done; try lia.
    intros e He. destruct (Hlog e He) as (H1 & H2 & H3). split_and!; (done || lia).
Qed.

Lemma admit_step_inv p st now :
  policy_wf p -> limiter_inv p st -> limiter_inv p (admit_step st now).
Proof.
  destruct st as [r log]. intros Hp Hinv. cbn [admit_step]. rewrite (admit_cases p r log now Hp Hinv).
  destruct (Z.ltb_spec now (rl_last_now_ms r)) as [|Hnow]; [done|].
  destruct (counted_inv p r log now Hp Hinv Hnow) as (Hinv' & Hlast & Hin).
  destruct (Z.eqb_spec (rl_used (counted now r)) (maximum_requests p)) as [|Hne]; [done|].
  destruct Hinv' as (Hpol & Hle & Hu & Hcnt & Hall & Hlog & Hsep).
  set (c := counted now r) in *.
  cbn [limiter_inv]; split_and!;
    cbn [rl_set_used rl_policy rl_window_start_ms rl_used rl_last_now_ms];
    [done|lia|lia|lia| | | |].
  - unfold in_window in *. rewrite filter_cons_True by done. cbn [length]. lia.
  - intros w. specialize (Hall w). unfold in_window in *. rewrite filter_cons. cbn [fst].
    case_decide as Hw; [|done]. cbn [length]. subst w. lia.
  - intros e [->|He]%elem_of_cons; simpl; [split; [lia|split; [lia|by left]]|by apply Hlog].
  - assert (forall e, e ∈ log -> fst e = rl_window_start_ms c \/ fst e + window_ms p <= rl_window_start_ms c)
      as Hcur by (intros e He; by apply Hlog).
    intros e f [->|He]%elem_of_cons [->|Hf]%elem_of_cons; simpl;
      [by left|destruct (Hcur f Hf); auto|destruct (Hcur e He); auto|by apply Hsep].
Qed.

Lemma admit_history_inv p start clock :
  policy_wf p -> limiter_inv p (admit_history p start clock).
Proof.
  intros Hp. unfold admit_history.
  assert (limiter_inv p (RequestRateLimiter_new p start, [])) as Hinit.
  { destruct Hp as [Hm _]. split_and!; simpl; try done; try lia.
    - intros e He. by apply not_elem_of_nil in He.
    - intros e f He. by apply not_elem_of_nil in He. }
  revert Hinit. generalize (RequestRateLimiter_new p start, @nil (Z * Z)) as st.
  induction clock as [|now clock IH]; intros st Hst; [done|]. by apply IH, admit_step_inv.
Qed.

(** Requests of one interval that were counted in one window are within the budget. *)
Lemma same_window_budget p (P : Z * Z -> Prop) `{!forall e, Decision (P e)} r log :
  limiter_inv p (r, log) -> 0 <= maximum_requests p ->
  (forall e f, e ∈ log -> f ∈ log -> P e -> P f -> fst e = fst f) ->
  Z.of_nat (length (filter P log)) <= maximum_requests p.
Proof.
  intros (_ & _ & _ & _ & Hall & _) Hm Hsame. destruct (filter P log) as [|e l] eqn:El; [simpl; lia|].
  assert (e ∈ filter P log) as [HPe He]%list_elem_of_filter by (rewrite El; left).
  etransitivity; [|apply (Hall (fst e))]. unfold in_window. apply Nat2Z.inj_le. rewrite <- El.
  apply length_filter_le. intros f Hf HPf. by apply Hsame.
Qed.

(** ** Properties *)

(** A connection never gets more than twice its budget through in any window-long interval.
    Whatever the clock readings of the requests, each fixed window admits at most the configured
    maximum, and any half-open interval as long as the window contains at most twice the maximum
    of admitted requests. *)
Theorem admitted_requests_bounded (maximum window start t : Z) (policy : RateLimit)
    (clock : list Z)
    (Hm : 0 <= maximum <= U32_MAX) (Hw : 0 <= window)
    (Hnew : RateLimit_new maximum window = Ok policy) :
  let log := snd (admit_history policy start clock) in
  (forall w, Z.of_nat (length (filter (fun e => fst e = w) log)) <= maximum_requests policy) /\
  Z.of_nat (length (filter (fun e => t <= snd e < t + window_ms policy) log))
    <= 2 * maximum_requests policy.
Proof.
  pose proof (RateLimit_new_Ok _ _ _ Hm Hw Hnew) as Hp.
  pose proof (admit_history_inv policy start clock Hp) as Hinv.
  destruct (admit_history policy start clock) as [r log]. simpl. split.
  - intros w. destruct Hinv as (_ & _ & _ & _ & Hall & _). apply Hall.
  - rewrite (length_filter_split _ (fun e => fst e <= t)), Nat2Z.inj_add.
    assert (0 <= maximum_requests policy) as H0 by (destruct Hp; lia).
    pose proof Hinv as (_ & _ & _ & _ & _ & Hlog & Hsep).
    pose proof (same_window_budget policy
      (fun e => t <= snd e < t + window_ms policy /\ fst e <= t) r log Hinv H0) as B1.
    pose proof (same_window_budget policy
      (fun e => t <= snd e < t + window_ms policy /\ ~ fst e <= t) r log Hinv H0) as B2.
    cut (forall e f, e ∈ log -> f ∈ log -> t <= snd e < t + window_ms policy ->
           t <= snd f < t + window_ms policy -> (fst e <= t <-> fst f <= t) -> fst e = fst f).
    { intros Hsame. assert (forall a b : Z, a <= maximum_requests policy ->
        b <= maximum_requests policy -> a + b <= 2 * maximum_requests policy) as Hadd by lia.
      apply Hadd; [apply B1|apply B2]; intros e f He Hf [Ie Se] [If Sf]; apply Hsame; tauto. }
    intros e f He Hf Ie If Hiff. destruct (Hlog e He) as (He1 & _), (Hlog f Hf) as (Hf1 & _).
    destruct (Hsep e f He Hf) as [|[|]]; lia.
Qed.

(** Admission is exact and needs only the clock to move.  With a monotone clock, [admit_request]
    refuses a request exactly when the current window has used up its budget and has not yet
    elapsed; a request after the window has elapsed is always admitted and opens a new window.
    A regressed clock is refused without any change, and the counter never overflows. *)
Theorem admit_exact (maximum window start now : Z) (policy : RateLimit) (clock : list Z)
    (Hm : 0 <= maximum <= U32_MAX) (Hw : 0 <= window)
    (Hnew : RateLimit_new maximum window = Ok policy) :
  let r := fst (admit_history policy start clock) in
  let elapsed := window_ms policy <= now - rl_window_start_ms r in
  (now < rl_last_now_ms r -> admit_request now r = (r, Err RateClockMovedBackwards)) /\
  (rl_last_now_ms r <= now ->
     (snd (admit_request now r) = Err Exceeded <->
        rl_used r = maximum_requests policy /\ ~ elapsed) /\
     (snd (admit_request now r) = Ok tt \/ snd (admit_request now r) = Err Exceeded) /\
     (elapsed -> admit_request now r = (mkRequestRateLimiter policy now 1 now, Ok tt))).
Proof.
  pose proof (RateLimit_new_Ok _ _ _ Hm Hw Hnew) as Hp.
  pose proof (admit_history_inv policy start clock Hp) as Hinv.
  destruct (admit_history policy start clock) as [r log]. simpl. pose proof Hinv as (Hpol & _).
  rewrite (admit_cases policy r log now Hp Hinv). split.
  - intros Hlt. by rewrite (proj2 (Z.ltb_lt _ _)).
  - intros Hge. rewrite (proj2 (Z.ltb_ge _ _)) by lia. unfold counted. rewrite Hpol.
    destruct Hp as [Hmax _].
    destruct (Z.leb_spec (window_ms policy) (now - rl_window_start_ms r)) as [He|He];
      cbn [rl_used rl_restart rl_set_last rl_policy rl_window_start_ms rl_last_now_ms].
    + rewrite (proj2 (Z.eqb_neq 0 _)) by lia. cbn [snd].
      split_and!; [split; [done|tauto]|by left|].
      intros _. unfold rl_set_used, rl_restart, rl_set_last; simpl. by rewrite Hpol.
    + destruct (Z.eqb_spec (rl_used r) (maximum_requests policy)); cbn [snd];
        (split_and!; [|auto|lia]); split; intros; (done || tauto || lia).
Qed.

(** ** Concrete runs *)

Lemma admitted_requests_bounded_witness :
  exists p, RateLimit_new 2 1000000000 = Ok p /\
    snd (admit_history p 0 [10; 20; 30; 1000; 1001; 1002]) = [(1000, 1001); (1000, 1000); (0, 20); (0, 10)] /\
    Z.of_nat (length (filter (fun e => 10 <= snd e < 10 + window_ms p)
      (snd (admit_history p 0 [10; 20; 30; 1000; 1001; 1002])))) <= 2 * 2.
Proof.
  eexists. split; [reflexivity|]. split; [vm_compute; reflexivity|].
  exact (proj2 (admitted_requests_bounded 2 1000000000 0 10 _ [10; 20; 30; 1000; 1001; 1002]
    ltac:(widths; lia) ltac:(lia) eq_refl)).
Defined.

Lemma admit_exact_witness :
  exists p, RateLimit_new 2 1000000000 = Ok p /\
    snd (admit_request 30 (fst (admit_history p 0 [10; 20]))) = Err Exceeded.
Proof.
  eexists. split; [reflexivity|].
  destruct (admit_exact 2 1000000000 0 30 _ [10; 20] ltac:(widths; lia) ltac:(lia) eq_refl) as [_ H].
  destruct H as [[_ H] _]; [vm_compute; congruence|]. apply H. split; [reflexivity|].
  vm_compute. intros E. apply E. reflexivity.
Defined.
