(* ===== verification/Backend.v ===== *)
(** Messages of the local backend protocol and their validation
    (crates/wcash-pool-protocol/src/backend.rs): job descriptors, winners, share receipts,
    journal events, requests and responses.  SHA-256 (the sha2 crate) is a parameter. *)

From Stdlib Require Import ZArith Lia.
From stdpp Require Import prelude gmap sorting strings pretty.
From S2P Require Import Prelude Wire.
Open Scope Z_scope.

(** ** Constants *)

Definition BACKEND_PROTOCOL_VERSION : Z := 2.
Definition MAX_BACKEND_PAYLOAD_BYTES : Z := 64 * 1024.
Definition BACKEND_LENGTH_PREFIX_BYTES : nat := 4.
Definition MAX_EVENT_PAGE_ITEMS : Z := 1024.
Definition MAX_MATURITY_CONFIRMATIONS : Z := 1000000.
Definition EQUIHASH_SOLUTION_COMPACT_SIZE : list Z := [253; 64; 5].

(** The bytes of a [&str]. *)
Definition str_bytes (s : string) : list Z :=
  (fun a => Z.of_N (Ascii.N_of_ascii a)) <$> String.list_ascii_of_string s.

Definition SHARE_ID_DOMAIN : list Z := str_bytes "wcash-pool/share-id/v1".
Definition ATTRIBUTION_ID_DOMAIN : list Z := str_bytes "wcash-pool/attribution-id/v1".

(** [&bytes[a..b]]. *)
Definition slice (a b : nat) (l : list Z) : list Z := take (b - a) (drop a l).

(** ** Field checks *)

Definition check (ok : bool) (field reason : string) : result unit ProtocolError :=
  if ok then Ok tt else Err (invalid field reason).

Definition is_ascii_control (b : Z) : bool := (b <? 32) || (b =? 127).
Definition is_ascii_digit (b : Z) : bool := (48 <=? b) && (b <=? 57).
Definition is_ascii_alphanumeric (b : Z) : bool :=
  is_ascii_digit b || ((65 <=? b) && (b <=? 90)) || ((97 <=? b) && (b <=? 122)).

Definition validate_bounded_text (value : string) (minimum maximum : nat) (field : string)
    : result unit ProtocolError :=
  let len := length (str_bytes value) in
  if negb ((minimum <=? len)%nat && (len <=? maximum)%nat) then
    Err (invalid field ("must contain " +:+ pretty minimum +:+ "..=" +:+ pretty maximum +:+ " bytes"))
  else if existsb is_ascii_control (str_bytes value) then
    Err (invalid field "must not contain control bytes")
  else Ok tt.

Definition validate_worker_label (label : string) : result unit ProtocolError :=
  let? _ := validate_bounded_text label 1 128 "worker.label" in
  check (forallb (fun b => is_ascii_alphanumeric b ||
                           ((b =? 46) || (b =? 45) || (b =? 95) || (b =? 58))) (str_bytes label))
    "worker.label" "must use ASCII letters, digits, '.', '-', '_', or ':'".

Definition require_nonzero_hex {N} (value : FixedHex N) (field : string) : result unit ProtocolError :=
  check (negb (FixedHex_is_zero value)) field "must be nonzero".

Definition require_nonzero_target (value : TargetLe) (field : string) : result unit ProtocolError :=
  check (negb (TargetLe_is_zero value)) field "must be nonzero".

Definition require_non_nil_uuid (value : Uuid) (field : string) : result unit ProtocolError :=
  check (negb (Uuid_is_nil value)) field "must not be the nil UUID".

Definition require_nonzero_id (id : Z) : result unit ProtocolError :=
  check (negb (id =? 0)) "backend.id" "must be nonzero".

Definition validate_backend_header (version id : Z) : result unit ProtocolError :=
  if negb (version =? BACKEND_PROTOCOL_VERSION) then Err (invalid "backend.v" "must equal 2")
  else require_nonzero_id id.

Definition validate_reward (value : Z) (field : string) : result unit ProtocolError :=
  check (negb (MAX_CHAIN_VALUE_ZAT <? value)) field
    "must be no greater than 2100000000000000 zatoshi".

Definition validate_maturity (value : Z) (field : string) : result unit ProtocolError :=
  check ((1 <=? value) && (value <=? MAX_MATURITY_CONFIRMATIONS)) field "must be in 1..=1000000".

Definition validate_v4_header_input (header_input : Hex108) (version_field time_field : string)
    : result unit ProtocolError :=
  if bool_decide (slice 0 4 (as_bytes header_input) <> [4; 0; 0; 0]) then
    Err (invalid version_field "must be the exact little-endian version bytes 04000000")
  else if all_zero (slice 100 104 (as_bytes header_input)) then
    Err (invalid time_field "must be nonzero")
  else Ok tt.

(** ** Identities, jobs and winners *)

Record WorkerIdentity : Type := mkWorkerIdentity {
  wi_account_id : Uuid;
  wi_worker_id : Uuid;
  wi_label : string
}.

#[global] Instance WorkerIdentity_eq_dec : EqDecision WorkerIdentity.
Proof. solve_decision. Defined.

Definition WorkerIdentity_validate (self : WorkerIdentity) : result unit ProtocolError :=
  let? _ := require_non_nil_uuid (wi_account_id self) "worker.account_id" in
  let? _ := require_non_nil_uuid (wi_worker_id self) "worker.worker_id" in
  validate_worker_label (wi_label self).

Record JobDescriptor : Type := mkJobDescriptor {
  jd_job_id : Hex32;
  jd_wcash_candidate_hash_le : Hex32;
  jd_header_input : Hex108;
  jd_wcash_previous_hash_le : Hex32;
  jd_zcash_previous_hash_le : Hex32;
  jd_wcash_coinbase_txid_le : Hex32;
  jd_zcash_coinbase_txid_le : Hex32;
  jd_wcash_target_le : TargetLe;
  jd_zcash_target_le : TargetLe;
  jd_wcash_height : Z;
  jd_zcash_height : Z;
  jd_wcash_reward_zat : Z;
  jd_zcash_reward_zat : Z;
  jd_wcash_maturity_confirmations : Z;
  jd_zcash_maturity_confirmations : Z;
  jd_max_age_ms : Z
}.

#[global] Instance JobDescriptor_eq_dec : EqDecision JobDescriptor.
Proof. solve_decision. Defined.

Definition JobDescriptor_validate (self : JobDescriptor) : result unit ProtocolError :=
  let? _ := require_nonzero_hex (jd_job_id self) "job.job_id" in
  let? _ := require_nonzero_hex (jd_wcash_candidate_hash_le self) "job.wcash_candidate_hash_le" in
  let? _ := validate_v4_header_input (jd_header_input self)
              "job.header_input.version" "job.header_input.time" in
  let? _ := require_nonzero_hex (jd_wcash_previous_hash_le self) "job.wcash_previous_hash_le" in
  let? _ := require_nonzero_hex (jd_zcash_previous_hash_le self) "job.zcash_previous_hash_le" in
  let? _ := require_nonzero_hex (jd_wcash_coinbase_txid_le self) "job.wcash_coinbase_txid_le" in
  let? _ := require_nonzero_hex (jd_zcash_coinbase_txid_le self) "job.zcash_coinbase_txid_le" in
  let? _ := check (bool_decide (slice 4 36 (as_bytes (jd_header_input self)) =
                                as_bytes (jd_zcash_previous_hash_le self)))
              "job.zcash_previous_hash_le" "must match the predecessor bytes in header_input" in
  let? _ := require_nonzero_target (jd_wcash_target_le self) "job.wcash_target_le" in
  let? _ := require_nonzero_target (jd_zcash_target_le self) "job.zcash_target_le" in
  let? _ := check (negb (jd_wcash_height self =? 0)) "job.wcash_height" "must be positive" in
  let? _ := check (negb (jd_zcash_height self =? 0)) "job.zcash_height" "must be positive" in
  let? _ := validate_reward (jd_wcash_reward_zat self) "job.wcash_reward_zat" in
  let? _ := validate_reward (jd_zcash_reward_zat self) "job.zcash_reward_zat" in
  let? _ := validate_maturity (jd_wcash_maturity_confirmations self)
              "job.wcash_maturity_confirmations" in
  let? _ := validate_maturity (jd_zcash_maturity_confirmations self)
              "job.zcash_maturity_confirmations" in
  check ((1 <=? jd_max_age_ms self) && (jd_max_age_ms self <=? 600000))
    "job.max_age_ms" "must be in 1..=600000".

Record AcceptableJob : Type := mkAcceptableJob { aj_job : JobDescriptor; aj_accept_for_ms : Z }.

Definition AcceptableJob_validate (self : AcceptableJob) : result unit ProtocolError :=
  let? _ := JobDescriptor_validate (aj_job self) in
  check (negb ((aj_accept_for_ms self =? 0) || (jd_max_age_ms (aj_job self) <? aj_accept_for_ms self)))
    "acceptable_job.accept_for_ms"
    "must be positive and no greater than the job's maximum age".

Inductive JobInvalidationReason : Type := WcashTipChanged | ZcashTipChanged | Superseded | Age.

#[global] Instance JobInvalidationReason_eq_dec : EqDecision JobInvalidationReason.
Proof. solve_decision. Defined.

Inductive BackendErrorCode : Type :=
| InvalidRequest | StaleJob | LowDifficulty | InvalidEquihash | TargetOutOfRange
| AttributionConflict | Overloaded | BackendUnhealthy | RecoveryDeferred.

Inductive BackendCapability : Type :=
| JobStreamV1 | DurableShareReceiptsV1 | EventReplayV1 | DualTargetV1 | WinnerLifecycleV1
| WinnerSideChainV1.

#[global] Instance BackendCapability_eq_dec : EqDecision BackendCapability.
Proof. solve_decision. Defined.

Definition REQUIRED_BACKEND_CAPABILITIES : list BackendCapability :=
  [JobStreamV1; DurableShareReceiptsV1; EventReplayV1; DualTargetV1; WinnerLifecycleV1;
   WinnerSideChainV1].

(** [Ord] is derived: [Wcash < Zcash]. *)
Inductive MergedChain : Type := Wcash | Zcash.

#[global] Instance MergedChain_eq_dec : EqDecision MergedChain.
Proof. solve_decision. Defined.

Definition chain_rank (c : MergedChain) : Z := match c with Wcash => 0 | Zcash => 1 end.

Record WinnerDescriptor : Type := mkWinnerDescriptor {
  wd_chain : MergedChain;
  wd_block_hash_le : Hex32;
  wd_height : Z;
  wd_coinbase_txid_le : Hex32;
  wd_reward_zat : Z;
  wd_maturity_confirmations : Z
}.

#[global] Instance WinnerDescriptor_eq_dec : EqDecision WinnerDescriptor.
Proof. solve_decision. Defined.

Definition WinnerDescriptor_validate (self : WinnerDescriptor) : result unit ProtocolError :=
  let? _ := require_nonzero_hex (wd_block_hash_le self) "winner.block_hash_le" in
  let? _ := check (negb (wd_height self =? 0)) "winner.height" "must be positive" in
  let? _ := require_nonzero_hex (wd_coinbase_txid_le self) "winner.coinbase_txid_le" in
  let? _ := validate_reward (wd_reward_zat self) "winner.reward_zat" in
  validate_maturity (wd_maturity_confirmations self) "winner.maturity_confirmations".

Definition WinnerDescriptor_validate_for_job (self : WinnerDescriptor) (job : JobDescriptor)
    : result unit ProtocolError :=
  let? _ := JobDescriptor_validate job in
  let? _ := WinnerDescriptor_validate self in
  let '(height, reward, maturity, coinbase_txid) :=
    match wd_chain self with
    | Wcash => (jd_wcash_height job, jd_wcash_reward_zat job,
                jd_wcash_maturity_confirmations job, jd_wcash_coinbase_txid_le job)
    | Zcash => (jd_zcash_height job, jd_zcash_reward_zat job,
                jd_zcash_maturity_confirmations job, jd_zcash_coinbase_txid_le job)
    end in
  let? _ := check (negb (bool_decide (wd_chain self = Wcash) &&
                         bool_decide (wd_block_hash_le self <> jd_wcash_candidate_hash_le job)))
              "winner.block_hash_le"
              "must match the proof-independent Wcash candidate hash in its job" in
  let? _ := check (bool_decide (wd_coinbase_txid_le self = coinbase_txid)) "winner.coinbase_txid_le"
              "must match the winning chain coinbase transaction ID in its job" in
  let? _ := check (wd_height self =? height) "winner.height"
              "must match the winning chain height in its job" in
  let? _ := check (wd_reward_zat self =? reward) "winner.reward_zat"
              "must match the winning chain reward in its job" in
  check (wd_maturity_confirmations self =? maturity) "winner.maturity_confirmations"
    "must match the winning chain maturity in its job".

Record ChainTip : Type := mkChainTip { ct_block_hash_le : Hex32; ct_height : Z }.

#[global] Instance ChainTip_eq_dec : EqDecision ChainTip.
Proof. solve_decision. Defined.

Definition ChainTip_validate (self : ChainTip) : result unit ProtocolError :=
  require_nonzero_hex (ct_block_hash_le self) "winner_tip.block_hash_le".

Record ShareReceipt : Type := mkShareReceipt {
  sr_event_seq : Z;
  sr_job_id : Hex32;
  sr_share_id : Hex32;
  sr_attribution_id : Hex32;
  sr_parent_hash_le : Hex32;
  sr_winners : list WinnerDescriptor
}.

#[global] Instance ShareReceipt_eq_dec : EqDecision ShareReceipt.
Proof. solve_decision. Defined.

(** The winner loop of [ShareReceipt::validate]: [previous] is the last chain seen. *)
Fixpoint validate_receipt_winners (parent_hash_le : Hex32) (winners : list WinnerDescriptor)
    (previous : option MergedChain) : result unit ProtocolError :=
  match winners with
  | [] => Ok tt
  | winner :: rest =>
      let? _ := WinnerDescriptor_validate winner in
      let? _ := check (match previous with
                       | Some chain => negb (chain_rank (wd_chain winner) <=? chain_rank chain)
                       | None => true
                       end) "share_receipt.winners" "must be unique and ordered wcash before zcash" in
      let? _ := check (negb (bool_decide (wd_chain winner = Zcash) &&
                             bool_decide (wd_block_hash_le winner <> parent_hash_le)))
                  "share_receipt.winners"
                  "zcash winner hash must equal the validated parent header hash" in
      validate_receipt_winners parent_hash_le rest (Some (wd_chain winner))
  end.

Definition ShareReceipt_validate (self : ShareReceipt) : result unit ProtocolError :=
  let? _ := check (negb (sr_event_seq self =? 0)) "share_receipt.event_seq" "must be positive" in
  let? _ := require_nonzero_hex (sr_job_id self) "share_receipt.job_id" in
  let? _ := require_nonzero_hex (sr_share_id self) "share_receipt.share_id" in
  let? _ := require_nonzero_hex (sr_attribution_id self) "share_receipt.attribution_id" in
  let? _ := require_nonzero_hex (sr_parent_hash_le self) "share_receipt.parent_hash_le" in
  let? _ := check (negb (2 <? length (sr_winners self))%nat) "share_receipt.winners"
              "must contain at most one winner per merged chain" in
  validate_receipt_winners (sr_parent_hash_le self) (sr_winners self) None.

Fixpoint validate_all {A} (f : A -> result unit ProtocolError) (l : list A)
    : result unit ProtocolError :=
  match l with
  | [] => Ok tt
  | x :: rest => let? _ := f x in validate_all f rest
  end.

Definition ShareReceipt_validate_for_job (self : ShareReceipt) (job : JobDescriptor)
    : result unit ProtocolError :=
  let? _ := JobDescriptor_validate job in
  let? _ := ShareReceipt_validate self in
  let? _ := check (bool_decide (sr_job_id self = jd_job_id job)) "share_receipt.job_id"
              "must match the submitted backend generation" in
  validate_all (fun winner => WinnerDescriptor_validate_for_job winner job) (sr_winners self).

(** ** Winner events *)

Definition validate_winner_reference (share_id job_id : Hex32) (winner : WinnerDescriptor)
    : result unit ProtocolError :=
  let? _ := require_nonzero_hex share_id "winner_event.share_id" in
  let? _ := require_nonzero_hex job_id "winner_event.job_id" in
  WinnerDescriptor_validate winner.

Definition validate_winner_observation (share_id job_id : Hex32) (winner : WinnerDescriptor)
    (tip : ChainTip) (confirmations : Z) (matured : bool) : result unit ProtocolError :=
  let? _ := validate_winner_reference share_id job_id winner in
  let? _ := ChainTip_validate tip in
  let tip_is_winner := bool_decide (ct_block_hash_le tip = wd_block_hash_le winner) in
  let tip_is_at_winner_height := ct_height tip =? wd_height winner in
  let? _ := check (eqb tip_is_winner tip_is_at_winner_height) "winner_event.tip"
              "tip hash must equal the winner hash exactly at the winner height" in
  let? expected := ok_or (match checked_sub (ct_height tip) (wd_height winner) with
                          | Some depth => checked_add U32_MAX depth 1
                          | None => None
                          end)
                     (invalid "winner_event.confirmations"
                        "tip height must be at or above the winner height") in
  let? _ := check (confirmations =? expected) "winner_event.confirmations"
              "must equal tip height minus winner height plus one" in
  check (negb (matured && (confirmations <? wd_maturity_confirmations winner)))
    "winner_event.confirmations"
    "matured winner has not reached its immutable confirmation requirement".

Definition validate_zcash_winner_side_chain (share_id job_id : Hex32) (winner : WinnerDescriptor)
    (tip : ChainTip) : result unit ProtocolError :=
  let? _ := validate_winner_reference share_id job_id winner in
  let? _ := ChainTip_validate tip in
  let? _ := check (bool_decide (wd_chain winner = Zcash)) "winner_event.chain"
              "side-chain monitoring requires Zcash" in
  check (bool_decide (ct_block_hash_le tip <> wd_block_hash_le winner)) "winner_event.tip"
    "side-chain tip must not be the candidate block".

Definition validate_winner_orphan (share_id job_id : Hex32) (winner : WinnerDescriptor)
    (tip : ChainTip) : result unit ProtocolError :=
  let? _ := validate_winner_reference share_id job_id winner in
  let? _ := ChainTip_validate tip in
  check (bool_decide (ct_block_hash_le tip <> wd_block_hash_le winner)) "winner_event.tip"
    "orphan replacement tip must not be the winning block".

Definition validate_wcash_winner_transition (share_id job_id : Hex32) (winner : WinnerDescriptor)
    (tip : ChainTip) : result unit ProtocolError :=
  let? _ := validate_winner_reference share_id job_id winner in
  let? _ := check (bool_decide (wd_chain winner = Wcash)) "winner_event.winner.chain"
              "conflicting-witness quarantine is Wcash-only" in
  ChainTip_validate tip.

Definition validate_wcash_winner_quarantine (share_id job_id : Hex32) (winner : WinnerDescriptor)
    (tip : ChainTip) : result unit ProtocolError :=
  let? _ := validate_wcash_winner_transition share_id job_id winner tip in
  let tip_is_winner := bool_decide (ct_block_hash_le tip = wd_block_hash_le winner) in
  let tip_is_at_winner_height := ct_height tip =? wd_height winner in
  let? _ := check (negb (ct_height tip <? wd_height winner)) "winner_event.tip"
              "quarantine tip must be at or above the Wcash winner height" in
  check (negb (tip_is_winner && negb tip_is_at_winner_height)) "winner_event.tip"
    "the Wcash winner ID cannot appear at a different tip height".

Definition validate_wcash_winner_requeue (share_id job_id : Hex32) (winner : WinnerDescriptor)
    (tip : ChainTip) : result unit ProtocolError :=
  let? _ := validate_wcash_winner_transition share_id job_id winner tip in
  check (bool_decide (ct_block_hash_le tip <> wd_block_hash_le winner)) "winner_event.tip"
    "requeue tip must not be the quarantined Wcash winner".

Inductive BackendEvent : Type :=
| JobActivated (event_seq : Z) (job : JobDescriptor)
| JobInvalidated (event_seq : Z) (job_id : Hex32) (reason : JobInvalidationReason) (accept_for_ms : Z)
| GenerationClosed (event_seq : Z) (job_id : Hex32)
| ShareCommittedEvent (receipt : ShareReceipt) (job_id : Hex32) (identity : WorkerIdentity)
    (target_le : TargetLe)
| WinnerObserved (event_seq : Z) (share_id job_id : Hex32) (winner : WinnerDescriptor)
    (tip : ChainTip) (confirmations : Z)
| WinnerSideChain (event_seq : Z) (share_id job_id : Hex32) (winner : WinnerDescriptor)
    (tip : ChainTip)
| WinnerOrphaned (event_seq : Z) (share_id job_id : Hex32) (winner : WinnerDescriptor)
    (tip : ChainTip)
| WinnerQuarantined (event_seq : Z) (share_id job_id : Hex32) (winner : WinnerDescriptor)
    (tip : ChainTip)
| WinnerRequeued (event_seq : Z) (share_id job_id : Hex32) (winner : WinnerDescriptor)
    (tip : ChainTip)
| WinnerMatured (event_seq : Z) (share_id job_id : Hex32) (winner : WinnerDescriptor)
    (tip : ChainTip) (confirmations : Z).

#[global] Instance BackendEvent_eq_dec : EqDecision BackendEvent.
Proof. solve_decision. Defined.

Definition event_seq (self : BackendEvent) : Z :=
  match self with
  | JobActivated s _ | JobInvalidated s _ _ _ | GenerationClosed s _ | WinnerObserved s _ _ _ _ _
  | WinnerSideChain s _ _ _ _ | WinnerOrphaned s _ _ _ _ | WinnerQuarantined s _ _ _ _
  | WinnerRequeued s _ _ _ _ | WinnerMatured s _ _ _ _ _ => s
  | ShareCommittedEvent receipt _ _ _ => sr_event_seq receipt
  end.

Inductive BackendRequest : Type :=
| Hello (version id : Z) (pool_instance : Uuid) (last_event_seq : Z)
| SubscribeJobs (version id after_event_seq : Z)
| SubmitShareRequest (version id : Z) (job_id : Hex32) (identity : WorkerIdentity)
    (target_le : TargetLe) (time : Hex4) (nonce : Hex32) (solution : Hex1344)
| ReadEvents (version id after_event_seq limit : Z)
| Health (version id : Z).

#[global] Instance BackendRequest_eq_dec : EqDecision BackendRequest.
Proof. solve_decision. Defined.

Definition BackendRequest_id (self : BackendRequest) : Z :=
  match self with
  | Hello _ id _ _ | SubscribeJobs _ id _ | SubmitShareRequest _ id _ _ _ _ _ _
  | ReadEvents _ id _ _ | Health _ id => id
  end.

Definition BackendRequest_validate (self : BackendRequest) : result unit ProtocolError :=
  let '(version, id) :=
    match self with
    | Hello v id _ _ | SubscribeJobs v id _ | SubmitShareRequest v id _ _ _ _ _ _
    | ReadEvents v id _ _ | Health v id => (v, id)
    end in
  let? _ := validate_backend_header version id in
  match self with
  | Hello _ _ pool_instance _ => require_non_nil_uuid pool_instance "hello.pool_instance"
  | SubmitShareRequest _ _ job_id identity target_le time _ _ =>
      let? _ := require_nonzero_hex job_id "submit_share.job_id" in
      let? _ := WorkerIdentity_validate identity in
      let? _ := require_nonzero_target target_le "submit_share.target_le" in
      require_nonzero_hex time "submit_share.time"
  | ReadEvents _ _ _ limit =>
      check ((1 <=? limit) && (limit <=? MAX_EVENT_PAGE_ITEMS)) "read_events.limit"
        "must be in 1..=1024"
  | _ => Ok tt
  end.

Inductive BackendMessage : Type :=
| HelloOk (version id : Z) (backend_session backend_instance journal_stream : Uuid)
    (capabilities : list BackendCapability)
    (wcash_genesis zcash_genesis wcash_payout_commitment zcash_payout_commitment : Hex32)
    (share_target_ceiling_be : TargetBe) (chain_id current_event_seq : Z)
| JobSnapshot (version id snapshot_event_seq : Z) (current : option AcceptableJob)
    (recent : list AcceptableJob)
| ShareCommitted (version id : Z) (receipt : ShareReceipt) (replayed : bool)
| EventsPage (version id after_event_seq next_event_seq : Z) (complete : bool)
    (events : list BackendEvent)
| HealthStatus (version id health_event_seq : Z) (healthy recovery_only : bool)
    (pending_wcash quarantined_wcash pending_zcash : Z)
| ErrorMessage (version id : Z) (code : BackendErrorCode) (message : string)
| EventMessage (version : Z) (event : BackendEvent).

Definition correlation_id (self : BackendMessage) : option Z :=
  match self with
  | HelloOk _ id _ _ _ _ _ _ _ _ _ _ _ | JobSnapshot _ id _ _ _ | ShareCommitted _ id _ _
  | EventsPage _ id _ _ _ _ | HealthStatus _ id _ _ _ _ _ _ | ErrorMessage _ id _ _ => Some id
  | EventMessage _ _ => None
  end.

(** [l.iter().enumerate().any(|(i, x)| l[..i].contains(x))]. *)
Fixpoint repeats {A} `{!EqDecision A} (seen l : list A) : bool :=
  match l with
  | [] => false
  | x :: rest => bool_decide (x ∈ seen) || repeats (seen ++ [x]) rest
  end.

Section Digests.
(** SHA-256, from the sha2 crate. *)
Variable sha256 : list Z -> list Z.

Definition canonical_parent_header_hash_le (header_input : Hex108) (nonce : Hex32)
    (solution : Hex1344) : Hex32 :=
  let first := sha256 (as_bytes header_input ++ as_bytes nonce ++ EQUIHASH_SOLUTION_COMPACT_SIZE
                         ++ as_bytes solution) in
  FixedHex_new (sha256 first).

(** The bytes hashed into a share identifier and into an attribution. *)
Definition share_id_preimage (job_id : Hex32) (time : Hex4) (nonce : Hex32) (solution : Hex1344)
    : list Z :=
  SHARE_ID_DOMAIN ++ as_bytes job_id ++ as_bytes time ++ as_bytes nonce ++ as_bytes solution.

Definition canonical_share_id (job_id : Hex32) (time : Hex4) (nonce : Hex32) (solution : Hex1344)
    : Hex32 := FixedHex_new (sha256 (share_id_preimage job_id time nonce solution)).

Definition attribution_preimage (identity : WorkerIdentity) (target_le : TargetLe) : list Z :=
  ATTRIBUTION_ID_DOMAIN ++ Uuid_as_bytes (wi_account_id identity)
    ++ Uuid_as_bytes (wi_worker_id identity)
    ++ be_bytes 2 (Z.of_nat (length (str_bytes (wi_label identity))))
    ++ str_bytes (wi_label identity) ++ tle_bytes target_le.

Definition canonical_attribution_id (identity : WorkerIdentity) (target_le : TargetLe)
    : result Hex32 ProtocolError :=
  let? _ := WorkerIdentity_validate identity in
  let? _ := require_nonzero_target target_le "attribution.target_le" in
  let? _ := check (negb (U16_MAX <? Z.of_nat (length (str_bytes (wi_label identity)))))
              "worker.label" "length cannot be represented canonically" in
  Ok (FixedHex_new (sha256 (attribution_preimage identity target_le))).

Definition BackendEvent_validate (self : BackendEvent) : result unit ProtocolError :=
  let? _ := check (negb (event_seq self =? 0)) "event.event_seq" "must be positive" in
  match self with
  | JobActivated _ job => JobDescriptor_validate job
  | JobInvalidated _ job_id reason accept_for_ms =>
      let? _ := require_nonzero_hex job_id "event.job_id" in
      match reason with
      | WcashTipChanged | ZcashTipChanged =>
          check (accept_for_ms =? 0) "event.accept_for_ms" "tip changes must be immediately stale"
      | Superseded =>
          check ((1 <=? accept_for_ms) && (accept_for_ms <=? 60000)) "event.accept_for_ms"
            "superseded work needs 1..=60000 milliseconds of grace"
      | Age =>
          check (accept_for_ms =? 0) "event.accept_for_ms"
            "age-expired work must be immediately stale"
      end
  | GenerationClosed _ job_id => require_nonzero_hex job_id "event.job_id"
  | ShareCommittedEvent receipt job_id identity target_le =>
      let? _ := ShareReceipt_validate receipt in
      let? _ := require_nonzero_hex job_id "event.job_id" in
      let? _ := check (bool_decide (sr_job_id receipt = job_id)) "event.job_id"
                  "must match share_receipt.job_id" in
      let? attribution := canonical_attribution_id identity target_le in
      let? _ := check (bool_decide (sr_attribution_id receipt = attribution)) "event.attribution"
                  "must match share_receipt.attribution_id" in
      let? _ := WorkerIdentity_validate identity in
      require_nonzero_target target_le "event.target_le"
  | WinnerObserved _ share_id job_id winner tip confirmations =>
      validate_winner_observation share_id job_id winner tip confirmations false
  | WinnerSideChain _ share_id job_id winner tip =>
      validate_zcash_winner_side_chain share_id job_id winner tip
  | WinnerOrphaned _ share_id job_id winner tip =>
      validate_winner_orphan share_id job_id winner tip
  | WinnerQuarantined _ share_id job_id winner tip =>
      validate_wcash_winner_quarantine share_id job_id winner tip
  | WinnerRequeued _ share_id job_id winner tip =>
      validate_wcash_winner_requeue share_id job_id winner tip
  | WinnerMatured _ share_id job_id winner tip confirmations =>
      validate_winner_observation share_id job_id winner tip confirmations true
  end.

(** The event loop of a page: returns the last sequence. *)
Fixpoint validate_page_events (events : list BackendEvent) (previous : Z)
    : result Z ProtocolError :=
  match events with
  | [] => Ok previous
  | event :: rest =>
      let? _ := BackendEvent_validate event in
      let? expected := ok_or (checked_add U64_MAX previous 1)
                         (invalid "events_page.events"
                            "event sequence overflowed after the cursor") in
      let? _ := check (event_seq event =? expected) "events_page.events"
                  "event sequences must be contiguous after the cursor" in
      validate_page_events rest (event_seq event)
  end.

Definition BackendMessage_version (self : BackendMessage) : Z :=
  match self with
  | HelloOk v _ _ _ _ _ _ _ _ _ _ _ _ | JobSnapshot v _ _ _ _ | ShareCommitted v _ _ _
  | EventsPage v _ _ _ _ _ | HealthStatus v _ _ _ _ _ _ _ | ErrorMessage v _ _ _
  | EventMessage v _ => v
  end.

Definition BackendMessage_validate (self : BackendMessage) : result unit ProtocolError :=
  let? _ := check (BackendMessage_version self =? BACKEND_PROTOCOL_VERSION) "backend.v"
              "must equal 2" in
  match self with
  | HelloOk _ id backend_session backend_instance journal_stream capabilities wcash_genesis
      zcash_genesis wcash_payout_commitment zcash_payout_commitment share_target_ceiling_be
      chain_id _ =>
      let? _ := require_nonzero_id id in
      let? _ := require_non_nil_uuid backend_session "hello_ok.backend_session" in
      let? _ := require_non_nil_uuid backend_instance "hello_ok.backend_instance" in
      let? _ := require_non_nil_uuid journal_stream "hello_ok.journal_stream" in
      let? _ := check (negb ((backend_session =? backend_instance)
                             || (backend_session =? journal_stream)
                             || (backend_instance =? journal_stream))) "hello_ok identities"
                  "session, backend instance, and journal stream must be distinct" in
      let? _ := check (negb (negb (length capabilities =? length REQUIRED_BACKEND_CAPABILITIES)%nat
                             || repeats [] capabilities
                             || existsb (fun required => negb (bool_decide (required ∈ capabilities)))
                                  REQUIRED_BACKEND_CAPABILITIES)) "hello_ok.capabilities"
                  "must contain every required capability exactly once" in
      let? _ := require_nonzero_hex wcash_genesis "hello_ok.wcash_genesis" in
      let? _ := require_nonzero_hex zcash_genesis "hello_ok.zcash_genesis" in
      let? _ := require_nonzero_hex wcash_payout_commitment "hello_ok.wcash_payout_commitment" in
      let? _ := require_nonzero_hex zcash_payout_commitment "hello_ok.zcash_payout_commitment" in
      let? _ := check (negb (TargetBe_is_zero share_target_ceiling_be))
                  "hello_ok.share_target_ceiling_be" "must be nonzero" in
      check (negb (chain_id =? 0)) "hello_ok.chain_id" "must be nonzero"
  | JobSnapshot _ id _ current recent =>
      let? _ := require_nonzero_id id in
      let? _ := check (negb (2 <? length recent)%nat) "job_snapshot.recent"
                  "must contain at most two jobs" in
      let? _ := match current with Some j => AcceptableJob_validate j | None => Ok tt end in
      let? _ := validate_all AcceptableJob_validate recent in
      let ids := ((fun entry => as_bytes (jd_job_id (aj_job entry))) <$>
                   (match current with Some j => [j] | None => [] end ++ recent)) in
      check (negb (repeats [] ids)) "job_snapshot" "contains the same job more than once"
  | ShareCommitted _ id receipt _ =>
      let? _ := require_nonzero_id id in
      ShareReceipt_validate receipt
  | EventsPage _ id after_event_seq next_event_seq complete events =>
      let? _ := require_nonzero_id id in
      let? _ := check (negb (MAX_EVENT_PAGE_ITEMS <? Z.of_nat (length events))) "events_page.events"
                  "must contain at most 1024 events" in
      let? _ := check (negb (negb complete && bool_decide (events = []))) "events_page.events"
                  "an incomplete page must advance with at least one event" in
      let? previous := validate_page_events events after_event_seq in
      check (next_event_seq =? previous) "events_page.next_event_seq"
        "must equal the final event sequence or the empty-page cursor"
  | HealthStatus _ id _ healthy recovery_only pending_wcash quarantined_wcash _ =>
      let? _ := require_nonzero_id id in
      let? _ := check (negb (healthy && recovery_only)) "health_status.recovery_only"
                  "cannot be combined with ordinary healthy admission" in
      check (negb (pending_wcash <? quarantined_wcash)) "health_status.quarantined_wcash"
        "must not exceed pending_wcash"
  | ErrorMessage _ id _ message =>
      let? _ := (if negb (id =? 0) then require_nonzero_id id else Ok tt) in
      validate_bounded_text message 1 512 "error.message"
  | EventMessage _ event => BackendEvent_validate event
  end.
End Digests.

(** ** Lemmas *)

Lemma check_Ok b field reason : check b field reason = Ok tt <-> b = true.
Proof. unfold check. by destruct b. Qed.

Lemma nonzero_hex_Ok {N} (h : FixedHex N) field :
  require_nonzero_hex h field = Ok tt <-> FixedHex_is_zero h = false.
Proof. unfold require_nonzero_hex. rewrite check_Ok. apply negb_true_iff. Qed.

Lemma validate_all_Ok {A} (f : A -> result unit ProtocolError) l :
  validate_all f l = Ok tt <-> Forall (fun x => f x = Ok tt) l.
Proof.
  induction l as [|x l IH]; cbn [validate_all]; [split; [constructor|done]|].
  by rewrite seq_Ok, IH, Forall_cons.
Qed.

Lemma repeats_spec {A} `{!EqDecision A} (seen l : list A) :
  NoDup seen -> repeats seen l = false <-> NoDup (seen ++ l).
Proof.
  revert seen; induction l as [|x l IH]; intros seen Hs; cbn [repeats]; [by rewrite app_nil_r|].
  rewrite orb_false_iff, bool_decide_eq_false.
  replace (seen ++ x :: l) with ((seen ++ [x]) ++ l) by (by rewrite <- app_assoc).
  split.
  - intros [Hx Hr]. apply IH in Hr; [done|]. apply NoDup_app. split_and!; [done| |apply NoDup_singleton].
    by intros y Hy ->%list_elem_of_singleton.
  - intros Hnd. pose proof Hnd as Hnd'. apply NoDup_app in Hnd' as (Hsx & _ & _).
    split; [|by apply IH]. apply NoDup_app in Hsx as (_ & Hd & _). intros Hin. apply (Hd x Hin). left.
Qed.

Lemma N_of_ascii_inj a b : Ascii.N_of_ascii a = Ascii.N_of_ascii b -> a = b.
Proof. intros H. by rewrite <- (Ascii.ascii_N_embedding a), H, Ascii.ascii_N_embedding. Qed.

Lemma str_bytes_inj s t : str_bytes s = str_bytes t -> s = t.
Proof.
  unfold str_bytes. intros H. rewrite <- (String.string_of_list_ascii_of_string s),
    <- (String.string_of_list_ascii_of_string t). f_equal. revert H.
  generalize (String.list_ascii_of_string s) (String.list_ascii_of_string t).
  induction l as [|a l IH]; intros [|b m]; try done. rewrite !fmap_cons. intros [= Hab Hl].
  f_equal; [|by apply IH]. apply N_of_ascii_inj. lia.
Qed.

Lemma hex_eq {N} (a b : FixedHex N) : as_bytes a = as_bytes b -> a = b.
Proof. destruct a, b. simpl. congruence. Qed.

Lemma be_bytes_inj n v w :
  0 <= v < 256 ^ Z.of_nat n -> 0 <= w < 256 ^ Z.of_nat n -> be_bytes n v = be_bytes n w -> v = w.
Proof. intros Hv Hw E. by rewrite <- (be_val_be_bytes n v Hv), <- (be_val_be_bytes n w Hw), E. Qed.

(** Peel equal-length prefixes off an equation between concatenations. *)
Ltac peel H E :=
  apply app_inj_1 in H; [destruct H as [E H]|].

Lemma validate_worker_label_Ok label :
  validate_worker_label label = Ok tt -> (1 <= length (str_bytes label) <= 128)%nat.
Proof.
  unfold validate_worker_label. rewrite seq_Ok. intros [H _]. revert H.
  unfold validate_bounded_text. destruct (_ && _)%bool eqn:E; simpl; [|done]. intros _.
  apply andb_true_iff in E as [E1 E2]. apply Nat.leb_le in E1, E2. lia.
Qed.

(** *** Pages *)

(** The cursor after a run of validated pages, each starting where the previous one ended. *)
Fixpoint follow_pages (sha256 : list Z -> list Z) (cursor : Z) (pages : list BackendMessage)
    : option (Z * list BackendEvent) :=
  match pages with
  | [] => Some (cursor, [])
  | EventsPage v id after next complete events :: rest =>
      if (after =? cursor) && is_ok (BackendMessage_validate sha256 (EventsPage v id after next complete events))
      then match follow_pages sha256 next rest with
           | Some (c, evs) => Some (c, events ++ evs)
           | None => None
           end
      else None
  | _ :: _ => None
  end.

Lemma validate_page_events_Ok sha256 events previous last :
  validate_page_events sha256 events previous = Ok last ->
  event_seq <$> events = seqZ (previous + 1) (Z.of_nat (length events)) /\
  last = previous + Z.of_nat (length events) /\
  Forall (fun e => BackendEvent_validate sha256 e = Ok tt) events.
Proof.
  revert previous; induction events as [|e events IH]; intros previous; cbn [validate_page_events].
  { intros [= <-]. simpl. split_and!; [done|lia|constructor]. }
  rewrite seq_Ok, bind_Ok. intros (Hv & x & Hx & H). apply ok_or_Ok, checked_add_Some in Hx as [-> _].
  rewrite seq_Ok, check_Ok, Z.eqb_eq in H. destruct H as [He H].
  apply IH in H as (Hs & -> & Hall). rewrite fmap_cons, He in *. cbn [length]. split_and!.
  - rewrite Nat2Z.inj_succ, Hs. rewrite (seqZ_cons (previous + 1)) by lia.
    f_equal. f_equal; lia.
  - lia.
  - by constructor.
Qed.

Lemma follow_pages_spec sha256 pages cursor last events :
  follow_pages sha256 cursor pages = Some (last, events) ->
  event_seq <$> events = seqZ (cursor + 1) (Z.of_nat (length events)) /\
  last = cursor + Z.of_nat (length events) /\
  Forall (fun e => BackendEvent_validate sha256 e = Ok tt) events.
Proof.
  revert cursor last events; induction pages as [|p pages IH]; intros cursor last events; cbn [follow_pages].
  { intros [= <- <-]. simpl. split_and!; [done|lia|constructor]. }
  destruct p as [| | |v id after next complete evs| | |]; try done.
  destruct (_ && _)%bool eqn:Hg; [|done]. apply andb_true_iff in Hg as [<-%Z.eqb_eq Hv].
  destruct (follow_pages sha256 next pages) as [[c evs']|] eqn:Hf; [|done]. intros [= <- <-].
  apply IH in Hf as (Hs' & -> & Hall').
  destruct (BackendMessage_validate sha256 _) as [[]|] eqn:Hval; [|done]. clear Hv.
  unfold BackendMessage_validate in Hval. rewrite !seq_Ok, bind_Ok in Hval.
  destruct Hval as (_ & _ & _ & _ & prev & Hp & Hn). rewrite check_Ok, Z.eqb_eq in Hn. subst next.
  apply validate_page_events_Ok in Hp as (Hs & -> & Hall).
  rewrite fmap_app, length_app, Nat2Z.inj_add, Hs, Hs'. split_and!.
  - rewrite seqZ_app by lia. f_equal. f_equal. lia.
  - lia.
  - by apply Forall_app.
Qed.

(** *** Winners *)

Lemma validate_receipt_winners_Ok parent ws prev :
  validate_receipt_winners parent ws prev = Ok tt ->
  Forall (fun w => WinnerDescriptor_validate w = Ok tt /\
                   (wd_chain w = Zcash -> wd_block_hash_le w = parent)) ws /\
  StronglySorted Z.lt (chain_rank <$> (match prev with Some c => [c] | None => [] end ++ (wd_chain <$> ws))).
Proof.
  revert prev; induction ws as [|w ws IH]; intros prev; cbn [validate_receipt_winners].
  { intros _. split; [constructor|]. destruct prev; simpl; repeat constructor. }
  rewrite !seq_Ok, !check_Ok. intros (Hw & Hp & Hz & H). apply IH in H as [Hall Hs]. split.
  - constructor; [|done]. split; [done|]. intros Hc. apply negb_true_iff, andb_false_iff in Hz as [Hz|Hz];
      [by apply bool_decide_eq_false in Hz|]. apply bool_decide_eq_false in Hz.
    by destruct (decide (wd_block_hash_le w = parent)).
  - rewrite fmap_app, !fmap_cons in *. destruct prev as [c|]; [|exact Hs].
    simpl in Hs |- *. constructor; [done|]. apply negb_true_iff, Z.leb_gt in Hp.
    inversion Hs as [|? ? _ Hfa]; subst. constructor; [done|].
    eapply Forall_impl; [exact Hfa|]. intros x Hx. simpl in Hx. lia.
Qed.

Lemma validate_for_job_Ok w job :
  WinnerDescriptor_validate_for_job w job = Ok tt ->
  match wd_chain w with
  | Wcash => wd_block_hash_le w = jd_wcash_candidate_hash_le job /\
             wd_height w = jd_wcash_height job /\ wd_reward_zat w = jd_wcash_reward_zat job /\
             wd_maturity_confirmations w = jd_wcash_maturity_confirmations job /\
             wd_coinbase_txid_le w = jd_wcash_coinbase_txid_le job
  | Zcash => wd_height w = jd_zcash_height job /\ wd_reward_zat w = jd_zcash_reward_zat job /\
             wd_maturity_confirmations w = jd_zcash_maturity_confirmations job /\
             wd_coinbase_txid_le w = jd_zcash_coinbase_txid_le job
  end.
Proof.
  unfold WinnerDescriptor_validate_for_job. rewrite !seq_Ok. intros (_ & _ & H).
  destruct (wd_chain w) eqn:Hc; rewrite !seq_Ok, !check_Ok in H; destruct H as (H1 & H2 & H3 & H4 & H5);
    apply bool_decide_eq_true_1 in H2; apply Z.eqb_eq in H3, H4, H5; [|done]. split_and!; try done.
  rewrite negb_true_iff, andb_false_iff, !bool_decide_eq_false in H1. destruct H1 as [H1|H1]; [done|].
  by destruct (decide (wd_block_hash_le w = jd_wcash_candidate_hash_le job)).
Qed.

(** ** Properties *)

(** Validated event pages cannot skip, repeat or reorder the journal.  When a reader follows
    pages from a cursor, each starting at the previous page's final sequence and each passing
    validation, the events it collects carry exactly the consecutive sequence numbers after the
    cursor, the final cursor is the last of them, and every event is individually valid. *)
Theorem event_pages_contiguous (sha256 : list Z -> list Z) (cursor last : Z)
    (pages : list BackendMessage) (events : list BackendEvent)
    (Hpages : follow_pages sha256 cursor pages = Some (last, events)) :
  event_seq <$> events = seqZ (cursor + 1) (Z.of_nat (length events)) /\
  last = cursor + Z.of_nat (length events) /\
  Forall (fun e => BackendEvent_validate sha256 e = Ok tt) events.
Proof. by apply (follow_pages_spec sha256 pages). Qed.

(** Identifiers are computed from unambiguous encodings.  Equal share-identifier inputs mean
    the same job, time, nonce and solution; equal attribution inputs mean the same account,
    worker, label and target; and the two domains never collide.  A hash collision aside, a retry
    cannot change a proof or its attribution without changing the identifier. *)
Theorem identifier_encodings_injective
    (j j' n n' : Hex32) (t t' : Hex4) (s s' : Hex1344) (i i' : WorkerIdentity) (g g' : TargetLe)
    (Hj : hex_wf j) (Hj' : hex_wf j') (Hn : hex_wf n) (Hn' : hex_wf n') (Ht : hex_wf t)
    (Ht' : hex_wf t') (Ha : uuid_wf (wi_account_id i)) (Ha' : uuid_wf (wi_account_id i'))
    (Hw : uuid_wf (wi_worker_id i)) (Hw' : uuid_wf (wi_worker_id i'))
    (Hl : validate_worker_label (wi_label i) = Ok tt)
    (Hl' : validate_worker_label (wi_label i') = Ok tt) :
  (share_id_preimage j t n s = share_id_preimage j' t' n' s' -> j = j' /\ t = t' /\ n = n' /\ s = s') /\
  (attribution_preimage i g = attribution_preimage i' g' -> i = i' /\ g = g') /\
  share_id_preimage j t n s <> attribution_preimage i g.
Proof.
  destruct Hj as [Lj _], Hj' as [Lj' _], Hn as [Ln _], Hn' as [Ln' _], Ht as [Lt _], Ht' as [Lt' _].
  apply validate_worker_label_Ok in Hl, Hl'. unfold uuid_wf in *. split_and!.
  - unfold share_id_preimage. intros H. peel H E0; [|done]. peel H E1; [|congruence].
    peel H E2; [|congruence]. peel H E3; [|congruence]. split_and!; by apply hex_eq.
  - unfold attribution_preimage. intros H. peel H E0; [|done].
    peel H E1; [|unfold Uuid_as_bytes; by rewrite !length_be_bytes].
    peel H E2; [|unfold Uuid_as_bytes; by rewrite !length_be_bytes].
    peel H E3; [|by rewrite !length_be_bytes].
    apply be_bytes_inj in E3; [|simpl; lia..]. peel H E4; [|lia].
    unfold Uuid_as_bytes in *. apply be_bytes_inj in E1; [|simpl; widths; lia..].
    apply be_bytes_inj in E2; [|simpl; widths; lia..]. apply str_bytes_inj in E4.
    destruct i, i', g, g'; simpl in *. split; congruence.
  - unfold share_id_preimage, attribution_preimage. intros H.
    apply (f_equal (fun l => l !! 11%nat)) in H. vm_compute in H. discriminate.
Qed.

(** A winner observation is accepted exactly when its arithmetic is right: non-zero
    identifiers, a valid winner, a tip at or above the winner whose hash is the winner's exactly
    at the winner's height, confirmations equal to the depth plus one, and, for maturity, at
    least the winner's own confirmation requirement. *)
Theorem winner_observation_exact (share_id job_id : Hex32) (winner : WinnerDescriptor)
    (tip : ChainTip) (confirmations : Z) (matured : bool)
    (Hheight : 0 <= ct_height tip <= U32_MAX) (Hwh : 0 <= wd_height winner <= U32_MAX) :
  validate_winner_observation share_id job_id winner tip confirmations matured = Ok tt <->
  FixedHex_is_zero share_id = false /\ FixedHex_is_zero job_id = false /\
  WinnerDescriptor_validate winner = Ok tt /\ FixedHex_is_zero (ct_block_hash_le tip) = false /\
  (ct_block_hash_le tip = wd_block_hash_le winner <-> ct_height tip = wd_height winner) /\
  wd_height winner <= ct_height tip /\
  confirmations = ct_height tip - wd_height winner + 1 /\
  (matured = true -> wd_maturity_confirmations winner <= confirmations).
Proof.
  unfold validate_winner_observation, validate_winner_reference, ChainTip_validate.
  rewrite !seq_Ok, !nonzero_hex_Ok, check_Ok, bind_Ok.
  assert (eqb (bool_decide (ct_block_hash_le tip = wd_block_hash_le winner))
      (ct_height tip =? wd_height winner) = true <->
    (ct_block_hash_le tip = wd_block_hash_le winner <-> ct_height tip = wd_height winner)) as ->.
  { rewrite eqb_true_iff. case_bool_decide; destruct (Z.eqb_spec (ct_height tip) (wd_height winner));
      split; try done; naive_solver. }
  split.
  - intros ((H1 & H2 & H3) & H4 & H5 & x & Hx & H). apply ok_or_Ok in Hx.
    unfold checked_sub in Hx. destruct (Z.leb_spec (wd_height winner) (ct_height tip)); [|done].
    apply checked_add_Some in Hx as [-> _]. rewrite seq_Ok, !check_Ok, Z.eqb_eq in H.
    destruct H as [-> Hm]. split_and!; try done. intros ->. apply negb_true_iff in Hm.
    simpl in Hm. boolprop. lia.
  - intros (H1 & H2 & H3 & H4 & H5 & H6 & -> & H8). split_and!; try done.
    (* the depth fits 32 bits because the winner height is positive *)
    assert (1 <= wd_height winner).
    { revert H3. unfold WinnerDescriptor_validate. rewrite !seq_Ok, check_Ok.
      intros (_ & Hz & _). boolprop. lia. }
    exists (ct_height tip - wd_height winner + 1). split.
    + apply ok_or_Ok. unfold checked_sub, checked_add. rewrite !(proj2 (Z.leb_le _ _)) by lia. done.
    + rewrite seq_Ok, !check_Ok. split; [apply Z.eqb_refl|]. destruct matured; [|done].
      specialize (H8 eq_refl). simpl. apply negb_true_iff, Z.ltb_ge. lia.
Qed.

(** A receipt validated for its job can only credit that job's own blocks.  Its winners are at
    most one Wcash block followed by at most one Zcash block; each carries the job's height,
    reward, maturity and coinbase for its chain; a Wcash winner is the job's candidate and a Zcash
    winner is the parent header the receipt validated. *)
Theorem receipt_winners_match_job (receipt : ShareReceipt) (job : JobDescriptor)
    (Hok : ShareReceipt_validate_for_job receipt job = Ok tt) :
  sr_job_id receipt = jd_job_id job /\
  (wd_chain <$> sr_winners receipt) ∈ [[]; [Wcash]; [Zcash]; [Wcash; Zcash]] /\
  Forall (fun w => match wd_chain w with
    | Wcash => wd_block_hash_le w = jd_wcash_candidate_hash_le job /\
               wd_height w = jd_wcash_height job /\ wd_reward_zat w = jd_wcash_reward_zat job /\
               wd_maturity_confirmations w = jd_wcash_maturity_confirmations job /\
               wd_coinbase_txid_le w = jd_wcash_coinbase_txid_le job
    | Zcash => wd_block_hash_le w = sr_parent_hash_le receipt /\
               wd_height w = jd_zcash_height job /\ wd_reward_zat w = jd_zcash_reward_zat job /\
               wd_maturity_confirmations w = jd_zcash_maturity_confirmations job /\
               wd_coinbase_txid_le w = jd_zcash_coinbase_txid_le job
    end) (sr_winners receipt).
Proof.
  unfold ShareReceipt_validate_for_job in Hok. rewrite !seq_Ok, check_Ok, validate_all_Ok in Hok.
  destruct Hok as (_ & Hr & Hid & Hall). apply bool_decide_eq_true_1 in Hid.
  unfold ShareReceipt_validate in Hr. rewrite !seq_Ok in Hr.
  destruct Hr as (_ & _ & _ & _ & _ & Hlen & Hws).
  apply validate_receipt_winners_Ok in Hws as [Hz Hs]. simpl in Hs. split_and!; [done| |].
  - rewrite <- list_fmap_compose in Hs. clear - Hs. revert Hs.
    destruct (sr_winners receipt) as [|[c1 ? ? ? ? ?] [|[c2 ? ? ? ? ?] [|[c3 ? ? ? ? ?] ws]]].
    + set_solver.
    + destruct c1; set_solver.
    + intros Hs. inversion Hs as [|? ? _ Hf]; subst. inversion Hf as [|? ? Hlt _]; subst.
      destruct c1, c2; simpl in *; try lia. set_solver.
    + intros Hs. inversion Hs as [|? ? Hs2 Hf]; subst. inversion Hf as [|? ? Hlt _]; subst.
      inversion Hs2 as [|? ? _ Hf2]; subst. inversion Hf2 as [|? ? Hlt2 _]; subst.
      destruct c1, c2, c3; simpl in *; lia.
  - apply Forall_forall. intros w Hw. rewrite Forall_forall in Hall, Hz.
    pose proof (validate_for_job_Ok w job (Hall w Hw)) as Hj. destruct (Hz w Hw) as [_ Hp].
    destruct (wd_chain w); [done|]. split; [by apply Hp|done].
Qed.

(** ** Concrete messages *)

Definition demo_hex (N : nat) (b : Z) : FixedHex N := FixedHex_new (replicate N b).

Lemma demo_hex_wf N b : is_byte b -> hex_wf (demo_hex N b).
Proof. intros Hb. split; simpl; [by rewrite length_replicate|by apply Forall_replicate]. Qed.

Definition demo_header : Hex108 :=
  FixedHex_new ([4; 0; 0; 0] ++ replicate 32 7 ++ replicate 72 9).

Definition demo_target (b : Z) : TargetLe := TargetLe_new (replicate 32 b).

Definition demo_job (b : Z) : JobDescriptor :=
  mkJobDescriptor (demo_hex 32 b) (demo_hex 32 21) demo_header (demo_hex 32 6) (demo_hex 32 7)
    (demo_hex 32 22) (demo_hex 32 23) (demo_target 10) (demo_target 20) 100 200 625000000 312500000
    100 100 30000.

Definition demo_winner (c : MergedChain) : WinnerDescriptor :=
  match c with
  | Wcash => mkWinnerDescriptor Wcash (demo_hex 32 21) 100 (demo_hex 32 22) 625000000 100
  | Zcash => mkWinnerDescriptor Zcash (demo_hex 32 31) 200 (demo_hex 32 23) 312500000 100
  end.

Definition demo_receipt : ShareReceipt :=
  mkShareReceipt 5 (demo_hex 32 1) (demo_hex 32 2) (demo_hex 32 3) (demo_hex 32 31)
    [demo_winner Wcash; demo_winner Zcash].

Definition demo_sha256 (l : list Z) : list Z := replicate 32 1.

Definition demo_identity : WorkerIdentity := mkWorkerIdentity 7 8 "rig-1".

Lemma event_pages_contiguous_witness :
  exists last events,
    follow_pages demo_sha256 4
      [EventsPage 2 9 4 6 false [GenerationClosed 5 (demo_hex 32 1); GenerationClosed 6 (demo_hex 32 2)];
       EventsPage 2 10 6 7 true [JobActivated 7 (demo_job 3)]] = Some (last, events) /\
    event_seq <$> events = [5; 6; 7] /\ last = 7.
Proof.
  eexists _, _. split; [vm_compute; reflexivity|].
  match goal with |- (event_seq <$> ?evs) = _ /\ _ =>
    destruct (event_pages_contiguous demo_sha256 4 7
      [EventsPage 2 9 4 6 false [GenerationClosed 5 (demo_hex 32 1); GenerationClosed 6 (demo_hex 32 2)];
       EventsPage 2 10 6 7 true [JobActivated 7 (demo_job 3)]] evs ltac:(vm_compute; reflexivity))
      as (H1 & H2 & _) end.
  split; [rewrite H1; vm_compute; reflexivity|reflexivity].
Defined.

Lemma identifier_encodings_injective_witness :
  share_id_preimage (demo_hex 32 1) (demo_hex 4 1) (demo_hex 32 2) (demo_hex 1344 3) <>
  attribution_preimage demo_identity (demo_target 10).
Proof.
  refine (proj2 (proj2 (identifier_encodings_injective (demo_hex 32 1) (demo_hex 32 1)
    (demo_hex 32 2) (demo_hex 32 2) (demo_hex 4 1) (demo_hex 4 1) (demo_hex 1344 3) (demo_hex 1344 3)
    demo_identity demo_identity (demo_target 10) (demo_target 10) _ _ _ _ _ _ _ _ _ _ _ _)));
    try (apply demo_hex_wf; unfold is_byte; lia); try (split; vm_compute; congruence);
    vm_compute; reflexivity.
Defined.

Lemma winner_observation_exact_witness :
  validate_winner_observation (demo_hex 32 1) (demo_hex 32 2) (demo_winner Wcash)
    (mkChainTip (demo_hex 32 40) 199) 100 true = Ok tt.
Proof.
  apply (winner_observation_exact (demo_hex 32 1) (demo_hex 32 2) (demo_winner Wcash)
    (mkChainTip (demo_hex 32 40) 199) 100 true); [split; vm_compute; congruence..|].
  split_and!; try reflexivity; try (vm_compute; congruence).
  vm_compute. split; congruence.
Defined.

Lemma receipt_winners_match_job_witness :
  ShareReceipt_validate_for_job demo_receipt (demo_job 1) = Ok tt /\
  sr_job_id demo_receipt = jd_job_id (demo_job 1).
Proof.
  assert (ShareReceipt_validate_for_job demo_receipt (demo_job 1) = Ok tt) as H
    by (vm_compute; reflexivity).
  split; [exact H|]. exact (proj1 (receipt_winners_match_job demo_receipt (demo_job 1) H)).
Defined.
