(* ===== verification/PayoutFees.v ===== *)
(** Payout amounts, network-fee reserves and the balanced ledger entries of a payout batch
    (crates/wcash-pool-store/src/postgres.rs: random_payout_cap, payout_cap_from_draws,
    payout_amount_for_liability, deduct_network_fee_reserve, allocate_actual_network_fee, the
    output planning of create_payout_batch, the entries of confirm_payout and the balance guard of
    insert_owned_ledger_transaction). *)

From Stdlib Require Import ZArith Lia.
From stdpp Require Import prelude gmap sorting strings.
From S2P Require Import Prelude Wire LargestRemainder Pplns Backend.
Open Scope Z_scope.

(** ** Data *)

(** The errors of the store.  [Database] stands for every failure PostgreSQL reports, with the
    reason the schema gives. *)
Inductive StoreError : Type :=
| InvalidDeploymentIdentity
| DeploymentIdentityMismatch
| BackendAuthorityMismatch
| InvalidConnectionLimit (limit : Z)
| ReplayBatchTooLarge (events : Z)
| EventSeqOverflow
| EventSequenceGap (expected actual : Z)
| EventReplayConflict (event_seq : Z)
| EventProjectionLag (projected required : Z)
| UnknownJob
| UnknownWinner
| WinnerFactConflict
| WorkerAttributionConflict
| InvalidWinnerTransition
| PrematureWinner (required actual : Z)
| WinnerMaturityPolicyMismatch (chain : MergedChain) (advertised configured : Z)
| MissingChainPolicy (chain : MergedChain)
| PplnsWindowTooLarge
| MoneyOverflow
| UnbalancedLedger
| InvalidLoginComponent
| InvalidPortalCredential
| InvalidPortalSession
| InvalidSessionCleanupLimit
| InvalidTimestamp
| UnknownAccount
| AccountOwnershipMismatch
| WorkerLimitReached
| InvalidPayoutDestination
| InvalidReplacementHold
| InvalidChainPolicy
| ChainPolicyMismatch
| NonZeroLaunchFee
| InvalidPayoutBatch
| NoPayableBalances
| PayoutRandomnessUnavailable
| UnknownPayoutBatch
| InvalidPayoutTransition
| InvalidPayoutConfirmation
| InvalidPayoutExpiryEvidence
| PayoutExpiryLimitExceeded
| PrematurePayoutConfirmation (required actual : Z)
| PayoutReplayConflict
| ExcessivePayoutFee
| PayoutIdempotencyConflict
| PayoutTransactionConflict
| PayoutsFrozen (chain : MergedChain)
| CollectorReconciliationFailed
| InvalidWalletObservation
| WalletReconciliationBlocked
| WalletReconciliationStale
| WalletReconciliationPending
| InvalidPayoutWorkerLease
| PayoutWorkerLeaseLost
| InvalidNonceReservation
| InvalidNonceLeaseDuration
| NonceNamespaceAlreadyHeld
| NonceNamespaceLeaseLost
| NonceNamespaceLeaseGenerationExhausted
| NonceNamespaceExhausted
| CorruptDatabaseState (what : string)
| Database (reason : string)
| ProtocolFailed (e : ProtocolError)
| PplnsFailed (e : PplnsError).

#[global] Instance StoreError_eq_dec : EqDecision StoreError.
Proof. solve_decision. Defined.

Inductive ReceiverKind : Type := Transparent | Ironwood.

Definition ReceiverKind_parse (value : string) : result ReceiverKind StoreError :=
  if String.eqb value "transparent" then Ok Transparent
  else if String.eqb value "ironwood" then Ok Ironwood
  else Err (CorruptDatabaseState "payout receiver kind").

Record PayoutInstruction : Type := mkPayoutInstruction {
  pi_allocation_id : Uuid;
  pi_account_id : Uuid;
  pi_destination_id : Uuid;
  pi_receiver_kind : ReceiverKind;
  pi_address : string;
  liability_amount_zat : Z;
  amount_zat : Z
}.

Definition set_amount (o : PayoutInstruction) (a : Z) : PayoutInstruction :=
  mkPayoutInstruction (pi_allocation_id o) (pi_account_id o) (pi_destination_id o)
    (pi_receiver_kind o) (pi_address o) (liability_amount_zat o) a.

(** ** Payout caps *)

Definition payout_amount_for_liability (mature_unpaid_zat payout_cap_zat : Z) : Z :=
  if mature_unpaid_zat <? payout_cap_zat then mature_unpaid_zat else payout_cap_zat.

Definition payout_cap_from_draws (minimum_zat maximum_zat skip_bps skip_draw amount_draw : Z)
    : result (option Z) StoreError :=
  if (minimum_zat =? 0) || (maximum_zat <? minimum_zat) || (10000 <? skip_bps)
  then Err InvalidChainPolicy
  else
    let skip_bucket := Z.shiftr (skip_draw * 10000) 64 mod 2 ^ 16 in
    if skip_bucket <? skip_bps then Ok None
    else
      let? span := ok_or (match checked_sub maximum_zat minimum_zat with
                          | Some difference => checked_add U64_MAX difference 1
                          | None => None
                          end) MoneyOverflow in
      let offset := Z.shiftr (amount_draw * span) 64 mod 2 ^ 64 in
      match checked_add U64_MAX minimum_zat offset with
      | Some cap => Ok (Some cap)
      | None => Err MoneyOverflow
      end.

(** [draws] is what the operating system's random generator fills in, [None] when it fails. *)
Definition random_payout_cap (draws : option (list Z)) (minimum_zat maximum_zat skip_bps : Z)
    : result (option Z) StoreError :=
  if (skip_bps =? 0) && (minimum_zat =? maximum_zat) then Ok (Some maximum_zat)
  else match draws with
       | None => Err PayoutRandomnessUnavailable
       | Some bytes => payout_cap_from_draws minimum_zat maximum_zat skip_bps
                         (le_val (take 8 bytes)) (le_val (drop 8 bytes))
       end.

(** ** Fee splits *)

(** The leftover order of both splits: largest remainder, then account, then allocation. *)
Definition fee_order (outputs : list PayoutInstruction) (rems : list Z) (left right : nat)
    : comparison :=
  cmp_then (rems !!! right ?= rems !!! left)
    (cmp_then ((pi_account_id <$> outputs) !!! left ?= (pi_account_id <$> outputs) !!! right)
       ((pi_allocation_id <$> outputs) !!! left ?= (pi_allocation_id <$> outputs) !!! right)).

Fixpoint liability_total (outputs : list PayoutInstruction) (sum : Z) : result Z StoreError :=
  match outputs with
  | [] => Ok sum
  | output :: rest =>
      if (liability_amount_zat output =? 0)
         || negb (amount_zat output =? liability_amount_zat output)
      then Err InvalidPayoutBatch
      else
        let? sum' := ok_or (checked_add U64_MAX sum (liability_amount_zat output)) MoneyOverflow in
        liability_total rest sum'
  end.

Fixpoint apply_reserve (outputs : list PayoutInstruction) (contributions : list Z)
    : result (list PayoutInstruction) StoreError :=
  match outputs, contributions with
  | output :: outputs', c :: contributions' =>
      let? amount := ok_or (match checked_sub (liability_amount_zat output) c with
                            | Some a => if 0 <? a then Some a else None
                            | None => None
                            end) ExcessivePayoutFee in
      let? rest := apply_reserve outputs' contributions' in
      Ok (set_amount output amount :: rest)
  | _, _ => Ok outputs
  end.

(** The outputs are updated in place; on an error the caller drops them with the transaction. *)
Definition deduct_network_fee_reserve (outputs : list PayoutInstruction) (maximum_fee_zat : Z)
    : result (list PayoutInstruction) StoreError :=
  if bool_decide (outputs = []) || (maximum_fee_zat =? 0) then Err InvalidPayoutBatch else
  let? total := liability_total outputs 0 in
  if (total <=? maximum_fee_zat)
     || existsb (fun output => liability_amount_zat output <=? maximum_fee_zat) outputs
  then Err ExcessivePayoutFee
  else
    let? contributions := largest_remainder MoneyOverflow
        (CorruptDatabaseState "payout fee reserve rounding") maximum_fee_zat total
        (liability_amount_zat <$> outputs) (fee_order outputs) in
    apply_reserve outputs contributions.

Fixpoint fee_reserves (outputs : list PayoutInstruction) (reserve_total : Z)
    : result (list Z * Z) StoreError :=
  match outputs with
  | [] => Ok ([], reserve_total)
  | output :: rest =>
      let? reserve := ok_or (checked_sub (liability_amount_zat output) (amount_zat output))
                        (CorruptDatabaseState "payout fee contribution") in
      let? total := ok_or (checked_add U64_MAX reserve_total reserve) MoneyOverflow in
      let? p := fee_reserves rest total in
      Ok (reserve :: fst p, snd p)
  end.

Definition allocate_actual_network_fee (outputs : list PayoutInstruction) (actual_fee_zat : Z)
    : result (list Z) StoreError :=
  let? p := fee_reserves outputs 0 in
  let (reserves, reserve_total) := p in
  if (reserve_total =? 0) || (actual_fee_zat =? 0) || (reserve_total <? actual_fee_zat)
  then Err ExcessivePayoutFee
  else
    let? contributions := largest_remainder MoneyOverflow
        (CorruptDatabaseState "actual payout fee rounding") actual_fee_zat reserve_total
        reserves (fee_order outputs) in
    if existsb (fun cr => snd cr <? fst cr) (zip contributions reserves)
    then Err (CorruptDatabaseState "actual payout fee contribution")
    else Ok contributions.

(** ** Planning a batch *)

(** One eligible row of the database query, with the allocation identifier drawn for it. *)
Record PayoutRow : Type := mkPayoutRow {
  row_allocation_id : Uuid;
  row_account_id : Uuid;
  row_destination_id : Uuid;
  row_receiver_kind : string;
  row_address : string;
  row_amount_zat : Z
}.

Fixpoint select_outputs (rows : list PayoutRow) (payout_cap_zat total : Z)
    : result (list PayoutInstruction * Z) StoreError :=
  match rows with
  | [] => Ok ([], total)
  | row :: rest =>
      let? mature := (if row_amount_zat row <? 0 then Err MoneyOverflow
                      else Ok (row_amount_zat row)) in
      let amount := payout_amount_for_liability mature payout_cap_zat in
      let? total' := ok_or (checked_add U64_MAX total amount) MoneyOverflow in
      let? kind := ReceiverKind_parse (row_receiver_kind row) in
      let? p := select_outputs rest payout_cap_zat total' in
      Ok (mkPayoutInstruction (row_allocation_id row) (row_account_id row)
            (row_destination_id row) kind (row_address row) amount amount :: fst p, snd p)
  end.

Definition smallest_liability (outputs : list PayoutInstruction) : option Z :=
  match liability_amount_zat <$> outputs with
  | [] => None
  | l :: ls => Some (foldl Z.min l ls)
  end.

Fixpoint try_sum (l : list Z) (sum : Z) : result Z StoreError :=
  match l with
  | [] => Ok sum
  | x :: l' => let? sum' := ok_or (checked_add U64_MAX sum x) MoneyOverflow in try_sum l' sum'
  end.

Record PlannedPayout : Type := mkPlannedPayout {
  pp_outputs : list PayoutInstruction;
  pp_payout_total_zat : Z;
  pp_maximum_network_fee_zat : Z;
  pp_miner_total_zat : Z
}.

(** From the selected rows and the drawn cap to the reserved outputs. *)
Definition plan_payout_batch (rows : list PayoutRow)
    (payout_cap_zat absolute_fee_limit relative_fee_limit_bps : Z) : result PlannedPayout StoreError :=
  let? p := select_outputs rows payout_cap_zat 0 in
  let (outputs, total) := p in
  let? relative_fee_limit :=
    (if U64_MAX <? total * relative_fee_limit_bps / 10000 then Err MoneyOverflow
     else Ok (total * relative_fee_limit_bps / 10000)) in
  let? smallest := ok_or (smallest_liability outputs)
                     (CorruptDatabaseState "empty selected payout outputs") in
  let maximum_network_fee :=
    Z.min (Z.min absolute_fee_limit relative_fee_limit) (saturating_sub smallest 1) in
  if maximum_network_fee =? 0 then Err ExcessivePayoutFee else
  let? reserved := deduct_network_fee_reserve outputs maximum_network_fee in
  let? payout_total := try_sum (amount_zat <$> reserved) 0 in
  if bool_decide (checked_add U64_MAX payout_total maximum_network_fee = Some total)
  then Ok (mkPlannedPayout reserved payout_total maximum_network_fee total)
  else Err (CorruptDatabaseState "payout fee reserve conservation").

(** ** Ledger entries *)

Abbreviation LedgerEntry := (option Uuid * string * Z)%type.

Definition I64_MAX : Z := 2 ^ 63 - 1.

Definition as_i64 (value : Z) : result Z StoreError :=
  if value <=? I64_MAX then Ok value else Err MoneyOverflow.

Fixpoint i128_sum (entries : list LedgerEntry) (sum : Z) : option Z :=
  match entries with
  | [] => Some sum
  | (_, amount) :: rest =>
      if (- 2 ^ 127 <=? sum + amount) && (sum + amount <=? 2 ^ 127 - 1)
      then i128_sum rest (sum + amount) else None
  end.

(** The guard of [insert_owned_ledger_transaction]. *)
Definition ledger_guard (entries : list LedgerEntry) : result unit StoreError :=
  if bool_decide (entries = []) || existsb (fun e => snd e =? 0) entries
     || bool_decide (i128_sum entries 0 <> Some 0)
  then Err UnbalancedLedger else Ok tt.

(** The [payout_reserved] entries: each liability moves from payable to pending. *)
Fixpoint reservation_entries (outputs : list PayoutInstruction)
    : result (list LedgerEntry) StoreError :=
  match outputs with
  | [] => Ok []
  | output :: rest =>
      let? liability := as_i64 (liability_amount_zat output) in
      let? entries := reservation_entries rest in
      Ok ((Some (pi_account_id output), "miner_payable"%string, liability)
          :: (Some (pi_account_id output), "payout_pending"%string, - liability) :: entries)
  end.

Fixpoint confirmation_lines (outputs : list PayoutInstruction) (fee_contributions : list Z)
    : result (list LedgerEntry) StoreError :=
  match outputs, fee_contributions with
  | output :: outputs', fee_contribution :: contributions' =>
      let? liability := as_i64 (liability_amount_zat output) in
      let? reserved_fee := ok_or (checked_sub (liability_amount_zat output) (amount_zat output))
                             (CorruptDatabaseState "payout fee contribution") in
      let? refund := ok_or (checked_sub reserved_fee fee_contribution)
                       (CorruptDatabaseState "actual payout fee contribution") in
      let? refund_line :=
        (if 0 <? refund then
           let? r := as_i64 refund in
           Ok [(Some (pi_account_id output), "miner_payable"%string, - r)]
         else Ok []) in
      let? entries := confirmation_lines outputs' contributions' in
      Ok ((Some (pi_account_id output), "payout_pending"%string, liability)
          :: refund_line ++ entries)
  | _, _ => Ok []
  end.

(** What a confirmed batch takes from the collector. *)
Definition confirmation_asset (batch : PlannedPayout) (fee : Z) : result Z StoreError :=
  let? total_asset := ok_or (checked_add U64_MAX (pp_payout_total_zat batch) fee) MoneyOverflow in
  if (pp_maximum_network_fee_zat batch <? fee) || (pp_miner_total_zat batch <? total_asset)
     || bool_decide (checked_add U64_MAX (pp_payout_total_zat batch)
                       (pp_maximum_network_fee_zat batch) <> Some (pp_miner_total_zat batch))
  then Err ExcessivePayoutFee
  else Ok total_asset.

(** The ledger side of [confirm_payout] for a batch whose signed transaction pays [fee]:
    [available_asset] and [outstanding_liabilities] are the sums the database reports. *)
Definition confirmation_entries (batch : PlannedPayout) (fee available_asset outstanding_liabilities : Z)
    : result (list LedgerEntry) StoreError :=
  let? total_asset := confirmation_asset batch fee in
  if (outstanding_liabilities <? 0) || (available_asset <? outstanding_liabilities)
  then Err CollectorReconciliationFailed
  else
    let? asset := as_i64 total_asset in
    if available_asset <? asset then Err CollectorReconciliationFailed else
    let? fee_contributions := allocate_actual_network_fee (pp_outputs batch) fee in
    let? lines := confirmation_lines (pp_outputs batch) fee_contributions in
    let? fee_lines :=
      (if 0 <? fee then
         let? f := as_i64 fee in
         Ok [(None, "network_fee_expense"%string, f);
             (None, "miner_network_fee_contribution"%string, - f)]
       else Ok []) in
    Ok (lines ++ fee_lines ++ [(None, "collector_spendable_asset"%string, - asset)]).

(** The code's own examples. *)
Definition output_of (account liability : Z) : PayoutInstruction :=
  mkPayoutInstruction (account + 100) account (account + 200) Transparent "t1" liability liability.

Example fee_reserve_and_actual_fee_rounding :
  exists outputs,
    deduct_network_fee_reserve [output_of 1 333; output_of 2 333; output_of 3 334] 101 = Ok outputs /\
    ((fun o => liability_amount_zat o - amount_zat o) <$> outputs) = [34; 33; 34] /\
    allocate_actual_network_fee outputs 37 = Ok [13; 12; 12].
Proof. eexists. split; [vm_compute; reflexivity|]. split; vm_compute; reflexivity. Qed.

Example production_privacy_policy :
  payout_cap_from_draws 100000000 10000000000 2000 0 U64_MAX = Ok None /\
  payout_cap_from_draws 100000000 10000000000 2000 U64_MAX 0 = Ok (Some 100000000) /\
  payout_cap_from_draws 100000000 10000000000 2000 U64_MAX U64_MAX = Ok (Some 10000000000) /\
  payout_cap_from_draws 0 400 5000 0 0 = Err InvalidChainPolicy /\
  payout_cap_from_draws 400 100 5000 0 0 = Err InvalidChainPolicy /\
  payout_cap_from_draws 100 400 10001 0 0 = Err InvalidChainPolicy.
Proof. vm_compute. done. Qed.

(** ** The fee splits *)

Lemma fee_order_key outputs rems i j :
  fee_order outputs rems i j =
  cmp_then (- (rems !!! i) ?= - (rems !!! j))
    (cmp_then ((pi_account_id <$> outputs) !!! i ?= (pi_account_id <$> outputs) !!! j)
       ((pi_allocation_id <$> outputs) !!! i ?= (pi_allocation_id <$> outputs) !!! j)).
Proof. unfold fee_order. by rewrite Z.compare_opp. Qed.

Lemma fee_order_total outputs rems i j :
  cmp_le (fee_order outputs rems i j) = false -> cmp_le (fee_order outputs rems j i) = true.
Proof.
  rewrite !fee_order_key.
  apply (cmp_then_total (fun i => - (rems !!! i)) (fun i j => cmp_then
    ((pi_account_id <$> outputs) !!! i ?= (pi_account_id <$> outputs) !!! j)
    ((pi_allocation_id <$> outputs) !!! i ?= (pi_allocation_id <$> outputs) !!! j))).
  apply (cmp_then_total (fun i => (pi_account_id <$> outputs) !!! i) (fun i j =>
    (pi_allocation_id <$> outputs) !!! i ?= (pi_allocation_id <$> outputs) !!! j)).
  apply cmp_le_Z_total.
Qed.

Lemma fee_order_trans outputs rems i j k :
  cmp_le (fee_order outputs rems i j) = true -> cmp_le (fee_order outputs rems j k) = true ->
  cmp_le (fee_order outputs rems i k) = true.
Proof.
  rewrite !fee_order_key.
  apply (cmp_then_trans (fun i => - (rems !!! i)) (fun i j => cmp_then
    ((pi_account_id <$> outputs) !!! i ?= (pi_account_id <$> outputs) !!! j)
    ((pi_allocation_id <$> outputs) !!! i ?= (pi_allocation_id <$> outputs) !!! j))).
  apply (cmp_then_trans (fun i => (pi_account_id <$> outputs) !!! i) (fun i j =>
    (pi_allocation_id <$> outputs) !!! i ?= (pi_allocation_id <$> outputs) !!! j)).
  rewrite !cmp_le_Z. lia.
Qed.

Lemma fee_order_rem outputs rems i j :
  cmp_le (fee_order outputs rems i j) = true -> rems !!! j <= rems !!! i.
Proof. unfold fee_order. rewrite cmp_then_Z. lia. Qed.

Definition liabilities (outputs : list PayoutInstruction) : list Z :=
  liability_amount_zat <$> outputs.

(** What a payout output holds back for the fee. *)
Definition reserve_of (o : PayoutInstruction) : Z := liability_amount_zat o - amount_zat o.

Lemma liability_total_spec outputs sum :
  Forall (fun o => 0 <= liability_amount_zat o) outputs -> 0 <= sum <= U64_MAX ->
  match liability_total outputs sum with
  | Ok t => t = sum + sumZ (liabilities outputs) /\ t <= U64_MAX /\
            Forall (fun o => 0 < liability_amount_zat o /\ amount_zat o = liability_amount_zat o) outputs
  | Err e => e = InvalidPayoutBatch /\
               ~ Forall (fun o => 0 < liability_amount_zat o /\ amount_zat o = liability_amount_zat o) outputs
             \/ e = MoneyOverflow /\ U64_MAX < sum + sumZ (liabilities outputs)
  end.
Proof.
  intros Hnn. revert sum. induction Hnn as [|o outputs Ho Hnn IH]; intros sum Hs; cbn [liability_total].
  { split_and!; [unfold sumZ; simpl; lia|lia|constructor]. }
  simpl in Ho. assert (0 <= sumZ (liabilities outputs)) by (by apply sumZ_nonneg, Forall_fmap).
  change (sumZ (liabilities (o :: outputs))) with (liability_amount_zat o + sumZ (liabilities outputs)).
  destruct (Z.eqb_spec (liability_amount_zat o) 0) as [Hz|Hz].
  { left. split; [done|]. rewrite Forall_cons. lia. }
  destruct (Z.eqb_spec (amount_zat o) (liability_amount_zat o)) as [Hq|Hq]; cbn [orb negb].
  2:{ left. split; [done|]. rewrite Forall_cons. lia. }
  unfold checked_add, ok_or. destruct (Z.leb_spec (sum + liability_amount_zat o) U64_MAX).
  - specialize (IH (sum + liability_amount_zat o) ltac:(lia)).
    destruct (liability_total outputs _) as [t|e]; rewrite Forall_cons.
    + destruct IH as (-> & Hle & Hall). split_and!; [lia|lia|lia|lia|done].
    + destruct IH as [[-> Hn]|[-> Hn]]; [left; tauto|right; split; [done|lia]].
  - right. split; [done|lia].
Qed.

Lemma apply_reserve_Ok outputs cs :
  length cs = length outputs ->
  (forall i o c, outputs !! i = Some o -> cs !! i = Some c -> c < liability_amount_zat o) ->
  apply_reserve outputs cs =
    Ok (zip_with (fun o c => set_amount o (liability_amount_zat o - c)) outputs cs).
Proof.
  revert cs; induction outputs as [|o outputs IH]; intros [|c cs] Hlen Hlt; try done.
  cbn [apply_reserve zip_with]. pose proof (Hlt 0%nat o c eq_refl eq_refl).
  unfold checked_sub, ok_or. rewrite (proj2 (Z.leb_le _ _)), (proj2 (Z.ltb_lt _ _)) by lia.
  rewrite IH; [done|by injection Hlen|]. intros i. apply (Hlt (S i)).
Qed.

Lemma zip_with_reserves outputs cs :
  length cs = length outputs ->
  reserve_of <$> zip_with (fun o c => set_amount o (liability_amount_zat o - c)) outputs cs = cs /\
  liabilities (zip_with (fun o c => set_amount o (liability_amount_zat o - c)) outputs cs) =
    liabilities outputs.
Proof.
  unfold liabilities. revert cs; induction outputs as [|o outputs IH]; intros [|c cs] Hlen; try done.
  cbn [zip_with]. rewrite !fmap_cons. destruct (IH cs ltac:(by injection Hlen)) as [-> ->].
  split; [|done]. f_equal. unfold reserve_of. simpl. lia.
Qed.

(** The precondition of a fee reserve: untouched outputs, all above the fee. *)
Definition reservable (outputs : list PayoutInstruction) (fee : Z) : Prop :=
  outputs <> [] /\ 0 < fee /\ sumZ (liabilities outputs) <= U64_MAX /\
  Forall (fun o => amount_zat o = liability_amount_zat o /\ fee < liability_amount_zat o) outputs.

(** The reserved outputs: only the amounts change, they stay positive, the reserves add up to
    the fee, and each is the proportional part of the fee rounded down or up. *)
Definition reserved (outputs outputs' : list PayoutInstruction) (fee : Z) : Prop :=
  length outputs' = length outputs /\
  sumZ (reserve_of <$> outputs') = fee /\ liabilities outputs' = liabilities outputs /\
  (forall i o o', outputs !! i = Some o -> outputs' !! i = Some o' ->
     o' = set_amount o (amount_zat o') /\ 0 < amount_zat o' /\ 0 <= reserve_of o' /\
     (reserve_of o' = fee * liability_amount_zat o / sumZ (liabilities outputs) \/
      reserve_of o' = fee * liability_amount_zat o / sumZ (liabilities outputs) + 1)).

Lemma reservable_total outputs fee :
  reservable outputs fee -> liability_total outputs 0 = Ok (sumZ (liabilities outputs)).
Proof.
  intros (_ & Hfee & Hmax & Hall).
  assert (Forall (fun o => 0 <= liability_amount_zat o) outputs) as Hnn
    by (eapply Forall_impl; [exact Hall|]; intros o [_ ?]; simpl; lia).
  pose proof (liability_total_spec outputs 0 Hnn ltac:(widths; lia)) as Ht.
  destruct (liability_total outputs 0) as [t|e]; [by destruct Ht as (-> & _ & _)|exfalso].
  destruct Ht as [[_ Hn]|[_ Hn]]; [|lia]. apply Hn.
  eapply Forall_impl; [exact Hall|]. intros o [? ?]. simpl. lia.
Qed.

Lemma reservable_above outputs fee :
  reservable outputs fee -> existsb (fun o => liability_amount_zat o <=? fee) outputs = false.
Proof.
  intros (_ & _ & _ & Hall). apply not_true_iff_false. intros (o & Ho & Hle)%existsb_exists. boolprop.
  rewrite Forall_forall in Hall. destruct (Hall o) as [_ Hlt]; [by apply list_elem_of_In|]. lia.
Qed.

Lemma reservable_split outputs fee :
  reservable outputs fee ->
  exists outputs', deduct_network_fee_reserve outputs fee = Ok outputs' /\
    reserved outputs outputs' fee.
Proof.
  intros Hr. pose proof Hr as (Hne & Hfee & Hmax & Hall).
  assert (Forall (fun w => 0 <= w) (liabilities outputs)) as Hnn'
    by (apply Forall_fmap; eapply Forall_impl; [exact Hall|]; intros o [_ ?]; simpl; lia).
  set (T := sumZ (liabilities outputs)) in *.
  assert (fee < T) as HT.
  { destruct outputs as [|o os]; [done|]. apply Forall_cons in Hall as [[_ Ho] _].
    pose proof (sumZ_parts_le _ 0 (liability_amount_zat o) Hnn' eq_refl). fold T in H. lia. }
  destruct (largest_remainder_apportions MoneyOverflow
    (CorruptDatabaseState "payout fee reserve rounding") fee T (liabilities outputs)
    (fee_order outputs) ltac:(lia) ltac:(lia) eq_refl Hnn'
    (fee_order_total _ _) (fee_order_trans _ _) (fee_order_rem _ _)) as (cs & Hlr & Happ).
  pose proof Happ as (Hlen & Hsum & Hval & _). unfold liabilities in Hlen. rewrite length_fmap in Hlen.
  assert (forall i o c, outputs !! i = Some o -> cs !! i = Some c -> 0 <= c < liability_amount_zat o) as Hc.
  { intros i o c Ho Hci. rewrite Forall_lookup in Hall. destruct (Hall i o Ho) as [_ Hlt].
    pose proof (apportionment_le_total fee T (liabilities outputs) ltac:(lia) ltac:(lia) Hnn'
      _ cs i c Happ Hci). lia. }
  exists (zip_with (fun o c => set_amount o (liability_amount_zat o - c)) outputs cs).
  destruct (zip_with_reserves outputs cs Hlen) as [Hres Hliab]. split.
  - unfold deduct_network_fee_reserve. rewrite bool_decide_eq_false_2 by done.
    rewrite (proj2 (Z.eqb_neq _ _)) by lia. cbn [orb].
    rewrite (reservable_total _ _ Hr). fold T. rewrite (proj2 (Z.leb_gt _ _)) by lia.
    rewrite (reservable_above _ _ Hr). cbn [orb]. unfold liabilities in Hlr. rewrite Hlr.
    apply apply_reserve_Ok; [done|]. intros i o c Ho Hci. by apply (Hc i).
  - unfold reserved. rewrite Hres, Hliab, length_zip_with_l_eq by done. split_and!; try done.
    intros i o o' Ho Ho'. apply lookup_zip_with_Some in Ho' as (o1 & c & -> & Ho1 & Hci).
    simplify_eq. unfold reserve_of. simpl. pose proof (Hc i o c Ho Hci).
    replace (liability_amount_zat o - (liability_amount_zat o - c)) with c by lia.
    split_and!; [done|lia|lia|].
    assert (liabilities outputs !! i = Some (liability_amount_zat o)) as Hw
      by (unfold liabilities; by rewrite list_lookup_fmap, Ho).
    destruct (Hval i _ _ Hw Hci) as [|[? _]]; [by left|by right].
Qed.

Lemma not_reservable_err outputs fee :
  Forall (fun o => 0 <= liability_amount_zat o) outputs -> 0 <= fee -> ~ reservable outputs fee ->
  exists e, deduct_network_fee_reserve outputs fee = Err e /\
    (e = InvalidPayoutBatch \/ e = MoneyOverflow \/ e = ExcessivePayoutFee).
Proof.
  intros Hnn Hfee Hnot. unfold deduct_network_fee_reserve.
  case_bool_decide as He; [eexists; split; [done|by left]|].
  destruct (Z.eqb_spec fee 0); [eexists; split; [done|by left]|]. cbn [orb].
  pose proof (liability_total_spec outputs 0 Hnn ltac:(widths; lia)) as Ht.
  destruct (liability_total outputs 0) as [t|e].
  - destruct (_ || _)%bool eqn:Hg; [eexists; split; [done|by right; right]|exfalso].
    apply orb_false_iff in Hg as [Hg1 Hg2]. boolprop. apply Hnot.
    destruct Ht as (-> & Hmax & Hall). split_and!; [done|lia|lia|].
    apply Forall_forall. intros o Ho. rewrite Forall_forall in Hall. split; [by apply Hall|].
    destruct (Z.lt_ge_cases fee (liability_amount_zat o)); [done|exfalso].
    assert (existsb (fun o => liability_amount_zat o <=? fee) outputs = true) as Hx; [|congruence].
    apply existsb_exists. exists o. split; [by apply list_elem_of_In|]. by apply Z.leb_le.
  - eexists; split; [done|]. destruct Ht as [[-> _]|[-> _]]; auto.
Qed.

Lemma fee_reserves_spec outputs total :
  Forall (fun o => 0 <= amount_zat o <= liability_amount_zat o) outputs -> 0 <= total ->
  total + sumZ (reserve_of <$> outputs) <= U64_MAX ->
  fee_reserves outputs total = Ok (reserve_of <$> outputs, total + sumZ (reserve_of <$> outputs)).
Proof.
  intros Hall. revert total. induction Hall as [|o outputs Ho Hall IH]; intros total Ht Hmax.
  { cbn [fee_reserves]. unfold sumZ; simpl. by rewrite Z.add_0_r. }
  simpl in Ho. rewrite fmap_cons, sumZ_cons in *.
  assert (0 <= sumZ (reserve_of <$> outputs)).
  { apply sumZ_nonneg, Forall_fmap. eapply Forall_impl; [exact Hall|]. intros x Hx.
    unfold reserve_of. simpl in *. lia. }
  cbn [fee_reserves]. unfold checked_sub, checked_add, ok_or.
  assert (0 <= reserve_of o) by (unfold reserve_of; lia).
  change (liability_amount_zat o - amount_zat o) with (reserve_of o).
  rewrite (proj2 (Z.leb_le _ _)) by lia.
  rewrite (proj2 (Z.leb_le _ _)) by lia. rewrite IH by lia. cbn [fst snd]. by rewrite <- Z.add_assoc.
Qed.

(** The actual fee is split over the reserves, never above them. *)
Lemma allocate_actual_fee_split outputs fee :
  Forall (fun o => 0 <= amount_zat o <= liability_amount_zat o) outputs ->
  sumZ (reserve_of <$> outputs) <= U64_MAX -> 0 < fee <= sumZ (reserve_of <$> outputs) ->
  exists cs, allocate_actual_network_fee outputs fee = Ok cs /\
    length cs = length outputs /\ sumZ cs = fee /\
    (forall i o c, outputs !! i = Some o -> cs !! i = Some c ->
       0 <= c <= reserve_of o /\
       (c = fee * reserve_of o / sumZ (reserve_of <$> outputs) \/
        c = fee * reserve_of o / sumZ (reserve_of <$> outputs) + 1)).
Proof.
  intros Hall Hmax Hfee. set (rs := reserve_of <$> outputs) in *.
  assert (Forall (fun w => 0 <= w) rs) as Hnn.
  { apply Forall_fmap. eapply Forall_impl; [exact Hall|]. intros o Ho. unfold reserve_of. simpl in *. lia. }
  destruct (largest_remainder_apportions MoneyOverflow
    (CorruptDatabaseState "actual payout fee rounding") fee (sumZ rs) rs
    (fee_order outputs) ltac:(lia) ltac:(lia) eq_refl Hnn
    (fee_order_total _ _) (fee_order_trans _ _) (fee_order_rem _ _)) as (cs & Hlr & Happ).
  pose proof Happ as (Hlen & Hsum & Hval & _).
  assert (forall i r c, rs !! i = Some r -> cs !! i = Some c -> 0 <= c <= r) as Hle.
  { intros i r c Hr Hc. by apply (apportionment_le_weight fee (sumZ rs) rs ltac:(lia) ltac:(lia) Hnn
      _ cs i r c ltac:(lia) Happ). }
  exists cs. split_and!.
  - unfold allocate_actual_network_fee. rewrite fee_reserves_spec by (done || (fold rs; lia)).
    fold rs. rewrite Z.add_0_l, !(proj2 (Z.eqb_neq _ _)), (proj2 (Z.ltb_ge _ _)) by lia.
    cbn [orb]. rewrite Hlr. replace (existsb _ _) with false; [done|].
    symmetry. apply not_true_iff_false. intros ([c r] & Hin & Hlt)%existsb_exists. simpl in Hlt. boolprop.
    apply list_elem_of_In, list_elem_of_lookup_1 in Hin as (i & Hi).
    apply lookup_zip_Some in Hi as [Hc Hr]. specialize (Hle i r c Hr Hc). lia.
  - rewrite Hlen. unfold rs. by rewrite length_fmap.
  - done.
  - intros i o c Ho Hc. assert (rs !! i = Some (reserve_of o)) as Hr
      by (unfold rs; by rewrite list_lookup_fmap, Ho).
    split; [by eapply Hle|]. destruct (Hval i _ _ Hr Hc) as [|[? _]]; [by left|by right].
Qed.

(** ** Planning *)

Lemma foldl_min_le l x : foldl Z.min x l <= x /\ Forall (fun y => foldl Z.min x l <= y) l.
Proof.
  revert x; induction l as [|y l IH]; intros x; cbn [foldl]; [split; [lia|constructor]|].
  destruct (IH (Z.min x y)) as [H1 H2]. split; [lia|]. constructor; [lia|done].
Qed.

Lemma smallest_liability_spec outputs s :
  smallest_liability outputs = Some s -> Forall (fun o => s <= liability_amount_zat o) outputs.
Proof.
  unfold smallest_liability. destruct outputs as [|o outputs]; [done|]. rewrite fmap_cons.
  intros [= <-]. destruct (foldl_min_le (liability_amount_zat <$> outputs) (liability_amount_zat o))
    as [H1 H2]. constructor; [done|]. rewrite Forall_fmap in H2. exact H2.
Qed.

Lemma try_sum_spec l s :
  Forall (fun x => 0 <= x) l -> 0 <= s -> s + sumZ l <= U64_MAX -> try_sum l s = Ok (s + sumZ l).
Proof.
  intros Hl. revert s. induction Hl as [|x l Hx Hl IH]; intros s Hs Hmax; cbn [try_sum].
  { unfold sumZ; simpl. by rewrite Z.add_0_r. }
  simpl in Hx. rewrite sumZ_cons in *. pose proof (sumZ_nonneg l Hl). unfold checked_add, ok_or.
  rewrite (proj2 (Z.leb_le _ _)) by lia. rewrite IH by lia. by rewrite Z.add_assoc.
Qed.

(** The rows the database query returns: positive balances and known receiver kinds. *)
Definition row_ok (row : PayoutRow) : Prop :=
  0 < row_amount_zat row /\ exists k, ReceiverKind_parse (row_receiver_kind row) = Ok k.

Definition capped (cap : Z) (row : PayoutRow) : Z :=
  payout_amount_for_liability (row_amount_zat row) cap.

Lemma capped_bound cap row : 0 < cap -> 0 < row_amount_zat row ->
  0 < capped cap row <= cap /\ capped cap row <= row_amount_zat row.
Proof. intros. unfold capped, payout_amount_for_liability. destruct (Z.ltb_spec (row_amount_zat row) cap); lia. Qed.

Lemma select_outputs_spec rows cap total :
  0 < cap -> Forall row_ok rows -> 0 <= total -> total + sumZ (capped cap <$> rows) <= U64_MAX ->
  exists outputs, select_outputs rows cap total = Ok (outputs, total + sumZ (capped cap <$> rows)) /\
    liabilities outputs = capped cap <$> rows /\
    pi_account_id <$> outputs = row_account_id <$> rows /\
    Forall (fun o => amount_zat o = liability_amount_zat o) outputs.
Proof.
  intros Hcap Hrows. revert total.
  induction Hrows as [|row rows [Hpos [k Hk]] Hrows IH]; intros total Ht Hmax.
  { exists []. cbn [select_outputs]. rewrite fmap_nil. unfold sumZ; simpl. rewrite Z.add_0_r.
    split_and!; done. }
  rewrite fmap_cons, sumZ_cons in *. pose proof (capped_bound cap row Hcap Hpos).
  assert (0 <= sumZ (capped cap <$> rows)).
  { apply sumZ_nonneg, Forall_fmap. eapply Forall_impl; [exact Hrows|]. intros r [Hr _]. simpl.
    pose proof (capped_bound cap r Hcap Hr). lia. }
  destruct (IH (total + capped cap row)) as (outputs & Hsel & Hl & Ha & Hall); [lia|lia|].
  cbn [select_outputs]. rewrite (proj2 (Z.ltb_ge _ _)) by lia. fold (capped cap row).
  unfold checked_add, ok_or. rewrite (proj2 (Z.leb_le _ _)) by lia. rewrite Hk, Hsel. cbn [fst snd].
  eexists. split; [by rewrite Z.add_assoc|]. unfold liabilities in *. rewrite !fmap_cons, Hl, Ha.
  split_and!; [done|done|]. by constructor.
Qed.

(** The fee a batch may reserve. *)
Definition fee_budget (rows : list PayoutRow) (cap absolute bps : Z) : Z :=
  let liabilities := capped cap <$> rows in
  Z.min (Z.min absolute (sumZ liabilities * bps / 10000))
    (match liabilities with [] => 0 | l :: ls => foldl Z.min l ls - 1 end).

(** A batch with its fee set aside: positive outputs and exact totals. *)
Definition batch_wf (b : PlannedPayout) : Prop :=
  Forall (fun o => 0 < amount_zat o <= liability_amount_zat o) (pp_outputs b) /\
  pp_outputs b <> [] /\ 0 < pp_maximum_network_fee_zat b /\
  sumZ (liabilities (pp_outputs b)) = pp_miner_total_zat b /\
  sumZ (amount_zat <$> pp_outputs b) = pp_payout_total_zat b /\
  sumZ (reserve_of <$> pp_outputs b) = pp_maximum_network_fee_zat b /\
  pp_payout_total_zat b + pp_maximum_network_fee_zat b = pp_miner_total_zat b /\
  pp_miner_total_zat b <= U64_MAX.

Lemma sumZ_reserves outputs :
  sumZ (reserve_of <$> outputs) = sumZ (liabilities outputs) - sumZ (amount_zat <$> outputs).
Proof.
  unfold liabilities, sumZ. induction outputs as [|o outputs IH]; [done|].
  rewrite !fmap_cons. cbn [foldr]. rewrite IH. unfold reserve_of. lia.
Qed.

Lemma plan_payout_batch_Ok rows cap absolute bps :
  rows <> [] -> Forall row_ok rows -> 0 < cap -> 0 <= absolute -> 0 <= bps <= 10000 ->
  sumZ (capped cap <$> rows) <= U64_MAX -> 0 < fee_budget rows cap absolute bps ->
  exists b, plan_payout_batch rows cap absolute bps = Ok b /\ batch_wf b /\
    liabilities (pp_outputs b) = capped cap <$> rows /\
    pp_maximum_network_fee_zat b = fee_budget rows cap absolute bps.
Proof.
  intros Hne Hrows Hcap Habs Hbps Hmax Hbudget.
  destruct (select_outputs_spec rows cap 0 Hcap Hrows ltac:(lia) Hmax) as (os & Hsel & Hl & _ & Heq).
  rewrite Z.add_0_l in Hsel. set (T := sumZ (capped cap <$> rows)) in *.
  set (F := fee_budget rows cap absolute bps) in *.
  destruct (smallest_liability os) as [s|] eqn:Hs.
  2:{ unfold smallest_liability in Hs. change (liability_amount_zat <$> os) with (liabilities os) in Hs.
      rewrite Hl in Hs. by destruct rows. }
  assert (F = Z.min (Z.min absolute (T * bps / 10000)) (s - 1)) as HF.
  { unfold F, fee_budget. fold T. unfold smallest_liability in Hs.
    change (liability_amount_zat <$> os) with (liabilities os) in Hs. rewrite Hl in Hs.
    destruct (capped cap <$> rows); simplify_eq. done. }
  assert (reservable os F) as Hr.
  { split_and!; [|done|by rewrite Hl|].
    - intros ->. by destruct rows.
    - apply smallest_liability_spec in Hs. apply Forall_forall. intros o Ho.
      rewrite Forall_forall in Heq, Hs. split; [by apply Heq|]. specialize (Hs o Ho). simpl in Hs. lia. }
  destruct (reservable_split os F Hr) as (os' & Hded & Hlen & Hsum & Hl' & Hrows').
  assert (Forall (fun o => 0 < amount_zat o <= liability_amount_zat o) os') as Hpos.
  { apply Forall_lookup. intros i o' Ho'. destruct (lookup_lt_is_Some_2 os i) as [o Ho].
    { rewrite <- Hlen. by eapply lookup_lt_Some. }
    destruct (Hrows' i o o' Ho Ho') as (_ & H1 & H2 & _). unfold reserve_of in H2. lia. }
  assert (sumZ (amount_zat <$> os') = T - F) as Hamt
    by (pose proof (sumZ_reserves os') as Hx; rewrite Hsum, Hl', Hl in Hx; unfold T; lia).
  assert (0 <= T) as HT0.
  { unfold T. rewrite <- Hl, <- Hl'. apply sumZ_nonneg, Forall_fmap.
    eapply Forall_impl; [exact Hpos|]. intros o Ho. simpl in *. lia. }
  exists (mkPlannedPayout os' (T - F) F T). split; [|split].
  - unfold plan_payout_batch. rewrite Hsel.
    assert (T * bps / 10000 <= T) by (apply Z.div_le_upper_bound; nia).
    rewrite (proj2 (Z.ltb_ge _ _)) by lia. rewrite Hs. unfold ok_or, saturating_sub.
    replace (Z.min (Z.min absolute (T * bps / 10000)) (Z.max 0 (s - 1))) with F by lia.
    rewrite (proj2 (Z.eqb_neq _ _)) by lia. rewrite Hded.
    rewrite try_sum_spec; [|apply Forall_fmap; eapply Forall_impl; [exact Hpos|]; intros ? ?; simpl in *; lia|lia|lia].
    rewrite Hamt, Z.add_0_l. rewrite bool_decide_eq_true_2; [done|]. unfold checked_add.
    rewrite (proj2 (Z.leb_le _ _)) by lia. f_equal. lia.
  - unfold batch_wf; simpl. rewrite Hl', Hl. split_and!; try done; [|lia].
    intros ->. apply Hne. destruct os; [|done]. by destruct rows.
  - simpl. by rewrite Hl', Hl.
Qed.

(** ** Ledger balance *)

Definition entry_sum (es : list LedgerEntry) : Z := sumZ (snd <$> es).
Definition entry_volume (es : list LedgerEntry) : Z := sumZ ((fun e => Z.abs (snd e)) <$> es).
Definition label_sum (label : string) (es : list LedgerEntry) : Z :=
  entry_sum (filter (fun e => snd (fst e) = label) es).

Lemma entry_sum_cons e es : entry_sum (e :: es) = snd e + entry_sum es.
Proof. done. Qed.
Lemma entry_volume_cons e es : entry_volume (e :: es) = Z.abs (snd e) + entry_volume es.
Proof. done. Qed.
Lemma label_sum_cons l e es :
  label_sum l (e :: es) = (if bool_decide (snd (fst e) = l) then snd e else 0) + label_sum l es.
Proof. unfold label_sum. rewrite filter_cons. case_bool_decide; by case_decide. Qed.

Lemma entry_sum_app es fs : entry_sum (es ++ fs) = entry_sum es + entry_sum fs.
Proof. unfold entry_sum. by rewrite fmap_app, sumZ_app. Qed.

Lemma label_sum_app l es fs : label_sum l (es ++ fs) = label_sum l es + label_sum l fs.
Proof. unfold label_sum. by rewrite filter_app, entry_sum_app. Qed.

Lemma entry_volume_app es fs : entry_volume (es ++ fs) = entry_volume es + entry_volume fs.
Proof. unfold entry_volume. by rewrite fmap_app, sumZ_app. Qed.

Lemma label_sum_nil l : label_sum l [] = 0.
Proof. done. Qed.

(** Evaluate the sums of explicit ledger entries. *)
Ltac ledger_sums :=
  repeat progress rewrite ?entry_sum_app, ?entry_volume_app, ?label_sum_app,
    ?entry_sum_cons, ?entry_volume_cons, ?label_sum_cons, ?label_sum_nil; cbn [fst snd];
  change (entry_sum []) with 0; change (entry_volume []) with 0;
  repeat first [ rewrite bool_decide_eq_true_2 by reflexivity
               | rewrite bool_decide_eq_false_2 by discriminate ].

Lemma i128_sum_spec es s :
  Z.abs s + entry_volume es < 2 ^ 127 -> i128_sum es s = Some (s + entry_sum es).
Proof.
  revert s; induction es as [|[k a] es IH]; intros s Hs; cbn [i128_sum].
  { unfold entry_sum, sumZ; simpl. by rewrite Z.add_0_r. }
  rewrite entry_volume_cons, entry_sum_cons in *. cbn [snd] in *.
  assert (0 <= entry_volume es)
    by (apply sumZ_nonneg, Forall_fmap, Forall_true; intros e; simpl; lia).
  rewrite !(proj2 (Z.leb_le _ _)) by lia. cbn [andb]. rewrite IH by lia. f_equal. lia.
Qed.

Lemma ledger_guard_Ok es :
  es <> [] -> Forall (fun e => snd e <> 0) es -> entry_sum es = 0 -> entry_volume es < 2 ^ 127 ->
  ledger_guard es = Ok tt.
Proof.
  intros Hne Hnz Hsum Hvol. unfold ledger_guard. rewrite bool_decide_eq_false_2 by done.
  replace (existsb _ es) with false.
  2:{ symmetry. apply not_true_iff_false. intros (e & He & Hz)%existsb_exists. boolprop.
      rewrite Forall_forall in Hnz. apply (Hnz e); [by apply list_elem_of_In|done]. }
  rewrite i128_sum_spec by (simpl Z.abs; lia). rewrite Hsum. rewrite bool_decide_eq_false_2; [done|].
  by intros [].
Qed.

Lemma reservation_entries_spec outputs :
  Forall (fun o => 0 < liability_amount_zat o <= I64_MAX) outputs ->
  exists es, reservation_entries outputs = Ok es /\ entry_sum es = 0 /\
    entry_volume es = 2 * sumZ (liabilities outputs) /\ Forall (fun e => snd e <> 0) es /\
    (outputs <> [] -> es <> []) /\
    label_sum "miner_payable" es = sumZ (liabilities outputs) /\
    label_sum "payout_pending" es = - sumZ (liabilities outputs).
Proof.
  induction 1 as [|o outputs Ho _ (es & He & Hs & Hv & Hnz & _ & Hp & Hq)]; [by exists []|].
  simpl in Ho. cbn [reservation_entries]. unfold as_i64. rewrite (proj2 (Z.leb_le _ _)), He by lia.
  eexists. split; [done|].
  change (sumZ (liabilities (o :: outputs))) with (liability_amount_zat o + sumZ (liabilities outputs)).
  ledger_sums. split_and!; [lia|lia| |done|lia|lia].
  repeat (apply Forall_cons; split; simpl; [lia|]). done.
Qed.

Lemma confirmation_lines_spec outputs cs :
  length cs = length outputs ->
  Forall (fun o => 0 <= amount_zat o <= liability_amount_zat o /\
                   0 < liability_amount_zat o <= I64_MAX) outputs ->
  (forall i o c, outputs !! i = Some o -> cs !! i = Some c -> 0 <= c <= reserve_of o) ->
  exists es, confirmation_lines outputs cs = Ok es /\
    entry_sum es = sumZ (liabilities outputs) - sumZ (reserve_of <$> outputs) + sumZ cs /\
    entry_volume es <= 2 * sumZ (liabilities outputs) /\ Forall (fun e => snd e <> 0) es /\
    label_sum "payout_pending" es = sumZ (liabilities outputs) /\
    label_sum "miner_payable" es = sumZ cs - sumZ (reserve_of <$> outputs) /\
    label_sum "collector_spendable_asset" es = 0.
Proof.
  intros Hlen Hall. revert cs Hlen.
  induction Hall as [|o outputs [Ha Hl] _ IH]; intros [|c cs] Hlen Hc; try done; [by exists []|].
  destruct (IH cs ltac:(by injection Hlen) (fun i => Hc (S i))) as (es & He & Hs & Hv & Hnz & Hp & Hm & Hk).
  pose proof (Hc 0%nat o c eq_refl eq_refl) as Hco. cbn [confirmation_lines]. unfold as_i64, checked_sub.
  rewrite !(proj2 (Z.leb_le _ _)) by (unfold reserve_of in Hco; lia). cbn [ok_or].
  change (liability_amount_zat o - amount_zat o) with (reserve_of o).
  rewrite (proj2 (Z.leb_le c _)) by lia. cbn [ok_or].
  change (sumZ (liabilities (o :: outputs))) with (liability_amount_zat o + sumZ (liabilities outputs)).
  rewrite fmap_cons, !sumZ_cons. assert (reserve_of o <= liability_amount_zat o) by (unfold reserve_of; lia).
  destruct (Z.ltb_spec 0 (reserve_of o - c)).
  - rewrite (proj2 (Z.leb_le _ _)), He by lia. eexists. split; [done|].
    cbn [app]. ledger_sums. split_and!; [lia|lia| |lia|lia|lia].
    repeat (apply Forall_cons; split; simpl; [lia|]). done.
  - rewrite He. eexists. split; [done|].
    cbn [app]. ledger_sums. split_and!; [lia|lia| |lia|lia|lia].
    apply Forall_cons; split; simpl; [lia|done].
Qed.

Lemma reserved_wf outputs outputs' fee :
  reserved outputs outputs' fee ->
  Forall (fun o => 0 <= amount_zat o <= liability_amount_zat o) outputs'.
Proof.
  intros (Hlen & _ & _ & Hall). apply Forall_lookup. intros i o' Ho'.
  destruct (lookup_lt_is_Some_2 outputs i) as [o Ho]; [rewrite <- Hlen; by eapply lookup_lt_Some|].
  destruct (Hall i o o' Ho Ho') as (_ & H1 & H2 & _). unfold reserve_of in H2. lia.
Qed.

(** The draw scaled into [0, span) by a 64-bit multiply-shift. *)
Lemma scaled_draw_bound draw span :
  0 <= draw <= U64_MAX -> 0 < span <= U64_MAX ->
  Z.shiftr (draw * span) 64 mod 2 ^ 64 = draw * span / 2 ^ 64 /\
  0 <= draw * span / 2 ^ 64 < span.
Proof.
  intros Hd Hs. rewrite Z.shiftr_div_pow2 by lia.
  assert (0 <= draw * span / 2 ^ 64 < span) as Hb.
  { split; [apply Z.div_pos; nia|]. apply Z.div_lt_upper_bound; [lia|]. widths. nia. }
  split; [|done]. apply Z.mod_small. widths. lia.
Qed.

Lemma skip_bucket_bound draw :
  0 <= draw <= U64_MAX ->
  Z.shiftr (draw * 10000) 64 mod 2 ^ 16 = draw * 10000 / 2 ^ 64 /\
  0 <= draw * 10000 / 2 ^ 64 < 10000.
Proof.
  intros Hd. destruct (scaled_draw_bound draw 10000 Hd ltac:(widths; lia)) as [_ Hb].
  rewrite Z.shiftr_div_pow2 by lia. split; [|done]. apply Z.mod_small. lia.
Qed.

(** Bounds every output of a reserved batch satisfies. *)
Lemma batch_outputs_bound b :
  batch_wf b -> pp_miner_total_zat b <= I64_MAX ->
  Forall (fun o => 0 <= amount_zat o <= liability_amount_zat o /\
                   0 < liability_amount_zat o <= I64_MAX) (pp_outputs b) /\
  0 < pp_payout_total_zat b.
Proof.
  intros (Hall & Hne & _ & Hl & Hp & _) Hi64. split.
  - apply Forall_lookup. intros i o Ho. rewrite Forall_lookup in Hall. pose proof (Hall i o Ho) as Hx.
    simpl in Hx. assert (liability_amount_zat o <= sumZ (liabilities (pp_outputs b))); [|lia].
    apply (sumZ_parts_le _ i); [|unfold liabilities; by rewrite list_lookup_fmap, Ho].
    apply Forall_fmap, Forall_lookup. intros j p Hj. pose proof (Hall j p Hj). simpl in *. lia.
  - rewrite <- Hp. destruct (pp_outputs b) as [|o os]; [done|]. rewrite fmap_cons, sumZ_cons.
    apply Forall_cons in Hall as [Ho Hos]. assert (0 <= sumZ (amount_zat <$> os)); [|lia].
    apply sumZ_nonneg, Forall_fmap. eapply Forall_impl; [exact Hos|]. intros ? ?; simpl in *; lia.
Qed.

Lemma reservation_balances b :
  batch_wf b -> pp_miner_total_zat b <= I64_MAX ->
  exists es, reservation_entries (pp_outputs b) = Ok es /\ ledger_guard es = Ok tt /\
    label_sum "miner_payable" es = pp_miner_total_zat b /\
    label_sum "payout_pending" es = - pp_miner_total_zat b.
Proof.
  intros Hwf Hi64. destruct (batch_outputs_bound b Hwf Hi64) as [Hall _].
  destruct Hwf as (_ & Hne & _ & Hl & _). unfold I64_MAX in Hi64.
  destruct (reservation_entries_spec (pp_outputs b)) as (es & H1 & H2 & H3 & H4 & H5 & H6 & H7).
  { eapply Forall_impl; [exact Hall|]. intros o [_ Ho]. exact Ho. }
  exists es. split_and!; [done| |lia|lia]. apply ledger_guard_Ok; [by apply H5|done|done|lia].
Qed.

Lemma confirmation_balances b fee available outstanding :
  batch_wf b -> pp_miner_total_zat b <= I64_MAX -> 0 < fee <= pp_maximum_network_fee_zat b ->
  0 <= outstanding <= available -> pp_payout_total_zat b + fee <= available ->
  exists es, confirmation_entries b fee available outstanding = Ok es /\ ledger_guard es = Ok tt /\
    label_sum "payout_pending" es = pp_miner_total_zat b /\
    label_sum "miner_payable" es = - (pp_maximum_network_fee_zat b - fee) /\
    label_sum "collector_spendable_asset" es = - (pp_payout_total_zat b + fee).
Proof.
  intros Hwf Hi64 Hfee Hcover Havail. destruct (batch_outputs_bound b Hwf Hi64) as [Hall Hpt].
  destruct Hwf as (_ & _ & _ & Hl & _ & Hr & Hsum & Hmax).
  destruct (allocate_actual_fee_split (pp_outputs b) fee) as (cs & Hcs & Hlen & Hcsum & Hle); [|lia|lia|].
  { eapply Forall_impl; [exact Hall|]. intros ? [? _]; simpl in *; lia. }
  destruct (confirmation_lines_spec (pp_outputs b) cs Hlen Hall) as (es & H1 & H2 & H3 & H4 & H5 & H6 & H7).
  { intros i o c Ho Hc. by apply (Hle i). }
  eexists. split.
  - unfold confirmation_entries, confirmation_asset, checked_add. rewrite !(proj2 (Z.leb_le _ _)) by lia. cbn [ok_or].
    rewrite !(proj2 (Z.ltb_ge _ _)) by lia. rewrite bool_decide_eq_false_2 by (rewrite Hsum; by intros []).
    cbn [orb]. unfold as_i64. rewrite !(proj2 (Z.leb_le _ _)) by lia.
    rewrite (proj2 (Z.ltb_ge _ _)) by lia. rewrite Hcs, H1, (proj2 (Z.ltb_lt _ _)) by lia. done.
  - unfold I64_MAX in Hi64. ledger_sums. split_and!; [|lia|lia|lia].
    apply ledger_guard_Ok; [by destruct es| |ledger_sums; lia|ledger_sums; lia].
    apply Forall_app. split; [done|]. repeat (apply Forall_cons; split; simpl; [lia|]). done.
Qed.

(** ** Properties *)

(** Setting a network fee aside never zeroes or misprices an output.  The reserve succeeds
    exactly for a non-empty batch of untouched outputs that all exceed a positive fee (and whose
    total fits 64 bits).  Then destinations and liabilities are unchanged, every output stays
    positive, the reserves add up to exactly the fee and each is the proportional part rounded
    down or up.  Every other batch is refused as invalid, overflowing or excessive; the
    corrupt-state error of the rounding is unreachable. *)
Theorem fee_reserve_keeps_outputs_positive (outputs : list PayoutInstruction) (fee : Z)
    (Hnn : Forall (fun o => 0 <= liability_amount_zat o) outputs) (Hfee : 0 <= fee) :
  (reservable outputs fee ->
   exists outputs', deduct_network_fee_reserve outputs fee = Ok outputs' /\
     reserved outputs outputs' fee) /\
  (~ reservable outputs fee ->
   exists e, deduct_network_fee_reserve outputs fee = Err e /\
     (e = InvalidPayoutBatch \/ e = MoneyOverflow \/ e = ExcessivePayoutFee)).
Proof. split; [apply reservable_split|by apply not_reservable_err]. Qed.

(** No miner is charged more network fee than was held back for them.  Once a fee has been
    reserved, any actual fee from one unit up to the reserve is split without error into
    per-output charges that add up to it exactly and never exceed the output's reserve, so every
    refund is non-negative; an actual fee of zero or above the reserve is refused. *)
Theorem actual_fee_within_reserve (outputs outputs' : list PayoutInstruction) (fee actual : Z)
    (Hres : reservable outputs fee) (Hded : deduct_network_fee_reserve outputs fee = Ok outputs')
    (Hactual : 0 <= actual) :
  (0 < actual <= fee ->
   exists cs, allocate_actual_network_fee outputs' actual = Ok cs /\
     length cs = length outputs' /\ sumZ cs = actual /\
     (forall i o c, outputs' !! i = Some o -> cs !! i = Some c -> 0 <= c <= reserve_of o)) /\
  (actual = 0 \/ fee < actual -> allocate_actual_network_fee outputs' actual = Err ExcessivePayoutFee).
Proof.
  destruct (reservable_split outputs fee Hres) as (os & Hok & Hr).
  rewrite Hded in Hok. injection Hok as <-. pose proof (reserved_wf _ _ _ Hr) as Hwf.
  pose proof Hr as (_ & Hsum & Hl & _). pose proof Hres as (_ & Hpos & Hmax & _).
  assert (fee <= U64_MAX) as Hfm.
  { pose proof (sumZ_reserves outputs') as Hx. rewrite Hsum, Hl in Hx.
    assert (0 <= sumZ (amount_zat <$> outputs')); [|lia].
    apply sumZ_nonneg, Forall_fmap. eapply Forall_impl; [exact Hwf|]. intros ? ?; simpl in *; lia. }
  split.
  - intros Ha. destruct (allocate_actual_fee_split outputs' actual Hwf) as (cs & H1 & H2 & H3 & H4);
      [lia|lia|]. exists cs. split_and!; try done. intros i o c Ho Hc. by apply (H4 i).
  - intros Hbad. unfold allocate_actual_network_fee.
    rewrite fee_reserves_spec by (done || lia). rewrite Hsum, Z.add_0_l.
    rewrite (proj2 (Z.eqb_neq fee 0)) by lia. cbn [orb].
    destruct Hbad as [->|Hgt]; [done|]. rewrite (proj2 (Z.ltb_lt _ _)) by lia. by rewrite orb_true_r.
Qed.

(** A planned batch pays what it reserves.  For the rows of the eligibility query, a payout
    cap and the two fee limits, the planner succeeds whenever the fee budget (the smallest of the
    absolute limit, the relative limit and the smallest liability minus one) is positive.  Each
    output settles the account's balance up to the cap, stays positive after its fee reserve, and
    output amounts plus reserved fee equal the liabilities exactly. *)
Theorem planned_batch_conserves (rows : list PayoutRow) (cap absolute bps : Z)
    (Hne : rows <> []) (Hrows : Forall row_ok rows) (Hcap : 0 < cap) (Habs : 0 <= absolute)
    (Hbps : 0 <= bps <= 10000) (Hmax : sumZ (capped cap <$> rows) <= U64_MAX)
    (Hbudget : 0 < fee_budget rows cap absolute bps) :
  exists b, plan_payout_batch rows cap absolute bps = Ok b /\ batch_wf b /\
    liabilities (pp_outputs b) = capped cap <$> rows /\
    pp_maximum_network_fee_zat b = fee_budget rows cap absolute bps /\
    Forall (fun row => 0 < capped cap row <= cap /\ capped cap row <= row_amount_zat row) rows.
Proof.
  destruct (plan_payout_batch_Ok rows cap absolute bps Hne Hrows Hcap Habs Hbps Hmax Hbudget)
    as (b & H1 & H2 & H3 & H4).
  exists b. split_and!; try done. eapply Forall_impl; [exact Hrows|]. intros row [Hr _].
  by apply capped_bound.
Qed.

(** Reservation and confirmation post balanced ledger transactions.  For a batch with its
    fee set aside whose total fits the database's signed 64-bit amounts, the reservation moves
    every liability from payable to pending; when the transaction confirms with any positive fee
    within the reserve and the collector holds enough, the entries release every liability from
    pending, return the unused reserve to miner payables, and debit the collector by exactly
    outputs plus fee.  Both entry lists pass the ledger's guard: no zero line, zero sum. *)
Theorem payout_ledger_balances (b : PlannedPayout) (fee available outstanding : Z)
    (Hwf : batch_wf b) (Hi64 : pp_miner_total_zat b <= I64_MAX)
    (Hfee : 0 < fee <= pp_maximum_network_fee_zat b)
    (Hcover : 0 <= outstanding <= available) (Havail : pp_payout_total_zat b + fee <= available) :
  (exists es, reservation_entries (pp_outputs b) = Ok es /\ ledger_guard es = Ok tt /\
     label_sum "miner_payable" es = pp_miner_total_zat b /\
     label_sum "payout_pending" es = - pp_miner_total_zat b) /\
  (exists es, confirmation_entries b fee available outstanding = Ok es /\ ledger_guard es = Ok tt /\
     label_sum "payout_pending" es = pp_miner_total_zat b /\
     label_sum "miner_payable" es = - (pp_maximum_network_fee_zat b - fee) /\
     label_sum "collector_spendable_asset" es = - (pp_payout_total_zat b + fee)).
Proof.
  split; [by apply reservation_balances|by apply confirmation_balances].
Qed.

(** A drawn payout cap respects the policy.  For a valid policy and any two 64-bit draws the
    function never fails: it skips exactly when the scaled skip draw falls below the configured
    basis points, and otherwise returns a cap between the policy's minimum and maximum.  Every
    cap of that interval is reachable by some draw, and an invalid policy is refused. *)
Theorem payout_cap_respects_policy (minimum maximum skip_bps skip_draw amount_draw : Z)
    (Hmin : 0 <= minimum) (Hmax : 0 <= maximum <= U64_MAX) (Hbps : 0 <= skip_bps <= U16_MAX)
    (Hskip : 0 <= skip_draw <= U64_MAX) (Hamount : 0 <= amount_draw <= U64_MAX) :
  let valid := 0 < minimum <= maximum /\ skip_bps <= 10000 in
  let skips := skip_draw * 10000 / 2 ^ 64 < skip_bps in
  (~ valid -> payout_cap_from_draws minimum maximum skip_bps skip_draw amount_draw =
                Err InvalidChainPolicy) /\
  (valid -> skips ->
     payout_cap_from_draws minimum maximum skip_bps skip_draw amount_draw = Ok None) /\
  (valid -> ~ skips ->
     (exists cap, payout_cap_from_draws minimum maximum skip_bps skip_draw amount_draw = Ok (Some cap) /\
        minimum <= cap <= maximum) /\
     (forall cap, minimum <= cap <= maximum -> exists draw, 0 <= draw <= U64_MAX /\
        payout_cap_from_draws minimum maximum skip_bps skip_draw draw = Ok (Some cap))).
Proof.
  cbv zeta. destruct (skip_bucket_bound skip_draw Hskip) as [Hsb _].
  assert (0 < minimum <= maximum -> skip_bps <= 10000 ->
    ~ skip_draw * 10000 / 2 ^ 64 < skip_bps -> forall draw, 0 <= draw <= U64_MAX ->
    payout_cap_from_draws minimum maximum skip_bps skip_draw draw =
      Ok (Some (minimum + draw * (maximum - minimum + 1) / 2 ^ 64))) as Hcap.
  { intros Hv Hb Hns draw Hd. unfold payout_cap_from_draws. rewrite Hsb.
    rewrite (proj2 (Z.eqb_neq _ _)), !(proj2 (Z.ltb_ge _ _)) by lia. cbn [orb].
    unfold checked_sub, checked_add, ok_or. rewrite !(proj2 (Z.leb_le _ _)) by lia.
    destruct (scaled_draw_bound draw (maximum - minimum + 1) Hd ltac:(lia)) as [-> Hlt].
    rewrite (proj2 (Z.leb_le _ _)) by lia. done. }
  split_and!.
  - intros Hv. unfold payout_cap_from_draws. destruct (Z.eqb_spec minimum 0); [done|].
    destruct (Z.ltb_spec maximum minimum); [done|]. destruct (Z.ltb_spec 10000 skip_bps); [done|].
    exfalso. apply Hv. lia.
  - intros [Hv Hb] Hs. unfold payout_cap_from_draws. rewrite Hsb.
    rewrite (proj2 (Z.eqb_neq _ _)), !(proj2 (Z.ltb_ge _ _)), (proj2 (Z.ltb_lt _ _)) by lia. done.
  - intros [Hv Hb] Hns. split.
    { destruct (scaled_draw_bound amount_draw (maximum - minimum + 1) Hamount ltac:(lia)) as [_ Hlt].
      eexists. split; [by apply Hcap|]. lia. }
    intros cap Hc. set (s := maximum - minimum + 1) in *. set (k := cap - minimum).
    set (d := (k * 2 ^ 64 + s - 1) / s).
    assert (0 < s <= U64_MAX) by lia. assert (0 <= k < s) by lia.
    pose proof (Z.div_mod (k * 2 ^ 64 + s - 1) s ltac:(lia)) as Hdm.
    pose proof (Z.mod_pos_bound (k * 2 ^ 64 + s - 1) s ltac:(lia)) as Hmb. fold d in Hdm.
    assert (0 <= d <= U64_MAX) as Hd by (widths; nia).
    exists d. split; [done|]. rewrite Hcap by done. do 2 f_equal.
    assert (d * s / 2 ^ 64 = k) as ->; [|lia].
    symmetry. apply (Z.div_unique _ _ _ (d * s - 2 ^ 64 * k)); [left; widths; nia|lia].
Qed.

(** ** Concrete runs *)

Definition demo_outputs : list PayoutInstruction := [output_of 1 333; output_of 2 333; output_of 3 334].

Lemma demo_reservable : reservable demo_outputs 101.
Proof.
  split; [discriminate|]. split; [lia|]. split; [vm_compute; congruence|].
  repeat constructor; simpl; lia.
Qed.

Lemma fee_reserve_keeps_outputs_positive_witness :
  exists outputs', deduct_network_fee_reserve demo_outputs 101 = Ok outputs' /\
    reserved demo_outputs outputs' 101.
Proof.
  refine (proj1 (fee_reserve_keeps_outputs_positive demo_outputs 101 _ _) demo_reservable);
    [repeat constructor; simpl; lia|lia].
Defined.

Lemma actual_fee_within_reserve_witness :
  exists outputs', deduct_network_fee_reserve demo_outputs 101 = Ok outputs' /\
    exists cs, allocate_actual_network_fee outputs' 37 = Ok cs /\ sumZ cs = 37.
Proof.
  eexists. split; [vm_compute; reflexivity|].
  destruct (actual_fee_within_reserve demo_outputs _ 101 37 demo_reservable
    ltac:(vm_compute; reflexivity) ltac:(lia)) as [H _].
  destruct H as (cs & Hok & _ & Hsum & _); [lia|]. exists cs. split; [exact Hok|exact Hsum].
Defined.

Definition demo_rows : list PayoutRow :=
  [mkPayoutRow 11 1 21 "ironwood" "u1" 500; mkPayoutRow 12 2 22 "transparent" "t1" 2000].

Lemma planned_batch_conserves_witness :
  exists b, plan_payout_batch demo_rows 1000 200 500 = Ok b /\
    pp_payout_total_zat b + pp_maximum_network_fee_zat b = 1500 /\
    pp_maximum_network_fee_zat b = 75.
Proof.
  destruct (planned_batch_conserves demo_rows 1000 200 500) as (b & Hok & Hwf & Hl & Hf & _).
  - discriminate.
  - apply Forall_cons. split; [split; [simpl; lia|by exists Ironwood]|].
    apply Forall_cons. split; [split; [simpl; lia|by exists Transparent]|]. constructor.
  - lia.
  - lia.
  - lia.
  - vm_compute; congruence.
  - vm_compute; reflexivity.
  - exists b. split; [exact Hok|]. destruct Hwf as (_ & _ & _ & Ht & _ & _ & Hsum & _).
    rewrite Hsum, Hf, <- Ht, Hl. split; vm_compute; reflexivity.
Defined.

Lemma payout_ledger_balances_witness :
  exists b es, plan_payout_batch demo_rows 1000 200 500 = Ok b /\
    confirmation_entries b 40 5000 1500 = Ok es /\ ledger_guard es = Ok tt /\
    label_sum "collector_spendable_asset" es = - 1465.
Proof.
  eexists. destruct (payout_ledger_balances (mkPlannedPayout
    [mkPayoutInstruction 11 1 21 Ironwood "u1" 500 475; mkPayoutInstruction 12 2 22 Transparent "t1" 1000 950]
    1425 75 1500) 40 5000 1500) as [_ (es & Hok & Hg & _ & _ & Hc)].
  - split; [repeat constructor; simpl; lia|]. split; [discriminate|]. simpl.
    repeat split; vm_compute; congruence.
  - vm_compute; congruence.
  - simpl; lia.
  - lia.
  - simpl; lia.
  - exists es. split; [vm_compute; reflexivity|]. split; [exact Hok|]. split; [exact Hg|exact Hc].
Defined.

Lemma payout_cap_respects_policy_witness :
  exists cap, payout_cap_from_draws 100000000 10000000000 2000 U64_MAX 12345 = Ok (Some cap) /\
    100000000 <= cap <= 10000000000.
Proof.
  destruct (payout_cap_respects_policy 100000000 10000000000 2000 U64_MAX 12345) as (_ & _ & H);
    try (widths; lia).
  destruct H as [H _]; [lia|vm_compute; congruence|exact H].
Defined.
