(* ===== verification/Stream.v ===== *)
(** Incremental decoding of framed byte streams: what the two wire codecs promise to the loops
    that feed them (crates/wcash-pool-protocol/src/backend.rs FrameCodec and
    crates/wcash-pool-protocol/src/zip301.rs Zip301FrameCodec), and what follows for any
    chunking of the stream. *)

From Stdlib Require Import ZArith Lia.
From stdpp Require Import prelude gmap sorting strings.
From S2P Require Import Prelude.
Open Scope Z_scope.

(** How the bytes received so far begin. *)
Inductive frame_view (E : Type) : Type :=
| Incomplete
| Rejected (e : E)
| Complete (frame rest : list Z).
Arguments Incomplete {E}.
Arguments Rejected {E} _.
Arguments Complete {E} _ _.

(** One call of an incremental decoder: the bytes it consumed, and a message once one is
    complete. *)
Class StreamOps (C T E : Type) : Type :=
  codec_decode : C -> list Z -> C * result (nat * option T) E.

(** The contract of an incremental decoder: its buffer is an incomplete frame, and a call
    behaves as the frame splitter does on the buffer followed by the input.  A complete frame
    consumes exactly its own bytes, and an error leaves nothing behind. *)
Class StreamCodec (C T E : Type) `{!StreamOps C T E} : Type := {
  codec_inv : C -> Prop;
  codec_buffer : C -> list Z;
  codec_split : list Z -> frame_view E;
  codec_parse : list Z -> result T E;
  split_complete_app s t f r :
    codec_split s = Complete f r -> codec_split (s ++ t) = Complete f (r ++ t);
  split_rejected_app s t e : codec_split s = Rejected e -> codec_split (s ++ t) = Rejected e;
  split_complete_shrinks s f r : codec_split s = Complete f r -> (length r < length s)%nat;
  split_nil : codec_split [] = Incomplete;
  buffer_incomplete c : codec_inv c -> codec_split (codec_buffer c) = Incomplete;
  decode_law c input : codec_inv c ->
    exists c', codec_inv c' /\
    match codec_split (codec_buffer c ++ input) with
    | Incomplete =>
        codec_decode c input = (c', Ok (length input, None)) /\
        codec_buffer c' = codec_buffer c ++ input
    | Rejected e => codec_decode c input = (c', Err e) /\ codec_buffer c' = []
    | Complete f r =>
        codec_buffer c' = [] /\ (length r < length input)%nat /\
        drop (length input - length r) input = r /\
        codec_decode c input =
          (c', match codec_parse f with
               | Ok m => Ok ((length input - length r)%nat, Some m)
               | Err e => Err e
               end)
    end
}.

(** ** The feeding loop *)

Section Loop.
Context {C T E : Type} `{!StreamOps C T E}.

(** One read: decode, and pass the unconsumed suffix back while frames complete.  Each frame
    consumes input, so [length input + 1] rounds are enough. *)
Fixpoint drain (fuel : nat) (c : C) (input : list Z) : C * list T * option E :=
  match fuel with
  | O => (c, [], None)
  | S fuel' =>
      match codec_decode c input with
      | (c', Ok (k, Some m)) =>
          let '(c'', ms, eo) := drain fuel' c' (drop k input) in (c'', m :: ms, eo)
      | (c', Ok (_, None)) => (c', [], None)
      | (c', Err e) => (c', [], Some e)
      end
  end.

Definition read_chunk (c : C) (input : list Z) : C * list T * option E :=
  drain (S (length input)) c input.

(** A connection: successive reads, stopping at the first error. *)
Fixpoint feed (c : C) (chunks : list (list Z)) : C * list T * option E :=
  match chunks with
  | [] => (c, [], None)
  | chunk :: rest =>
      match read_chunk c chunk with
      | (c', ms, Some e) => (c', ms, Some e)
      | (c', ms, None) => let '(c'', ms', eo) := feed c' rest in (c'', ms ++ ms', eo)
      end
  end.

End Loop.

Section Feed.
Context {C T E : Type} `{!StreamOps C T E} `{!StreamCodec C T E}.

(** ** Reference: the messages of a byte stream *)

Inductive stream : list Z -> list T -> list Z -> option E -> Prop :=
| stream_incomplete s : codec_split s = Incomplete -> stream s [] s None
| stream_rejected s e : codec_split s = Rejected e -> stream s [] [] (Some e)
| stream_malformed s f r e :
    codec_split s = Complete f r -> codec_parse f = Err e -> stream s [] [] (Some e)
| stream_frame s f r m ms left eo :
    codec_split s = Complete f r -> codec_parse f = Ok m -> stream r ms left eo ->
    stream s (m :: ms) left eo.

Lemma stream_det s ms left eo ms' left' eo' :
  stream s ms left eo -> stream s ms' left' eo' -> ms = ms' /\ left = left' /\ eo = eo'.
Proof.
  intros H. revert ms' left' eo'. induction H as [s Hs|s e Hs|s f r e Hs Hp|s f r m ms left eo Hs Hp _ IH];
    intros ms' left' eo' H'; destruct H' as [s' Hs'|s' e' Hs'|s' f' r' e' Hs' Hp'|s' f' r' m' ms' l' eo' Hs' Hp' Hr'];
    rewrite Hs in Hs'; try discriminate Hs'.
  - done.
  - by injection Hs' as <-.
  - injection Hs' as <- <-. rewrite Hp in Hp'. by injection Hp' as <-.
  - injection Hs' as <- <-. congruence.
  - injection Hs' as <- <-. congruence.
  - injection Hs' as <- <-. rewrite Hp in Hp'. injection Hp' as <-.
    destruct (IH _ _ _ Hr') as (-> & -> & ->). done.
Qed.

Lemma stream_total s : exists ms left eo, stream s ms left eo.
Proof.
  remember (length s) as n eqn:Hn. revert s Hn. induction (lt_wf n) as [n _ IH]. intros s ->.
  destruct (codec_split s) as [|e|f r] eqn:Hs.
  - eexists _, _, _. by apply stream_incomplete.
  - eexists _, _, _. by apply stream_rejected.
  - destruct (codec_parse f) as [m|e] eqn:Hp; [|eexists _, _, _; by eapply stream_malformed].
    destruct (IH (length r) ltac:(by eapply split_complete_shrinks) r eq_refl) as (ms & l & eo & H).
    eexists _, _, _. by eapply stream_frame.
Qed.

Lemma stream_error_empty s ms left eo : stream s ms left eo -> eo <> None -> left = [].
Proof. induction 1; naive_solver. Qed.

Lemma stream_app s t ms left ms' left' eo :
  stream s ms left None -> stream (left ++ t) ms' left' eo -> stream (s ++ t) (ms ++ ms') left' eo.
Proof.
  intros H. remember None as n eqn:En. revert En.
  induction H as [s Hs|s e Hs|s f r e Hs Hp|s f r m ms left eo0 Hs Hp _ IH]; intros En Ht; try done.
  cbn [app]. eapply stream_frame; [by apply split_complete_app|done|by apply IH].
Qed.

Lemma stream_app_err s t ms left e :
  stream s ms left (Some e) -> stream (s ++ t) ms [] (Some e).
Proof.
  intros H. remember (Some e) as n eqn:En. revert En.
  induction H as [s Hs|s e0 Hs|s f r e0 Hs Hp|s f r m ms left eo0 Hs Hp _ IH]; intros En; try done.
  - injection En as ->. apply stream_rejected. by apply split_rejected_app.
  - injection En as ->. eapply stream_malformed; [by apply split_complete_app|done].
  - eapply stream_frame; [by apply split_complete_app|done|by apply IH].
Qed.

Lemma drain_stream fuel c input :
  codec_inv c -> (length input < fuel)%nat ->
  let '(c', ms, eo) := drain fuel c input in
  codec_inv c' /\ stream (codec_buffer c ++ input) ms (codec_buffer c') eo.
Proof.
  revert c input. induction fuel as [|fuel IH]; intros c input Hc Hf; [lia|]. cbn [drain].
  destruct (decode_law c input Hc) as (c' & Hc' & Hd).
  destruct (codec_split (codec_buffer c ++ input)) as [|e|f r] eqn:Hs.
  - destruct Hd as [-> ->]. split; [done|]. by apply stream_incomplete.
  - destruct Hd as [-> ->]. split; [done|]. by apply stream_rejected.
  - destruct Hd as (Hb & Hlt & Hr & ->). destruct (codec_parse f) as [m|e] eqn:Hp.
    + rewrite Hr. specialize (IH c' r Hc' ltac:(lia)).
      destruct (drain fuel c' r) as [[c'' ms] eo]. destruct IH as [Hc'' Hst]. split; [done|].
      eapply stream_frame; [done|done|]. by rewrite Hb in Hst.
    + rewrite Hb. split; [done|]. by eapply stream_malformed.
Qed.

Lemma feed_stream chunks c :
  codec_inv c ->
  let '(c', ms, eo) := feed c chunks in
  codec_inv c' /\ stream (codec_buffer c ++ concat chunks) ms (codec_buffer c') eo.
Proof.
  revert c; induction chunks as [|chunk chunks IH]; intros c Hc; cbn [feed concat].
  { rewrite app_nil_r. split; [done|]. apply stream_incomplete. by apply buffer_incomplete. }
  unfold read_chunk. pose proof (drain_stream (S (length chunk)) c chunk Hc ltac:(lia)) as Hd.
  destruct (drain (S (length chunk)) c chunk) as [[c' ms] [e|]]; destruct Hd as [Hc' Hst].
  - split; [done|]. rewrite app_assoc.
    rewrite (stream_error_empty _ _ _ _ Hst) by done.
    by eapply stream_app_err.
  - specialize (IH c' Hc'). destruct (feed c' chunks) as [[c'' ms'] eo]. destruct IH as [Hc'' Hst'].
    split; [done|]. rewrite app_assoc. by eapply stream_app.
Qed.

(** A stream of frames that each carry a message decodes to those messages. *)
Lemma stream_frames (encode : T -> list Z) ms :
  Forall (fun m => exists f, codec_parse f = Ok m /\
            forall t, codec_split (encode m ++ t) = Complete f t) ms ->
  stream (concat (encode <$> ms)) ms [] None.
Proof.
  induction 1 as [|m ms (f & Hp & Hf) _ IH]; [apply stream_incomplete, split_nil|].
  rewrite fmap_cons. cbn [concat]. by eapply stream_frame.
Qed.

(** Whatever the chunking, the messages, the first error and the bytes left over are those of
    the whole stream. *)
Lemma feed_chunking c chunks chunks' :
  codec_inv c -> concat chunks = concat chunks' ->
  let '(c1, ms1, eo1) := feed c chunks in
  let '(c2, ms2, eo2) := feed c chunks' in
  ms1 = ms2 /\ eo1 = eo2 /\ codec_buffer c1 = codec_buffer c2.
Proof.
  intros Hc Heq. pose proof (feed_stream chunks c Hc) as H1. pose proof (feed_stream chunks' c Hc) as H2.
  destruct (feed c chunks) as [[c1 ms1] eo1], (feed c chunks') as [[c2 ms2] eo2].
  destruct H1 as [_ H1], H2 as [_ H2]. rewrite <- Heq in H2.
  destruct (stream_det _ _ _ _ _ _ _ H1 H2) as (-> & -> & ->). done.
Qed.
End Feed.
