(* ===== verification/Framing.v ===== *)
(** The length-prefixed framing of the backend socket
    (crates/wcash-pool-protocol/src/backend.rs: encode_length_frame, decode_length_frame and
    FrameCodec).  serde_json and the allocator's answer to [try_reserve_exact] are parameters. *)

From Stdlib Require Import ZArith Lia.
From stdpp Require Import prelude gmap sorting strings.
From S2P Require Import Prelude Wire Backend Stream.
Open Scope Z_scope.

(** [u32::from_be_bytes(prefix) as usize]. *)
Definition declared_length (prefix : list Z) : nat := Z.to_nat (be_val prefix).

Record FrameCodec : Type := mkFrameCodec {
  fc_prefix : list Z;
  fc_prefix_len : nat;
  fc_declared : option nat;
  fc_payload : list Z
}.

Definition FrameCodec_new : FrameCodec :=
  mkFrameCodec (replicate BACKEND_LENGTH_PREFIX_BYTES 0) 0 None [].

Definition FrameCodec_reset (self : FrameCodec) : FrameCodec :=
  mkFrameCodec (replicate BACKEND_LENGTH_PREFIX_BYTES 0) 0 None [].

Definition FrameCodec_buffered_bytes (self : FrameCodec) : nat :=
  fc_prefix_len self + length (fc_payload self).

Definition set_prefix (prefix : list Z) (len : nat) (self : FrameCodec) : FrameCodec :=
  mkFrameCodec prefix len (fc_declared self) (fc_payload self).
Definition set_declared (n : nat) (self : FrameCodec) : FrameCodec :=
  mkFrameCodec (fc_prefix self) (fc_prefix_len self) (Some n) (fc_payload self).
Definition extend_payload (l : list Z) (self : FrameCodec) : FrameCodec :=
  mkFrameCodec (fc_prefix self) (fc_prefix_len self) (fc_declared self) (fc_payload self ++ l).

Definition too_large (actual : nat) : ProtocolError :=
  FrameTooLarge "backend" MAX_BACKEND_PAYLOAD_BYTES (Z.of_nat actual).

Section Frames.
Context {T : Type}.
(** serde_json on the message type. *)
Variable to_vec : T -> result (list Z) string.
Variable from_slice : list Z -> result T string.
(** The message's [validate]. *)
Variable validate : T -> result unit ProtocolError.
(** Whether [try_reserve_exact] of so many bytes succeeds. *)
Variable try_reserve : nat -> bool.

Definition encode_length_frame (message : T) : result (list Z) ProtocolError :=
  let? payload := map_err Json (to_vec message) in
  if bool_decide (payload = []) then Err (EmptyFrame "backend") else
  if MAX_BACKEND_PAYLOAD_BYTES <? Z.of_nat (length payload) then Err (too_large (length payload)) else
  if U32_MAX <? Z.of_nat (length payload) then Err (invalid "backend frame length" "does not fit in u32") else
  Ok (be_bytes 4 (Z.of_nat (length payload)) ++ payload).

Definition decode_length_frame (frame : list Z) : result T ProtocolError :=
  if (length frame <? BACKEND_LENGTH_PREFIX_BYTES)%nat then Err MissingLengthPrefix else
  let declared := declared_length (take BACKEND_LENGTH_PREFIX_BYTES frame) in
  if (declared =? 0)%nat then Err (EmptyFrame "backend") else
  if MAX_BACKEND_PAYLOAD_BYTES <? Z.of_nat declared then Err (too_large declared) else
  let payload := drop BACKEND_LENGTH_PREFIX_BYTES frame in
  if negb (length payload =? declared)%nat
  then Err (InvalidFrameLength (Z.of_nat declared) (Z.of_nat (length payload))) else
  map_err Json (from_slice payload).

(** [encode_backend_request] and [encode_backend_message] are this at their message type, as
    [decode_backend_request] and [decode_backend_message] are the next. *)
Definition encode_message (message : T) : result (list Z) ProtocolError :=
  let? _ := validate message in encode_length_frame message.

Definition decode_message (frame : list Z) : result T ProtocolError :=
  let? message := decode_length_frame frame in
  let? _ := validate message in
  Ok message.

(** The second half of [decode_one]: fill the payload from [input[consumed..]]. *)
Definition decode_payload (input : list Z) (consumed : nat) :
    M FrameCodec ProtocolError (nat * option T) :=
  let* self := st_get in
  let* declared := st_lift (ok_or (fc_declared self)
    (invalid "backend decoder" "declared length was not initialized")) in
  if (declared <? length (fc_payload self))%nat
  then st_throw (invalid "backend decoder" "payload exceeded declared length") else
  let remaining := (declared - length (fc_payload self))%nat in
  if (length input <? consumed)%nat
  then st_throw (invalid "backend decoder" "input cursor exceeded input length") else
  let available := drop consumed input in
  let copied := Nat.min remaining (length available) in
  do* st_modify (extend_payload (take copied available)) in
  let consumed := (consumed + copied)%nat in
  let* self := st_get in
  if (length (fc_payload self) <? declared)%nat then st_ret (consumed, None) else
  let decoded := map_err Json (from_slice (fc_payload self)) in
  do* st_modify FrameCodec_reset in
  let* message := st_lift decoded in
  do* st_lift (validate message) in
  st_ret (consumed, Some message).

Definition decode_one (input : list Z) : M FrameCodec ProtocolError (nat * option T) :=
  let* self := st_get in
  match fc_declared self with
  | Some _ => decode_payload input 0
  | None =>
      let required := (BACKEND_LENGTH_PREFIX_BYTES - fc_prefix_len self)%nat in
      let copied := Nat.min required (length input) in
      let prefix_end := (fc_prefix_len self + copied)%nat in
      if (length (fc_prefix self) <? prefix_end)%nat
      then st_throw (invalid "backend decoder" "prefix state was inconsistent") else
      let prefix := take (fc_prefix_len self) (fc_prefix self) ++ take copied input
                    ++ drop prefix_end (fc_prefix self) in
      do* st_modify (set_prefix prefix prefix_end) in
      if (prefix_end <? BACKEND_LENGTH_PREFIX_BYTES)%nat then st_ret (copied, None) else
      let declared := declared_length prefix in
      if (declared =? 0)%nat
      then do* st_modify FrameCodec_reset in st_throw (EmptyFrame "backend") else
      if MAX_BACKEND_PAYLOAD_BYTES <? Z.of_nat declared
      then do* st_modify FrameCodec_reset in st_throw (too_large declared) else
      if negb (try_reserve declared)
      then do* st_modify FrameCodec_reset in
           st_throw (invalid "backend decoder" "could not reserve bounded payload") else
      do* st_modify (set_declared declared) in
      decode_payload input copied
  end.

#[local] Instance FrameCodec_ops : StreamOps FrameCodec T ProtocolError :=
  fun self input => decode_one input self.

(** ** The contract *)

Definition frame_split (s : list Z) : frame_view ProtocolError :=
  if (length s <? BACKEND_LENGTH_PREFIX_BYTES)%nat then Incomplete else
  let declared := declared_length (take BACKEND_LENGTH_PREFIX_BYTES s) in
  let rest := drop BACKEND_LENGTH_PREFIX_BYTES s in
  if (declared =? 0)%nat then Rejected (EmptyFrame "backend") else
  if MAX_BACKEND_PAYLOAD_BYTES <? Z.of_nat declared then Rejected (too_large declared) else
  if (length rest <? declared)%nat then Incomplete else
  Complete (take declared rest) (drop declared rest).

Definition frame_parse (payload : list Z) : result T ProtocolError :=
  let? message := map_err Json (from_slice payload) in
  let? _ := validate message in
  Ok message.

Definition fc_buffer (self : FrameCodec) : list Z :=
  take (fc_prefix_len self) (fc_prefix self) ++ fc_payload self.

Definition fc_inv (self : FrameCodec) : Prop :=
  length (fc_prefix self) = BACKEND_LENGTH_PREFIX_BYTES /\
  match fc_declared self with
  | None => (fc_prefix_len self < BACKEND_LENGTH_PREFIX_BYTES)%nat /\ fc_payload self = []
  | Some n =>
      fc_prefix_len self = BACKEND_LENGTH_PREFIX_BYTES /\ n = declared_length (fc_prefix self) /\
      (0 < n)%nat /\ Z.of_nat n <= MAX_BACKEND_PAYLOAD_BYTES /\ (length (fc_payload self) < n)%nat
  end.

Lemma frame_split_cases s :
  (length s < 4)%nat /\ frame_split s = Incomplete \/
  (4 <= length s)%nat /\
  let n := declared_length (take 4 s) in
  (n = 0%nat /\ frame_split s = Rejected (EmptyFrame "backend") \/
   MAX_BACKEND_PAYLOAD_BYTES < Z.of_nat n /\ frame_split s = Rejected (too_large n) \/
   (0 < n)%nat /\ Z.of_nat n <= MAX_BACKEND_PAYLOAD_BYTES /\
   ((length s < 4 + n)%nat /\ frame_split s = Incomplete \/
    (4 + n <= length s)%nat /\ frame_split s = Complete (take n (drop 4 s)) (drop n (drop 4 s)))).
Proof.
  unfold frame_split. change BACKEND_LENGTH_PREFIX_BYTES with 4%nat.
  destruct (Nat.ltb_spec (length s) 4); [by left|]. right. split; [done|]. cbv zeta.
  destruct (Nat.eqb_spec (declared_length (take 4 s)) 0); [by left|]. right.
  destruct (Z.ltb_spec MAX_BACKEND_PAYLOAD_BYTES (Z.of_nat (declared_length (take 4 s)))); [by left|].
  right. split; [lia|]. split; [done|]. rewrite length_drop.
  destruct (Nat.ltb_spec (length s - 4) (declared_length (take 4 s))); [left|right]; (split; [lia|done]).
Qed.

Lemma frame_split_eval p q :
  length p = 4%nat ->
  frame_split (p ++ q) =
    (let declared := declared_length p in
     if (declared =? 0)%nat then Rejected (EmptyFrame "backend") else
     if MAX_BACKEND_PAYLOAD_BYTES <? Z.of_nat declared then Rejected (too_large declared) else
     if (length q <? declared)%nat then Incomplete else
     Complete (take declared q) (drop declared q)).
Proof.
  intros Hp. unfold frame_split. change BACKEND_LENGTH_PREFIX_BYTES with 4%nat.
  rewrite length_app. destruct (Nat.ltb_spec (length p + length q) 4); [lia|].
  by rewrite <- Hp, take_app_length, drop_app_length.
Qed.

Lemma frame_split_complete_app s t f r :
  frame_split s = Complete f r -> frame_split (s ++ t) = Complete f (r ++ t).
Proof.
  destruct (frame_split_cases s) as [[_ ->]|(Hlen & [[_ ->]|[[_ ->]|(Hn & Hmax & [[_ ->]|[Hle ->]])]])]; try done.
  intros [= <- <-]. rewrite <- (take_drop 4 s) at 1. rewrite <- app_assoc.
  rewrite frame_split_eval by (rewrite length_take; lia). cbv zeta.
  destruct (Nat.eqb_spec (declared_length (take 4 s)) 0); [lia|].
  destruct (Z.ltb_spec MAX_BACKEND_PAYLOAD_BYTES (Z.of_nat (declared_length (take 4 s)))); [lia|].
  rewrite length_app, length_drop. case_match eqn:E; [apply Nat.ltb_lt in E; lia|].
  by rewrite take_app_le, drop_app_le by (rewrite length_drop; lia).
Qed.

Lemma frame_split_rejected_app s t e :
  frame_split s = Rejected e -> frame_split (s ++ t) = Rejected e.
Proof.
  destruct (frame_split_cases s) as [[_ ->]|(Hlen & [[Hn ->]|[[Hn ->]|(Hn & Hmax & [[_ ->]|[Hle ->]])]])];
    try done; intros [= <-]; rewrite <- (take_drop 4 s) at 1; rewrite <- app_assoc,
    frame_split_eval by (rewrite length_take; lia); cbv zeta; rewrite ?Hn; [done|].
  destruct (Nat.eqb_spec (declared_length (take 4 s)) 0); [unfold MAX_BACKEND_PAYLOAD_BYTES in *; lia|].
  by apply Z.ltb_lt in Hn as ->.
Qed.

Lemma frame_split_shrinks s f r : frame_split s = Complete f r -> (length r < length s)%nat.
Proof.
  destruct (frame_split_cases s) as [[_ ->]|(Hlen & [[_ ->]|[[_ ->]|(Hn & Hmax & [[_ ->]|[Hle ->]])]])]; try done.
  intros [= <- <-]. rewrite !length_drop. lia.
Qed.

Lemma fc_buffer_incomplete self : fc_inv self -> frame_split (fc_buffer self) = Incomplete.
Proof.
  intros [Hp Hd]. unfold fc_buffer. change BACKEND_LENGTH_PREFIX_BYTES with 4%nat in *.
  destruct (fc_declared self) as [n|].
  - destruct Hd as (Hl & -> & Hn & Hmax & Hlt). rewrite Hl, take_ge by lia.
    rewrite frame_split_eval by done. cbv zeta.
    destruct (Nat.eqb_spec (declared_length (fc_prefix self)) 0); [lia|].
    destruct (Z.ltb_spec MAX_BACKEND_PAYLOAD_BYTES (Z.of_nat (declared_length (fc_prefix self)))); [lia|].
    by apply Nat.ltb_lt in Hlt as ->.
  - destruct Hd as (Hl & ->). unfold frame_split. change BACKEND_LENGTH_PREFIX_BYTES with 4%nat.
    rewrite app_nil_r, length_take. destruct (Nat.ltb_spec (fc_prefix_len self `min` length (fc_prefix self)) 4); [done|lia].
Qed.

Lemma fc_new_inv : fc_inv FrameCodec_new.
Proof. split; [done|]. cbn. split; [|done]. unfold BACKEND_LENGTH_PREFIX_BYTES. lia. Qed.

(** Filling the payload of a frame whose length is known. *)
Lemma decode_payload_spec self n input consumed :
  length (fc_prefix self) = 4%nat -> fc_prefix_len self = 4%nat ->
  fc_declared self = Some n -> n = declared_length (fc_prefix self) -> (0 < n)%nat ->
  Z.of_nat n <= MAX_BACKEND_PAYLOAD_BYTES -> (length (fc_payload self) < n)%nat ->
  (consumed <= length input)%nat ->
  let q := fc_payload self ++ drop consumed input in
  if (length q <? n)%nat
  then decode_payload input consumed self =
         (mkFrameCodec (fc_prefix self) 4 (Some n) q, Ok (length input, None))
  else decode_payload input consumed self =
         (FrameCodec_new, match frame_parse (take n q) with
                          | Ok m => Ok ((length input - length (drop n q))%nat, Some m)
                          | Err e => Err e
                          end).
Proof.
  intros Hp Hl Hd Hn Hpos Hmax Hlt Hc q. unfold decode_payload. st_unfold. rewrite Hd.
  destruct (Nat.ltb_spec n (length (fc_payload self))); [lia|].
  destruct (Nat.ltb_spec (length input) consumed); [lia|].
  unfold extend_payload; cbn [fc_payload fc_prefix fc_prefix_len fc_declared].
  assert (length q = length (fc_payload self) + (length input - consumed))%nat as Hq
    by (unfold q; rewrite length_app, length_drop; lia).
  rewrite length_app, length_take, length_drop.
  destruct (Nat.ltb_spec (length q) n) as [Hs|Hs].
  - rewrite !Nat.min_r by lia. rewrite take_ge by (rewrite length_drop; lia).
    destruct (Nat.ltb_spec (length (fc_payload self) + (length input - consumed)) n); [|lia].
    rewrite Hl, Hd. repeat f_equal. lia.
  - rewrite !Nat.min_l by lia.
    destruct (Nat.ltb_spec (length (fc_payload self) + (n - length (fc_payload self))) n); [lia|].
    assert (fc_payload self ++ take (n - length (fc_payload self)) (drop consumed input) = take n q) as ->
      by (unfold q; by rewrite take_app_ge by lia).
    unfold frame_parse, map_err. rewrite length_drop.
    destruct (from_slice (take n q)) as [m|e]; [|done]. destruct (validate m) as [[]|e]; [|done].
    unfold FrameCodec_reset, FrameCodec_new. repeat f_equal. lia.
Qed.

Hypothesis reserve_bounded : forall n, Z.of_nat n <= MAX_BACKEND_PAYLOAD_BYTES -> try_reserve n = true.

(** What one call promises, as [decode_law] states it. *)
Definition decode_promise (self : FrameCodec) (input : list Z) : Prop :=
  exists self', fc_inv self' /\
  match frame_split (fc_buffer self ++ input) with
  | Incomplete =>
      decode_one input self = (self', Ok (length input, None)) /\
      fc_buffer self' = fc_buffer self ++ input
  | Rejected e => decode_one input self = (self', Err e) /\ fc_buffer self' = []
  | Complete f r =>
      fc_buffer self' = [] /\ (length r < length input)%nat /\
      drop (length input - length r) input = r /\
      decode_one input self =
        (self', match frame_parse f with
                | Ok m => Ok ((length input - length r)%nat, Some m)
                | Err e => Err e
                end)
  end.

(** A call whose length prefix [p] is complete behaves as [decode_payload] does. *)
Lemma decode_promise_payload self mid input consumed p :
  length p = 4%nat -> (consumed <= length input)%nat ->
  fc_prefix mid = p -> fc_prefix_len mid = 4%nat -> fc_declared mid = Some (declared_length p) ->
  (0 < declared_length p)%nat -> Z.of_nat (declared_length p) <= MAX_BACKEND_PAYLOAD_BYTES ->
  (length (fc_payload mid) < declared_length p)%nat ->
  fc_buffer self ++ input = p ++ fc_payload mid ++ drop consumed input ->
  decode_one input self = decode_payload input consumed mid ->
  decode_promise self input.
Proof.
  intros Hp Hc Hpre Hl Hd Hpos Hmax Hlt Hbuf Hrun. unfold decode_promise.
  rewrite Hbuf, Hrun, frame_split_eval by done. cbv zeta.
  destruct (Nat.eqb_spec (declared_length p) 0); [lia|].
  destruct (Z.ltb_spec MAX_BACKEND_PAYLOAD_BYTES (Z.of_nat (declared_length p))); [lia|].
  pose proof (decode_payload_spec mid (declared_length p) input consumed ltac:(by rewrite Hpre) Hl Hd
    ltac:(by rewrite Hpre) Hpos Hmax Hlt Hc) as Hs. cbv zeta in Hs.
  set (q := fc_payload mid ++ drop consumed input) in *.
  destruct (Nat.ltb_spec (length q) (declared_length p)) as [Hq|Hq]; rewrite Hs.
  - eexists. split; [|split; [done|]].
    + split; cbn; [by rewrite Hpre|]. by rewrite Hpre.
    + unfold fc_buffer at 1. cbn. rewrite Hpre, take_ge by lia. done.
  - exists FrameCodec_new. split; [apply fc_new_inv|]. split; [done|].
    assert (length q = length (fc_payload mid) + (length input - consumed))%nat as Hlq
      by (unfold q; rewrite length_app, length_drop; lia).
    rewrite length_drop. split; [lia|]. split; [|done].
    unfold q at 2. rewrite drop_app_ge by lia. rewrite drop_drop. f_equal. lia.
Qed.

(** A call that does not complete the length prefix stores its input there. *)
Lemma decode_promise_prefix self input :
  fc_declared self = None -> length (fc_prefix self) = 4%nat -> fc_payload self = [] ->
  (fc_prefix_len self + length input < 4)%nat -> decode_promise self input.
Proof.
  intros Ed Hp Hpay Hs. set (k := fc_prefix_len self) in *.
  assert (fc_buffer self ++ input = take k (fc_prefix self) ++ input) as Hbuf
    by (unfold fc_buffer; by rewrite Hpay, app_nil_r).
  assert (frame_split (fc_buffer self ++ input) = Incomplete) as Hsp.
  { rewrite Hbuf. unfold frame_split. rewrite length_app, length_take.
    destruct (Nat.ltb_spec (k `min` length (fc_prefix self) + length input) BACKEND_LENGTH_PREFIX_BYTES);
      unfold BACKEND_LENGTH_PREFIX_BYTES in *; [done|lia]. }
  unfold decode_promise. rewrite Hsp. unfold decode_one. st_unfold. rewrite Ed.
  change BACKEND_LENGTH_PREFIX_BYTES with 4%nat. fold k. rewrite Nat.min_r by lia.
  destruct (Nat.ltb_spec (length (fc_prefix self)) (k + length input)); [lia|].
  destruct (Nat.ltb_spec (k + length input) 4); [|lia].
  rewrite (take_ge input) by lia. eexists. split; [|split; [done|]].
  - split; cbn; [|by rewrite Ed].
    rewrite !length_app, length_take, length_drop. unfold BACKEND_LENGTH_PREFIX_BYTES. lia.
  - unfold fc_buffer at 1. cbn. rewrite Hpay, app_nil_r, Hbuf, app_assoc.
    rewrite take_app_length' by (rewrite length_app, length_take; lia). done.
Qed.

(** A call that completes the length prefix [p] rejects it or goes on to the payload. *)
Lemma decode_one_prefix self input :
  fc_declared self = None -> length (fc_prefix self) = 4%nat -> fc_payload self = [] ->
  (fc_prefix_len self <= 4)%nat -> (4 <= fc_prefix_len self + length input)%nat ->
  let k := fc_prefix_len self in
  let p := take k (fc_prefix self) ++ take (4 - k) input in
  decode_one input self =
    (if (declared_length p =? 0)%nat then (FrameCodec_new, Err (EmptyFrame "backend")) else
     if MAX_BACKEND_PAYLOAD_BYTES <? Z.of_nat (declared_length p)
     then (FrameCodec_new, Err (too_large (declared_length p))) else
     decode_payload input (4 - k) (mkFrameCodec p 4 (Some (declared_length p)) [])).
Proof.
  intros Ed Hp Hpay Hk Hs k p.
  unfold decode_one. st_unfold. rewrite Ed. change BACKEND_LENGTH_PREFIX_BYTES with 4%nat. fold k.
  rewrite Nat.min_l by lia. replace (k + (4 - k))%nat with 4%nat by lia.
  rewrite Hp, (drop_ge (fc_prefix self)) by lia. rewrite app_nil_r. fold p. cbn [Nat.ltb Nat.leb].
  destruct (Nat.eqb_spec (declared_length p) 0); [done|].
  destruct (Z.ltb_spec MAX_BACKEND_PAYLOAD_BYTES (Z.of_nat (declared_length p))); [done|].
  rewrite reserve_bounded by lia. cbn [negb]. unfold set_declared, set_prefix. cbn. by rewrite Hpay.
Qed.

Lemma decode_one_promise self input : fc_inv self -> decode_promise self input.
Proof.
  intros [Hp Hd]. change BACKEND_LENGTH_PREFIX_BYTES with 4%nat in *.
  destruct (fc_declared self) as [n|] eqn:Ed.
  { destruct Hd as (Hl & -> & Hn & Hmax & Hlt).
    apply (decode_promise_payload self self input 0 (fc_prefix self)); try done; [lia| |].
    - unfold fc_buffer. rewrite Hl, take_ge, <- app_assoc by lia. by rewrite drop_0.
    - unfold decode_one. st_unfold. by rewrite Ed. }
  destruct Hd as [Hk Hpay].
  destruct (decide (fc_prefix_len self + length input < 4)%nat) as [Hs|Hs]; [by apply decode_promise_prefix|].
  pose proof (decode_one_prefix self input Ed Hp Hpay ltac:(lia) ltac:(lia)) as Hrun. cbv zeta in Hrun.
  set (k := fc_prefix_len self) in *. set (p := take k (fc_prefix self) ++ take (4 - k) input) in *.
  assert (length p = 4%nat) as Hlp by (unfold p; rewrite length_app, !length_take; lia).
  assert (fc_buffer self ++ input = p ++ drop (4 - k) input) as Hbuf.
  { unfold fc_buffer, p. rewrite Hpay, app_nil_r. by rewrite <- app_assoc, take_drop. }
  destruct (Nat.eqb_spec (declared_length p) 0) as [E0|E0];
    [|destruct (Z.ltb_spec MAX_BACKEND_PAYLOAD_BYTES (Z.of_nat (declared_length p))) as [E1|E1]].
  - unfold decode_promise. rewrite Hbuf, frame_split_eval, E0 by done. cbn.
    exists FrameCodec_new. split; [apply fc_new_inv|done].
  - unfold decode_promise. rewrite Hbuf, frame_split_eval by done. cbv zeta.
    apply Nat.eqb_neq in E0 as ->. apply Z.ltb_lt in E1 as ->.
    exists FrameCodec_new. split; [apply fc_new_inv|done].
  - eapply (decode_promise_payload self (mkFrameCodec p 4 (Some (declared_length p)) []) input (4 - k) p);
      try done; cbn; lia.
Qed.

#[local] Instance FrameCodec_codec : StreamCodec FrameCodec T ProtocolError.
Proof.
  refine {| codec_inv := fc_inv; codec_buffer := fc_buffer; codec_split := frame_split;
            codec_parse := frame_parse;
            split_complete_app := frame_split_complete_app;
            split_rejected_app := frame_split_rejected_app;
            split_complete_shrinks := frame_split_shrinks;
            buffer_incomplete := fc_buffer_incomplete |}; [done|exact decode_one_promise].
Defined.

Lemma fc_buffered_length self :
  fc_inv self -> length (fc_buffer self) = FrameCodec_buffered_bytes self.
Proof.
  intros [Hp Hd]. unfold fc_buffer, FrameCodec_buffered_bytes. rewrite length_app, length_take, Hp.
  destruct (fc_declared self); unfold BACKEND_LENGTH_PREFIX_BYTES in *; lia.
Qed.

Hypothesis json_roundtrip : forall m b, to_vec m = Ok b -> from_slice b = Ok m.

(** An encoded message is one complete frame that parses back to it. *)
Lemma encode_message_frame m frame :
  encode_message m = Ok frame ->
  exists f, frame_parse f = Ok m /\ forall t, frame_split (frame ++ t) = Complete f t.
Proof.
  unfold encode_message, encode_length_frame. rewrite seq_Ok. intros [Hv H].
  destruct (to_vec m) as [b|e] eqn:Hb; [|done]. cbn [map_err] in H.
  case_bool_decide as Hne; [done|].
  destruct (Z.ltb_spec MAX_BACKEND_PAYLOAD_BYTES (Z.of_nat (length b))) as [|Hmax]; [done|].
  destruct (U32_MAX <? Z.of_nat (length b)); [done|].
  assert (frame = be_bytes 4 (Z.of_nat (length b)) ++ b) as -> by congruence.
  exists b. split; [unfold frame_parse; by rewrite (json_roundtrip _ _ Hb); cbn; rewrite Hv|].
  intros t. rewrite <- app_assoc, frame_split_eval by apply length_be_bytes. cbv zeta.
  assert (declared_length (be_bytes 4 (Z.of_nat (length b))) = length b) as ->.
  { unfold declared_length. rewrite be_val_be_bytes; [lia|]. unfold MAX_BACKEND_PAYLOAD_BYTES in Hmax. lia. }
  destruct (Nat.eqb_spec (length b) 0) as [E|_]; [by apply nil_length_inv in E|].
  apply Z.ltb_ge in Hmax as ->. rewrite length_app.
  destruct (Nat.ltb_spec (length b + length t) (length b)); [lia|].
  by rewrite take_app_length, drop_app_length.
Qed.
End Frames.

(** ** The two directions *)

Definition encode_backend_request (to_vec : BackendRequest -> result (list Z) string)
    (request : BackendRequest) : result (list Z) ProtocolError :=
  encode_message to_vec BackendRequest_validate request.

Definition decode_backend_request (from_slice : list Z -> result BackendRequest string)
    (frame : list Z) : result BackendRequest ProtocolError :=
  decode_message from_slice BackendRequest_validate frame.

Definition encode_backend_message (sha256 : list Z -> list Z)
    (to_vec : BackendMessage -> result (list Z) string) (message : BackendMessage) :
    result (list Z) ProtocolError :=
  encode_message to_vec (BackendMessage_validate sha256) message.

Definition decode_backend_message (sha256 : list Z -> list Z)
    (from_slice : list Z -> result BackendMessage string) (frame : list Z) :
    result BackendMessage ProtocolError :=
  decode_message from_slice (BackendMessage_validate sha256) frame.

Definition decode_client (from_slice : list Z -> result BackendRequest string)
    (try_reserve : nat -> bool) (input : list Z) :
    M FrameCodec ProtocolError (nat * option BackendRequest) :=
  decode_one from_slice BackendRequest_validate try_reserve input.

Definition decode_server (sha256 : list Z -> list Z)
    (from_slice : list Z -> result BackendMessage string) (try_reserve : nat -> bool)
    (input : list Z) : M FrameCodec ProtocolError (nat * option BackendMessage) :=
  decode_one from_slice (BackendMessage_validate sha256) try_reserve input.

(** The structured submission of the transport adapters, and its conversion. *)
Record SubmitShare : Type := mkSubmitShare {
  ss_version : Z; ss_id : Z;
  ss_job_id : Hex32;
  ss_identity : WorkerIdentity;
  ss_target_le : TargetLe;
  ss_time : Hex4;
  ss_nonce : Hex32;
  ss_solution : Hex1344
}.

Definition SubmitShare_validate (self : SubmitShare) : result unit ProtocolError :=
  let? _ := validate_backend_header (ss_version self) (ss_id self) in
  let? _ := require_nonzero_hex (ss_job_id self) "submit_share.job_id" in
  let? _ := WorkerIdentity_validate (ss_identity self) in
  let? _ := require_nonzero_target (ss_target_le self) "submit_share.target_le" in
  require_nonzero_hex (ss_time self) "submit_share.time".

Definition BackendRequest_from_SubmitShare (submission : SubmitShare) : BackendRequest :=
  SubmitShareRequest (ss_version submission) (ss_id submission) (ss_job_id submission)
    (ss_identity submission) (ss_target_le submission) (ss_time submission) (ss_nonce submission)
    (ss_solution submission).

Lemma SubmitShare_validate_request submission :
  BackendRequest_validate (BackendRequest_from_SubmitShare submission) = SubmitShare_validate submission.
Proof. done. Qed.

(** The reading loops of the two peers. *)
Definition client_stream (from_slice : list Z -> result BackendRequest string)
    (try_reserve : nat -> bool) : FrameCodec -> list (list Z) ->
    FrameCodec * list BackendRequest * option ProtocolError :=
  @feed _ _ _ (fun self input => decode_client from_slice try_reserve input self).

Definition server_stream (sha256 : list Z -> list Z)
    (from_slice : list Z -> result BackendMessage string) (try_reserve : nat -> bool) :
    FrameCodec -> list (list Z) -> FrameCodec * list BackendMessage * option ProtocolError :=
  @feed _ _ _ (fun self input => decode_server sha256 from_slice try_reserve input self).

(** ** Properties *)

Section FrameProperties.
Context {T : Type} (from_slice : list Z -> result T string)
  (validate : T -> result unit ProtocolError) (try_reserve : nat -> bool).
Hypothesis reserve_bounded :
  forall n, Z.of_nat n <= MAX_BACKEND_PAYLOAD_BYTES -> try_reserve n = true.

Let ops : StreamOps FrameCodec T ProtocolError := FrameCodec_ops from_slice validate try_reserve.
Local Existing Instance ops.
#[local] Instance laws : StreamCodec FrameCodec T ProtocolError :=
  FrameCodec_codec from_slice validate try_reserve reserve_bounded.

Lemma feed_roundtrip (to_vec : T -> result (list Z) string) messages frames chunks :
  (forall m b, to_vec m = Ok b -> from_slice b = Ok m) ->
  Forall2 (fun m f => encode_message to_vec validate m = Ok f) messages frames ->
  concat chunks = concat frames ->
  exists self, feed FrameCodec_new chunks = (self, messages, None) /\
               FrameCodec_buffered_bytes self = 0%nat.
Proof.
  intros Hjson Henc Hcat. pose proof (feed_stream chunks FrameCodec_new fc_new_inv) as Hf.
  destruct (feed FrameCodec_new chunks) as [[self ms] eo]. destruct Hf as [Hi Hs].
  assert (stream (concat frames) messages [] None) as Hm.
  { clear Hcat. induction Henc as [|m f ms' fs Hm _ IH]; [by apply stream_incomplete|].
    destruct (encode_message_frame _ _ validate Hjson m f Hm) as (body & Hp & Hsp).
    cbn [concat]. by eapply stream_frame. }
  cbn in Hs. rewrite Hcat in Hs. destruct (stream_det _ _ _ _ _ _ _ Hs Hm) as (-> & Hl & ->).
  exists self. split; [done|]. rewrite <- fc_buffered_length by done. cbn in Hl. by rewrite Hl.
Qed.

(** Reading any bytes at all: the buffer stays bounded, an error empties it, and the outcome
    does not depend on how the bytes were cut. *)
Lemma feed_bounded chunks chunks' :
  concat chunks = concat chunks' ->
  let '(self, ms, eo) := feed FrameCodec_new chunks in
  let '(self', ms', eo') := feed FrameCodec_new chunks' in
  ms = ms' /\ eo = eo' /\
  Z.of_nat (FrameCodec_buffered_bytes self) < 4 + MAX_BACKEND_PAYLOAD_BYTES /\
  (eo <> None -> FrameCodec_buffered_bytes self = 0%nat).
Proof.
  intros Hcat. pose proof (feed_chunking FrameCodec_new chunks chunks' fc_new_inv Hcat) as Hc.
  pose proof (feed_stream chunks FrameCodec_new fc_new_inv) as Hf.
  destruct (feed FrameCodec_new chunks) as [[self ms] eo], (feed FrameCodec_new chunks') as [[self' ms'] eo'].
  destruct Hc as (-> & -> & _), Hf as [Hi Hs]. split_and!; [done..| |].
  - destruct Hi as [_ Hi]. unfold FrameCodec_buffered_bytes, BACKEND_LENGTH_PREFIX_BYTES in *.
    destruct (fc_declared self); [lia|]. destruct Hi as [Hi ->].
    unfold MAX_BACKEND_PAYLOAD_BYTES. cbn [length]. lia.
  - intros He. rewrite <- fc_buffered_length by done.
    pose proof (stream_error_empty _ _ _ _ Hs He) as Hl. cbn in Hl. by rewrite Hl.
Qed.

(** The one-shot decoder accepts exactly the frames the incremental one completes. *)
Lemma decode_one_shot frame m :
  decode_message from_slice validate frame = Ok m <->
  exists self, decode_one from_slice validate try_reserve frame FrameCodec_new =
               (self, Ok (length frame, Some m)).
Proof.
  destruct (decode_one_promise from_slice validate try_reserve reserve_bounded FrameCodec_new frame
    fc_new_inv) as (self & _ & Hd). change (fc_buffer FrameCodec_new ++ frame) with frame in Hd.
  unfold decode_message, decode_length_frame.
  destruct (frame_split_cases frame) as [[Hl E]|(Hl & [[Hn E]|[[Hn E]|(Hn & Hmax & [[Hle E]|[Hle E]])]])];
    rewrite E in Hd; change BACKEND_LENGTH_PREFIX_BYTES with 4%nat.
  - destruct Hd as [-> _]. apply Nat.ltb_lt in Hl as ->. naive_solver.
  - destruct Hd as [-> _]. apply Nat.ltb_ge in Hl as ->. rewrite Hn. naive_solver.
  - destruct Hd as [-> _]. apply Nat.ltb_ge in Hl as ->.
    destruct (declared_length (take 4 frame) =? 0)%nat; [naive_solver|].
    apply Z.ltb_lt in Hn as ->. naive_solver.
  - destruct Hd as [-> _]. apply Nat.ltb_ge in Hl as ->.
    destruct (declared_length (take 4 frame) =? 0)%nat; [naive_solver|].
    apply Z.ltb_ge in Hmax as ->. rewrite length_drop.
    destruct (Nat.eqb_spec (length frame - 4) (declared_length (take 4 frame))); [lia|]. naive_solver.
  - destruct Hd as (_ & _ & _ & ->). apply Nat.ltb_ge in Hl as Hl'. rewrite Hl'.
    destruct (Nat.eqb_spec (declared_length (take 4 frame)) 0); [lia|].
    apply Z.ltb_ge in Hmax as ->. rewrite !length_drop.
    destruct (Nat.eqb_spec (length frame - 4) (declared_length (take 4 frame))) as [Eq|Ne]; cbn [negb].
    + rewrite take_ge by (rewrite length_drop; lia). unfold frame_parse.
      destruct (from_slice (drop 4 frame)) as [m'|]; cbn [map_err]; [|naive_solver].
      destruct (validate m') as [[]|]; [|naive_solver].
      replace (length frame - (length frame - 4 - declared_length (take 4 frame)))%nat with (length frame) by lia.
      naive_solver.
    + split; [done|]. intros (self' & H). destruct (frame_parse _ _ _); [|done]. injection H as _ H _. lia.
Qed.
End FrameProperties.

(** Transport transparency: requests and messages that their encoders accept are decoded
    from the concatenated frames exactly, in order and with nothing buffered afterwards,
    however the byte stream is cut into reads. *)
Theorem backend_stream_roundtrip sha256 to_req from_req to_msg from_msg try_reserve
    (reserve_bounded : forall n, Z.of_nat n <= MAX_BACKEND_PAYLOAD_BYTES -> try_reserve n = true)
    (request_json : forall m b, to_req m = Ok b -> from_req b = Ok m)
    (message_json : forall m b, to_msg m = Ok b -> from_msg b = Ok m) :
  (forall requests frames chunks,
     Forall2 (fun m f => encode_backend_request to_req m = Ok f) requests frames ->
     concat chunks = concat frames ->
     exists self, client_stream from_req try_reserve FrameCodec_new chunks = (self, requests, None) /\
                  FrameCodec_buffered_bytes self = 0%nat) /\
  (forall messages frames chunks,
     Forall2 (fun m f => encode_backend_message sha256 to_msg m = Ok f) messages frames ->
     concat chunks = concat frames ->
     exists self, server_stream sha256 from_msg try_reserve FrameCodec_new chunks
                  = (self, messages, None) /\
                  FrameCodec_buffered_bytes self = 0%nat).
Proof. split; intros ? ? ?; by eapply feed_roundtrip. Qed.

Definition demo_to_req (m : BackendRequest) : result (list Z) string :=
  match m with Health v id => Ok [v; id] | _ => Err "unsupported"%string end.
Definition demo_from_req (b : list Z) : result BackendRequest string :=
  match b with [v; id] => Ok (Health v id) | _ => Err "malformed"%string end.
Definition demo_to_msg (m : BackendMessage) : result (list Z) string :=
  match m with HealthStatus v id seq true false 0 0 0 => Ok [v; id; seq] | _ => Err "unsupported"%string end.
Definition demo_from_msg (b : list Z) : result BackendMessage string :=
  match b with [v; id; seq] => Ok (HealthStatus v id seq true false 0 0 0) | _ => Err "malformed"%string end.

Lemma backend_stream_roundtrip_witness :
  exists self, client_stream demo_from_req (fun _ => true) FrameCodec_new
    [[0; 0]; [0]; [2; 2; 5; 0; 0; 0; 2; 2]; []; [6]] = (self, [Health 2 5; Health 2 6], None) /\
    FrameCodec_buffered_bytes self = 0%nat.
Proof.
  apply (proj1 (backend_stream_roundtrip demo_sha256 demo_to_req demo_from_req demo_to_msg demo_from_msg
    (fun _ => true) (fun _ _ => eq_refl)
    ltac:(intros [] b; simpl; intros [= <-]; reflexivity)
    ltac:(intros [] b; simpl; repeat case_match; intros [= <-]; by subst))
    [Health 2 5; Health 2 6] [[0; 0; 0; 2; 2; 5]; [0; 0; 0; 2; 2; 6]]).
  - repeat constructor.
  - reflexivity.
Defined.

(** Robustness of the backend decoder on arbitrary bytes: fewer than 4 bytes plus the
    payload limit are ever retained, an error leaves nothing of the rejected frame behind, and
    the decoded messages and the error do not depend on how the bytes were cut into reads. *)
Theorem backend_stream_bounded sha256 from_req from_msg try_reserve
    (reserve_bounded : forall n, Z.of_nat n <= MAX_BACKEND_PAYLOAD_BYTES -> try_reserve n = true)
    chunks chunks' (same_bytes : concat chunks = concat chunks') :
  (let '(self, ms, eo) := client_stream from_req try_reserve FrameCodec_new chunks in
   let '(self', ms', eo') := client_stream from_req try_reserve FrameCodec_new chunks' in
   ms = ms' /\ eo = eo' /\
   Z.of_nat (FrameCodec_buffered_bytes self) < 4 + MAX_BACKEND_PAYLOAD_BYTES /\
   (eo <> None -> FrameCodec_buffered_bytes self = 0%nat)) /\
  (let '(self, ms, eo) := server_stream sha256 from_msg try_reserve FrameCodec_new chunks in
   let '(self', ms', eo') := server_stream sha256 from_msg try_reserve FrameCodec_new chunks' in
   ms = ms' /\ eo = eo' /\
   Z.of_nat (FrameCodec_buffered_bytes self) < 4 + MAX_BACKEND_PAYLOAD_BYTES /\
   (eo <> None -> FrameCodec_buffered_bytes self = 0%nat)).
Proof. split; by apply feed_bounded. Qed.

Lemma backend_stream_bounded_witness :
  let run := client_stream demo_from_req (fun _ => true) FrameCodec_new in
  snd (run [[0; 0]; [0; 0; 9; 9]]) = Some (EmptyFrame "backend") /\
  snd (run [[0; 0]; [0; 0; 9; 9]]) = snd (run [[0]; [0; 0]; [0; 9]; [9]]) /\
  FrameCodec_buffered_bytes (fst (fst (run [[0; 0]; [0; 0; 9; 9]]))) = 0%nat.
Proof.
  pose proof (proj1 (backend_stream_bounded demo_sha256 demo_from_req demo_from_msg (fun _ => true)
    (fun _ _ => eq_refl) [[0; 0]; [0; 0; 9; 9]] [[0]; [0; 0]; [0; 9]; [9]] eq_refl)) as H.
  vm_compute in H. destruct H as (_ & He & _ & Hb). split; [reflexivity|].
  split; [exact He|]. apply Hb. discriminate.
Defined.

(** The one-shot decoders and the incremental codec accept the same frames: a complete
    frame decodes to a message in one shot iff a fresh codec consumes exactly that frame and
    yields the message. *)
Theorem one_shot_matches_incremental sha256 from_req from_msg try_reserve
    (reserve_bounded : forall n, Z.of_nat n <= MAX_BACKEND_PAYLOAD_BYTES -> try_reserve n = true)
    frame :
  (forall m, decode_backend_request from_req frame = Ok m <->
     exists self, decode_client from_req try_reserve frame FrameCodec_new
                  = (self, Ok (length frame, Some m))) /\
  (forall m, decode_backend_message sha256 from_msg frame = Ok m <->
     exists self, decode_server sha256 from_msg try_reserve frame FrameCodec_new
                  = (self, Ok (length frame, Some m))).
Proof. split; intros m; exact (decode_one_shot _ _ _ reserve_bounded frame m). Qed.

Lemma one_shot_matches_incremental_witness :
  exists self, decode_client demo_from_req (fun _ => true) [0; 0; 0; 2; 2; 5] FrameCodec_new
               = (self, Ok (6%nat, Some (Health 2 5))).
Proof.
  exact (proj1 (proj1 (one_shot_matches_incremental demo_sha256 demo_from_req demo_from_msg
    (fun _ => true) (fun _ _ => eq_refl) [0; 0; 0; 2; 2; 5]) (Health 2 5)) eq_refl).
Defined.
