(* ===== verification/Hex.v ===== *)
(** Hexadecimal text of fixed-size values: the canonical parser of
    crates/wcash-pool-protocol/src/fixed_hex.rs and the case-insensitive one miners get in
    crates/wcash-pool-protocol/src/zip301.rs.  The [hex] crate is a parameter, with its
    documented behaviour as the class [HexLaws]. *)

From Stdlib Require Import ZArith Lia.
From stdpp Require Import prelude gmap sorting strings pretty.
From S2P Require Import Prelude Wire Backend.
Open Scope Z_scope.

(** [hex::encode], and [hex::decode_to_slice] into a slice of the given length. *)
Class HexOps : Type := {
  hex_encode : list Z -> string;
  hex_decode_to_slice : nat -> string -> result (list Z) string
}.

Definition is_lower_hex (b : Z) : bool := is_ascii_digit b || ((97 <=? b) && (b <=? 102)).
Definition is_ascii_hexdigit (b : Z) : bool := is_lower_hex b || ((65 <=? b) && (b <=? 70)).
Definition to_lower (b : Z) : Z := if (65 <=? b) && (b <=? 90) then b + 32 else b.

(** What the crate documents: encoding is lower case, two characters a byte; decoding accepts
    either case and is inverse to encoding. *)
Class HexLaws `{!HexOps} : Prop := {
  hex_encode_length b : String.length (hex_encode b) = (2 * length b)%nat;
  hex_encode_lower b : Forall is_byte b -> forallb is_lower_hex (str_bytes (hex_encode b)) = true;
  hex_decode_encode n b : byte_array n b -> hex_decode_to_slice n (hex_encode b) = Ok b;
  hex_decode_digits n s :
    String.length s = (2 * n)%nat -> forallb is_ascii_hexdigit (str_bytes s) = true ->
    exists b, byte_array n b /\ hex_decode_to_slice n s = Ok b /\
              str_bytes (hex_encode b) = to_lower <$> str_bytes s
}.

Section Parsers.
Context {hex_ops : HexOps}.

(** [FixedHex::to_string]. *)
Definition FixedHex_to_string {N} (self : FixedHex N) : string := hex_encode (as_bytes self).

Definition FixedHex_parse (N : nat) (encoded : string) : result (FixedHex N) ProtocolError :=
  let expected := (N * 2)%nat in
  if negb (String.length encoded =? expected)%nat
  then Err (invalid "hexadecimal value"
              ("must contain exactly " +:+ pretty expected +:+ " characters")) else
  if negb (forallb is_lower_hex (str_bytes encoded))
  then Err (invalid "hexadecimal value" "must use canonical lowercase hexadecimal") else
  let? bytes := map_err (invalid "hexadecimal value") (hex_decode_to_slice N encoded) in
  Ok (FixedHex_new bytes).

Definition parse_miner_hex (N : nat) (encoded field : string) : result (FixedHex N) ProtocolError :=
  let expected := (N * 2)%nat in
  if negb (String.length encoded =? expected)%nat
  then Err (invalid field ("must contain exactly " +:+ pretty expected +:+ " hexadecimal characters")) else
  if negb (forallb is_ascii_hexdigit (str_bytes encoded))
  then Err (invalid field "contains non-hexadecimal characters") else
  let? bytes := map_err (invalid field) (hex_decode_to_slice N encoded) in
  Ok (FixedHex_new bytes).

Context {hex_laws : HexLaws}.

Lemma lower_is_hex b : is_lower_hex b = true -> is_ascii_hexdigit b = true /\ to_lower b = b.
Proof.
  unfold is_ascii_hexdigit, to_lower. intros H. rewrite H. split; [done|].
  unfold is_lower_hex, is_ascii_digit in H. destruct (Z.leb_spec 65 b), (Z.leb_spec b 90); try done.
  apply orb_true_iff in H as [H|H]; boolprop; lia.
Qed.

Lemma lower_string l :
  forallb is_lower_hex l = true -> forallb is_ascii_hexdigit l = true /\ to_lower <$> l = l.
Proof.
  induction l as [|b l IH]; [done|]. cbn [forallb]. intros [Hb Hl]%andb_true_iff.
  destruct (IH Hl) as [H1 H2], (lower_is_hex b Hb) as [H3 H4].
  rewrite fmap_cons, H1, H2, H3, H4. done.
Qed.

Lemma parse_miner_hex_Ok N s field (h : FixedHex N) :
  parse_miner_hex N s field = Ok h <->
  String.length s = (2 * N)%nat /\ forallb is_ascii_hexdigit (str_bytes s) = true /\
  hex_wf h /\ str_bytes (FixedHex_to_string h) = to_lower <$> str_bytes s.
Proof.
  unfold parse_miner_hex. destruct (Nat.eqb_spec (String.length s) (N * 2)) as [Hl|Hl]; cbn [negb];
    [|split; [done|lia]].
  destruct (forallb is_ascii_hexdigit (str_bytes s)) eqn:Hd; cbn [negb]; [|by split; [|intros (_ & ? & _)]].
  destruct (hex_decode_digits N s ltac:(lia) Hd) as (b & Hb & -> & He). cbn [map_err]. split.
  - intros [= <-]. split_and!; [lia|done|done|done].
  - intros (_ & _ & Hh & Ht). f_equal. destruct h as [h]. f_equal.
    unfold FixedHex_to_string in Ht. rewrite <- He in Ht. apply str_bytes_inj in Ht. cbn in Ht.
    pose proof (hex_decode_encode N h Hh) as E1. rewrite Ht, (hex_decode_encode N b Hb) in E1. congruence.
Qed.

(** A fixed-size value has exactly one accepted text: the one it prints. *)
Lemma FixedHex_parse_Ok N s (h : FixedHex N) :
  FixedHex_parse N s = Ok h <-> hex_wf h /\ s = FixedHex_to_string h.
Proof.
  assert (FixedHex_parse N s = Ok h <->
          forallb is_lower_hex (str_bytes s) = true /\ parse_miner_hex N s "hexadecimal value" = Ok h) as ->.
  { unfold FixedHex_parse, parse_miner_hex. destruct (String.length s =? N * 2)%nat; cbn [negb]; [|naive_solver].
    destruct (forallb is_lower_hex (str_bytes s)) eqn:E; cbn [negb]; [|naive_solver].
    destruct (lower_string _ E) as [-> _]. naive_solver. }
  rewrite parse_miner_hex_Ok. split.
  - intros (Hl & _ & _ & Hw & Ht). split; [done|]. destruct (lower_string _ Hl) as [_ E].
    apply str_bytes_inj. by rewrite Ht, E.
  - intros [Hw ->]. pose proof (hex_encode_lower (as_bytes h) (proj2 Hw)) as Hl.
    destruct (lower_string _ Hl) as [H1 H2]. unfold FixedHex_to_string.
    split_and!; [done| |done|done|done]. rewrite hex_encode_length. destruct Hw as [-> _]. lia.
Qed.
End Parsers.

(** ** A concrete codec with the documented behaviour *)

Definition nibble (n : Z) : Z := if n <? 10 then 48 + n else 87 + n.
Definition unnibble (c : Z) : Z :=
  if is_ascii_digit c then c - 48 else if c <=? 70 then c - 55 else c - 87.

Fixpoint encode_pairs (l : list Z) : list Z :=
  match l with
  | [] => []
  | b :: l' => nibble (b / 16) :: nibble (b mod 16) :: encode_pairs l'
  end.

Fixpoint decode_pairs (l : list Z) : list Z :=
  match l with
  | hi :: lo :: l' => 16 * unnibble hi + unnibble lo :: decode_pairs l'
  | _ => []
  end.

Definition bytes_string (l : list Z) : string :=
  String.string_of_list_ascii ((fun b => Ascii.ascii_of_N (Z.to_N b)) <$> l).

Definition demo_hex_ops : HexOps := {|
  hex_encode b := bytes_string (encode_pairs b);
  hex_decode_to_slice n s :=
    if (String.length s =? 2 * n)%nat && forallb is_ascii_hexdigit (str_bytes s)
    then Ok (decode_pairs (str_bytes s)) else Err "invalid"%string
|}.

Lemma nibble_spec n : 0 <= n < 16 ->
  is_lower_hex (nibble n) = true /\ unnibble (nibble n) = n /\ is_byte (nibble n).
Proof.
  intros Hn. assert (n ∈ seqZ 0 16) as Hin by (apply elem_of_seqZ; lia).
  assert (Forall (fun n => is_lower_hex (nibble n) = true /\ unnibble (nibble n) = n /\
    is_byteb (nibble n) = true) (seqZ 0 16)) as Hall by (vm_compute; repeat constructor).
  rewrite Forall_forall in Hall. destruct (Hall n Hin) as (H1 & H2 & H3). unfold is_byteb in H3.
  boolprop. refine (conj H1 (conj H2 _)). unfold is_byte. lia.
Qed.

Lemma unnibble_spec c : is_ascii_hexdigit c = true ->
  0 <= unnibble c < 16 /\ nibble (unnibble c) = to_lower c.
Proof.
  intros Hc. assert (c ∈ seqZ 0 128) as Hin.
  { apply elem_of_seqZ. unfold is_ascii_hexdigit, is_lower_hex, is_ascii_digit in Hc.
    apply orb_true_iff in Hc as [Hc|Hc]; [apply orb_true_iff in Hc as [Hc|Hc]|]; boolprop; lia. }
  assert (Forall (fun c => is_ascii_hexdigit c = true ->
     ((0 <=? unnibble c) && (unnibble c <? 16)) = true /\ nibble (unnibble c) = to_lower c) (seqZ 0 128))
    as Hall by (vm_compute; repeat constructor; done).
  rewrite Forall_forall in Hall. destruct (Hall c Hin Hc) as [H1 H2]. boolprop. lia.
Qed.

Lemma str_bytes_string l : Forall is_byte l -> str_bytes (bytes_string l) = l.
Proof.
  intros Hl. unfold str_bytes, bytes_string. rewrite String.list_ascii_of_string_of_list_ascii.
  rewrite <- list_fmap_compose. rewrite <- (list_fmap_id l) at 2. apply list_fmap_ext.
  intros i b Hb. apply (Forall_lookup_1 _ _ _ _ Hl) in Hb. unfold is_byte in Hb. cbn.
  rewrite Ascii.N_ascii_embedding by lia. lia.
Qed.

Lemma encode_pairs_spec l : Forall is_byte l ->
  Forall is_byte (encode_pairs l) /\ forallb is_lower_hex (encode_pairs l) = true /\
  decode_pairs (encode_pairs l) = l.
Proof.
  induction 1 as [|b l Hb _ (IH1 & IH2 & IH3)]; [done|]. unfold is_byte in Hb.
  pose proof (Z.div_mod b 16). pose proof (Z.mod_pos_bound b 16).
  destruct (nibble_spec (b / 16)) as (A1 & A2 & A3); [split; [apply Z.div_pos; lia|apply Z.div_lt_upper_bound; lia]|].
  destruct (nibble_spec (b mod 16)) as (B1 & B2 & B3); [lia|].
  cbn [encode_pairs decode_pairs forallb]. rewrite A1, B1, A2, B2, IH2, IH3.
  refine (conj _ (conj _ _)); [by do 2 (constructor; [done|])|done|f_equal; lia].
Qed.

Lemma decode_pairs_spec n l : length l = (2 * n)%nat -> forallb is_ascii_hexdigit l = true ->
  byte_array n (decode_pairs l) /\ encode_pairs (decode_pairs l) = to_lower <$> l.
Proof.
  revert l; induction n as [|n IH]; intros [|hi [|lo l]] Hl Hd; cbn [length] in Hl; try lia; [done|].
  cbn [forallb] in Hd. boolprop.
  destruct (IH l ltac:(lia) H1) as [[IH1 IH2] IH3].
  destruct (unnibble_spec hi H) as [A1 A2], (unnibble_spec lo H0) as [B1 B2].
  cbn [decode_pairs encode_pairs]. rewrite !fmap_cons, IH3, <- A2, <- B2. split.
  - split; [cbn; by rewrite IH1|]. constructor; [unfold is_byte; lia|done].
  - assert ((16 * unnibble hi + unnibble lo) / 16 = unnibble hi) as ->
      by (symmetry; apply Z.div_unique with (unnibble lo); lia).
    assert ((16 * unnibble hi + unnibble lo) mod 16 = unnibble lo) as ->
      by (symmetry; apply Z.mod_unique with (unnibble hi); lia). done.
Qed.

Lemma length_encode_pairs l : length (encode_pairs l) = (2 * length l)%nat.
Proof. induction l as [|b l IH]; [done|]. cbn [encode_pairs length]. lia. Qed.

Lemma length_bytes_string l : String.length (bytes_string l) = length l.
Proof. unfold bytes_string. induction l as [|b l IH]; [done|]. cbn. by rewrite IH. Qed.

Lemma length_str_bytes s : length (str_bytes s) = String.length s.
Proof. unfold str_bytes. rewrite length_fmap. induction s as [|a s IH]; [done|]. cbn. by rewrite IH. Qed.

Lemma demo_hex_laws : @HexLaws demo_hex_ops.
Proof.
  split; cbn [hex_encode hex_decode_to_slice demo_hex_ops].
  - intros b. by rewrite length_bytes_string, length_encode_pairs.
  - intros b Hb. destruct (encode_pairs_spec b Hb) as (H1 & H2 & _). by rewrite str_bytes_string.
  - intros n b [Hn Hb]. destruct (encode_pairs_spec b Hb) as (H1 & H2 & H3).
    rewrite length_bytes_string, length_encode_pairs, Hn, Nat.eqb_refl, str_bytes_string, H3 by done.
    by rewrite (proj1 (lower_string _ H2)).
  - intros n s Hl Hd. rewrite <- length_str_bytes in Hl. destruct (decode_pairs_spec n _ Hl Hd) as [H1 H2].
    exists (decode_pairs (str_bytes s)). rewrite length_str_bytes in Hl. rewrite Hl, Hd, Nat.eqb_refl.
    split_and!; [done|done|]. rewrite str_bytes_string; [done|]. by apply encode_pairs_spec, H1.
Qed.

(** Hexadecimal text is canonical on the backend wire and normalised on the miner wire: the
    canonical parser accepts exactly the text a value prints, so print and parse are inverse
    and no value has a second spelling; the miner parser accepts exactly the digit strings
    whose lower-case form is that text. *)
Theorem hex_text_canonical (hex_ops : HexOps) (hex_laws : HexLaws) N (s field : string)
    (h : FixedHex N) :
  (FixedHex_parse N s = Ok h <-> hex_wf h /\ s = FixedHex_to_string h) /\
  (parse_miner_hex N s field = Ok h <->
   String.length s = (2 * N)%nat /\ forallb is_ascii_hexdigit (str_bytes s) = true /\
   hex_wf h /\ str_bytes (FixedHex_to_string h) = to_lower <$> str_bytes s).
Proof. split; [apply FixedHex_parse_Ok|apply parse_miner_hex_Ok]. Qed.

Lemma hex_text_canonical_witness :
  @FixedHex_parse demo_hex_ops 4 "00ffa109" = Ok (FixedHex_new [0; 255; 161; 9]) /\
  @parse_miner_hex demo_hex_ops 4 "00FFa109" "time" = Ok (FixedHex_new [0; 255; 161; 9]).
Proof.
  split.
  - apply (proj2 (proj1 (hex_text_canonical demo_hex_ops demo_hex_laws 4 "00ffa109" "time"
      (FixedHex_new [0; 255; 161; 9])))).
    split; [|reflexivity]. split; [reflexivity|]. repeat constructor; lia.
  - apply (proj2 (proj2 (hex_text_canonical demo_hex_ops demo_hex_laws 4 "00FFa109" "time"
      (FixedHex_new [0; 255; 161; 9])))).
    split; [reflexivity|]. split; [reflexivity|]. split; [|reflexivity].
    split; [reflexivity|]. repeat constructor; lia.
Defined.
