(* ===== verification/Zip301.v ===== *)
(** The miner-facing protocol (crates/wcash-pool-protocol/src/zip301.rs): request decoding,
    the line codec and message encoding.  serde_json (its [Value], [from_slice] and [to_vec]),
    the [hex] crate and the allocator are parameters. *)

From Stdlib Require Import ZArith Lia.
From stdpp Require Import prelude gmap sorting strings pretty.
From S2P Require Import Prelude Wire Backend Stream Hex.
Open Scope Z_scope.

Definition MAX_ZIP301_PAYLOAD_BYTES : Z := 64 * 1024.

(** What the code uses of [serde_json::Value]. *)
Inductive value_kind : Type := KNull | KNumber | KString (s : string) | KOther.

Class JsonOps : Type := {
  Value : Type;
  kind_of : Value -> value_kind;
  as_array : Value -> option (list Value);
  as_str : Value -> option string;
  as_u64 : Value -> option Z;
  json_null : Value;
  json_bool : bool -> Value;
  json_i32 : Z -> Value;
  json_str : string -> Value;
  json_array : list Value -> Value
}.

Inductive Zip301Id : Type :=
| IdNumber (n : Z)
| IdString (s : string)
| IdNull.

#[global] Instance Zip301Id_eq_dec : EqDecision Zip301Id.
Proof. solve_decision. Defined.

Definition Zip301Id_validate (self : Zip301Id) : result unit ProtocolError :=
  match self with
  | IdNumber _ | IdNull => Ok tt
  | IdString value => validate_bounded_text value 1 64 "ZIP-301 id"
  end.

Record Zip301Notify : Type := mkZip301Notify {
  zn_job_id : Hex32;
  zn_header_input : Hex108;
  zn_clean_jobs : bool
}.

Definition Zip301Notify_validate (self : Zip301Notify) : result unit ProtocolError :=
  let? _ := require_nonzero_hex (zn_job_id self) "mining.notify job id" in
  validate_v4_header_input (zn_header_input self) "mining.notify version" "mining.notify time".

Inductive Zip301ServerMessage : Type :=
| Subscribed (id : Zip301Id) (nonce_1 : NoncePrefix)
| Boolean (id : Zip301Id) (result : bool)
| ErrorReply (id : Zip301Id) (code : Z) (message : string)
| SetTarget (target_be : TargetBe)
| Notify (notify : Zip301Notify).

Definition LF : Z := 10.
Definition CR : Z := 13.

(** [slice.iter().position(|byte| *byte == b'\n')]. *)
Fixpoint position_lf (l : list Z) : option nat :=
  match l with
  | [] => None
  | b :: l' => if b =? LF then Some 0%nat else S <$> position_lf l'
  end.

(** [frame.split_last()] matched against a line feed, then the payload's shape. *)
Definition zip301_payload (frame : list Z) : result (list Z) ProtocolError :=
  match last frame with
  | Some b =>
      if negb (b =? LF) then Err InvalidLineFraming else
      let payload := take (length frame - 1) frame in
      if bool_decide (payload = []) then Err (EmptyFrame "ZIP-301") else
      if MAX_ZIP301_PAYLOAD_BYTES <? Z.of_nat (length payload)
      then Err (FrameTooLarge "ZIP-301" MAX_ZIP301_PAYLOAD_BYTES (Z.of_nat (length payload))) else
      if existsb (fun b => (b =? LF) || (b =? CR)) payload
         || negb (bool_decide (head payload = Some 123))
         || negb (bool_decide (last payload = Some 125))
      then Err InvalidLineFraming else
      Ok payload
  | None => Err InvalidLineFraming
  end.

Record Zip301FrameCodec : Type := mkZip301FrameCodec { zc_payload : list Z }.

Definition Zip301FrameCodec_new : Zip301FrameCodec := mkZip301FrameCodec [].
Definition Zip301FrameCodec_buffered_bytes (self : Zip301FrameCodec) : nat := length (zc_payload self).
Definition Zip301FrameCodec_reset (self : Zip301FrameCodec) : Zip301FrameCodec := mkZip301FrameCodec [].

(** [mem::take] of the payload, and [extend_from_slice] followed by [push]. *)
Definition zip301_extend (l : list Z) (self : Zip301FrameCodec) : Zip301FrameCodec :=
  mkZip301FrameCodec (zc_payload self ++ l).

Section Requests.
Context {json : JsonOps} {hex_ops : HexOps}.

Inductive Zip301Request : Type :=
| Subscribe (id : Zip301Id) (params : list Value)
| Authorize (id : Zip301Id) (worker password : string)
| SuggestTarget (id : Zip301Id) (target_be : TargetBe)
| ExtranonceSubscribe (id : Zip301Id)
| MultiVersion (id : Zip301Id) (requested_versions : Z)
| Submit (id : Zip301Id) (worker : string) (job_id : Hex32) (time : Hex4)
    (nonce_2 : NonceSuffix) (solution : Hex1344).

Definition Zip301Request_id (self : Zip301Request) : Zip301Id :=
  match self with
  | Subscribe id _ | Authorize id _ _ | SuggestTarget id _ | ExtranonceSubscribe id
  | MultiVersion id _ | Submit id _ _ _ _ _ => id
  end.

Record RawZip301Request : Type := mkRawZip301Request {
  raw_id : Zip301Id; raw_method : string; raw_params : Value
}.

Definition require_parameter_count (params : list Value) (expected : nat) (method : string) :
    result unit ProtocolError :=
  check (length params =? expected)%nat "ZIP-301 params"
    (method +:+ " requires exactly " +:+ pretty expected +:+ " parameters").

Definition parameter_string (params : list Value) (index : nat) (field : string) :
    result string ProtocolError :=
  ok_or (params !! index ≫= as_str) (invalid field "must be a string").

Definition validate_subscribe_value (value : Value) : result unit ProtocolError :=
  match kind_of value with
  | KNull | KNumber => Ok tt
  | KString s => validate_bounded_text s 0 256 "mining.subscribe parameter"
  | KOther => Err (invalid "mining.subscribe parameter" "must be null, a number, or a bounded string")
  end.

Definition validate_subscribe_params (params : list Value) : result unit ProtocolError :=
  let? _ := check (negb (8 <? length params)%nat) "mining.subscribe params"
              "must contain at most eight compatibility values" in
  validate_all validate_subscribe_value params.

Definition decode_zip301_submit (id : Zip301Id) (params : list Value) (profile : NonceProfile) :
    result Zip301Request ProtocolError :=
  let? _ := require_parameter_count params 5 "mining.submit" in
  let? worker := parameter_string params 0 "mining.submit worker" in
  let? _ := validate_worker_label worker in
  let? encoded_job := parameter_string params 1 "mining.submit job id" in
  let? job_id := parse_miner_hex 32 encoded_job "mining.submit job id" in
  let? _ := require_nonzero_hex job_id "mining.submit job id" in
  let? encoded_time := parameter_string params 2 "mining.submit time" in
  let? time := parse_miner_hex 4 encoded_time "mining.submit time" in
  let? _ := require_nonzero_hex time "mining.submit time" in
  let? encoded_nonce := parameter_string params 3 "mining.submit nonce_2" in
  let? nonce_2 :=
    match profile with
    | FourByte => let? h := parse_miner_hex 28 encoded_nonce "mining.submit nonce_2" in Ok (TwentyEight h)
    | EightByte => let? h := parse_miner_hex 24 encoded_nonce "mining.submit nonce_2" in Ok (TwentyFour h)
    end in
  let? encoded_solution := parameter_string params 4 "mining.submit solution" in
  let? compact_solution := parse_miner_hex 1347 encoded_solution "mining.submit solution" in
  let? _ := check (bool_decide (take 3 (as_bytes compact_solution) = EQUIHASH_SOLUTION_COMPACT_SIZE))
              "mining.submit solution" "must start with canonical CompactSize fd4005" in
  let solution := drop 3 (as_bytes compact_solution) in
  let? _ := check (length solution =? 1344)%nat "mining.submit solution"
              "has an impossible decoded length" in
  Ok (Submit id worker job_id time nonce_2 (FixedHex_new solution)).

(** The dispatch of [decode_zip301_request] on a parsed request. *)
Definition dispatch_request (raw : RawZip301Request) (profile : NonceProfile) :
    result Zip301Request ProtocolError :=
  let? _ := Zip301Id_validate (raw_id raw) in
  let? _ := check (negb ((128 <? String.length (raw_method raw))%nat
                         || existsb is_ascii_control (str_bytes (raw_method raw))))
              "ZIP-301 method" "is malformed or too long" in
  let? params := ok_or (as_array (raw_params raw)) (invalid "ZIP-301 params" "must be an array") in
  if bool_decide (raw_method raw = "mining.subscribe"%string) then
    let? _ := validate_subscribe_params params in
    Ok (Subscribe (raw_id raw) params)
  else if bool_decide (raw_method raw = "mining.authorize"%string) then
    let? _ := require_parameter_count params 2 "mining.authorize" in
    let? worker := parameter_string params 0 "mining.authorize worker" in
    let? _ := validate_worker_label worker in
    let? password := parameter_string params 1 "mining.authorize password" in
    let? _ := validate_bounded_text password 0 1024 "mining.authorize password" in
    Ok (Authorize (raw_id raw) worker password)
  else if bool_decide (raw_method raw = "mining.suggest_target"%string) then
    let? _ := require_parameter_count params 1 "mining.suggest_target" in
    let? encoded := parameter_string params 0 "mining.suggest_target target" in
    let? target := parse_miner_hex 32 encoded "mining.suggest_target target" in
    let? _ := require_nonzero_hex target "mining.suggest_target target" in
    Ok (SuggestTarget (raw_id raw) (TargetBe_new (as_bytes target)))
  else if bool_decide (raw_method raw = "mining.extranonce.subscribe"%string) then
    let? _ := require_parameter_count params 0 "mining.extranonce.subscribe" in
    Ok (ExtranonceSubscribe (raw_id raw))
  else if bool_decide (raw_method raw = "mining.multi_version"%string) then
    let? _ := require_parameter_count params 1 "mining.multi_version" in
    let? requested := ok_or
      (v ← params !! 0%nat ≫= as_u64; if (v <=? U32_MAX) && (0 <? v) then Some v else None)
      (invalid "mining.multi_version count" "must be a nonzero 32-bit unsigned integer") in
    Ok (MultiVersion (raw_id raw) requested)
  else if bool_decide (raw_method raw = "mining.submit"%string) then
    decode_zip301_submit (raw_id raw) params profile
  else Err (UnsupportedMethod (raw_method raw)).

(** ** The line codec *)

(** serde_json::from_slice::<RawZip301Request>. *)
Variable from_slice : list Z -> result RawZip301Request string.
(** Whether [try_reserve_exact] of so many bytes succeeds. *)
Variable try_reserve : nat -> bool.

Definition decode_zip301_request (frame : list Z) (profile : NonceProfile) :
    result Zip301Request ProtocolError :=
  let? payload := zip301_payload frame in
  let? raw := map_err Json (from_slice payload) in
  dispatch_request raw profile.

Definition reserve_failed : ProtocolError :=
  invalid "ZIP-301 decoder" "could not reserve bounded payload".

Definition decode_request (input : list Z) (profile : NonceProfile) :
    M Zip301FrameCodec ProtocolError (nat * option Zip301Request) :=
  let* self := st_get in
  let buffered := length (zc_payload self) in
  if MAX_ZIP301_PAYLOAD_BYTES <? Z.of_nat buffered
  then do* st_modify Zip301FrameCodec_reset in
       st_throw (invalid "ZIP-301 decoder" "buffer exceeded its payload limit") else
  let remaining := (Z.to_nat MAX_ZIP301_PAYLOAD_BYTES - buffered)%nat in
  let inspected := Nat.min (length input) (remaining + 1) in
  match position_lf (take inspected input) with
  | None =>
      if (remaining <? length input)%nat
      then do* st_modify Zip301FrameCodec_reset in
           st_throw (FrameTooLarge "ZIP-301" MAX_ZIP301_PAYLOAD_BYTES (MAX_ZIP301_PAYLOAD_BYTES + 1)) else
      if negb (try_reserve (length input))
      then do* st_modify Zip301FrameCodec_reset in st_throw reserve_failed else
      do* st_modify (zip301_extend input) in
      st_ret (length input, None)
  | Some payload_bytes =>
      if negb (try_reserve (payload_bytes + 1))
      then do* st_modify Zip301FrameCodec_reset in st_throw reserve_failed else
      do* st_modify (zip301_extend (take payload_bytes input ++ [LF])) in
      let* self := st_get in
      let frame := zc_payload self in
      do* st_modify (fun _ => mkZip301FrameCodec []) in
      let* decoded := st_lift (decode_zip301_request frame profile) in
      st_ret ((payload_bytes + 1)%nat, Some decoded)
  end.

(** The reading loop of a miner connection. *)
Definition miner_stream (profile : NonceProfile) : Zip301FrameCodec -> list (list Z) ->
    Zip301FrameCodec * list Zip301Request * option ProtocolError :=
  @feed _ _ _ (fun self input => decode_request input profile self).

(** ** Server messages *)

Record Zip301Response : Type := mkZip301Response {
  rs_id : Zip301Id; rs_result : Value; rs_error : Value
}.
Record Zip301Notification : Type := mkZip301Notification {
  nt_id : Value; nt_method : string; nt_params : Value
}.

(** serde_json::to_vec on the two message shapes. *)
Variable response_to_vec : Zip301Response -> result (list Z) string.
Variable notification_to_vec : Zip301Notification -> result (list Z) string.

Definition encode_zip301_serializable (serialized : result (list Z) string) :
    result (list Z) ProtocolError :=
  let? payload := map_err Json serialized in
  if bool_decide (payload = []) then Err (EmptyFrame "ZIP-301") else
  if MAX_ZIP301_PAYLOAD_BYTES <? Z.of_nat (length payload)
  then Err (FrameTooLarge "ZIP-301" MAX_ZIP301_PAYLOAD_BYTES (Z.of_nat (length payload))) else
  Ok (payload ++ [LF]).

Definition NoncePrefix_encoded (self : NoncePrefix) : string :=
  match self with Four h => FixedHex_to_string h | Eight h => FixedHex_to_string h end.

(** The eight parameters of [mining.notify]. *)
Definition notify_params (notify : Zip301Notify) : list Value :=
  let input := as_bytes (zn_header_input notify) in
  [json_str (FixedHex_to_string (zn_job_id notify));
   json_str (hex_encode (slice 0 4 input));
   json_str (hex_encode (slice 4 36 input));
   json_str (hex_encode (slice 36 68 input));
   json_str (hex_encode (slice 68 100 input));
   json_str (hex_encode (slice 100 104 input));
   json_str (hex_encode (slice 104 108 input));
   json_bool (zn_clean_jobs notify)].

Definition encode_zip301_message (message : Zip301ServerMessage) : result (list Z) ProtocolError :=
  match message with
  | Subscribed id nonce_1 =>
      let? _ := Zip301Id_validate id in
      encode_zip301_serializable (response_to_vec
        (mkZip301Response id (json_array [json_null; json_str (NoncePrefix_encoded nonce_1)]) json_null))
  | Boolean id ok =>
      let? _ := Zip301Id_validate id in
      let? _ := check ok "ZIP-301 boolean response" "false failures must use a typed Error response" in
      encode_zip301_serializable (response_to_vec (mkZip301Response id (json_bool ok) json_null))
  | ErrorReply id code text =>
      let? _ := Zip301Id_validate id in
      let? _ := validate_bounded_text text 1 256 "ZIP-301 error message" in
      encode_zip301_serializable (response_to_vec
        (mkZip301Response id json_null (json_array [json_i32 code; json_str text; json_null])))
  | SetTarget target_be =>
      let? _ := check (negb (TargetBe_is_zero target_be)) "mining.set_target target" "must be nonzero" in
      encode_zip301_serializable (notification_to_vec
        (mkZip301Notification json_null "mining.set_target"
           (json_array [json_str (hex_encode (tbe_bytes target_be))])))
  | Notify notify =>
      let? _ := Zip301Notify_validate notify in
      encode_zip301_serializable (notification_to_vec
        (mkZip301Notification json_null "mining.notify" (json_array (notify_params notify))))
  end.
End Requests.

(** ** The line splitter *)

Lemma position_lf_None l : position_lf l = None <-> LF ∉ l.
Proof.
  induction l as [|b l IH]; cbn [position_lf]; [split; [intros _; apply not_elem_of_nil|done]|].
  rewrite not_elem_of_cons, <- IH. destruct (Z.eqb_spec b LF) as [->|Hb]; [naive_solver|].
  destruct (position_lf l); naive_solver.
Qed.

Lemma position_lf_Some l k :
  position_lf l = Some k <-> (k < length l)%nat /\ take (S k) l = take k l ++ [LF] /\ LF ∉ take k l.
Proof.
  revert k; induction l as [|b l IH]; intros k; cbn [position_lf]; [split; [done|cbn; lia]|].
  destruct (Z.eqb_spec b LF) as [->|Hb].
  - split; [intros [= <-]; cbn; split_and!; [lia|done|apply not_elem_of_nil]|].
    intros (_ & _ & Hn). destruct k as [|k]; [done|]. rewrite firstn_cons, not_elem_of_cons in Hn. naive_solver.
  - destruct k as [|k].
    + split; [by destruct (position_lf l)|]. cbn. intros (_ & [= ->] & _). done.
    + rewrite !firstn_cons, not_elem_of_cons. cbn [length app].
      transitivity (position_lf l = Some k); [destruct (position_lf l); cbn; naive_solver|].
      rewrite IH. rewrite <- Nat.succ_lt_mono, !(inj_iff (cons b)). naive_solver.
Qed.

Lemma position_lf_app l1 l2 :
  LF ∉ l1 -> position_lf (l1 ++ l2) = (fun k => (length l1 + k)%nat) <$> position_lf l2.
Proof.
  induction l1 as [|b l1 IH]; intros Hn; cbn [app position_lf length]; [by destruct (position_lf l2)|].
  rewrite not_elem_of_cons in Hn. destruct (Z.eqb_spec b LF) as [->|Hb]; [naive_solver|].
  rewrite IH by naive_solver. by destruct (position_lf l2).
Qed.

Lemma position_lf_app_Some l1 l2 k : position_lf l1 = Some k -> position_lf (l1 ++ l2) = Some k.
Proof.
  rewrite !position_lf_Some. intros (Hk & Ht & Hn). rewrite length_app, !take_app_le by lia.
  split_and!; [lia|done|done].
Qed.

Definition line_limit : nat := Z.to_nat MAX_ZIP301_PAYLOAD_BYTES.

Ltac limits := unfold line_limit, MAX_ZIP301_PAYLOAD_BYTES in *.

Definition line_split (s : list Z) : frame_view ProtocolError :=
  match position_lf (take (line_limit + 1) s) with
  | Some k => Complete (take (S k) s) (drop (S k) s)
  | None =>
      if (line_limit <? length s)%nat
      then Rejected (FrameTooLarge "ZIP-301" MAX_ZIP301_PAYLOAD_BYTES (MAX_ZIP301_PAYLOAD_BYTES + 1))
      else Incomplete
  end.

Lemma line_split_app s t k :
  position_lf (take (line_limit + 1) s) = Some k ->
  (k < length s)%nat /\ position_lf (take (line_limit + 1) (s ++ t)) = Some k.
Proof.
  intros H. pose proof (proj1 (position_lf_Some _ _) H) as (Hk & _). rewrite length_take in Hk.
  split; [lia|]. rewrite take_app. by apply position_lf_app_Some.
Qed.

Lemma line_split_complete_app s t f r :
  line_split s = Complete f r -> line_split (s ++ t) = Complete f (r ++ t).
Proof.
  unfold line_split. destruct (position_lf (take (line_limit + 1) s)) as [k|] eqn:E; [|by case_match].
  intros [= <- <-]. destruct (line_split_app s t k E) as [Hk ->].
  by rewrite take_app_le, drop_app_le by lia.
Qed.

Lemma line_split_rejected_app s t e :
  line_split s = Rejected e -> line_split (s ++ t) = Rejected e.
Proof.
  unfold line_split. destruct (position_lf (take (line_limit + 1) s)) as [k|] eqn:E; [done|].
  destruct (Nat.ltb_spec line_limit (length s)) as [Hl|Hl]; [|done]. intros <-.
  rewrite take_app_le by lia. rewrite E. rewrite length_app.
  destruct (Nat.ltb_spec line_limit (length s + length t)); [done|lia].
Qed.

Lemma line_split_shrinks s f r : line_split s = Complete f r -> (length r < length s)%nat.
Proof.
  unfold line_split. destruct (position_lf (take (line_limit + 1) s)) as [k|] eqn:E; [|by case_match].
  intros [= _ <-]. destruct (line_split_app s [] k E) as [Hk _]. rewrite length_drop. lia.
Qed.

(** A codec state holds an unfinished line. *)
Definition zc_inv (self : Zip301FrameCodec) : Prop :=
  (length (zc_payload self) <= line_limit)%nat /\ LF ∉ zc_payload self.

Lemma zc_buffer_incomplete self : zc_inv self -> line_split (zc_payload self) = Incomplete.
Proof.
  intros [Hl Hn]. unfold line_split. rewrite take_ge by lia.
  rewrite (proj2 (position_lf_None _) Hn). by destruct (Nat.ltb_spec line_limit (length (zc_payload self))); [lia|].
Qed.

Lemma zc_new_inv : zc_inv Zip301FrameCodec_new.
Proof. split; [cbn; lia|apply not_elem_of_nil]. Qed.

Section Codec.
Context {json : JsonOps} {hex_ops : HexOps} (from_slice : list Z -> result RawZip301Request string)
  (try_reserve : nat -> bool) (profile : NonceProfile).
Hypothesis reserve_bounded : forall n, Z.of_nat n <= MAX_ZIP301_PAYLOAD_BYTES + 1 -> try_reserve n = true.

#[local] Instance Zip301_ops : StreamOps Zip301FrameCodec Zip301Request ProtocolError :=
  fun self input => decode_request from_slice try_reserve input profile self.

Lemma decode_request_promise self input :
  zc_inv self ->
  exists self', zc_inv self' /\
  match line_split (zc_payload self ++ input) with
  | Incomplete =>
      codec_decode self input = (self', Ok (length input, None)) /\
      zc_payload self' = zc_payload self ++ input
  | Rejected e => codec_decode self input = (self', Err e) /\ zc_payload self' = []
  | Complete f r =>
      zc_payload self' = [] /\ (length r < length input)%nat /\
      drop (length input - length r) input = r /\
      codec_decode self input =
        (self', match decode_zip301_request from_slice f profile with
                | Ok m => Ok ((length input - length r)%nat, Some m)
                | Err e => Err e
                end)
  end.
Proof.
  intros [Hl Hn]. unfold line_split, codec_decode, Zip301_ops, decode_request. st_unfold.
  fold line_limit. destruct (Z.ltb_spec MAX_ZIP301_PAYLOAD_BYTES (Z.of_nat (length (zc_payload self)))) as [Hb|_].
  { limits; lia. }
  set (b := length (zc_payload self)) in *.
  assert (take (Nat.min (length input) (line_limit - b + 1)) input = take (line_limit + 1 - b) input) as ->.
  { destruct (Nat.le_ge_cases (length input) (line_limit - b + 1)).
    - rewrite Nat.min_l by lia. by rewrite !take_ge by lia.
    - rewrite Nat.min_r by lia. f_equal. lia. }
  rewrite take_app, (take_ge (zc_payload self)) by (unfold b in *; lia). fold b.
  rewrite position_lf_app by done. fold b.
  destruct (position_lf (take (line_limit + 1 - b) input)) as [k|] eqn:E; cbn [fmap option_fmap option_map].
  - pose proof (proj1 (position_lf_Some _ _) E) as (Hk & Ht & _). rewrite length_take in Hk.
    rewrite reserve_bounded by (limits; lia). cbn [negb zc_payload zip301_extend].
    exists Zip301FrameCodec_new. split; [apply zc_new_inv|].
    replace (S (b + k)) with (b + S k)%nat by lia.
    rewrite drop_app_add', take_app_add', length_drop by done.
    rewrite !take_take in Ht. rewrite Nat.min_l, Nat.min_l in Ht by lia.
    split; [done|]. split; [lia|]. split; [f_equal; lia|]. rewrite Ht.
    destruct (decode_zip301_request from_slice _ profile); [|done]. repeat f_equal. lia.
  - rewrite length_app. fold b. destruct (Nat.ltb_spec line_limit (b + length input)) as [Hg|Hg];
      destruct (Nat.ltb_spec (line_limit - b) (length input)); try lia.
    + exists Zip301FrameCodec_new. split; [apply zc_new_inv|done].
    + rewrite reserve_bounded by (limits; lia). cbn [negb].
      eexists. split; [|split; [done|done]]. split; cbn; [rewrite length_app; fold b; lia|].
      rewrite elem_of_app. apply position_lf_None in E. rewrite take_ge in E by lia. naive_solver.
Qed.

#[local] Instance Zip301_codec : StreamCodec Zip301FrameCodec Zip301Request ProtocolError.
Proof.
  refine {| codec_inv := zc_inv; codec_buffer := zc_payload; codec_split := line_split;
            codec_parse := fun f => decode_zip301_request from_slice f profile;
            split_complete_app := line_split_complete_app;
            split_rejected_app := line_split_rejected_app;
            split_complete_shrinks := line_split_shrinks;
            buffer_incomplete := zc_buffer_incomplete |}; [done|exact decode_request_promise].
Defined.

Lemma zip301_payload_Ok frame payload :
  zip301_payload frame = Ok payload ->
  frame = payload ++ [LF] /\ (length payload <= line_limit)%nat /\ LF ∉ payload.
Proof.
  unfold zip301_payload. destruct (last frame) as [b|] eqn:El; [|done].
  apply last_Some in El as [l ->]. destruct (Z.eqb_spec b LF) as [->|]; [|done]. cbn [negb].
  rewrite length_app. replace (length l + length [LF] - 1)%nat with (length l) by (cbn; lia).
  rewrite take_app_length. case_bool_decide; [done|].
  destruct (Z.ltb_spec MAX_ZIP301_PAYLOAD_BYTES (Z.of_nat (length l))); [done|].
  destruct (existsb _ l) eqn:Ex; [done|]. cbn [orb].
  intros E. assert (payload = l) as -> by (run_in E; done). split; [done|].
  split; [limits; lia|]. intros Hin.
  assert (existsb (fun b => (b =? LF) || (b =? CR)) l = true) as Ht; [|congruence].
  apply existsb_exists. exists LF. split; [by apply list_elem_of_In|done].
Qed.

Lemma line_split_frame frame m t :
  decode_zip301_request from_slice frame profile = Ok m -> line_split (frame ++ t) = Complete frame t.
Proof.
  unfold decode_zip301_request. rewrite bind_Ok. intros (p & Hp & _).
  apply zip301_payload_Ok in Hp as (-> & Hl & Hn). unfold line_split.
  revert Hl. generalize line_limit. intros limit Hl. rewrite <- app_assoc, take_app, take_ge, position_lf_app by (done || lia).
  replace (limit + 1 - length p)%nat with (S (limit - length p)) by lia.
  cbn [app firstn position_lf fmap option_fmap option_map]. rewrite Z.eqb_refl.
  cbn [fmap option_fmap option_map].
  replace (S (length p + 0)) with (length (p ++ [LF])) by (rewrite length_app; cbn; lia).
  change (LF :: t) with ([LF] ++ t). rewrite app_assoc. by rewrite take_app_length, drop_app_length.
Qed.
End Codec.

(** ** Properties *)

(** The frames a miner sends one request per line are decoded whatever the chunking. *)
Section MinerProperties.
Context {json : JsonOps} {hex_ops : HexOps} (from_slice : list Z -> result RawZip301Request string)
  (try_reserve : nat -> bool) (profile : NonceProfile).
Hypothesis reserve_bounded : forall n, Z.of_nat n <= MAX_ZIP301_PAYLOAD_BYTES + 1 -> try_reserve n = true.

#[local] Instance miner_ops : StreamOps Zip301FrameCodec Zip301Request ProtocolError :=
  fun self input => decode_request from_slice try_reserve input profile self.
#[local] Instance miner_codec : StreamCodec Zip301FrameCodec Zip301Request ProtocolError :=
  Zip301_codec from_slice try_reserve profile reserve_bounded.

Lemma miner_feed_lines requests frames chunks :
  Forall2 (fun frame m => decode_zip301_request from_slice frame profile = Ok m) frames requests ->
  concat chunks = concat frames ->
  miner_stream from_slice try_reserve profile Zip301FrameCodec_new chunks =
    (Zip301FrameCodec_new, requests, None).
Proof.
  intros Hdec Hcat. pose proof (feed_stream chunks Zip301FrameCodec_new zc_new_inv) as Hf.
  unfold miner_stream. fold miner_ops. destruct (feed Zip301FrameCodec_new chunks) as [[self ms] eo].
  destruct Hf as [_ Hs]. assert (stream (concat frames) requests [] None) as Hm.
  { clear Hcat. induction Hdec as [|f m fs ms' Hm _ IH]; [by apply stream_incomplete|].
    cbn [concat]. eapply stream_frame; [by eapply line_split_frame|done|done]. }
  cbn in Hs. rewrite Hcat in Hs. destruct (stream_det _ _ _ _ _ _ _ Hs Hm) as (-> & Hl & ->).
  destruct self as [p]. cbn in Hl. by rewrite Hl.
Qed.

Lemma miner_feed_bounded chunks chunks' :
  concat chunks = concat chunks' ->
  let run := miner_stream from_slice try_reserve profile Zip301FrameCodec_new in
  run chunks = run chunks' /\
  Z.of_nat (Zip301FrameCodec_buffered_bytes (fst (fst (run chunks)))) <= MAX_ZIP301_PAYLOAD_BYTES /\
  (snd (run chunks) <> None -> fst (fst (run chunks)) = Zip301FrameCodec_new).
Proof.
  intros Hcat. unfold miner_stream. fold miner_ops. cbv zeta.
  pose proof (feed_chunking Zip301FrameCodec_new chunks chunks' zc_new_inv Hcat) as Hc.
  pose proof (feed_stream chunks Zip301FrameCodec_new zc_new_inv) as Hf.
  destruct (feed Zip301FrameCodec_new chunks) as [[self ms] eo], (feed Zip301FrameCodec_new chunks') as [[self' ms'] eo'].
  destruct self as [p], self' as [p']. destruct Hc as (-> & -> & Hp), Hf as [[Hl _] Hs]. cbn in Hp, Hl. subst p'.
  cbn [fst snd]. split; [done|]. split; [unfold Zip301FrameCodec_buffered_bytes; cbn [zc_payload]; limits; lia|].
  intros He. pose proof (stream_error_empty _ _ _ _ Hs He) as Hz. cbn in Hz. by rewrite Hz.
Qed.
End MinerProperties.

Lemma decode_submit_Ok {json : JsonOps} {hex_ops : HexOps} {hex_laws : HexLaws} id0 params profile
    id worker job_id time nonce_2 solution :
  decode_zip301_submit id0 params profile = Ok (Submit id worker job_id time nonce_2 solution) ->
  validate_worker_label worker = Ok tt /\
  hex_wf job_id /\ FixedHex_is_zero job_id = false /\ hex_wf time /\ FixedHex_is_zero time = false /\
  suffix_wf nonce_2 /\ NonceSuffix_profile nonce_2 = profile /\ hex_wf solution.
Proof.
  unfold decode_zip301_submit. intros H. apply seq_Ok in H as [_ H].
  apply bind_Ok in H as (w & _ & H). apply seq_Ok in H as [Hw H].
  apply bind_Ok in H as (ej & _ & H). apply bind_Ok in H as (j & Hj & H). apply seq_Ok in H as [Hj0 H].
  apply bind_Ok in H as (et & _ & H). apply bind_Ok in H as (t & Ht & H). apply seq_Ok in H as [Ht0 H].
  apply bind_Ok in H as (en & _ & H). apply bind_Ok in H as (n & Hn & H).
  apply bind_Ok in H as (es & _ & H). apply bind_Ok in H as (c & Hc & H).
  apply seq_Ok in H as [_ H]. apply seq_Ok in H as [Hlen H].
  apply check_Ok in Hlen. apply nonzero_hex_Ok in Hj0, Ht0. simplify_eq.
  apply parse_miner_hex_Ok in Hj as (_ & _ & Hj & _), Ht as (_ & _ & Ht & _), Hc as (_ & _ & Hc & _).
  boolprop. split_and!; try done.
  - destruct profile; apply bind_Ok in Hn as (h & Hh & [= <-]);
      apply parse_miner_hex_Ok in Hh as (_ & _ & Hh & _); exact Hh.
  - destruct profile; by apply bind_Ok in Hn as (h & _ & [= <-]).
  - split; [cbn; by apply Nat.eqb_eq|]. apply Forall_drop, Hc.
Qed.

Lemma dispatch_submit_Ok {json : JsonOps} {hex_ops : HexOps} raw profile id worker job_id time nonce_2 solution :
  dispatch_request raw profile = Ok (Submit id worker job_id time nonce_2 solution) ->
  exists params, decode_zip301_submit (raw_id raw) params profile =
                 Ok (Submit id worker job_id time nonce_2 solution).
Proof.
  unfold dispatch_request. intros H. apply seq_Ok in H as [_ H]. apply seq_Ok in H as [_ H].
  apply bind_Ok in H as (params & _ & H). repeat case_bool_decide.
  - by apply seq_Ok in H as [_ H].
  - apply seq_Ok in H as [_ H]. apply bind_Ok in H as (w & _ & H). apply seq_Ok in H as [_ H].
    apply bind_Ok in H as (p & _ & H). by apply seq_Ok in H as [_ H].
  - apply seq_Ok in H as [_ H]. apply bind_Ok in H as (e & _ & H). apply bind_Ok in H as (t & _ & H).
    by apply seq_Ok in H as [_ H].
  - by apply seq_Ok in H as [_ H].
  - apply seq_Ok in H as [_ H]. by apply bind_Ok in H as (v & _ & H).
  - by exists params.
  - done.
Qed.

(** The header input cut at the boundaries of its fields. *)
Definition notify_cuts (n : Zip301Notify) : list (list Z) :=
  let h := as_bytes (zn_header_input n) in
  [slice 0 4 h; slice 4 36 h; slice 36 68 h; slice 68 100 h; slice 100 104 h; slice 104 108 h].

Lemma notify_params_parts {json : JsonOps} {hex_ops : HexOps} n :
  hex_wf (zn_header_input n) ->
  notify_params n = json_str (FixedHex_to_string (zn_job_id n)) ::
                    ((fun p => json_str (hex_encode p)) <$> notify_cuts n) ++ [json_bool (zn_clean_jobs n)] /\
  length <$> notify_cuts n = [4; 32; 32; 32; 4; 4]%nat /\
  concat (notify_cuts n) = as_bytes (zn_header_input n).
Proof.
  intros [Hl _]. unfold notify_cuts. set (h := as_bytes (zn_header_input n)) in *.
  split; [done|]. unfold slice. cbn [Nat.sub]. split.
  - rewrite !fmap_cons, !length_take, !length_drop, Hl. done.
  - cbn [concat]. rewrite app_nil_r.
    assert (forall k j m, m = (j + k)%nat -> take k (drop j h) ++ drop m h = drop j h) as Hcut.
    { intros k j m ->. by rewrite <- drop_drop, take_drop. }
    rewrite (take_ge (drop 104 h)) by (rewrite length_drop; lia).
    by rewrite (Hcut 4%nat 100%nat), (Hcut 32%nat 68%nat), (Hcut 32%nat 36%nat), (Hcut 32%nat 4%nat),
      (Hcut 4%nat 0%nat).
Qed.

(** Concrete parameters for the witnesses. *)
Inductive demo_value : Type :=
| DNull | DBool (b : bool) | DInt (n : Z) | DStr (s : string) | DArr (l : list demo_value).

Definition demo_json : JsonOps := {|
  Value := demo_value;
  kind_of v := match v with DNull => KNull | DInt _ => KNumber | DStr s => KString s | _ => KOther end;
  as_array v := match v with DArr l => Some l | _ => None end;
  as_str v := match v with DStr s => Some s | _ => None end;
  as_u64 v := match v with DInt n => if 0 <=? n then Some n else None | _ => None end;
  json_null := DNull; json_bool := DBool; json_i32 := DInt; json_str := DStr; json_array := DArr
|}.

(** A parser that reads one method and its parameters out of any payload. *)
Definition demo_raw (method : string) (params : list demo_value) :
    list Z -> result (@RawZip301Request demo_json) string :=
  fun _ => Ok (@mkRawZip301Request demo_json (IdNumber 1) method (DArr params)).

Definition demo_submit_params : list demo_value :=
  [DStr "rig-1"; DStr (@hex_encode demo_hex_ops (replicate 32 9)); DStr "01020304";
   DStr (@hex_encode demo_hex_ops (replicate 28 7));
   DStr (@hex_encode demo_hex_ops (EQUIHASH_SOLUTION_COMPACT_SIZE ++ replicate 1344 3))].

(** C40. Requests survive the transport: lines that each decode to a request are delivered as
    exactly those requests, in order and with an empty buffer, under any chunking. *)
Theorem miner_stream_roundtrip (json : JsonOps) (hex_ops : HexOps) from_slice try_reserve profile
    (reserve_bounded : forall n, Z.of_nat n <= MAX_ZIP301_PAYLOAD_BYTES + 1 -> try_reserve n = true)
    frames requests chunks
    (decodes : Forall2 (fun frame m => decode_zip301_request from_slice frame profile = Ok m) frames requests)
    (same_bytes : concat chunks = concat frames) :
  miner_stream from_slice try_reserve profile Zip301FrameCodec_new chunks =
    (Zip301FrameCodec_new, requests, None).
Proof. by eapply miner_feed_lines. Qed.

Lemma miner_stream_roundtrip_witness :
  @miner_stream demo_json demo_hex_ops (demo_raw "mining.multi_version" [DInt 4]) (fun _ => true) FourByte
    Zip301FrameCodec_new [[123]; [125; 10; 123]; [125; 10]]
  = (Zip301FrameCodec_new, [MultiVersion (IdNumber 1) 4; MultiVersion (IdNumber 1) 4], None).
Proof.
  apply (miner_stream_roundtrip demo_json demo_hex_ops (demo_raw "mining.multi_version" [DInt 4])
    (fun _ => true) FourByte (fun _ _ => eq_refl) [[123; 125; 10]; [123; 125; 10]]).
  - repeat constructor.
  - reflexivity.
Defined.

(** Robustness of the miner decoder on arbitrary bytes: it never buffers more than the
    payload limit, an error leaves an empty codec, and neither the requests, nor the error, nor
    the final state depend on how the bytes were cut into reads. *)
Theorem miner_stream_bounded (json : JsonOps) (hex_ops : HexOps) from_slice try_reserve profile
    (reserve_bounded : forall n, Z.of_nat n <= MAX_ZIP301_PAYLOAD_BYTES + 1 -> try_reserve n = true)
    chunks chunks' (same_bytes : concat chunks = concat chunks') :
  let run := miner_stream from_slice try_reserve profile Zip301FrameCodec_new in
  run chunks = run chunks' /\
  Z.of_nat (Zip301FrameCodec_buffered_bytes (fst (fst (run chunks)))) <= MAX_ZIP301_PAYLOAD_BYTES /\
  (snd (run chunks) <> None -> fst (fst (run chunks)) = Zip301FrameCodec_new).
Proof. by apply miner_feed_bounded. Qed.

Lemma miner_stream_bounded_witness :
  let run := @miner_stream demo_json demo_hex_ops (demo_raw "mining.unknown" []) (fun _ => true) FourByte
               Zip301FrameCodec_new in
  snd (run [[123; 125]; [10; 123]]) = Some (UnsupportedMethod "mining.unknown") /\
  run [[123; 125]; [10; 123]] = run [[123]; [125; 10; 123]] /\
  fst (fst (run [[123; 125]; [10; 123]])) = Zip301FrameCodec_new.
Proof.
  destruct (miner_stream_bounded demo_json demo_hex_ops (demo_raw "mining.unknown" []) (fun _ => true)
    FourByte (fun _ _ => eq_refl) [[123; 125]; [10; 123]] [[123]; [125; 10; 123]] eq_refl) as (H1 & _ & H2).
  assert (snd (@miner_stream demo_json demo_hex_ops (demo_raw "mining.unknown" []) (fun _ => true) FourByte
    Zip301FrameCodec_new [[123; 125]; [10; 123]]) = Some (UnsupportedMethod "mining.unknown")) as E
    by (vm_compute; reflexivity).
  split; [exact E|]. split; [exact H1|]. apply H2. rewrite E. discriminate.
Defined.

(** A decoded submission is complete and belongs to its listener: the worker label is
    valid, job and time are nonzero, every field has its exact width and the nonce suffix has
    the listener's profile.  With a session prefix of that profile the nonce is reconstructed
    around the prefix, and with a valid identity and a nonzero target the backend request built
    from it passes its own validation. *)
Theorem submit_ready_for_backend (json : JsonOps) (hex_ops : HexOps) (hex_laws : HexLaws) from_slice
    frame profile id worker job_id time nonce_2 solution prefix identity target_le request_id
    (decoded : decode_zip301_request from_slice frame profile
               = Ok (Submit id worker job_id time nonce_2 solution))
    (prefix_ok : prefix_wf prefix) (same_profile : NoncePrefix_profile prefix = profile)
    (identity_ok : WorkerIdentity_validate identity = Ok tt)
    (target_ok : TargetLe_is_zero target_le = false) (id_ok : request_id <> 0) :
  validate_worker_label worker = Ok tt /\
  exists nonce, join_nonce prefix nonce_2 = Ok nonce /\
    take (prefix_bytes profile) (as_bytes nonce) = NoncePrefix_as_bytes prefix /\
    hex_wf job_id /\ hex_wf time /\ hex_wf nonce /\ hex_wf solution /\
    BackendRequest_validate (SubmitShareRequest BACKEND_PROTOCOL_VERSION request_id job_id identity
      target_le time nonce solution) = Ok tt.
Proof.
  unfold decode_zip301_request in decoded. apply bind_Ok in decoded as (p & _ & Hd).
  apply bind_Ok in Hd as (raw & _ & Hd). apply dispatch_submit_Ok in Hd as (params & Hd).
  apply decode_submit_Ok in Hd as (Hw & Hj & Hj0 & Ht & Ht0 & Hs & Hp & Hsol). split; [done|].
  pose proof (join_nonce_Ok prefix nonce_2 prefix_ok Hs) as Hjoin.
  destruct (join_nonce prefix nonce_2) as [nonce|e]; [|congruence].
  destruct Hjoin as (_ & Hn & t & Et). exists nonce. split; [done|]. split.
  { rewrite Et. apply prefix_wf_bytes in prefix_ok as [Hl _]. by rewrite <- same_profile, <- Hl, take_app_length. }
  do 4 (split; [done|]). unfold BackendRequest_validate, validate_backend_header, require_nonzero_id,
    require_nonzero_hex, require_nonzero_target.
  rewrite identity_ok, target_ok, Hj0, Ht0. cbn. by apply Z.eqb_neq in id_ok as ->.
Qed.

Lemma submit_ready_for_backend_witness :
  exists nonce, join_nonce (Four (demo_hex 4 5)) (TwentyEight (demo_hex 28 7)) = Ok nonce /\
    BackendRequest_validate (SubmitShareRequest BACKEND_PROTOCOL_VERSION 11 (demo_hex 32 9) demo_identity
      (demo_target 1) (FixedHex_new [1; 2; 3; 4]) nonce (demo_hex 1344 3)) = Ok tt.
Proof.
  destruct (submit_ready_for_backend demo_json demo_hex_ops demo_hex_laws
    (demo_raw "mining.submit" demo_submit_params) [123; 125; 10] FourByte (IdNumber 1) "rig-1"
    (demo_hex 32 9) (FixedHex_new [1; 2; 3; 4]) (TwentyEight (demo_hex 28 7)) (demo_hex 1344 3)
    (Four (demo_hex 4 5)) demo_identity (demo_target 1) 11) as (_ & nonce & H1 & _ & _ & _ & _ & _ & H2).
  - vm_compute. reflexivity.
  - split; [reflexivity|]. repeat constructor; lia.
  - reflexivity.
  - vm_compute. reflexivity.
  - vm_compute. reflexivity.
  - lia.
  - exists nonce. split; [exact H1|exact H2].
Defined.

(** Server messages leave as single bounded lines, and work is announced without loss: an
    encoded message is a nonempty payload within the limit followed by one line feed; a
    notification encodes only for a nonzero job with version 4 and a nonzero time, and its
    parameters carry the 108-byte header input cut at its field boundaries. *)
Theorem server_lines_exact (json : JsonOps) (hex_ops : HexOps) response_to_vec notification_to_vec
    message line
    (encoded : encode_zip301_message response_to_vec notification_to_vec message = Ok line) :
  (exists payload, line = payload ++ [LF] /\ payload <> [] /\
     Z.of_nat (length payload) <= MAX_ZIP301_PAYLOAD_BYTES) /\
  (forall id, message <> Boolean id false) /\
  (forall n, message = Notify n -> hex_wf (zn_header_input n) ->
     FixedHex_is_zero (zn_job_id n) = false /\
     exists parts,
       notify_params n = json_str (FixedHex_to_string (zn_job_id n)) ::
         ((fun p => json_str (hex_encode p)) <$> parts) ++ [json_bool (zn_clean_jobs n)] /\
       length <$> parts = [4; 32; 32; 32; 4; 4]%nat /\
       concat parts = as_bytes (zn_header_input n) /\
       parts !! 0%nat = Some [4; 0; 0; 0] /\
       (exists t, parts !! 4%nat = Some t /\ all_zero t = false)).
Proof.
  split; [|split].
  - assert (exists r, encode_zip301_serializable r = Ok line) as (r & Hr).
    { unfold encode_zip301_message in encoded.
      destruct message; repeat (apply seq_Ok in encoded as [_ encoded]); by eexists. }
    unfold encode_zip301_serializable in Hr. apply bind_Ok in Hr as (payload & _ & Hr).
    case_bool_decide; [done|]. destruct (Z.ltb_spec MAX_ZIP301_PAYLOAD_BYTES (Z.of_nat (length payload))); [done|].
    exists payload. split; [congruence|done].
  - intros id ->. cbn in encoded. by apply seq_Ok in encoded as [_ encoded].
  - intros n -> Hwf. cbn [encode_zip301_message] in encoded. apply seq_Ok in encoded as [Hv _].
    unfold Zip301Notify_validate in Hv. apply seq_Ok in Hv as [Hj Hv]. split; [by eapply nonzero_hex_Ok|].
    unfold validate_v4_header_input in Hv. case_bool_decide as Hver; [done|].
    destruct (all_zero (slice 100 104 (as_bytes (zn_header_input n)))) eqn:Ht; [done|].
    exists (notify_cuts n). destruct (notify_params_parts n Hwf) as (H1 & H2 & H3).
    split_and!; [done..| |by eexists]. exact (f_equal Some Hver).
Qed.

Lemma server_lines_exact_witness :
  let n := mkZip301Notify (demo_hex 32 9) demo_header true in
  FixedHex_is_zero (zn_job_id n) = false /\
  exists parts, length <$> parts = [4; 32; 32; 32; 4; 4]%nat /\ concat parts = as_bytes demo_header.
Proof.
  destruct (server_lines_exact demo_json demo_hex_ops (fun _ => Ok [123; 125]) (fun _ => Ok [123; 125])
    (Notify (mkZip301Notify (demo_hex 32 9) demo_header true)) [123; 125; 10]) as (_ & _ & H).
  - vm_compute. reflexivity.
  - destruct (H _ eq_refl) as (Hz & parts & _ & Hl & Hc & _).
    + split; [vm_compute; reflexivity|]. vm_compute. repeat constructor; intros [=].
    + split; [exact Hz|]. exists parts. split; [exact Hl|exact Hc].
Defined.
