(* ===== verification/Jobs.v ===== *)
(** Backend-authored generations and the fences on their admission
    (crates/wcash-pool-core/src/jobs.rs).

    The registry owns its entries; an entry's [Arc<GenerationResource>] is shared with the
    admission guards, so the shared objects, with their atomic in-flight counters, live in a
    heap and an [Arc] is an address in it (with the immutable generation beside it).  [World] is
    the registry with that heap.  The registry's methods take [&mut self] and are therefore serialised; a guard's [Drop] is a step of its
    own.  An [Arc] that is dropped unused on an error path leaves an unreachable counter
    behind, as a collected object would. *)

From Stdlib Require Import ZArith Lia.
From stdpp Require Import prelude gmap sorting strings.
From S2P Require Import Prelude Wire Target LargestRemainder Backend.
Open Scope Z_scope.

Definition MAX_ZCASH_WINNER_RECOVERY_JOBS : nat := 32.
Definition ZCASH_WINNER_RECOVERY_TAIL_MS : Z := 60000.

(** [JobId([u8; 32])]. *)
Abbreviation JobId := (list Z) (only parsing).

Inductive JobRegistryError : Type :=
| ZeroJobId
| InvalidLimits
| InvalidDescriptor
| InvalidRemainingLifetime (id : JobId)
| DeadlineOverflow
| ClockMovedBackwards
| SnapshotSequenceRollback (previous received : Z)
| SnapshotStateConflict (event_seq : Z)
| DuplicateSnapshotJob (id : JobId)
| ConflictingJobId (id : JobId)
| ResurrectedJob (id : JobId)
| ReusedJobId (id : JobId)
| RecentCapacityExceeded (maximum : nat)
| GenerationCapacityExceeded (maximum : nat)
| NotSynchronized
| EventSequenceGap (expected received : Z)
| EventSequenceExhausted
| InvalidBackendEvent
| UnknownJob (id : JobId)
| StaleJob (id : JobId)
| AdmissionCounterExhausted (id : JobId).

Definition JobId_new (bytes : list Z) : result JobId JobRegistryError :=
  if all_zero bytes then Err ZeroJobId else Ok bytes.

Record TipIdentity : Type := mkTipIdentity {
  ti_wcash_previous_hash_le : list Z;
  ti_zcash_previous_hash_le : list Z
}.

#[global] Instance TipIdentity_eq_dec : EqDecision TipIdentity.
Proof. solve_decision. Defined.

Record BackendGeneration : Type := mkBackendGeneration {
  bg_descriptor : JobDescriptor;
  bg_id : JobId;
  bg_tips : TipIdentity;
  bg_wcash_network_target : ShareTarget;
  bg_zcash_network_target : ShareTarget
}.

#[global] Instance BackendGeneration_eq_dec : EqDecision BackendGeneration.
Proof. solve_decision. Defined.

Definition from_descriptor (descriptor : JobDescriptor) : result BackendGeneration JobRegistryError :=
  let? _ := map_err (fun _ => InvalidDescriptor) (JobDescriptor_validate descriptor) in
  let? id := JobId_new (as_bytes (jd_job_id descriptor)) in
  let tips := mkTipIdentity (as_bytes (jd_wcash_previous_hash_le descriptor))
                (as_bytes (jd_zcash_previous_hash_le descriptor)) in
  let? wcash_network_target :=
    map_err (fun _ => InvalidDescriptor) (ShareTarget_from_backend (jd_wcash_target_le descriptor)) in
  let? zcash_network_target :=
    map_err (fun _ => InvalidDescriptor) (ShareTarget_from_backend (jd_zcash_target_le descriptor)) in
  Ok (mkBackendGeneration descriptor id tips wcash_network_target zcash_network_target).

(** The four raw header-time bytes sent to miners. *)
Definition header_time (self : BackendGeneration) : Hex4 :=
  FixedHex_new (slice 100 104 (as_bytes (jd_header_input (bg_descriptor self)))).

Definition maximum_age_ms (self : BackendGeneration) : Z := jd_max_age_ms (bg_descriptor self).

Inductive JobAssignmentError : Type := NetworkTargetMismatch (id : JobId).

Record JobAssignment : Type := mkJobAssignment {
  ja_generation_id : JobId;
  ja_target : TargetBinding
}.

#[global] Instance JobAssignment_eq_dec : EqDecision JobAssignment.
Proof. solve_decision. Defined.

Definition JobAssignment_new (generation : BackendGeneration) (target : TargetBinding) :
    result JobAssignment JobAssignmentError :=
  let bounds := tb_bounds target in
  if negb (bool_decide (wcash_network bounds = bg_wcash_network_target generation))
     || negb (bool_decide (zcash_network bounds = bg_zcash_network_target generation))
  then Err (NetworkTargetMismatch (bg_id generation))
  else Ok (mkJobAssignment (bg_id generation) target).

Record AdmissibleJobIds : Type := mkAdmissibleJobIds {
  adm_current : option JobId;
  adm_recent : list JobId
}.

Record GenerationRegistryConfig : Type := mkGenerationRegistryConfig {
  maximum_recent : nat;
  maximum_generations : nat
}.

Definition GenerationRegistryConfig_new (max_recent max_generations : nat) :
    result GenerationRegistryConfig JobRegistryError :=
  if (max_recent =? 0)%nat || (max_generations <=? max_recent)%nat then Err InvalidLimits
  else Ok (mkGenerationRegistryConfig max_recent max_generations).

Inductive AdmissionState : Type := Accepting | Suspended | Invalidated | Closed.

#[global] Instance AdmissionState_eq_dec : EqDecision AdmissionState.
Proof. solve_decision. Defined.

(** An [Arc<GenerationResource>]: its address, with the immutable generation found there. *)
Record GenerationResource : Type := mkGenerationResource {
  gr_addr : Z;
  gr_generation : BackendGeneration
}.

Inductive GenerationStorage : Type :=
| Live (resource : GenerationResource)
| Tombstone (generation : BackendGeneration).

Definition storage_generation (self : GenerationStorage) : BackendGeneration :=
  match self with Live r => gr_generation r | Tombstone g => g end.

Definition live_resource (self : GenerationStorage) : option GenerationResource :=
  match self with Live r => Some r | Tombstone _ => None end.

Record RegistryEntry : Type := mkRegistryEntry {
  re_storage : GenerationStorage;
  re_accept_until_ms : Z;
  re_winner_recovery_until_ms : Z;
  re_state : AdmissionState
}.

Definition re_generation (self : RegistryEntry) : BackendGeneration := storage_generation (re_storage self).

Definition is_live (self : RegistryEntry) : bool :=
  match live_resource (re_storage self) with Some _ => true | None => false end.

Definition accepting (self : RegistryEntry) (now_ms : Z) : bool :=
  bool_decide (re_state self = Accepting) && is_live self && (now_ms <? re_accept_until_ms self).

Definition retained_at_watermark (self : RegistryEntry) (now_ms : Z) : bool :=
  (bool_decide (re_state self = Accepting) || bool_decide (re_state self = Suspended))
  && is_live self && (now_ms <? re_accept_until_ms self).

Definition set_state (s : AdmissionState) (e : RegistryEntry) : RegistryEntry :=
  mkRegistryEntry (re_storage e) (re_accept_until_ms e) (re_winner_recovery_until_ms e) s.
Definition set_accept_until (t : Z) (e : RegistryEntry) : RegistryEntry :=
  mkRegistryEntry (re_storage e) t (re_winner_recovery_until_ms e) (re_state e).
Definition set_storage (s : GenerationStorage) (e : RegistryEntry) : RegistryEntry :=
  mkRegistryEntry s (re_accept_until_ms e) (re_winner_recovery_until_ms e) (re_state e).

Record GenerationRegistry : Type := mkGenerationRegistry {
  config : GenerationRegistryConfig;
  entries : gmap JobId RegistryEntry;
  current : option JobId;
  recent : list JobId;
  winner_recovery : list JobId;
  watermark_current : option JobId;
  watermark_recent : list JobId;
  last_event_seq : option Z;
  last_delivery_anchor_ms : option Z;
  last_monotonic_ms : option Z;
  synchronized : bool
}.

Definition GenerationRegistry_new (config : GenerationRegistryConfig) : GenerationRegistry :=
  mkGenerationRegistry config ∅ None [] [] None [] None None None false.

(** Field updates. *)
Definition with_entries (e : gmap JobId RegistryEntry) (r : GenerationRegistry) : GenerationRegistry :=
  mkGenerationRegistry (config r) e (current r) (recent r) (winner_recovery r) (watermark_current r)
    (watermark_recent r) (last_event_seq r) (last_delivery_anchor_ms r) (last_monotonic_ms r) (synchronized r).
Definition with_roles (c : option JobId) (l : list JobId) (r : GenerationRegistry) : GenerationRegistry :=
  mkGenerationRegistry (config r) (entries r) c l (winner_recovery r) (watermark_current r)
    (watermark_recent r) (last_event_seq r) (last_delivery_anchor_ms r) (last_monotonic_ms r) (synchronized r).
Definition with_winner_recovery (l : list JobId) (r : GenerationRegistry) : GenerationRegistry :=
  mkGenerationRegistry (config r) (entries r) (current r) (recent r) l (watermark_current r)
    (watermark_recent r) (last_event_seq r) (last_delivery_anchor_ms r) (last_monotonic_ms r) (synchronized r).
Definition with_watermark (c : option JobId) (l : list JobId) (r : GenerationRegistry) : GenerationRegistry :=
  mkGenerationRegistry (config r) (entries r) (current r) (recent r) (winner_recovery r) c l
    (last_event_seq r) (last_delivery_anchor_ms r) (last_monotonic_ms r) (synchronized r).
Definition with_progress (seq anchor now : option Z) (sync : bool) (r : GenerationRegistry) : GenerationRegistry :=
  mkGenerationRegistry (config r) (entries r) (current r) (recent r) (winner_recovery r) (watermark_current r)
    (watermark_recent r) seq anchor now sync.

(** ** Transitions of the registry alone *)

(** A predicate of the entry of [id]; false where there is none. *)
Definition entry_is (r : GenerationRegistry) (p : RegistryEntry -> bool) (id : JobId) : bool :=
  match entries r !! id with Some e => p e | None => false end.

Definition opt_filter {A} (p : A -> bool) (o : option A) : option A :=
  match o with Some a => if p a then Some a else None | None => None end.

Definition keep (p : JobId -> bool) (l : list JobId) : list JobId := filter (fun id => p id = true) l.

Definition suspend (self : GenerationRegistry) : GenerationRegistry :=
  let entries' := (fun e => if bool_decide (re_state e = Accepting) then set_state Suspended e else e)
                    <$> entries self in
  with_progress (last_event_seq self) (last_delivery_anchor_ms self) (last_monotonic_ms self) false
    (with_winner_recovery [] (with_roles None [] (with_entries entries' self))).

Definition expire_entry (now_ms : Z) (e : RegistryEntry) : RegistryEntry :=
  if (bool_decide (re_state e = Accepting) || bool_decide (re_state e = Suspended))
     && (re_accept_until_ms e <=? now_ms)
  then set_state Invalidated e else e.

Definition expire_at (now_ms : Z) (self : GenerationRegistry) : GenerationRegistry :=
  let self := with_entries (expire_entry now_ms <$> entries self) self in
  let admits := entry_is self (fun e => accepting e now_ms) in
  let retained := entry_is self (fun e => retained_at_watermark e now_ms) in
  with_watermark (opt_filter retained (watermark_current self)) (keep retained (watermark_recent self))
    (with_roles (opt_filter admits (current self)) (keep admits (recent self)) self).

Definition remember_winner_recovery (id : JobId) (self : GenerationRegistry) : GenerationRegistry :=
  if bool_decide (id ∈ winner_recovery self) then self else
  let kept := if (length (winner_recovery self) =? MAX_ZCASH_WINNER_RECOVERY_JOBS)%nat
              then tail (winner_recovery self) else winner_recovery self in
  with_winner_recovery (kept ++ [id]) self.

Definition zcash_parent (e : RegistryEntry) : list Z := ti_zcash_previous_hash_le (bg_tips (re_generation e)).

(** The entry of the current job while it is accepting. *)
Definition current_entry (self : GenerationRegistry) (now_ms : Z) : option RegistryEntry :=
  id ← current self; opt_filter (fun e => accepting e now_ms) (entries self !! id).

Definition same_parent (reference : option RegistryEntry) (e : RegistryEntry) : bool :=
  match reference with
  | Some c => bool_decide (zcash_parent e = zcash_parent c)
  | None => true
  end.

Definition prune_winner_recovery (now_ms : Z) (self : GenerationRegistry) : GenerationRegistry :=
  let reference := current_entry self now_ms in
  with_winner_recovery
    (keep (entry_is self (fun e =>
       negb (bool_decide (re_state e = Closed)) && (now_ms <? re_winner_recovery_until_ms e)
       && same_parent reference e)) (winner_recovery self)) self.

Definition deadline (anchor_ms duration_ms : Z) : result Z JobRegistryError :=
  ok_or (checked_add U64_MAX anchor_ms duration_ms) DeadlineOverflow.

Definition winner_recovery_deadline (original_deadline_ms : Z) : result Z JobRegistryError :=
  ok_or (checked_add U64_MAX original_deadline_ms ZCASH_WINNER_RECOVERY_TAIL_MS) DeadlineOverflow.

Definition moved_backwards (previous : option Z) (now_ms : Z) : bool :=
  match previous with Some p => now_ms <? p | None => false end.

Definition check_clock (self : GenerationRegistry) (now_ms : Z) : result unit JobRegistryError :=
  if moved_backwards (last_monotonic_ms self) now_ms then Err ClockMovedBackwards else Ok tt.

Definition check_delivery_clock (self : GenerationRegistry) (anchor_ms : Z) : result unit JobRegistryError :=
  if moved_backwards (last_delivery_anchor_ms self) anchor_ms then Err ClockMovedBackwards else Ok tt.

Definition advance_clock (now_ms : Z) : M GenerationRegistry JobRegistryError unit :=
  let* self := st_get in
  match check_clock self now_ms with
  | Err error => do* st_modify suspend in st_throw error
  | Ok _ =>
      do* st_modify (expire_at now_ms) in
      st_modify (fun self => with_progress (last_event_seq self) (last_delivery_anchor_ms self)
                               (Some now_ms) (synchronized self) self)
  end.

Definition observed_max (previous : option Z) (t : Z) : Z :=
  match previous with Some p => Z.max p t | None => t end.

(** ** Transitions that allocate or count *)

(** The object behind an [Arc<GenerationResource>]. *)
Record HeapCell : Type := mkHeapCell { hc_generation : BackendGeneration; hc_in_flight : Z }.

Record World : Type := mkWorld {
  registry : GenerationRegistry;
  heap : gmap Z HeapCell;
  next_addr : Z
}.

Definition World_new (config : GenerationRegistryConfig) : World :=
  mkWorld (GenerationRegistry_new config) ∅ 0.

(** Run a method of the registry, or a plain update of it, in the world. *)
Definition on_registry {A} (m : M GenerationRegistry JobRegistryError A) : M World JobRegistryError A :=
  fun w => let '(r, x) := m (registry w) in (mkWorld r (heap w) (next_addr w), x).
Definition modify_registry (f : GenerationRegistry -> GenerationRegistry) : M World JobRegistryError unit :=
  on_registry (st_modify f).
Definition get_registry : M World JobRegistryError GenerationRegistry := on_registry st_get.

(** [Arc::new(GenerationResource::new(generation))], with the given counter. *)
Definition new_resource (generation : BackendGeneration) (count : Z) :
    M World JobRegistryError GenerationResource :=
  fun w => (mkWorld (registry w) (<[next_addr w := mkHeapCell generation count]> (heap w)) (next_addr w + 1),
            Ok (mkGenerationResource (next_addr w) generation)).

Definition count_at (w : World) (addr : Z) : Z :=
  match heap w !! addr with Some c => hc_in_flight c | None => 0 end.

Definition set_count (addr count : Z) (w : World) : World :=
  mkWorld (registry w) (alter (fun c => mkHeapCell (hc_generation c) count) addr (heap w)) (next_addr w).

(** [GenerationStorage::in_flight]. *)
Definition storage_in_flight (w : World) (storage : GenerationStorage) : Z :=
  match live_resource storage with Some r => count_at w (gr_addr r) | None => 0 end.

Definition in_flight (w : World) (id : JobId) : option Z :=
  (fun e => storage_in_flight w (re_storage e)) <$> (entries (registry w) !! id).

Inductive AdmissionRole : Type := Ordinary | HistoricalZcashRecovery | PausedZcashCandidate.

#[global] Instance AdmissionRole_eq_dec : EqDecision AdmissionRole.
Proof. solve_decision. Defined.

Record GenerationAdmission : Type := mkGenerationAdmission {
  ga_resource : GenerationResource;
  ga_role : AdmissionRole
}.

Definition ga_generation (self : GenerationAdmission) : BackendGeneration := gr_generation (ga_resource self).
Definition ga_job_id (self : GenerationAdmission) : JobId := bg_id (ga_generation self).
Definition is_winner_recovery (self : GenerationAdmission) : bool :=
  match ga_role self with Ordinary => false | _ => true end.
Definition is_paused_zcash_candidate (self : GenerationAdmission) : bool :=
  match ga_role self with PausedZcashCandidate => true | _ => false end.

(** [Drop]: [fetch_sub(1)] wraps at the width of [usize]. *)
Definition drop_admission (guard : GenerationAdmission) (w : World) : World :=
  let addr := gr_addr (ga_resource guard) in
  set_count addr ((count_at w addr - 1) mod (U64_MAX + 1)) w.

Section Registry.
Variable sha256 : list Z -> list Z.

Definition admissible_job_ids (now_ms : Z) : M GenerationRegistry JobRegistryError AdmissibleJobIds :=
  do* advance_clock now_ms in
  let* self := st_get in
  if negb (synchronized self) then st_throw NotSynchronized else
  st_ret (mkAdmissibleJobIds (current self) (recent self)).

Definition generation (self : GenerationRegistry) (id : JobId) : option BackendGeneration :=
  re_generation <$> (entries self !! id).

Definition current_generation (now_ms : Z) :
    M GenerationRegistry JobRegistryError (option BackendGeneration) :=
  do* advance_clock now_ms in
  let* self := st_get in
  match current self with
  | None => st_ret None
  | Some id =>
      st_ret (re_generation <$>
                opt_filter (fun e => synchronized self && accepting e now_ms) (entries self !! id))
  end.

Definition begin_admission (id : JobId) (now_ms : Z) : M World JobRegistryError GenerationAdmission :=
  do* on_registry (advance_clock now_ms) in
  let* self := get_registry in
  if negb (synchronized self) then st_throw NotSynchronized else
  let* entry := st_lift (ok_or (entries self !! id) (UnknownJob id)) in
  if negb (accepting entry now_ms) then st_throw (StaleJob id) else
  let* resource := st_lift (ok_or (live_resource (re_storage entry)) (StaleJob id)) in
  let* w := st_get in
  let* count := st_lift (ok_or (checked_add U64_MAX (count_at w (gr_addr resource)) 1)
                           (AdmissionCounterExhausted id)) in
  do* st_modify (set_count (gr_addr resource) count) in
  st_ret (mkGenerationAdmission resource Ordinary).

Definition winner_recovery_job_ids (now_ms : Z) : M GenerationRegistry JobRegistryError (list JobId) :=
  do* advance_clock now_ms in
  let* self := st_get in
  if negb (synchronized self) then st_throw NotSynchronized else
  do* st_modify (prune_winner_recovery now_ms) in
  let* self := st_get in
  st_ret (winner_recovery self).

Definition begin_zcash_candidate (id : JobId) (nonce : Hex32) (solution : Hex1344) (now_ms : Z)
    (role : AdmissionRole) (allow_no_current : bool) : M World JobRegistryError GenerationAdmission :=
  do* on_registry (advance_clock now_ms) in
  let* self := get_registry in
  if negb (synchronized self) then st_throw NotSynchronized else
  do* modify_registry (prune_winner_recovery now_ms) in
  let* self := get_registry in
  let reference := current_entry self now_ms in
  if negb allow_no_current && negb (bool_decide (is_Some reference)) then st_throw (StaleJob id) else
  let* entry := st_lift (ok_or
    (opt_filter (fun e => bool_decide (id ∈ winner_recovery self)
                          && (now_ms <? re_winner_recovery_until_ms e)
                          && negb (bool_decide (re_state e = Closed))
                          && same_parent reference e) (entries self !! id)) (StaleJob id)) in
  let generation := re_generation entry in
  let hash := canonical_parent_header_hash_le sha256 (jd_header_input (bg_descriptor generation)) nonce solution in
  match bytes_compare (reverse (as_bytes hash))
          (reverse (tle_bytes (jd_zcash_target_le (bg_descriptor generation)))) with
  | Gt => st_throw (StaleJob id)
  | _ =>
      let* resource := new_resource generation 1 in
      st_ret (mkGenerationAdmission resource role)
  end.

Definition begin_zcash_winner_recovery id nonce solution now_ms :=
  begin_zcash_candidate id nonce solution now_ms HistoricalZcashRecovery false.
Definition begin_historical_zcash_candidate_during_pause id nonce solution now_ms :=
  begin_zcash_candidate id nonce solution now_ms HistoricalZcashRecovery true.
Definition begin_paused_zcash_candidate id nonce solution now_ms :=
  begin_zcash_candidate id nonce solution now_ms PausedZcashCandidate true.

(** Whether [collect_retired] compacts an entry, and what it becomes. *)
Definition retirable (w : World) (id : JobId) (e : RegistryEntry) : bool :=
  let self := registry w in
  negb (bool_decide (current self = Some id) || bool_decide (id ∈ recent self))
  && (bool_decide (re_state e = Invalidated) || bool_decide (re_state e = Closed))
  && (storage_in_flight w (re_storage e) =? 0)
  && is_live e.

Definition compact (e : RegistryEntry) : RegistryEntry := set_storage (Tombstone (re_generation e)) e.

Definition collect_retired (now_ms : Z) : M World JobRegistryError (list JobId) :=
  do* on_registry (advance_clock now_ms) in
  let* w := st_get in
  do* modify_registry (fun self =>
        with_entries (map_imap (fun id e => Some (if retirable w id e then compact e else e)) (entries self)) self) in
  st_ret (sort_by bytes_compare
            (fst <$> filter (fun p => retirable w p.1 p.2 = true) (map_to_list (entries (registry w))))).

Definition is_terminal (s : AdmissionState) : bool :=
  match s with Invalidated | Closed => true | _ => false end.

Definition prepare_acceptable (self : GenerationRegistry) (acceptable : AcceptableJob) (anchor_ms : Z) :
    M World JobRegistryError (JobId * RegistryEntry) :=
  let* generation := st_lift (from_descriptor (aj_job acceptable)) in
  if (aj_accept_for_ms acceptable =? 0) || (maximum_age_ms generation <? aj_accept_for_ms acceptable)
  then st_throw (InvalidRemainingLifetime (bg_id generation)) else
  let* proposed_deadline := st_lift (deadline anchor_ms (aj_accept_for_ms acceptable)) in
  let id := bg_id generation in
  match entries self !! id with
  | Some old =>
      if negb (bool_decide (re_generation old = generation)) then st_throw (ConflictingJobId id) else
      if is_terminal (re_state old) || negb (is_live old) then st_throw (ResurrectedJob id) else
      let accept_until_ms := Z.min (re_accept_until_ms old) proposed_deadline in
      if accept_until_ms <=? anchor_ms then st_throw (ResurrectedJob id) else
      st_ret (id, mkRegistryEntry (re_storage old) accept_until_ms (re_winner_recovery_until_ms old) Accepting)
  | None =>
      let* resource := new_resource generation 0 in
      let* winner_recovery_until_ms := st_lift (winner_recovery_deadline proposed_deadline) in
      st_ret (id, mkRegistryEntry (Live resource) proposed_deadline winner_recovery_until_ms Accepting)
  end.

(** The jobs of a snapshot in order, rejecting a repeated identifier. *)
Fixpoint prepare_jobs (self : GenerationRegistry) (jobs : list AcceptableJob) (anchor_ms : Z)
    (seen : list JobId) : M World JobRegistryError (list (JobId * RegistryEntry)) :=
  match jobs with
  | [] => st_ret []
  | job :: rest =>
      let* prepared := prepare_acceptable self job anchor_ms in
      if bool_decide (prepared.1 ∈ seen) then st_throw (DuplicateSnapshotJob prepared.1) else
      let* tail := prepare_jobs self rest anchor_ms (prepared.1 :: seen) in
      st_ret (prepared :: tail)
  end.

Record PreparedSnapshot : Type := mkPreparedSnapshot {
  ps_entries : gmap JobId RegistryEntry;
  ps_current : option JobId;
  ps_recent : list JobId
}.

(** Omitted work becomes terminal. *)
Definition retire_unseen (seen : list JobId) (id : JobId) (e : RegistryEntry) : RegistryEntry :=
  if bool_decide (id ∈ seen) then e else
  set_state (match re_state e with Closed => Closed | _ => Invalidated end) e.

Definition prepare_snapshot (self : GenerationRegistry) (event_seq : Z) (current_job : option AcceptableJob)
    (recent_jobs : list AcceptableJob) (anchor_ms : Z) : M World JobRegistryError PreparedSnapshot :=
  do* st_lift (check_delivery_clock self anchor_ms) in
  do* match last_event_seq self with
      | Some previous =>
          if event_seq <? previous then st_throw (SnapshotSequenceRollback previous event_seq) else st_ret tt
      | None => st_ret tt
      end in
  if (maximum_recent (config self) <? length recent_jobs)%nat
  then st_throw (RecentCapacityExceeded (maximum_recent (config self))) else
  let* prepared_current := prepare_jobs self (option_list current_job) anchor_ms [] in
  let* prepared_recent := prepare_jobs self recent_jobs anchor_ms (prepared_current.*1) in
  let current_id := head (prepared_current.*1) in
  let recent_ids := prepared_recent.*1 in
  if bool_decide (last_event_seq self = Some event_seq)
     && (negb (bool_decide (current_id = watermark_current self))
         || negb (bool_decide (recent_ids = watermark_recent self)))
  then st_throw (SnapshotStateConflict event_seq) else
  let prepared := prepared_current ++ prepared_recent in
  let inserted := foldl (fun m p => <[p.1 := p.2]> m) (entries self) prepared in
  let seen := prepared.*1 in
  let entries' := map_imap (fun id e => Some (retire_unseen seen id e)) inserted in
  if (maximum_generations (config self) <? size entries')%nat
  then st_throw (GenerationCapacityExceeded (maximum_generations (config self))) else
  st_ret (mkPreparedSnapshot entries' current_id recent_ids).

Definition apply_snapshot (event_seq : Z) (current_job : option AcceptableJob)
    (recent_jobs : list AcceptableJob) (request_started_ms : Z) : M World JobRegistryError unit :=
  fun w =>
  let effective_now_ms := observed_max (last_monotonic_ms (registry w)) request_started_ms in
  match prepare_snapshot (registry w) event_seq current_job recent_jobs request_started_ms w with
  | (w, Ok prepared) =>
      modify_registry (fun self =>
        let self := with_entries (ps_entries prepared) (with_roles (ps_current prepared) (ps_recent prepared) self) in
        let self := with_watermark (current self) (recent self) self in
        let self := with_progress (Some event_seq) (Some request_started_ms) (Some effective_now_ms) true self in
        let self := expire_at effective_now_ms self in
        let ids := option_list (current self) ++ recent self in
        let self := foldl (fun self id => remember_winner_recovery id self) self ids in
        prune_winner_recovery effective_now_ms self) w
  | (w, Err error) => (do* modify_registry suspend in st_throw error) w
  end.

Definition activate (descriptor : JobDescriptor) (anchor_ms : Z) : M World JobRegistryError unit :=
  let* generation := st_lift (from_descriptor descriptor) in
  let id := bg_id generation in
  let* self := get_registry in
  if bool_decide (is_Some (entries self !! id)) then st_throw (ReusedJobId id) else
  let prior_current := opt_filter (entry_is self (fun e => accepting e anchor_ms)) (current self) in
  if bool_decide (is_Some prior_current) && (length (recent self) =? maximum_recent (config self))%nat
  then st_throw (RecentCapacityExceeded (maximum_recent (config self))) else
  if (size (entries self) =? maximum_generations (config self))%nat
  then st_throw (GenerationCapacityExceeded (maximum_generations (config self))) else
  let* accept_until_ms := st_lift (deadline anchor_ms (maximum_age_ms generation)) in
  do* modify_registry (fun self => with_roles (current self) (option_list prior_current ++ recent self) self) in
  let* resource := new_resource generation 0 in
  let* winner_recovery_until_ms := st_lift (winner_recovery_deadline accept_until_ms) in
  do* modify_registry (fun self => with_entries
        (<[id := mkRegistryEntry (Live resource) accept_until_ms winner_recovery_until_ms Accepting]>
           (entries self)) self) in
  do* modify_registry (fun self => with_roles (Some id) (recent self) self) in
  do* modify_registry (remember_winner_recovery id) in
  modify_registry (prune_winner_recovery anchor_ms).

Definition forget_role (id : JobId) (self : GenerationRegistry) : GenerationRegistry :=
  with_roles (opt_filter (fun c => negb (bool_decide (c = id))) (current self))
    (keep (fun r => negb (bool_decide (r = id))) (recent self)) self.

Definition clear_current (id : JobId) (self : GenerationRegistry) : GenerationRegistry :=
  with_roles (opt_filter (fun c => negb (bool_decide (c = id))) (current self)) (recent self) self.

Definition invalidate_job (id : JobId) (reason : JobInvalidationReason) (accept_for_ms anchor_ms : Z) :
    M GenerationRegistry JobRegistryError unit :=
  let* self := st_get in
  match entries self !! id with
  | None => st_ret tt
  | Some entry =>
      if negb (bool_decide (re_state entry = Accepting)) then st_modify (forget_role id) else
      do* (if bool_decide (reason = Superseded) && negb (accept_for_ms =? 0) then
             let* proposed := st_lift (deadline anchor_ms accept_for_ms) in
             let already_recent := bool_decide (id ∈ recent self) in
             if negb already_recent && (length (recent self) =? maximum_recent (config self))%nat
             then st_throw (RecentCapacityExceeded (maximum_recent (config self))) else
             let accept_until_ms := Z.min (re_accept_until_ms entry) proposed in
             let state := if anchor_ms <? accept_until_ms then Accepting else Invalidated in
             do* st_modify (fun self => with_entries
                   (<[id := set_state state (set_accept_until accept_until_ms entry)]> (entries self)) self) in
             if bool_decide (state = Accepting) && negb already_recent
             then st_modify (fun self => with_roles (current self) (id :: recent self) self)
             else st_ret tt
           else st_modify (fun self => with_entries (<[id := set_state Invalidated entry]> (entries self)) self)) in
      do* st_modify (clear_current id) in
      st_modify (fun self =>
        if entry_is self (fun e => accepting e anchor_ms) id then self
        else with_roles (current self) (keep (fun r => negb (bool_decide (r = id))) (recent self)) self)
  end.

Definition close_generation (id : JobId) (self : GenerationRegistry) : GenerationRegistry :=
  match entries self !! id with
  | None => self
  | Some entry =>
      with_winner_recovery (keep (fun r => negb (bool_decide (r = id))) (winner_recovery self))
        (forget_role id (with_entries (<[id := set_state Closed entry]> (entries self)) self))
  end.

Definition apply_event_body (event : BackendEvent) (anchor_ms : Z) : M World JobRegistryError unit :=
  match event with
  | JobActivated _ job => activate job anchor_ms
  | JobInvalidated _ job_id reason accept_for_ms =>
      let* id := st_lift (JobId_new (as_bytes job_id)) in
      do* modify_registry (fun self =>
            if bool_decide (reason = ZcashTipChanged)
            then with_winner_recovery (keep (fun r => negb (bool_decide (r = id))) (winner_recovery self)) self
            else self) in
      on_registry (invalidate_job id reason accept_for_ms anchor_ms)
  | GenerationClosed _ job_id =>
      let* id := st_lift (JobId_new (as_bytes job_id)) in
      modify_registry (close_generation id)
  | _ => st_ret tt
  end.

Definition try_apply_event (event : BackendEvent) (anchor_ms policy_now_ms : Z) :
    M World JobRegistryError unit :=
  let* self := get_registry in
  if negb (synchronized self) then st_throw NotSynchronized else
  do* st_lift (check_delivery_clock self anchor_ms) in
  do* st_lift (check_clock self policy_now_ms) in
  if policy_now_ms <? anchor_ms then st_throw ClockMovedBackwards else
  let effective_now_ms := observed_max (last_monotonic_ms self) policy_now_ms in
  do* st_lift (map_err (fun _ => InvalidBackendEvent) (BackendEvent_validate sha256 event)) in
  let* previous := st_lift (ok_or (last_event_seq self) NotSynchronized) in
  let* expected := st_lift (ok_or (checked_add U64_MAX previous 1) EventSequenceExhausted) in
  if negb (event_seq event =? expected) then st_throw (EventSequenceGap expected (event_seq event)) else
  do* modify_registry (expire_at effective_now_ms) in
  do* apply_event_body event anchor_ms in
  modify_registry (fun self =>
    let self := expire_at effective_now_ms self in
    with_progress (Some (event_seq event)) (Some anchor_ms) (Some effective_now_ms) (synchronized self)
      (with_watermark (current self) (recent self) self)).

Definition apply_event_at (event : BackendEvent) (delivery_anchor_ms policy_now_ms : Z) :
    M World JobRegistryError unit :=
  fun w => match try_apply_event event delivery_anchor_ms policy_now_ms w with
           | (w, Ok tt) => (w, Ok tt)
           | (w, Err error) => (do* modify_registry suspend in st_throw error) w
           end.

Definition apply_event (event : BackendEvent) (delivery_anchor_ms : Z) : M World JobRegistryError unit :=
  fun w => apply_event_at event delivery_anchor_ms
             (observed_max (last_monotonic_ms (registry w)) delivery_anchor_ms) w.
End Registry.
