(* ===== verification/JobsInv.v ===== *)
(** Invariants of the generation registry and its shared counters, preserved by every operation
    of Jobs.v, and how an entry may evolve. *)

From Stdlib Require Import ZArith Lia.
From stdpp Require Import prelude gmap sorting strings.
From S2P Require Import Prelude Wire Target LargestRemainder Backend Jobs.
Open Scope Z_scope.

(** ** How an entry evolves *)

(** Storage, generation and recovery deadline are fixed, the admission deadline only shrinks, a
    terminal state stays terminal and a closed one closed. *)
Record entry_evolves (e e' : RegistryEntry) : Prop := {
  ev_storage : re_storage e' = re_storage e;
  ev_deadline : re_accept_until_ms e' <= re_accept_until_ms e;
  ev_recovery : re_winner_recovery_until_ms e' = re_winner_recovery_until_ms e;
  ev_terminal : is_terminal (re_state e) = true -> is_terminal (re_state e') = true;
  ev_closed : re_state e = Closed -> re_state e' = Closed
}.

#[global] Instance entry_evolves_preorder : PreOrder entry_evolves.
Proof.
  split; [intros e; by split|]. intros e1 e2 e3 [] []. split; [congruence|lia|congruence|auto|auto].
Qed.

(** Same domain, entry by entry. *)
Definition entries_evolve (m m' : gmap JobId RegistryEntry) : Prop :=
  forall id, option_relation entry_evolves (fun _ => False) (fun _ => False) (m !! id) (m' !! id).

#[global] Instance entries_evolve_preorder : PreOrder entries_evolve.
Proof.
  split.
  - intros m id. destruct (m !! id); cbn; [reflexivity|done].
  - intros m1 m2 m3 H1 H2 id. specialize (H1 id). specialize (H2 id).
    destruct (m1 !! id), (m2 !! id), (m3 !! id); cbn in *; try done. by etrans.
Qed.

Lemma entries_evolve_fmap (f : RegistryEntry -> RegistryEntry) m :
  (forall e, entry_evolves e (f e)) -> entries_evolve m (f <$> m).
Proof. intros Hf id. rewrite lookup_fmap. destruct (m !! id); cbn; auto. Qed.

Lemma entries_evolve_insert id e e' m :
  m !! id = Some e -> entry_evolves e e' -> entries_evolve m (<[id := e']> m).
Proof.
  intros Hm He id'. destruct (decide (id' = id)) as [->|Hne].
  - rewrite Hm, lookup_insert_eq. done.
  - rewrite lookup_insert_ne by done. destruct (m !! id'); cbn; [reflexivity|done].
Qed.

Lemma entries_evolve_lookup m m' id e' :
  entries_evolve m m' -> m' !! id = Some e' -> exists e, m !! id = Some e /\ entry_evolves e e'.
Proof. intros H E. specialize (H id). rewrite E in H. destruct (m !! id); cbn in H; [eauto|done]. Qed.

Lemma entries_evolve_size m m' : entries_evolve m m' -> size m' = size m.
Proof.
  intros H. rewrite <- !size_dom. f_equal. apply set_eq. intros id. rewrite !elem_of_dom.
  specialize (H id). destruct (m !! id), (m' !! id); cbn in H; try done; split; intros []; eauto; done.
Qed.

(** ** Entry-level invariant *)

Record entry_ok (id : JobId) (e : RegistryEntry) : Prop := {
  eo_key : bg_id (re_generation e) = id;
  eo_valid : from_descriptor (bg_descriptor (re_generation e)) = Ok (re_generation e);
  eo_tomb : is_live e = false -> is_terminal (re_state e) = true;
  eo_tail : re_accept_until_ms e <= re_winner_recovery_until_ms e
}.

Record EInv (r : GenerationRegistry) : Prop := {
  ei_size : (size (entries r) <= maximum_generations (config r))%nat;
  ei_entry : forall id e, entries r !! id = Some e -> entry_ok id e
}.

(** An entry that evolves without becoming live-looking again keeps its invariant. *)
Lemma entry_ok_evolves id e e' : entry_evolves e e' -> entry_ok id e -> entry_ok id e'.
Proof.
  intros [Hs Hd Hr Ht Hc] [Hk Hv Htomb Htail]. unfold re_generation, is_live in *.
  split; unfold re_generation, is_live; rewrite ?Hs; [done|done| |lia]. auto.
Qed.

Lemma EInv_evolves r r' :
  config r' = config r -> entries_evolve (entries r) (entries r') -> EInv r -> EInv r'.
Proof.
  intros Hc He [Hs Hok]. split.
  - by rewrite Hc, (entries_evolve_size _ _ He).
  - intros id e' E. destruct (entries_evolve_lookup _ _ _ _ He E) as (e & Eq & Hev).
    by eapply entry_ok_evolves; [|apply Hok].
Qed.

Lemma accepting_live id e : entry_ok id e -> re_state e = Accepting -> is_live e = true.
Proof. intros Hok Hs. destruct (is_live e) eqn:E; [done|]. apply (eo_tomb _ _ Hok) in E. by rewrite Hs in E. Qed.

(** ** Role-level invariant *)

Definition roles (r : GenerationRegistry) : list JobId := option_list (current r) ++ recent r.

Record RInv (r : GenerationRegistry) : Prop := {
  rv_recent : (length (recent r) <= maximum_recent (config r))%nat;
  rv_nodup : NoDup (roles r);
  rv_roles : forall id, id ∈ roles r -> exists e, entries r !! id = Some e /\ re_state e = Accepting;
  rv_accepting : forall id e, entries r !! id = Some e -> re_state e = Accepting -> id ∈ roles r;
  rv_history_nodup : NoDup (winner_recovery r);
  rv_history_len : (length (winner_recovery r) <= MAX_ZCASH_WINNER_RECOVERY_JOBS)%nat;
  rv_history_dom : forall id, id ∈ winner_recovery r -> is_Some (entries r !! id);
  rv_sync : synchronized r = true ->
            is_Some (last_event_seq r) /\ forall id e, entries r !! id = Some e -> re_state e <> Suspended;
  rv_unsync : synchronized r = false -> roles r = [] /\ winner_recovery r = []
}.

Definition Inv (r : GenerationRegistry) : Prop := EInv r /\ RInv r.

(** No role outlives the latest time the registry has seen. *)
Definition Timely (r : GenerationRegistry) : Prop :=
  forall t id e, last_monotonic_ms r = Some t -> id ∈ roles r -> entries r !! id = Some e ->
    t < re_accept_until_ms e.

Lemma elem_of_keep p l id : id ∈ keep p l <-> p id = true /\ id ∈ l.
Proof. unfold keep. by rewrite list_elem_of_filter. Qed.

Lemma keep_nodup p l : NoDup l -> NoDup (keep p l).
Proof. apply NoDup_filter. Qed.

Lemma length_keep p l : (length (keep p l) <= length l)%nat.
Proof. apply length_filter. Qed.

Lemma elem_of_opt_filter {A} (p : A -> bool) (o : option A) a :
  a ∈ option_list (opt_filter p o) <-> p a = true /\ a ∈ option_list o.
Proof.
  destruct o as [b|]; cbn; [|rewrite elem_of_nil; naive_solver].
  destruct (p b) eqn:E; cbn; rewrite ?list_elem_of_singleton, ?elem_of_nil; naive_solver congruence.
Qed.

Lemma opt_filter_roles p c l :
  NoDup (option_list c ++ l) -> NoDup (option_list (opt_filter p c) ++ keep p l).
Proof.
  intros (Hc & Hd & Hl)%NoDup_app. apply NoDup_app. split_and!.
  - destruct c as [a|]; cbn; [destruct (p a)|]; cbn; auto using NoDup_nil_2, NoDup_singleton.
  - intros a Ha%elem_of_opt_filter Hk%elem_of_keep. naive_solver.
  - by apply keep_nodup.
Qed.

(** ** Transitions of the registry *)

(** A transition of the registry alone: limits stay, entries evolve in place. *)
Record revolves (r r' : GenerationRegistry) : Prop := {
  rev_config : config r' = config r;
  rev_entries : entries_evolve (entries r) (entries r')
}.

#[global] Instance revolves_preorder : PreOrder revolves.
Proof.
  split; [intros r; by split|]. intros r1 r2 r3 [] []. split; [congruence|by etrans].
Qed.

Lemma EInv_revolves r r' : revolves r r' -> EInv r -> EInv r'.
Proof. intros [Hc He]. by apply EInv_evolves. Qed.

Lemma revolves_same r r' : config r' = config r -> entries r' = entries r -> revolves r r'.
Proof. intros Hc He. split; [done|]. by rewrite He. Qed.

Lemma suspend_entry_evolves e :
  entry_evolves e (if bool_decide (re_state e = Accepting) then set_state Suspended e else e).
Proof. case_bool_decide as Hs; [|reflexivity]. split; cbn; try done; rewrite Hs; done. Qed.

Lemma suspend_revolves r : revolves r (suspend r).
Proof. split; [done|]. apply entries_evolve_fmap, suspend_entry_evolves. Qed.

Lemma suspend_Inv r : EInv r -> Inv (suspend r).
Proof.
  intros He. split; [by eapply EInv_revolves, He; apply suspend_revolves|].
  split; cbn; try done.
  - lia.
  - apply NoDup_nil_2.
  - intros id. by rewrite elem_of_nil.
  - intros id e. rewrite lookup_fmap. destruct (entries r !! id) as [e0|]; cbn; [|done].
    intros [= <-]. case_bool_decide; cbn; congruence.
  - apply NoDup_nil_2.
  - unfold MAX_ZCASH_WINNER_RECOVERY_JOBS. lia.
  - intros id. by rewrite elem_of_nil.
Qed.

Lemma suspend_Timely r : Timely (suspend r).
Proof. intros t id e _ Hin. by apply elem_of_nil in Hin. Qed.

Lemma expire_entry_evolves t e : entry_evolves e (expire_entry t e).
Proof.
  unfold expire_entry. destruct (re_state e) eqn:Hs; cbn; try reflexivity;
    destruct (re_accept_until_ms e <=? t); cbn; try reflexivity; split; cbn; try done; by rewrite Hs.
Qed.

Lemma expire_revolves t r : revolves r (expire_at t r).
Proof. split; [done|]. apply entries_evolve_fmap, expire_entry_evolves. Qed.

Lemma expire_entry_accepting t e :
  re_state (expire_entry t e) = Accepting <-> re_state e = Accepting /\ t < re_accept_until_ms e.
Proof.
  unfold expire_entry. destruct (_ && _) eqn:E; cbn.
  - apply andb_true_iff in E as [_ E]. apply Z.leb_le in E. split; [done|]. intros [_ Ht]. lia.
  - split; [|by intros [? _]]. intros Hs. split; [done|]. rewrite bool_decide_true in E by done.
    cbn in E. apply Z.leb_gt in E. lia.
Qed.

Lemma expire_entry_fields t e :
  re_storage (expire_entry t e) = re_storage e /\ re_accept_until_ms (expire_entry t e) = re_accept_until_ms e.
Proof. unfold expire_entry. by destruct (_ && _). Qed.

(** After expiry the admitting entries are those accepting with time left. *)
Lemma expire_admits t r id : EInv r ->
  entry_is (expire_at t r) (fun e => accepting e t) id = true <->
  exists e, entries r !! id = Some e /\ re_state e = Accepting /\ t < re_accept_until_ms e.
Proof.
  intros He. unfold entry_is. cbn. rewrite lookup_fmap. destruct (entries r !! id) as [e|] eqn:E; cbn;
    [|naive_solver]. unfold accepting, is_live. destruct (expire_entry_fields t e) as [-> ->].
  rewrite !andb_true_iff, bool_decide_eq_true, expire_entry_accepting, Z.ltb_lt. split.
  - intros ((Hs & _) & _). exists e. naive_solver.
  - intros (e' & [= <-] & Hs & Ht). split_and!; try done.
    pose proof (accepting_live id e (ei_entry _ He _ _ E) Hs) as Hl. by unfold is_live in Hl.
Qed.

Lemma elem_of_expire_roles t r id :
  id ∈ roles (expire_at t r) <->
  entry_is (expire_at t r) (fun e => accepting e t) id = true /\ id ∈ roles r.
Proof.
  change (roles (expire_at t r)) with
    (option_list (opt_filter (entry_is (expire_at t r) (fun e => accepting e t)) (current r)) ++
     keep (entry_is (expire_at t r) (fun e => accepting e t)) (recent r)).
  unfold roles. rewrite !elem_of_app, elem_of_opt_filter, elem_of_keep. naive_solver.
Qed.

Lemma expire_Inv t r : Inv r -> Inv (expire_at t r).
Proof.
  intros [He [H1 H2 H3 H4 H5 H6 H7 H8 H9]]. split; [by eapply EInv_revolves, He; apply expire_revolves|].
  split; try done.
  - cbn. etrans; [apply length_keep|done].
  - by apply opt_filter_roles.
  - intros id (Ha & _)%elem_of_expire_roles. apply (expire_admits t r id He) in Ha as (e & E & Hs & Ht).
    exists (expire_entry t e). cbn. rewrite lookup_fmap, E. split; [done|]. by apply expire_entry_accepting.
  - intros id e. cbn. rewrite lookup_fmap. destruct (entries r !! id) as [e0|] eqn:E; cbn; [|done].
    intros [= <-] [Hs Ht]%expire_entry_accepting. apply elem_of_expire_roles. split; [|by eapply H4].
    apply expire_admits; [done|]. eauto.
  - intros id Hid. cbn. rewrite lookup_fmap. destruct (H7 id Hid) as [e ->]. by eexists.
  - intros Hsync. destruct (H8 Hsync) as [Hseq Hn]. split; [done|]. intros id e. cbn. rewrite lookup_fmap.
    destruct (entries r !! id) as [e0|] eqn:E; cbn; [|done]. intros [= <-]. pose proof (Hn _ _ E).
    unfold expire_entry. by destruct (_ && _).
  - intros Hu. destruct (H9 Hu) as [Hr Hw]. split; [|done]. unfold roles in Hr. apply app_eq_nil in Hr as [Hc Hr].
    unfold roles. cbn. destruct (current r); [done|]. rewrite Hr. done.
Qed.

Lemma expire_Timely t r : Inv r -> forall id e,
  id ∈ roles (expire_at t r) -> entries (expire_at t r) !! id = Some e -> t < re_accept_until_ms e.
Proof.
  intros [He _] id e (Ha & _)%elem_of_expire_roles E.
  apply (expire_admits t r id He) in Ha as (e0 & E0 & _ & Ht).
  cbn in E. rewrite lookup_fmap, E0 in E. cbn in E. injection E as <-.
  by destruct (expire_entry_fields t e0) as [_ ->].
Qed.

(** Changing the recovery history only. *)
Lemma history_Inv l r :
  NoDup l -> (length l <= MAX_ZCASH_WINNER_RECOVERY_JOBS)%nat ->
  (forall id, id ∈ l -> is_Some (entries r !! id)) -> (synchronized r = false -> l = []) ->
  Inv r -> Inv (with_winner_recovery l r).
Proof.
  intros Hn Hl Hd Hu [[He1 He2] [H1 H2 H3 H4 H5 H6 H7 H8 H9]]. split; [by split|].
  split; try done. intros E. split; [by apply H9|by apply Hu].
Qed.

Lemma keep_history_Inv p r : Inv r -> Inv (with_winner_recovery (keep p (winner_recovery r)) r).
Proof.
  intros Hi. destruct Hi as [He Hr]. apply history_Inv; [| | | |by split].
  - apply keep_nodup, Hr.
  - etrans; [apply length_keep|apply Hr].
  - intros id [_ Hid]%elem_of_keep. by apply (rv_history_dom _ Hr).
  - intros Hu. destruct (rv_unsync _ Hr Hu) as [_ ->]. done.
Qed.

Lemma prune_Inv t r : Inv r -> Inv (prune_winner_recovery t r).
Proof. apply keep_history_Inv. Qed.

Lemma remember_fields id r :
  let r' := remember_winner_recovery id r in
  config r' = config r /\ entries r' = entries r /\ synchronized r' = synchronized r /\
  current r' = current r /\ recent r' = recent r /\ last_monotonic_ms r' = last_monotonic_ms r /\
  last_event_seq r' = last_event_seq r.
Proof. unfold remember_winner_recovery. by destruct (bool_decide (id ∈ winner_recovery r)). Qed.

Lemma remember_Inv id r :
  is_Some (entries r !! id) -> synchronized r = true -> Inv r -> Inv (remember_winner_recovery id r).
Proof.
  intros Hid Hs Hi. unfold remember_winner_recovery. case_bool_decide as Hin; [done|].
  destruct Hi as [He Hr]. set (kept := if (_ =? _)%nat then _ else _).
  assert (kept `sublist_of` winner_recovery r) as Hsub.
  { unfold kept. case_match; [|done]. destruct (winner_recovery r); [done|]. by apply sublist_cons. }
  assert (length kept < MAX_ZCASH_WINNER_RECOVERY_JOBS)%nat as Hlen.
  { pose proof (rv_history_len _ Hr) as Hl. unfold kept, MAX_ZCASH_WINNER_RECOVERY_JOBS in *.
    destruct (Nat.eqb_spec (length (winner_recovery r)) 32); [|lia].
    destruct (winner_recovery r); cbn [tail length] in *; lia. }
  assert (id ∉ kept) as Hk by (intros Hk; apply Hin; by eapply elem_of_sublist).
  apply history_Inv; [| | |congruence|by split].
  - apply NoDup_app. split_and!; [eapply sublist_NoDup; [apply (rv_history_nodup _ Hr)|exact Hsub]| |apply NoDup_singleton].
    intros a Ha Ha'%list_elem_of_singleton. by subst.
  - rewrite length_app. cbn. lia.
  - intros a [Ha|Ha%list_elem_of_singleton]%elem_of_app; [|by subst].
    apply (rv_history_dom _ Hr). by eapply elem_of_sublist.
Qed.

(** ** Changing one entry and its role *)

(** The roles after an entry changed: those of the others, and its own while it accepts. *)
Lemma update_Inv r id e e' c l :
  Inv r -> synchronized r = true -> entries r !! id = Some e -> entry_evolves e e' ->
  re_state e' <> Suspended -> (length l <= maximum_recent (config r))%nat ->
  NoDup (option_list c ++ l) ->
  (forall x, x ∈ option_list c ++ l <-> x <> id /\ x ∈ roles r \/ x = id /\ re_state e' = Accepting) ->
  Inv (with_roles c l (with_entries (<[id := e']> (entries r)) r)).
Proof.
  intros [He Hr] Hsync E Hev Hns Hl Hn Hx. split.
  { eapply EInv_evolves, He; [done|]. by eapply entries_evolve_insert. }
  destruct Hr as [H1 H2 H3 H4 H5 H6 H7 H8 H9]. split; cbn; try done.
  - intros x Hin. apply Hx in Hin as [[Hne Hin]|[-> Hs]].
    + destruct (H3 x Hin) as (ex & Ex & Hs). exists ex. by rewrite lookup_insert_ne.
    + exists e'. by rewrite lookup_insert_eq.
  - intros x ex Ex Hs. apply Hx. destruct (decide (x = id)) as [->|Hne].
    + right. rewrite lookup_insert_eq in Ex. naive_solver.
    + left. rewrite lookup_insert_ne in Ex by done. eauto.
  - intros x Hin. destruct (decide (x = id)) as [->|Hne]; [rewrite lookup_insert_eq; eauto|].
    rewrite lookup_insert_ne by done. eauto.
  - intros _. destruct (H8 Hsync) as [Hseq Hall]. split; [done|]. intros x ex Ex.
    destruct (decide (x = id)) as [->|Hne]; [rewrite lookup_insert_eq in Ex; naive_solver|].
    rewrite lookup_insert_ne in Ex by done. eauto.
  - congruence.
Qed.

Definition others (id : JobId) (c : JobId) : bool := negb (bool_decide (c = id)).

Lemma others_true id c : others id c = true <-> c <> id.
Proof. unfold others. by rewrite negb_true_iff, bool_decide_eq_false. Qed.

Lemma without_roles_elem r id x :
  x ∈ option_list (opt_filter (others id) (current r)) ++ keep (others id) (recent r) <->
  x <> id /\ x ∈ roles r.
Proof. unfold roles. rewrite !elem_of_app, elem_of_opt_filter, elem_of_keep, others_true. naive_solver. Qed.

(** The entry of [id] leaves every role. *)
Lemma drop_role_Inv r id e e' :
  Inv r -> synchronized r = true -> entries r !! id = Some e -> entry_evolves e e' ->
  re_state e' <> Suspended -> re_state e' <> Accepting ->
  Inv (with_roles (opt_filter (others id) (current r)) (keep (others id) (recent r))
         (with_entries (<[id := e']> (entries r)) r)).
Proof.
  intros Hi Hsync E Hev Hs Ha. eapply update_Inv; try done.
  - etrans; [apply length_keep|apply Hi].
  - apply opt_filter_roles, Hi.
  - intros x. rewrite without_roles_elem. naive_solver.
Qed.

Lemma opt_filter_others_keep r id :
  Inv r -> id ∈ recent r -> opt_filter (others id) (current r) = current r.
Proof.
  intros [_ Hr] Hin. pose proof (rv_nodup _ Hr) as Hn. unfold roles in Hn. destruct (current r) as [c|]; [|done].
  cbn. cbn in Hn. apply NoDup_cons in Hn as [Hn _].
  assert (others id c = true) as -> by (apply others_true; intros ->; done). done.
Qed.

Lemma terminal_evolves e s : is_terminal s = true -> (re_state e = Closed -> s = Closed) ->
  entry_evolves e (set_state s e).
Proof. intros Ht Hc. split; cbn; try done. Qed.

(** The entry of [id] stays accepting, as a recent job only. *)
Lemma grace_role_Inv r id e e' l :
  Inv r -> synchronized r = true -> entries r !! id = Some e -> entry_evolves e e' ->
  re_state e' = Accepting ->
  ((id ∈ recent r) /\ l = recent r \/
   (id ∉ recent r) /\ length (recent r) <> maximum_recent (config r) /\ l = id :: recent r) ->
  Inv (with_roles (opt_filter (others id) (current r)) l (with_entries (<[id := e']> (entries r)) r)).
Proof.
  intros Hi Hsync E Hev Hs Hl. pose proof (rv_recent _ (proj2 Hi)) as Hrl.
  pose proof (rv_nodup _ (proj2 Hi)) as Hn.
  destruct Hl as [[Hin ->]|(Hin & Hlen & ->)]; (eapply update_Inv; [done..|congruence| | |]).
  - done.
  - by rewrite opt_filter_others_keep.
  - intros x. rewrite opt_filter_others_keep by done. fold (roles r). split.
    + intros Hx. destruct (decide (x = id)); [by right|by left].
    + intros [[_ Hx]|[-> _]]; [done|]. unfold roles. rewrite elem_of_app. by right.
  - cbn [length]. lia.
  - apply NoDup_app in Hn as (Hn1 & Hn2 & Hn3). apply NoDup_app. split_and!.
    + destruct (current r) as [c|]; cbn; [destruct (others id c)|]; cbn; auto using NoDup_nil_2, NoDup_singleton.
    + intros x [Hx Hc]%elem_of_opt_filter. apply others_true in Hx. rewrite not_elem_of_cons.
      split; [done|by apply Hn2].
    + by constructor.
  - intros x. unfold roles. rewrite !elem_of_app, elem_of_opt_filter, others_true, elem_of_cons. split.
    + intros [[Hx Hc]|[Hx|Hx]]; [naive_solver|by right|]. left. split; [by intros ->|by right].
    + intros [[Hx [Hc|Hc]]|[Hx _]]; naive_solver.
Qed.

(** A state update of one entry, whatever the roles. *)
Lemma insert_revolves r id e e' c l :
  entries r !! id = Some e -> entry_evolves e e' ->
  revolves r (with_roles c l (with_entries (<[id := e']> (entries r)) r)).
Proof. intros E Hev. split; [done|]. by eapply entries_evolve_insert. Qed.

Lemma invalidate_Inv id reason accept anchor r :
  Inv r -> synchronized r = true ->
  match invalidate_job id reason accept anchor r with
  | (r', Ok _) => Inv r' /\ synchronized r' = true /\ revolves r r'
  | (r', Err _) => r' = r
  end.
Proof.
  intros Hi Hsync. unfold invalidate_job. st_unfold. destruct (entries r !! id) as [e|] eqn:E; [|done].
  case_bool_decide as Hst; cbn [negb].
  2:{ pose proof (drop_role_Inv r id e e Hi Hsync E ltac:(reflexivity)
        (proj2 (rv_sync _ (proj2 Hi) Hsync) _ _ E) Hst) as H. rewrite insert_id in H by done.
      split; [exact H|]. by split; [|apply revolves_same]. }
  destruct (bool_decide (reason = Superseded) && negb (accept =? 0)).
  - unfold deadline. destruct (checked_add U64_MAX anchor accept) as [proposed|]; [|done]. cbn [ok_or].
    set (until := Z.min (re_accept_until_ms e) proposed).
    destruct (negb (bool_decide (id ∈ recent r)) && (length (recent r) =? maximum_recent (config r))%nat) eqn:Hcap; [done|].
    assert (forall s, s <> Closed -> s <> Suspended ->
      entry_evolves e (set_state s (set_accept_until until e))) as Hev
      by (intros; split; cbn; rewrite ?Hst; try done; unfold until; lia).
    unfold clear_current, entry_is. destruct (Z.ltb_spec anchor until) as [Hlt|Hge].
    + specialize (Hev Accepting ltac:(done) ltac:(done)). set (e' := set_state _ _) in *.
      assert (accepting e' anchor = true) as Hacc.
      { pose proof (accepting_live id e (ei_entry _ (proj1 Hi) _ _ E) Hst) as Hl. unfold accepting, is_live in *.
        cbn. rewrite Hl, bool_decide_true by done. cbn. by apply Z.ltb_lt. }
      rewrite (bool_decide_true (Accepting = Accepting)) by done. case_bool_decide as Hin; cbn;
        rewrite lookup_insert_eq; fold e'; rewrite Hacc; fold (others id);
        (split; [|split; [done|by eapply insert_revolves]]); apply (grace_role_Inv r id e e'); try done.
      * by left.
      * right. split_and!; try done. cbn in Hcap. by apply Nat.eqb_neq in Hcap.
    + specialize (Hev Invalidated ltac:(done) ltac:(done)). set (e' := set_state _ _) in *.
      rewrite (bool_decide_false (Invalidated = Accepting)) by done. cbn.
      rewrite lookup_insert_eq. fold (others id).
      split; [by apply (drop_role_Inv r id e e')|]. split; [done|]. by eapply insert_revolves.
  - unfold clear_current, entry_is. cbn. rewrite lookup_insert_eq. unfold accepting. cbn.
    rewrite bool_decide_false by done. cbn. fold (others id).
    assert (entry_evolves e (set_state Invalidated e)) as Hev
      by (apply terminal_evolves; [done|by rewrite Hst]).
    split; [by apply (drop_role_Inv r id e)|]. split; [done|]. by eapply insert_revolves.
Qed.

Lemma close_Inv id r :
  Inv r -> synchronized r = true ->
  Inv (close_generation id r) /\ synchronized (close_generation id r) = true /\
  revolves r (close_generation id r).
Proof.
  intros Hi Hsync. unfold close_generation. destruct (entries r !! id) as [e|] eqn:E; [|done].
  assert (entry_evolves e (set_state Closed e)) as Hev by by apply terminal_evolves.
  split; [|split; [done|]].
  - apply (keep_history_Inv (others id) (forget_role id (with_entries (<[id:=set_state Closed e]> (entries r)) r))).
    by apply (drop_role_Inv r id e).
  - split; [done|]. by eapply entries_evolve_insert.
Qed.

(** ** The world *)

(** What an operation that creates no guard may do to the world: entries evolve, new entries
    come with a fresh resource, and the heap grows by unused cells. *)
Record extends (w w' : World) : Prop := {
  ex_config : config (registry w') = config (registry w);
  ex_next : next_addr w <= next_addr w';
  ex_heap : forall a c, heap w !! a = Some c -> heap w' !! a = Some c;
  ex_new : forall a c, heap w' !! a = Some c ->
    heap w !! a = Some c \/ next_addr w <= a < next_addr w' /\ hc_in_flight c = 0;
  ex_entries : forall id e, entries (registry w) !! id = Some e ->
    exists e', entries (registry w') !! id = Some e' /\ entry_evolves e e';
  ex_fresh : forall id e', entries (registry w') !! id = Some e' -> entries (registry w) !! id = None ->
    exists res, re_storage e' = Live res /\ next_addr w <= gr_addr res /\
      heap w' !! gr_addr res = Some (mkHeapCell (gr_generation res) 0)
}.

#[global] Instance extends_preorder : PreOrder extends.
Proof.
  split.
  - intros w. split; try done; [naive_solver|intros; eexists; by split|congruence].
  - intros w1 w2 w3 [c1 n1 h1 d1 e1 f1] [c2 n2 h2 d2 e2 f2]. split.
    + congruence.
    + lia.
    + auto.
    + intros a c H3. destruct (d2 _ _ H3) as [H2|[H2 H2']]; [|right; split; [lia|done]].
      destruct (d1 _ _ H2) as [H1|[H1 H1']]; [by left|right; split; [lia|done]].
    + intros id e E. destruct (e1 _ _ E) as (e' & E' & V1). destruct (e2 _ _ E') as (e'' & E'' & V2).
      exists e''. split; [done|by etrans].
    + intros id e'' E'' E. destruct (entries (registry w2) !! id) as [e'|] eqn:E'.
      * destruct (f1 _ _ E' E) as (res & Hs & Ha & Hh). destruct (e2 _ _ E') as (e3 & E3 & V).
        rewrite E'' in E3. injection E3 as <-. exists res. rewrite (ev_storage _ _ V). auto.
      * destruct (f2 _ _ E'' E') as (res & Hs & Ha & Hh). exists res. split; [done|]. split; [lia|done].
Qed.

Lemma extends_registry w r :
  revolves (registry w) r -> extends w (mkWorld r (heap w) (next_addr w)).
Proof.
  intros [Hc He]. split; cbn; try done; [naive_solver| |].
  - intros id e E. specialize (He id). rewrite E in He. destruct (entries r !! id); cbn in He; [eauto|done].
  - intros id e' E' E. specialize (He id). by rewrite E, E' in He.
Qed.

(** Allocation, with addresses above [next_addr] unused. *)
Definition heap_fresh (w : World) : Prop := forall a c, heap w !! a = Some c -> a < next_addr w.

Lemma heap_fresh_extends w w' : heap_fresh w -> extends w w' -> heap_fresh w'.
Proof.
  intros Hf Hx a c Ha. destruct (ex_new _ _ Hx _ _ Ha) as [H|[H _]]; [|lia].
  pose proof (Hf _ _ H). pose proof (ex_next _ _ Hx). lia.
Qed.

Definition allocated (g : BackendGeneration) (w : World) : World :=
  mkWorld (registry w) (<[next_addr w := mkHeapCell g 0]> (heap w)) (next_addr w + 1).

Lemma extends_alloc w g : heap_fresh w -> extends w (allocated g w).
Proof.
  intros Hf. split; cbn; try done; [lia| | |intros; eexists; by split|congruence].
  - intros a c Ha. rewrite lookup_insert_ne; [done|]. intros Heq. apply Hf in Ha. lia.
  - intros a c. destruct (decide (a = next_addr w)) as [->|Hne].
    + rewrite lookup_insert_eq. intros [= <-]. right. cbn. lia.
    + rewrite lookup_insert_ne by done. by left.
Qed.

(** Adding an entry with a fresh resource. *)
Lemma extends_add w id e res :
  entries (registry w) !! id = None -> re_storage e = Live res ->
  forall w0, heap_fresh w0 -> extends w0 w -> entries (registry w0) !! id = None ->
  next_addr w0 <= gr_addr res -> heap w !! gr_addr res = Some (mkHeapCell (gr_generation res) 0) ->
  forall r, config r = config (registry w) -> entries r = <[id := e]> (entries (registry w)) ->
  extends w0 (mkWorld r (heap w) (next_addr w)).
Proof.
  intros E Hs w0 Hf Hx E0 Ha Hh r Hc Hr. destruct Hx as [xc xn xh xd xe xf]. split; cbn; try done.
  - congruence.
  - intros i ei Ei. rewrite Hr. rewrite lookup_insert_ne by congruence. by apply xe.
  - intros i ei Ei E'. rewrite Hr in Ei. destruct (decide (i = id)) as [->|Hne].
    + rewrite lookup_insert_eq in Ei. injection Ei as <-. eauto.
    + rewrite lookup_insert_ne in Ei by done. by eapply xf.
Qed.

(** ** Activation *)

Lemma add_EInv r id e :
  EInv r -> entries r !! id = None -> entry_ok id e ->
  size (entries r) <> maximum_generations (config r) ->
  forall r', config r' = config r -> entries r' = <[id := e]> (entries r) -> EInv r'.
Proof.
  intros [Hs Ho] E Hok Hmax r' Hc He. split.
  - rewrite He, Hc, map_size_insert_None by done. lia.
  - intros i ei. rewrite He. destruct (decide (i = id)) as [->|Hne].
    + rewrite lookup_insert_eq. by intros [= <-].
    + rewrite lookup_insert_ne by done. apply Ho.
Qed.

Lemma add_Inv r id e :
  Inv r -> synchronized r = true -> entries r !! id = None -> entry_ok id e -> re_state e = Accepting ->
  size (entries r) <> maximum_generations (config r) ->
  (length (roles r) <= maximum_recent (config r))%nat ->
  Inv (with_roles (Some id) (roles r) (with_entries (<[id := e]> (entries r)) r)).
Proof.
  intros [He Hr] Hsync E Hok Hst Hsz Hlen. split; [by eapply add_EInv|].
  destruct Hr as [H1 H2 H3 H4 H5 H6 H7 H8 H9].
  assert (id ∉ roles r) as Hnew by (intros Hin; destruct (H3 _ Hin) as (? & ? & _); congruence).
  split; cbn; try done.
  - constructor; [done|exact H2].
  - intros x [->|Hx]%elem_of_cons; [exists e; by rewrite lookup_insert_eq|].
    destruct (H3 x Hx) as (ex & Ex & Hs). exists ex. rewrite lookup_insert_ne by congruence. done.
  - intros x ex Ex Hs. apply elem_of_cons. destruct (decide (x = id)) as [->|Hne]; [by left|right].
    rewrite lookup_insert_ne in Ex by done. eauto.
  - intros x Hx. destruct (H7 x Hx) as [ex Ex]. rewrite lookup_insert_ne by congruence. eauto.
  - intros _. destruct (H8 Hsync) as [Hseq Hall]. split; [done|]. intros x ex Ex.
    destruct (decide (x = id)) as [->|Hne]; [rewrite lookup_insert_eq in Ex; naive_solver congruence|].
    rewrite lookup_insert_ne in Ex by done. eauto.
  - congruence.
Qed.
