(* ===== verification/JobsWorld.v ===== *)
(** Snapshots, events and admissions of the generation registry: each operation of Jobs.v keeps
    the invariants of JobsInv.v, and leaves a suspended registry behind when it fails. *)

From Stdlib Require Import ZArith Lia.
From stdpp Require Import prelude gmap sorting strings.
From S2P Require Import Prelude Wire Target LargestRemainder Backend Jobs JobsInv.
Open Scope Z_scope.

Lemma from_descriptor_Ok d g :
  from_descriptor d = Ok g ->
  bg_descriptor g = d /\ bg_id g = as_bytes (jd_job_id d) /\
  from_descriptor (bg_descriptor g) = Ok g.
Proof.
  intros H. assert (bg_descriptor g = d /\ bg_id g = as_bytes (jd_job_id d)) as [Hd Hi].
  { unfold from_descriptor in H. apply bind_Ok in H as (? & _ & H). apply bind_Ok in H as (id & Hid & H).
    apply bind_Ok in H as (tw & _ & H). apply bind_Ok in H as (tz & _ & H). injection H as <-. cbn.
    split; [done|]. unfold JobId_new in Hid. case_match; congruence. }
  by rewrite Hd.
Qed.

Lemma deadline_Ok a d t : deadline a d = Ok t <-> t = a + d /\ a + d <= U64_MAX.
Proof. unfold deadline. by rewrite ok_or_Ok, checked_add_Some. Qed.

Lemma winner_recovery_deadline_Ok t t' :
  winner_recovery_deadline t = Ok t' <-> t' = t + ZCASH_WINNER_RECOVERY_TAIL_MS /\ t + ZCASH_WINNER_RECOVERY_TAIL_MS <= U64_MAX.
Proof. unfold winner_recovery_deadline. by rewrite ok_or_Ok, checked_add_Some. Qed.

(** A freshly imported generation makes a well-formed accepting entry. *)
Lemma new_entry_ok d g a t t' :
  from_descriptor d = Ok g -> winner_recovery_deadline t = Ok t' ->
  entry_ok (bg_id g) (mkRegistryEntry (Live (mkGenerationResource a g)) t t' Accepting).
Proof.
  intros Hg Ht. apply from_descriptor_Ok in Hg as (_ & _ & Hv).
  apply winner_recovery_deadline_Ok in Ht as [-> _]. unfold ZCASH_WINNER_RECOVERY_TAIL_MS.
  split; cbn; try done. lia.
Qed.

Lemma prior_current_kept r anchor :
  EInv r -> RInv r ->
  (forall id e, id ∈ roles r -> entries r !! id = Some e -> anchor < re_accept_until_ms e) ->
  opt_filter (entry_is r (fun e => accepting e anchor)) (current r) = current r.
Proof.
  intros He Hr Ht. destruct (current r) as [c|] eqn:Ec; [|done]. cbn.
  assert (c ∈ roles r) as Hc by (unfold roles; rewrite Ec; by left).
  destruct (rv_roles _ Hr c Hc) as (e & E & Hs).
  assert (entry_is r (fun e => accepting e anchor) c = true) as ->; [|done].
  unfold entry_is. rewrite E. unfold accepting. rewrite bool_decide_true by done.
  rewrite (accepting_live c e (ei_entry _ He _ _ E) Hs). cbn. apply Z.ltb_lt. by eapply Ht.
Qed.

Lemma activate_spec d anchor w :
  heap_fresh w -> Inv (registry w) -> synchronized (registry w) = true ->
  (forall id e, id ∈ roles (registry w) -> entries (registry w) !! id = Some e -> anchor < re_accept_until_ms e) ->
  match activate d anchor w with
  | (w', Ok _) => extends w w' /\ Inv (registry w') /\ synchronized (registry w') = true
  | (w', Err _) => extends w w' /\ EInv (registry w')
  end.
Proof.
  intros Hf Hi Hsync Ht. assert (extends w w /\ EInv (registry w)) as Hsame by (split; [reflexivity|apply Hi]).
  unfold activate, get_registry, modify_registry, on_registry, new_resource. st_unfold.
  destruct (from_descriptor d) as [g|] eqn:Hg; [|exact Hsame].
  destruct w as [r h n]. cbn [registry heap next_addr] in *.
  case_bool_decide as Hex; [exact Hsame|]. rewrite <- eq_None_not_Some in Hex.
  rewrite (prior_current_kept r anchor (proj1 Hi) (proj2 Hi) Ht).
  destruct (bool_decide (is_Some (current r)) && (length (recent r) =? maximum_recent (config r))%nat) eqn:Hcap;
    [exact Hsame|].
  destruct (Nat.eqb_spec (size (entries r)) (maximum_generations (config r))) as [|Hsz]; [exact Hsame|].
  destruct (deadline anchor (maximum_age_ms g)) as [t|]; [|exact Hsame].
  cbn [registry heap next_addr]. fold (roles r).
  destruct (winner_recovery_deadline t) as [t'|] eqn:Hw; cbn [registry heap next_addr].
  2:{ split; [|by destruct Hi as [[] _]]. etrans; [apply (extends_alloc _ g Hf)|].
      apply (extends_registry (allocated g (mkWorld r h n))). by apply revolves_same. }
  set (res := mkGenerationResource n g).
  set (e := mkRegistryEntry (Live res) t t' Accepting).
  assert (entry_ok (bg_id g) e) as Hok by by apply (new_entry_ok d).
  set (r1 := with_roles (Some (bg_id g)) (roles r) (with_entries (<[bg_id g:=e]> (entries r)) r)).
  assert (Inv r1) as Hi1.
  { apply add_Inv; try done. pose proof (rv_recent _ (proj2 Hi)) as Hl. unfold roles. rewrite length_app.
    destruct (current r); cbn in *; [apply Nat.eqb_neq in Hcap; lia|lia]. }
  assert (extends (mkWorld r h n) (mkWorld r1 (<[n:=mkHeapCell g 0]> h) (n + 1))) as Hx1.
  { apply (extends_add (allocated g (mkWorld r h n)) (bg_id g) e res); try done; cbn.
    - by apply extends_alloc.
    - by rewrite lookup_insert_eq. }
  assert (Inv (remember_winner_recovery (bg_id g) r1)) as Hi2.
  { apply remember_Inv; [|done|done]. cbn. rewrite lookup_insert_eq. eauto. }
  destruct (remember_fields (bg_id g) r1) as (Hc2 & He2 & Hs2 & _).
  split; [|split; [by apply prune_Inv|by etrans]].
  etrans; [exact Hx1|]. apply (extends_registry (mkWorld r1 _ _)). apply revolves_same; [exact Hc2|exact He2].
Qed.

(** ** Events *)

Lemma bookkeeping_Inv r wc wl s a n :
  Inv r -> synchronized r = true -> Inv (with_progress (Some s) a n true (with_watermark wc wl r)).
Proof.
  intros [[] [H1 H2 H3 H4 H5 H6 H7 H8 H9]] Hs. split; [by split|]. split; try done.
  intros _. split; [by eexists|]. by apply H8.
Qed.

Lemma clock_Inv r n : Inv r ->
  Inv (with_progress (last_event_seq r) (last_delivery_anchor_ms r) n (synchronized r) r).
Proof. intros [[] []]. by split; split. Qed.

Section Operations.
Variable sha256 : list Z -> list Z.

Lemma event_body_spec event anchor w :
  heap_fresh w -> Inv (registry w) -> synchronized (registry w) = true ->
  (forall id e, id ∈ roles (registry w) -> entries (registry w) !! id = Some e -> anchor < re_accept_until_ms e) ->
  match apply_event_body event anchor w with
  | (w', Ok _) => extends w w' /\ Inv (registry w') /\ synchronized (registry w') = true
  | (w', Err _) => extends w w' /\ EInv (registry w')
  end.
Proof.
  intros Hf Hi Hsync Ht. assert (extends w w /\ EInv (registry w)) as Hsame by (split; [reflexivity|apply Hi]).
  destruct event as [s d|s jid reason accept|s jid| | | | | | |]; cbn [apply_event_body];
    try (split; [reflexivity|by split]); [by apply activate_spec|..].
  - unfold st_bind, st_lift. destruct (JobId_new (as_bytes jid)) as [id|]; [|exact Hsame].
    unfold modify_registry, on_registry, st_modify.
    set (r1 := if bool_decide (reason = ZcashTipChanged) then _ else _).
    assert (Inv r1 /\ synchronized r1 = true /\ revolves (registry w) r1) as (Hi1 & Hs1 & Hr1).
    { unfold r1. case_bool_decide; [|done]. split; [by apply keep_history_Inv|]. split; [done|by apply revolves_same]. }
    cbn [registry heap next_addr]. pose proof (invalidate_Inv id reason accept anchor r1 Hi1 Hs1) as H.
    destruct (invalidate_job id reason accept anchor r1) as [r2 [u|e]].
    + destruct H as (Hi2 & Hs2 & Hr2). split; [|done]. apply extends_registry. by etrans.
    + subst r2. split; [by apply extends_registry|apply Hi1].
  - unfold st_bind, st_lift. destruct (JobId_new (as_bytes jid)) as [id|]; [|exact Hsame].
    destruct (close_Inv id _ Hi Hsync) as (Hi1 & Hs1 & Hr1). cbn. split; [by apply extends_registry|done].
Qed.

(** What a successful event did to the journal position and the clocks. *)
Record event_applied (event : BackendEvent) (anchor policy : Z) (r r' : GenerationRegistry) : Prop := {
  ea_valid : BackendEvent_validate sha256 event = Ok tt;
  ea_sync : synchronized r = true;
  ea_next : exists p, last_event_seq r = Some p /\ event_seq event = p + 1 /\ p + 1 <= U64_MAX;
  ea_seq : last_event_seq r' = Some (event_seq event);
  ea_anchor : last_delivery_anchor_ms r' = Some anchor;
  ea_clock : last_monotonic_ms r' = Some policy;
  ea_forward : anchor <= policy /\ moved_backwards (last_monotonic_ms r) policy = false /\
               moved_backwards (last_delivery_anchor_ms r) anchor = false
}.

Lemma observed_max_forward previous t : moved_backwards previous t = false -> observed_max previous t = t.
Proof. destruct previous as [p|]; cbn; [|done]. intros H. apply Z.ltb_ge in H. lia. Qed.

Lemma try_apply_event_spec event anchor policy w :
  heap_fresh w -> Inv (registry w) ->
  match try_apply_event sha256 event anchor policy w with
  | (w', Ok _) => extends w w' /\ Inv (registry w') /\ Timely (registry w') /\
                  synchronized (registry w') = true /\
                  event_applied event anchor policy (registry w) (registry w')
  | (w', Err _) => extends w w' /\ EInv (registry w')
  end.
Proof.
  intros Hf Hi. assert (extends w w /\ EInv (registry w)) as Hsame by (split; [reflexivity|apply Hi]).
  destruct w as [r h n]. unfold try_apply_event, get_registry, on_registry, st_get. unfold st_bind at 1.
  cbn [registry heap next_addr] in *. destruct (synchronized r) eqn:Hsync; [|exact Hsame]. cbn [negb].
  unfold st_bind at 1, st_lift at 1, check_delivery_clock.
  destruct (moved_backwards (last_delivery_anchor_ms r) anchor) eqn:Hda; [exact Hsame|].
  unfold st_bind at 1, st_lift at 1, check_clock.
  destruct (moved_backwards (last_monotonic_ms r) policy) eqn:Hmc; [exact Hsame|].
  destruct (Z.ltb_spec policy anchor) as [|Hpa]; [exact Hsame|].
  rewrite observed_max_forward by done. unfold st_bind at 1, st_lift at 1.
  destruct (BackendEvent_validate sha256 event) as [[]|] eqn:Hval; [|exact Hsame]. cbn [map_err].
  unfold st_bind at 1, st_lift at 1. destruct (last_event_seq r) as [p|] eqn:Hseq; [|exact Hsame]. cbn [ok_or].
  unfold st_bind at 1, st_lift at 1. destruct (checked_add U64_MAX p 1) as [x|] eqn:Hx; [|exact Hsame]. cbn [ok_or].
  apply checked_add_Some in Hx as [-> Hmax].
  destruct (Z.eqb_spec (event_seq event) (p + 1)) as [Hev|]; [|exact Hsame]. cbn [negb].
  unfold st_bind at 1, modify_registry at 1, on_registry at 1, st_modify. cbn [registry heap next_addr].
  set (w1 := mkWorld (expire_at policy r) h n).
  assert (extends (mkWorld r h n) w1) as Hx1 by apply (extends_registry (mkWorld r h n)), expire_revolves.
  pose proof (event_body_spec event anchor w1 Hf (expire_Inv policy r Hi) Hsync) as Hbody.
  assert (forall id e, id ∈ roles (registry w1) -> entries (registry w1) !! id = Some e ->
    anchor < re_accept_until_ms e) as Htime.
  { intros id e Hin E. pose proof (expire_Timely policy r Hi id e Hin E). lia. }
  specialize (Hbody Htime). unfold st_bind. destruct (apply_event_body event anchor w1) as [w2 [u|e]].
  - destruct Hbody as (Hx2 & Hi2 & Hs2). unfold modify_registry, on_registry, st_modify.
    set (r3 := expire_at policy (registry w2)).
    assert (Inv r3) as Hi3 by by apply expire_Inv.
    split.
    { etrans; [exact Hx1|]. etrans; [exact Hx2|]. apply extends_registry.
      etrans; [apply expire_revolves|]. by apply revolves_same. }
    cbn [registry]. fold r3. assert (synchronized r3 = true) as Hs3 by exact Hs2. rewrite Hs3.
    split; [by apply bookkeeping_Inv|]. split.
    { intros t id e [= <-] Hin E. by apply (expire_Timely policy (registry w2) Hi2 id e). }
    split; [done|]. split; try done; eauto.
  - destruct Hbody as [Hx2 He2]. split; [by etrans|done].
Qed.

Lemma apply_event_at_spec event anchor policy w :
  heap_fresh w -> Inv (registry w) ->
  match apply_event_at sha256 event anchor policy w with
  | (w', Ok _) => extends w w' /\ Inv (registry w') /\ Timely (registry w') /\
                  synchronized (registry w') = true /\
                  event_applied event anchor policy (registry w) (registry w')
  | (w', Err _) => extends w w' /\ Inv (registry w') /\ Timely (registry w') /\
                   synchronized (registry w') = false
  end.
Proof.
  intros Hf Hi. unfold apply_event_at. pose proof (try_apply_event_spec event anchor policy w Hf Hi) as H.
  destruct (try_apply_event sha256 event anchor policy w) as [w' [[]|e]]; [done|].
  destruct H as [Hx He]. cbn. split; [|split; [by apply suspend_Inv|]].
  - etrans; [exact Hx|]. apply extends_registry, suspend_revolves.
  - split; [apply suspend_Timely|done].
Qed.
End Operations.

(** ** Snapshots *)

(** A job prepared against registry [r]: its old entry evolved, or a fresh one. *)
Record prepared_ok (r : GenerationRegistry) (lo : Z) (w : World) (p : JobId * RegistryEntry) : Prop := {
  po_entry : entry_ok p.1 p.2;
  po_state : re_state p.2 = Accepting;
  po_known : forall old, entries r !! p.1 = Some old -> entry_evolves old p.2;
  po_new : entries r !! p.1 = None -> exists res, re_storage p.2 = Live res /\ lo <= gr_addr res /\
             heap w !! gr_addr res = Some (mkHeapCell (gr_generation res) 0)
}.

Lemma prepared_ok_mono r lo lo' w w' p :
  lo' <= lo -> extends w w' -> prepared_ok r lo w p -> prepared_ok r lo' w' p.
Proof.
  intros Hlo Hx [H1 H2 H3 H4]. split; try done. intros E. destruct (H4 E) as (res & Hs & Ha & Hh).
  exists res. split; [done|]. split; [lia|]. by apply (ex_heap _ _ Hx).
Qed.

Lemma prepare_acceptable_spec r job anchor w :
  EInv r -> heap_fresh w -> registry w = r ->
  match prepare_acceptable r job anchor w with
  | (w', Ok p) => extends w w' /\ registry w' = r /\ prepared_ok r (next_addr w) w' p /\
                  p.1 = as_bytes (jd_job_id (aj_job job))
  | (w', Err _) => extends w w' /\ registry w' = r
  end.
Proof.
  intros He Hf Hr. assert (extends w w /\ registry w = r) as Hsame by done.
  unfold prepare_acceptable. st_unfold. destruct (from_descriptor (aj_job job)) as [g|] eqn:Hg; [|exact Hsame].
  destruct (_ || _); [exact Hsame|].
  destruct (deadline anchor (aj_accept_for_ms job)) as [t|]; [|exact Hsame].
  pose proof (from_descriptor_Ok _ _ Hg) as (_ & Hid & _).
  destruct (entries r !! bg_id g) as [old|] eqn:E.
  - case_bool_decide as Hgen; [|exact Hsame]. cbn [negb].
    destruct (is_terminal (re_state old) || negb (is_live old)) eqn:Hterm; [exact Hsame|].
    apply orb_false_iff in Hterm as [Hterm Hlive]. apply negb_false_iff in Hlive.
    destruct (Z.leb_spec (Z.min (re_accept_until_ms old) t) anchor); [exact Hsame|].
    pose proof (ei_entry _ He _ _ E) as Hok. set (e := mkRegistryEntry _ _ _ _).
    assert (entry_evolves old e) as Hev.
    { split; cbn; [done|lia|done|congruence|]. intros Hc. by rewrite Hc in Hterm. }
    split; [done|]. split; [done|]. split; [|done]. split; cbn; try done.
    + by eapply entry_ok_evolves.
    + intros old' E'. congruence.
    + congruence.
  - unfold new_resource. cbn [registry].
    assert (extends w (allocated g w)) as Hx by by apply extends_alloc.
    destruct (winner_recovery_deadline t) as [t'|] eqn:Ht; [|split; [exact Hx|done]].
    split; [exact Hx|]. split; [done|]. split; [|done]. split; cbn; try done.
    + by apply (new_entry_ok (aj_job job)).
    + congruence.
    + intros _. eexists. split; [done|]. cbn. split; [lia|]. by rewrite lookup_insert_eq.
Qed.

Lemma prepare_jobs_spec r jobs anchor seen w :
  EInv r -> heap_fresh w -> registry w = r ->
  match prepare_jobs r jobs anchor seen w with
  | (w', Ok ps) => extends w w' /\ registry w' = r /\ Forall (prepared_ok r (next_addr w) w') ps /\
                   ps.*1 = (fun j => as_bytes (jd_job_id (aj_job j))) <$> jobs /\
                   NoDup ps.*1 /\ (forall id, id ∈ ps.*1 -> id ∉ seen)
  | (w', Err _) => extends w w' /\ registry w' = r
  end.
Proof.
  intros He. revert seen w. induction jobs as [|job jobs IH]; intros seen w Hf Hr; cbn [prepare_jobs].
  { split; [done|]. split; [done|]. split; [constructor|]. split; [done|]. split; [apply NoDup_nil_2|].
    intros id Hid. by apply elem_of_nil in Hid. }
  unfold st_bind at 1. pose proof (prepare_acceptable_spec r job anchor w He Hf Hr) as Hp.
  destruct (prepare_acceptable r job anchor w) as [w1 [p|e]]; [|exact Hp].
  destruct Hp as (Hx1 & Hr1 & Hp & Hid). case_bool_decide as Hin; [done|].
  unfold st_bind. specialize (IH (p.1 :: seen) w1 (heap_fresh_extends _ _ Hf Hx1) Hr1).
  destruct (prepare_jobs r jobs anchor (p.1 :: seen) w1) as [w2 [ps|e]].
  - destruct IH as (Hx2 & Hr2 & Hps & Hids & Hnd & Hns). unfold st_ret. split; [by etrans|]. split; [done|].
    rewrite !fmap_cons, Hid, Hids. split; [|split; [done|]].
    + constructor; [by eapply prepared_ok_mono|]. eapply Forall_impl; [exact Hps|].
      intros q. apply prepared_ok_mono; [apply (ex_next _ _ Hx1)|done].
    + rewrite <- Hids, <- Hid. split; [constructor; [|done]; intros Hq; apply (Hns _ Hq); by left|].
      intros id [->|Hq]%elem_of_cons; [done|]. intros Hs. apply (Hns _ Hq). by right.
  - destruct IH as [Hx2 Hr2]. split; [by etrans|done].
Qed.

Lemma foldl_insert_lookup (ps : list (JobId * RegistryEntry)) (m : gmap JobId RegistryEntry) id :
  NoDup ps.*1 ->
  foldl (fun m p => <[p.1 := p.2]> m) m ps !! id =
  match list_find (fun p => p.1 = id) ps with Some (_, p) => Some p.2 | None => m !! id end.
Proof.
  revert m; induction ps as [|p ps IH]; intros m Hn; [done|]. cbn [foldl].
  rewrite fmap_cons in Hn. apply NoDup_cons in Hn as [Hp Hn]. rewrite IH by done. cbn.
  destruct (decide (p.1 = id)) as [<-|Hne].
  - rewrite (proj2 (list_find_None _ _)), lookup_insert_eq; [done|].
    apply Forall_forall. intros q Hq Heq. apply Hp. rewrite <- Heq. by apply list_elem_of_fmap_2.
  - destruct (list_find (fun p => p.1 = id) ps) as [[i q]|]; cbn; [done|]. by rewrite lookup_insert_ne.
Qed.

Lemma prepared_lookup (ps : list (JobId * RegistryEntry)) (m : gmap JobId RegistryEntry) id :
  NoDup ps.*1 ->
  (exists p, p ∈ ps /\ p.1 = id /\ foldl (fun m p => <[p.1 := p.2]> m) m ps !! id = Some p.2) \/
  (id ∉ ps.*1) /\ foldl (fun m p => <[p.1 := p.2]> m) m ps !! id = m !! id.
Proof.
  intros Hn. rewrite foldl_insert_lookup by done.
  destruct (list_find (fun p => p.1 = id) ps) as [[i p]|] eqn:E.
  - apply list_find_Some in E as (Hi & <- & _). left. exists p. split; [by eapply list_elem_of_lookup_2|done].
  - apply list_find_None in E. right. split; [|done]. intros (p & -> & Hp)%list_elem_of_fmap.
    rewrite Forall_forall in E. by apply (E p).
Qed.

Lemma retire_unseen_evolves seen id e : entry_evolves e (retire_unseen seen id e).
Proof.
  unfold retire_unseen. case_bool_decide; [reflexivity|]. destruct (re_state e) eqn:Hs; split; cbn; rewrite ?Hs; done.
Qed.

Lemma retire_unseen_state seen id e : (id ∉ seen) ->
  re_state (retire_unseen seen id e) <> Accepting /\ re_state (retire_unseen seen id e) <> Suspended.
Proof. intros Hn. unfold retire_unseen. rewrite bool_decide_false by done. by destruct (re_state e). Qed.

(** The entries of a snapshot: the prepared jobs, and the rest of the registry retired. *)
Definition snapshot_entries (r : GenerationRegistry) (ps : list (JobId * RegistryEntry)) :
    gmap JobId RegistryEntry :=
  map_imap (fun id e => Some (retire_unseen ps.*1 id e)) (foldl (fun m p => <[p.1 := p.2]> m) (entries r) ps).

Lemma snapshot_entries_lookup r ps id :
  NoDup ps.*1 ->
  (exists p, p ∈ ps /\ p.1 = id /\ snapshot_entries r ps !! id = Some p.2) \/
  (id ∉ ps.*1) /\ snapshot_entries r ps !! id = retire_unseen ps.*1 id <$> entries r !! id.
Proof.
  intros Hn. unfold snapshot_entries. rewrite map_lookup_imap.
  destruct (prepared_lookup ps (entries r) id Hn) as [(p & Hp & Hid & ->)|[Hid ->]].
  - left. exists p. split; [done|]. split; [done|]. cbn. unfold retire_unseen.
    rewrite bool_decide_true by (subst id; by apply list_elem_of_fmap_2). done.
  - right. split; [done|]. by destruct (entries r !! id).
Qed.

Section Snapshot.
Context (r : GenerationRegistry) (w0 w : World) (ps : list (JobId * RegistryEntry)).
Hypothesis inv : Inv r.
Hypothesis fresh : heap_fresh w0.
Hypothesis reg0 : registry w0 = r.
Hypothesis reg : registry w = r.
Hypothesis ext : extends w0 w.
Hypothesis nodup : NoDup ps.*1.
Hypothesis prepared : Forall (prepared_ok r (next_addr w0) w) ps.

Lemma snapshot_prepared p : p ∈ ps -> prepared_ok r (next_addr w0) w p.
Proof. intros Hp. by apply (proj1 (Forall_forall _ _) prepared). Qed.

Lemma snapshot_extends r' :
  config r' = config r -> entries r' = snapshot_entries r ps ->
  extends w0 (mkWorld r' (heap w) (next_addr w)).
Proof.
  intros Hc He. destruct ext as [xc xn xh xd xe xf]. split; cbn; try done; [congruence| |].
  - intros id e E. rewrite He. rewrite reg0 in E.
    destruct (snapshot_entries_lookup r ps id nodup) as [(p & Hp & Hid & ->)|[Hid ->]].
    + eexists. split; [done|]. subst id. by apply (po_known _ _ _ _ (snapshot_prepared p Hp)).
    + rewrite E. cbn. eexists. split; [done|apply retire_unseen_evolves].
  - intros id e' E' E. rewrite He in E'. rewrite reg0 in E.
    destruct (snapshot_entries_lookup r ps id nodup) as [(p & Hp & Hid & Hl)|[Hid Hl]]; rewrite Hl in E'.
    + injection E' as <-. subst id. by apply (po_new _ _ _ _ (snapshot_prepared p Hp)).
    + by rewrite E in E'.
Qed.

Lemma snapshot_Inv c l seq anchor now wc wl :
  (size (snapshot_entries r ps) <= maximum_generations (config r))%nat ->
  option_list c ++ l = ps.*1 -> (length l <= maximum_recent (config r))%nat ->
  Inv (with_progress (Some seq) anchor now true (with_watermark wc wl
         (with_entries (snapshot_entries r ps) (with_roles c l r)))).
Proof.
  intros Hsz Hroles Hl. destruct inv as [He [H1 H2 H3 H4 H5 H6 H7 H8 H9]].
  assert (forall id e, snapshot_entries r ps !! id = Some e ->
    (exists p, p ∈ ps /\ p.1 = id /\ p.2 = e) \/
    (id ∉ ps.*1) /\ exists old, entries r !! id = Some old /\ e = retire_unseen ps.*1 id old) as Hcase.
  { intros id e E. destruct (snapshot_entries_lookup r ps id nodup) as [(p & Hp & Hid & Hlk)|[Hid Hlk]];
      rewrite Hlk in E; [left; exists p; naive_solver|right].
    split; [done|]. destruct (entries r !! id) as [old|]; [|done]. cbn in E. injection E as <-. eauto. }
  split; [split; [exact Hsz|]|split; cbn; try done].
  - cbn. intros id e E. destruct (Hcase id e E) as [(p & Hp & <- & <-)|(_ & old & Eo & ->)].
    + by apply (po_entry _ _ _ _ (snapshot_prepared p Hp)).
    + eapply entry_ok_evolves; [apply retire_unseen_evolves|]. by apply (ei_entry _ He).
  - unfold roles. cbn. by rewrite Hroles.
  - unfold roles. cbn. rewrite Hroles. intros id Hid.
    destruct (snapshot_entries_lookup r ps id nodup) as [(p & Hp & Hpid & ->)|[Hn _]]; [|done].
    eexists. split; [done|]. apply (po_state _ _ _ _ (snapshot_prepared p Hp)).
  - unfold roles. cbn. rewrite Hroles. intros id e E Hs.
    destruct (Hcase id e E) as [(p & Hp & <- & _)|(Hn & old & _ & ->)]; [by apply list_elem_of_fmap_2|].
    by apply retire_unseen_state in Hs.
  - intros id Hid. destruct (H7 id Hid) as [old Eo].
    destruct (snapshot_entries_lookup r ps id nodup) as [(p & _ & _ & ->)|[_ ->]]; [eauto|rewrite Eo; eauto].
  - intros _. split; [eauto|]. intros id e E.
    destruct (Hcase id e E) as [(p & Hp & _ & <-)|(Hn & old & _ & ->)]; [|by apply retire_unseen_state].
    rewrite (po_state _ _ _ _ (snapshot_prepared p Hp)). done.
Qed.
End Snapshot.

Definition snapshot_ids (current_job : option AcceptableJob) (recent_jobs : list AcceptableJob) : list JobId :=
  (fun j => as_bytes (jd_job_id (aj_job j))) <$> (option_list current_job ++ recent_jobs).

Lemma option_list_head {A} (l : list A) : (length l <= 1)%nat -> option_list (head l) = l.
Proof. destruct l as [|a [|b l]]; cbn; [done|done|lia]. Qed.

Lemma prepare_snapshot_spec r seq cur rec anchor w :
  EInv r -> heap_fresh w -> registry w = r ->
  match prepare_snapshot r seq cur rec anchor w with
  | (w', Ok prepared) =>
      extends w w' /\ registry w' = r /\
      (forall p, last_event_seq r = Some p -> p <= seq) /\
      moved_backwards (last_delivery_anchor_ms r) anchor = false /\
      exists ps, ps_entries prepared = snapshot_entries r ps /\ NoDup ps.*1 /\
        Forall (prepared_ok r (next_addr w) w') ps /\ ps.*1 = snapshot_ids cur rec /\
        option_list (ps_current prepared) ++ ps_recent prepared = ps.*1 /\
        (length (ps_recent prepared) <= maximum_recent (config r))%nat /\
        (size (snapshot_entries r ps) <= maximum_generations (config r))%nat
  | (w', Err _) => extends w w' /\ registry w' = r
  end.
Proof.
  intros He Hf Hr. assert (extends w w /\ registry w = r) as Hsame by done. unfold prepare_snapshot.
  unfold st_bind at 1, st_lift, check_delivery_clock.
  destruct (moved_backwards (last_delivery_anchor_ms r) anchor) eqn:Hda; [exact Hsame|].
  assert ((forall p, last_event_seq r = Some p -> p <= seq) \/ exists p, last_event_seq r = Some p /\ seq < p) as Hseq.
  { destruct (last_event_seq r) as [p|]; [|left; done]. destruct (Z.le_gt_cases p seq); [left; naive_solver|eauto]. }
  unfold st_bind at 1. destruct Hseq as [Hseq|(p & Hp & Hlt)].
  2:{ rewrite Hp. apply Z.ltb_lt in Hlt as ->. exact Hsame. }
  replace (match last_event_seq r with Some _ => _ | None => _ end w) with (w, @Ok unit JobRegistryError tt).
  2:{ destruct (last_event_seq r) as [p|]; [|done]. destruct (Z.ltb_spec seq p); [|done].
      specialize (Hseq p eq_refl). lia. }
  destruct (Nat.ltb_spec (maximum_recent (config r)) (length rec)) as [|Hlen]; [exact Hsame|].
  unfold st_bind at 1. pose proof (prepare_jobs_spec r (option_list cur) anchor [] w He Hf Hr) as H1.
  destruct (prepare_jobs r (option_list cur) anchor [] w) as [w1 [ps1|e]]; [|exact H1].
  destruct H1 as (Hx1 & Hr1 & Hok1 & Hid1 & Hn1 & _). unfold st_bind at 1.
  pose proof (prepare_jobs_spec r rec anchor ps1.*1 w1 He (heap_fresh_extends _ _ Hf Hx1) Hr1) as H2.
  destruct (prepare_jobs r rec anchor ps1.*1 w1) as [w2 [ps2|e]].
  2:{ destruct H2 as [Hx2 Hr2]. split; [by etrans|done]. }
  destruct H2 as (Hx2 & Hr2 & Hok2 & Hid2 & Hn2 & Hd2).
  assert (extends w w2) as Hx by by etrans.
  destruct (bool_decide (last_event_seq r = Some seq) && _); [done|].
  fold (snapshot_entries r (ps1 ++ ps2)).
  destruct (Nat.ltb_spec (maximum_generations (config r)) (size (snapshot_entries r (ps1 ++ ps2)))) as [|Hsz]; [done|].
  split; [done|]. split; [done|]. split; [done|]. split; [done|]. exists (ps1 ++ ps2).
  split; [done|]. cbn [ps_current ps_recent]. rewrite fmap_app. split; [|split; [|split; [|split; [|split]]]].
  - apply NoDup_app. split; [done|]. split; [|done]. intros id H1 H2. by apply (Hd2 id).
  - apply Forall_app. split; [|eapply Forall_impl; [exact Hok2|]; intros q; apply prepared_ok_mono; [apply (ex_next _ _ Hx1)|done]].
    eapply Forall_impl; [exact Hok1|]. intros q. by apply prepared_ok_mono.
  - unfold snapshot_ids. by rewrite fmap_app, Hid1, Hid2.
  - f_equal. apply option_list_head. rewrite Hid1, length_fmap. destruct cur; cbn; lia.
  - by rewrite Hid2, length_fmap.
  - done.
Qed.

Lemma remember_all_Inv ids r :
  (forall id, id ∈ ids -> is_Some (entries r !! id)) -> synchronized r = true -> Inv r ->
  let r' := foldl (fun r id => remember_winner_recovery id r) r ids in
  Inv r' /\ config r' = config r /\ entries r' = entries r /\ synchronized r' = true /\
  current r' = current r /\ recent r' = recent r /\ last_monotonic_ms r' = last_monotonic_ms r /\
  last_event_seq r' = last_event_seq r.
Proof.
  revert r; induction ids as [|id ids IH]; intros r Hids Hs Hi; [done|]. cbn [foldl].
  destruct (remember_fields id r) as (Hc & He & Hsy & Hcu & Hre & Hmo & Hse).
  assert (Inv (remember_winner_recovery id r)) as Hi' by (apply remember_Inv; [apply Hids; by left|done|done]).
  destruct (IH (remember_winner_recovery id r)) as (A & B1 & B2 & B3 & B4 & B5 & B6 & B7); [|congruence|done|].
  - intros x Hx. rewrite He. apply Hids. by right.
  - split_and!; congruence || done.
Qed.

(** What a successful snapshot did. *)
Record snapshot_applied (seq : Z) (ids : list JobId) (started : Z) (r r' : GenerationRegistry) : Prop := {
  sa_monotone : forall p, last_event_seq r = Some p -> p <= seq;
  sa_seq : last_event_seq r' = Some seq;
  sa_clock : last_monotonic_ms r' = Some (observed_max (last_monotonic_ms r) started);
  sa_listed : forall id, id ∈ roles r' -> id ∈ ids;
  sa_omitted : forall id e, entries r' !! id = Some e -> id ∉ ids -> is_terminal (re_state e) = true
}.

Lemma apply_snapshot_spec seq cur rec started w :
  heap_fresh w -> Inv (registry w) ->
  match apply_snapshot seq cur rec started w with
  | (w', Ok _) => extends w w' /\ Inv (registry w') /\ Timely (registry w') /\
                  synchronized (registry w') = true /\
                  snapshot_applied seq (snapshot_ids cur rec) started (registry w) (registry w')
  | (w', Err _) => extends w w' /\ Inv (registry w') /\ Timely (registry w') /\
                   synchronized (registry w') = false
  end.
Proof.
  intros Hf Hi. unfold apply_snapshot.
  pose proof (prepare_snapshot_spec (registry w) seq cur rec started w (proj1 Hi) Hf eq_refl) as Hp.
  destruct (prepare_snapshot (registry w) seq cur rec started w) as [w1 [prepared|e]].
  2:{ destruct Hp as [Hx Hr]. cbn. rewrite Hr. split; [|split; [apply suspend_Inv, Hi|split; [apply suspend_Timely|done]]].
      etrans; [exact Hx|]. apply extends_registry. rewrite Hr. apply suspend_revolves. }
  destruct Hp as (Hx & Hr & Hmono & _ & ps & Hents & Hnd & Hok & Hids & Hroles & Hlen & Hsz).
  unfold modify_registry, on_registry, st_modify. rewrite Hr, Hents.
  set (now := observed_max _ _). set (r := registry w) in *. cbv zeta.
  set (r1 := with_progress _ _ _ _ _).
  assert (Inv r1) as Hi1 by (eapply (snapshot_Inv r w w1 ps); done).
  assert (Inv (expire_at now r1)) as Hi2 by by apply expire_Inv.
  assert (synchronized (expire_at now r1) = true) as Hs2 by done.
  destruct (remember_all_Inv (option_list (current (expire_at now r1)) ++ recent (expire_at now r1))
    (expire_at now r1)) as (Hi3 & Hc3 & He3 & Hs3 & Hcu3 & Hre3 & Hmo3 & Hse3); [|done|done|].
  { intros id Hid. destruct (rv_roles _ (proj2 Hi2) id Hid) as (e & E & _). eauto. }
  set (r3 := foldl _ _ _) in *. cbn [registry].
  assert (roles (prune_winner_recovery now r3) = roles (expire_at now r1)) as Hro
    by (unfold roles; cbn [prune_winner_recovery with_winner_recovery current recent]; by rewrite Hcu3, Hre3).
  split; [|split; [by apply prune_Inv|split; [|split; [done|]]]].
  - etrans; [by eapply (snapshot_extends r w w1 ps) with (r' := r1)|].
    apply (extends_registry (mkWorld r1 _ _)). etrans; [apply (expire_revolves now)|].
    apply revolves_same; [exact Hc3|exact He3].
  - intros t id e Ht Hin E. rewrite Hro in Hin. cbn in Ht, E. rewrite Hmo3 in Ht. rewrite He3 in E.
    assert (t = now) as -> by (cbn in Ht; congruence). exact (expire_Timely now r1 Hi1 id e Hin E).
  - split; [done|exact Hse3|exact Hmo3| |].
    + rewrite Hro. intros id [_ Hin]%elem_of_expire_roles. rewrite <- Hids, <- Hroles. exact Hin.
    + intros id e E Hid. cbn in E. rewrite He3 in E.
      destruct (entries_evolve_lookup _ _ _ _ (rev_entries _ _ (expire_revolves now r1)) E) as (e1 & E1 & Hev).
      apply (ev_terminal _ _ Hev). cbn in E1. rewrite <- Hids in Hid.
      destruct (snapshot_entries_lookup r ps id Hnd) as [(p & Hp & <- & _)|[_ Hl]].
      { exfalso. apply Hid. by apply list_elem_of_fmap_2. }
      rewrite Hl in E1. destruct (entries r !! id) as [old|]; [|done]. injection E1 as <-.
      pose proof (retire_unseen_state ps.*1 id old Hid). by destruct (re_state (retire_unseen ps.*1 id old)); naive_solver.
Qed.
