(* ===== verification/JobsLife.v ===== *)
(** The generation registry as a transition system: registry operations, admissions and the
    dropping of guards in any order.  The invariants of JobsInv.v and the agreement of the
    in-flight counters with the live guards hold in every reachable state. *)

From Stdlib Require Import ZArith Lia.
From stdpp Require Import prelude gmap sorting strings.
From S2P Require Import Prelude Wire Target LargestRemainder Backend Jobs JobsInv JobsWorld.
Open Scope Z_scope.

(** ** Clock, queries and admission *)

(** The registry after a successful [advance_clock]. *)
Definition ticked (now : Z) (r : GenerationRegistry) : GenerationRegistry :=
  let r' := expire_at now r in
  with_progress (last_event_seq r') (last_delivery_anchor_ms r') (Some now) (synchronized r') r'.

Lemma advance_clock_eval now r :
  advance_clock now r =
  if moved_backwards (last_monotonic_ms r) now then (suspend r, Err ClockMovedBackwards) else (ticked now r, Ok tt).
Proof. unfold advance_clock, check_clock. st_unfold. by destruct (moved_backwards (last_monotonic_ms r) now). Qed.

Lemma ticked_spec now r : Inv r -> Inv (ticked now r) /\ Timely (ticked now r) /\ revolves r (ticked now r).
Proof.
  intros Hi. split; [by apply clock_Inv, expire_Inv|]. split.
  - intros t id e [= <-] Hin E. by apply (expire_Timely now r Hi id e).
  - etrans; [apply (expire_revolves now)|]. by apply revolves_same.
Qed.

(** Good registries: both invariants. *)
Definition Good (r : GenerationRegistry) : Prop := Inv r /\ Timely r.

Lemma suspend_Good r : EInv r -> Good (suspend r).
Proof. intros He. split; [by apply suspend_Inv|apply suspend_Timely]. Qed.

Lemma ticked_Good now r : Inv r -> Good (ticked now r).
Proof. intros Hi. destruct (ticked_spec now r Hi) as (? & ? & _). by split. Qed.

Lemma prune_Good now r : Good r -> Good (prune_winner_recovery now r).
Proof. intros [Hi Ht]. split; [by apply prune_Inv|exact Ht]. Qed.

(** An operation on the registry only: the result is good and evolves from the start. *)
Definition registry_op {A} (m : M GenerationRegistry JobRegistryError A) : Prop :=
  forall r, Good r -> Good (fst (m r)) /\ revolves r (fst (m r)).

Lemma registry_op_clock {A} now (k : M GenerationRegistry JobRegistryError A) :
  registry_op k -> registry_op (do* advance_clock now in k).
Proof.
  intros Hk r [Hi Ht]. unfold st_bind. rewrite advance_clock_eval.
  destruct (moved_backwards (last_monotonic_ms r) now); cbn.
  - split; [apply suspend_Good, Hi|apply suspend_revolves].
  - destruct (Hk _ (ticked_Good now r Hi)) as [Hg Hr]. split; [done|].
    etrans; [|exact Hr]. by apply ticked_spec.
Qed.

Lemma registry_op_admissible now : registry_op (admissible_job_ids now).
Proof.
  apply registry_op_clock. intros r Hg. st_unfold. destruct (synchronized r); cbn; split; (done || reflexivity).
Qed.

Lemma registry_op_current now : registry_op (current_generation now).
Proof. apply registry_op_clock. intros r Hg. st_unfold. destruct (current r); cbn; split; (done || reflexivity). Qed.

Lemma registry_op_recovery now : registry_op (winner_recovery_job_ids now).
Proof.
  apply registry_op_clock. intros r Hg. st_unfold. destruct (synchronized r); cbn; [|split; [done|reflexivity]].
  split; [by apply prune_Good|by apply revolves_same].
Qed.

(** What [begin_admission] does, case by case. *)
Lemma begin_admission_cases id now w :
  match begin_admission id now w with
  | (w', Ok g) =>
      let r1 := ticked now (registry w) in
      moved_backwards (last_monotonic_ms (registry w)) now = false /\ synchronized (registry w) = true /\
      exists e res, entries r1 !! id = Some e /\ accepting e now = true /\ re_storage e = Live res /\
        g = mkGenerationAdmission res Ordinary /\ count_at w (gr_addr res) + 1 <= U64_MAX /\
        w' = set_count (gr_addr res) (count_at w (gr_addr res) + 1) (mkWorld r1 (heap w) (next_addr w))
  | (w', Err error) =>
      w' = mkWorld (if moved_backwards (last_monotonic_ms (registry w)) now then suspend (registry w)
                    else ticked now (registry w)) (heap w) (next_addr w) /\
      (error = AdmissionCounterExhausted id -> exists e res,
         entries (registry w') !! id = Some e /\ re_storage e = Live res /\ U64_MAX < count_at w (gr_addr res) + 1)
  end.
Proof.
  unfold begin_admission, get_registry, on_registry. unfold st_bind at 1. rewrite advance_clock_eval.
  destruct (moved_backwards (last_monotonic_ms (registry w)) now) eqn:Hm; [done|]. st_unfold. cbn [registry heap next_addr].
  change (synchronized (ticked now (registry w))) with (synchronized (registry w)).
  destruct (synchronized (registry w)) eqn:Hs; cbn [negb]; [|done].
  destruct (entries (ticked now (registry w)) !! id) as [e|] eqn:E; [|done].
  destruct (accepting e now) eqn:Ha; cbn [negb]; [|done].
  destruct (re_storage e) as [res|g] eqn:Hst; cbn [live_resource]; [|done].
  change (count_at (mkWorld (ticked now (registry w)) (heap w) (next_addr w)) (gr_addr res))
    with (count_at w (gr_addr res)).
  destruct (checked_add U64_MAX (count_at w (gr_addr res)) 1) as [n|] eqn:Hn.
  - apply checked_add_Some in Hn as [-> Hn]. eauto 10.
  - apply checked_add_None in Hn. split; [done|]. intros _. cbn [registry]. eauto.
Qed.

(** ** Guards and counters *)

Definition guard_addr (g : GenerationAdmission) : Z := gr_addr (ga_resource g).

Definition guards_at (a : Z) (gs : list GenerationAdmission) : Z :=
  Z.of_nat (length (filter (fun g => guard_addr g = a) gs)).

Lemma guards_at_cons a g gs :
  guards_at a (g :: gs) = (if decide (guard_addr g = a) then 1 else 0) + guards_at a gs.
Proof. unfold guards_at. rewrite filter_cons. case_decide; cbn [length]; lia. Qed.

Lemma guards_at_perm a gs gs' : gs ≡ₚ gs' -> guards_at a gs = guards_at a gs'.
Proof. intros H. unfold guards_at. by rewrite H. Qed.

Lemma guards_at_elem g gs : g ∈ gs -> 0 < guards_at (guard_addr g) gs.
Proof.
  intros Hg. unfold guards_at.
  assert (g ∈ filter (fun g' => guard_addr g' = guard_addr g) gs) as Hf by by apply list_elem_of_filter.
  destruct (filter _ gs); [by apply elem_of_nil in Hf|]. cbn. lia.
Qed.

Record HeapInv (gs : list GenerationAdmission) (w : World) : Prop := {
  hi_fresh : heap_fresh w;
  hi_entry : forall id e res, entries (registry w) !! id = Some e -> re_storage e = Live res ->
    exists n, heap w !! gr_addr res = Some (mkHeapCell (gr_generation res) n);
  hi_guard : forall g, g ∈ gs -> exists n, heap w !! guard_addr g = Some (mkHeapCell (ga_generation g) n);
  hi_ordinary : forall g, g ∈ gs -> ga_role g = Ordinary ->
    exists e, entries (registry w) !! ga_job_id g = Some e /\ re_storage e = Live (ga_resource g);
  hi_recovery : forall g, g ∈ gs -> ga_role g <> Ordinary ->
    forall id e res, entries (registry w) !! id = Some e -> re_storage e = Live res -> gr_addr res <> guard_addr g;
  hi_count : forall a c, heap w !! a = Some c -> hc_in_flight c = guards_at a gs;
  hi_max : forall a c, heap w !! a = Some c -> hc_in_flight c <= U64_MAX
}.

Lemma HeapInv_count gs w : HeapInv gs w -> forall a, count_at w a = guards_at a gs.
Proof.
  intros Hh a. unfold count_at. destruct (heap w !! a) as [c|] eqn:E; [by apply (hi_count _ _ Hh)|].
  unfold guards_at. rewrite filter_none; [done|]. intros g Hg <-.
  destruct (hi_guard _ _ Hh g Hg) as [n Hn]. congruence.
Qed.

(** Operations that create no guard. *)
Lemma HeapInv_extends gs w w' : HeapInv gs w -> extends w w' -> HeapInv gs w'.
Proof.
  intros Hh Hx. pose proof (HeapInv_count _ _ Hh) as Hcount.
  destruct Hh as [H1 H2 H3 H4 H5 H6 H7]. destruct Hx as [xc xn xh xd xe xf].
  assert (forall id e' res, entries (registry w') !! id = Some e' -> re_storage e' = Live res ->
    (exists e, entries (registry w) !! id = Some e /\ re_storage e = Live res) \/
    next_addr w <= gr_addr res /\ heap w' !! gr_addr res = Some (mkHeapCell (gr_generation res) 0)) as Hcase.
  { intros id e' res E' Hs. destruct (entries (registry w) !! id) as [e|] eqn:E.
    - destruct (xe _ _ E) as (e2 & E2 & V). rewrite E' in E2. injection E2 as <-.
      left. exists e. split; [done|]. by rewrite <- (ev_storage _ _ V).
    - right. destruct (xf _ _ E' E) as (res' & Hs' & Ha & Hh). rewrite Hs in Hs'. by injection Hs' as <-. }
  split.
  - intros a c Ha. destruct (xd _ _ Ha) as [H|[H _]]; [|lia]. apply H1 in H. lia.
  - intros id e' res E' Hs. destruct (Hcase id e' res E' Hs) as [(e & E & Hse)|[_ Hh]]; [|eauto].
    destruct (H2 _ _ _ E Hse) as [n Hn]. eauto.
  - intros g Hg. destruct (H3 g Hg) as [n Hn]. eauto.
  - intros g Hg Ho. destruct (H4 g Hg Ho) as (e & E & Hs). destruct (xe _ _ E) as (e' & E' & V).
    exists e'. split; [done|]. by rewrite (ev_storage _ _ V).
  - intros g Hg Ho id e' res E' Hs. destruct (Hcase id e' res E' Hs) as [(e & E & Hse)|[Ha _]]; [eauto|].
    destruct (H3 g Hg) as [n Hn]. apply H1 in Hn. lia.
  - intros a c Ha. destruct (xd _ _ Ha) as [H|[H H0]]; [eauto|].
    rewrite H0. symmetry. rewrite <- Hcount. unfold count_at. destruct (heap w !! a) as [c0|] eqn:E; [|done].
    apply H1 in E. lia.
  - intros a c Ha. destruct (xd _ _ Ha) as [H|[H H0]]; [eauto|]. rewrite H0. widths. lia.
Qed.

(** Setting a counter to the number of guards there. *)
Lemma HeapInv_set_count gs gs' w a n :
  HeapInv gs w -> n = guards_at a gs' -> n <= U64_MAX ->
  (forall b, b <> a -> guards_at b gs' = guards_at b gs) ->
  (forall g, g ∈ gs' -> g ∈ gs \/ ga_role g = Ordinary /\
     exists e, entries (registry w) !! ga_job_id g = Some e /\ re_storage e = Live (ga_resource g)) ->
  HeapInv gs' (set_count a n w).
Proof.
  intros [H1 H2 H3 H4 H5 H6 H7] Hn Hmax Hother Hnew.
  assert (forall b c, heap (set_count a n w) !! b = Some c -> exists c0, heap w !! b = Some c0 /\
    hc_generation c = hc_generation c0 /\ hc_in_flight c = if decide (b = a) then n else hc_in_flight c0) as Hinv.
  { intros b c. cbn. destruct (decide (b = a)) as [->|Hne].
    - rewrite lookup_alter_eq. destruct (heap w !! a); cbn; [|done]. intros [= <-]. eauto.
    - rewrite lookup_alter_ne by done. eauto. }
  assert (forall b g0 m, heap w !! b = Some (mkHeapCell g0 m) ->
    exists m', heap (set_count a n w) !! b = Some (mkHeapCell g0 m')) as Hkeep.
  { intros b g0 m Hb. cbn. destruct (decide (b = a)) as [->|Hne].
    - rewrite lookup_alter_eq, Hb. cbn. eauto.
    - rewrite lookup_alter_ne by done. eauto. }
  split.
  - intros b c Hb. destruct (Hinv b c Hb) as (c0 & Hb0 & _). by apply (H1 b c0).
  - intros id e res E Hs. destruct (H2 id e res E Hs) as [m Hm]. by eapply Hkeep.
  - intros g Hg. destruct (Hnew g Hg) as [Hg'|(_ & e & E & Hs)].
    + destruct (H3 g Hg') as [m Hm]. by eapply Hkeep.
    + destruct (H2 _ _ _ E Hs) as [m Hm]. by eapply Hkeep.
  - intros g Hg Ho. destruct (Hnew g Hg) as [Hg'|(_ & He)]; [by apply H4|done].
  - intros g Hg Ho. destruct (Hnew g Hg) as [Hg'|(Ho' & _)]; [by apply H5|done].
  - intros b c Hb. destruct (Hinv b c Hb) as (c0 & Hb0 & _ & ->). case_decide as Hd; [by subst|].
    rewrite Hother by done. by apply H6.
  - intros b c Hb. destruct (Hinv b c Hb) as (c0 & Hb0 & _ & ->). case_decide; [done|eauto].
Qed.

(** ** Compaction *)

Definition collected (w : World) : GenerationRegistry :=
  with_entries (map_imap (fun id e => Some (if retirable w id e then compact e else e)) (entries (registry w)))
    (registry w).

Lemma collect_retired_eval now w :
  collect_retired now w =
  if moved_backwards (last_monotonic_ms (registry w)) now
  then (mkWorld (suspend (registry w)) (heap w) (next_addr w), Err ClockMovedBackwards)
  else let w1 := mkWorld (ticked now (registry w)) (heap w) (next_addr w) in
       (mkWorld (collected w1) (heap w) (next_addr w),
        Ok (sort_by bytes_compare
              (fst <$> filter (fun p => retirable w1 p.1 p.2 = true) (map_to_list (entries (registry w1)))))).
Proof.
  unfold collect_retired, modify_registry, on_registry. unfold st_bind at 1. rewrite advance_clock_eval.
  by destruct (moved_backwards (last_monotonic_ms (registry w)) now).
Qed.

Lemma collected_lookup w id :
  entries (collected w) !! id = (fun e => if retirable w id e then compact e else e) <$> entries (registry w) !! id.
Proof. cbn. rewrite map_lookup_imap. by destruct (entries (registry w) !! id). Qed.

Lemma compact_state w id e : re_state (if retirable w id e then compact e else e) = re_state e.
Proof. by destruct (retirable w id e). Qed.

Lemma retirable_spec w id e :
  retirable w id e = true <->
  (id ∉ roles (registry w)) /\ is_terminal (re_state e) = true /\
  exists res, re_storage e = Live res /\ count_at w (gr_addr res) = 0.
Proof.
  unfold retirable, roles, storage_in_flight, is_live.
  rewrite !andb_true_iff, negb_true_iff, orb_false_iff, !bool_decide_eq_false, Z.eqb_eq, elem_of_app.
  assert (current (registry w) <> Some id <-> id ∉ option_list (current (registry w))) as ->.
  { destruct (current (registry w)) as [c|]; cbn; rewrite ?list_elem_of_singleton, ?elem_of_nil; naive_solver. }
  destruct (re_storage e) as [res|]; cbn; [|naive_solver].
  destruct (re_state e); cbn; rewrite ?orb_true_iff, ?bool_decide_eq_true; naive_solver.
Qed.

Lemma collected_Good w : Good (registry w) -> Good (collected w).
Proof.
  intros [[[Hs Ho] [H1 H2 H3 H4 H5 H6 H7 H8 H9]] Ht].
  assert (forall id e', entries (collected w) !! id = Some e' -> exists e, entries (registry w) !! id = Some e /\
    e' = if retirable w id e then compact e else e) as Hinv.
  { intros id e' E. rewrite collected_lookup in E. destruct (entries (registry w) !! id) as [e|]; [|done].
    cbn in E. injection E as <-. eauto. }
  assert (forall id e, entries (registry w) !! id = Some e ->
    entries (collected w) !! id = Some (if retirable w id e then compact e else e)) as Hfwd
    by (intros id e E; by rewrite collected_lookup, E).
  split; [split; [split|split]|]; try done.
  - etrans; [|exact Hs]. apply Nat.eq_le_incl. rewrite <- !size_dom. f_equal. apply set_eq. intros id.
    rewrite !elem_of_dom, collected_lookup, fmap_is_Some. done.
  - intros id e' E'. destruct (Hinv id e' E') as (e & E & ->). pose proof (Ho id e E) as Hok.
    destruct (retirable w id e) eqn:Hr; [|done]. apply retirable_spec in Hr as (_ & Hterm & _).
    destruct Hok as [K1 K2 K3 K4]. split; cbn; done.
  - intros id Hid. destruct (H3 id Hid) as (e & E & Hst). eexists. split; [by apply Hfwd|]. by rewrite compact_state.
  - intros id e' E' Hst. destruct (Hinv id e' E') as (e & E & ->). rewrite compact_state in Hst. by apply (H4 id e).
  - intros id Hid. destruct (H7 id Hid) as [e E]. rewrite (Hfwd _ _ E). eauto.
  - intros Hsync. destruct (H8 Hsync) as [Hq Hn]. split; [done|]. intros id e' E'.
    destruct (Hinv id e' E') as (e & E & ->). rewrite compact_state. by apply (Hn id).
  - intros t id e' Hm Hin E'. destruct (Hinv id e' E') as (e & E & ->). pose proof (Ht t id e Hm Hin E).
    by destruct (retirable w id e).
Qed.

Lemma collected_HeapInv gs w : HeapInv gs w -> HeapInv gs (mkWorld (collected w) (heap w) (next_addr w)).
Proof.
  intros Hh. pose proof (HeapInv_count _ _ Hh) as Hcount. destruct Hh as [H1 H2 H3 H4 H5 H6 H7].
  assert (forall id e' res, entries (collected w) !! id = Some e' -> re_storage e' = Live res ->
    exists e, entries (registry w) !! id = Some e /\ re_storage e = Live res) as Hlive.
  { intros id e' res E' Hs. rewrite collected_lookup in E'. destruct (entries (registry w) !! id) as [e|]; [|done].
    cbn in E'. injection E' as <-. destruct (retirable w id e); [done|eauto]. }
  split; cbn [registry heap next_addr]; try done.
  - intros id e' res E' Hs. destruct (Hlive id e' res E' Hs) as (e & E & Hse). by eapply H2.
  - intros g Hg Ho. destruct (H4 g Hg Ho) as (e & E & Hs). exists e. split; [|done].
    rewrite collected_lookup, E. cbn. f_equal. destruct (retirable w (ga_job_id g) e) eqn:Hr; [|done].
    apply retirable_spec in Hr as (_ & _ & res & Hs' & Hz). rewrite Hs in Hs'. injection Hs' as <-.
    pose proof (guards_at_elem g gs Hg). rewrite Hcount in Hz. unfold guard_addr in *. lia.
  - intros g Hg Ho id e' res E' Hs. destruct (Hlive id e' res E' Hs) as (e & E & Hse). by eapply H5.
Qed.

Section Life.
Variable sha256 : list Z -> list Z.

(** A potential Zcash winner: the parent hash is at most the network target, both read
    least-significant byte first. *)
Definition zcash_winner (g : BackendGeneration) (nonce : Hex32) (solution : Hex1344) : bool :=
  match bytes_compare
          (reverse (as_bytes (canonical_parent_header_hash_le sha256 (jd_header_input (bg_descriptor g)) nonce solution)))
          (reverse (tle_bytes (jd_zcash_target_le (bg_descriptor g)))) with
  | Gt => false
  | _ => true
  end.

Lemma begin_zcash_cases id nonce solution now role allow w :
  match begin_zcash_candidate sha256 id nonce solution now role allow w with
  | (w', Ok g) =>
      let r1 := prune_winner_recovery now (ticked now (registry w)) in
      moved_backwards (last_monotonic_ms (registry w)) now = false /\ synchronized (registry w) = true /\
      (allow = true \/ is_Some (current_entry r1 now)) /\
      exists e, entries r1 !! id = Some e /\ (id ∈ winner_recovery r1) /\
        now < re_winner_recovery_until_ms e /\ re_state e <> Closed /\
        same_parent (current_entry r1 now) e = true /\ zcash_winner (re_generation e) nonce solution = true /\
        g = mkGenerationAdmission (mkGenerationResource (next_addr w) (re_generation e)) role /\
        w' = mkWorld r1 (<[next_addr w := mkHeapCell (re_generation e) 1]> (heap w)) (next_addr w + 1)
  | (w', Err _) =>
      w' = mkWorld (if moved_backwards (last_monotonic_ms (registry w)) now then suspend (registry w)
                    else if synchronized (registry w) then prune_winner_recovery now (ticked now (registry w))
                    else ticked now (registry w)) (heap w) (next_addr w)
  end.
Proof.
  unfold begin_zcash_candidate, get_registry, modify_registry, on_registry. unfold st_bind at 1.
  rewrite advance_clock_eval. destruct (moved_backwards (last_monotonic_ms (registry w)) now) eqn:Hm; [done|].
  st_unfold. cbn [registry heap next_addr].
  change (synchronized (ticked now (registry w))) with (synchronized (registry w)).
  destruct (synchronized (registry w)) eqn:Hs; cbn [negb]; [|done]. cbn [registry heap next_addr].
  set (r1 := prune_winner_recovery now (ticked now (registry w))).
  destruct (negb allow && negb (bool_decide (is_Some (current_entry r1 now)))) eqn:Hcur; [done|].
  destruct (opt_filter _ (entries r1 !! id)) as [e|] eqn:Ho; [|done].
  destruct (entries r1 !! id) as [e0|] eqn:E; [|done]. cbn in Ho. case_match eqn:Hc; [|done]. injection Ho as ->.
  boolprop. fold (zcash_winner (re_generation e) nonce solution). unfold zcash_winner at 1.
  destruct (bytes_compare _ _) eqn:Hcmp; [| |done];
    (split; [done|]; split; [done|]; split;
     [apply andb_false_iff in Hcur as [Hcur|Hcur]; boolprop; [by left|by right]|];
     exists e; split_and!; try done; unfold zcash_winner; by rewrite Hcmp).
Qed.

(** ** The transition system *)

Inductive step : World * list GenerationAdmission -> World * list GenerationAdmission -> Prop :=
| step_snapshot seq cur rec started w gs :
    step (w, gs) (fst (apply_snapshot seq cur rec started w), gs)
| step_event event anchor policy w gs :
    step (w, gs) (fst (apply_event_at sha256 event anchor policy w), gs)
| step_suspend w gs : step (w, gs) (fst (modify_registry suspend w), gs)
| step_admissible now w gs : step (w, gs) (fst (on_registry (admissible_job_ids now) w), gs)
| step_current now w gs : step (w, gs) (fst (on_registry (current_generation now) w), gs)
| step_recovery_ids now w gs : step (w, gs) (fst (on_registry (winner_recovery_job_ids now) w), gs)
| step_collect now w gs : step (w, gs) (fst (collect_retired now w), gs)
| step_admit id now w w' gs g : begin_admission id now w = (w', Ok g) -> step (w, gs) (w', g :: gs)
| step_refuse id now w w' gs error : begin_admission id now w = (w', Err error) -> step (w, gs) (w', gs)
| step_candidate id nonce solution now role allow w w' gs g :
    role <> Ordinary -> begin_zcash_candidate sha256 id nonce solution now role allow w = (w', Ok g) ->
    step (w, gs) (w', g :: gs)
| step_reject id nonce solution now role allow w w' gs error :
    begin_zcash_candidate sha256 id nonce solution now role allow w = (w', Err error) -> step (w, gs) (w', gs)
| step_drop g gs gs' w : gs ≡ₚ g :: gs' -> step (w, gs) (drop_admission g w, gs').

Definition SInv (s : World * list GenerationAdmission) : Prop := Good (registry s.1) /\ HeapInv s.2 s.1.

Lemma SInv_extends w gs w' : SInv (w, gs) -> extends w w' -> Good (registry w') -> SInv (w', gs).
Proof. intros [_ Hh] Hx Hg. split; [done|]. by eapply HeapInv_extends. Qed.

Lemma SInv_registry_op {A} (m : M GenerationRegistry JobRegistryError A) w gs :
  registry_op m -> SInv (w, gs) -> SInv (fst (on_registry m w), gs).
Proof.
  intros Hm Hs. destruct (Hm (registry w) (proj1 Hs)) as [Hg Hr]. unfold on_registry.
  destruct (m (registry w)) as [r x]. eapply SInv_extends; [done| |done]. by apply extends_registry.
Qed.

Lemma SInv_admit id now w w' gs g :
  SInv (w, gs) -> begin_admission id now w = (w', Ok g) -> SInv (w', g :: gs).
Proof.
  intros [[Hi Ht] Hh] E. pose proof (begin_admission_cases id now w) as Hc. rewrite E in Hc.
  destruct Hc as (_ & _ & e & res & Ee & _ & Hst & -> & Hmax & ->). split; [by apply ticked_Good|].
  destruct (ticked_spec now (registry w) Hi) as (Hi' & _ & Hr).
  assert (HeapInv gs (mkWorld (ticked now (registry w)) (heap w) (next_addr w))) as Hh'
    by (eapply HeapInv_extends; [done|by apply extends_registry]).
  rewrite (HeapInv_count _ _ Hh) in *. cbn [fst snd].
  assert (guard_addr (mkGenerationAdmission res Ordinary) = gr_addr res) as Hga by done.
  eapply HeapInv_set_count; [exact Hh'|rewrite guards_at_cons, decide_True by done; lia|done| |].
  - intros b Hb. rewrite guards_at_cons, decide_False by congruence. done.
  - intros g [->|Hg]%elem_of_cons; [right|by left]. split; [done|]. exists e. split; [|done].
    pose proof (eo_key _ _ (ei_entry _ (proj1 Hi') _ _ Ee)) as Hk. unfold re_generation in Hk. rewrite Hst in Hk.
    unfold ga_job_id, ga_generation. cbn in *. by rewrite Hk.
Qed.

Lemma SInv_candidate id nonce solution now role allow w w' gs g :
  role <> Ordinary -> SInv (w, gs) ->
  begin_zcash_candidate sha256 id nonce solution now role allow w = (w', Ok g) -> SInv (w', g :: gs).
Proof.
  intros Hrole [[Hi Ht] Hh] E. pose proof (begin_zcash_cases id nonce solution now role allow w) as Hc.
  rewrite E in Hc. destruct Hc as (_ & _ & _ & e & Ee & _ & _ & _ & _ & _ & -> & ->).
  set (r1 := prune_winner_recovery now (ticked now (registry w))) in *.
  split; [by apply prune_Good, ticked_Good|].
  destruct (ticked_spec now (registry w) Hi) as (_ & _ & Hr).
  assert (HeapInv gs (mkWorld r1 (heap w) (next_addr w))) as Hh'.
  { eapply HeapInv_extends; [done|]. apply extends_registry. etrans; [exact Hr|]. by apply revolves_same. }
  pose proof (HeapInv_count _ _ Hh') as Hcount.
  destruct Hh' as [H1 H2 H3 H4 H5 H6 H7]. cbn [fst snd registry heap next_addr] in *.
  assert (heap w !! next_addr w = None) as Hnone.
  { destruct (heap w !! next_addr w) as [c|] eqn:Ec; [|done]. apply H1 in Ec. cbn in Ec. lia. }
  set (g := mkGenerationAdmission (mkGenerationResource (next_addr w) (re_generation e)) role).
  assert (guard_addr g = next_addr w) as Hga by done.
  split; cbn [fst snd registry heap next_addr].
  - intros a c. cbn. destruct (decide (a = next_addr w)) as [->|Hne]; [lia|].
    rewrite lookup_insert_ne by done. intros Ha. apply H1 in Ha. cbn in Ha. lia.
  - intros i ei res Ei Hs. destruct (H2 i ei res Ei Hs) as [n Hn]. rewrite lookup_insert_ne by congruence. eauto.
  - intros g' [->|Hg]%elem_of_cons; [rewrite Hga, lookup_insert_eq; eauto|].
    destruct (H3 g' Hg) as [n Hn]. rewrite lookup_insert_ne by congruence. eauto.
  - intros g' [->|Hg]%elem_of_cons Ho; [done|by apply H4].
  - intros g' [->|Hg]%elem_of_cons Ho i ei res Ei Hs; [|by eapply H5].
    destruct (H2 i ei res Ei Hs) as [n Hn]. rewrite Hga. congruence.
  - intros a c. rewrite guards_at_cons, Hga. destruct (decide (next_addr w = a)) as [<-|Hne].
    + rewrite lookup_insert_eq. intros [= <-]. rewrite <- Hcount. unfold count_at. cbn. by rewrite Hnone.
    + rewrite lookup_insert_ne by done. intros Ha. rewrite (H6 _ _ Ha). lia.
  - intros a c. destruct (decide (next_addr w = a)) as [<-|Hne].
    + rewrite lookup_insert_eq. intros [= <-]. cbn. widths. lia.
    + rewrite lookup_insert_ne by done. apply H7.
Qed.

Lemma SInv_drop g gs gs' w : gs ≡ₚ g :: gs' -> SInv (w, gs) -> SInv (drop_admission g w, gs').
Proof.
  intros Hp [Hg Hh]. split; [done|]. cbn [fst snd] in *. unfold drop_admission. fold (guard_addr g).
  assert (forall g', g' ∈ gs' -> g' ∈ gs) as Hsub by (intros g' Hin; rewrite Hp; by right).
  assert (g ∈ gs) as Hgin by (rewrite Hp; left).
  pose proof (HeapInv_count _ _ Hh (guard_addr g)) as Hcount.
  rewrite (guards_at_perm _ _ _ Hp), guards_at_cons, decide_True in Hcount by done.
  destruct (hi_guard _ _ Hh g Hgin) as [n Hn].
  pose proof (hi_max _ _ Hh _ _ Hn) as Hmax. cbn in Hmax.
  assert (count_at w (guard_addr g) = n) as Hcn by (unfold count_at; by rewrite Hn).
  assert (0 <= guards_at (guard_addr g) gs') as Hpos by (unfold guards_at; lia).
  assert (count_at w (guard_addr g) - 1 = guards_at (guard_addr g) gs') as Hc1 by lia.
  rewrite Hc1, Z.mod_small by (widths; lia).
  eapply HeapInv_set_count; [exact Hh|done|lia| |].
  - intros b Hb. rewrite (guards_at_perm b _ _ Hp), guards_at_cons, decide_False by congruence. done.
  - intros g' Hg'. left. by apply Hsub.
Qed.

Lemma SInv_collect now w gs : SInv (w, gs) -> SInv (fst (collect_retired now w), gs).
Proof.
  intros Hs. rewrite collect_retired_eval. destruct (moved_backwards _ now); cbn [fst].
  - eapply SInv_extends; [done|apply extends_registry, suspend_revolves|apply suspend_Good, Hs].
  - destruct Hs as [[Hi Ht] Hh]. split; [by apply collected_Good, ticked_Good|].
    apply (collected_HeapInv gs (mkWorld (ticked now (registry w)) (heap w) (next_addr w))).
    eapply HeapInv_extends; [exact Hh|]. apply extends_registry. by apply ticked_spec.
Qed.

(** ** Every step keeps the invariant *)

(** A registry operation that fails or refuses leaves one of these registries. *)
Lemma SInv_refused w gs now (b : bool) :
  SInv (w, gs) ->
  SInv (mkWorld (if moved_backwards (last_monotonic_ms (registry w)) now then suspend (registry w)
                 else if b then prune_winner_recovery now (ticked now (registry w))
                 else ticked now (registry w)) (heap w) (next_addr w), gs).
Proof.
  intros Hs. pose proof Hs as [[Hi Ht] Hh]. cbn in Hi. destruct (ticked_spec now (registry w) Hi) as (_ & _ & Hr).
  destruct (moved_backwards _ now); [|destruct b]; (eapply SInv_extends; [exact Hs|apply extends_registry|]); cbn.
  - apply suspend_revolves.
  - apply suspend_Good, Hi.
  - etrans; [exact Hr|]. by apply revolves_same.
  - by apply prune_Good, ticked_Good.
  - exact Hr.
  - by apply ticked_Good.
Qed.

Lemma step_SInv s s' : step s s' -> SInv s -> SInv s'.
Proof.
  destruct 1 as [seq cur rec started w gs|event anchor policy w gs|w gs|now w gs|now w gs|now w gs|now w gs
    |id now w w' gs g E|id now w w' gs error E|id nonce solution now role allow w w' gs g Hrole E
    |id nonce solution now role allow w w' gs error E|g gs gs' w Hp]; intros Hs.
  - pose proof (apply_snapshot_spec seq cur rec started w (hi_fresh _ _ (proj2 Hs)) (proj1 (proj1 Hs))) as H.
    destruct (apply_snapshot seq cur rec started w) as [w' [u|e]]; destruct H as (Hx & Hi & Ht & _);
      by eapply SInv_extends.
  - pose proof (apply_event_at_spec sha256 event anchor policy w (hi_fresh _ _ (proj2 Hs)) (proj1 (proj1 Hs))) as H.
    destruct (apply_event_at sha256 event anchor policy w) as [w' [u|e]]; destruct H as (Hx & Hi & Ht & _);
      by eapply SInv_extends.
  - eapply SInv_extends; [done|apply extends_registry, suspend_revolves|apply suspend_Good, Hs].
  - by apply SInv_registry_op; [apply registry_op_admissible|].
  - by apply SInv_registry_op; [apply registry_op_current|].
  - by apply SInv_registry_op; [apply registry_op_recovery|].
  - by apply SInv_collect.
  - by eapply SInv_admit.
  - pose proof (begin_admission_cases id now w) as Hc. rewrite E in Hc. destruct Hc as [-> _].
    exact (SInv_refused w gs now false Hs).
  - by eapply SInv_candidate.
  - pose proof (begin_zcash_cases id nonce solution now role allow w) as Hc. rewrite E in Hc. subst w'.
    exact (SInv_refused w gs now _ Hs).
  - by eapply SInv_drop.
Qed.

Definition reachable (cfg : GenerationRegistryConfig) (s : World * list GenerationAdmission) : Prop :=
  rtc step (World_new cfg, []) s.

Lemma initial_SInv cfg : SInv (World_new cfg, []).
Proof.
  assert (EInv (GenerationRegistry_new cfg)) as He
    by (split; cbn; [rewrite map_size_empty; lia|intros id e; by rewrite lookup_empty]).
  pose proof (suspend_Good _ He) as [[_ [R1 R2 R3 R4 R5 R6 R7 R8 R9]] _]. split; [split; [split; [done|]|]|].
  - split; try done.
  - intros t id e H. done.
  - split; cbn; try (intros; rewrite ?lookup_empty in *; done); intros g Hg; by apply elem_of_nil in Hg.
Qed.

Lemma steps_SInv s s' : rtc step s s' -> SInv s -> SInv s'.
Proof. induction 1; eauto using step_SInv. Qed.

Lemma reachable_SInv cfg s : reachable cfg s -> SInv s.
Proof. intros H. eapply steps_SInv; [exact H|apply initial_SInv]. Qed.

(** ** Ageing *)

(** What every step, compaction included, allows an entry to become. *)
Record entry_ages (e e' : RegistryEntry) : Prop := {
  ag_generation : re_generation e' = re_generation e;
  ag_deadline : re_accept_until_ms e' <= re_accept_until_ms e;
  ag_recovery : re_winner_recovery_until_ms e' = re_winner_recovery_until_ms e;
  ag_terminal : is_terminal (re_state e) = true -> is_terminal (re_state e') = true;
  ag_closed : re_state e = Closed -> re_state e' = Closed
}.

#[export] Instance entry_ages_preorder : PreOrder entry_ages.
Proof. split; [intros e; by split|]. intros e1 e2 e3 [] []. split; [congruence|lia|congruence|auto|auto]. Qed.

Lemma evolves_ages e e' : entry_evolves e e' -> entry_ages e e'.
Proof. intros [H1 H2 H3 H4 H5]. split; try done. unfold re_generation. by rewrite H1. Qed.

Definition ages (r r' : GenerationRegistry) : Prop :=
  config r' = config r /\
  forall id e, entries r !! id = Some e -> exists e', entries r' !! id = Some e' /\ entry_ages e e'.

#[export] Instance ages_preorder : PreOrder ages.
Proof.
  split.
  - intros r. split; [done|]. intros id e E. exists e. split; [done|reflexivity].
  - intros r1 r2 r3 [C1 H1] [C2 H2]. split; [congruence|]. intros id e E.
    destruct (H1 id e E) as (e2 & E2 & A2). destruct (H2 id e2 E2) as (e3 & E3 & A3).
    exists e3. split; [done|by etrans].
Qed.

Lemma extends_ages w w' : extends w w' -> ages (registry w) (registry w').
Proof.
  intros Hx. split; [apply (ex_config _ _ Hx)|]. intros id e E.
  destruct (ex_entries _ _ Hx id e E) as (e' & E' & V). exists e'. split; [done|by apply evolves_ages].
Qed.

Lemma revolves_ages r r' : revolves r r' -> ages r r'.
Proof. intros Hr. apply (extends_ages (mkWorld r ∅ 0) (mkWorld r' ∅ 0)). by apply (extends_registry (mkWorld r ∅ 0)). Qed.

Lemma collected_ages w : ages (registry w) (collected w).
Proof.
  split; [done|]. intros id e E. exists (if retirable w id e then compact e else e).
  rewrite collected_lookup, E. split; [done|]. destruct (retirable w id e); [|reflexivity]. by split.
Qed.

Lemma refused_ages r now (b : bool) : Inv r ->
  ages r (if moved_backwards (last_monotonic_ms r) now then suspend r
          else if b then prune_winner_recovery now (ticked now r) else ticked now r).
Proof.
  intros Hi. destruct (ticked_spec now r Hi) as (_ & _ & Hr). apply revolves_ages.
  destruct (moved_backwards _ now); [apply suspend_revolves|]. destruct b; [|done].
  etrans; [exact Hr|]. by apply revolves_same.
Qed.

Lemma registry_op_ages {A} (m : M GenerationRegistry JobRegistryError A) w :
  registry_op m -> Good (registry w) -> ages (registry w) (registry (fst (on_registry m w))).
Proof.
  intros Hm Hg. destruct (Hm _ Hg) as [_ Hr]. unfold on_registry. destruct (m (registry w)) as [r x].
  by apply revolves_ages.
Qed.

Lemma step_ages s s' : step s s' -> SInv s -> ages (registry s.1) (registry s'.1).
Proof.
  destruct 1 as [seq cur rec started w gs|event anchor policy w gs|w gs|now w gs|now w gs|now w gs|now w gs
    |id now w w' gs g E|id now w w' gs error E|id nonce solution now role allow w w' gs g Hrole E
    |id nonce solution now role allow w w' gs error E|g gs gs' w Hp]; intros [[Hi Ht] Hh]; cbn [fst snd] in *.
  - pose proof (apply_snapshot_spec seq cur rec started w (hi_fresh _ _ Hh) Hi) as H.
    destruct (apply_snapshot seq cur rec started w) as [w' [u|e]]; destruct H as [Hx _]; by apply extends_ages.
  - pose proof (apply_event_at_spec sha256 event anchor policy w (hi_fresh _ _ Hh) Hi) as H.
    destruct (apply_event_at sha256 event anchor policy w) as [w' [u|e]]; destruct H as [Hx _]; by apply extends_ages.
  - apply revolves_ages, suspend_revolves.
  - by apply registry_op_ages; [apply registry_op_admissible|split].
  - by apply registry_op_ages; [apply registry_op_current|split].
  - by apply registry_op_ages; [apply registry_op_recovery|split].
  - rewrite collect_retired_eval. destruct (moved_backwards _ now); cbn [fst].
    + apply revolves_ages, suspend_revolves.
    + etrans; [apply revolves_ages; by apply (ticked_spec now)|].
      apply (collected_ages (mkWorld (ticked now (registry w)) (heap w) (next_addr w))).
  - pose proof (begin_admission_cases id now w) as Hc. rewrite E in Hc.
    destruct Hc as (_ & _ & e & res & _ & _ & _ & _ & _ & ->). apply revolves_ages. by apply ticked_spec.
  - pose proof (begin_admission_cases id now w) as Hc. rewrite E in Hc. destruct Hc as [-> _].
    by apply (refused_ages _ now false).
  - pose proof (begin_zcash_cases id nonce solution now role allow w) as Hc. rewrite E in Hc.
    destruct Hc as (_ & _ & _ & e & _ & _ & _ & _ & _ & _ & _ & ->). apply revolves_ages.
    etrans; [by apply (ticked_spec now)|]. by apply revolves_same.
  - pose proof (begin_zcash_cases id nonce solution now role allow w) as Hc. rewrite E in Hc. subst w'.
    by apply refused_ages.
  - reflexivity.
Qed.

Lemma steps_age s s' : rtc step s s' -> SInv s -> SInv s' /\ ages (registry s.1) (registry s'.1).
Proof.
  induction 1 as [s|s1 s2 s3 H12 _ IH]; intros Hs; [by split|].
  destruct (IH (step_SInv _ _ H12 Hs)) as [H3 A3]. split; [done|]. etrans; [|exact A3]. by apply step_ages.
Qed.
End Life.
