(* ===== verification/JobsProps.v ===== *)
(** What the generation registry guarantees in every reachable state: bounded and consistent
    roles, exact admission, no resurrection, failure that closes admission, counters that agree
    with the live guards, and the recovery window for potential Zcash winners. *)

From Stdlib Require Import ZArith Lia.
From stdpp Require Import prelude gmap sorting strings.
From S2P Require Import Prelude Wire Target LargestRemainder Backend Jobs JobsInv JobsWorld JobsLife.
Open Scope Z_scope.

(** ** Shared facts *)

Lemma unsynchronized_closed r : Good r -> synchronized r = false ->
  roles r = [] /\ winner_recovery r = [] /\ forall id e, entries r !! id = Some e -> re_state e <> Accepting.
Proof.
  intros [[_ Hr] _] Hs. destruct (rv_unsync _ Hr Hs) as [H1 H2]. split; [done|]. split; [done|].
  intros id e E Ha. pose proof (rv_accepting _ Hr _ _ E Ha) as Hin. rewrite H1 in Hin. by apply elem_of_nil in Hin.
Qed.

Lemma unsynchronized_refuses id now w : synchronized (registry w) = false ->
  is_ok (snd (begin_admission id now w)) = false.
Proof.
  intros Hs. pose proof (begin_admission_cases id now w) as Hc.
  destruct (begin_admission id now w) as [w' [g|e]]; [|done]. destruct Hc as (_ & Hs' & _). congruence.
Qed.

(** The roles after the clock moved to [now]. *)
Lemma elem_of_ticked_roles now r id : EInv r ->
  id ∈ roles (ticked now r) <->
  (id ∈ roles r) /\ exists e, entries r !! id = Some e /\ re_state e = Accepting /\ now < re_accept_until_ms e.
Proof.
  intros He. change (roles (ticked now r)) with (roles (expire_at now r)).
  rewrite elem_of_expire_roles, (expire_admits now r id He). naive_solver.
Qed.

(** Admission, decided by the roles and the clock. *)
Lemma begin_admission_iff id now w gs : SInv (w, gs) ->
  is_ok (snd (begin_admission id now w)) = true <->
  moved_backwards (last_monotonic_ms (registry w)) now = false /\ synchronized (registry w) = true /\
  (id ∈ roles (registry w)) /\
  exists e res, entries (registry w) !! id = Some e /\ now < re_accept_until_ms e /\
    re_storage e = Live res /\ count_at w (gr_addr res) < U64_MAX.
Proof.
  intros [[[He Hr] Ht] Hh]. cbn in He, Hr. pose proof (begin_admission_cases id now w) as Hc.
  destruct (begin_admission id now w) as [w' [g|err]] eqn:E; cbn [snd is_ok].
  - destruct Hc as (Hm & Hs & e1 & res & E1 & Ha & Hst & _ & Hmax & _). split; [|done]. intros _.
    split; [done|]. split; [done|]. cbn in E1. rewrite lookup_fmap in E1.
    destruct (entries (registry w) !! id) as [e|] eqn:Ee; [|done]. cbn in E1. injection E1 as <-.
    unfold accepting in Ha. boolprop. apply expire_entry_accepting in H as [Hacc Hlt].
    destruct (expire_entry_fields now e) as [Hse _]. rewrite Hse in Hst.
    split; [by eapply (rv_accepting _ Hr)|]. exists e, res. split_and!; try done. lia.
  - split; [done|]. intros (Hm & Hs & Hin & e & res & Ee & Hlt & Hst & Hmax). exfalso.
    destruct (rv_roles _ Hr id Hin) as (e0 & E0 & Hacc). rewrite Ee in E0. injection E0 as <-.
    unfold begin_admission, get_registry, on_registry in E. unfold st_bind at 1 in E.
    rewrite advance_clock_eval, Hm in E. st_unfold. cbn [registry heap next_addr] in E.
    change (synchronized (ticked now (registry w))) with (synchronized (registry w)) in E. rewrite Hs in E.
    cbn [negb] in E. assert (entries (ticked now (registry w)) !! id = Some e) as E1.
    { cbn. rewrite lookup_fmap, Ee. cbn. f_equal. unfold expire_entry.
      destruct (Z.leb_spec (re_accept_until_ms e) now); [lia|]. by rewrite andb_false_r. }
    rewrite E1 in E. assert (accepting e now = true) as Hac.
    { unfold accepting, is_live. rewrite bool_decide_true, Hst by done. cbn. by apply Z.ltb_lt. }
    rewrite Hac, Hst in E. cbn [negb live_resource] in E.
    change (count_at (mkWorld (ticked now (registry w)) (heap w) (next_addr w)) (gr_addr res))
      with (count_at w (gr_addr res)) in E.
    unfold checked_add in E. destruct (Z.leb_spec (count_at w (gr_addr res) + 1) U64_MAX); [done|lia].
Qed.

(** Guards of an ordinary admission of [id]. *)
Definition ordinary_guards (id : JobId) (gs : list GenerationAdmission) : Z :=
  Z.of_nat (length (filter (fun g => ga_role g = Ordinary /\ ga_job_id g = id) gs)).

Lemma in_flight_guards w gs id e : SInv (w, gs) -> entries (registry w) !! id = Some e ->
  storage_in_flight w (re_storage e) = ordinary_guards id gs.
Proof.
  intros [[[He Hr] Ht] Hh] E. cbn in He, Hh. unfold storage_in_flight, ordinary_guards.
  assert (forall g, g ∈ gs -> ga_role g = Ordinary /\ ga_job_id g = id ->
    re_storage e = Live (ga_resource g)) as Hord.
  { intros g Hg [Ho <-]. destruct (hi_ordinary _ _ Hh g Hg Ho) as (e' & E' & Hs). congruence. }
  destruct (re_storage e) as [res|gen] eqn:Hst; cbn [live_resource].
  - rewrite (HeapInv_count _ _ Hh). unfold guards_at. f_equal. apply Nat.le_antisymm; apply length_filter_le.
    + intros g Hg Ha. destruct (decide (ga_role g = Ordinary)) as [Ho|Ho].
      * split; [done|]. destruct (hi_guard _ _ Hh g Hg) as [n Hn]. destruct (hi_entry _ _ Hh id e res E Hst) as [m Hm].
        rewrite <- Ha, Hn in Hm. injection Hm as Hgen _. unfold ga_job_id. rewrite Hgen.
        pose proof (eo_key _ _ (ei_entry _ He _ _ E)) as Hk. unfold re_generation in Hk. by rewrite Hst in Hk.
      * by destruct (hi_recovery _ _ Hh g Hg Ho id e res E Hst).
    + intros g Hg Ho. pose proof (Hord g Hg Ho) as Heq. injection Heq as ->. done.
  - rewrite filter_none; [done|]. intros g Hg Ho. by pose proof (Hord g Hg Ho).
Qed.

(** ** Concrete operations for the witnesses *)

Definition demo_config : GenerationRegistryConfig := mkGenerationRegistryConfig 2 8.
Definition demo_acceptable (b : Z) : AcceptableJob := mkAcceptableJob (demo_job b) 20000.

(** A snapshot at event 4 with job 1, taken at time 1000. *)
Definition demo_world : World :=
  fst (apply_snapshot 4 (Some (demo_acceptable 1)) [] 1000 (World_new demo_config)).

Lemma demo_reachable : reachable demo_sha256 demo_config (demo_world, []).
Proof. apply rtc_once. apply step_snapshot. Defined.

Definition demo_id (b : Z) : JobId := replicate 32 b.

(** ** Properties *)

(** Consistent, bounded roles: in every reachable state the recent list, the retained
    generations and the recovery history are within their limits, no job has two roles, the
    jobs with a role are exactly the accepting ones, every role outlives the latest time seen,
    and an unsynchronised registry has no role at all. *)
Theorem registry_roles_consistent sha256 cfg w gs (reached : reachable sha256 cfg (w, gs)) :
  let r := registry w in
  (length (recent r) <= maximum_recent cfg)%nat /\ (size (entries r) <= maximum_generations cfg)%nat /\
  (length (winner_recovery r) <= MAX_ZCASH_WINNER_RECOVERY_JOBS)%nat /\ NoDup (roles r) /\
  (forall id, id ∈ roles r <-> exists e, entries r !! id = Some e /\ re_state e = Accepting) /\
  (forall t id e, last_monotonic_ms r = Some t -> id ∈ roles r -> entries r !! id = Some e ->
     t < re_accept_until_ms e) /\
  (synchronized r = false -> roles r = []).
Proof.
  destruct (steps_age _ _ _ reached (initial_SInv cfg)) as [[[Hi Ht] _] [Hc _]].
  cbn in Hi, Ht, Hc. destruct Hi as [He Hr]. cbv zeta. rewrite <- Hc.
  refine (conj (rv_recent _ Hr) (conj (ei_size _ He) (conj (rv_history_len _ Hr) (conj (rv_nodup _ Hr) (conj _ (conj Ht _)))))).
  - intros id. split; [apply (rv_roles _ Hr)|]. intros (e & E & Ha). by eapply (rv_accepting _ Hr).
  - intros Hs. by apply (rv_unsync _ Hr).
Qed.

Lemma registry_roles_consistent_witness :
  roles (registry demo_world) = [demo_id 1] /\ NoDup (roles (registry demo_world)).
Proof.
  split; [vm_compute; reflexivity|].
  apply (registry_roles_consistent demo_sha256 demo_config demo_world [] demo_reachable).
Defined.

(** C7. Exact admission: a submission for a job is admitted iff time did not go backwards, the
    registry is synchronised, the job has a role and its deadline lies ahead, and its counter
    is not exhausted; the guard then carries the registered generation of that very job and
    counts once. *)
Theorem admission_exact sha256 cfg w gs (reached : reachable sha256 cfg (w, gs)) id now :
  (is_ok (snd (begin_admission id now w)) = true <->
   moved_backwards (last_monotonic_ms (registry w)) now = false /\ synchronized (registry w) = true /\
   (id ∈ roles (registry w)) /\
   exists e res, entries (registry w) !! id = Some e /\ now < re_accept_until_ms e /\
     re_storage e = Live res /\ count_at w (gr_addr res) < U64_MAX) /\
  (forall w' g, begin_admission id now w = (w', Ok g) ->
     ga_role g = Ordinary /\ ga_job_id g = id /\ generation (registry w) id = Some (ga_generation g) /\
     in_flight w' id = Some (ordinary_guards id gs + 1)).
Proof.
  pose proof (reachable_SInv _ _ _ reached) as Hs. split; [by eapply begin_admission_iff|].
  intros w' g E. pose proof (begin_admission_cases id now w) as Hc. rewrite E in Hc.
  destruct Hc as (_ & _ & e & res & Ee & _ & Hst & -> & _ & ->).
  destruct (entries_evolve_lookup _ _ _ _ (rev_entries _ _ (proj2 (proj2 (ticked_spec now _ (proj1 (proj1 Hs)))))) Ee)
    as (e0 & E0 & V). cbn [fst] in E0. rewrite (ev_storage _ _ V) in Hst.
  pose proof (eo_key _ _ (ei_entry _ (proj1 (proj1 (proj1 Hs))) _ _ E0)) as Hk.
  pose proof (in_flight_guards w gs id e0 Hs E0) as Hf. unfold storage_in_flight in Hf.
  destruct (hi_entry _ _ (proj2 Hs) id e0 res E0 Hst) as [n Hn]. cbn [fst] in Hn.
  unfold re_generation in Hk. rewrite Hst in Hk, Hf. cbn [live_resource] in Hf.
  split; [done|]. split; [exact Hk|]. split.
  - unfold generation, re_generation. by rewrite E0; cbn; rewrite Hst.
  - unfold in_flight, storage_in_flight. cbn [registry set_count]. rewrite Ee. cbn.
    rewrite (ev_storage _ _ V), Hst. cbn [live_resource]. unfold count_at at 1. cbn.
    rewrite lookup_alter_eq, Hn. cbn. by rewrite Hf.
Qed.

Lemma admission_exact_witness :
  is_ok (snd (begin_admission (demo_id 1) 5000 demo_world)) = true.
Proof.
  apply (proj1 (admission_exact demo_sha256 demo_config demo_world [] demo_reachable (demo_id 1) 5000)).
  split; [vm_compute; reflexivity|]. split; [vm_compute; reflexivity|]. split; [vm_compute; left|].
  eexists _, _. split; [vm_compute; reflexivity|]. split; [vm_compute; reflexivity|].
  split; [reflexivity|vm_compute; reflexivity].
Defined.

(** C34. No resurrection: once a job was observed, no sequence of operations forgets it, changes
    its generation, extends its deadline or reopens it.  A job that was terminal, or whose
    deadline has passed, is never admitted again. *)
Theorem no_resurrection sha256 cfg w gs w' gs' id e
    (reached : reachable sha256 cfg (w, gs)) (later : rtc (step sha256) (w, gs) (w', gs'))
    (known : entries (registry w) !! id = Some e) :
  (exists e', entries (registry w') !! id = Some e' /\ entry_ages e e') /\
  (forall now, is_terminal (re_state e) = true \/ re_accept_until_ms e <= now ->
     is_ok (snd (begin_admission id now w')) = false).
Proof.
  destruct (steps_age _ _ _ later (reachable_SInv _ _ _ reached)) as [Hs [_ Ha]]. cbn in Ha.
  destruct (Ha id e known) as (e' & E' & A). split; [eauto|]. intros now Hor.
  destruct (is_ok (snd (begin_admission id now w'))) eqn:Hok; [|done]. exfalso.
  apply (begin_admission_iff id now w' gs' Hs) in Hok as (_ & _ & Hin & e2 & res & E2 & Hlt & _).
  rewrite E' in E2. injection E2 as <-. destruct Hs as [[[_ Hr] _] _].
  destruct (rv_roles _ Hr id Hin) as (e3 & E3 & Hacc). cbn in E3. rewrite E' in E3. injection E3 as <-.
  destruct Hor as [Ht|Hd].
  - apply (ag_terminal _ _ A) in Ht. by rewrite Hacc in Ht.
  - pose proof (ag_deadline _ _ A). lia.
Qed.

Lemma no_resurrection_witness :
  is_ok (snd (begin_admission (demo_id 1) 21000 demo_world)) = false.
Proof.
  refine (proj2 (no_resurrection demo_sha256 demo_config demo_world [] demo_world [] (demo_id 1)
    _ demo_reachable (rtc_refl _ _) _) 21000 _); [vm_compute; reflexivity|].
  right. vm_compute. intros H. discriminate H.
Defined.

Lemma unsynchronized_event sha256 event anchor policy w : synchronized (registry w) = false ->
  apply_event_at sha256 event anchor policy w = (mkWorld (suspend (registry w)) (heap w) (next_addr w), Err NotSynchronized).
Proof.
  intros Hs. unfold apply_event_at, try_apply_event, get_registry, on_registry. unfold st_bind at 1. unfold st_get at 1.
  rewrite Hs. done.
Qed.

(** A registry that admits nothing and applies no event. *)
Record shut (sha256 : list Z -> list Z) (w : World) : Prop := {
  sh_sync : synchronized (registry w) = false;
  sh_roles : roles (registry w) = [];
  sh_recovery : winner_recovery (registry w) = [];
  sh_ordinary : forall id now, is_ok (snd (begin_admission id now w)) = false;
  sh_candidates : forall id nonce solution now role allow,
    is_ok (snd (begin_zcash_candidate sha256 id nonce solution now role allow w)) = false;
  sh_events : forall event anchor policy, is_ok (snd (apply_event_at sha256 event anchor policy w)) = false
}.

Lemma unsynchronized_shut sha256 w gs : SInv (w, gs) -> synchronized (registry w) = false -> shut sha256 w.
Proof.
  intros Hi Hs. destruct (unsynchronized_closed _ (proj1 Hi) Hs) as (H1 & H2 & _). split; [done..| | |].
  - intros id now. by apply unsynchronized_refuses.
  - intros id nonce solution now role allow.
    pose proof (begin_zcash_cases sha256 id nonce solution now role allow w) as Hc.
    destruct (begin_zcash_candidate sha256 id nonce solution now role allow w) as [w2 [g|e]]; [|done].
    destruct Hc as (_ & Hs' & _). congruence.
  - intros event anchor policy. by rewrite unsynchronized_event.
Qed.

Lemma apply_snapshot_sync seq cur rec started w gs w' : SInv (w, gs) ->
  apply_snapshot seq cur rec started w = (w', Ok tt) -> synchronized (registry w') = true.
Proof.
  intros [[Hi _] Hh] E. pose proof (apply_snapshot_spec seq cur rec started w (hi_fresh _ _ Hh) Hi) as H. rewrite E in H.
  apply H.
Qed.

(** A step that is not a snapshot that succeeds. *)
Definition unsnapshotted (sha256 : list Z -> list Z) (s s' : World * list GenerationAdmission) : Prop :=
  step sha256 s s' /\ forall seq cur rec started, apply_snapshot seq cur rec started s.1 <> (s'.1, Ok tt).

Lemma clock_unsynchronized {A} now (f : unit -> M GenerationRegistry JobRegistryError A) r : synchronized r = false ->
  (forall r', synchronized r' = false -> synchronized (fst (f tt r')) = false) ->
  synchronized (fst (st_bind (advance_clock now) f r)) = false.
Proof.
  intros Hs Hf. unfold st_bind. rewrite advance_clock_eval. destruct (moved_backwards _ now); [done|]. by apply Hf.
Qed.

Lemma unsnapshotted_unsynchronized sha256 s s' : unsnapshotted sha256 s s' -> synchronized (registry s.1) = false ->
  synchronized (registry s'.1) = false.
Proof.
  intros [Hst Hno]. revert Hno. destruct Hst as [seq cur rec started w gs|event anchor policy w gs|w gs|now w gs|now w gs|now w gs|now w gs
    |id now w w' gs g E|id now w w' gs error E|id nonce solution now role allow w w' gs g Hrole E
    |id nonce solution now role allow w w' gs error E|g gs gs' w Hp]; cbn [fst]; intros Hno Hs.
  - specialize (Hno seq cur rec started). unfold apply_snapshot in *.
    destruct (prepare_snapshot _ _ _ _ _ _) as [w1 [p|e]]; [by destruct Hno|done].
  - by rewrite unsynchronized_event.
  - done.
  - unfold on_registry. destruct (admissible_job_ids now (registry w)) as [r x] eqn:E. apply (f_equal fst) in E. cbn in E. subst r.
    apply clock_unsynchronized; [done|]. intros r' Hr. st_unfold. by rewrite Hr.
  - unfold on_registry. destruct (current_generation now (registry w)) as [r x] eqn:E. apply (f_equal fst) in E. cbn in E. subst r.
    apply clock_unsynchronized; [done|]. intros r' Hr. st_unfold. by destruct (current r').
  - unfold on_registry. destruct (winner_recovery_job_ids now (registry w)) as [r x] eqn:E. apply (f_equal fst) in E. cbn in E. subst r.
    apply clock_unsynchronized; [done|]. intros r' Hr. st_unfold. by rewrite Hr.
  - rewrite collect_retired_eval. by destruct (moved_backwards _ now).
  - pose proof (unsynchronized_refuses id now w Hs) as H. by rewrite E in H.
  - pose proof (begin_admission_cases id now w) as Hc. rewrite E in Hc. destruct Hc as [-> _]. cbn. by destruct (moved_backwards _ now).
  - pose proof (begin_zcash_cases sha256 id nonce solution now role allow w) as Hc. rewrite E in Hc.
    destruct Hc as (_ & Hs' & _). congruence.
  - pose proof (begin_zcash_cases sha256 id nonce solution now role allow w) as Hc. rewrite E in Hc. subst w'. cbn.
    rewrite Hs. by destruct (moved_backwards _ now).
  - done.
Qed.

Lemma unsnapshotted_shut sha256 s s' : rtc (unsnapshotted sha256) s s' -> SInv s -> synchronized (registry s.1) = false ->
  shut sha256 s'.1.
Proof.
  induction 1 as [[w gs]|s1 s2 s3 H _ IH]; intros Hi Hs; [by eapply unsynchronized_shut|]. apply IH.
  - eapply step_SInv; [apply H|done].
  - by eapply unsnapshotted_unsynchronized.
Qed.

(** A refused submission is such a step. *)
Lemma refused_unsnapshotted sha256 w gs id now : SInv (w, gs) -> synchronized (registry w) = false ->
  unsnapshotted sha256 (w, gs) (fst (begin_admission id now w), gs).
Proof.
  intros Hi Hs. pose proof (unsynchronized_refuses id now w Hs) as Hr. pose proof (begin_admission_cases id now w) as Hc.
  destruct (begin_admission id now w) as [w' [g|e]] eqn:E; [done|]. split; [by eapply step_refuse|]. cbn [fst].
  intros seq cur rec started H%(apply_snapshot_sync _ _ _ _ _ gs _ Hi). destruct Hc as [-> _]. cbn in H.
  by destruct (moved_backwards _ now); [done|]; cbn in H; rewrite Hs in H.
Qed.

(** C36. Failure closes admission: when a snapshot or an event is rejected, the registry is left
    unsynchronised with no roles and no recovery history, and it stays so through any later
    operations, in any order, as long as none is a snapshot that succeeds: at every point of such a
    history no submission is admitted, neither an ordinary one nor a recovery candidate, and no
    event is applied. *)
Theorem failure_closes_admission sha256 cfg w gs (reached : reachable sha256 cfg (w, gs)) w' :
  (exists seq cur rec started error, apply_snapshot seq cur rec started w = (w', Err error)) \/
  (exists event anchor policy error, apply_event_at sha256 event anchor policy w = (w', Err error)) ->
  shut sha256 w' /\
  forall w2 gs2, rtc (unsnapshotted sha256) (w', gs) (w2, gs2) -> shut sha256 w2.
Proof.
  pose proof (reachable_SInv _ _ _ reached) as Hi. intros Hfail.
  assert (SInv (w', gs) /\ synchronized (registry w') = false) as [Hi' Hs].
  { destruct Hfail as [(seq & cur & rec & t & e & E)|(ev & a & p & e & E)].
    - pose proof (apply_snapshot_spec seq cur rec t w (hi_fresh _ _ (proj2 Hi)) (proj1 (proj1 Hi))) as H. rewrite E in H.
      destruct H as (H0 & H1 & H2 & H3). split; [by eapply SInv_extends|done].
    - pose proof (apply_event_at_spec sha256 ev a p w (hi_fresh _ _ (proj2 Hi)) (proj1 (proj1 Hi))) as H. rewrite E in H.
      destruct H as (H0 & H1 & H2 & H3). split; [by eapply SInv_extends|done]. }
  split; [by eapply unsynchronized_shut|]. intros w2 gs2 H. exact (unsnapshotted_shut sha256 _ _ H Hi' Hs).
Qed.

(** An event out of sequence, then a submission that is refused. *)
Definition demo_failed : World :=
  fst (apply_event_at demo_sha256 (GenerationClosed 9 (demo_hex 32 1)) 2000 2000 demo_world).
Lemma demo_failed_SInv : SInv (demo_failed, []).
Proof.
  exact (step_SInv _ _ _ (step_event demo_sha256 (GenerationClosed 9 (demo_hex 32 1)) 2000 2000 demo_world [])
    (reachable_SInv _ _ _ demo_reachable)).
Qed.

Lemma failure_closes_admission_witness :
  synchronized (registry demo_failed) = false /\
  is_ok (snd (begin_admission (demo_id 1) 4000 (fst (begin_admission (demo_id 1) 3000 demo_failed)))) = false.
Proof.
  destruct (failure_closes_admission demo_sha256 demo_config demo_world [] demo_reachable demo_failed) as [H1 H2].
  - right. exists (GenerationClosed 9 (demo_hex 32 1)), 2000, 2000. eexists. vm_compute. reflexivity.
  - split; [exact (sh_sync _ _ H1)|].
    exact (sh_ordinary _ _ (H2 _ _ (rtc_once _ _ (refused_unsnapshotted demo_sha256 demo_failed [] (demo_id 1) 3000 demo_failed_SInv (sh_sync _ _ H1)))) (demo_id 1) 4000).
Defined.

(** Counters agree with guards: in every reachable state the in-flight counter of a retained
    job is the number of its live ordinary guards, every such guard still finds its own
    resource live in the registry, and compaction only retires jobs without a role or a
    guard, each of them terminal. *)
Theorem guards_counted sha256 cfg w gs (reached : reachable sha256 cfg (w, gs)) :
  (forall id e, entries (registry w) !! id = Some e -> in_flight w id = Some (ordinary_guards id gs)) /\
  (forall g, g ∈ gs -> ga_role g = Ordinary ->
     exists e, entries (registry w) !! ga_job_id g = Some e /\ re_storage e = Live (ga_resource g)) /\
  (forall now w' retired, collect_retired now w = (w', Ok retired) -> forall id, id ∈ retired ->
     ordinary_guards id gs = 0 /\ (id ∉ roles (registry w')) /\
     exists e, entries (registry w') !! id = Some e /\ is_terminal (re_state e) = true /\ is_live e = false).
Proof.
  pose proof (reachable_SInv _ _ _ reached) as Hs. split; [|split; [apply (hi_ordinary _ _ (proj2 Hs))|]].
  - intros id e E. unfold in_flight. rewrite E. cbn. f_equal. by eapply in_flight_guards.
  - intros now w' retired E id Hid. rewrite collect_retired_eval in E.
    destruct (moved_backwards (last_monotonic_ms (registry w)) now); [done|]. cbv zeta in E.
    set (w1 := mkWorld (ticked now (registry w)) (heap w) (next_addr w)) in *. injection E as <- <-.
    rewrite sort_by_perm in Hid. apply list_elem_of_fmap in Hid as ([id' e] & Hid & Hin). cbn in Hid. subst id'.
    apply list_elem_of_filter in Hin as [Hret Hin]. apply elem_of_map_to_list in Hin.
    change (entries (registry w1) !! id = Some e) in Hin. cbn in Hret.
    assert (SInv (w1, gs)) as Hs1.
    { eapply SInv_extends; [exact Hs|apply extends_registry; apply ticked_spec, Hs|apply ticked_Good, Hs]. }
    pose proof (proj1 (retirable_spec w1 id e) Hret) as (Hrole & Hterm & res & Hst & Hz).
    split; [|split; [exact Hrole|]].
    + rewrite <- (in_flight_guards w1 gs id e Hs1 Hin). unfold storage_in_flight. by rewrite Hst.
    + exists (compact e). cbn [registry]. rewrite collected_lookup, Hin. cbn. by rewrite Hret.
Qed.

Lemma guards_counted_witness :
  let w' := fst (begin_admission (demo_id 1) 5000 demo_world) in
  exists g, in_flight w' (demo_id 1) = Some (ordinary_guards (demo_id 1) [g]) /\ ordinary_guards (demo_id 1) [g] = 1.
Proof.
  cbv zeta. destruct (begin_admission (demo_id 1) 5000 demo_world) as [w' [g|e]] eqn:E.
  2:{ exfalso. vm_compute in E. discriminate E. }
  exists g. assert (reachable demo_sha256 demo_config (w', [g])) as Hr.
  { eapply rtc_r; [exact demo_reachable|]. eapply step_admit. exact E. }
  destruct (guards_counted demo_sha256 demo_config w' [g] Hr) as (H1 & H2 & _).
  destruct (H2 g ltac:(left)) as (e & He & _); [vm_compute in E; injection E as _ <-; reflexivity|].
  assert (ga_job_id g = demo_id 1) as Hid by (vm_compute in E; injection E as _ <-; reflexivity).
  rewrite Hid in He. split; [exact (H1 _ _ He)|]. vm_compute in E. injection E as _ <-. vm_compute. reflexivity.
Defined.

(** Events delivered one after the other, stopping at the first rejection. *)
Fixpoint apply_events (sha256 : list Z -> list Z) (events : list (BackendEvent * Z * Z)) :
    M World JobRegistryError unit :=
  match events with
  | [] => st_ret tt
  | (event, anchor, policy) :: rest =>
      do* apply_event_at sha256 event anchor policy in apply_events sha256 rest
  end.

Lemma apply_events_contiguous sha256 events w w' p :
  heap_fresh w -> Inv (registry w) -> last_event_seq (registry w) = Some p ->
  apply_events sha256 events w = (w', Ok tt) ->
  (fun x => event_seq x.1.1) <$> events = seqZ (p + 1) (Z.of_nat (length events)) /\
  Forall (fun x => BackendEvent_validate sha256 x.1.1 = Ok tt /\ x.1.2 <= x.2) events /\
  last_event_seq (registry w') = Some (p + Z.of_nat (length events)).
Proof.
  revert w p; induction events as [|[[ev a] t] events IH]; intros w p Hf Hi Hp E; cbn [apply_events] in E.
  - injection E as <-. cbn. split; [done|]. split; [constructor|]. rewrite Hp. f_equal. lia.
  - unfold st_bind in E. pose proof (apply_event_at_spec sha256 ev a t w Hf Hi) as H.
    destruct (apply_event_at sha256 ev a t w) as [w1 [u|e]]; [|done].
    destruct H as (Hx & Hi1 & _ & _ & [Hv _ (q & Hq & Hev & _) Hseq _ _ (Hle & _)]).
    rewrite Hp in Hq. injection Hq as <-. rewrite Hev in Hseq.
    destruct (IH w1 (p + 1) (heap_fresh_extends _ _ Hf Hx) Hi1 Hseq E) as (H1 & H2 & H3).
    rewrite fmap_cons, H1. cbn [length fst snd]. rewrite Nat2Z.inj_succ, <- Z.add_1_r. split; [|split].
    + rewrite (seqZ_cons (p + 1)) by lia. rewrite Hev. f_equal. f_equal; lia.
    + constructor; [done|done].
    + rewrite H3. f_equal. lia.
Qed.

(** Journal continuity: from a synchronised registry, the events a stream applies
    successfully are exactly the consecutive successors of the watermark, each valid and none
    processed before its delivery, and the watermark ends at the last of them. *)
Theorem journal_contiguous sha256 cfg w gs (reached : reachable sha256 cfg (w, gs)) p events w'
    (position : last_event_seq (registry w) = Some p)
    (applied : apply_events sha256 events w = (w', Ok tt)) :
  (fun x => event_seq x.1.1) <$> events = seqZ (p + 1) (Z.of_nat (length events)) /\
  Forall (fun x => BackendEvent_validate sha256 x.1.1 = Ok tt /\ x.1.2 <= x.2) events /\
  last_event_seq (registry w') = Some (p + Z.of_nat (length events)).
Proof.
  pose proof (reachable_SInv _ _ _ reached) as [[Hi _] Hh]. by apply (apply_events_contiguous sha256 events w w' p (hi_fresh _ _ Hh) Hi).
Qed.

Lemma journal_contiguous_witness :
  let events := [(JobActivated 5 (demo_job 2), 2000, 2000);
                 (JobInvalidated 6 (demo_hex 32 1) Superseded 500, 2100, 2200)] in
  last_event_seq (registry (fst (apply_events demo_sha256 events demo_world))) = Some 6 /\
  roles (registry (fst (apply_events demo_sha256 events demo_world))) = [demo_id 2; demo_id 1].
Proof.
  cbv zeta. destruct (apply_events demo_sha256 _ demo_world) as [w' x] eqn:E.
  assert (x = Ok tt) as -> by (vm_compute in E; congruence). split.
  - exact (proj2 (proj2 (journal_contiguous demo_sha256 demo_config demo_world [] demo_reachable 4 _ w'
      ltac:(vm_compute; reflexivity) E))).
  - vm_compute in E. injection E as <-. vm_compute. reflexivity.
Defined.

(** Snapshots are authoritative and never rewind: an accepted snapshot does not move the
    journal watermark back, gives roles only to the jobs it lists, makes every other known
    job terminal, and never lets a delayed answer set the clock back. *)
Theorem snapshot_authoritative sha256 cfg w gs (reached : reachable sha256 cfg (w, gs))
    seq cur rec started w' (accepted : apply_snapshot seq cur rec started w = (w', Ok tt)) :
  synchronized (registry w') = true /\
  snapshot_applied seq (snapshot_ids cur rec) started (registry w) (registry w').
Proof.
  pose proof (reachable_SInv _ _ _ reached) as [[Hi _] Hh]. cbn in Hi, Hh.
  pose proof (apply_snapshot_spec seq cur rec started w (hi_fresh _ _ Hh) Hi) as H. rewrite accepted in H.
  by destruct H as (_ & _ & _ & H1 & H2).
Qed.

Lemma snapshot_authoritative_witness :
  let w' := fst (apply_snapshot 7 (Some (demo_acceptable 3)) [] 2000 demo_world) in
  synchronized (registry w') = true /\
  snapshot_applied 7 [demo_id 3] 2000 (registry demo_world) (registry w').
Proof.
  cbv zeta. destruct (apply_snapshot 7 (Some (demo_acceptable 3)) [] 2000 demo_world) as [w' x] eqn:E.
  assert (x = Ok tt) as -> by (vm_compute in E; congruence).
  exact (snapshot_authoritative demo_sha256 demo_config demo_world [] demo_reachable
    7 (Some (demo_acceptable 3)) [] 2000 w' E).
Defined.

(** C35. The recovery window admits only potential Zcash winners: a recovery candidate names a
    remembered job that is not closed, within its fixed recovery deadline, with a parent hash within
    the job's Zcash target; when there is a current job it is on the same Zcash parent, and unless
    the caller allows otherwise there is one.  The guard counts on a resource of its own: no
    in-flight counter of the registry changes.  The roles change only by the clock: they are those
    held before whose acceptance deadline lies ahead. *)
Theorem recovery_admits_only_winners sha256 cfg w gs (reached : reachable sha256 cfg (w, gs))
    id nonce solution now role allow w' g
    (admitted : begin_zcash_candidate sha256 id nonce solution now role allow w = (w', Ok g)) :
  ga_role g = role /\ ga_job_id g = id /\
  (exists e, entries (registry w) !! id = Some e /\ ga_generation g = re_generation e /\
     (id ∈ winner_recovery (registry w)) /\ now < re_winner_recovery_until_ms e /\ re_state e <> Closed) /\
  (forall c, current_entry (registry w') now = Some c -> ti_zcash_previous_hash_le (bg_tips (ga_generation g)) = zcash_parent c) /\
  (allow = false -> is_Some (current_entry (registry w') now)) /\
  zcash_winner sha256 (ga_generation g) nonce solution = true /\
  (forall id', is_Some (entries (registry w) !! id') -> in_flight w' id' = in_flight w id') /\
  (forall id', id' ∈ roles (registry w') <->
     id' ∈ roles (registry w) /\ exists e, entries (registry w) !! id' = Some e /\ now < re_accept_until_ms e).
Proof.
  pose proof (reachable_SInv _ _ _ reached) as Hs. pose proof Hs as [[Hi Ht] Hh]. cbn in Hi, Hh.
  pose proof (begin_zcash_cases sha256 id nonce solution now role allow w) as Hc. rewrite admitted in Hc.
  set (r1 := prune_winner_recovery now (ticked now (registry w))) in *.
  destruct Hc as (_ & _ & Hcur & e & Ee & Hin & Hlt & Hncl & Hpar & Hwin & -> & ->).
  pose proof (rev_entries _ _ (proj2 (proj2 (ticked_spec now _ Hi)))) as Hevs.
  destruct (entries_evolve_lookup _ _ _ _ Hevs Ee) as (e0 & E0 & V).
  assert (re_generation e = re_generation e0) as Hgen by (unfold re_generation; by rewrite (ev_storage _ _ V)).
  assert (bg_id (re_generation e0) = id) as Hk by exact (eo_key _ _ (ei_entry _ (proj1 Hi) _ _ E0)).
  split; [done|]. split; [unfold ga_job_id; cbn; by rewrite Hgen|]. split.
  { exists e0. split; [done|]. split; [exact Hgen|]. split; [by apply elem_of_keep in Hin as [_ Hin]|].
    rewrite <- (ev_recovery _ _ V). split; [done|]. intros Hcl. by apply Hncl, (ev_closed _ _ V). }
  split. { cbn [registry]. intros c Hc. rewrite Hc in Hpar. cbn in Hpar. by apply bool_decide_eq_true_1 in Hpar. }
  split. { intros ->. by destruct Hcur. }
  split; [exact Hwin|]. split.
  - intros id' [e1 E1]. unfold in_flight. cbn [registry]. rewrite E1.
    pose proof (Hevs id') as Hrel. rewrite E1 in Hrel. change (entries r1) with (entries (ticked now (registry w))).
    destruct (entries (ticked now (registry w)) !! id') as [e2|]; [|done]. cbn in Hrel. cbn. f_equal.
    unfold storage_in_flight. rewrite (ev_storage _ _ Hrel). destruct (re_storage e1) as [res|] eqn:Hst; [|done].
    cbn [live_resource]. destruct (hi_entry _ _ Hh id' e1 res E1 Hst) as [n Hn]. unfold count_at. cbn [heap].
    rewrite lookup_insert_ne; [done|]. intros Heq. pose proof (hi_fresh _ _ Hh _ _ Hn). lia.
  - intros id'. change (roles (registry _)) with (roles (ticked now (registry w))) at 1.
    rewrite (elem_of_ticked_roles now _ _ (proj1 Hi)). split.
    + intros (Hr & e1 & E1 & _ & H1). eauto.
    + intros (Hr & e1 & E1 & H1). split; [done|]. exists e1. split; [done|]. split; [|done].
      destruct (rv_roles _ (proj2 Hi) id' Hr) as (e2 & E2 & H2). congruence.
Qed.

Lemma recovery_admits_only_winners_witness :
  exists w' g, begin_zcash_candidate demo_sha256 (demo_id 1) (demo_hex 32 5) (demo_hex 1344 3) 30000
                 PausedZcashCandidate true demo_world = (w', Ok g) /\ ga_job_id g = demo_id 1.
Proof.
  destruct (begin_zcash_candidate demo_sha256 (demo_id 1) (demo_hex 32 5) (demo_hex 1344 3) 30000
    PausedZcashCandidate true demo_world) as [w' [g|e]] eqn:E.
  2:{ exfalso. vm_compute in E. discriminate E. }
  exists w', g. split; [reflexivity|].
  exact (proj1 (proj2 (recovery_admits_only_winners demo_sha256 demo_config demo_world [] demo_reachable
    (demo_id 1) (demo_hex 32 5) (demo_hex 1344 3) 30000 PausedZcashCandidate true w' g E))).
Defined.
