(* ===== verification/Session.v ===== *)
(** Miner sessions (crates/wcash-pool-core/src/session.rs): ordering of subscription and
    authorization, bounded job announcements, and the preparation of submissions against the
    generation registry. *)

From Stdlib Require Import ZArith Lia.
From stdpp Require Import prelude gmap sorting strings.
From S2P Require Import Prelude Wire Target Nonce LargestRemainder Backend Jobs JobsInv JobsWorld JobsLife JobsProps.
Open Scope Z_scope.

Inductive SessionState : Type := Connected | Subscribed | Authorized | SessionClosed.

#[global] Instance SessionState_eq_dec : EqDecision SessionState.
Proof. solve_decision. Defined.

Inductive SessionError : Type :=
| NilSessionId
| NilIdentity
| InvalidCanonicalLogin
| InvalidAnnouncedJobLimit
| UnexpectedState (required actual : SessionState)
| IdentitySwitch
| MissingIdentity
| MissingNoncePrefix
| LoginMismatch
| JobNotAnnounced (id : JobId)
| AnnouncedJobConflict (id : JobId)
| AnnouncedJobCapacity (maximum : nat)
| RegistryAssignmentMismatch (id : JobId)
| HeaderTimeMismatch (id : JobId)
| NonceProfileMismatch
| SessionNonce (e : NoncePrefixError)
| SessionRegistry (e : JobRegistryError)
| SessionAssignment (e : JobAssignmentError).

Record AuthenticatedWorker : Type := mkAuthenticatedWorker {
  aw_account_id : Uuid;
  aw_worker_id : Uuid;
  aw_canonical_login : string;
  aw_attribution_login : string
}.

#[global] Instance AuthenticatedWorker_eq_dec : EqDecision AuthenticatedWorker.
Proof. solve_decision. Defined.

Definition login_byte (b : Z) : bool :=
  is_ascii_alphanumeric b || ((b =? 45) || (b =? 95) || (b =? 46) || (b =? 58)).

Definition AuthenticatedWorker_new (account_id worker_id : Uuid) (canonical_login : string) :
    result AuthenticatedWorker SessionError :=
  if Uuid_is_nil account_id || Uuid_is_nil worker_id then Err NilIdentity else
  if bool_decide (canonical_login = EmptyString) || (128 <? String.length canonical_login)%nat
     || negb (forallb login_byte (str_bytes canonical_login))
  then Err InvalidCanonicalLogin else
  Ok (mkAuthenticatedWorker account_id worker_id canonical_login canonical_login).

Definition with_submission_login (self : AuthenticatedWorker) (login : string) :
    result AuthenticatedWorker SessionError :=
  let? validated := AuthenticatedWorker_new (aw_account_id self) (aw_worker_id self) login in
  Ok (mkAuthenticatedWorker (aw_account_id self) (aw_worker_id self) (aw_canonical_login validated)
        (aw_attribution_login self)).

Definition backend_identity (self : AuthenticatedWorker) : WorkerIdentity :=
  mkWorkerIdentity (aw_account_id self) (aw_worker_id self) (aw_attribution_login self).

Record MiningSession : Type := mkMiningSession {
  ms_id : Uuid;
  ms_state : SessionState;
  ms_nonce_prefix : option NoncePrefix;
  ms_worker : option AuthenticatedWorker;
  ms_announced_jobs : list JobAssignment;
  ms_winner_recovery_jobs : list JobAssignment;
  ms_maximum_announced_jobs : nat
}.

Definition MiningSession_new (id : Uuid) (maximum_announced_jobs : nat) : result MiningSession SessionError :=
  if Uuid_is_nil id then Err NilSessionId else
  if (maximum_announced_jobs =? 0)%nat then Err InvalidAnnouncedJobLimit else
  Ok (mkMiningSession id Connected None None [] [] maximum_announced_jobs).

Definition SM (A : Type) : Type := M MiningSession SessionError A.

Definition require (required : SessionState) (self : MiningSession) : result unit SessionError :=
  if bool_decide (ms_state self = required) then Ok tt else Err (UnexpectedState required (ms_state self)).

Definition with_jobs (announced recovery : list JobAssignment) (self : MiningSession) : MiningSession :=
  mkMiningSession (ms_id self) (ms_state self) (ms_nonce_prefix self) (ms_worker self) announced recovery
    (ms_maximum_announced_jobs self).

Definition close (self : MiningSession) : MiningSession :=
  mkMiningSession (ms_id self) SessionClosed None None [] [] (ms_maximum_announced_jobs self).

(** [subscribe] draws a prefix from the shared allocator. *)
Definition subscribe : M (MiningSession * NoncePrefixAllocator) SessionError NoncePrefix :=
  fun s => let '(self, allocator) := s in
  match require Connected self with
  | Err e => (s, Err e)
  | Ok _ =>
      match allocate allocator with
      | (allocator, Err e) => ((self, allocator), Err (SessionNonce e))
      | (allocator, Ok prefix) =>
          ((mkMiningSession (ms_id self) Subscribed (Some prefix) (ms_worker self) (ms_announced_jobs self)
              (ms_winner_recovery_jobs self) (ms_maximum_announced_jobs self), allocator), Ok prefix)
      end
  end.

Definition complete_authorization (worker : AuthenticatedWorker) : SM unit :=
  let* self := st_get in
  match ms_state self with
  | Subscribed =>
      st_modify (fun self => mkMiningSession (ms_id self) Authorized (ms_nonce_prefix self) (Some worker)
        (ms_announced_jobs self) (ms_winner_recovery_jobs self) (ms_maximum_announced_jobs self))
  | Authorized =>
      if bool_decide (ms_worker self = Some worker) then st_ret tt else st_throw IdentitySwitch
  | actual => st_throw (UnexpectedState Subscribed actual)
  end.

Definition reject_authorization : SM unit :=
  let* self := st_get in
  do* st_lift (require Subscribed self) in
  st_modify close.

(** [iter().find] on the assignments with the given generation. *)
Definition find_assignment (self : MiningSession) (id : JobId) : option JobAssignment :=
  snd <$> list_find (fun a => ja_generation_id a = id) (ms_announced_jobs self ++ ms_winner_recovery_jobs self).

Definition announce_job (assignment : JobAssignment) : SM unit :=
  let* self := st_get in
  do* st_lift (require Authorized self) in
  match find_assignment self (ja_generation_id assignment) with
  | Some existing =>
      if bool_decide (existing = assignment) then st_ret tt
      else st_throw (AnnouncedJobConflict (ja_generation_id assignment))
  | None =>
      if (length (ms_announced_jobs self) =? ms_maximum_announced_jobs self)%nat
      then st_throw (AnnouncedJobCapacity (ms_maximum_announced_jobs self))
      else st_modify (fun self => with_jobs (assignment :: ms_announced_jobs self) (ms_winner_recovery_jobs self) self)
  end.

Definition announced_target_binding (self : MiningSession) (id : JobId) : option TargetBinding :=
  ja_target <$> find_assignment self id.

Definition not_for (id : JobId) (l : list JobAssignment) : list JobAssignment :=
  filter (fun a => ja_generation_id a <> id) l.

Definition remove_announced_job (id : JobId) (self : MiningSession) : MiningSession * bool :=
  let self' := with_jobs (not_for id (ms_announced_jobs self)) (not_for id (ms_winner_recovery_jobs self)) self in
  (self', negb (length (ms_announced_jobs self') =? length (ms_announced_jobs self))%nat
          || negb (length (ms_winner_recovery_jobs self') =? length (ms_winner_recovery_jobs self))%nat).

(** [VecDeque::remove(index)], [pop_back] at the limit, [push_front]. *)
Definition retire_announced_job (id : JobId) (self : MiningSession) : MiningSession :=
  match list_find (fun a => ja_generation_id a = id) (ms_announced_jobs self) with
  | None => self
  | Some (index, assignment) =>
      let recovery := ms_winner_recovery_jobs self in
      let kept := if (length recovery =? MAX_ZCASH_WINNER_RECOVERY_JOBS)%nat
                  then take (length recovery - 1) recovery else recovery in
      with_jobs (delete index (ms_announced_jobs self)) (assignment :: kept) self
  end.

Definition retain_winner_recovery_jobs (ids : list JobId) (self : MiningSession) : MiningSession :=
  with_jobs (ms_announced_jobs self)
    (filter (fun a => ja_generation_id a ∈ ids) (ms_winner_recovery_jobs self)) self.

Definition notification_write_failed (self : MiningSession) : MiningSession := close self.

Record SubmissionContext : Type := mkSubmissionContext {
  sc_session_id : Uuid;
  sc_identity : WorkerIdentity;
  sc_target_le : TargetLe;
  sc_time : Hex4;
  sc_nonce : Hex32;
  sc_solution : Hex1344;
  sc_admission : GenerationAdmission
}.

Definition lift_registry {A} (m : M World JobRegistryError A) : M World SessionError A :=
  fun w => let '(w', x) := m w in (w', map_err SessionRegistry x).

(** The assignment and header-time checks against a generation. *)
Definition check_generation (generation : BackendGeneration) (assignment : JobAssignment) (job_id : JobId)
    (submitted_time : Hex4) : result unit SessionError :=
  let? _ := map_err (fun _ => RegistryAssignmentMismatch job_id) (JobAssignment_new generation (ja_target assignment)) in
  if negb (bool_decide (header_time generation = submitted_time)) then Err (HeaderTimeMismatch job_id) else Ok tt.

Section Submission.
Variable sha256 : list Z -> list Z.

(** The checks on the retained generation that precede a recovery admission. *)
Definition check_retained (assignment : JobAssignment) (job_id : JobId) (submitted_time : Hex4) :
    M World SessionError unit :=
  let* self := lift_registry get_registry in
  let* retained := st_lift (ok_or (generation self job_id) (SessionRegistry (UnknownJob job_id))) in
  st_lift (check_generation retained assignment job_id submitted_time).

Definition admit_submission (assignment : JobAssignment) (job_id : JobId) (submitted_time : Hex4)
    (nonce : Hex32) (solution : Hex1344) (now_ms : Z) (paused_only : bool) :
    M World SessionError GenerationAdmission :=
  if paused_only then
    do* check_retained assignment job_id submitted_time in
    lift_registry (begin_paused_zcash_candidate sha256 job_id nonce solution now_ms)
  else
    fun w => match begin_admission job_id now_ms w with
             | (w, Ok admission) => (w, Ok admission)
             | (w, Err (StaleJob _)) =>
                 (do* check_retained assignment job_id submitted_time in
                  lift_registry (begin_zcash_winner_recovery sha256 job_id nonce solution now_ms)) w
             | (w, Err error) => (w, Err (SessionRegistry error))
             end.

(** A guard that is not returned is dropped. *)
Definition prepare_submission_mode (self : MiningSession) (claimed_login : string) (job_id : JobId)
    (submitted_time : Hex4) (nonce_suffix : NonceSuffix) (solution : Hex1344) (now_ms : Z)
    (paused_only : bool) : M World SessionError SubmissionContext :=
  do* st_lift (require Authorized self) in
  let* worker := st_lift (ok_or (ms_worker self) MissingIdentity) in
  let* prefix := st_lift (ok_or (ms_nonce_prefix self) MissingNoncePrefix) in
  if negb (bool_decide (claimed_login = aw_canonical_login worker)) then st_throw LoginMismatch else
  let* assignment := st_lift (ok_or (find_assignment self job_id) (JobNotAnnounced job_id)) in
  let* nonce := st_lift (map_err (fun _ => NonceProfileMismatch) (join_nonce prefix nonce_suffix)) in
  let* admission := admit_submission assignment job_id submitted_time nonce solution now_ms paused_only in
  match check_generation (ga_generation admission) assignment job_id submitted_time with
  | Err error => do* st_modify (drop_admission admission) in st_throw error
  | Ok _ =>
      st_ret (mkSubmissionContext (ms_id self) (backend_identity worker)
                (ShareTarget_to_backend (tb_target (ja_target assignment))) submitted_time nonce solution admission)
  end.

Definition prepare_submission self claimed_login job_id submitted_time nonce_suffix solution now_ms :=
  prepare_submission_mode self claimed_login job_id submitted_time nonce_suffix solution now_ms false.
Definition prepare_paused_zcash_candidate self claimed_login job_id submitted_time nonce_suffix solution now_ms :=
  prepare_submission_mode self claimed_login job_id submitted_time nonce_suffix solution now_ms true.

(** [self] is consumed: the old guard is dropped when it is replaced and when the call fails. *)
Definition refilter_zcash_candidate (self : SubmissionContext) (now_ms : Z) (recovery_only : bool) :
    M World SessionError SubmissionContext :=
  fun w =>
  let id := ga_job_id (sc_admission self) in
  let candidate :=
    if is_paused_zcash_candidate (sc_admission self)
       || (negb (is_winner_recovery (sc_admission self)) && recovery_only)
    then begin_paused_zcash_candidate sha256 id (sc_nonce self) (sc_solution self) now_ms
    else if recovery_only
    then begin_historical_zcash_candidate_during_pause sha256 id (sc_nonce self) (sc_solution self) now_ms
    else begin_zcash_winner_recovery sha256 id (sc_nonce self) (sc_solution self) now_ms in
  match lift_registry candidate w with
  | (w, Err error) => (drop_admission (sc_admission self) w, Err error)
  | (w, Ok admission) =>
      if negb (bool_decide (bg_descriptor (ga_generation admission) = bg_descriptor (ga_generation (sc_admission self))))
      then (drop_admission (sc_admission self) (drop_admission admission w), Err (RegistryAssignmentMismatch id))
      else (drop_admission (sc_admission self) w,
            Ok (mkSubmissionContext (sc_session_id self) (sc_identity self) (sc_target_le self) (sc_time self)
                  (sc_nonce self) (sc_solution self) admission))
  end.
End Submission.

(** ** Life of a session *)

Inductive session_op : Type :=
| OpSubscribe (allocator : NoncePrefixAllocator)
| OpAuthorize (worker : AuthenticatedWorker)
| OpReject
| OpAnnounce (assignment : JobAssignment)
| OpRemove (id : JobId)
| OpRetire (id : JobId)
| OpRetain (ids : list JobId)
| OpWriteFailed
| OpClose.

Definition session_step (self : MiningSession) (op : session_op) : MiningSession :=
  match op with
  | OpSubscribe allocator => fst (fst (subscribe (self, allocator)))
  | OpAuthorize worker => fst (complete_authorization worker self)
  | OpReject => fst (reject_authorization self)
  | OpAnnounce assignment => fst (announce_job assignment self)
  | OpRemove id => fst (remove_announced_job id self)
  | OpRetire id => retire_announced_job id self
  | OpRetain ids => retain_winner_recovery_jobs ids self
  | OpWriteFailed => notification_write_failed self
  | OpClose => close self
  end.

Definition jobs_of (self : MiningSession) : list JobAssignment := ms_announced_jobs self ++ ms_winner_recovery_jobs self.

Record session_inv (self : MiningSession) : Prop := {
  si_phase :
    match ms_state self with
    | Connected => ms_nonce_prefix self = None /\ ms_worker self = None /\ jobs_of self = []
    | Subscribed => is_Some (ms_nonce_prefix self) /\ ms_worker self = None /\ jobs_of self = []
    | Authorized => is_Some (ms_nonce_prefix self) /\ is_Some (ms_worker self)
    | SessionClosed => ms_nonce_prefix self = None /\ ms_worker self = None /\ jobs_of self = []
    end;
  si_nodup : NoDup (ja_generation_id <$> jobs_of self);
  si_announced : (length (ms_announced_jobs self) <= ms_maximum_announced_jobs self)%nat;
  si_recovery : (length (ms_winner_recovery_jobs self) <= MAX_ZCASH_WINNER_RECOVERY_JOBS)%nat
}.

(** What one operation may do to the identity, the prefix and the assignments. *)
Record session_evolves (self self' : MiningSession) : Prop := {
  se_id : ms_id self' = ms_id self;
  se_closed : ms_state self = SessionClosed -> ms_state self' = SessionClosed;
  se_worker : forall a, ms_worker self = Some a -> ms_worker self' = Some a \/ ms_state self' = SessionClosed;
  se_prefix : forall p, ms_nonce_prefix self = Some p -> ms_nonce_prefix self' = Some p \/ ms_state self' = SessionClosed
}.

#[export] Instance session_evolves_preorder : PreOrder session_evolves.
Proof.
  split; [intros s; split; auto|]. intros s1 s2 s3 [i1 c1 w1 p1] [i2 c2 w2 p2]. split; [congruence|auto| |].
  - intros a Ha. destruct (w1 a Ha) as [H|H]; [by apply w2|right; auto].
  - intros p Hp. destruct (p1 p Hp) as [H|H]; [by apply p2|right; auto].
Qed.

Lemma NoDup_fewer {A} (l k : list A) : l ⊆+ k -> NoDup k -> NoDup l.
Proof. intros [k' ->]%submseteq_Permutation. by intros [? _]%NoDup_app. Qed.

(** A selection of the jobs keeps the invariant. *)
Lemma with_jobs_inv self l1 l2 :
  session_inv self -> l1 ⊆+ ms_announced_jobs self -> l2 ⊆+ ms_winner_recovery_jobs self ->
  session_inv (with_jobs l1 l2 self).
Proof.
  intros [H1 H2 H3 H4] S1 S2. assert (l1 ++ l2 ⊆+ jobs_of self) as Hs by by apply submseteq_app.
  split; cbn.
  - unfold jobs_of in *. cbn. destruct (ms_state self); [| |done|];
      destruct H1 as (A & B & C); rewrite C in Hs; apply submseteq_nil_r in Hs; done.
  - eapply NoDup_fewer; [|exact H2]. by apply fmap_submseteq.
  - apply submseteq_length in S1. lia.
  - apply submseteq_length in S2. lia.
Qed.

Lemma close_inv self : session_inv self -> session_inv (close self).
Proof. intros Hi. split; cbn; [done|apply NoDup_nil_2|lia|lia]. Qed.

Lemma find_assignment_None self id :
  find_assignment self id = None <-> id ∉ ja_generation_id <$> jobs_of self.
Proof.
  unfold find_assignment. fold (jobs_of self). rewrite fmap_None, list_find_None, Forall_forall.
  rewrite list_elem_of_fmap. naive_solver.
Qed.

Lemma find_assignment_Some self id a : session_inv self ->
  find_assignment self id = Some a <-> (a ∈ jobs_of self) /\ ja_generation_id a = id.
Proof.
  intros Hi. unfold find_assignment. fold (jobs_of self). split.
  - intros H. apply fmap_Some in H as ([i b] & H & ->). apply list_find_Some in H as (Hl & Hb & _).
    split; [by eapply list_elem_of_lookup_2|done].
  - intros [Hin Hid]. destruct (list_find (fun b => ja_generation_id b = id) (jobs_of self)) as [[i b]|] eqn:E.
    + apply list_find_Some in E as (Hl & Hb & _). cbn. f_equal.
      apply list_elem_of_lookup in Hin as [j Hj].
      assert (i = j) as ->; [|congruence].
      eapply (NoDup_lookup _ i j id (si_nodup _ Hi)); rewrite list_lookup_fmap, ?Hl, ?Hj; cbn; congruence.
    + apply list_find_None in E. rewrite Forall_forall in E. by destruct (E a Hin).
Qed.

Lemma retire_inv id self : session_inv self -> session_inv (retire_announced_job id self).
Proof.
  intros Hi. unfold retire_announced_job.
  destruct (list_find (fun a => ja_generation_id a = id) (ms_announced_jobs self)) as [[i a]|] eqn:E; [|done].
  apply list_find_Some in E as (Hl & Ha & _). set (kept := if (_ =? _)%nat then _ else _).
  assert (kept ⊆+ ms_winner_recovery_jobs self /\ (length kept < MAX_ZCASH_WINNER_RECOVERY_JOBS)%nat) as [Hk Hlen].
  { pose proof (si_recovery _ Hi) as Hr. unfold kept, MAX_ZCASH_WINNER_RECOVERY_JOBS in *.
    destruct (Nat.eqb_spec (length (ms_winner_recovery_jobs self)) 32).
    - split; [apply sublist_submseteq, sublist_take|rewrite length_take; lia].
    - split; [done|lia]. }
  assert (delete i (ms_announced_jobs self) ++ a :: kept ⊆+ jobs_of self) as Hs.
  { unfold jobs_of. etrans; [apply Permutation_submseteq; symmetry; apply Permutation_middle|].
    rewrite app_comm_cons. apply submseteq_app; [|done].
    apply Permutation_submseteq. symmetry. by apply delete_Permutation. }
  destruct Hi as [H1 H2 H3 H4]. split; cbn.
  - destruct (ms_state self); [| |done|]; destruct H1 as (_ & _ & C); rewrite C in Hs;
      apply submseteq_nil_r in Hs; by destruct (delete i (ms_announced_jobs self)).
  - eapply NoDup_fewer; [|exact H2]. by apply fmap_submseteq.
  - rewrite length_delete by eauto. lia.
  - lia.
Qed.

Lemma announce_inv a self : session_inv self -> session_inv (fst (announce_job a self)).
Proof.
  intros Hi. unfold announce_job, require. st_unfold. case_bool_decide as Hst; [|done].
  destruct (find_assignment self (ja_generation_id a)) as [b|] eqn:E; [by case_bool_decide|].
  destruct (Nat.eqb_spec (length (ms_announced_jobs self)) (ms_maximum_announced_jobs self)); [done|].
  apply find_assignment_None in E. destruct Hi as [H1 H2 H3 H4]. split; cbn.
  - by rewrite Hst in *.
  - constructor; [exact E|exact H2].
  - lia.
  - done.
Qed.

Lemma session_step_inv self op : session_inv self -> session_inv (session_step self op).
Proof.
  intros Hi. destruct op as [al|wk| |a|id|id|ids| |]; cbn [session_step].
  - unfold subscribe, require. case_bool_decide as Hst; [|done].
    destruct (allocate al) as [al' [p|e]]; [|done]. destruct Hi as [H1 H2 H3 H4].
    rewrite Hst in H1. destruct H1 as (_ & Hw & Hj). split; cbn; try done; by eauto.
  - unfold complete_authorization. st_unfold. destruct (ms_state self) eqn:Hst; try done; [|by case_bool_decide].
    destruct Hi as [H1 H2 H3 H4]. rewrite Hst in H1. destruct H1 as (Hp & _ & Hj). split; cbn; try done; by eauto.
  - unfold reject_authorization, require. st_unfold. case_bool_decide; [by apply close_inv|done].
  - by apply announce_inv.
  - by apply with_jobs_inv; [|apply sublist_submseteq, sublist_filter..].
  - by apply retire_inv.
  - by apply with_jobs_inv; [|done|apply sublist_submseteq, sublist_filter].
  - by apply close_inv.
  - by apply close_inv.
Qed.

Lemma session_step_evolves self op : session_inv self -> session_evolves self (session_step self op).
Proof.
  intros Hi. pose proof (si_phase _ Hi) as Hp. destruct op as [al|wk| |a|id|id|ids| |]; cbn [session_step].
  - unfold subscribe, require. case_bool_decide as Hst; [|reflexivity].
    destruct (allocate al) as [al' [p|e]]; [|reflexivity]. rewrite Hst in Hp. destruct Hp as (Hn & Hw & _).
    split; cbn; congruence.
  - unfold complete_authorization. st_unfold. destruct (ms_state self) eqn:Hst; cbn; try reflexivity;
      [|case_bool_decide; reflexivity]. destruct Hp as (_ & Hw & _). split; cbn; [done|congruence|congruence|auto].
  - unfold reject_authorization, require. st_unfold. case_bool_decide; cbn; [split; cbn; auto|reflexivity].
  - unfold announce_job, require. st_unfold. case_bool_decide as Hst; [|reflexivity].
    destruct (find_assignment self (ja_generation_id a)); [case_bool_decide; reflexivity|].
    destruct (_ =? _)%nat; cbn; [reflexivity|split; cbn; auto].
  - split; cbn; auto.
  - unfold retire_announced_job. destruct (list_find _ _) as [[i a]|]; [split; cbn; auto|reflexivity].
  - split; cbn; auto.
  - split; cbn; auto.
  - split; cbn; auto.
Qed.

Lemma session_run ops self : session_inv self ->
  session_inv (foldl session_step self ops) /\ session_evolves self (foldl session_step self ops).
Proof.
  revert self; induction ops as [|op ops IH]; intros self Hi; cbn; [by split|].
  destruct (IH _ (session_step_inv self op Hi)) as [H1 H2]. split; [done|].
  etrans; [by apply session_step_evolves|done].
Qed.

Lemma MiningSession_new_inv id limit self : MiningSession_new id limit = Ok self -> session_inv self.
Proof.
  unfold MiningSession_new. repeat case_match; try done. intros [= <-].
  split; cbn; [done|apply NoDup_nil_2|lia|unfold MAX_ZCASH_WINNER_RECOVERY_JOBS; lia].
Qed.

(** ** Identities the session hands to the backend *)

Lemma new_worker_valid a w login worker :
  AuthenticatedWorker_new a w login = Ok worker ->
  WorkerIdentity_validate (backend_identity worker) = Ok tt /\
  aw_canonical_login worker = login /\ aw_attribution_login worker = login.
Proof.
  unfold AuthenticatedWorker_new. destruct (Uuid_is_nil a || Uuid_is_nil w) eqn:Hnil; [done|].
  destruct (_ || _ || _) eqn:Hl; [done|]. intros [= <-]. split; [|done].
  apply orb_false_iff in Hnil as [Ha Hw]. apply orb_false_iff in Hl as [Hl Hb]. apply orb_false_iff in Hl as [He Hlen].
  apply negb_false_iff in Hb. apply Nat.ltb_ge in Hlen. apply bool_decide_eq_false_1 in He.
  assert (length (str_bytes login) = String.length login) as Hlb.
  { unfold str_bytes. rewrite length_fmap. clear. induction login as [|c s IH]; [done|]. cbn. by rewrite IH. }
  assert (existsb is_ascii_control (str_bytes login) = false) as Hctl.
  { apply not_true_iff_false. intros (b & Hin & Hc)%existsb_exists. rewrite forallb_forall in Hb.
    specialize (Hb b Hin). unfold is_ascii_control, login_byte, is_ascii_alphanumeric, is_ascii_digit in *. lia. }
  unfold WorkerIdentity_validate, backend_identity, require_non_nil_uuid.
  cbn [wi_account_id wi_worker_id wi_label aw_account_id aw_worker_id aw_attribution_login]. rewrite Ha, Hw.
  unfold check at 1 2. cbn [negb]. unfold validate_worker_label, validate_bounded_text. rewrite Hlb, Hctl.
  assert ((1 <=? String.length login)%nat = true) as -> by (apply Nat.leb_le; destruct login; [done|cbn; lia]).
  assert ((String.length login <=? 128)%nat = true) as -> by (by apply Nat.leb_le). cbn [negb andb].
  apply check_Ok, forallb_forall. intros b Hin. rewrite forallb_forall in Hb. specialize (Hb b Hin).
  unfold login_byte in Hb. destruct (is_ascii_alphanumeric b); [done|]. cbn [orb] in *. lia.
Qed.

Lemma submission_login_valid self login worker :
  with_submission_login self login = Ok worker ->
  backend_identity worker = backend_identity self /\ aw_canonical_login worker = login.
Proof.
  unfold with_submission_login. intros H. apply bind_Ok in H as (v & Hv & [= <-]).
  apply new_worker_valid in Hv as (_ & Hc & _). done.
Qed.

(** The workers the constructors can make: the fields of [AuthenticatedWorker] are private. *)
Inductive authentic : AuthenticatedWorker -> Prop :=
| authentic_new a w login worker : AuthenticatedWorker_new a w login = Ok worker -> authentic worker
| authentic_alias self login worker :
    authentic self -> with_submission_login self login = Ok worker -> authentic worker.

Lemma authentic_valid worker : authentic worker -> WorkerIdentity_validate (backend_identity worker) = Ok tt.
Proof.
  induction 1 as [a w login worker H|self login worker _ IH H]; [by eapply new_worker_valid|].
  by apply submission_login_valid in H as [-> _].
Qed.

(** ** Assignments *)

Lemma session_step_jobs self op a :
  a ∈ jobs_of (session_step self op) ->
  (a ∈ jobs_of self) \/ (op = OpAnnounce a /\ find_assignment self (ja_generation_id a) = None).
Proof.
  unfold jobs_of. destruct op as [al|wk| |b|id|id|ids| |]; cbn [session_step].
  - unfold subscribe, require. case_bool_decide; [|by left]. destruct (allocate al) as [al' [p|e]]; by left.
  - unfold complete_authorization. st_unfold. destruct (ms_state self); [by left..| |by left].
    case_bool_decide; by left.
  - unfold reject_authorization, require. st_unfold. case_bool_decide; [by intros ?%elem_of_nil|by left].
  - unfold announce_job, require. st_unfold. case_bool_decide as Hst; [|by left].
    destruct (find_assignment self (ja_generation_id b)) eqn:E; [case_bool_decide; by left|].
    destruct (_ =? _)%nat; [by left|]. intros [->|Hin]%elem_of_cons; [by right|by left].
  - cbn. rewrite !elem_of_app. unfold not_for. rewrite !list_elem_of_filter. naive_solver.
  - unfold retire_announced_job. destruct (list_find _ _) as [[i b]|] eqn:E; [|by left].
    apply list_find_Some in E as (Hl & _ & _). cbn. rewrite !elem_of_app, elem_of_cons.
    intros [Hin|[->|Hin]]; left.
    + left. eapply elem_of_submseteq; [exact Hin|]. apply sublist_submseteq, sublist_delete.
    + left. by eapply list_elem_of_lookup_2.
    + right. destruct (_ =? _)%nat; [|done]. by eapply elem_of_submseteq; [exact Hin|apply sublist_submseteq, sublist_take].
  - cbn. rewrite !elem_of_app, list_elem_of_filter. naive_solver.
  - by intros ?%elem_of_nil.
  - by intros ?%elem_of_nil.
Qed.

Lemma assignment_stable self op id a b : session_inv self ->
  find_assignment self id = Some a -> find_assignment (session_step self op) id = Some b -> b = a.
Proof.
  intros Hi Ha Hb. pose proof (session_step_inv self op Hi) as Hi'.
  apply (find_assignment_Some _ _ _ Hi') in Hb as [Hb Hid].
  destruct (session_step_jobs _ _ _ Hb) as [Hin|[_ Hn]].
  - assert (find_assignment self id = Some b) as Hb' by (by apply (find_assignment_Some _ _ _ Hi)). congruence.
  - rewrite Hid in Hn. congruence.
Qed.

(** ** Submissions against the registry *)

Section Submissions.
Context (sha256 : list Z -> list Z).

(** The guards of a run: one more after a success, none after a refusal. *)
Definition guarded {A E} (guard : A -> GenerationAdmission) (w : World) (gs : list GenerationAdmission)
    (outcome : World * result A E) : Prop :=
  rtc (step sha256) (w, gs) (fst outcome, match snd outcome with Ok a => guard a :: gs | Err _ => gs end).

Lemma begin_admission_guarded id now w gs : guarded (fun g => g) w gs (begin_admission id now w).
Proof.
  unfold guarded. destruct (begin_admission id now w) as [w' [g|e]] eqn:E; apply rtc_once; cbn.
  - by eapply step_admit.
  - by eapply step_refuse.
Qed.

Lemma candidate_guarded id nonce solution now role allow w gs : role <> Ordinary ->
  guarded (fun g => g) w gs (lift_registry (begin_zcash_candidate sha256 id nonce solution now role allow) w).
Proof.
  intros Hr. unfold guarded, lift_registry.
  destruct (begin_zcash_candidate sha256 id nonce solution now role allow w) as [w' [g|e]] eqn:E; apply rtc_once; cbn.
  - by eapply step_candidate.
  - by eapply step_reject.
Qed.

(** A refusal followed by another attempt. *)
Lemma guarded_after {A E F} (guard : A -> GenerationAdmission) w w1 gs (e : E) (outcome : World * result A F) :
  guarded (A := A) guard w gs (w1, Err e) -> guarded guard w1 gs outcome -> guarded guard w gs outcome.
Proof. unfold guarded. cbn. intros H1 H2. exact (rtc_trans _ _ _ H1 H2). Qed.

Lemma check_retained_eval a job t w :
  exists x, check_retained a job t w = (w, x) /\
    (x = Ok tt -> exists g, generation (registry w) job = Some g /\ check_generation g a job t = Ok tt).
Proof.
  unfold check_retained, lift_registry, get_registry, on_registry. st_unfold. destruct w as [r h n]. cbn [registry heap next_addr].
  destruct (generation r job) as [g|]; [|eexists; split; [reflexivity|discriminate]].
  eexists. split; [reflexivity|]. intros Hx. by exists g.
Qed.

Lemma recovery_guarded a job t nonce solution now role allow w gs : role <> Ordinary ->
  guarded (fun g => g) w gs
    ((do* check_retained a job t in
      lift_registry (begin_zcash_candidate sha256 job nonce solution now role allow)) w).
Proof.
  intros Hr. unfold st_bind. destruct (check_retained_eval a job t w) as (x & -> & _).
  destruct x as [[]|e]; [by apply candidate_guarded|]. unfold guarded. cbn. reflexivity.
Qed.

Lemma admit_submission_guarded a job t nonce solution now paused w gs :
  guarded (fun g => g) w gs (admit_submission sha256 a job t nonce solution now paused w).
Proof.
  unfold admit_submission. destruct paused; [by apply recovery_guarded|].
  pose proof (begin_admission_guarded job now w gs) as H.
  destruct (begin_admission job now w) as [w1 [g|e]]; [exact H|].
  assert (forall e', guarded (fun g => g) w gs (w1, Err (SessionRegistry e') : result GenerationAdmission SessionError))
    as He by (intros; exact H).
  destruct e; try apply He. eapply guarded_after; [exact H|]. by apply recovery_guarded.
Qed.

Lemma prepare_guarded self login job t suffix solution now paused w gs :
  guarded sc_admission w gs (prepare_submission_mode sha256 self login job t suffix solution now paused w).
Proof.
  unfold prepare_submission_mode, require. st_unfold.
  case_bool_decide as Hst; [|apply rtc_refl]. destruct (ms_worker self) as [worker|]; [|apply rtc_refl].
  destruct (ms_nonce_prefix self) as [prefix|]; [|apply rtc_refl]. destruct (negb _); [apply rtc_refl|].
  destruct (find_assignment self job) as [a|]; [|apply rtc_refl].
  destruct (join_nonce _ _) as [nonce|]; [|apply rtc_refl].
  pose proof (admit_submission_guarded a job t nonce solution now paused w gs) as H.
  destruct (admit_submission _ _ _ _ _ _ _ _ _) as [w' [g|e]]; [|exact H].
  destruct (check_generation (ga_generation g) a job t) as [[]|e]; [exact H|].
  eapply rtc_r; [exact H|]. cbn. by apply step_drop.
Qed.

Lemma refilter_guarded ctx now only w gs :
  let outcome := refilter_zcash_candidate sha256 ctx now only w in
  rtc (step sha256) (w, sc_admission ctx :: gs)
    (fst outcome, match snd outcome with Ok ctx' => sc_admission ctx' :: gs | Err _ => gs end).
Proof.
  cbv zeta. unfold refilter_zcash_candidate. set (m := if (_ || _)%bool then _ else _).
  assert (guarded (fun g => g) w (sc_admission ctx :: gs) (lift_registry m w)) as H.
  { unfold m. destruct (_ || _)%bool; [|destruct only]; by apply candidate_guarded. }
  clearbody m. destruct (lift_registry m w) as [w' [g|e]]; cbn in H.
  - destruct (negb _); cbn.
    + eapply rtc_r; [eapply rtc_r; [exact H|]|by apply step_drop].
      by apply (step_drop _ g _ (sc_admission ctx :: gs)).
    + eapply rtc_r; [exact H|]. apply step_drop, Permutation_swap.
  - eapply rtc_r; [exact H|]. cbn. by apply step_drop.
Qed.

(** ** The generation behind an admission *)

Lemma generation_before w w1 gs id g : SInv (w, gs) ->
  entries_evolve (entries (registry w)) (entries (registry w1)) ->
  generation (registry w1) id = Some g -> generation (registry w) id = Some g /\ bg_id g = id.
Proof.
  intros Hs Hv. unfold generation. destruct (entries (registry w1) !! id) as [e|] eqn:E; [|done]. intros [= <-].
  destruct (entries_evolve_lookup _ _ _ _ Hv E) as (e0 & E0 & V). rewrite E0. cbn.
  pose proof (eo_key _ _ (ei_entry _ (proj1 (proj1 (proj1 Hs))) _ _ E0)) as Hk.
  unfold re_generation in *. by rewrite (ev_storage _ _ V).
Qed.

(** What a guard given out for a job carries; a recovery guard also needs a winning proof. *)
Record admitted_for (w : World) (job : JobId) (nonce : Hex32) (solution : Hex1344) (g : GenerationAdmission) : Prop := {
  af_job : ga_job_id g = job;
  af_generation : generation (registry w) job = Some (ga_generation g);
  af_winner : ga_role g <> Ordinary -> zcash_winner sha256 (ga_generation g) nonce solution = true
}.

Lemma ticked_entries_evolve w gs now : SInv (w, gs) ->
  entries_evolve (entries (registry w)) (entries (ticked now (registry w))).
Proof. intros [[Hi _] _]. exact (rev_entries _ _ (proj2 (proj2 (ticked_spec now _ Hi)))). Qed.

Lemma admission_admitted id nonce solution now w w' gs g :
  SInv (w, gs) -> begin_admission id now w = (w', Ok g) ->
  admitted_for w id nonce solution g /\ ga_role g = Ordinary.
Proof.
  intros Hs E. pose proof (begin_admission_cases id now w) as Hc. rewrite E in Hc.
  destruct Hc as (_ & _ & e & res & Ee & _ & Hst & -> & _ & _).
  assert (generation (registry w) id = Some (gr_generation res) /\ bg_id (gr_generation res) = id) as [H1 H2].
  { apply (generation_before w (mkWorld (ticked now (registry w)) (heap w) (next_addr w)) gs);
      [done|by eapply ticked_entries_evolve|].
    unfold generation, re_generation. cbn [registry]. by rewrite Ee; cbn; rewrite Hst. }
  by split; [split|].
Qed.

Lemma candidate_admitted id nonce solution now role allow w w' gs g :
  SInv (w, gs) -> begin_zcash_candidate sha256 id nonce solution now role allow w = (w', Ok g) ->
  admitted_for w id nonce solution g /\ ga_role g = role.
Proof.
  intros Hs E. pose proof (begin_zcash_cases sha256 id nonce solution now role allow w) as Hc. rewrite E in Hc.
  destruct Hc as (_ & _ & _ & e & Ee & _ & _ & _ & _ & Hwin & -> & _).
  assert (generation (registry w) id = Some (re_generation e) /\ bg_id (re_generation e) = id) as [H1 H2].
  { apply (generation_before w (mkWorld (ticked now (registry w)) (heap w) (next_addr w)) gs);
      [done|by eapply ticked_entries_evolve|].
    unfold generation. change (entries _) with (entries (prune_winner_recovery now (ticked now (registry w)))).
    by rewrite Ee. }
  by split; [split|].
Qed.

Lemma recovery_admitted a job t nonce solution now role allow w w' gs g :
  SInv (w, gs) ->
  (do* check_retained a job t in
   lift_registry (begin_zcash_candidate sha256 job nonce solution now role allow)) w = (w', Ok g) ->
  admitted_for w job nonce solution g /\ ga_role g = role.
Proof.
  intros Hs. unfold st_bind. destruct (check_retained_eval a job t w) as (x & -> & _). destruct x as [[]|e]; [|done].
  unfold lift_registry. destruct (begin_zcash_candidate sha256 job nonce solution now role allow w) as [w1 [g1|e]] eqn:E;
    cbn; [|done]. intros [= <- <-]. by eapply candidate_admitted.
Qed.

Lemma refused_before id now w w1 gs error nonce solution g :
  SInv (w, gs) -> begin_admission id now w = (w1, Err error) ->
  SInv (w1, gs) /\ (admitted_for w1 id nonce solution g -> admitted_for w id nonce solution g).
Proof.
  intros Hs E. pose proof (step_SInv sha256 _ _ (step_refuse sha256 id now w w1 gs error E) Hs) as Hs1.
  split; [done|]. intros [H1 H2 H3]. split; [done| |done].
  pose proof (begin_admission_cases id now w) as Hc. rewrite E in Hc. destruct Hc as [-> _].
  eapply generation_before in H2 as [H2 _]; [exact H2|exact Hs|]. cbn [registry].
  destruct (moved_backwards _ now); [|by eapply ticked_entries_evolve]. exact (rev_entries _ _ (suspend_revolves _)).
Qed.

Lemma admit_submission_admitted a job t nonce solution now paused w w' gs g :
  SInv (w, gs) -> admit_submission sha256 a job t nonce solution now paused w = (w', Ok g) ->
  admitted_for w job nonce solution g /\
  (if paused then ga_role g = PausedZcashCandidate else ga_role g = Ordinary \/ ga_role g = HistoricalZcashRecovery).
Proof.
  intros Hs. unfold admit_submission. destruct paused; [by eapply recovery_admitted|].
  destruct (begin_admission job now w) as [w1 [g1|e]] eqn:E.
  - intros [= <- <-]. destruct (admission_admitted _ nonce solution _ _ _ _ _ Hs E) as [H1 H2]. by split; [|left].
  - destruct e; try done. intros Hr. destruct (refused_before _ _ _ _ _ _ nonce solution g Hs E) as [Hs1 Hb].
    eapply recovery_admitted in Hr as [H1 H2]; [|exact Hs1]. split; [by apply Hb|by right].
Qed.
End Submissions.

Lemma check_generation_Ok g a job t :
  check_generation g a job t = Ok tt <->
  header_time g = t /\ wcash_network (tb_bounds (ja_target a)) = bg_wcash_network_target g /\
  zcash_network (tb_bounds (ja_target a)) = bg_zcash_network_target g.
Proof.
  unfold check_generation, JobAssignment_new. repeat case_bool_decide; cbn; naive_solver.
Qed.

(** ** A concrete session *)

Definition demo_worker : AuthenticatedWorker := mkAuthenticatedWorker 7 8 "rig.1" "rig.1".

(** The binding of a session to the networks of the demo job. *)
Definition demo_assignment : JobAssignment :=
  match generation (registry demo_world) (demo_id 1) with
  | Some g =>
      let t := bg_zcash_network_target g in
      mkJobAssignment (demo_id 1) (mkTargetBinding 1 t (mkTargetBounds (bg_wcash_network_target g) t t t))
  | None =>
      let t := ShareTarget_MAX in
      mkJobAssignment (demo_id 1) (mkTargetBinding 1 t (mkTargetBounds t t t t))
  end.

Definition demo_ops : list session_op :=
  [OpSubscribe (demo_allocator 0 2); OpAuthorize demo_worker; OpAnnounce demo_assignment].

Definition demo_connected : MiningSession := mkMiningSession 3 Connected None None [] [] 4.
Definition demo_session : MiningSession := foldl session_step demo_connected demo_ops.

Definition demo_time : Hex4 :=
  match generation (registry demo_world) (demo_id 1) with Some g => header_time g | None => demo_hex 4 0 end.

(** ** Properties *)

(** Life of a session: whatever the sequence of operations, a session that was created is in
    one of its four phases with the prefix, the identity and the jobs that phase allows, holds each
    job at most once and within its limits.  Later operations never reopen a closed session, never
    switch the identity or the nonce prefix of an open one, and no operation rebinds a job that
    is already assigned. *)
Theorem session_lifecycle id limit self0 ops more op
    (created : MiningSession_new id limit = Ok self0) :
  let self := foldl session_step self0 ops in
  session_inv self /\ session_evolves self (foldl session_step self more) /\
  (forall job a b, find_assignment self job = Some a ->
     find_assignment (session_step self op) job = Some b -> b = a).
Proof.
  cbv zeta. destruct (session_run ops self0 (MiningSession_new_inv _ _ _ created)) as [Hi _].
  split; [done|]. split; [by apply session_run|]. intros job a b. by apply assignment_stable.
Qed.

Lemma session_lifecycle_witness :
  ms_worker demo_session = Some demo_worker /\
  session_evolves demo_session (foldl session_step demo_session [OpRetire (demo_id 1); OpAuthorize demo_worker]).
Proof.
  split; [vm_compute; reflexivity|].
  exact (proj1 (proj2 (session_lifecycle 3 4 demo_connected demo_ops
    [OpRetire (demo_id 1); OpAuthorize demo_worker] OpClose eq_refl))).
Defined.

(** C28. A prepared submission is exactly the authorised one: the session is authorised, the
    claimed login is the worker's, the identity handed on is the registered one and valid for the
    backend, the target is the one announced for this job, the nonce extends the session's prefix,
    and the time is the header time of the generation the registry holds for this job, whose network
    targets are the announced ones.  Outside ordinary admission the proof is a potential Zcash
    winner. *)
Theorem submission_exact sha256 cfg w gs (reached : reachable sha256 cfg (w, gs))
    self login job t suffix solution now paused w' ctx
    (prepared : prepare_submission_mode sha256 self login job t suffix solution now paused w = (w', Ok ctx)) :
  ms_state self = Authorized /\
  exists worker prefix a,
    ms_worker self = Some worker /\ login = aw_canonical_login worker /\
    sc_identity ctx = backend_identity worker /\ sc_session_id ctx = ms_id self /\
    (authentic worker -> WorkerIdentity_validate (sc_identity ctx) = Ok tt) /\
    find_assignment self job = Some a /\
    sc_target_le ctx = ShareTarget_to_backend (tb_target (ja_target a)) /\
    ms_nonce_prefix self = Some prefix /\ join_nonce prefix suffix = Ok (sc_nonce ctx) /\
    sc_solution ctx = solution /\ sc_time ctx = t /\
    admitted_for sha256 w job (sc_nonce ctx) solution (sc_admission ctx) /\
    (let g := ga_generation (sc_admission ctx) in
     header_time g = t /\ wcash_network (tb_bounds (ja_target a)) = bg_wcash_network_target g /\
     zcash_network (tb_bounds (ja_target a)) = bg_zcash_network_target g) /\
    (if paused then ga_role (sc_admission ctx) = PausedZcashCandidate
     else ga_role (sc_admission ctx) = Ordinary \/ ga_role (sc_admission ctx) = HistoricalZcashRecovery).
Proof.
  revert prepared. unfold prepare_submission_mode, require. st_unfold.
  case_bool_decide as Hst; [|done]. destruct (ms_worker self) as [worker|]; [|done].
  destruct (ms_nonce_prefix self) as [prefix|]; [|done]. case_bool_decide as Hl; cbn [negb]; [|done].
  destruct (find_assignment self job) as [a|]; [|done].
  destruct (join_nonce prefix suffix) as [nonce|] eqn:Hj; [|done].
  destruct (admit_submission sha256 a job t nonce solution now paused w) as [w1 [g|e]] eqn:E; [|done].
  destruct (check_generation (ga_generation g) a job t) as [[]|e] eqn:Hc; [|done]. intros [= <- <-].
  split; [done|]. exists worker, prefix, a. apply check_generation_Ok in Hc.
  destruct (admit_submission_admitted _ _ _ _ _ _ _ _ _ _ _ _ (reachable_SInv _ _ _ reached) E) as [Ha Hr].
  destruct Hc as (H1 & H2 & H3). split_and!; try done. apply authentic_valid.
Qed.

Lemma submission_exact_witness :
  exists w' ctx, prepare_submission_mode demo_sha256 demo_session "rig.1" (demo_id 1) demo_time (demo_suffix 7)
                   (demo_hex 1344 3) 5000 false demo_world = (w', Ok ctx) /\ ms_state demo_session = Authorized.
Proof.
  destruct (prepare_submission_mode demo_sha256 demo_session "rig.1" (demo_id 1) demo_time (demo_suffix 7)
    (demo_hex 1344 3) 5000 false demo_world) as [w' [ctx|e]] eqn:E.
  2:{ exfalso. vm_compute in E. discriminate E. }
  exists w', ctx. split; [reflexivity|].
  exact (proj1 (submission_exact demo_sha256 demo_config demo_world [] demo_reachable demo_session "rig.1" (demo_id 1)
    demo_time (demo_suffix 7) (demo_hex 1344 3) 5000 false w' ctx E)).
Defined.

(** Guards balance: preparing a submission leaves exactly one more live guard, the one in the
    returned context, when it succeeds and none when it fails on any path; rechecking a context
    replaces its guard by the new one, or releases it when the recheck fails. *)
Theorem submission_guards_balanced sha256 cfg w gs self login job t suffix solution now paused ctx only :
  (reachable sha256 cfg (w, gs) ->
   match prepare_submission_mode sha256 self login job t suffix solution now paused w with
   | (w', Ok ctx') => reachable sha256 cfg (w', sc_admission ctx' :: gs)
   | (w', Err _) => reachable sha256 cfg (w', gs)
   end) /\
  (reachable sha256 cfg (w, sc_admission ctx :: gs) ->
   match refilter_zcash_candidate sha256 ctx now only w with
   | (w', Ok ctx') => reachable sha256 cfg (w', sc_admission ctx' :: gs)
   | (w', Err _) => reachable sha256 cfg (w', gs)
   end).
Proof.
  split; intros Hr.
  - pose proof (prepare_guarded sha256 self login job t suffix solution now paused w gs) as H.
    destruct (prepare_submission_mode _ _ _ _ _ _ _ _ _ _) as [w' [c|e]]; exact (rtc_trans _ _ _ Hr H).
  - pose proof (refilter_guarded sha256 ctx now only w gs) as H. cbv zeta in H.
    destruct (refilter_zcash_candidate _ _ _ _ _) as [w' [c|e]]; exact (rtc_trans _ _ _ Hr H).
Qed.

Lemma submission_guards_balanced_witness :
  exists w' ctx, prepare_submission_mode demo_sha256 demo_session "rig.1" (demo_id 1) demo_time (demo_suffix 7)
                   (demo_hex 1344 3) 5000 false demo_world = (w', Ok ctx) /\
    reachable demo_sha256 demo_config (w', [sc_admission ctx]).
Proof.
  destruct (prepare_submission_mode demo_sha256 demo_session "rig.1" (demo_id 1) demo_time (demo_suffix 7)
    (demo_hex 1344 3) 5000 false demo_world) as [w' [ctx|e]] eqn:E.
  2:{ exfalso. vm_compute in E. discriminate E. }
  exists w', ctx. split; [reflexivity|].
  pose proof (proj1 (submission_guards_balanced demo_sha256 demo_config demo_world [] demo_session "rig.1" (demo_id 1)
    demo_time (demo_suffix 7) (demo_hex 1344 3) 5000 false ctx false) demo_reachable) as H.
  rewrite E in H. exact H.
Defined.
