(* ===== verification/BackendClient.v ===== *)
(** The client of the mining backend (crates/wcash-pool-backend-client/src/unix.rs): one connection
    to a Unix socket, its hello, the paged replay of the journal, the one-way change to live events,
    and the correlated exchanges that deliver events and commit shares.

    A socket is the outcomes its reads will have, in order, and the frames written to it; a read
    that finds nothing waits for the deadline.  An operation takes the [Io] of its one exchange:
    the instant it starts, whether the write succeeds, and what arrives before the deadline.  A
    future that is dropped in the middle leaves the client as a missed deadline does. *)

From Stdlib Require Import ZArith Lia.
From stdpp Require Import prelude gmap sorting strings.
From S2P Require Import Prelude Wire Target Nonce LargestRemainder Backend Stream Framing Jobs JobsInv JobsWorld JobsLife JobsProps Session.
Open Scope Z_scope.

(** Durations are nanoseconds, instants nanoseconds of the monotonic clock. *)
Definition DEFAULT_CONNECT_TIMEOUT : Z := 5 * 1000000000.
Definition DEFAULT_REQUEST_TIMEOUT : Z := 10 * 1000000000.
Definition MAX_TIMEOUT : Z := 300 * 1000000000.
Definition DEFAULT_EVENT_QUEUE_CAPACITY : nat := 1024.
Definition MAX_EVENT_QUEUE_CAPACITY : nat := 4096.
Definition MAX_SOCKET_PATH_BYTES : nat := 100.

(** ** Configuration *)

Inductive ClientConfigError : Type :=
| EmptySocketPath
| RelativeSocketPath
| NonCanonicalSocketPath
| SocketPathContainsNul
| SocketPathTooLong (actual maximum : nat)
| InvalidTimeout (field : string)
| InvalidEventQueueCapacity (actual maximum : nat)
| ZeroNetworkIdentity (field : string)
| ZeroPayoutCommitment (field : string)
| ZeroShareTargetCeiling
| DuplicatePersistentIdentity.

Record ExpectedBackend : Type := mkExpectedBackend {
  eb_wcash_genesis : Hex32;
  eb_zcash_genesis : Hex32;
  eb_chain_id : Z;
  eb_wcash_payout_commitment : Hex32;
  eb_zcash_payout_commitment : Hex32;
  eb_share_target_ceiling_be : TargetBe;
  eb_backend_instance : option Uuid;
  eb_journal_stream : option Uuid
}.

Definition ExpectedBackend_new (wcash_genesis zcash_genesis : Hex32) (chain_id : Z)
    (wcash_payout_commitment zcash_payout_commitment : Hex32) (share_target_ceiling_be : TargetBe)
    : result ExpectedBackend ClientConfigError :=
  if FixedHex_is_zero wcash_genesis then Err (ZeroNetworkIdentity "wcash_genesis") else
  if FixedHex_is_zero zcash_genesis then Err (ZeroNetworkIdentity "zcash_genesis") else
  if chain_id =? 0 then Err (ZeroNetworkIdentity "chain_id") else
  if FixedHex_is_zero wcash_payout_commitment then Err (ZeroPayoutCommitment "wcash_payout_commitment") else
  if FixedHex_is_zero zcash_payout_commitment then Err (ZeroPayoutCommitment "zcash_payout_commitment") else
  if TargetBe_is_zero share_target_ceiling_be then Err ZeroShareTargetCeiling else
  Ok (mkExpectedBackend wcash_genesis zcash_genesis chain_id wcash_payout_commitment
        zcash_payout_commitment share_target_ceiling_be None None).

Definition with_backend_instance (self : ExpectedBackend) (backend_instance : Uuid) : ExpectedBackend :=
  mkExpectedBackend (eb_wcash_genesis self) (eb_zcash_genesis self) (eb_chain_id self)
    (eb_wcash_payout_commitment self) (eb_zcash_payout_commitment self)
    (eb_share_target_ceiling_be self) (Some backend_instance) (eb_journal_stream self).
Definition with_journal_stream (self : ExpectedBackend) (journal_stream : Uuid) : ExpectedBackend :=
  mkExpectedBackend (eb_wcash_genesis self) (eb_zcash_genesis self) (eb_chain_id self)
    (eb_wcash_payout_commitment self) (eb_zcash_payout_commitment self)
    (eb_share_target_ceiling_be self) (eb_backend_instance self) (Some journal_stream).

Record BackendClientConfig : Type := mkBackendClientConfig {
  bcc_socket_path : list Z;
  bcc_expected : ExpectedBackend;
  bcc_connect_timeout : Z;
  bcc_request_timeout : Z;
  bcc_event_queue_capacity : nat
}.

Definition validate_socket_path (path : list Z) : result unit ClientConfigError :=
  if bool_decide (path = []) then Err EmptySocketPath else
  if negb (is_absolute path) then Err RelativeSocketPath else
  if has_parent_component path then Err NonCanonicalSocketPath else
  if bool_decide (0 ∈ path) then Err SocketPathContainsNul else
  if (MAX_SOCKET_PATH_BYTES <? length path)%nat
  then Err (SocketPathTooLong (length path) MAX_SOCKET_PATH_BYTES) else Ok tt.

Definition validate_timeout (field : string) (duration : Z) : result unit ClientConfigError :=
  if (duration =? 0) || (MAX_TIMEOUT <? duration) then Err (InvalidTimeout field) else Ok tt.

Definition BackendClientConfig_validate (self : BackendClientConfig) : result unit ClientConfigError :=
  let? _ := validate_socket_path (bcc_socket_path self) in
  let? _ := validate_timeout "connect_timeout" (bcc_connect_timeout self) in
  let? _ := validate_timeout "request_timeout" (bcc_request_timeout self) in
  let capacity := bcc_event_queue_capacity self in
  if negb ((1 <=? capacity) && (capacity <=? MAX_EVENT_QUEUE_CAPACITY))%nat
  then Err (InvalidEventQueueCapacity capacity MAX_EVENT_QUEUE_CAPACITY) else
  let expected := bcc_expected self in
  if bool_decide (is_Some (eb_backend_instance expected))
     && bool_decide (eb_backend_instance expected = eb_journal_stream expected)
  then Err DuplicatePersistentIdentity else Ok tt.

Definition BackendClientConfig_new (socket_path : list Z) (expected : ExpectedBackend)
    : result BackendClientConfig ClientConfigError :=
  let config := mkBackendClientConfig socket_path expected DEFAULT_CONNECT_TIMEOUT
                  DEFAULT_REQUEST_TIMEOUT DEFAULT_EVENT_QUEUE_CAPACITY in
  let? _ := BackendClientConfig_validate config in
  Ok config.

Definition with_timeouts (self : BackendClientConfig) (connect_timeout request_timeout : Z)
    : result BackendClientConfig ClientConfigError :=
  let self := mkBackendClientConfig (bcc_socket_path self) (bcc_expected self) connect_timeout
                request_timeout (bcc_event_queue_capacity self) in
  let? _ := BackendClientConfig_validate self in
  Ok self.

Definition with_event_queue_capacity (self : BackendClientConfig) (event_queue_capacity : nat)
    : result BackendClientConfig ClientConfigError :=
  let self := mkBackendClientConfig (bcc_socket_path self) (bcc_expected self)
                (bcc_connect_timeout self) (bcc_request_timeout self) event_queue_capacity in
  let? _ := BackendClientConfig_validate self in
  Ok self.

(** ** Identities and time *)

Record BackendIdentity : Type := mkBackendIdentity {
  bi_backend_session : Uuid;
  bi_backend_instance : Uuid;
  bi_journal_stream : Uuid;
  bi_capabilities : list BackendCapability;
  bi_current_event_seq : Z
}.

Record BackendAuthority : Type := mkBackendAuthority {
  ba_wcash_genesis : Hex32;
  ba_zcash_genesis : Hex32;
  ba_chain_id : Z;
  ba_wcash_payout_commitment : Hex32;
  ba_zcash_payout_commitment : Hex32;
  ba_share_target_ceiling_be : TargetBe;
  ba_backend_instance : Uuid;
  ba_journal_stream : Uuid
}.

#[global] Instance BackendAuthority_eq_dec : EqDecision BackendAuthority.
Proof. solve_decision. Defined.

(** The connection token is the address of its [Arc<()>]: [Arc::ptr_eq] is equality. *)
Record BackendConnectionBinding : Type := mkBackendConnectionBinding {
  cb_authority : BackendAuthority;
  cb_connection_token : Z;
  cb_snapshot_event_seq : Z
}.

#[global] Instance BackendConnectionBinding_eq_dec : EqDecision BackendConnectionBinding.
Proof. solve_decision. Defined.

(** [MonotonicAnchor] wraps an instant. *)
Abbreviation MonotonicAnchor := Z (only parsing).

Inductive TimelineError : Type :=
| AnchorPredatesTimeline
| TimelineClockMovedBackwards
| MillisecondRangeExceeded.

Record MonotonicTimeline : Type := mkMonotonicTimeline { mt_origin : Z }.

Definition instant_ms (self : MonotonicTimeline) (instant : Z) : result Z TimelineError :=
  if instant <? mt_origin self then Err TimelineClockMovedBackwards else
  let ms := (instant - mt_origin self) / 1000000 in
  if U64_MAX <? ms then Err MillisecondRangeExceeded else Ok ms.

(** [now_ms] at the instant the clock returns. *)
Definition timeline_now_ms (self : MonotonicTimeline) (now : Z) : result Z TimelineError :=
  instant_ms self now.

Definition anchor_ms (self : MonotonicTimeline) (anchor : MonotonicAnchor) : result Z TimelineError :=
  if anchor <? mt_origin self then Err AnchorPredatesTimeline else instant_ms self anchor.

Inductive JobStateIntegrationError : Type :=
| IntegrationTimeline (e : TimelineError)
| IntegrationRegistry (e : JobRegistryError).

Record DeliveredBackendEvent : Type := mkDeliveredBackendEvent {
  de_event : BackendEvent;
  de_anchor : MonotonicAnchor;
  de_connection_binding : BackendConnectionBinding
}.

Record JobSnapshot : Type := mkJobSnapshot {
  js_event_seq : Z;
  js_current : option AcceptableJob;
  js_recent : list AcceptableJob;
  js_replayed_through_event_seq : Z;
  js_anchor : MonotonicAnchor;
  js_connection_binding : BackendConnectionBinding
}.

Definition lift_integration {A} (m : M World JobRegistryError A) : M World JobStateIntegrationError A :=
  fun w => let '(w', r) := m w in (w', map_err IntegrationRegistry r).

Definition snapshot_apply_to_registry (self : JobSnapshot) (timeline : MonotonicTimeline)
    : M World JobStateIntegrationError unit :=
  let* anchor := st_lift (map_err IntegrationTimeline (anchor_ms timeline (js_anchor self))) in
  lift_integration (apply_snapshot (js_event_seq self) (js_current self) (js_recent self) anchor).

Section Delivered.
Variable sha256 : list Z -> list Z.

Definition event_apply_to_registry (self : DeliveredBackendEvent) (timeline : MonotonicTimeline)
    : M World JobStateIntegrationError unit :=
  let* anchor := st_lift (map_err IntegrationTimeline (anchor_ms timeline (de_anchor self))) in
  lift_integration (apply_event sha256 (de_event self) anchor).

Definition event_apply_to_registry_at (self : DeliveredBackendEvent) (timeline : MonotonicTimeline)
    (policy_now_ms : Z) : M World JobStateIntegrationError unit :=
  let* anchor := st_lift (map_err IntegrationTimeline (anchor_ms timeline (de_anchor self))) in
  lift_integration (apply_event_at sha256 (de_event self) anchor policy_now_ms).
End Delivered.

(** ** Values of the operations *)

Inductive BackendStreamPhase : Type := PhaseReplay | PhaseLive.

#[global] Instance BackendStreamPhase_eq_dec : EqDecision BackendStreamPhase.
Proof. solve_decision. Defined.

Record ShareSubmission : Type := mkShareSubmission {
  sub_job_id : Hex32;
  sub_identity : WorkerIdentity;
  sub_target_le : TargetLe;
  sub_time : Hex4;
  sub_nonce : Hex32;
  sub_solution : Hex1344
}.

Record UnverifiedShareCommit : Type := mkUnverifiedShareCommit {
  us_receipt : ShareReceipt;
  us_replayed : bool
}.

Record VerifiedShareCommit : Type := mkVerifiedShareCommit {
  vs_receipt : ShareReceipt;
  vs_replayed : bool
}.

Record EventPage : Type := mkEventPage {
  ep_after_event_seq : Z;
  ep_next_event_seq : Z;
  ep_complete : bool;
  ep_events : list BackendEvent
}.

Record HealthSnapshot : Type := mkHealthSnapshot {
  hs_event_seq : Z;
  hs_healthy : bool;
  hs_recovery_only : bool;
  hs_pending_wcash : Z;
  hs_quarantined_wcash : Z;
  hs_pending_zcash : Z
}.

(** The operating system's error of an I/O operation is an opaque number. *)
Inductive ClientError : Type :=
| ClientConfig (e : ClientConfigError)
| ClientConnect (source : Z)
| ClientTimeout (operation : string)
| ClientIo (operation : string) (source : Z)
| ClientCleanEof
| ClientTruncatedFrame (section : string) (expected actual : nat)
| ClientFrameTooLarge (actual : nat) (maximum : Z)
| ClientProtocol (e : ProtocolError)
| ClientVersionMismatch (expected actual : Z)
| ClientWrongResponseId (expected actual : Z)
| ClientUnexpectedResponse (expected actual : string)
| ClientIdentityMismatch (field : string)
| ClientEventCursorAhead (requested backend : Z)
| ClientSnapshotCursorBehind (requested snapshot : Z)
| ClientMissingJournalIdentity
| ClientEventPageCursorMismatch (expected actual : Z)
| ClientEventPageLimitExceeded (requested : Z) (actual : nat)
| ClientInvalidStreamPhase (operation : string) (required actual : BackendStreamPhase)
| ClientReplayCursorMismatch (expected actual : Z)
| ClientReplayIncomplete (cursor : Z)
| ClientEventWatermarkRollback (operation : string) (previous received : Z)
| ClientLiveEventSequenceMismatch (expected actual : Z)
| ClientLiveEventFlushIncomplete (operation : string) (required delivered : Z)
| ClientShareCommitEventMismatch (event_seq : Z)
| ClientShareCommitHistoryConflict (recorded_event_seq claimed_event_seq : Z)
| ClientHistoricalReplayRequiresProjection (receipt : ShareReceipt)
| ClientFreshShareCommitDidNotAdvance (event_seq previous_event_seq : Z)
| ClientContradictoryShareOutcome (event_seq : Z)
| ClientEventQueueFull (capacity : nat)
| ClientBackendRejected (code : BackendErrorCode) (message : string)
| ClientConnectionUnusable
| ClientRequestIdExhausted.

(** ** The socket *)

(** The outcome of one [read]: bytes (none at the end of the stream) or an error. *)
Inductive ReadOutcome : Type :=
| ReadBytes (bytes : list Z)
| ReadFailed (source : Z).

Inductive WriteOutcome : Type := WriteDone | WriteFailed (source : Z) | WriteBlocked.

Record UnixStream : Type := mkUnixStream {
  us_incoming : list ReadOutcome;
  us_outgoing : list (list Z)
}.

(** What the world does during one exchange. *)
Record Io : Type := mkIo {
  io_now : Z;
  io_write : WriteOutcome;
  io_arrivals : list ReadOutcome
}.

(** The loop of [read_exact_section], one [read] per outcome: a read takes no more than it still
    needs.  [None] waits for the deadline. *)
Fixpoint read_exact_section (section : string) (clean_eof_allowed : bool) (destination : nat)
    (filled : list Z) (incoming : list ReadOutcome)
    : list ReadOutcome * option (result (list Z) ClientError) :=
  if (destination <=? length filled)%nat then (incoming, Some (Ok filled)) else
  match incoming with
  | [] => ([], None)
  | ReadFailed source :: rest => (rest, Some (Err (ClientIo "read response" source)))
  | ReadBytes [] :: _ =>
      (incoming, Some (Err (if clean_eof_allowed && (length filled =? 0)%nat then ClientCleanEof
                            else ClientTruncatedFrame section destination (length filled))))
  | ReadBytes bytes :: rest =>
      let wanted := (destination - length filled)%nat in
      if (wanted <? length bytes)%nat
      then (ReadBytes (drop wanted bytes) :: rest, Some (Ok (filled ++ take wanted bytes)))
      else read_exact_section section clean_eof_allowed destination (filled ++ bytes) rest
  end.

(** The bytes an incoming stream holds. *)
Definition outcome_bytes (o : ReadOutcome) : nat :=
  match o with ReadBytes bytes => length bytes | ReadFailed _ => 0 end.
Definition incoming_bytes (incoming : list ReadOutcome) : nat := sum_list (outcome_bytes <$> incoming).

(** serde_json and SHA-256: [ce_value_version] is the [v] member, as a [u64], of a payload read as
    a [Value]. *)
Class ClientEnv : Type := {
  ce_sha256 : list Z -> list Z;
  ce_to_vec : BackendRequest -> result (list Z) string;
  ce_value_version : list Z -> result (option Z) string;
  ce_from_slice : list Z -> result BackendMessage string
}.

Section Client.
Context {env : ClientEnv}.

Definition read_backend_message (incoming : list ReadOutcome)
    : list ReadOutcome * option (result BackendMessage ClientError) :=
  match read_exact_section "length prefix" true BACKEND_LENGTH_PREFIX_BYTES [] incoming with
  | (incoming, None) => (incoming, None)
  | (incoming, Some (Err e)) => (incoming, Some (Err e))
  | (incoming, Some (Ok prefix)) =>
      let payload_length := declared_length prefix in
      if (payload_length =? 0)%nat
      then (incoming, Some (Err (ClientProtocol (EmptyFrame "backend")))) else
      if MAX_BACKEND_PAYLOAD_BYTES <? Z.of_nat payload_length
      then (incoming, Some (Err (ClientFrameTooLarge payload_length MAX_BACKEND_PAYLOAD_BYTES))) else
      match read_exact_section "payload" false payload_length [] incoming with
      | (incoming, None) => (incoming, None)
      | (incoming, Some (Err e)) => (incoming, Some (Err e))
      | (incoming, Some (Ok payload)) =>
          (incoming, Some
            (let? version := map_err (fun e => ClientProtocol (Json e)) (ce_value_version payload) in
             match version with
             | Some actual =>
                 if negb (actual =? BACKEND_PROTOCOL_VERSION)
                 then Err (ClientVersionMismatch BACKEND_PROTOCOL_VERSION actual)
                 else map_err ClientProtocol (decode_backend_message ce_sha256 ce_from_slice (prefix ++ payload))
             | None => map_err ClientProtocol (decode_backend_message ce_sha256 ce_from_slice (prefix ++ payload))
             end))
      end
  end.

Definition message_kind (message : BackendMessage) : string :=
  match message with
  | HelloOk _ _ _ _ _ _ _ _ _ _ _ _ _ => "hello_ok"
  | Backend.JobSnapshot _ _ _ _ _ => "job_snapshot"
  | ShareCommitted _ _ _ _ => "share_committed"
  | EventsPage _ _ _ _ _ _ => "events_page"
  | HealthStatus _ _ _ _ _ _ _ _ => "health_status"
  | ErrorMessage _ _ _ _ => "error"
  | EventMessage _ _ => "event"
  end.

Definition expected_response_kind (operation : string) : string :=
  if String.eqb operation "hello" then "hello_ok"
  else if String.eqb operation "subscribe_jobs" then "job_snapshot"
  else if String.eqb operation "submit_share" then "share_committed"
  else if String.eqb operation "read_events" then "events_page"
  else if String.eqb operation "health" then "health_status"
  else "correlated response".

(** ** The connection *)

Record BackendClient : Type := mkBackendClient {
  bc_stream : UnixStream;
  bc_config : BackendClientConfig;
  bc_identity : BackendIdentity;
  bc_connection_token : Z;
  bc_next_request_id : Z;
  bc_queued_events : list DeliveredBackendEvent;
  bc_observed_events : list BackendEvent;
  bc_historical_events : list BackendEvent;
  bc_phase : BackendStreamPhase;
  bc_replay_cursor : Z;
  bc_replay_complete : bool;
  bc_observed_event_high_watermark : Z;
  bc_live_event_cursor : option Z;
  bc_subscribed_snapshot_event_seq : option Z;
  bc_live_event_anchor_floor : option MonotonicAnchor;
  bc_usable : bool
}.

(** Assignments to fields. *)
Definition set_stream (s : UnixStream) (c : BackendClient) : BackendClient :=
  mkBackendClient s (bc_config c) (bc_identity c) (bc_connection_token c) (bc_next_request_id c)
    (bc_queued_events c) (bc_observed_events c) (bc_historical_events c) (bc_phase c)
    (bc_replay_cursor c) (bc_replay_complete c) (bc_observed_event_high_watermark c)
    (bc_live_event_cursor c) (bc_subscribed_snapshot_event_seq c) (bc_live_event_anchor_floor c) (bc_usable c).
Definition set_identity (i : BackendIdentity) (c : BackendClient) : BackendClient :=
  mkBackendClient (bc_stream c) (bc_config c) i (bc_connection_token c) (bc_next_request_id c)
    (bc_queued_events c) (bc_observed_events c) (bc_historical_events c) (bc_phase c)
    (bc_replay_cursor c) (bc_replay_complete c) (bc_observed_event_high_watermark c)
    (bc_live_event_cursor c) (bc_subscribed_snapshot_event_seq c) (bc_live_event_anchor_floor c) (bc_usable c).
Definition set_next_request_id (n : Z) (c : BackendClient) : BackendClient :=
  mkBackendClient (bc_stream c) (bc_config c) (bc_identity c) (bc_connection_token c) n
    (bc_queued_events c) (bc_observed_events c) (bc_historical_events c) (bc_phase c)
    (bc_replay_cursor c) (bc_replay_complete c) (bc_observed_event_high_watermark c)
    (bc_live_event_cursor c) (bc_subscribed_snapshot_event_seq c) (bc_live_event_anchor_floor c) (bc_usable c).
Definition set_events (queued : list DeliveredBackendEvent) (observed historical : list BackendEvent)
    (c : BackendClient) : BackendClient :=
  mkBackendClient (bc_stream c) (bc_config c) (bc_identity c) (bc_connection_token c) (bc_next_request_id c)
    queued observed historical (bc_phase c)
    (bc_replay_cursor c) (bc_replay_complete c) (bc_observed_event_high_watermark c)
    (bc_live_event_cursor c) (bc_subscribed_snapshot_event_seq c) (bc_live_event_anchor_floor c) (bc_usable c).
Definition set_replay (cursor : Z) (complete : bool) (c : BackendClient) : BackendClient :=
  mkBackendClient (bc_stream c) (bc_config c) (bc_identity c) (bc_connection_token c) (bc_next_request_id c)
    (bc_queued_events c) (bc_observed_events c) (bc_historical_events c) (bc_phase c)
    cursor complete (bc_observed_event_high_watermark c)
    (bc_live_event_cursor c) (bc_subscribed_snapshot_event_seq c) (bc_live_event_anchor_floor c) (bc_usable c).
Definition set_watermark (seq : Z) (c : BackendClient) : BackendClient :=
  mkBackendClient (bc_stream c) (bc_config c) (bc_identity c) (bc_connection_token c) (bc_next_request_id c)
    (bc_queued_events c) (bc_observed_events c) (bc_historical_events c) (bc_phase c)
    (bc_replay_cursor c) (bc_replay_complete c) seq
    (bc_live_event_cursor c) (bc_subscribed_snapshot_event_seq c) (bc_live_event_anchor_floor c) (bc_usable c).
Definition set_live_cursor (cursor : option Z) (c : BackendClient) : BackendClient :=
  mkBackendClient (bc_stream c) (bc_config c) (bc_identity c) (bc_connection_token c) (bc_next_request_id c)
    (bc_queued_events c) (bc_observed_events c) (bc_historical_events c) (bc_phase c)
    (bc_replay_cursor c) (bc_replay_complete c) (bc_observed_event_high_watermark c)
    cursor (bc_subscribed_snapshot_event_seq c) (bc_live_event_anchor_floor c) (bc_usable c).
Definition set_floor (floor : option MonotonicAnchor) (c : BackendClient) : BackendClient :=
  mkBackendClient (bc_stream c) (bc_config c) (bc_identity c) (bc_connection_token c) (bc_next_request_id c)
    (bc_queued_events c) (bc_observed_events c) (bc_historical_events c) (bc_phase c)
    (bc_replay_cursor c) (bc_replay_complete c) (bc_observed_event_high_watermark c)
    (bc_live_event_cursor c) (bc_subscribed_snapshot_event_seq c) floor (bc_usable c).
Definition set_usable (usable : bool) (c : BackendClient) : BackendClient :=
  mkBackendClient (bc_stream c) (bc_config c) (bc_identity c) (bc_connection_token c) (bc_next_request_id c)
    (bc_queued_events c) (bc_observed_events c) (bc_historical_events c) (bc_phase c)
    (bc_replay_cursor c) (bc_replay_complete c) (bc_observed_event_high_watermark c)
    (bc_live_event_cursor c) (bc_subscribed_snapshot_event_seq c) (bc_live_event_anchor_floor c) usable.
Definition enter_live (snapshot_event_seq : Z) (anchor : MonotonicAnchor) (c : BackendClient) : BackendClient :=
  mkBackendClient (bc_stream c) (bc_config c) (bc_identity c) (bc_connection_token c) (bc_next_request_id c)
    (bc_queued_events c) (bc_observed_events c) (bc_historical_events c) PhaseLive
    (bc_replay_cursor c) (bc_replay_complete c) (bc_observed_event_high_watermark c)
    (Some snapshot_event_seq) (Some snapshot_event_seq) (Some anchor) (bc_usable c).

Definition ClientM (A : Type) : Type := M BackendClient ClientError A.

(** [Err(self.invalidate(error))]. *)
Definition invalidate {A} (error : ClientError) : ClientM A :=
  fun self => (set_usable false self, Err error).

Definition ensure_usable (self : BackendClient) : result unit ClientError :=
  if bc_usable self then Ok tt else Err ClientConnectionUnusable.

Definition ensure_phase (operation : string) (required : BackendStreamPhase) (self : BackendClient)
    : result unit ClientError :=
  let? _ := ensure_usable self in
  if bool_decide (bc_phase self = required) then Ok tt
  else Err (ClientInvalidStreamPhase operation required (bc_phase self)).

Definition authority (self : BackendClient) : BackendAuthority :=
  let expected := bcc_expected (bc_config self) in
  mkBackendAuthority (eb_wcash_genesis expected) (eb_zcash_genesis expected) (eb_chain_id expected)
    (eb_wcash_payout_commitment expected) (eb_zcash_payout_commitment expected)
    (eb_share_target_ceiling_be expected) (bi_backend_instance (bc_identity self))
    (bi_journal_stream (bc_identity self)).

Definition is_bound_to (self : BackendClient) (binding : BackendConnectionBinding) : bool :=
  bool_decide (bc_phase self = PhaseLive)
  && bool_decide (authority self = cb_authority binding)
  && bool_decide (bc_subscribed_snapshot_event_seq self = Some (cb_snapshot_event_seq binding))
  && (bc_connection_token self =? cb_connection_token binding).

Definition connection_binding (self : BackendClient) : option BackendConnectionBinding :=
  match bc_subscribed_snapshot_event_seq self with
  | Some snapshot_event_seq =>
      if bool_decide (bc_phase self = PhaseLive)
      then Some (mkBackendConnectionBinding (authority self) (bc_connection_token self) snapshot_event_seq)
      else None
  | None => None
  end.

(** A bounded queue that forgets its oldest member. *)
Definition push_bounded {A} (capacity : nat) (queue : list A) (x : A) : list A :=
  (if (length queue =? capacity)%nat then tail queue else queue) ++ [x].

Definition pop_queued_event (self : BackendClient) : BackendClient * option DeliveredBackendEvent :=
  match bc_queued_events self with
  | [] => (self, None)
  | delivered :: rest =>
      (set_events rest
         (push_bounded (bcc_event_queue_capacity (bc_config self)) (bc_observed_events self) (de_event delivered))
         (bc_historical_events self) self, Some delivered)
  end.

Definition remember_historical_events (events : list BackendEvent) (self : BackendClient) : BackendClient :=
  set_events (bc_queued_events self) (bc_observed_events self)
    (foldl (push_bounded (bcc_event_queue_capacity (bc_config self))) (bc_historical_events self) events) self.

(** ** One exchange *)

Definition set_incoming (incoming : list ReadOutcome) (self : BackendClient) : BackendClient :=
  set_stream (mkUnixStream incoming (us_outgoing (bc_stream self))) self.

(** The arrivals follow what an earlier exchange left unread; a complete write is recorded. *)
Definition arrive (arrivals : list ReadOutcome) (self : BackendClient) : BackendClient :=
  set_incoming (us_incoming (bc_stream self) ++ arrivals) self.
Definition send (frame : list Z) (self : BackendClient) : BackendClient :=
  set_stream (mkUnixStream (us_incoming (bc_stream self)) (us_outgoing (bc_stream self) ++ [frame])) self.

(** The arm of the loop for an unsolicited event. *)
Definition accept_event (operation : string) (allow_events : bool) (event_anchor : MonotonicAnchor)
    (event_binding : option BackendConnectionBinding) (event : BackendEvent) : ClientM unit :=
  if negb allow_events
  then st_throw (ClientUnexpectedResponse (expected_response_kind operation) "event") else
  let* self := st_get in
  let actual := event_seq event in
  let* previous := st_lift (ok_or (bc_live_event_cursor self)
                              (ClientUnexpectedResponse "job_snapshot" "event")) in
  let* expected := st_lift (ok_or (checked_add U64_MAX previous 1)
                              (ClientProtocol (invalid "event.event_seq" "journal sequence exhausted"))) in
  if negb (actual =? expected) then st_throw (ClientLiveEventSequenceMismatch expected actual) else
  let capacity := bcc_event_queue_capacity (bc_config self) in
  if (length (bc_queued_events self) =? capacity)%nat then st_throw (ClientEventQueueFull capacity) else
  do* st_modify (set_live_cursor (Some actual)) in
  do* st_modify (set_watermark (Z.max (bc_observed_event_high_watermark self) actual)) in
  let* connection_binding := st_lift (ok_or event_binding
                              (ClientUnexpectedResponse "job_snapshot" "unbound live event")) in
  st_modify (fun self => set_events
    (bc_queued_events self ++ [mkDeliveredBackendEvent event event_anchor connection_binding])
    (bc_observed_events self) (bc_historical_events self) self).

(** The correlation of any other message. *)
Definition correlate (request_id : Z) (message : BackendMessage) : result BackendMessage ClientError :=
  let? response_id := ok_or (correlation_id message)
                        (ClientUnexpectedResponse "correlated response" (message_kind message)) in
  if negb (response_id =? request_id) then Err (ClientWrongResponseId request_id response_id)
  else Ok message.

(** The reading loop; [None] waits for the deadline.  Every message takes bytes off the stream, so
    one iteration more than there are bytes is enough. *)
Fixpoint exchange_loop (fuel : nat) (request_id : Z) (operation : string) (allow_events : bool)
    (event_anchor : MonotonicAnchor) (event_binding : option BackendConnectionBinding)
    (self : BackendClient) : BackendClient * option (result BackendMessage ClientError) :=
  match fuel with
  | O => (self, None)
  | S fuel' =>
      let '(incoming, read) := read_backend_message (us_incoming (bc_stream self)) in
      let self := set_incoming incoming self in
      match read with
      | None => (self, None)
      | Some (Err e) => (self, Some (Err e))
      | Some (Ok (EventMessage _ event)) =>
          match accept_event operation allow_events event_anchor event_binding event self with
          | (self, Err e) => (self, Some (Err e))
          | (self, Ok _) =>
              exchange_loop fuel' request_id operation allow_events event_anchor event_binding self
          end
      | Some (Ok message) => (self, Some (correlate request_id message))
      end
  end.

(** The anchor and binding of the events of an exchange. *)
Definition event_origin (allow_events : bool) (anchor : MonotonicAnchor) (self : BackendClient)
    : option (MonotonicAnchor * option BackendConnectionBinding) :=
  if allow_events then
    match bc_live_event_anchor_floor self, connection_binding self with
    | Some floor, Some binding => Some (floor, Some binding)
    | _, _ => None
    end
  else Some (anchor, None).

Definition exchange (io : Io) (request : BackendRequest) (operation : string) (allow_events : bool)
    : ClientM (BackendMessage * MonotonicAnchor) :=
  let* self := st_get in
  do* st_lift (ensure_usable self) in
  let request_id := BackendRequest_id request in
  let* frame := st_lift (map_err ClientProtocol (encode_backend_request ce_to_vec request)) in
  let anchor := io_now io in
  match event_origin allow_events anchor self with
  | None => invalidate (ClientUnexpectedResponse "job_snapshot" "live event exchange")
  | Some (event_anchor, event_binding) =>
      do* st_modify (set_usable false) in
      do* st_modify (arrive (io_arrivals io)) in
      match io_write io with
      | WriteBlocked => st_throw (ClientTimeout operation)
      | WriteFailed source => st_throw (ClientIo "write request" source)
      | WriteDone => fun self =>
          let self := send frame self in
          match exchange_loop (S (incoming_bytes (us_incoming (bc_stream self)))) request_id operation
                  allow_events event_anchor event_binding self with
          | (self, None) => (self, Err (ClientTimeout operation))
          | (self, Some (Err e)) => (self, Err e)
          | (self, Some (Ok message)) =>
              (set_usable true (if allow_events then set_floor (Some anchor) self else self),
               Ok (message, anchor))
          end
      end
  end.

Definition allocate_request_id : ClientM Z :=
  let* self := st_get in
  do* st_lift (ensure_usable self) in
  let current := bc_next_request_id self in
  match checked_add U64_MAX current 1 with
  | None => invalidate ClientRequestIdExhausted
  | Some next => do* st_modify (set_next_request_id next) in st_ret current
  end.

(** ** Checks of the responses *)

Definition observe_watermark (operation : string) (received : Z) : ClientM unit :=
  let* self := st_get in
  if received <? bc_observed_event_high_watermark self
  then invalidate (ClientEventWatermarkRollback operation (bc_observed_event_high_watermark self) received) else
  do* st_modify (set_watermark received) in
  if bool_decide (bc_phase self = PhaseReplay) && (bc_replay_cursor self <? received)
  then st_modify (set_replay (bc_replay_cursor self) false) else st_ret tt.

Definition require_live_events_through (operation : string) (required : Z) : ClientM unit :=
  let* self := st_get in
  if negb (bool_decide (bc_phase self = PhaseLive)) then st_ret tt else
  match bc_live_event_cursor self with
  | None => invalidate (ClientUnexpectedResponse "job_snapshot" "live response")
  | Some delivered =>
      if delivered <? required then invalidate (ClientLiveEventFlushIncomplete operation required delivered)
      else st_ret tt
  end.

Definition share_event_matches (event : BackendEvent) (receipt : ShareReceipt) (identity : WorkerIdentity)
    (target_le : TargetLe) : bool :=
  match event with
  | ShareCommittedEvent event_receipt job_id event_identity event_target_le =>
      bool_decide (event_receipt = receipt) && bool_decide (job_id = sr_job_id receipt)
      && bool_decide (event_identity = identity) && bool_decide (event_target_le = target_le)
  | _ => false
  end.

(** The events delivered live that are still in memory, and with them the replayed ones. *)
Definition live_events (self : BackendClient) : list BackendEvent :=
  (de_event <$> bc_queued_events self) ++ bc_observed_events self.
Definition known_events (self : BackendClient) : list BackendEvent :=
  live_events self ++ bc_historical_events self.

Definition require_matching_share_event (receipt : ShareReceipt) (identity : WorkerIdentity)
    (target_le : TargetLe) (live_cursor_before : Z) (replayed : bool) : ClientM unit :=
  let* self := st_get in
  let live_match := existsb (fun event => (event_seq event =? sr_event_seq receipt)
                      && share_event_matches event receipt identity target_le) (live_events self) in
  if live_match then st_ret tt
  else if replayed && (sr_event_seq receipt <=? live_cursor_before)
  then st_throw (ClientHistoricalReplayRequiresProjection receipt)
  else invalidate (ClientShareCommitEventMismatch (sr_event_seq receipt)).

(** The loop over the known events: a sequence number or a share identity they contradict. *)
Fixpoint share_conflict (receipt : ShareReceipt) (identity : WorkerIdentity) (target_le : TargetLe)
    (events : list BackendEvent) : option ClientError :=
  match events with
  | [] => None
  | event :: rest =>
      let exact_match := share_event_matches event receipt identity target_le in
      if (event_seq event =? sr_event_seq receipt) && negb exact_match
      then Some (ClientShareCommitEventMismatch (sr_event_seq receipt)) else
      match event with
      | ShareCommittedEvent recorded_receipt _ _ _ =>
          if bool_decide (sr_share_id recorded_receipt = sr_share_id receipt) && negb exact_match
          then Some (ClientShareCommitHistoryConflict (sr_event_seq recorded_receipt) (sr_event_seq receipt))
          else share_conflict receipt identity target_le rest
      | _ => share_conflict receipt identity target_le rest
      end
  end.

Definition require_consistent_share_history (receipt : ShareReceipt) (identity : WorkerIdentity)
    (target_le : TargetLe) : ClientM unit :=
  let* self := st_get in
  match share_conflict receipt identity target_le (known_events self) with
  | Some error => invalidate error
  | None => st_ret tt
  end.

Definition matching_share_event_seq (self : BackendClient) (job_id share_id attribution_id : Hex32)
    (identity : WorkerIdentity) (target_le : TargetLe) : option Z :=
  head (omap (fun event =>
    match event with
    | ShareCommittedEvent receipt event_job_id event_identity event_target_le =>
        if bool_decide (event_job_id = job_id) && bool_decide (sr_job_id receipt = job_id)
           && bool_decide (sr_share_id receipt = share_id)
           && bool_decide (sr_attribution_id receipt = attribution_id)
           && bool_decide (event_identity = identity) && bool_decide (event_target_le = target_le)
        then Some (sr_event_seq receipt) else None
    | _ => None
    end) (known_events self)).

Definition validate_receipt_for_job (receipt : ShareReceipt) (descriptor : JobDescriptor)
    (expected_parent_hash_le : Hex32) (winner_recovery paused_zcash_candidate replayed : bool) : ClientM unit :=
  match ShareReceipt_validate_for_job receipt descriptor with
  | Err error => invalidate (ClientProtocol error)
  | Ok _ =>
      let recovery_role_matches :=
        if replayed || paused_zcash_candidate
        then existsb (fun winner => bool_decide (wd_chain winner = Zcash)) (sr_winners receipt)
        else match sr_winners receipt with
             | [winner] => bool_decide (wd_chain winner = Zcash)
             | _ => false
             end in
      if winner_recovery && negb recovery_role_matches
      then invalidate (ClientProtocol (invalid "share_receipt.winners"
             "historical fresh recovery must create only a Zcash winner; paused candidates and replay must contain Zcash"))
      else if negb (bool_decide (sr_parent_hash_le receipt = expected_parent_hash_le))
      then invalidate (ClientProtocol (invalid "share_receipt.parent_hash_le"
             "must match the exact submitted parent header"))
      else st_ret tt
  end.

(** ** Operations *)

Definition verify_hello (backend_instance journal_stream : Uuid)
    (wcash_genesis zcash_genesis wcash_payout_commitment zcash_payout_commitment : Hex32)
    (share_target_ceiling_be : TargetBe) (chain_id last_event_seq current_event_seq : Z) : ClientM unit :=
  let* self := st_get in
  let expected := bcc_expected (bc_config self) in
  if negb (bool_decide (wcash_genesis = eb_wcash_genesis expected))
  then invalidate (ClientIdentityMismatch "Wcash genesis") else
  if negb (bool_decide (zcash_genesis = eb_zcash_genesis expected))
  then invalidate (ClientIdentityMismatch "Zcash genesis") else
  if negb (chain_id =? eb_chain_id expected)
  then invalidate (ClientIdentityMismatch "Wcash chain ID") else
  if negb (bool_decide (wcash_payout_commitment = eb_wcash_payout_commitment expected))
  then invalidate (ClientIdentityMismatch "Wcash payout commitment") else
  if negb (bool_decide (zcash_payout_commitment = eb_zcash_payout_commitment expected))
  then invalidate (ClientIdentityMismatch "Zcash payout commitment") else
  if negb (bool_decide (share_target_ceiling_be = eb_share_target_ceiling_be expected))
  then invalidate (ClientIdentityMismatch "share target ceiling") else
  if match eb_backend_instance expected with Some e => negb (e =? backend_instance) | None => false end
  then invalidate (ClientIdentityMismatch "backend instance") else
  if match eb_journal_stream expected with Some e => negb (e =? journal_stream) | None => false end
  then invalidate (ClientIdentityMismatch "journal stream") else
  if current_event_seq <? last_event_seq
  then invalidate (ClientEventCursorAhead last_event_seq current_event_seq) else st_ret tt.

(** A client before its hello: the identities are placeholders. *)
Definition connecting (config : BackendClientConfig) (pool_instance : Uuid) (last_event_seq token : Z)
    : BackendClient :=
  mkBackendClient (mkUnixStream [] []) config
    (mkBackendIdentity pool_instance pool_instance pool_instance [] 0) token 1 [] [] [] PhaseReplay
    last_event_seq false 0 None None None true.

Definition hello (io : Io) (pool_instance : Uuid) (last_event_seq : Z) : ClientM unit :=
  let* request_id := allocate_request_id in
  let* response := exchange io (Hello BACKEND_PROTOCOL_VERSION request_id pool_instance last_event_seq)
                     "hello" false in
  match fst response with
  | HelloOk _ _ backend_session backend_instance journal_stream capabilities wcash_genesis zcash_genesis
      wcash_payout_commitment zcash_payout_commitment share_target_ceiling_be chain_id current_event_seq =>
      do* verify_hello backend_instance journal_stream wcash_genesis zcash_genesis wcash_payout_commitment
            zcash_payout_commitment share_target_ceiling_be chain_id last_event_seq current_event_seq in
      do* st_modify (set_identity (mkBackendIdentity backend_session backend_instance journal_stream
                                     capabilities current_event_seq)) in
      do* st_modify (set_watermark current_event_seq) in
      st_modify (set_replay last_event_seq (last_event_seq =? current_event_seq))
  | ErrorMessage _ _ code message => st_throw (ClientBackendRejected code message)
  | other => invalidate (ClientUnexpectedResponse "hello_ok" (message_kind other))
  end.

(** [connected] is the outcome of opening the socket before the deadline, [token] the address of
    the new connection token. *)
Definition connect (config : BackendClientConfig) (pool_instance : Uuid) (last_event_seq token : Z)
    (connected : option (result unit Z)) (io : Io) : result BackendClient ClientError :=
  let? _ := map_err ClientConfig (BackendClientConfig_validate config) in
  if negb (last_event_seq =? 0) && bool_decide (eb_journal_stream (bcc_expected config) = None)
  then Err ClientMissingJournalIdentity else
  let? opened := ok_or connected (ClientTimeout "connect") in
  let? _ := map_err ClientConnect opened in
  match hello io pool_instance last_event_seq (connecting config pool_instance last_event_seq token) with
  | (client, Ok _) => Ok client
  | (_, Err e) => Err e
  end.

Definition subscribe_jobs (io : Io) (after_event_seq : Z) : ClientM JobSnapshot :=
  let* self := st_get in
  do* st_lift (ensure_phase "subscribe_jobs" PhaseReplay self) in
  if negb (after_event_seq =? bc_replay_cursor self)
  then st_throw (ClientReplayCursorMismatch (bc_replay_cursor self) after_event_seq) else
  if negb (bc_replay_complete self) then st_throw (ClientReplayIncomplete (bc_replay_cursor self)) else
  let* request_id := allocate_request_id in
  let* response := exchange io (SubscribeJobs BACKEND_PROTOCOL_VERSION request_id after_event_seq)
                     "subscribe_jobs" false in
  let anchor := snd response in
  match fst response with
  | Backend.JobSnapshot _ _ seq current recent =>
      if seq <? after_event_seq then invalidate (ClientSnapshotCursorBehind after_event_seq seq) else
      do* observe_watermark "job snapshot" seq in
      do* st_modify (enter_live seq anchor) in
      let* self := st_get in
      st_ret (mkJobSnapshot seq current recent after_event_seq anchor
                (mkBackendConnectionBinding (authority self) (bc_connection_token self) seq))
  | ErrorMessage _ _ code message => st_throw (ClientBackendRejected code message)
  | other => invalidate (ClientUnexpectedResponse "job_snapshot" (message_kind other))
  end.

(** The checks of a [ShareCommitted] response. *)
Definition check_share_commit (submission : ShareSubmission) (expected_share_id expected_attribution_id : Hex32)
    (live_cursor_before : Z) (receipt : ShareReceipt) (replayed : bool) : ClientM UnverifiedShareCommit :=
  if negb (bool_decide (sr_job_id receipt = sub_job_id submission))
  then invalidate (ClientProtocol (invalid "share_receipt.job_id"
         "must match the submitted backend generation")) else
  if negb (bool_decide (sr_share_id receipt = expected_share_id))
  then invalidate (ClientProtocol (invalid "share_receipt.share_id"
         "must match the canonical submitted proof identity")) else
  if negb (bool_decide (sr_attribution_id receipt = expected_attribution_id))
  then invalidate (ClientProtocol (invalid "share_receipt.attribution_id"
         "must match the submitted worker identity and target")) else
  if negb replayed && (sr_event_seq receipt <=? live_cursor_before)
  then invalidate (ClientFreshShareCommitDidNotAdvance (sr_event_seq receipt) live_cursor_before) else
  do* require_live_events_through "share commit" (sr_event_seq receipt) in
  do* require_consistent_share_history receipt (sub_identity submission) (sub_target_le submission) in
  do* require_matching_share_event receipt (sub_identity submission) (sub_target_le submission)
        live_cursor_before replayed in
  st_ret (mkUnverifiedShareCommit receipt replayed).

Definition submit_share (io : Io) (submission : ShareSubmission) : ClientM UnverifiedShareCommit :=
  let* self := st_get in
  do* st_lift (ensure_phase "submit_share" PhaseLive self) in
  match bc_live_event_cursor self with
  | None => invalidate (ClientUnexpectedResponse "job_snapshot" "live share submission")
  | Some live_cursor_before =>
      let* expected_attribution_id := st_lift (map_err ClientProtocol
        (canonical_attribution_id ce_sha256 (sub_identity submission) (sub_target_le submission))) in
      let expected_share_id := canonical_share_id ce_sha256 (sub_job_id submission) (sub_time submission)
                                 (sub_nonce submission) (sub_solution submission) in
      let* request_id := allocate_request_id in
      let* response := exchange io
        (SubmitShareRequest BACKEND_PROTOCOL_VERSION request_id (sub_job_id submission)
           (sub_identity submission) (sub_target_le submission) (sub_time submission)
           (sub_nonce submission) (sub_solution submission)) "submit_share" true in
      match fst response with
      | ShareCommitted _ _ receipt replayed =>
          check_share_commit submission expected_share_id expected_attribution_id live_cursor_before
            receipt replayed
      | ErrorMessage _ _ code message =>
          let* self := st_get in
          match matching_share_event_seq self (sub_job_id submission) expected_share_id
                  expected_attribution_id (sub_identity submission) (sub_target_le submission) with
          | Some seq => invalidate (ClientContradictoryShareOutcome seq)
          | None => st_throw (ClientBackendRejected code message)
          end
      | other => invalidate (ClientUnexpectedResponse "share_committed" (message_kind other))
      end
  end.

(** [SubmissionContext::job_id]. *)
Definition sc_job_id (context : SubmissionContext) : Hex32 := FixedHex_new (ga_job_id (sc_admission context)).

Definition submit_prepared_share_borrowed (io : Io) (context : SubmissionContext) : ClientM VerifiedShareCommit :=
  let descriptor := bg_descriptor (ga_generation (sc_admission context)) in
  let expected_parent_hash_le :=
    canonical_parent_header_hash_le ce_sha256 (jd_header_input descriptor) (sc_nonce context) (sc_solution context) in
  let submission := mkShareSubmission (sc_job_id context) (sc_identity context) (sc_target_le context)
                      (sc_time context) (sc_nonce context) (sc_solution context) in
  let recovery := is_winner_recovery (sc_admission context) in
  let paused := is_paused_zcash_candidate (sc_admission context) in
  fun self =>
  match submit_share io submission self with
  | (self, Ok commit) =>
      (do* validate_receipt_for_job (us_receipt commit) descriptor expected_parent_hash_le recovery paused
             (us_replayed commit) in
       st_ret (mkVerifiedShareCommit (us_receipt commit) (us_replayed commit))) self
  | (self, Err (ClientHistoricalReplayRequiresProjection receipt)) =>
      (do* validate_receipt_for_job receipt descriptor expected_parent_hash_le recovery paused true in
       st_throw (ClientHistoricalReplayRequiresProjection receipt)) self
  | (self, Err error) => (self, Err error)
  end.

(** [submit_prepared_share] owns the context until the exchange resolves. *)
Definition submit_prepared_share (io : Io) (context : SubmissionContext) : ClientM VerifiedShareCommit :=
  submit_prepared_share_borrowed io context.

Definition submit_recovery_candidate (io : Io) (context : SubmissionContext) : ClientM VerifiedShareCommit :=
  if negb (is_winner_recovery (sc_admission context))
  then st_throw (ClientProtocol (invalid "submission.role"
         "bounded retries require a qualified Zcash candidate"))
  else submit_prepared_share_borrowed io context.

Definition read_events (io : Io) (after_event_seq limit : Z) : ClientM EventPage :=
  let* self := st_get in
  do* st_lift (ensure_phase "read_events" PhaseReplay self) in
  if negb ((1 <=? limit) && (limit <=? MAX_EVENT_PAGE_ITEMS))
  then st_throw (ClientProtocol (invalid "read_events.limit" "must be in 1..=1024")) else
  if negb (after_event_seq =? bc_replay_cursor self)
  then st_throw (ClientReplayCursorMismatch (bc_replay_cursor self) after_event_seq) else
  let* request_id := allocate_request_id in
  let* response := exchange io (ReadEvents BACKEND_PROTOCOL_VERSION request_id after_event_seq limit)
                     "read_events" false in
  match fst response with
  | EventsPage _ _ response_cursor next_event_seq complete events =>
      if negb (response_cursor =? after_event_seq)
      then invalidate (ClientEventPageCursorMismatch after_event_seq response_cursor) else
      if limit <? Z.of_nat (length events)
      then invalidate (ClientEventPageLimitExceeded limit (length events)) else
      do* (if complete then observe_watermark "completed event replay" next_event_seq
           else st_modify (fun self =>
                  set_watermark (Z.max (bc_observed_event_high_watermark self) next_event_seq) self)) in
      do* st_modify (set_replay next_event_seq complete) in
      do* st_modify (remember_historical_events events) in
      st_ret (mkEventPage response_cursor next_event_seq complete events)
  | ErrorMessage _ _ code message => st_throw (ClientBackendRejected code message)
  | other => invalidate (ClientUnexpectedResponse "events_page" (message_kind other))
  end.

Definition health (io : Io) : ClientM HealthSnapshot :=
  let* request_id := allocate_request_id in
  let* self := st_get in
  let allow_events := bool_decide (bc_phase self = PhaseLive) in
  let* response := exchange io (Health BACKEND_PROTOCOL_VERSION request_id) "health" allow_events in
  match fst response with
  | HealthStatus _ _ seq healthy recovery_only pending_wcash quarantined_wcash pending_zcash =>
      do* observe_watermark "health" seq in
      do* require_live_events_through "health" seq in
      st_ret (mkHealthSnapshot seq healthy recovery_only pending_wcash quarantined_wcash pending_zcash)
  | ErrorMessage _ _ code message => st_throw (ClientBackendRejected code message)
  | other => invalidate (ClientUnexpectedResponse "health_status" (message_kind other))
  end.

(** [closed] is the outcome of closing the write half before the deadline. *)
Definition shutdown (self : BackendClient) (closed : option (result unit Z)) : result unit ClientError :=
  let? _ := ensure_usable self in
  let? outcome := ok_or closed (ClientTimeout "shutdown") in
  map_err (ClientIo "shutdown") outcome.
End Client.
