(* ===== verification/BackendClientProps.v ===== *)
(** What the backend client promises (crates/wcash-pool-backend-client/src/unix.rs): under every
    history of operations and whatever arrives on the socket, the journal events it hands out are
    contiguous and handed out once, a share is reported committed only with its exact journal event,
    and a connection whose framing or correlation became uncertain is never used again. *)

From Stdlib Require Import ZArith Lia.
From stdpp Require Import prelude gmap sorting strings.
From S2P Require Import Prelude Wire Target Nonce LargestRemainder Backend Stream Framing Jobs JobsInv JobsWorld JobsLife JobsProps Session BackendClient.
Open Scope Z_scope.

(** ** Partial correctness of client operations *)

Definition triple {A} (P : BackendClient -> Prop) (m : ClientM A)
    (Q : result A ClientError -> BackendClient -> Prop) : Prop :=
  forall c, P c -> let '(c', r) := m c in Q r c'.

Lemma triple_bind {A B} P (m : ClientM A) (k : A -> ClientM B) Q R :
  triple P m Q ->
  (forall a, triple (Q (Ok a)) (k a) R) -> (forall e c, Q (Err e) c -> R (Err e) c) ->
  triple P (st_bind m k) R.
Proof.
  intros Hm Hk He c Hc. specialize (Hm c Hc). unfold st_bind. destruct (m c) as [c1 [a|e]].
  - apply (Hk a c1 Hm).
  - by apply He.
Qed.

Lemma triple_get {B} P (k : BackendClient -> ClientM B) R :
  (forall c, P c -> triple (fun c' => c' = c) (k c) R) -> triple P (st_bind st_get k) R.
Proof. intros H c Hc. unfold st_bind, st_get. by apply (H c Hc c). Qed.

Lemma triple_lift {A} P (r : result A ClientError) (Q : result A ClientError -> BackendClient -> Prop) :
  (forall c, P c -> Q r c) -> triple P (st_lift r) Q.
Proof. intros H c Hc. by apply H. Qed.

Lemma triple_modify P f (Q : result unit ClientError -> BackendClient -> Prop) :
  (forall c, P c -> Q (Ok tt) (f c)) -> triple P (st_modify f) Q.
Proof. intros H c Hc. by apply H. Qed.

Lemma triple_pre {A} (P P' : BackendClient -> Prop) (m : ClientM A) Q :
  (forall c, P c -> P' c) -> triple P' m Q -> triple P m Q.
Proof. intros H Hm c Hc. apply Hm. by apply H. Qed.

Lemma triple_post {A} P (m : ClientM A) (Q Q' : result A ClientError -> BackendClient -> Prop) :
  (forall r c, Q r c -> Q' r c) -> triple P m Q -> triple P m Q'.
Proof. intros H Hm c Hc. specialize (Hm c Hc). destruct (m c). by apply H. Qed.

(** ** What a history leaves behind *)

(** Everything but the socket, the request counter and the usability. *)
Definition core (c : BackendClient) :=
  (bc_config c, bc_identity c, bc_connection_token c,
   (bc_queued_events c, bc_observed_events c, bc_historical_events c),
   (bc_phase c, bc_replay_cursor c, bc_observed_event_high_watermark c),
   (bc_live_event_cursor c, bc_subscribed_snapshot_event_seq c, bc_live_event_anchor_floor c)).

#[local] Abbreviation len l := (Z.of_nat (length l)).

(** The journal was replayed from [p] through the events [replayed], and the live events [popped]
    were handed out. *)
Record tracks (p : Z) (replayed popped : list BackendEvent) (c : BackendClient) : Prop := {
  tr_replay : event_seq <$> replayed = seqZ (p + 1) (len replayed);
  tr_cursor : bc_replay_cursor c = p + len replayed;
  tr_history : bc_historical_events c `suffix_of` replayed;
  tr_phase :
    match bc_phase c with
    | PhaseReplay =>
        bc_live_event_cursor c = None /\ bc_subscribed_snapshot_event_seq c = None /\
        bc_live_event_anchor_floor c = None /\ bc_queued_events c = [] /\ bc_observed_events c = [] /\ popped = []
    | PhaseLive =>
        exists s, bc_subscribed_snapshot_event_seq c = Some s /\ bc_replay_cursor c <= s /\
          is_Some (bc_live_event_anchor_floor c) /\
          let live := popped ++ (de_event <$> bc_queued_events c) in
          event_seq <$> live = seqZ (s + 1) (len live) /\ bc_live_event_cursor c = Some (s + len live)
    end;
  tr_observed : bc_observed_events c `suffix_of` popped;
  tr_bound : Forall (fun d => connection_binding c = Some (de_connection_binding d)) (bc_queued_events c);
  tr_live_watermark : forall cursor, bc_live_event_cursor c = Some cursor ->
    cursor <= bc_observed_event_high_watermark c;
  tr_capacity : (1 <= bcc_event_queue_capacity (bc_config c))%nat /\
    (length (bc_queued_events c) <= bcc_event_queue_capacity (bc_config c))%nat /\
    (length (bc_observed_events c) <= bcc_event_queue_capacity (bc_config c))%nat /\
    (length (bc_historical_events c) <= bcc_event_queue_capacity (bc_config c))%nat
}.

Lemma connection_binding_core c c' : core c' = core c -> connection_binding c' = connection_binding c.
Proof. unfold core, connection_binding, authority. intros [= E1 E2 E3 _ _ _ E4 _ _ _ E5 _]. by rewrite E1, E2, E3, E4, E5. Qed.

(** Nothing else matters. *)
Lemma tracks_core p R P c c' : core c' = core c -> tracks p R P c -> tracks p R P c'.
Proof.
  intros E [H1 H2 H3 H4 H5 H6 H8 H9]. pose proof (connection_binding_core _ _ E) as B.
  unfold core in E. injection E as Ec Ei Et Eq Eo Eh Ep Er Ew El Es Ef.
  split; rewrite ?Ec, ?Eq, ?Eo, ?Eh, ?Ep, ?Er, ?Ew, ?El, ?Es, ?Ef, ?B; auto.
Qed.

(** The live cursor is the highest sequence seen. *)
Definition synced (c : BackendClient) : Prop :=
  forall cursor, bc_live_event_cursor c = Some cursor -> cursor = bc_observed_event_high_watermark c.

(** A client between two operations. *)
Definition good (p : Z) (replayed popped : list BackendEvent) (c : BackendClient) : Prop :=
  tracks p replayed popped c /\ (bc_usable c = true -> synced c).

Lemma unusable_good p R P c : tracks p R P c -> bc_usable c = false -> good p R P c.
Proof. intros Ht Hu. split; [done|congruence]. Qed.

Lemma seqZ_snoc m n : 0 <= n -> seqZ m (n + 1) = seqZ m n ++ [m + n].
Proof. intros H. rewrite seqZ_app by lia. done. Qed.

(** ** Reading *)

Section Exchanges.
Context {env : ClientEnv}.

Lemma incoming_bytes_cons o s : incoming_bytes (o :: s) = (outcome_bytes o + incoming_bytes s)%nat.
Proof. done. Qed.

(** A complete section takes its bytes off the stream. *)
Lemma read_exact_bytes section clean n filled s s' bytes :
  (length filled <= n)%nat ->
  read_exact_section section clean n filled s = (s', Some (Ok bytes)) ->
  length bytes = n /\ (incoming_bytes s' + n = incoming_bytes s + length filled)%nat.
Proof.
  revert filled. induction s as [|o s IH]; intros filled Hf; cbn [read_exact_section].
  { destruct (Nat.leb_spec n (length filled)); [|done]. intros [= <- <-]. split; [lia|]. cbn. lia. }
  destruct (Nat.leb_spec n (length filled)); [intros [= <- <-]; split; lia|].
  destruct o as [[|b l]|]; try done. destruct (Nat.ltb_spec (n - length filled) (length (b :: l))).
  - intros [= <- <-]. rewrite length_app, length_take, !incoming_bytes_cons. cbn [outcome_bytes].
    rewrite length_drop. lia.
  - intros H'. apply IH in H' as [? H']; [|rewrite length_app; lia]. split; [done|].
    rewrite length_app in H'. rewrite incoming_bytes_cons. cbn [outcome_bytes]. lia.
Qed.

(** A message is at least a length prefix. *)
Lemma read_message_shrinks s s' r : read_backend_message s = (s', Some (Ok r)) ->
  (incoming_bytes s' < incoming_bytes s)%nat.
Proof.
  unfold read_backend_message. destruct (read_exact_section _ _ _ _ s) as [s1 [[prefix|]|]] eqn:E1; try done.
  apply read_exact_bytes in E1 as [_ E1]; [|cbn; lia]. case_match; [done|]. case_match; [done|].
  destruct (read_exact_section _ _ _ _ s1) as [s2 [[payload|]|]] eqn:E2; try done.
  apply read_exact_bytes in E2 as [_ E2]; [|cbn; lia]. intros [= <- _].
  unfold BACKEND_LENGTH_PREFIX_BYTES in E1. cbn [length] in E1, E2. lia.
Qed.

(** A message the client reads was validated. *)
Lemma read_message_validated s s' m : read_backend_message s = (s', Some (Ok m)) ->
  BackendMessage_validate ce_sha256 m = Ok tt.
Proof.
  unfold read_backend_message. destruct (read_exact_section _ _ _ _ s) as [s1 [[prefix|]|]]; try done.
  case_match; [done|]. case_match; [done|].
  destruct (read_exact_section _ _ _ _ s1) as [s2 [[payload|]|]]; try done. intros [= _ H'].
  assert (map_err ClientProtocol (decode_backend_message ce_sha256 ce_from_slice (prefix ++ payload)) = Ok m) as Hd.
  { destruct (ce_value_version payload) as [[v|]|]; cbn [map_err] in H'; [|done|done]. by destruct (negb _). }
  clear H'. unfold decode_backend_message, decode_message in Hd.
  destruct (decode_length_frame _ _) as [x|]; [|done]. cbn in Hd.
  destruct (BackendMessage_validate ce_sha256 x) as [[]|] eqn:E; [|done]. by simplify_eq/=.
Qed.

(** ** Delivering events *)

Definition deliver (anchor : MonotonicAnchor) (b : BackendConnectionBinding) (c : BackendClient)
    (event : BackendEvent) : BackendClient :=
  set_events (bc_queued_events c ++ [mkDeliveredBackendEvent event anchor b]) (bc_observed_events c)
    (bc_historical_events c)
    (set_watermark (Z.max (bc_observed_event_high_watermark c) (event_seq event))
       (set_live_cursor (Some (event_seq event)) c)).

Lemma accept_event_spec operation allow anchor binding event c c' r :
  accept_event operation allow anchor binding event c = (c', r) -> (allow = true -> is_Some binding) ->
  match r with
  | Err _ => c' = c
  | Ok _ => allow = true /\ exists cursor b, bc_live_event_cursor c = Some cursor /\ binding = Some b /\
      event_seq event = cursor + 1 /\ cursor + 1 <= U64_MAX /\
      length (bc_queued_events c) <> bcc_event_queue_capacity (bc_config c) /\ c' = deliver anchor b c event
  end.
Proof.
  intros H Hb. unfold accept_event in H. destruct allow; cbn [negb] in H; [|by st_unfold; simplify_eq].
  destruct (Hb eq_refl) as [b ->]. st_unfold.
  destruct (bc_live_event_cursor c) as [cursor|] eqn:Hc; [|by simplify_eq].
  destruct (checked_add U64_MAX cursor 1) as [x|] eqn:Hx; [|by simplify_eq].
  apply checked_add_Some in Hx as [-> Hx].
  destruct (Z.eqb_spec (event_seq event) (cursor + 1)) as [Es|]; cbn [negb] in H; [|by simplify_eq].
  destruct (Nat.eqb_spec (length (bc_queued_events c)) (bcc_event_queue_capacity (bc_config c))); [by simplify_eq|].
  injection H as <- <-. split; [done|]. exists cursor, b. by split_and!.
Qed.

(** The connection keeps its session while it reads. *)
Definition same_session (c c' : BackendClient) : Prop :=
  bc_config c' = bc_config c /\ bc_identity c' = bc_identity c /\
  bc_connection_token c' = bc_connection_token c /\ bc_phase c' = bc_phase c /\
  bc_subscribed_snapshot_event_seq c' = bc_subscribed_snapshot_event_seq c /\
  bc_replay_cursor c' = bc_replay_cursor c /\ bc_observed_events c' = bc_observed_events c /\
  bc_historical_events c' = bc_historical_events c.

#[local] Instance same_session_preorder : PreOrder same_session.
Proof. unfold same_session. split; [intros c; by split_and!|]. intros c1 c2 c3 H1 H2. destruct_and!. split_and!; congruence. Qed.

Lemma same_session_binding c c' : same_session c c' -> connection_binding c' = connection_binding c.
Proof. unfold connection_binding, authority. intros (-> & -> & -> & -> & -> & _). done. Qed.

Lemma deliver_tracks p R P anchor b c event cursor :
  tracks p R P c -> bc_live_event_cursor c = Some cursor ->
  connection_binding c = Some b -> event_seq event = cursor + 1 ->
  length (bc_queued_events c) <> bcc_event_queue_capacity (bc_config c) ->
  tracks p R P (deliver anchor b c event).
Proof.
  intros [H1 H2 H3 H4 H5 H6 H8 H9] Hc Hb Es Hq. unfold deliver. split; cbn; auto.
  - destruct (bc_phase c); [by destruct H4; congruence|].
    destruct H4 as (s & Hs & Hr & Hf & Hseq & Hcur). exists s. split_and!; auto; rewrite (fmap_app de_event), app_assoc;
      cbn [fmap list_fmap de_event]; rewrite (length_app _ [event]), Nat2Z.inj_add; cbn [length].
    + rewrite fmap_app, Hseq, seqZ_snoc by lia. cbn [fmap list_fmap]. rewrite Es. do 2 f_equal. simplify_eq. lia.
    + f_equal. simplify_eq. lia.
  - rewrite Forall_app. split; [done|]. constructor; [|done]. done.
  - intros x [= <-]. lia.
  - rewrite length_app. cbn [length]. lia.
Qed.

(** The cursor and the queue only grow. *)
Definition cursor_grows (c c' : BackendClient) : Prop :=
  (forall x, bc_live_event_cursor c = Some x -> exists y, bc_live_event_cursor c' = Some y /\ x <= y) /\
  bc_queued_events c `prefix_of` bc_queued_events c'.

#[local] Instance cursor_grows_preorder : PreOrder cursor_grows.
Proof.
  split; [intros c; split; [eauto with lia|done]|]. intros c1 c2 c3 [A B] [A' B']. split; [|by etrans].
  intros x Hx. destruct (A x Hx) as (y & Hy & ?). destruct (A' y Hy) as (z & Hz & ?). eauto with lia.
Qed.

Record reads (c c' : BackendClient) : Prop := {
  rd_session : same_session c c';
  rd_grows : cursor_grows c c';
  rd_synced : synced c -> synced c';
  rd_floor : bc_live_event_anchor_floor c' = bc_live_event_anchor_floor c;
  rd_next : bc_next_request_id c' = bc_next_request_id c;
  rd_outgoing : us_outgoing (bc_stream c') = us_outgoing (bc_stream c)
}.

#[local] Instance reads_preorder : PreOrder reads.
Proof.
  split; [intros c; split; auto; reflexivity|]. intros c1 c2 c3 [] []. split; try (by etrans); try congruence. auto.
Qed.

Lemma set_incoming_reads s c : reads c (set_incoming s c).
Proof. split; try done. split; [cbn; eauto with lia|done]. Qed.

Lemma deliver_reads anchor b c event cursor : bc_live_event_cursor c = Some cursor ->
  event_seq event = cursor + 1 -> reads c (deliver anchor b c event).
Proof.
  intros Hc Es. split; try done.
  - split; cbn; [|by exists [mkDeliveredBackendEvent event anchor b]]. intros x Hx. eexists; split; [done|].
    simplify_eq. lia.
  - intros Hs x [= <-]. cbn. specialize (Hs _ Hc). lia.
Qed.

Lemma correlate_Ok id m m' : correlate id m = Ok m' -> m' = m /\ correlation_id m = Some id.
Proof.
  unfold correlate. destruct (correlation_id m) as [x|]; cbn [ok_or]; [|done].
  destruct (Z.eqb_spec x id); cbn [negb]; [|done]. intros [= <-]. by subst.
Qed.

Lemma exchange_loop_spec fuel id operation allow anchor binding c c' r p R P :
  exchange_loop fuel id operation allow anchor binding c = (c', r) ->
  tracks p R P c -> bc_usable c = false ->
  (allow = true -> is_Some binding /\ connection_binding c = binding) ->
  tracks p R P c' /\ bc_usable c' = false /\ reads c c' /\
  match r with
  | Some (Ok m) => correlation_id m = Some id /\ BackendMessage_validate ce_sha256 m = Ok tt
  | _ => True
  end.
Proof.
  revert c. induction fuel as [|fuel IH]; intros c; cbn [exchange_loop].
  { intros [= <- <-] Ht Hu _. by split_and!. }
  destruct (read_backend_message _) as [s o] eqn:Er. intros H Ht Hu Hb.
  assert (tracks p R P (set_incoming s c)) as Ht1 by (by refine (tracks_core _ _ _ _ _ _ Ht)).
  pose proof (set_incoming_reads s c) as Hr1.
  destruct o as [[m|e]|]; [|injection H as <- <-; by split_and!|injection H as <- <-; by split_and!].
  pose proof (read_message_validated _ _ _ Er) as Hv.
  destruct m as [| | | | | |v event];
    try (injection H as <- <-; split_and!; try done; match goal with |- context [correlate id ?m] =>
           destruct (correlate id m) eqn:E; [apply correlate_Ok in E as [-> ?]; by split|done] end).
  destruct (accept_event _ _ _ _ _ _) as [c1 [u|e]] eqn:Ea.
  - apply accept_event_spec in Ea as (Ha & cursor & b & Hc & -> & Es & Hmax & Hq & ->); [|naive_solver].
    destruct (Hb Ha) as [_ Hb']. pose proof (deliver_reads anchor b _ event cursor Hc Es) as Hr2.
    apply IH in H as (A & B & C & D).
    + split_and!; [done|done| |done]. etrans; [exact Hr1|]. by etrans.
    + by apply (deliver_tracks _ _ _ _ _ _ _ cursor).
    + done.
    + intros _. split; [done|]. rewrite <- Hb'. apply same_session_binding, Hr2.
  - apply accept_event_spec in Ea as ->; [|naive_solver]. injection H as <- <-. by split_and!.
Qed.

(** An exchange: the client keeps its session, and a failed one leaves it as it was or unusable. *)
Definition exchanged (c c' : BackendClient) : Prop :=
  same_session c c' /\ cursor_grows c c'.

#[local] Instance exchanged_preorder : PreOrder exchanged.
Proof. split; [intros c; by split|]. intros c1 c2 c3 [A B] [C D]. split; by etrans. Qed.

Lemma exchanged_core c c' : core c' = core c -> exchanged c c'.
Proof.
  unfold core. intros [= E1 E2 E3 E4 E5 E6 E7 E8 E9 E10 E11 E12]. split; [|split].
  - by split_and!.
  - rewrite E10. eauto with lia.
  - by rewrite E4.
Qed.

Lemma exchange_spec io request operation allow p R P c0 :
  triple (fun c => c = c0 /\ good p R P c0) (exchange io request operation allow)
    (fun r c => good p R P c /\ exchanged c0 c /\
       match r with
       | Ok (m, a) => bc_usable c0 = true /\ bc_usable c = true /\ a = io_now io /\
           correlation_id m = Some (BackendRequest_id request) /\ BackendMessage_validate ce_sha256 m = Ok tt
       | Err _ => c = c0 \/ bc_usable c = false
       end).
Proof.
  intros c [-> Hg]. pose proof Hg as [Ht Hy]. unfold exchange. st_unfold. unfold ensure_usable.
  destruct (bc_usable c0) eqn:Hu; [|split_and!; auto; by apply exchanged_core].
  destruct (encode_backend_request _ _) as [frame|]; [|split_and!; auto; by apply exchanged_core].
  assert (tracks p R P (set_usable false c0)) as Hf by (by refine (tracks_core _ _ _ _ _ _ Ht)).
  destruct (event_origin _ _ _) as [[ea eb]|] eqn:Eo;
    [|split_and!; [by apply unusable_good|by apply exchanged_core|auto]].
  assert (tracks p R P (arrive (io_arrivals io) (set_usable false c0))) as Hf' by (by refine (tracks_core _ _ _ _ _ _ Hf)).
  destruct (io_write io) as [| |]; [|split_and!; [by apply unusable_good|by apply exchanged_core|auto]..].
  match goal with |- context [exchange_loop ?f ?i ?o ?al ?an ?bi ?c] =>
    destruct (exchange_loop f i o al an bi c) as [c1 r] eqn:El; set (c2 := c) in * end.
  apply (exchange_loop_spec _ _ _ _ _ _ _ _ _ p R P) in El as (A & B & [C1 C2 C3 C4 C5 C6] & D).
  2: { by refine (tracks_core _ _ _ _ _ _ Hf'). } 2: done.
  2: { intros ->. cbn in Eo. destruct (bc_live_event_anchor_floor c0), (connection_binding c0) as [b|] eqn:Eb; try done.
       injection Eo as <- <-. split; [done|]. exact Eb. }
  assert (exchanged c0 c1) as Hx by (split; [exact C1|exact C2]).
  destruct r as [[m|e]|]; [|split_and!; [by apply unusable_good|apply Hx|auto]..].
  destruct D as [D1 D2]. split_and!; auto; [|destruct allow; exact Hx]. split.
  2: { intros _. destruct allow; exact (C3 (Hy eq_refl)). }
  destruct allow; [|by refine (tracks_core _ _ _ _ _ _ A)].
  destruct A as [H1 H2 H3 H4 H5 H6 H8 H9]. split; cbn; auto.
  destruct (bc_phase c1) eqn:Ep; [|naive_solver]. exfalso.
  cbn in Eo. destruct (bc_live_event_anchor_floor c0) eqn:Ef; [|done].
  destruct H4 as (_ & _ & H4 & _). rewrite C4 in H4. cbn in H4. congruence.
Qed.

(** ** The operations *)

Lemma invalidate_good {A} p R P e c (Q : BackendClient -> Prop) :
  tracks p R P c -> Q (set_usable false c) ->
  let '(c', r) := @invalidate A e c in good p R P c' /\ bc_usable c' = false /\ r = Err e /\ Q c'.
Proof. intros Ht Hq. split_and!; [|done..]. apply unusable_good; [|done]. by refine (tracks_core _ _ _ _ _ _ Ht). Qed.

Lemma allocate_spec p R P c0 :
  triple (fun c => c = c0 /\ good p R P c0) allocate_request_id
    (fun r c => good p R P c /\ core c = core c0 /\
       match r with
       | Ok id => c = set_next_request_id (id + 1) c0 /\ id = bc_next_request_id c0 /\ bc_usable c0 = true
       | Err e => bc_usable c = false
       end).
Proof.
  intros c [-> Hg]. unfold allocate_request_id, ensure_usable. st_unfold.
  destruct (bc_usable c0) eqn:Hu; [|by split_and!]. destruct (checked_add _ _ _) as [n|] eqn:E.
  - apply checked_add_Some in E as [-> _]. split_and!; [|done..]. split; [by refine (tracks_core _ _ _ _ _ _ (proj1 Hg))|].
    intros _. exact (proj2 Hg Hu).
  - split_and!; [|done..]. apply unusable_good; [|done]. by refine (tracks_core _ _ _ _ _ _ (proj1 Hg)).
Qed.

(** A failure that leaves the connection usable was the backend's answer, or nothing was sent. *)
Definition backend_answered (e : ClientError) : bool :=
  match e with ClientBackendRejected _ _ | ClientHistoricalReplayRequiresProjection _ => true | _ => false end.
Definition poisons (e : ClientError) (c0 c : BackendClient) : Prop :=
  bc_usable c = true -> backend_answered e = true \/ us_outgoing (bc_stream c) = us_outgoing (bc_stream c0).

(** Allocating an identifier and the exchange that uses it. *)
Lemma request_spec {A} io (request : Z -> BackendRequest) operation allow p R P c0
    (k : BackendMessage * MonotonicAnchor -> ClientM A) Q :
  good p R P c0 -> (forall id, BackendRequest_id (request id) = id) ->
  (forall e c, good p R P c -> exchanged c0 c -> poisons e c0 c -> Q (Err e) c) ->
  (forall m c, good p R P c -> exchanged c0 c -> bc_usable c = true ->
     correlation_id m = Some (bc_next_request_id c0) -> BackendMessage_validate ce_sha256 m = Ok tt ->
     triple (fun c' => c' = c) (k (m, io_now io)) Q) ->
  triple (fun c => c = c0)
    (let* id := allocate_request_id in let* response := exchange io (request id) operation allow in k response) Q.
Proof.
  intros Hg Hid He Hk.
  eapply triple_bind; [eapply triple_pre; [|apply (allocate_spec p R P c0)]; intros c ->; by split| |].
  - intros id c1 (G1 & C1 & -> & -> & Hu).
    pose proof (exchange_spec io (request (bc_next_request_id c0)) operation allow p R P
      (set_next_request_id (bc_next_request_id c0 + 1) c0) _ (conj eq_refl G1)) as Hx.
    unfold st_bind. destruct (exchange _ _ _ _ _) as [c2 [[m a]|e]]; destruct Hx as (G2 & X2 & Hx).
    + destruct Hx as (_ & U2 & -> & Hc & Hv). rewrite Hid in Hc. by apply (Hk m c2).
    + apply He; [done..|]. intros U. right. destruct Hx as [->|]; [done|congruence].
  - intros e c (G1 & C1 & U). apply He; [done|by apply exchanged_core|]. intros ?. congruence.
Qed.

Lemma triple_check {A B} c0 (r : result A ClientError) (k : A -> ClientM B) Q :
  (forall e, r = Err e -> Q (Err e) c0) -> (forall a, r = Ok a -> triple (fun c => c = c0) (k a) Q) ->
  triple (fun c => c = c0) (st_bind (st_lift r) k) Q.
Proof. intros He Hk c ->. unfold st_bind, st_lift. destruct r as [a|e]; [by apply (Hk a)|by apply He]. Qed.

Lemma triple_self {B} c0 (k : BackendClient -> ClientM B) Q :
  triple (fun c => c = c0) (k c0) Q -> triple (fun c => c = c0) (st_bind st_get k) Q.
Proof. intros H c ->. unfold st_bind, st_get. by apply (H c0). Qed.

Lemma triple_throw {A} c0 e (Q : result A ClientError -> BackendClient -> Prop) :
  Q (Err e) c0 -> triple (fun c => c = c0) (st_throw e) Q.
Proof. intros H c ->. exact H. Qed.

(** A failed operation changes neither what was replayed nor what was handed out. *)
Definition outcome {A} (p : Z) (R P : list BackendEvent) (c0 : BackendClient)
    (Q : A -> BackendClient -> Prop) (r : result A ClientError) (c : BackendClient) : Prop :=
  match r with Ok a => Q a c | Err e => good p R P c /\ exchanged c0 c /\ poisons e c0 c end.

Lemma outcome_invalidate {A} p R P c0 (Q : A -> BackendClient -> Prop) c e :
  tracks p R P c -> exchanged c0 c -> triple (fun c' => c' = c) (invalidate e) (outcome p R P c0 Q).
Proof.
  intros Ht Hx c' ->. split_and!; [|etrans; [exact Hx|]; by apply exchanged_core|done].
  apply unusable_good; [|done]. by refine (tracks_core _ _ _ _ _ _ Ht).
Qed.

Lemma outcome_answer {A} p R P c0 (Q : A -> BackendClient -> Prop) c e : backend_answered e = true ->
  good p R P c -> exchanged c0 c -> triple (fun c' => c' = c) (st_throw e) (outcome p R P c0 Q).
Proof. intros He Hg Hx c' ->. split_and!; try done. by left. Qed.

Lemma outcome_refuse {A} p R P (Q : A -> BackendClient -> Prop) c e :
  good p R P c -> outcome p R P c Q (Err e) c.
Proof. intros Hg. split_and!; try done. by right. Qed.

Lemma outcome_throw {A} p R P (Q : A -> BackendClient -> Prop) c e :
  good p R P c -> triple (fun c' => c' = c) (st_throw e) (outcome p R P c Q).
Proof. intros Hg c' ->. by apply outcome_refuse. Qed.

Lemma ensure_phase_Ok operation required c : ensure_phase operation required c = Ok tt ->
  bc_usable c = true /\ bc_phase c = required.
Proof.
  unfold ensure_phase, ensure_usable. destruct (bc_usable c); [|done].
  destruct (bool_decide_reflect (bc_phase c = required)); by intros.
Qed.

(** *** Subscribing *)

Lemma enter_live_good p R P c seq anchor :
  tracks p R P c -> bc_phase c = PhaseReplay -> bc_replay_cursor c <= seq ->
  bc_observed_event_high_watermark c = seq -> good p R P (enter_live seq anchor c).
Proof.
  intros [H1 H2 H3 H4 H5 H6 H8 H9] Hp Hr Hw. rewrite Hp in H4. destruct H4 as (A & B & C & D & E & ->).
  split; [split|]; cbn; auto.
  - exists seq. rewrite D. cbn. split_and!; auto. f_equal. lia.
  - rewrite D. constructor.
  - intros x [= <-]. lia.
  - intros _ x [= <-]. by cbn.
Qed.

Lemma observe_watermark_spec operation received c :
  let '(c', r) := observe_watermark operation received c in
  match r with
  | Err e => c' = set_usable false c
  | Ok _ => bc_observed_event_high_watermark c <= received /\
      exists complete, c' = set_replay (bc_replay_cursor c) complete (set_watermark received c)
  end.
Proof.
  unfold observe_watermark. st_unfold. destruct (Z.ltb_spec received (bc_observed_event_high_watermark c)); [done|].
  destruct (_ && _); split; try done; [by exists false|]. exists (bc_replay_complete c). by destruct c.
Qed.

(** A completed replay, a snapshot or a health report that raises the watermark. *)
Lemma raise_watermark p R P c seq complete : tracks p R P c -> bc_observed_event_high_watermark c <= seq ->
  tracks p R P (set_replay (bc_replay_cursor c) complete (set_watermark seq c)).
Proof.
  intros [H1 H2 H3 H4 H5 H6 H8 H9] Hw. split; cbn; auto. intros x Hx. specialize (H8 x Hx). lia.
Qed.

Lemma subscribe_spec io after p R P c0 : good p R P c0 ->
  triple (fun c => c = c0) (subscribe_jobs io after)
    (outcome p R P c0 (fun snapshot c => good p R P c /\
       bc_phase c0 = PhaseReplay /\ bc_phase c = PhaseLive /\
       bc_subscribed_snapshot_event_seq c = Some (js_event_seq snapshot) /\
       js_replayed_through_event_seq snapshot = p + len R /\ p + len R <= js_event_seq snapshot /\
       connection_binding c = Some (js_connection_binding snapshot) /\ js_anchor snapshot = io_now io)).
Proof.
  intros Hg. unfold subscribe_jobs. apply triple_self, triple_check; [intros e _; by apply outcome_refuse|]. intros [] Hp.
  apply ensure_phase_Ok in Hp as [_ Hp].
  destruct (Z.eqb_spec after (bc_replay_cursor c0)) as [->|]; cbn [negb]; [|by apply outcome_throw].
  destruct (bc_replay_complete c0); cbn [negb]; [|by apply outcome_throw].
  apply (request_spec _ (fun id => SubscribeJobs _ id _) _ _ p R P c0); [done|done|by intros; split_and!|].
  intros m c Hc Hx Hu _ _. cbn [fst snd]. pose proof Hx as [(_ & _ & _ & Ep & _ & Er & _) _].
  destruct m as [|v id seq current recent| | | |v id code message|]; try (by apply outcome_invalidate; [apply Hc|]).
  2: by apply outcome_answer.
  destruct (Z.ltb_spec seq (bc_replay_cursor c0)); [by apply outcome_invalidate; [apply Hc|]|].
  intros c' ->. unfold st_bind. pose proof (observe_watermark_spec "job snapshot" seq c) as Hw.
  destruct (observe_watermark _ _ c) as [c1 [[]|e]].
  - destruct Hw as (Hw & complete & ->).
    assert (good p R P (enter_live seq (io_now io) (set_replay (bc_replay_cursor c) complete (set_watermark seq c)))) as Hl.
    { apply enter_live_good; [by apply raise_watermark; [apply Hc|]|cbn; congruence|cbn; congruence|done]. }
    destruct Hc as [[_ Hcur _ _ _ _ _ _] _]. rewrite Er in *. rewrite <- Hcur. cbn. split_and!; first [exact Hl|done|lia].
  - subst c1. by apply (outcome_invalidate p R P c0 _ c e (proj1 Hc) Hx c).
Qed.

(** *** Replaying *)

Lemma push_bounded_suffix {A} capacity (queue whole : list A) x :
  queue `suffix_of` whole -> push_bounded capacity queue x `suffix_of` whole ++ [x].
Proof.
  intros [k ->]. unfold push_bounded. case_match; [|by exists k; rewrite app_assoc].
  destruct queue as [|y queue]; cbn; [by exists k; rewrite app_nil_r|]. exists (k ++ [y]). by rewrite <- !app_assoc.
Qed.

Lemma push_bounded_length {A} capacity (queue : list A) x : (1 <= capacity)%nat ->
  (length queue <= capacity)%nat -> (length (push_bounded capacity queue x) <= capacity)%nat.
Proof.
  intros Hc Hq. unfold push_bounded. rewrite length_app. cbn.
  destruct (Nat.eqb_spec (length queue) capacity); [destruct queue; cbn in *; lia|lia].
Qed.

Lemma push_all_suffix {A} capacity (events queue whole : list A) :
  queue `suffix_of` whole -> foldl (push_bounded capacity) queue events `suffix_of` whole ++ events.
Proof.
  revert queue whole. induction events as [|e events IH]; intros queue whole Hs; [by rewrite app_nil_r|].
  cbn. replace (whole ++ e :: events) with ((whole ++ [e]) ++ events) by (by rewrite <- app_assoc).
  by apply IH, push_bounded_suffix.
Qed.

Lemma push_all_length {A} capacity (events queue : list A) : (1 <= capacity)%nat ->
  (length queue <= capacity)%nat -> (length (foldl (push_bounded capacity) queue events) <= capacity)%nat.
Proof.
  intros Hc. revert queue. induction events as [|e events IH]; intros queue Hq; [done|].
  cbn. by apply IH, push_bounded_length.
Qed.

Lemma events_page_contiguous v id after next complete events :
  BackendMessage_validate ce_sha256 (EventsPage v id after next complete events) = Ok tt ->
  event_seq <$> events = seqZ (after + 1) (len events) /\ next = after + len events.
Proof.
  intros H. unfold BackendMessage_validate in H. rewrite !seq_Ok, bind_Ok in H.
  destruct H as (_ & _ & _ & _ & prev & Hp & Hn). rewrite check_Ok, Z.eqb_eq in Hn. subst next.
  by apply validate_page_events_Ok in Hp as (Hs & -> & _).
Qed.

(** A page extends the replay. *)
Lemma replay_good p R P c events complete :
  good p R P c -> bc_phase c = PhaseReplay ->
  event_seq <$> events = seqZ (bc_replay_cursor c + 1) (len events) ->
  bc_replay_cursor c + len events <= bc_observed_event_high_watermark c ->
  good p (R ++ events) P
    (remember_historical_events events (set_replay (bc_replay_cursor c + len events) complete c)).
Proof.
  intros [[H1 H2 H3 H4 H5 H6 H8 H9] Hs] Hp He Hw. split; [split|]; cbn; auto.
  - rewrite fmap_app, H1, He, H2, length_app, Nat2Z.inj_add, seqZ_app by lia. do 2 f_equal. lia.
  - rewrite length_app. lia.
  - by apply push_all_suffix.
  - rewrite Hp in H4 |- *. naive_solver.
  - split_and!; try apply H9. apply push_all_length; apply H9.
Qed.

Lemma read_events_spec io after limit p R P c0 : good p R P c0 ->
  triple (fun c => c = c0) (read_events io after limit)
    (outcome p R P c0 (fun page c => good p (R ++ ep_events page) P c /\ bc_phase c = PhaseReplay /\
       bc_phase c0 = PhaseReplay /\ bc_connection_token c = bc_connection_token c0 /\ bc_config c = bc_config c0 /\
       len (ep_events page) <= limit)).
Proof.
  intros Hg. unfold read_events. apply triple_self, triple_check; [intros e _; by apply outcome_refuse|]. intros [] Hp.
  apply ensure_phase_Ok in Hp as [_ Hp].
  destruct (negb (_ && _)); [by apply outcome_throw|].
  destruct (Z.eqb_spec after (bc_replay_cursor c0)) as [->|]; cbn [negb]; [|by apply outcome_throw].
  apply (request_spec _ (fun id => ReadEvents _ id _ _) _ _ p R P c0); [done|done|by intros; split_and!|].
  intros m c Hc Hx Hu _ Hv. cbn [fst snd]. pose proof Hx as [(Ec & _ & Et & Ep & _ & Er & _) _].
  destruct m as [| | |v id rc next complete events| |v id code message|]; try (by apply outcome_invalidate; [apply Hc|]).
  2: by apply outcome_answer.
  destruct (Z.eqb_spec rc (bc_replay_cursor c0)) as [->|]; cbn [negb]; [|by apply outcome_invalidate; [apply Hc|]].
  destruct (Z.ltb_spec limit (len events)); [by apply outcome_invalidate; [apply Hc|]|].
  apply events_page_contiguous in Hv as [He ->]. rewrite Hp in Ep. rewrite <- Er in He |- *.
  set (next := bc_replay_cursor c + len events) in *.
  assert (forall c1 complete', good p R P c1 -> bc_phase c1 = PhaseReplay ->
    bc_replay_cursor c1 = bc_replay_cursor c -> next <= bc_observed_event_high_watermark c1 ->
    good p (R ++ events) P (remember_historical_events events (set_replay next complete' c1))) as Hr.
  { intros c1 complete' G1 P1 R1 W1. unfold next. rewrite <- R1. apply replay_good; rewrite ?R1; auto. }
  assert (bc_live_event_cursor c = None) as Hl.
  { destruct Hc as [[_ _ _ H4 _ _ _ _] _]. rewrite Ep in H4. apply H4. }
  intros c' ->. unfold st_bind at 1. destruct complete.
  - pose proof (observe_watermark_spec "completed event replay" next c) as Hw.
    destruct (observe_watermark _ _ c) as [c1 [[]|e]].
    + destruct Hw as (Hw & complete & ->). split; [|done]. apply Hr; try done.
      split; [by apply raise_watermark; [apply Hc|]|]. intros _ x Hx'. cbn in Hx'. congruence.
    + subst c1. by apply (outcome_invalidate p R P c0 _ c e (proj1 Hc) Hx c).
  - split; [|done]. apply Hr; try done; [|cbn; lia]. split.
    + refine (tracks_core _ _ _ _ _ _ (raise_watermark p R P c
        (Z.max (bc_observed_event_high_watermark c) next) (bc_replay_complete c) (proj1 Hc) _)); [done|lia].
    + intros _ x Hx'. cbn in Hx'. congruence.
Qed.

(** *** Health *)

Lemma health_spec io p R P c0 : good p R P c0 ->
  triple (fun c => c = c0) (health io)
    (outcome p R P c0 (fun h c => good p R P c /\ exchanged c0 c /\ bc_usable c = true /\
       (bc_phase c = PhaseLive -> bc_live_event_cursor c = Some (hs_event_seq h)))).
Proof.
  intros Hg. unfold health.
  eapply triple_bind; [eapply triple_pre; [|apply (allocate_spec p R P c0)]; intros c ->; by split| |].
  2: { intros e c (G & C & U). split_and!; [done|by apply exchanged_core|]. intros ?. congruence. }
  intros id c1 (G1 & C1 & -> & -> & Hu). set (c1 := set_next_request_id _ c0) in *.
  refine (triple_self c1 _ _ _ c1 eq_refl). cbn [bc_phase].
  eapply triple_bind; [eapply triple_pre; [|apply (exchange_spec _ _ _ _ p R P c1)]; intros c ->; by split| |].
  2: { intros e c (G & X & U). split_and!; [done|etrans; [by apply exchanged_core|exact X]|].
       intros ?. right. destruct U as [->|]; [done|congruence]. }
  intros [m a] c (Hc & Hx & _ & U & _). assert (exchanged c0 c) as Hx' by (etrans; [by apply exchanged_core|exact Hx]).
  clear dependent c1. cbn [fst].
  destruct m as [| | | |v id seq healthy only pw qw pz|v id code message|];
    try (by refine (outcome_invalidate p R P c0 _ c _ (proj1 Hc) Hx' c eq_refl)).
  2: by refine (outcome_answer p R P c0 _ c _ _ Hc Hx' c eq_refl).
  unfold st_bind at 1. pose proof (observe_watermark_spec "health" seq c) as Hw.
  destruct (observe_watermark _ _ c) as [c2 [[]|e]].
  2: { subst c2. by refine (outcome_invalidate p R P c0 _ c _ (proj1 Hc) Hx' c eq_refl). }
  destruct Hw as (Hw & complete & ->). set (c2 := set_replay _ _ _).
  assert (tracks p R P c2) as Ht by (apply raise_watermark; [apply Hc|done]).
  assert (exchanged c0 c2) as Hx2.
  { etrans; [exact Hx'|]. split; [by split_and!|]. split; [cbn; eauto with lia|done]. }
  unfold require_live_events_through. st_unfold.
  change (bc_phase c2) with (bc_phase c). change (bc_live_event_cursor c2) with (bc_live_event_cursor c).
  destruct (bool_decide_reflect (bc_phase c = PhaseLive)) as [Hp|Hp]; cbn [negb].
  - destruct (bc_live_event_cursor c) as [cursor|] eqn:El.
    2: { by refine (outcome_invalidate p R P c0 _ c2 _ Ht Hx2 c2 eq_refl). }
    destruct (Z.ltb_spec cursor seq); [by refine (outcome_invalidate p R P c0 _ c2 _ Ht Hx2 c2 eq_refl)|].
    assert (cursor = seq) as -> by (pose proof (tr_live_watermark _ _ _ _ Ht cursor El) as Hm; cbn in Hm; lia).
    split_and!; try done. split; [done|]. intros _ x Hx''. cbn in Hx'' |- *. congruence.
  - split_and!; try done. split; [done|]. intros _ x Hx''. exfalso. apply Hp.
    pose proof (tr_phase _ _ _ _ Ht) as H4. change (bc_phase c2) with (bc_phase c) in H4.
    destruct (bc_phase c); [|done]. destruct H4 as [H4 _]. congruence.
Qed.

(** *** Handing out an event *)

Lemma pop_spec p R P c c' o : good p R P c -> pop_queued_event c = (c', o) ->
  match o with
  | None => c' = c /\ bc_queued_events c = []
  | Some d => good p R (P ++ [de_event d]) c' /\ connection_binding c = Some (de_connection_binding d) /\
      bc_queued_events c = d :: bc_queued_events c' /\ same_session c (set_events (bc_queued_events c') (bc_observed_events c) (bc_historical_events c) c')
  end.
Proof.
  intros [[H1 H2 H3 H4 H5 H6 H8 H9] Hs]. unfold pop_queued_event.
  destruct (bc_queued_events c) as [|d rest] eqn:Eq; intros [= <- <-]; [done|].
  apply Forall_cons in H6 as [Hb H6]. split_and!; try done. split; [split|]; cbn; auto.
  - destruct (bc_phase c); [by destruct H4 as (_ & _ & _ & ? & _)|].
    destruct H4 as (s & A & B & C & D & E). exists s. split_and!; auto;
      replace ((P ++ [de_event d]) ++ (de_event <$> rest)) with (P ++ (de_event <$> d :: rest))
        by (cbn; by rewrite <- app_assoc); done.
  - by apply push_bounded_suffix.
  - cbn in H9. split_and!; try apply H9; [destruct H9; lia|]. apply push_bounded_length; apply H9.
Qed.

(** *** Committing shares *)

Lemma share_event_matches_spec event receipt identity target :
  share_event_matches event receipt identity target = true <->
  event = ShareCommittedEvent receipt (sr_job_id receipt) identity target.
Proof.
  destruct event; cbn [share_event_matches]; try done.
  rewrite !andb_true_iff, !bool_decide_eq_true. split; [naive_solver|]. by intros [= -> -> -> ->].
Qed.

(** The events in memory agree with the receipt wherever they speak of its sequence or its share. *)
Definition history_agrees (receipt : ShareReceipt) (identity : WorkerIdentity) (target : TargetLe)
    (event : BackendEvent) : Prop :=
  event_seq event = sr_event_seq receipt \/
  (exists r j i t, event = ShareCommittedEvent r j i t /\ sr_share_id r = sr_share_id receipt) ->
  event = ShareCommittedEvent receipt (sr_job_id receipt) identity target.

Lemma share_conflict_None receipt identity target events :
  share_conflict receipt identity target events = None -> Forall (history_agrees receipt identity target) events.
Proof.
  induction events as [|e events IH]; cbn [share_conflict]; [constructor|].
  destruct (share_event_matches e receipt identity target) eqn:Em.
  - apply share_event_matches_spec in Em as ->. rewrite !andb_false_r. intros H. constructor; [done|auto].
  - rewrite !andb_true_r. destruct (Z.eqb_spec (event_seq e) (sr_event_seq receipt)) as [|Hn]; [done|].
    assert (forall l, share_conflict receipt identity target events = None ->
      (forall r j i t, e = ShareCommittedEvent r j i t -> sr_share_id r <> sr_share_id receipt) ->
      l = events -> Forall (history_agrees receipt identity target) (e :: l)) as Hgo.
    { intros l Hr Hs ->. constructor; [|auto]. intros [?|(r & j & i & t & ? & ?)]; [done|]. by edestruct Hs. }
    destruct e as [| | |r j i t| | | | | |]; try (by intros Hr; apply Hgo).
    destruct (bool_decide_reflect (sr_share_id r = sr_share_id receipt)) as [|Hd]; [done|].
    intros Hr. apply Hgo; try done. by intros ???? [= -> -> -> ->].
Qed.

(** What a reported commit says: the receipt is the one of the submitted share, and its exact journal
    event was delivered live on this connection. *)
Record commit_evidence (submission : ShareSubmission) (before : Z) (receipt : ShareReceipt) (replayed : bool)
    (c : BackendClient) : Prop := {
  cm_job : sr_job_id receipt = sub_job_id submission;
  cm_share : sr_share_id receipt = canonical_share_id ce_sha256 (sub_job_id submission) (sub_time submission)
               (sub_nonce submission) (sub_solution submission);
  cm_attribution : canonical_attribution_id ce_sha256 (sub_identity submission) (sub_target_le submission)
                     = Ok (sr_attribution_id receipt);
  cm_event : ShareCommittedEvent receipt (sub_job_id submission) (sub_identity submission)
               (sub_target_le submission) ∈ live_events c;
  cm_fresh : replayed = false -> before < sr_event_seq receipt;
  cm_agrees : Forall (history_agrees receipt (sub_identity submission) (sub_target_le submission)) (known_events c)
}.

Lemma check_share_commit_spec submission share_id attribution_id before receipt replayed c :
  bc_phase c = PhaseLive ->
  let '(c', r) := check_share_commit submission share_id attribution_id before receipt replayed c in
  match r with
  | Ok commit => c' = c /\ us_receipt commit = receipt /\ us_replayed commit = replayed /\
      sr_job_id receipt = sub_job_id submission /\ sr_share_id receipt = share_id /\
      sr_attribution_id receipt = attribution_id /\
      ShareCommittedEvent receipt (sub_job_id submission) (sub_identity submission)
        (sub_target_le submission) ∈ live_events c /\
      (replayed = false -> before < sr_event_seq receipt) /\
      Forall (history_agrees receipt (sub_identity submission) (sub_target_le submission)) (known_events c)
  | Err (ClientHistoricalReplayRequiresProjection receipt') => c' = c /\ receipt' = receipt /\ replayed = true
  | Err _ => c' = set_usable false c
  end.
Proof.
  intros Hp. unfold check_share_commit.
  destruct (bool_decide_reflect (sr_job_id receipt = sub_job_id submission)) as [Hj|]; cbn [negb]; [|done].
  destruct (bool_decide_reflect (sr_share_id receipt = share_id)) as [Hs|]; cbn [negb]; [|done].
  destruct (bool_decide_reflect (sr_attribution_id receipt = attribution_id)) as [Ha|]; cbn [negb]; [|done].
  destruct (negb replayed && _) eqn:Hf; [done|].
  assert (replayed = false -> before < sr_event_seq receipt) as Hfresh.
  { intros ->. cbn in Hf. apply Z.leb_gt in Hf. lia. }
  unfold require_live_events_through, require_consistent_share_history, require_matching_share_event. st_unfold.
  rewrite bool_decide_true by done. cbn [negb].
  destruct (bc_live_event_cursor c) as [cursor|]; [|done]. destruct (cursor <? _); [done|].
  destruct (share_conflict _ _ _ _) as [e|] eqn:Ec.
  { assert (forall r, e <> ClientHistoricalReplayRequiresProjection r) as Hne; [|by destruct e; naive_solver].
    revert Ec. clear. generalize (known_events c). induction l as [|x l IH]; cbn [share_conflict]; [done|].
    case_match; [by intros [= <-]|]. destruct x; auto. case_match; [by intros [= <-]|auto]. }
  apply share_conflict_None in Ec.
  destruct (existsb _ (live_events c)) eqn:Ee.
  - apply existsb_exists in Ee as (event & Hin & Hm). apply andb_true_iff in Hm as [_ Hm].
    apply share_event_matches_spec in Hm as ->. rewrite Hj in Hin. apply list_elem_of_In in Hin. by split_and!.
  - destruct replayed; cbn [andb]; [|done]. by destruct (_ <=? _).
Qed.

Lemma submit_share_spec io submission p R P c0 : good p R P c0 ->
  triple (fun c => c = c0) (submit_share io submission)
    (outcome p R P c0 (fun commit c => good p R P c /\ exchanged c0 c /\ bc_usable c = true /\
       exists before, bc_live_event_cursor c0 = Some before /\
         commit_evidence submission before (us_receipt commit) (us_replayed commit) c)).
Proof.
  intros Hg. unfold submit_share. apply triple_self, triple_check; [intros e _; by apply outcome_refuse|]. intros [] Hp.
  apply ensure_phase_Ok in Hp as [_ Hp].
  destruct (bc_live_event_cursor c0) as [before|] eqn:El; [|by apply outcome_invalidate; [apply Hg|]].
  apply triple_check; [intros e _; by apply outcome_refuse|]. intros attribution Ha.
  apply (request_spec _ (fun id => SubmitShareRequest _ id _ _ _ _ _ _) _ _ p R P c0); [done|done|by intros; split_and!|].
  intros m c Hc Hx Hu _ _. cbn [fst snd]. pose proof Hx as [(_ & _ & _ & Ep & _) _].
  destruct m as [| |v id receipt replayed| | |v id code message|]; try (by apply outcome_invalidate; [apply Hc|]).
  - intros c' ->. match goal with |- context [check_share_commit ?a ?b ?d ?e ?f ?g ?h] =>
      pose proof (check_share_commit_spec a b d e f g h) as Hk; destruct (check_share_commit a b d e f g h) as [c1 r] end.
    specialize (Hk (eq_trans Ep Hp)). destruct r as [commit|e].
    + destruct Hk as (-> & Er & Ey & A & B & C & D & E & F). unfold outcome. rewrite Er, Ey. split_and!; try done. exists before. split; [done|].
      split; try done. subst attribution. unfold map_err in Ha. by destruct (canonical_attribution_id _ _ _); simplify_eq.
    + assert (c1 = c /\ backend_answered e = true \/ c1 = set_usable false c) as [[-> He]| ->] by (destruct e; naive_solver).
      { by refine (outcome_answer p R P c0 _ c _ He Hc Hx c eq_refl). }
      by refine (outcome_invalidate p R P c0 _ c e (proj1 Hc) Hx c eq_refl).
  - apply triple_self. destruct (matching_share_event_seq _ _ _ _ _ _); [by apply outcome_invalidate; [apply Hc|]|].
    by apply outcome_answer.
Qed.

(** The receipt fits the generation the share was admitted for. *)
Record receipt_fits (context : SubmissionContext) (receipt : ShareReceipt) (replayed : bool) : Prop := {
  rf_job : ShareReceipt_validate_for_job receipt (bg_descriptor (ga_generation (sc_admission context))) = Ok tt;
  rf_parent : sr_parent_hash_le receipt =
    canonical_parent_header_hash_le ce_sha256 (jd_header_input (bg_descriptor (ga_generation (sc_admission context))))
      (sc_nonce context) (sc_solution context);
  rf_recovery : is_winner_recovery (sc_admission context) = true ->
    if replayed || is_paused_zcash_candidate (sc_admission context)
    then exists w, w ∈ sr_winners receipt /\ wd_chain w = Zcash
    else exists w, sr_winners receipt = [w] /\ wd_chain w = Zcash
}.

Lemma validate_receipt_spec context receipt replayed c :
  let '(c', r) := validate_receipt_for_job receipt (bg_descriptor (ga_generation (sc_admission context)))
      (canonical_parent_header_hash_le ce_sha256 (jd_header_input (bg_descriptor (ga_generation (sc_admission context))))
         (sc_nonce context) (sc_solution context))
      (is_winner_recovery (sc_admission context)) (is_paused_zcash_candidate (sc_admission context)) replayed c in
  match r with
  | Ok _ => c' = c /\ receipt_fits context receipt replayed
  | Err _ => c' = set_usable false c
  end.
Proof.
  unfold validate_receipt_for_job. destruct (ShareReceipt_validate_for_job _ _) as [[]|] eqn:Ej; [|done].
  destruct (is_winner_recovery (sc_admission context)) eqn:Ew; cbn [andb].
  - match goal with |- context [negb ?b] => destruct b eqn:Er end; cbn [negb]; [|done].
    case_bool_decide; cbn [negb]; [|done]. split; [done|].
    split; try done. intros _. destruct (replayed || _).
    + apply existsb_exists in Er as (w & Hin & Hw). exists w. rewrite list_elem_of_In. split; [done|].
      by apply bool_decide_eq_true in Hw.
    + destruct (sr_winners receipt) as [|w [|]]; try done. exists w. split; [done|]. by apply bool_decide_eq_true in Er.
  - case_bool_decide; cbn [negb]; [|done]. split; [done|]. split; try done. congruence.
Qed.

Definition context_submission (context : SubmissionContext) : ShareSubmission :=
  mkShareSubmission (sc_job_id context) (sc_identity context) (sc_target_le context) (sc_time context)
    (sc_nonce context) (sc_solution context).

Lemma submit_prepared_spec io context p R P c0 : good p R P c0 ->
  triple (fun c => c = c0) (submit_prepared_share_borrowed io context)
    (outcome p R P c0 (fun commit c => good p R P c /\ exchanged c0 c /\ bc_usable c = true /\
       receipt_fits context (vs_receipt commit) (vs_replayed commit) /\
       exists before, bc_live_event_cursor c0 = Some before /\
         commit_evidence (context_submission context) before (vs_receipt commit) (vs_replayed commit) c)).
Proof.
  intros Hg c ->. unfold submit_prepared_share_borrowed.
  pose proof (submit_share_spec io (context_submission context) p R P c0 Hg c0 eq_refl) as Hs.
  unfold context_submission in Hs. destruct (submit_share _ _ c0) as [c1 [commit|e]].
  - destruct Hs as (Hc & Hx & Hu & Hm).
    pose proof (validate_receipt_spec context (us_receipt commit) (us_replayed commit) c1) as Hv.
    unfold st_bind. destruct (validate_receipt_for_job _ _ _ _ _ _ c1) as [c2 [[]|e]].
    + destruct Hv as [-> Hv]. by split_and!.
    + subst c2. by refine (outcome_invalidate p R P c0 _ c1 e (proj1 Hc) Hx c1 eq_refl).
  - destruct Hs as (Hc & Hx & Hp). destruct e; try (by split_and!).
    pose proof (validate_receipt_spec context receipt true c1) as Hv.
    unfold st_bind. destruct (validate_receipt_for_job _ _ _ _ _ _ c1) as [c2 [[]|e]].
    + destruct Hv as [-> Hv]. by split_and!.
    + subst c2. by refine (outcome_invalidate p R P c0 _ c1 e (proj1 Hc) Hx c1 eq_refl).
Qed.

(** *** Connecting *)

Lemma verify_hello_spec instance stream wg zg wp zp ceiling chain last current c :
  let '(c', r) := verify_hello instance stream wg zg wp zp ceiling chain last current c in
  match r with
  | Err _ => c' = set_usable false c
  | Ok _ => c' = c /\ last <= current /\
      (forall e, eb_backend_instance (bcc_expected (bc_config c)) = Some e -> instance = e) /\
      (forall e, eb_journal_stream (bcc_expected (bc_config c)) = Some e -> stream = e) /\
      wg = eb_wcash_genesis (bcc_expected (bc_config c)) /\ zg = eb_zcash_genesis (bcc_expected (bc_config c)) /\
      chain = eb_chain_id (bcc_expected (bc_config c)) /\
      wp = eb_wcash_payout_commitment (bcc_expected (bc_config c)) /\
      zp = eb_zcash_payout_commitment (bcc_expected (bc_config c)) /\
      ceiling = eb_share_target_ceiling_be (bcc_expected (bc_config c))
  end.
Proof.
  unfold verify_hello. unfold st_bind at 1. unfold st_get.
  do 2 (case_bool_decide; cbn [negb]; [|done]).
  destruct (Z.eqb_spec chain (eb_chain_id (bcc_expected (bc_config c)))); cbn [negb]; [|done].
  do 3 (case_bool_decide; cbn [negb]; [|done]).
  match goal with |- context [if ?b then _ else _] => destruct b eqn:E1 end; [done|].
  match goal with |- context [if ?b then _ else _] => destruct b eqn:E2 end; [done|].
  destruct (Z.ltb_spec current last); [done|]. split_and!; try done.
  - intros x Hx. rewrite Hx in E1. by apply negb_false_iff, Z.eqb_eq in E1.
  - intros x Hx. rewrite Hx in E2. by apply negb_false_iff, Z.eqb_eq in E2.
Qed.

Lemma config_capacity config : BackendClientConfig_validate config = Ok tt ->
  (1 <= bcc_event_queue_capacity config <= MAX_EVENT_QUEUE_CAPACITY)%nat.
Proof.
  unfold BackendClientConfig_validate. rewrite !seq_Ok. intros (_ & _ & _ & H).
  destruct (_ && _)%nat eqn:E in H; cbn [negb] in H; [|done].
  apply andb_true_iff in E as [E1%Nat.leb_le E2%Nat.leb_le]. lia.
Qed.

(** The answer to a hello that the configuration accepts. *)
Record accepted_hello (config : BackendClientConfig) (last : Z) (m : BackendMessage)
    (identity : BackendIdentity) : Prop := {
  ah_message : exists v, m = HelloOk v 1 (bi_backend_session identity) (bi_backend_instance identity)
    (bi_journal_stream identity) (bi_capabilities identity) (eb_wcash_genesis (bcc_expected config))
    (eb_zcash_genesis (bcc_expected config)) (eb_wcash_payout_commitment (bcc_expected config))
    (eb_zcash_payout_commitment (bcc_expected config)) (eb_share_target_ceiling_be (bcc_expected config))
    (eb_chain_id (bcc_expected config)) (bi_current_event_seq identity);
  ah_instance : forall e, eb_backend_instance (bcc_expected config) = Some e -> bi_backend_instance identity = e;
  ah_stream : forall e, eb_journal_stream (bcc_expected config) = Some e -> bi_journal_stream identity = e;
  ah_cursor : last <= bi_current_event_seq identity
}.

(** The client after an accepted hello. *)
Definition connected_client (config : BackendClientConfig) (last token : Z) (rest : list ReadOutcome)
    (frame : list Z) (identity : BackendIdentity) : BackendClient :=
  mkBackendClient (mkUnixStream rest [frame]) config identity token 2 [] [] [] PhaseReplay last
    (last =? bi_current_event_seq identity) (bi_current_event_seq identity) None None None true.

Lemma exchange_first io request operation c c' m a :
  exchange io request operation false c = (c', Ok (m, a)) ->
  exists rest frame, read_backend_message (us_incoming (bc_stream c) ++ io_arrivals io) = (rest, Some (Ok m)) /\
    encode_backend_request ce_to_vec request = Ok frame /\ correlation_id m = Some (BackendRequest_id request) /\
    c' = set_stream (mkUnixStream rest (us_outgoing (bc_stream c) ++ [frame])) (set_usable true c) /\
    bc_usable c = true.
Proof.
  unfold exchange. st_unfold. unfold ensure_usable. destruct (bc_usable c) eqn:Hu; [|done].
  destruct (encode_backend_request _ _) as [frame|]; [|done]. cbn [map_err event_origin].
  destruct (io_write io); [|done..]. cbn [exchange_loop].
  match goal with |- context [read_backend_message ?s] => change s with (us_incoming (bc_stream c) ++ io_arrivals io) end.
  destruct (read_backend_message _) as [rest [[x|]|]] eqn:Er; [|done..]. intros H. exists rest, frame.
  destruct x; try (by cbn in H); cbn [accept_event negb] in H;
    (destruct (correlate _ _) as [y|] eqn:Ec in H; [apply correlate_Ok in Ec as [-> Ec]|done]);
    injection H as <- <- <-; by split_and!.
Qed.

Lemma connect_inv config pool last token opened io c :
  connect config pool last token opened io = Ok c ->
  (1 <= bcc_event_queue_capacity config)%nat /\
  (eb_journal_stream (bcc_expected config) = None -> last = 0) /\
  exists m rest frame identity,
    encode_backend_request ce_to_vec (Hello BACKEND_PROTOCOL_VERSION 1 pool last) = Ok frame /\
    read_backend_message (io_arrivals io) = (rest, Some (Ok m)) /\
    accepted_hello config last m identity /\ c = connected_client config last token rest frame identity.
Proof.
  unfold connect. destruct (BackendClientConfig_validate config) as [[]|] eqn:Ev; [|done]. cbn [map_err].
  apply config_capacity in Ev as [Hcap _]. destruct (negb _ && _) eqn:En; [done|].
  destruct opened as [[[]|]|]; cbn [ok_or map_err]; try done.
  destruct (hello _ _ _ _) as [c' [[]|]] eqn:Eh; [|done]. intros [= <-]. split_and!; [done| |].
  { intros Hn. rewrite bool_decide_true, andb_true_r in En by done. by apply negb_false_iff, Z.eqb_eq in En. }
  revert Eh. set (c0 := connecting _ _ _ _).
  assert (allocate_request_id c0 = (set_next_request_id 2 c0, Ok 1)) as Ha by reflexivity.
  unfold hello, st_bind at 1. rewrite Ha. unfold st_bind at 1.
  match goal with |- context [exchange ?a ?b ?d ?e ?f] => destruct (exchange a b d e f) as [c1 [[m a1]|]] eqn:Ex end; [|done].
  apply exchange_first in Ex as (rest & frame & Hr & Hf & Hc & -> & _). cbn [fst].
  destruct m; try done. unfold st_bind at 1.
  match goal with |- context [verify_hello ?a ?b ?d ?e ?f ?g ?h ?i ?j ?k ?l] =>
    pose proof (verify_hello_spec a b d e f g h i j k l) as Hv; destruct (verify_hello a b d e f g h i j k l) as [c2 [[]|e1]] end; [|done].
  destruct Hv as (-> & Hl & Hi & Hs & -> & -> & -> & -> & -> & ->). intros [= <-]. injection Hc as ->.
  eexists _, rest, frame, (mkBackendIdentity _ _ _ _ _). split_and!; [done|done| |reflexivity].
  split; cbn; eauto.
Qed.

Lemma connected_good config last token rest frame identity :
  (1 <= bcc_event_queue_capacity config)%nat ->
  good last [] [] (connected_client config last token rest frame identity).
Proof. intros H. split; [split|]; cbn; try done; [lia|split_and!; lia]. Qed.

End Exchanges.
