(* ===== verification/BackendClientHistory.v ===== *)
(** Histories of the backend client (crates/wcash-pool-backend-client/src/unix.rs): a connection, then
    any sequence of its public operations, whatever the socket does.  The journal reaches the caller
    gapless and once, commits are sound, failures close the connection, and a complete answer is read
    back however the socket segments it. *)

From Stdlib Require Import ZArith Lia.
From stdpp Require Import prelude gmap sorting strings.
From S2P Require Import Prelude Wire Target Nonce LargestRemainder Backend Stream Framing Jobs JobsInv JobsWorld JobsLife JobsProps Session BackendClient BackendClientProps.
Open Scope Z_scope.

#[local] Abbreviation len l := (Z.of_nat (length l)).

(** ** Operations *)

Inductive client_op : Type :=
| CallReadEvents (io : Io) (after limit : Z)
| CallSubscribe (io : Io) (after : Z)
| CallShare (io : Io) (submission : ShareSubmission)
| CallPrepared (io : Io) (context : SubmissionContext)
| CallRecovery (io : Io) (context : SubmissionContext)
| CallHealth (io : Io)
| CallPop.

Inductive client_reply : Type :=
| ReplyPage (page : EventPage)
| ReplySnapshot (snapshot : JobSnapshot)
| ReplyShare (commit : UnverifiedShareCommit)
| ReplyVerified (commit : VerifiedShareCommit)
| ReplyHealth (health : HealthSnapshot)
| ReplyEvent (event : option DeliveredBackendEvent).

Section Histories.
Context {env : ClientEnv}.

(** One operation and what it returns. *)
Definition client_run (op : client_op) : ClientM client_reply :=
  match op with
  | CallReadEvents io after limit => let* page := read_events io after limit in st_ret (ReplyPage page)
  | CallSubscribe io after => let* snapshot := subscribe_jobs io after in st_ret (ReplySnapshot snapshot)
  | CallShare io submission => let* commit := submit_share io submission in st_ret (ReplyShare commit)
  | CallPrepared io context => let* commit := submit_prepared_share io context in st_ret (ReplyVerified commit)
  | CallRecovery io context => let* commit := submit_recovery_candidate io context in st_ret (ReplyVerified commit)
  | CallHealth io => let* h := health io in st_ret (ReplyHealth h)
  | CallPop => fun self => let '(self, event) := pop_queued_event self in (self, Ok (ReplyEvent event))
  end.

(** The client, the journal events its pages returned and the live events it handed out. *)
Record history : Type := mkHistory {
  h_client : BackendClient;
  h_replayed : list BackendEvent;
  h_popped : list BackendEvent
}.

Definition history_step (h : history) (op : client_op) : history :=
  match client_run op (h_client h) with
  | (c, Ok (ReplyPage page)) => mkHistory c (h_replayed h ++ ep_events page) (h_popped h)
  | (c, Ok (ReplyEvent (Some d))) => mkHistory c (h_replayed h) (h_popped h ++ [de_event d])
  | (c, _) => mkHistory c (h_replayed h) (h_popped h)
  end.

Definition history_of (c : BackendClient) (ops : list client_op) : history :=
  foldl history_step (mkHistory c [] []) ops.

Definition tracked (p : Z) (h : history) : Prop := good p (h_replayed h) (h_popped h) (h_client h).

(** What every operation leaves in place. *)
Definition keeps (c c' : BackendClient) : Prop :=
  bc_connection_token c' = bc_connection_token c /\ bc_config c' = bc_config c.

Lemma triple_map {A B} P (m : ClientM A) (f : A -> B) (Q : result A ClientError -> BackendClient -> Prop)
    (Q' : result B ClientError -> BackendClient -> Prop) :
  triple P m Q -> (forall a c, Q (Ok a) c -> Q' (Ok (f a)) c) -> (forall e c, Q (Err e) c -> Q' (Err e) c) ->
  triple P (let* a := m in st_ret (f a)) Q'.
Proof. intros Hm Ha He. eapply triple_bind; [done| |done]. intros a c Hc. by apply Ha. Qed.

(** One operation extends the history. *)
Lemma history_step_tracked p h op : tracked p h -> tracked p (history_step h op).
Proof.
  destruct h as [c R P]. unfold tracked, history_step. cbn. intros Hg.
  assert (triple (fun x => x = c) (client_run op) (fun r c' =>
    match r with
    | Ok (ReplyPage page) => good p (R ++ ep_events page) P c'
    | Ok (ReplyEvent (Some d)) => good p R (P ++ [de_event d]) c'
    | _ => good p R P c'
    end)) as Ht.
  { destruct op as [io after limit|io after|io sub|io ctx|io ctx|io|]; cbn [client_run].
    - eapply triple_map; [by apply read_events_spec| |]; cbn; naive_solver.
    - eapply triple_map; [by apply subscribe_spec| |]; cbn; naive_solver.
    - eapply triple_map; [by apply submit_share_spec| |]; cbn; naive_solver.
    - eapply triple_map; [by apply submit_prepared_spec| |]; cbn; naive_solver.
    - unfold submit_recovery_candidate. destruct (negb _); [by intros ? ->|].
      eapply triple_map; [by apply submit_prepared_spec| |]; cbn; naive_solver.
    - eapply triple_map; [by apply health_spec| |]; cbn; naive_solver.
    - intros ? ->. destruct (pop_queued_event c) as [c' [d|]] eqn:Ep; apply (pop_spec p R P) in Ep; try done; cbn; naive_solver. }
  specialize (Ht c eq_refl). destruct (client_run op c) as [c' [[]|]]; try done. by case_match.
Qed.

Lemma history_tracked p c ops : good p [] [] c -> tracked p (history_of c ops).
Proof.
  intros Hg. unfold history_of. assert (tracked p (mkHistory c [] [])) as H by done. clear Hg. revert H.
  generalize (mkHistory c [] []). induction ops as [|op ops IH]; intros h Hh; [done|]. cbn. by apply IH, history_step_tracked.
Qed.

Lemma connect_tracked config pool last token opened io c ops :
  connect config pool last token opened io = Ok c -> tracked last (history_of c ops).
Proof.
  intros Hc. apply connect_inv in Hc as (Hcap & _ & m & rest & frame & identity & _ & _ & _ & ->).
  by apply history_tracked, connected_good.
Qed.

(** ** The journal *)

(** The live events of a tracked client and its cursor. *)
Lemma tracked_live p h : tracked p h ->
  match bc_subscribed_snapshot_event_seq (h_client h) with
  | None => h_popped h = [] /\ bc_queued_events (h_client h) = []
  | Some s => p + len (h_replayed h) <= s /\
      let live := h_popped h ++ (de_event <$> bc_queued_events (h_client h)) in
      event_seq <$> live = seqZ (s + 1) (len live) /\ bc_live_event_cursor (h_client h) = Some (s + len live)
  end.
Proof.
  intros [[_ Hc _ Hp _ _ _ _] _]. rewrite <- Hc. destruct (bc_phase (h_client h)).
  - by destruct Hp as (_ & -> & _ & -> & _ & ->).
  - by destruct Hp as (s & -> & Hr & _ & Hl).
Qed.

(** C9. The journal is gapless and delivered once: after any history of a connection opened at [last],
    the replayed events are [last + 1, last + 2, ...], the live ones, handed out or still queued, are
    exactly the successors of the snapshot's sequence in order, the snapshot is not behind the replay,
    and what the client remembers stays within its configured capacity. *)
Theorem journal_delivered_once config pool last token opened io c ops :
  connect config pool last token opened io = Ok c ->
  let h := history_of c ops in
  let capacity := bcc_event_queue_capacity (bc_config (h_client h)) in
  event_seq <$> h_replayed h = seqZ (last + 1) (len (h_replayed h)) /\
  bc_replay_cursor (h_client h) = last + len (h_replayed h) /\
  match bc_subscribed_snapshot_event_seq (h_client h) with
  | None => h_popped h = [] /\ bc_queued_events (h_client h) = []
  | Some s => last + len (h_replayed h) <= s /\
      let live := h_popped h ++ (de_event <$> bc_queued_events (h_client h)) in
      event_seq <$> live = seqZ (s + 1) (len live) /\
      (bc_usable (h_client h) = true -> bc_observed_event_high_watermark (h_client h) = s + len live)
  end /\
  Forall (fun d => connection_binding (h_client h) = Some (de_connection_binding d)) (bc_queued_events (h_client h)) /\
  (length (bc_queued_events (h_client h)) <= capacity)%nat /\
  (length (bc_observed_events (h_client h)) <= capacity)%nat /\
  (length (bc_historical_events (h_client h)) <= capacity)%nat.
Proof.
  intros Hc h capacity. pose proof (connect_tracked _ _ _ _ _ _ _ ops Hc) as Ht. fold h in Ht.
  pose proof (tracked_live _ _ Ht) as Hl. destruct Ht as [[H1 H2 _ _ _ H6 _ H9] Hs]. split_and!; try done; try apply H9.
  destruct (bc_subscribed_snapshot_event_seq (h_client h)) as [s|]; [|done].
  destruct Hl as (A & B & C). split; [done|]. split; [done|]. intros Hu. symmetry. by apply Hs.
Qed.

(** ** Commits *)

Lemma live_events_delivered p h c event : tracked p h -> exchanged (h_client h) c ->
  event ∈ live_events c -> event ∈ h_popped h ++ (de_event <$> bc_queued_events c).
Proof.
  intros [[_ _ _ _ H5 _ _ _] _] [(_ & _ & _ & _ & _ & _ & Eo & _) _]. unfold live_events.
  rewrite Eo, !elem_of_app. intros [?|Hin]; [by right|]. left. destruct H5 as [k ->]. rewrite elem_of_app. by right.
Qed.

Lemma delivered_seq_le p h cursor event : tracked p h -> bc_live_event_cursor (h_client h) = Some cursor ->
  event ∈ h_popped h ++ (de_event <$> bc_queued_events (h_client h)) -> event_seq event <= cursor.
Proof.
  intros Ht Hc Hin. pose proof (tracked_live _ _ Ht) as Hl.
  destruct (bc_subscribed_snapshot_event_seq (h_client h)) as [s|].
  - destruct Hl as (_ & Hq & Hc'). apply (list_elem_of_fmap_2 event_seq) in Hin. rewrite Hq in Hin.
    apply elem_of_seqZ in Hin. simplify_eq. lia.
  - destruct Hl as [E1 E2]. rewrite E1, E2 in Hin. by apply elem_of_nil in Hin.
Qed.

(** C10. A share is reported committed only with evidence: the receipt fits the admitted generation and
    the exact parent header, its identities are those of the submitted share, worker and target, and its
    journal event was delivered on this connection, as a new event when the commit is a fresh one. *)
Theorem share_commit_sound config pool last token opened io c ops io' context c' commit :
  connect config pool last token opened io = Ok c ->
  submit_prepared_share io' context (h_client (history_of c ops)) = (c', Ok commit) ->
  let h := history_of c ops in
  let receipt := vs_receipt commit in
  let event := ShareCommittedEvent receipt (sc_job_id context) (sc_identity context) (sc_target_le context) in
  receipt_fits context receipt (vs_replayed commit) /\
  sr_share_id receipt = canonical_share_id ce_sha256 (sc_job_id context) (sc_time context) (sc_nonce context)
                          (sc_solution context) /\
  canonical_attribution_id ce_sha256 (sc_identity context) (sc_target_le context) = Ok (sr_attribution_id receipt) /\
  event ∈ h_popped h ++ (de_event <$> bc_queued_events c') /\
  (vs_replayed commit = false -> event ∉ h_popped h ++ (de_event <$> bc_queued_events (h_client h))) /\
  tracked last (mkHistory c' (h_replayed h) (h_popped h)) /\ bc_usable c' = true.
Proof.
  intros Hc Hs h receipt event. pose proof (connect_tracked _ _ _ _ _ _ _ ops Hc) as Ht. fold h in Ht, Hs.
  pose proof (submit_prepared_spec io' context last (h_replayed h) (h_popped h) (h_client h) Ht _ eq_refl) as Hp.
  unfold submit_prepared_share in Hs. rewrite Hs in Hp. destruct Hp as (Hg & Hx & Hu & Hf & before & Hb & [A B C D E F]).
  split_and!; try done.
  - by eapply live_events_delivered.
  - intros Hr Hin. specialize (E Hr). pose proof (delivered_seq_le _ _ _ _ Ht Hb Hin) as Hle. cbn in Hle.
    unfold receipt in Hle. lia.
Qed.

(** ** Failures *)

(** An unusable client refuses. *)
Lemma unusable_refuses op c : bc_usable c = false -> op <> CallPop -> exists e, client_run op c = (c, Err e).
Proof.
  intros Hu Hop. destruct op as [io after limit|io after|io sub|io ctx|io ctx|io|]; [..|done]; cbn [client_run].
  1-3: eexists; unfold read_events, subscribe_jobs, submit_share, ensure_phase, ensure_usable; st_unfold; by rewrite Hu.
  3: eexists; unfold health, allocate_request_id, ensure_usable; st_unfold; by rewrite Hu.
  all: unfold submit_recovery_candidate; try (case_match; [by eexists|]);
    eexists; unfold submit_prepared_share, submit_prepared_share_borrowed, submit_share, ensure_phase, ensure_usable; st_unfold;
    by rewrite Hu.
Qed.

(** A failed operation. *)
Lemma failed_op p R P c op c' e : good p R P c -> client_run op c = (c', Err e) ->
  good p R P c' /\ exchanged c c' /\ poisons e c c'.
Proof.
  intros Hg Hr. assert (triple (fun x => x = c) (client_run op) (outcome p R P c (fun _ _ => True))) as Ht.
  { destruct op as [io after limit|io after|io sub|io ctx|io ctx|io|]; cbn [client_run].
    - eapply triple_map; [by apply read_events_spec|done..].
    - eapply triple_map; [by apply subscribe_spec|done..].
    - eapply triple_map; [by apply submit_share_spec|done..].
    - eapply triple_map; [by apply submit_prepared_spec|done..].
    - unfold submit_recovery_candidate. destruct (negb _); [intros ? ->; by apply (outcome_refuse p R P (fun _ _ => True))|].
      eapply triple_map; [by apply submit_prepared_spec|done..].
    - eapply triple_map; [by apply health_spec|done..].
    - intros ? ->. by destruct (pop_queued_event c). }
  specialize (Ht c eq_refl). by rewrite Hr in Ht.
Qed.

(** C29. The client fails closed: after any history, an unusable client refuses every exchange without
    touching the socket and stays unusable, and an operation that fails and leaves the client usable
    was either answered by the backend or sent nothing. *)
Theorem client_fails_closed config pool last token opened io c ops op :
  connect config pool last token opened io = Ok c ->
  let before := h_client (history_of c ops) in
  let '(after, r) := client_run op before in
  (bc_usable before = false -> bc_usable after = false /\ bc_stream after = bc_stream before /\
     (op = CallPop \/ after = before /\ exists e, r = Err e)) /\
  (forall e, r = Err e -> bc_usable after = true ->
     backend_answered e = true \/ us_outgoing (bc_stream after) = us_outgoing (bc_stream before)).
Proof.
  intros Hc before. pose proof (connect_tracked _ _ _ _ _ _ _ ops Hc) as Ht.
  destruct (client_run op before) as [after r] eqn:Er. split.
  - intros Hu. assert (op = CallPop \/ op <> CallPop) as [->|Hne] by (destruct op; auto).
    + cbn in Er. unfold pop_queued_event in Er. destruct (bc_queued_events before); simplify_eq/=; auto.
    + destruct (unusable_refuses op before Hu Hne) as [e He]. rewrite He in Er. simplify_eq/=. eauto 6.
  - intros e ->. by apply (failed_op _ _ _ _ _ _ _ Ht) in Er as (_ & _ & Hp).
Qed.

(** ** The reading loop *)

(** One more unit of fuel than bytes is enough. *)
Lemma exchange_loop_fuel f1 f2 id operation allow anchor binding c :
  (incoming_bytes (us_incoming (bc_stream c)) < f1)%nat -> (incoming_bytes (us_incoming (bc_stream c)) < f2)%nat ->
  exchange_loop f1 id operation allow anchor binding c = exchange_loop f2 id operation allow anchor binding c.
Proof.
  revert f2 c. induction f1 as [|f1 IH]; intros [|f2] c H1 H2; try lia. cbn [exchange_loop].
  destruct (read_backend_message _) as [s o] eqn:Er. destruct o as [[m|]|]; [|done..].
  destruct m as [| | | | | |v event]; try done. apply read_message_shrinks in Er.
  destruct (accept_event _ _ _ _ _ _) as [c1 [u|]] eqn:Ea; [|done].
  assert (us_incoming (bc_stream c1) = s) as Hs.
  { revert Ea. unfold accept_event. destruct (negb allow); [done|]. st_unfold.
    repeat (case_match; try done); intros; by simplify_eq/=. }
  apply IH; rewrite Hs; lia.
Qed.

(** ** Reading back what the backend writes *)

(** The reads of a stream that carries [bytes], cut anywhere. *)
Definition carries (s : list ReadOutcome) (bytes : list Z) : Prop :=
  exists chunks, s = ReadBytes <$> chunks /\ Forall (fun chunk => chunk <> []) chunks /\ concat chunks = bytes.

Lemma read_exact_carries section clean n filled s want rest :
  carries s (want ++ rest) -> (length filled + length want = n)%nat ->
  exists s', read_exact_section section clean n filled s = (s', Some (Ok (filled ++ want))) /\ carries s' rest.
Proof.
  intros (chunks & -> & Hne & Hc). revert filled want Hc. induction Hne as [|chunk chunks Hk Hne IH]; intros filled want Hc Hn.
  - cbn in Hc. symmetry in Hc. apply app_eq_nil in Hc as [-> ->]. cbn [fmap list_fmap read_exact_section].
    rewrite (proj2 (Nat.leb_le n (length filled))) by (cbn in Hn; lia). rewrite app_nil_r. eexists; split; [done|]. by exists [].
  - cbn [fmap list_fmap read_exact_section]. destruct (Nat.leb_spec n (length filled)).
    { assert (want = []) as -> by (destruct want; [done|cbn in Hn; lia]). rewrite app_nil_r.
      eexists; split; [done|]. exists (chunk :: chunks). split_and!; [done|by constructor|done]. }
    destruct chunk as [|b l]; [done|]. set (chunk := b :: l) in *. cbn [concat] in Hc.
    replace (n - length filled)%nat with (length want) by lia.
    destruct (Nat.ltb_spec (length want) (length chunk)) as [Hl|Hl].
    + assert (take (length want) chunk = want /\ rest = drop (length want) chunk ++ concat chunks) as [-> ->].
      { apply (f_equal (fun x => (take (length want) x, drop (length want) x))) in Hc.
        rewrite take_app_length, drop_app_length, take_app_le, drop_app_le in Hc by lia. by injection Hc. }
      eexists; split; [done|]. exists (drop (length want) chunk :: chunks). split_and!; [done| |done].
      constructor; [|done]. intros E. apply (f_equal length) in E. rewrite length_drop in E. change (length []) with 0%nat in E. lia.
    + assert (want = chunk ++ drop (length chunk) want /\ concat chunks = drop (length chunk) want ++ rest) as [Ew Er].
      { apply (f_equal (fun x => (take (length chunk) x, drop (length chunk) x))) in Hc.
        rewrite take_app_length, drop_app_length, take_app_le, drop_app_le in Hc by lia. injection Hc as Ht ->.
        split; [|done]. rewrite Ht at 1. by rewrite take_drop. }
      edestruct (IH (filled ++ chunk) (drop (length chunk) want)) as (s' & Hs & Hc'); [done| |].
      { rewrite length_app, length_drop. lia. }
      exists s'. split; [|done]. rewrite Hs, <- app_assoc, <- Ew. done.
Qed.

Section ReadBack.
(** The backend's serializer: serde_json reads back what it wrote, as a message and as a value. *)
Variable to_msg : BackendMessage -> result (list Z) string.
Hypothesis message_json : forall m b, to_msg m = Ok b -> ce_from_slice b = Ok m.
Hypothesis version_json : forall m b, to_msg m = Ok b -> ce_value_version b = Ok (Some (BackendMessage_version m)).

Lemma read_message_carries m frame s rest :
  encode_backend_message ce_sha256 to_msg m = Ok frame -> carries s (frame ++ rest) ->
  exists s', read_backend_message s = (s', Some (Ok m)) /\ carries s' rest.
Proof.
  unfold encode_backend_message, encode_message, encode_length_frame. intros He Hs.
  destruct (BackendMessage_validate ce_sha256 m) as [[]|] eqn:Ev; [|done].
  destruct (to_msg m) as [payload|] eqn:Ep; [|done]. cbn [map_err] in He.
  case_bool_decide as Hne; [done|]. destruct (Z.ltb_spec MAX_BACKEND_PAYLOAD_BYTES (len payload)); [done|].
  destruct (Z.ltb_spec U32_MAX (len payload)) as [|Hu]; [done|].
  assert (be_bytes 4 (len payload) ++ payload = frame) as <- by congruence.
  assert (length payload <> 0%nat) as Hpos by (by destruct payload).
  assert (declared_length (be_bytes 4 (len payload)) = length payload) as Hd.
  { unfold declared_length. rewrite be_val_be_bytes; [lia|]. unfold U32_MAX in Hu. change (256 ^ Z.of_nat 4) with 4294967296. lia. }
  rewrite <- app_assoc in Hs. unfold read_backend_message.
  edestruct (read_exact_carries "length prefix" true BACKEND_LENGTH_PREFIX_BYTES [] s) as (s1 & -> & H1); [exact Hs|by rewrite length_be_bytes|].
  cbn [app]. rewrite Hd, (proj2 (Nat.eqb_neq _ _)) by done. rewrite (proj2 (Z.ltb_ge _ _)) by lia.
  edestruct (read_exact_carries "payload" false (length payload) [] s1) as (s2 & -> & H2); [exact H1|done|].
  exists s2. split; [|done]. cbn [app]. rewrite (version_json _ _ Ep). cbn [map_err].
  assert (BackendMessage_version m = BACKEND_PROTOCOL_VERSION) as ->.
  { unfold BackendMessage_validate in Ev. apply seq_Ok in Ev as [Hv _]. by rewrite check_Ok, Z.eqb_eq in Hv. }
  rewrite Z.eqb_refl. cbn [negb]. unfold decode_backend_message, decode_message, decode_length_frame.
  rewrite length_app, length_be_bytes, (proj2 (Nat.ltb_ge _ _)) by (unfold BACKEND_LENGTH_PREFIX_BYTES; lia).
  assert (take BACKEND_LENGTH_PREFIX_BYTES (be_bytes 4 (len payload) ++ payload) = be_bytes 4 (len payload)) as ->
    by (by rewrite take_app_length' by (by rewrite length_be_bytes)).
  assert (drop BACKEND_LENGTH_PREFIX_BYTES (be_bytes 4 (len payload) ++ payload) = payload) as ->
    by (by rewrite drop_app_length' by (by rewrite length_be_bytes)).
  rewrite Hd, (proj2 (Nat.eqb_neq _ _)), (proj2 (Z.ltb_ge _ _)), Nat.eqb_refl by (done || lia). cbn [negb].
  rewrite (message_json _ _ Ep). cbn [map_err]. by rewrite Ev.
Qed.

(** An event and then the answer arrive, cut anywhere. *)
Lemma exchange_event_answer io request frame operation c floor b cursor event v m fe fm :
  bc_usable c = true -> encode_backend_request ce_to_vec request = Ok frame ->
  bc_live_event_anchor_floor c = Some floor -> connection_binding c = Some b ->
  bc_live_event_cursor c = Some cursor -> event_seq event = cursor + 1 -> cursor + 1 <= U64_MAX ->
  (length (bc_queued_events c) < bcc_event_queue_capacity (bc_config c))%nat ->
  encode_backend_message ce_sha256 to_msg (EventMessage v event) = Ok fe ->
  encode_backend_message ce_sha256 to_msg m = Ok fm -> correlation_id m = Some (BackendRequest_id request) ->
  io_write io = WriteDone -> carries (us_incoming (bc_stream c) ++ io_arrivals io) (fe ++ fm) ->
  exists c', exchange io request operation true c = (c', Ok (m, io_now io)) /\ bc_usable c' = true /\
    core c' = core (set_floor (Some (io_now io)) (deliver floor b c event)).
Proof.
  intros Hu Hf Hfl Hb Hc Es Hmax Hq Hfe Hfm Hid Hw Hin. unfold exchange. st_unfold. unfold ensure_usable. rewrite Hu, Hf.
  cbn [map_err event_origin]. rewrite Hfl, Hb, Hw. set (c1 := send _ _).
  assert (us_incoming (bc_stream c1) = us_incoming (bc_stream c) ++ io_arrivals io) as Hs by done.
  destruct (read_message_carries _ _ _ _ Hfe Hin) as (s1 & R1 & Hs1).
  assert (carries s1 (fm ++ [])) as Hs1' by (by rewrite app_nil_r).
  destruct (read_message_carries _ _ _ _ Hfm Hs1') as (s2 & R2 & _).
  assert (forall fuel, exchange_loop (S (S fuel)) (BackendRequest_id request) operation true floor (Some b) c1 =
    (set_incoming s2 (deliver floor b (set_incoming s1 c1) event), Some (Ok m))) as Hloop.
  { intros fuel. cbn [exchange_loop]. rewrite Hs, R1.
    assert (accept_event operation true floor (Some b) event (set_incoming s1 c1) =
      (deliver floor b (set_incoming s1 c1) event, Ok tt)) as ->.
    { unfold accept_event. st_unfold. cbn [negb]. change (bc_live_event_cursor (set_incoming s1 c1)) with (bc_live_event_cursor c).
      rewrite Hc. cbn [ok_or]. rewrite (proj2 (checked_add_Some U64_MAX cursor 1 (cursor + 1)) (conj eq_refl Hmax)). cbn [ok_or].
      rewrite Es, Z.eqb_refl. cbn [negb].
      rewrite (proj2 (Nat.eqb_neq _ _)) by (change (length (bc_queued_events c) <> bcc_event_queue_capacity (bc_config c)); lia).
      unfold deliver. by rewrite Es. }
    change (us_incoming (bc_stream (deliver floor b (set_incoming s1 c1) event))) with s1. rewrite R2.
    assert (correlate (BackendRequest_id request) m = Ok m) as Hcor.
    { unfold correlate. rewrite Hid. cbn [ok_or]. by rewrite Z.eqb_refl. }
    destruct m; try (by rewrite Hcor). done. }
  assert (incoming_bytes (us_incoming (bc_stream c1)) <> 0%nat) as Hpos.
  { rewrite Hs. apply read_message_shrinks in R1. lia. }
  destruct (incoming_bytes _) as [|fuel]; [done|]. rewrite Hloop. eexists. split_and!; [done|done|]. done.
Qed.

Lemma share_conflict_agrees receipt identity target events :
  Forall (history_agrees receipt identity target) events -> share_conflict receipt identity target events = None.
Proof.
  induction 1 as [|e events He _ IH]; [done|]. cbn [share_conflict].
  destruct (share_event_matches e receipt identity target) eqn:Em; cbn [negb]; rewrite ?andb_false_r, ?andb_true_r.
  { destruct e; try done. by rewrite andb_false_r. }
  assert (e <> ShareCommittedEvent receipt (sr_job_id receipt) identity target) as Hne.
  { intros E. apply share_event_matches_spec in E. congruence. }
  destruct (Z.eqb_spec (event_seq e) (sr_event_seq receipt)) as [Es|]; [by destruct Hne; apply He; left|].
  destruct e as [| | |r j i t| | | | | |]; try done. case_bool_decide; [|done].
  destruct Hne. apply He. right. by exists r, j, i, t.
Qed.

(** Everything a live client remembers precedes its cursor. *)
Lemma known_seq_le p h cursor event : tracked p h -> bc_live_event_cursor (h_client h) = Some cursor ->
  event ∈ known_events (h_client h) -> event_seq event <= cursor.
Proof.
  intros Ht Hc Hin. unfold known_events in Hin. rewrite elem_of_app in Hin. destruct Hin as [Hin|Hin].
  - eapply delivered_seq_le; [done..|]. eapply live_events_delivered; [done| |done]. by apply exchanged_core.
  - pose proof (tracked_live _ _ Ht) as Hl. destruct Ht as [[H1 H2 [k H3] H4 _ _ _ _] _].
    destruct (bc_subscribed_snapshot_event_seq (h_client h)) as [s|].
    + destruct Hl as (Hr & _ & Hc'). assert (event ∈ h_replayed h) as Hin' by (rewrite H3, elem_of_app; by right).
      apply (list_elem_of_fmap_2 event_seq) in Hin'. rewrite H1 in Hin'. apply elem_of_seqZ in Hin'. simplify_eq. lia.
    + destruct (bc_phase (h_client h)); [by destruct H4; congruence|]. by destruct H4 as (s & ? & _).
Qed.

(** The answer a backend gives to a share it commits: the journal event and the response. *)
Record commit_answer (c : BackendClient) (submission : ShareSubmission) (receipt : ShareReceipt)
    (fe fm : list Z) : Prop := {
  ca_job : sr_job_id receipt = sub_job_id submission;
  ca_share : sr_share_id receipt = canonical_share_id ce_sha256 (sub_job_id submission) (sub_time submission)
               (sub_nonce submission) (sub_solution submission);
  ca_attribution : canonical_attribution_id ce_sha256 (sub_identity submission) (sub_target_le submission)
                     = Ok (sr_attribution_id receipt);
  ca_next : bc_live_event_cursor c = Some (sr_event_seq receipt - 1) /\ sr_event_seq receipt <= U64_MAX;
  ca_new : forall event r j i t, event ∈ known_events c -> event = ShareCommittedEvent r j i t ->
             sr_share_id r <> sr_share_id receipt;
  ca_event : encode_backend_message ce_sha256 to_msg (EventMessage BACKEND_PROTOCOL_VERSION
               (ShareCommittedEvent receipt (sub_job_id submission) (sub_identity submission) (sub_target_le submission)))
               = Ok fe;
  ca_response : encode_backend_message ce_sha256 to_msg
                  (ShareCommitted BACKEND_PROTOCOL_VERSION (bc_next_request_id c) receipt false) = Ok fm
}.

(** The request a client is about to send. *)
Definition share_request (c : BackendClient) (submission : ShareSubmission) : BackendRequest :=
  SubmitShareRequest BACKEND_PROTOCOL_VERSION (bc_next_request_id c) (sub_job_id submission)
    (sub_identity submission) (sub_target_le submission) (sub_time submission) (sub_nonce submission)
    (sub_solution submission).

Lemma commit_answer_agrees p h c submission receipt fe fm floor b :
  tracked p h -> commit_answer (h_client h) submission receipt fe fm ->
  core c = core (set_floor floor (deliver b.1 b.2 (h_client h)
    (ShareCommittedEvent receipt (sub_job_id submission) (sub_identity submission) (sub_target_le submission)))) ->
  Forall (history_agrees receipt (sub_identity submission) (sub_target_le submission)) (known_events c).
Proof.
  intros Ht [Hj _ _ [Hc _] Hn _ _] Ecore. apply Forall_forall. intros event Hin.
  assert (event ∈ known_events (h_client h) \/
    event = ShareCommittedEvent receipt (sub_job_id submission) (sub_identity submission) (sub_target_le submission)) as [Hk|He].
  { unfold core in Ecore. injection Ecore as _ _ _ Eq Eo Eh _ _ _ _ _ _. revert Hin.
    unfold known_events, live_events. rewrite Eq, Eo, Eh. cbn. rewrite (fmap_app de_event). set_solver. }
  - pose proof (known_seq_le _ _ _ _ Ht Hc Hk) as Hle. intros [E|(r & j & i & t & E & Es)]; [lia|]. by edestruct Hn.
  - intros _. by rewrite Hj, He.
Qed.

Lemma share_answered p h io submission receipt fe fm frame :
  tracked p h -> commit_answer (h_client h) submission receipt fe fm ->
  bc_usable (h_client h) = true -> bc_phase (h_client h) = PhaseLive ->
  (length (bc_queued_events (h_client h)) < bcc_event_queue_capacity (bc_config (h_client h)))%nat ->
  bc_next_request_id (h_client h) + 1 <= U64_MAX ->
  encode_backend_request ce_to_vec (share_request (h_client h) submission) = Ok frame ->
  io_write io = WriteDone -> carries (us_incoming (bc_stream (h_client h)) ++ io_arrivals io) (fe ++ fm) ->
  exists c floor binding,
    submit_share io submission (h_client h) = (c, Ok (mkUnverifiedShareCommit receipt false)) /\
    bc_usable c = true /\
    bc_queued_events c = bc_queued_events (h_client h) ++ [mkDeliveredBackendEvent
      (ShareCommittedEvent receipt (sub_job_id submission) (sub_identity submission) (sub_target_le submission))
      floor binding] /\
    bc_live_event_cursor c = Some (sr_event_seq receipt).
Proof.
  intros Ht Ha Hu Hp Hq Hid Hf Hw Hin. pose proof Ha as [Hj Hsh Hat [Hc Hmax] Hn He Hm].
  set (c0 := h_client h) in *. set (c1 := set_next_request_id (bc_next_request_id c0 + 1) c0).
  assert (exists floor s, bc_live_event_anchor_floor c0 = Some floor /\ bc_subscribed_snapshot_event_seq c0 = Some s) as (floor & s & Hfl & Hs).
  { destruct Ht as [[_ _ _ Ht _ _ _ _] _]. fold c0 in Ht. rewrite Hp in Ht. destruct Ht as (s & Hs & _ & [floor Hfl] & _). eauto. }
  assert (exists b, connection_binding c1 = Some b) as [b Hb].
  { unfold connection_binding. change (bc_subscribed_snapshot_event_seq c1) with (bc_subscribed_snapshot_event_seq c0).
    rewrite Hs. rewrite bool_decide_true by done. by eexists. }
  destruct (exchange_event_answer io (share_request c0 submission) frame "submit_share" c1 floor b
    (sr_event_seq receipt - 1) (ShareCommittedEvent receipt (sub_job_id submission) (sub_identity submission) (sub_target_le submission))
    BACKEND_PROTOCOL_VERSION (ShareCommitted BACKEND_PROTOCOL_VERSION (bc_next_request_id c0) receipt false) fe fm)
    as (c2 & Hx & Hu2 & Hcore); try done; [cbn; lia|lia|].
  pose proof (commit_answer_agrees p h c2 submission receipt fe fm (Some (io_now io)) (floor, b) Ht Ha Hcore) as Hag.
  unfold core in Hcore. injection Hcore as _ _ _ Eq Eo Eh Ep Er Ew El Es Ef. cbn in Eq, El, Ep.
  exists c2, floor, b. split_and!; try done.
  unfold submit_share. unfold st_bind at 1, st_get at 1. unfold st_bind at 1, st_lift at 1.
  unfold ensure_phase at 1, ensure_usable at 1. rewrite Hu, bool_decide_true by done. rewrite Hc.
  unfold st_bind at 1, st_lift at 1. rewrite Hat. cbn [map_err].
  assert (allocate_request_id c0 = (c1, Ok (bc_next_request_id c0))) as Hal.
  { unfold allocate_request_id, ensure_usable. st_unfold. rewrite Hu.
    by rewrite (proj2 (checked_add_Some U64_MAX _ 1 _) (conj eq_refl Hid)). }
  unfold st_bind at 1. rewrite Hal. unfold st_bind at 1. unfold share_request in Hx. rewrite Hx. cbn [fst].
  unfold check_share_commit. rewrite !bool_decide_true by done. cbn [negb andb].
  rewrite (proj2 (Z.leb_gt _ _)) by lia.
  unfold require_live_events_through, require_consistent_share_history, require_matching_share_event. st_unfold.
  rewrite Ep, bool_decide_true by done. cbn [negb]. rewrite El, Z.ltb_irrefl.
  rewrite (share_conflict_agrees _ _ _ _ Hag).
  assert (existsb (fun event => (event_seq event =? sr_event_seq receipt)
    && share_event_matches event receipt (sub_identity submission) (sub_target_le submission)) (live_events c2) = true) as ->; [|done].
  apply existsb_exists. eexists. rewrite <- list_elem_of_In. split.
  - unfold live_events. rewrite Eq, (fmap_app de_event). rewrite !elem_of_app. left. right. by apply list_elem_of_singleton.
  - cbn [event_seq de_event]. rewrite Z.eqb_refl. cbn [andb]. apply share_event_matches_spec. by rewrite Hj.
Qed.
End ReadBack.
End Histories.

(** ** A concrete connection *)

#[local] Instance AcceptableJob_eq_dec : EqDecision AcceptableJob.
Proof. solve_decision. Defined.
#[local] Instance BackendErrorCode_eq_dec : EqDecision BackendErrorCode.
Proof. solve_decision. Defined.
#[local] Instance BackendMessage_eq_dec : EqDecision BackendMessage.
Proof. solve_decision. Defined.

Definition demo_expected : ExpectedBackend :=
  mkExpectedBackend (demo_hex 32 1) (demo_hex 32 2) 5 (demo_hex 32 3) (demo_hex 32 4)
    (TargetBe_new (replicate 32 9)) None (Some 13).
(** [/s], the default timeouts and a queue of two events. *)
Definition demo_client_config : BackendClientConfig :=
  mkBackendClientConfig [47; 115] demo_expected DEFAULT_CONNECT_TIMEOUT DEFAULT_REQUEST_TIMEOUT 2.

Definition demo_client_share : ShareSubmission :=
  mkShareSubmission (demo_hex 32 1) demo_identity (demo_target 30) demo_time (demo_nonce 0 1) (demo_hex 1344 5).
Definition demo_commit : ShareReceipt :=
  mkShareReceipt 5 (demo_hex 32 1) (demo_hex 32 1) (demo_hex 32 1) (demo_hex 32 1) [].

(** The messages of the conversation: hello, snapshot, the share's event, its commit. *)
Definition demo_messages : list BackendMessage :=
  [HelloOk 2 1 11 12 13 REQUIRED_BACKEND_CAPABILITIES (demo_hex 32 1) (demo_hex 32 2) (demo_hex 32 3)
     (demo_hex 32 4) (TargetBe_new (replicate 32 9)) 5 4;
   Backend.JobSnapshot 2 2 4 (Some (demo_acceptable 1)) [];
   EventMessage 2 (ShareCommittedEvent demo_commit (demo_hex 32 1) demo_identity (demo_target 30));
   ShareCommitted 2 3 demo_commit false].

(** A serializer for them: the position in the conversation. *)
Definition demo_message_to (m : BackendMessage) : result (list Z) string :=
  match list_find (fun x => x = m) demo_messages with
  | Some (i, _) => Ok [Z.of_nat i]
  | None => Err "unsupported"%string
  end.
Definition demo_message_from (b : list Z) : result BackendMessage string :=
  match b with
  | [i] => match demo_messages !! Z.to_nat i with Some m => Ok m | None => Err "malformed"%string end
  | _ => Err "malformed"%string
  end.

Definition demo_client_env : ClientEnv :=
  {| ce_sha256 := demo_sha256;
     ce_to_vec := fun _ => Ok [1];
     ce_value_version := fun b => match demo_message_from b with Ok m => Ok (Some (BackendMessage_version m)) | Err e => Err e end;
     ce_from_slice := demo_message_from |}.

Lemma demo_message_json m b : demo_message_to m = Ok b -> demo_message_from b = Ok m.
Proof.
  unfold demo_message_to. destruct (list_find _ _) as [[i x]|] eqn:E; [|done]. intros [= <-].
  apply list_find_Some in E as (Hi & -> & _). cbn [demo_message_from]. by rewrite Nat2Z.id, Hi.
Qed.

Lemma demo_version_json m b : demo_message_to m = Ok b ->
  @ce_value_version demo_client_env b = Ok (Some (BackendMessage_version m)).
Proof. intros H. cbn. by rewrite (demo_message_json _ _ H). Qed.

(** Each answer arrives in two reads. *)
Definition demo_frame (i : Z) : list ReadOutcome := [ReadBytes [0; 0; 0]; ReadBytes [1; i]].
Definition demo_hello_io : Io := mkIo 100 WriteDone (demo_frame 0).
Definition demo_client : BackendClient :=
  match @connect demo_client_env demo_client_config 9 4 77 (Some (Ok tt)) demo_hello_io with Ok c => c | Err _ => connecting demo_client_config 9 4 77 end.
Definition demo_calls : list client_op := [CallSubscribe (mkIo 200 WriteDone (demo_frame 1)) 4].
Definition demo_share_io : Io := mkIo 300 WriteDone (demo_frame 2 ++ demo_frame 3).

Definition demo_context : SubmissionContext :=
  mkSubmissionContext 3 demo_identity (demo_target 30) demo_time (demo_nonce 0 1) (demo_hex 1344 5)
    (mkGenerationAdmission (mkGenerationResource 0 (mkBackendGeneration (demo_job 1) (demo_id 1)
       (mkTipIdentity (demo_id 6) (demo_id 7)) ShareTarget_MAX ShareTarget_MAX)) Ordinary).

Lemma journal_delivered_once_witness :
  let h := @history_of demo_client_env demo_client (demo_calls ++ [@CallShare demo_share_io demo_client_share; CallPop]) in
  h_popped h = [ShareCommittedEvent demo_commit (demo_hex 32 1) demo_identity (demo_target 30)] /\
  event_seq <$> h_replayed h = seqZ 5 (len (h_replayed h)).
Proof.
  split; [vm_compute; reflexivity|].
  refine (proj1 (@journal_delivered_once demo_client_env demo_client_config 9 4 77 (Some (Ok tt))
    demo_hello_io demo_client (demo_calls ++ [CallShare demo_share_io demo_client_share; CallPop]) _)).
  vm_compute. reflexivity.
Defined.

Definition demo_committed : BackendClient :=
  fst (@submit_prepared_share demo_client_env demo_share_io demo_context (h_client (@history_of demo_client_env demo_client demo_calls))).

Lemma share_commit_sound_witness :
  @receipt_fits demo_client_env demo_context demo_commit false /\ bc_usable demo_committed = true.
Proof.
  assert (@connect demo_client_env demo_client_config 9 4 77 (Some (Ok tt)) demo_hello_io = Ok demo_client) as Hc by (vm_compute; reflexivity).
  assert (@submit_prepared_share demo_client_env demo_share_io demo_context (h_client (@history_of demo_client_env demo_client demo_calls)) =
    (demo_committed, Ok (mkVerifiedShareCommit demo_commit false))) as Hs by (vm_compute; reflexivity).
  destruct (@share_commit_sound demo_client_env demo_client_config 9 4 77 (Some (Ok tt)) demo_hello_io demo_client demo_calls
    demo_share_io demo_context demo_committed (mkVerifiedShareCommit demo_commit false) Hc Hs) as (A & _ & _ & _ & _ & _ & B).
  exact (conj A B).
Defined.

Lemma client_fails_closed_witness :
  let io := mkIo 300 WriteBlocked [] in
  let before := h_client (@history_of demo_client_env demo_client [CallHealth io]) in
  bc_usable before = false /\ bc_usable (fst (@client_run demo_client_env (CallHealth io) before)) = false.
Proof.
  assert (@connect demo_client_env demo_client_config 9 4 77 (Some (Ok tt)) demo_hello_io = Ok demo_client) as Hc by (vm_compute; reflexivity). intros io before.
  assert (bc_usable before = false) as Hu by (vm_compute; reflexivity). split; [exact Hu|].
  pose proof (@client_fails_closed demo_client_env demo_client_config 9 4 77 (Some (Ok tt)) demo_hello_io demo_client
    [CallHealth io] (CallHealth io) Hc) as H.
  fold before in H. cbv zeta in H. destruct (client_run (CallHealth io) before) as [after r].
  exact (proj1 (proj1 H Hu)).
Defined.

(** A connection is made only to the expected backend: the client that [connect] returns read one
    validated hello answer whose genesis hashes, chain, payout commitments and target ceiling are the
    configured ones, whose persistent identities are the pinned ones, whose journal is not behind the
    caller's cursor, and a cursor was only resumed against a pinned journal. *)
Theorem connect_exact {env : ClientEnv} config pool last token opened io c :
  connect config pool last token opened io = Ok c ->
  (eb_journal_stream (bcc_expected config) = None -> last = 0) /\
  exists m rest frame identity,
    encode_backend_request ce_to_vec (Hello BACKEND_PROTOCOL_VERSION 1 pool last) = Ok frame /\
    read_backend_message (io_arrivals io) = (rest, Some (Ok m)) /\
    BackendMessage_validate ce_sha256 m = Ok tt /\
    accepted_hello config last m identity /\ c = connected_client config last token rest frame identity.
Proof.
  intros Hc. apply connect_inv in Hc as (_ & Hn & m & rest & frame & identity & A & B & C & D).
  split; [done|]. exists m, rest, frame, identity. split_and!; try done. by eapply read_message_validated.
Qed.

Lemma connect_exact_witness :
  @connect demo_client_env demo_client_config 9 4 77 (Some (Ok tt)) demo_hello_io = Ok demo_client /\
  exists m rest, @read_backend_message demo_client_env (demo_frame 0) = (rest, Some (Ok m)) /\
    BackendMessage_validate demo_sha256 m = Ok tt.
Proof.
  assert (@connect demo_client_env demo_client_config 9 4 77 (Some (Ok tt)) demo_hello_io = Ok demo_client) as Hc by (vm_compute; reflexivity). split; [exact Hc|].
  destruct (@connect_exact demo_client_env demo_client_config 9 4 77 (Some (Ok tt)) demo_hello_io demo_client Hc) as (_ & m & rest & _ & _ & _ & A & B & _).
  exists m, rest. exact (conj A B).
Defined.

(** The reading loop always ends with an outcome of the socket: one iteration more than there are
    bytes is enough, and further fuel changes nothing. *)
Theorem exchange_loop_terminates {env : ClientEnv} extra id operation allow anchor binding c :
  let bytes := incoming_bytes (us_incoming (bc_stream c)) in
  exchange_loop (S bytes + extra) id operation allow anchor binding c =
  exchange_loop (S bytes) id operation allow anchor binding c.
Proof. apply exchange_loop_fuel; lia. Qed.

(** C30. A committed share completes: when the backend journals the share next and answers with its
    receipt, the submission succeeds and the event is queued, however the socket cuts the two
    messages into reads. *)
Theorem share_round_trip {env : ClientEnv} (to_msg : BackendMessage -> result (list Z) string)
    (message_json : forall m b, to_msg m = Ok b -> ce_from_slice b = Ok m)
    (version_json : forall m b, to_msg m = Ok b -> ce_value_version b = Ok (Some (BackendMessage_version m)))
    config pool last token opened io0 c0 ops io submission receipt fe fm frame :
  connect config pool last token opened io0 = Ok c0 ->
  let c := h_client (history_of c0 ops) in
  bc_usable c = true -> bc_phase c = PhaseLive ->
  (length (bc_queued_events c) < bcc_event_queue_capacity (bc_config c))%nat ->
  bc_next_request_id c + 1 <= U64_MAX ->
  encode_backend_request ce_to_vec (share_request c submission) = Ok frame ->
  commit_answer to_msg c submission receipt fe fm ->
  io_write io = WriteDone -> carries (us_incoming (bc_stream c) ++ io_arrivals io) (fe ++ fm) ->
  exists c' floor binding,
    submit_share io submission c = (c', Ok (mkUnverifiedShareCommit receipt false)) /\ bc_usable c' = true /\
    bc_queued_events c' = bc_queued_events c ++ [mkDeliveredBackendEvent
      (ShareCommittedEvent receipt (sub_job_id submission) (sub_identity submission) (sub_target_le submission))
      floor binding] /\
    bc_live_event_cursor c' = Some (sr_event_seq receipt).
Proof.
  intros Hc c Hu Hp Hq Hn Hf Ha Hw Hin. pose proof (connect_tracked _ _ _ _ _ _ _ ops Hc) as Ht.
  exact (share_answered to_msg message_json version_json _ _ io submission receipt fe fm frame Ht Ha Hu Hp Hq Hn Hf Hw Hin).
Qed.

Lemma share_round_trip_witness :
  exists c', @submit_share demo_client_env demo_share_io demo_client_share (h_client (@history_of demo_client_env demo_client demo_calls))
    = (c', Ok (mkUnverifiedShareCommit demo_commit false)).
Proof.
  assert (@connect demo_client_env demo_client_config 9 4 77 (Some (Ok tt)) demo_hello_io = Ok demo_client) as Hc by (vm_compute; reflexivity).
  assert (@commit_answer demo_client_env demo_message_to (h_client (@history_of demo_client_env demo_client demo_calls)) demo_client_share demo_commit [0; 0; 0; 1; 2] [0; 0; 0; 1; 3]) as Ha.
  { split; try (vm_compute; reflexivity).
    - split; [vm_compute; reflexivity|vm_compute; discriminate].
    - intros event r j i t Hin. exfalso. assert (known_events (h_client (@history_of demo_client_env demo_client demo_calls)) = []) as E by (vm_compute; reflexivity).
      rewrite E in Hin. exact (not_elem_of_nil _ Hin). }
  destruct (@share_round_trip demo_client_env demo_message_to demo_message_json demo_version_json
    demo_client_config 9 4 77 (Some (Ok tt)) demo_hello_io demo_client demo_calls
    demo_share_io demo_client_share demo_commit [0; 0; 0; 1; 2] [0; 0; 0; 1; 3] [0; 0; 0; 1; 1] Hc) as (c' & f & b & H & _).
  - vm_compute. reflexivity.
  - vm_compute. reflexivity.
  - apply Nat.ltb_lt. vm_compute. reflexivity.
  - apply Z.leb_le. vm_compute. reflexivity.
  - vm_compute. reflexivity.
  - exact Ha.
  - reflexivity.
  - exists [[0; 0; 0]; [1; 2]; [0; 0; 0]; [1; 3]]. split; [vm_compute; reflexivity|]. split; [|reflexivity].
    repeat constructor; discriminate.
  - exists c'. exact H.
Defined.
