(* ===== verification/Router.v ===== *)
(** The generation router (crates/wcash-pool-edge/src/router.rs): one registry shared by every miner
    session, fed by the backend client's branded snapshots and events, and the ordered broadcast of
    its changes. *)

From Stdlib Require Import ZArith Lia.
From stdpp Require Import prelude gmap sorting strings.
From S2P Require Import Prelude Wire Target Nonce LargestRemainder Backend Stream Framing Jobs JobsInv JobsWorld JobsLife JobsProps Session BackendClient.
Open Scope Z_scope.

Definition MAXIMUM_EVENT_CAPACITY : nat := 4096.

Inductive JobUpdate : Type :=
| Activated (generation : BackendGeneration) (clean_jobs : bool)
| Retired (job_id : JobId)
| UpdateSuspended.

#[global] Instance JobUpdate_eq_dec : EqDecision JobUpdate.
Proof. solve_decision. Defined.

Inductive JobRouterError : Type :=
| InvalidEventCapacity (actual maximum : nat)
| RouterPoisoned
| RecoveryWhileSynchronized
| BackendAuthorityMismatch
| BackendConnectionMismatch
| MissingActivatedGeneration (id : JobId)
| UpdateStreamLagged (skipped : nat)
| UpdateStreamClosed
| RouterTimeline (e : TimelineError)
| RouterIntegration (e : JobStateIntegrationError)
| RouterRegistry (e : JobRegistryError)
| RouterSession (e : SessionError).

(** [world] is the registry with the heap its guards share. *)
Record RouterState : Type := mkRouterState {
  rs_world : World;
  rs_health_paused : bool;
  rs_recovery_only : bool;
  rs_force_clean_jobs : bool;
  rs_backend_authority : option BackendAuthority;
  rs_connection_binding : option BackendConnectionBinding
}.

Definition rs_registry (s : RouterState) : GenerationRegistry := registry (rs_world s).

Definition set_world (w : World) (s : RouterState) : RouterState :=
  mkRouterState w (rs_health_paused s) (rs_recovery_only s) (rs_force_clean_jobs s)
    (rs_backend_authority s) (rs_connection_binding s).
Definition set_health_paused (b : bool) (s : RouterState) : RouterState :=
  mkRouterState (rs_world s) b (rs_recovery_only s) (rs_force_clean_jobs s)
    (rs_backend_authority s) (rs_connection_binding s).
Definition set_recovery_only (b : bool) (s : RouterState) : RouterState :=
  mkRouterState (rs_world s) (rs_health_paused s) b (rs_force_clean_jobs s)
    (rs_backend_authority s) (rs_connection_binding s).
Definition set_force_clean_jobs (b : bool) (s : RouterState) : RouterState :=
  mkRouterState (rs_world s) (rs_health_paused s) (rs_recovery_only s) b
    (rs_backend_authority s) (rs_connection_binding s).
Definition set_binding (authority : BackendAuthority) (binding : BackendConnectionBinding) (s : RouterState)
    : RouterState :=
  mkRouterState (rs_world s) (rs_health_paused s) (rs_recovery_only s) (rs_force_clean_jobs s)
    (Some authority) (Some binding).

(** A call on the registry inside the state. *)
Definition with_world {A E} (wrap : E -> JobRouterError) (m : M World E A) : M RouterState JobRouterError A :=
  fun s => let '(w, r) := m (rs_world s) in (set_world w s, map_err wrap r).
Definition with_registry {A} (m : M GenerationRegistry JobRegistryError A) : M RouterState JobRouterError A :=
  with_world RouterRegistry (on_registry m).

(** ** Updates *)

Definition is_hard (reason : JobInvalidationReason) (accept_for_ms : Z) : bool :=
  negb (bool_decide (reason = Superseded)) || (accept_for_ms =? 0).

Definition update_for (event : BackendEvent) (now_ms : Z) : M RouterState JobRouterError (option JobUpdate) :=
  match event with
  | JobActivated _ job =>
      let* self := st_get in
      if rs_health_paused self then st_ret None else
      let* id := st_lift (map_err RouterRegistry (JobId_new (as_bytes (jd_job_id job)))) in
      let* generation := st_lift (ok_or (generation (rs_registry self) id) (MissingActivatedGeneration id)) in
      let* admissible := with_registry (admissible_job_ids now_ms) in
      if negb (bool_decide (adm_current admissible = Some id)) then st_ret None else
      let* self := st_get in
      let preserves_prior_work := existsb (fun prior_id =>
        match Jobs.generation (rs_registry self) prior_id with
        | Some prior => bool_decide (bg_tips prior = bg_tips generation)
        | None => false
        end) (adm_recent admissible) in
      let clean_jobs := rs_force_clean_jobs self || negb preserves_prior_work in
      do* st_modify (set_force_clean_jobs false) in
      st_ret (Some (Activated generation clean_jobs))
  | JobInvalidated _ job_id reason accept_for_ms =>
      let* id := st_lift (map_err RouterRegistry (JobId_new (as_bytes job_id))) in
      let hard_retirement := is_hard reason accept_for_ms in
      do* (if hard_retirement then st_modify (set_force_clean_jobs true) else st_ret tt) in
      st_ret (if hard_retirement then Some (Retired id) else None)
  | GenerationClosed _ job_id =>
      do* st_modify (set_force_clean_jobs true) in
      let* id := st_lift (map_err RouterRegistry (JobId_new (as_bytes job_id))) in
      st_ret (Some (Retired id))
  | _ => st_ret None
  end.

(** ** The router *)

(** [router_updates] is everything broadcast so far; [router_poisoned] the state of the mutex. *)
Record JobRouter : Type := mkJobRouter {
  router_state : RouterState;
  router_poisoned : bool;
  router_timeline : MonotonicTimeline;
  router_updates : list JobUpdate
}.

Definition RouterM (A : Type) : Type := M JobRouter JobRouterError A.

Definition set_router_state (s : RouterState) (r : JobRouter) : JobRouter :=
  mkJobRouter s (router_poisoned r) (router_timeline r) (router_updates r).
Definition broadcast (update : JobUpdate) (r : JobRouter) : JobRouter :=
  mkJobRouter (router_state r) (router_poisoned r) (router_timeline r) (router_updates r ++ [update]).

(** A section under the lock. *)
Definition router_locked {A} (m : M RouterState JobRouterError A) : RouterM A :=
  fun r => let '(s, x) := m (router_state r) in (set_router_state s r, x).
(** [self.state.lock().map_err(|_| JobRouterError::Poisoned)?]. *)
Definition lock : RouterM unit :=
  fun r => if router_poisoned r then (r, Err RouterPoisoned) else (r, Ok tt).
(** A lock whose failure is broadcast.  A mutex stays poisoned, so a call that broadcasts some time after
    its lock failed is one that failed just then. *)
Definition lock_or_suspend : RouterM unit :=
  fun r => if router_poisoned r then (broadcast UpdateSuspended r, Err RouterPoisoned) else (r, Ok tt).

(** [self.timeline.now_ms()] at the instant the clock shows. *)
Definition router_now_ms (now : Z) : RouterM Z :=
  fun r => (r, map_err RouterTimeline (timeline_now_ms (router_timeline r) now)).

Definition validate_event_capacity (actual : nat) : result unit JobRouterError :=
  if negb ((1 <=? actual) && (actual <=? MAXIMUM_EVENT_CAPACITY))%nat
  then Err (InvalidEventCapacity actual MAXIMUM_EVENT_CAPACITY) else Ok tt.

Definition js_authority (snapshot : JobSnapshot) : BackendAuthority := cb_authority (js_connection_binding snapshot).

Definition from_snapshot (snapshot : JobSnapshot) (registry_config : GenerationRegistryConfig)
    (timeline : MonotonicTimeline) (event_capacity : nat) : result JobRouter JobRouterError :=
  let? _ := validate_event_capacity event_capacity in
  match snapshot_apply_to_registry snapshot timeline (World_new registry_config) with
  | (_, Err e) => Err (RouterIntegration e)
  | (w, Ok _) =>
      Ok (mkJobRouter (mkRouterState w false false false (Some (js_authority snapshot))
                         (Some (js_connection_binding snapshot))) false timeline [])
  end.

(** *** Suspension *)

Definition suspend_state (s : RouterState) : RouterState :=
  set_force_clean_jobs true (set_recovery_only false (set_world (fst (modify_registry Jobs.suspend (rs_world s))) s)).

(** The transition and its broadcast under one lock. *)
Definition suspend_locked (r : JobRouter) : JobRouter :=
  broadcast UpdateSuspended (set_router_state (suspend_state (router_state r)) r).

Definition router_suspend : RouterM unit :=
  do* lock_or_suspend in st_modify suspend_locked.

Definition suspend_if_bound (binding : BackendConnectionBinding) : RouterM bool :=
  do* lock_or_suspend in
  let* self := st_get in
  if negb (bool_decide (rs_connection_binding (router_state self) = Some binding)) then st_ret false else
  do* st_modify suspend_locked in st_ret true.

(** *** Events *)

Section Events.
Variable sha256 : list Z -> list Z.

(** The first section of [apply_event_inner]: [Some error] is a failure after which the lock is
    released and the router suspended. *)
Definition apply_event_section (required_binding : BackendConnectionBinding)
    (delivered : DeliveredBackendEvent) (now : Z) : RouterM (option JobRouterError) :=
  do* lock_or_suspend in
  let* self := st_get in
  if negb (bool_decide (de_connection_binding delivered = required_binding))
     || negb (bool_decide (rs_connection_binding (router_state self) = Some required_binding))
  then st_throw BackendConnectionMismatch else
  match timeline_now_ms (router_timeline self) now with
  | Err error => do* st_modify suspend_locked in st_throw (RouterTimeline error)
  | Ok now_ms => fun self =>
      match router_locked (with_world RouterIntegration
              (event_apply_to_registry_at sha256 delivered (router_timeline self) now_ms)) self with
      | (self, Err error) => (self, Ok (Some error))
      | (self, Ok _) =>
          match router_locked (update_for (de_event delivered) now_ms) self with
          | (self, Err error) => (self, Ok (Some error))
          | (self, Ok (Some update)) => (broadcast update self, Ok None)
          | (self, Ok None) => (self, Ok None)
          end
      end
  end.

Definition apply_event_inner (required_binding : BackendConnectionBinding)
    (delivered : DeliveredBackendEvent) (now : Z) : RouterM unit :=
  let* failed := apply_event_section required_binding delivered now in
  match failed with
  | None => st_ret tt
  | Some error => fun self => (fst (router_suspend self), Err error)
  end.

Definition router_apply_event (client : BackendClient) (delivered : DeliveredBackendEvent) (now : Z)
    : RouterM unit :=
  let* binding := st_lift (ok_or (connection_binding client) BackendConnectionMismatch) in
  apply_event_inner binding delivered now.
End Events.

(** *** Recovery *)

(** The section of [recover_with] under the lock: [Some error] is a failure after which the lock is
    released and the suspension broadcast. *)
Definition recover_section (replacement_binding : option (BackendAuthority * BackendConnectionBinding))
    (apply : M World JobStateIntegrationError unit) : RouterM (option JobRouterError) :=
  do* lock_or_suspend in
  let* self := st_get in
  let state := router_state self in
  if synchronized (rs_registry state) then st_throw RecoveryWhileSynchronized else
  if match replacement_binding with
     | Some (authority, _) => negb (bool_decide (rs_backend_authority state = Some authority))
     | None => false
     end
  then do* st_modify (broadcast UpdateSuspended) in st_throw BackendAuthorityMismatch else
  fun self =>
  let state := set_recovery_only false (set_force_clean_jobs true (router_state self)) in
  match with_world RouterIntegration apply state with
  | (state, Ok _) =>
      let state := set_health_paused false state in
      (set_router_state (match replacement_binding with
                         | Some (authority, binding) => set_binding authority binding state
                         | None => state
                         end) self, Ok None)
  | (state, Err error) =>
      (set_router_state (set_world (fst (modify_registry Jobs.suspend (rs_world state))) state) self, Ok (Some error))
  end.

Definition recover_with (replacement_binding : option (BackendAuthority * BackendConnectionBinding))
    (apply : M World JobStateIntegrationError unit) : RouterM unit :=
  let* failed := recover_section replacement_binding apply in
  match failed with
  | None => st_ret tt
  | Some error => do* st_modify (broadcast UpdateSuspended) in st_throw error
  end.

(** [recover_from_snapshot] up to the release of the lock. *)
Definition recover_snapshot_section (snapshot : JobSnapshot) : RouterM (option JobRouterError) :=
  let* self := st_get in
  recover_section (Some (js_authority snapshot, js_connection_binding snapshot))
    (snapshot_apply_to_registry snapshot (router_timeline self)).

Definition recover_from_snapshot (snapshot : JobSnapshot) : RouterM unit :=
  let* self := st_get in
  recover_with (Some (js_authority snapshot, js_connection_binding snapshot))
    (snapshot_apply_to_registry snapshot (router_timeline self)).

(** *** Questions about the client *)

Definition client_bound (client : BackendClient) (state : RouterState) : bool :=
  match rs_connection_binding state with Some binding => is_bound_to client binding | None => false end.
Definition client_at_cursor (client : BackendClient) (state : RouterState) : bool :=
  bool_decide (last_event_seq (rs_registry state) = bc_live_event_cursor client).

Definition client_binding_matches (client : BackendClient) : RouterM bool :=
  do* lock in let* self := st_get in st_ret (client_bound client (router_state self)).
Definition client_cursor_matches (client : BackendClient) : RouterM bool :=
  do* lock in let* self := st_get in st_ret (client_at_cursor client (router_state self)).

(** *** Health *)

Definition pause_for_health (client : BackendClient) (now : Z) : RouterM unit :=
  do* lock in
  let* self := st_get in
  if negb (client_bound client (router_state self)) then st_throw BackendConnectionMismatch else
  let* now_ms := router_now_ms now in
  router_locked (do* with_registry (admissible_job_ids now_ms) in
          do* st_modify (set_recovery_only false) in
          st_modify (fun state => if rs_health_paused state then state
                                  else set_force_clean_jobs true (set_health_paused true state))).

Definition resume_after_health (client : BackendClient) (now : Z) : RouterM unit :=
  do* lock in
  let* self := st_get in
  if negb (client_bound client (router_state self)) then st_throw BackendConnectionMismatch else
  if negb (client_at_cursor client (router_state self)) then st_throw BackendConnectionMismatch else
  let* now_ms := router_now_ms now in
  let* current := router_locked (with_registry (current_generation now_ms)) in
  do* router_locked (st_modify (set_recovery_only false)) in
  let* self := st_get in
  if rs_health_paused (router_state self) then
    do* router_locked (st_modify (fun state => set_force_clean_jobs true (set_health_paused false state))) in
    match current with
    | Some generation =>
        do* st_modify (broadcast (Activated generation true)) in
        router_locked (st_modify (set_force_clean_jobs false))
    | None => st_ret tt
    end
  else st_ret tt.

Definition allow_recovery_only_after_health (client : BackendClient) (now : Z) : RouterM unit :=
  do* lock in
  let* self := st_get in
  let state := router_state self in
  if negb (rs_health_paused state) || negb (client_bound client state) || negb (client_at_cursor client state)
  then st_throw BackendConnectionMismatch else
  let* now_ms := router_now_ms now in
  router_locked (do* with_registry (winner_recovery_job_ids now_ms) in st_modify (set_recovery_only true)).

(** *** Admission *)

Section Admission.
Variable sha256 : list Z -> list Z.

(** The context is consumed: a refusal drops its guard. *)
Definition prepare_queued_paused_candidate (context : SubmissionContext) (client : BackendClient) (now : Z)
    : RouterM SubmissionContext :=
  fun self =>
  let refuse error := (set_router_state (set_world (drop_admission (sc_admission context) (rs_world (router_state self)))
                                           (router_state self)) self, Err error) in
  if router_poisoned self then refuse RouterPoisoned else
  let state := router_state self in
  if rs_health_paused state && negb (rs_recovery_only state)
  then refuse (RouterSession (SessionRegistry (StaleJob (ga_job_id (sc_admission context))))) else
  if negb (client_bound client state) || negb (client_at_cursor client state)
  then refuse BackendConnectionMismatch else
  let recovery_only := rs_health_paused state && rs_recovery_only state in
  match timeline_now_ms (router_timeline self) now with
  | Err error => refuse (RouterTimeline error)
  | Ok now_ms => router_locked (with_world RouterSession (refilter_zcash_candidate sha256 context now_ms recovery_only)) self
  end.

Definition router_current_generation (now : Z) : RouterM (option BackendGeneration) :=
  do* lock in
  let* now_ms := router_now_ms now in
  let* current := router_locked (with_registry (current_generation now_ms)) in
  let* self := st_get in
  st_ret (if rs_health_paused (router_state self) then None else current).

Definition admissible_ids (admissible : AdmissibleJobIds) : list JobId :=
  option_list (adm_current admissible) ++ adm_recent admissible.

Definition router_admissible_job_ids (now : Z) : RouterM (list JobId) :=
  do* lock in
  let* now_ms := router_now_ms now in
  let* admissible := router_locked (with_registry (admissible_job_ids now_ms)) in
  let* self := st_get in
  if rs_health_paused (router_state self) then st_ret [] else st_ret (admissible_ids admissible).

Definition retained_job_ids (now : Z) : RouterM (list JobId) :=
  do* lock in
  let* now_ms := router_now_ms now in
  let* admissible := router_locked (with_registry (admissible_job_ids now_ms)) in
  st_ret (admissible_ids admissible).

Definition router_winner_recovery_job_ids (now : Z) : RouterM (list JobId) :=
  do* lock in
  let* now_ms := router_now_ms now in
  router_locked (with_registry (winner_recovery_job_ids now_ms)).

Definition router_prepare_submission (session : MiningSession) (claimed_login : string) (job_id : JobId)
    (submitted_time : Hex4) (nonce_suffix : NonceSuffix) (solution : Hex1344) (now : Z)
    : RouterM SubmissionContext :=
  do* lock in
  let* now_ms := router_now_ms now in
  let* self := st_get in
  if rs_health_paused (router_state self) then
    do* router_locked (with_registry (admissible_job_ids now_ms)) in
    if rs_recovery_only (router_state self)
    then router_locked (with_world RouterSession
           (prepare_paused_zcash_candidate sha256 session claimed_login job_id submitted_time nonce_suffix solution now_ms))
    else st_throw (RouterSession (SessionRegistry (StaleJob job_id)))
  else router_locked (with_world RouterSession
         (prepare_submission sha256 session claimed_login job_id submitted_time nonce_suffix solution now_ms)).
End Admission.

(** ** Subscriptions *)

(** The position of a receiver in the broadcast. *)
Record JobSubscription : Type := mkJobSubscription {
  sub_position : nat;
  sub_suspension_pending : bool
}.

(** [subscribe]: the receiver is opened first and starts after everything broadcast so far; then the
    lock is taken, and a router found poisoned or unsynchronised suspends the subscription at once. *)
Definition subscribe_receiver (opened : JobRouter) : nat := length (router_updates opened).
Definition subscribe_inspect (inspected : JobRouter) : bool :=
  router_poisoned inspected || negb (synchronized (rs_registry (router_state inspected))).
Definition router_subscribe (opened inspected : JobRouter) : JobSubscription :=
  mkJobSubscription (subscribe_receiver opened) (subscribe_inspect inspected).

(** The channel keeps the last [ring] updates; [None] waits for the next one. *)
Definition receive (ring : nat) (updates : list JobUpdate) (self : JobSubscription)
    : JobSubscription * option (result JobUpdate JobRouterError) :=
  if sub_suspension_pending self then (mkJobSubscription (sub_position self) false, Some (Ok UpdateSuspended)) else
  let oldest := (length updates - ring)%nat in
  if (sub_position self <? oldest)%nat
  then (mkJobSubscription oldest false, Some (Err (UpdateStreamLagged (oldest - sub_position self))))
  else match updates !! sub_position self with
       | Some update => (mkJobSubscription (S (sub_position self)) false, Some (Ok update))
       | None => (self, None)
       end.
