(* ===== verification/RouterProps.v ===== *)
(** What the generation router (crates/wcash-pool-edge/src/router.rs) promises: it is a client of the
    registry's transition system, only the connection of the current epoch moves it, a subscriber
    cannot miss a suspension, work that follows a retirement is announced clean, and a health pause
    admits nothing but winning Zcash candidates. *)

From Stdlib Require Import ZArith Lia.
From stdpp Require Import prelude gmap sorting strings.
From S2P Require Import Prelude Wire Target Nonce LargestRemainder Backend Stream Framing Jobs JobsInv JobsWorld JobsLife JobsProps Session BackendClient BackendClientProps BackendClientHistory Router.
Open Scope Z_scope.

(** ** Registry calls at one instant *)

(** A call at a time that is not in the past keeps the synchronisation and the journal position. *)
Definition forward (now : Z) (w w' : World) : Prop :=
  moved_backwards (last_monotonic_ms (registry w)) now = false ->
  synchronized (registry w') = synchronized (registry w) /\
  last_event_seq (registry w') = last_event_seq (registry w) /\
  moved_backwards (last_monotonic_ms (registry w')) now = false.

#[local] Instance forward_preorder now : PreOrder (forward now).
Proof.
  split; [by intros w Hm|]. intros w1 w2 w3 H1 H2 Hm. destruct (H1 Hm) as (A & B & C). destruct (H2 C) as (D & E & F).
  split_and!; congruence.
Qed.

Lemma ticked_forward now w h n : forward now w (mkWorld (ticked now (registry w)) h n).
Proof. intros Hm. split_and!; try done. cbn. by rewrite Z.ltb_irrefl. Qed.

Lemma pruned_forward now w h n : forward now w (mkWorld (prune_winner_recovery now (ticked now (registry w))) h n).
Proof. intros Hm. split_and!; try done. cbn. by rewrite Z.ltb_irrefl. Qed.

Lemma world_eta w : w = mkWorld (registry w) (heap w) (next_addr w).
Proof. by destruct w. Qed.

(** A query that begins with the clock. *)
Lemma clocked_forward {A} now (k : M GenerationRegistry JobRegistryError A) w :
  (forall r, synchronized (fst (k r)) = synchronized r /\ last_event_seq (fst (k r)) = last_event_seq r /\
             last_monotonic_ms (fst (k r)) = last_monotonic_ms r) ->
  forward now w (fst (on_registry (do* advance_clock now in k) w)).
Proof.
  intros Hk Hm. unfold on_registry, st_bind. rewrite advance_clock_eval, Hm.
  destruct (Hk (ticked now (registry w))) as (A1 & A2 & A3). destruct (k (ticked now (registry w))) as [r x]. cbn in *.
  rewrite A1, A2, A3. split_and!; try done. cbn. by rewrite Z.ltb_irrefl.
Qed.

Lemma admissible_forward now w : forward now w (fst (on_registry (admissible_job_ids now) w)).
Proof. apply clocked_forward. intros r. st_unfold. by destruct (synchronized r) eqn:E; cbn. Qed.
Lemma current_forward now w : forward now w (fst (on_registry (current_generation now) w)).
Proof. apply clocked_forward. intros r. st_unfold. by destruct (current r). Qed.
Lemma recovery_ids_forward now w : forward now w (fst (on_registry (winner_recovery_job_ids now) w)).
Proof. apply clocked_forward. intros r. st_unfold. by destruct (synchronized r) eqn:E; cbn. Qed.

Lemma set_count_forward now a n w : forward now w (set_count a n w).
Proof. by intros Hm. Qed.

Lemma drop_forward now g w : forward now w (drop_admission g w).
Proof. unfold drop_admission. cbv zeta. apply set_count_forward. Qed.

Lemma admission_forward id now w : forward now w (fst (begin_admission id now w)).
Proof.
  pose proof (begin_admission_cases id now w) as H. destruct (begin_admission id now w) as [w' [g|e]]; cbn.
  - destruct H as (_ & _ & e & res & _ & _ & _ & _ & _ & ->).
    etrans; [apply ticked_forward|apply set_count_forward].
  - destruct H as [-> _]. intros Hm. rewrite Hm. by apply ticked_forward.
Qed.

Section Sha.
Context (sha256 : list Z -> list Z).

Lemma candidate_forward id nonce solution now role allow w :
  forward now w (fst (begin_zcash_candidate sha256 id nonce solution now role allow w)).
Proof.
  pose proof (begin_zcash_cases sha256 id nonce solution now role allow w) as H.
  destruct (begin_zcash_candidate _ _ _ _ _ _ _ w) as [w' [g|e]]; cbn.
  - destruct H as (_ & _ & _ & e & _ & _ & _ & _ & _ & _ & _ & ->). apply pruned_forward.
  - rewrite H. intros Hm. rewrite Hm. assert (forall b : bool, forward now w (mkWorld
      (if b then prune_winner_recovery now (ticked now (registry w)) else ticked now (registry w)) (heap w) (next_addr w)))
      as Hb by (intros []; [apply pruned_forward|apply ticked_forward]). by apply (Hb _ Hm).
Qed.

Lemma lift_fst {A} (m : M World JobRegistryError A) w : fst (lift_registry m w) = fst (m w).
Proof. unfold lift_registry. by destruct (m w). Qed.

Lemma recovery_forward a job t nonce solution now role allow w :
  forward now w (fst ((do* check_retained a job t in
    lift_registry (begin_zcash_candidate sha256 job nonce solution now role allow)) w)).
Proof.
  unfold st_bind. destruct (check_retained_eval a job t w) as (x & -> & _). destruct x as [[]|]; [|reflexivity].
  rewrite lift_fst. apply candidate_forward.
Qed.

Lemma admit_submission_forward a job t nonce solution now paused w :
  forward now w (fst (admit_submission sha256 a job t nonce solution now paused w)).
Proof.
  unfold admit_submission. destruct paused; [apply recovery_forward|].
  pose proof (admission_forward job now w) as H. destruct (begin_admission job now w) as [w1 [g|e]]; [exact H|].
  destruct e; try exact H. etrans; [exact H|]. apply recovery_forward.
Qed.

Lemma prepare_forward self login job t suffix solution now paused w :
  forward now w (fst (prepare_submission_mode sha256 self login job t suffix solution now paused w)).
Proof.
  unfold prepare_submission_mode, require. st_unfold. case_bool_decide as Hst; [|reflexivity].
  destruct (ms_worker self) as [worker|]; [|reflexivity].
  destruct (ms_nonce_prefix self) as [prefix|]; [|reflexivity]. destruct (negb _); [reflexivity|].
  destruct (find_assignment self job) as [a|]; [|reflexivity]. destruct (join_nonce _ _) as [nonce|]; [|reflexivity].
  pose proof (admit_submission_forward a job t nonce solution now paused w) as H.
  destruct (admit_submission _ _ _ _ _ _ _ _ _) as [w' [g|e]]; [|exact H].
  destruct (check_generation _ _ _ _) as [[]|]; [exact H|]. etrans; [exact H|]. apply drop_forward.
Qed.

Lemma refilter_forward ctx now only w : forward now w (fst (refilter_zcash_candidate sha256 ctx now only w)).
Proof.
  unfold refilter_zcash_candidate. set (m := if (_ || _)%bool then _ else _).
  assert (forward now w (fst (lift_registry m w))) as H.
  { rewrite lift_fst. unfold m. destruct (_ || _)%bool; [|destruct only]; apply candidate_forward. }
  clearbody m. destruct (lift_registry m w) as [w' [g|e]]; cbn in H.
  - destruct (negb _); cbn; (etrans; [exact H|]); [|apply drop_forward]. etrans; [|apply drop_forward]. apply drop_forward.
  - etrans; [exact H|]. apply drop_forward.
Qed.

(** ** The router as a system *)

(** The router, the guards its callers hold, the clock, how many calls of [recover_from_snapshot] have
    failed and not yet broadcast the suspension, and how many calls of [apply_event] have failed and not
    yet suspended the router. *)
Record RouterSys : Type := mkRouterSys {
  sys_router : JobRouter;
  sys_guards : list GenerationAdmission;
  sys_clock : Z;
  sys_sends : nat;
  sys_failed : nat
}.

Inductive router_query : Type :=
| QPause (client : BackendClient) | QResume (client : BackendClient) | QAllow (client : BackendClient)
| QCurrent | QAdmissible | QRetained | QRecoveryIds.

Definition run_query (q : router_query) (now : Z) (r : JobRouter) : JobRouter :=
  match q with
  | QPause client => fst (pause_for_health client now r)
  | QResume client => fst (resume_after_health client now r)
  | QAllow client => fst (allow_recovery_only_after_health client now r)
  | QCurrent => fst (router_current_generation now r)
  | QAdmissible => fst (router_admissible_job_ids now r)
  | QRetained => fst (retained_job_ids now r)
  | QRecoveryIds => fst (router_winner_recovery_job_ids now r)
  end.

(** One section under the lock or one broadcast outside it, by any thread; [std::time::Instant] never
    decreases, and a snapshot's anchor was taken before it arrived. *)
Inductive router_step : RouterSys -> RouterSys -> Prop :=
| rstep_apply binding delivered now r r' x gs clock k n :
    clock <= now -> apply_event_section sha256 binding delivered now r = (r', x) ->
    router_step (mkRouterSys r gs clock k n)
      (mkRouterSys r' gs now k (match x with Ok (Some _) => S n | _ => n end))
| rstep_failed r gs clock k n :
    router_step (mkRouterSys r gs clock k (S n)) (mkRouterSys (fst (router_suspend r)) gs clock k n)
| rstep_suspend r gs clock k n :
    router_step (mkRouterSys r gs clock k n) (mkRouterSys (fst (router_suspend r)) gs clock k n)
| rstep_suspend_bound binding r gs clock k n :
    router_step (mkRouterSys r gs clock k n) (mkRouterSys (fst (suspend_if_bound binding r)) gs clock k n)
| rstep_recover snapshot r r' x gs clock k n : js_anchor snapshot <= clock ->
    recover_snapshot_section snapshot r = (r', x) ->
    router_step (mkRouterSys r gs clock k n)
      (mkRouterSys r' gs clock (match x with Ok (Some _) => S k | _ => k end) n)
| rstep_send r gs clock k n :
    router_step (mkRouterSys r gs clock (S k) n) (mkRouterSys (broadcast UpdateSuspended r) gs clock k n)
| rstep_query q now r gs clock k n : clock <= now ->
    router_step (mkRouterSys r gs clock k n) (mkRouterSys (run_query q now r) gs now k n)
| rstep_prepare session login job time suffix solution now r r' x gs clock k n : clock <= now ->
    router_prepare_submission sha256 session login job time suffix solution now r = (r', x) ->
    router_step (mkRouterSys r gs clock k n)
      (mkRouterSys r' (match x with Ok ctx => sc_admission ctx :: gs | Err _ => gs end) now k n)
| rstep_refilter ctx client now r r' x gs gs' clock k n : clock <= now -> gs ≡ₚ sc_admission ctx :: gs' ->
    prepare_queued_paused_candidate sha256 ctx client now r = (r', x) ->
    router_step (mkRouterSys r gs clock k n)
      (mkRouterSys r' (match x with Ok ctx' => sc_admission ctx' :: gs' | Err _ => gs' end) now k n)
| rstep_drop g r gs gs' clock k n : gs ≡ₚ g :: gs' ->
    router_step (mkRouterSys r gs clock k n)
      (mkRouterSys (set_router_state (set_world (drop_admission g (rs_world (router_state r))) (router_state r)) r) gs' clock k n)
| rstep_poison r gs clock k n :
    router_step (mkRouterSys r gs clock k n)
      (mkRouterSys (mkJobRouter (router_state r) true (router_timeline r) (router_updates r)) gs clock k n).

#[local] Abbreviation world r := (rs_world (router_state r)).
#[local] Abbreviation sync r := (synchronized (rs_registry (router_state r))).

(** *** Questions to the registry *)

Inductive router_asked (ms : Z) : World -> World -> Prop :=
| asked_admissible w : router_asked ms w (fst (on_registry (admissible_job_ids ms) w))
| asked_current w : router_asked ms w (fst (on_registry (current_generation ms) w))
| asked_recovery w : router_asked ms w (fst (on_registry (winner_recovery_job_ids ms) w)).

Lemma asked_steps ms w w' gs : router_asked ms w w' -> rtc (step sha256) (w, gs) (w', gs).
Proof. intros []; apply rtc_once; [apply step_admissible|apply step_current|apply step_recovery_ids]. Qed.

Lemma asked_forward ms w w' : router_asked ms w w' -> forward ms w w'.
Proof. intros []; [apply admissible_forward|apply current_forward|apply recovery_ids_forward]. Qed.

(** *** Flags and epoch *)

(** What a section that does not suspend, announce or recover keeps. *)
Record flags_kept (s s' : RouterState) : Prop := {
  fk_authority : rs_backend_authority s' = rs_backend_authority s;
  fk_binding : rs_connection_binding s' = rs_connection_binding s;
  fk_paused : (rs_recovery_only s = true -> rs_health_paused s = true) ->
              rs_recovery_only s' = true -> rs_health_paused s' = true;
  fk_clean : rs_force_clean_jobs s = true -> rs_force_clean_jobs s' = true;
  fk_pausing : rs_health_paused s' = true -> rs_force_clean_jobs s' = false -> rs_health_paused s = true
}.

#[local] Instance flags_kept_preorder : PreOrder flags_kept.
Proof.
  split; [by intros s; split|]. intros s1 s2 s3 [F1 F2 F3 F4 F5] [G1 G2 G3 G4 G5]. split; try congruence; [eauto..|].
  intros Hp Hf. destruct (rs_force_clean_jobs s2) eqn:E; [by rewrite G4 in Hf|]. auto.
Qed.

Lemma set_world_kept w s : flags_kept s (set_world w s).
Proof. by split. Qed.

(** The generation an activation announces is the current one. *)
Definition announces (ms : Z) (s : RouterState) (g : BackendGeneration) : Prop :=
  synchronized (rs_registry s) = true /\
  exists id e, current (rs_registry s) = Some id /\ entries (rs_registry s) !! id = Some e /\
    re_generation e = g /\ re_state e = Accepting /\ ms < re_accept_until_ms e.

(** An announced activation and the state it leaves. *)
Record activation (ms : Z) (s s' : RouterState) (g : BackendGeneration) (clean : bool) : Prop := {
  ac_current : announces ms s' g;
  ac_authority : rs_backend_authority s' = rs_backend_authority s;
  ac_binding : rs_connection_binding s' = rs_connection_binding s;
  ac_paused : rs_health_paused s' = false;
  ac_recovery : (rs_recovery_only s = true -> rs_health_paused s = true) -> rs_recovery_only s' = false;
  ac_clean : clean = false -> rs_force_clean_jobs s = false /\
    exists prior_id prior, prior_id ∈ recent (rs_registry s') /\
      generation (rs_registry s') prior_id = Some prior /\ bg_tips prior = bg_tips g;
  ac_reset : rs_force_clean_jobs s' = false
}.

Lemma on_registry_eta {A} (m : M GenerationRegistry JobRegistryError A) w :
  on_registry m w = (fst (on_registry m w), snd (on_registry m w)).
Proof. by destruct (on_registry m w). Qed.

Lemma current_generation_announces ms w g :
  snd (on_registry (current_generation ms) w) = Ok (Some g) ->
  let r := registry (fst (on_registry (current_generation ms) w)) in
  synchronized r = true /\ exists id e, current r = Some id /\ entries r !! id = Some e /\
    re_generation e = g /\ re_state e = Accepting /\ ms < re_accept_until_ms e.
Proof.
  unfold on_registry, current_generation, st_bind. rewrite advance_clock_eval. destruct (moved_backwards _ ms); [done|].
  st_unfold. set (r1 := ticked ms (registry w)). destruct (current r1) as [id|] eqn:Ec; [|done]. cbn [snd fst registry].
  destruct (entries r1 !! id) as [e|] eqn:Ee; [|done]. unfold opt_filter.
  destruct (synchronized r1 && accepting e ms) eqn:Eb; [|done]. apply andb_true_iff in Eb as [Es Ea].
  intros [= <-]. split; [done|]. exists id, e. unfold accepting in Ea. boolprop. by split_and!.
Qed.

Lemma with_registry_eval {A} (m : M GenerationRegistry JobRegistryError A) s :
  with_registry m s = (set_world (fst (on_registry m (rs_world s))) s, map_err RouterRegistry (snd (on_registry m (rs_world s)))).
Proof. unfold with_registry, with_world. by destruct (on_registry m (rs_world s)). Qed.

Definition query_outcome (q : router_query) (now : Z) (r : JobRouter) : Prop :=
  run_query q now r = r \/
  exists ms s', router_poisoned r = false /\ timeline_now_ms (router_timeline r) now = Ok ms /\
    router_asked ms (world r) (rs_world s') /\
    (run_query q now r = set_router_state s' r /\ flags_kept (router_state r) s' \/
     exists g, run_query q now r = broadcast (Activated g true) (set_router_state s' r) /\
       activation ms (router_state r) s' g true).

(** A question that changes no flag. *)
Lemma asked_outcome q now r ms w' : router_poisoned r = false -> timeline_now_ms (router_timeline r) now = Ok ms ->
  router_asked ms (world r) w' -> run_query q now r = set_router_state (set_world w' (router_state r)) r ->
  query_outcome q now r.
Proof. intros Hp Hm Ha Hq. right. exists ms, (set_world w' (router_state r)). split_and!; try done. left. by split. Qed.

Lemma pause_outcome client now r : query_outcome (QPause client) now r.
Proof.
  unfold query_outcome. cbn [run_query]. unfold pause_for_health, lock, router_now_ms, router_locked. st_unfold.
  destruct (router_poisoned r) eqn:Hp; [by left|]. destruct (client_bound _ _); cbn [negb]; [|by left].
  destruct (timeline_now_ms _ now) as [ms|] eqn:Hm; [|by left]. cbn [map_err]. right.
  rewrite with_registry_eval. set (w' := fst (on_registry (admissible_job_ids ms) (world r))).
  destruct (snd (on_registry (admissible_job_ids ms) (world r))) as [x|e]; cbn [map_err].
  - eexists ms, _. split_and!; [done|done| |left; split; [reflexivity|]].
    + destruct (rs_health_paused _); apply asked_admissible.
    + destruct (rs_health_paused (router_state r)) eqn:Eh; cbn; rewrite Eh; cbn; by split.
  - exists ms, (set_world w' (router_state r)). split_and!; [done|done|apply asked_admissible|]. left. by split.
Qed.

Lemma resume_outcome client now r : query_outcome (QResume client) now r.
Proof.
  unfold query_outcome. cbn [run_query]. unfold resume_after_health, lock, router_now_ms, router_locked. st_unfold.
  destruct (router_poisoned r) eqn:Hp; [by left|]. destruct (client_bound _ _); cbn [negb]; [|by left].
  destruct (client_at_cursor _ _); cbn [negb]; [|by left].
  destruct (timeline_now_ms _ now) as [ms|] eqn:Hm; [|by left]. cbn [map_err]. right.
  rewrite with_registry_eval. pose proof (current_generation_announces ms (world r)) as Hg.
  set (w' := fst (on_registry (current_generation ms) (world r))) in *.
  destruct (snd (on_registry (current_generation ms) (world r))) as [o|e]; cbn [map_err].
  2: { exists ms, (set_world w' (router_state r)). split_and!; [done|done|apply asked_current|]. left. by split. }
  cbn. destruct (rs_health_paused (router_state r)) eqn:Eh.
  2: { eexists ms, _. split_and!; [done|done| |left; split; [reflexivity|]]; [apply asked_current|]. by split. }
  destruct o as [g|].
  - eexists ms, _. split_and!; [done|done| |right; exists g; split; [reflexivity|]]; [apply asked_current|].
    split; try done. by apply Hg.
  - eexists ms, _. split_and!; [done|done| |left; split; [reflexivity|]]; [apply asked_current|]. by split.
Qed.

Lemma allow_outcome client now r : query_outcome (QAllow client) now r.
Proof.
  unfold query_outcome. cbn [run_query]. unfold allow_recovery_only_after_health, lock, router_now_ms, router_locked. st_unfold.
  destruct (router_poisoned r) eqn:Hp; [by left|]. destruct (rs_health_paused (router_state r)) eqn:Eh; cbn [negb orb]; [|by left].
  destruct (_ || _); [by left|]. destruct (timeline_now_ms _ now) as [ms|] eqn:Hm; [|by left]. cbn [map_err]. right.
  rewrite with_registry_eval. destruct (snd _) as [x|e]; cbn [map_err]; eexists ms, _;
    (split_and!; [done|done| |left; split; [reflexivity|]]; [apply asked_recovery|]); by split.
Qed.

(** Evaluate a question that sets no flag. *)
Ltac plain_query Hp Hm :=
  cbn [run_query]; unfold router_current_generation, router_admissible_job_ids, retained_job_ids,
    router_winner_recovery_job_ids, lock, router_now_ms, router_locked; st_unfold; rewrite ?Hp, ?Hm; cbn [map_err];
  try (rewrite with_registry_eval; destruct (snd _); cbn; try destruct (rs_health_paused _)).

Lemma query_cases q now r : query_outcome q now r.
Proof.
  destruct q; [apply pause_outcome|apply resume_outcome|apply allow_outcome|..];
    (destruct (router_poisoned r) eqn:Hp; [left; by plain_query Hp Hp|]);
    (destruct (timeline_now_ms (router_timeline r) now) as [ms|] eqn:Hm; [|left; by plain_query Hp Hm]).
  - eapply asked_outcome; [done|done|apply asked_current|]. by plain_query Hp Hm.
  - eapply asked_outcome; [done|done|apply asked_admissible|]. by plain_query Hp Hm.
  - eapply asked_outcome; [done|done|apply asked_admissible|]. by plain_query Hp Hm.
  - eapply asked_outcome; [done|done|apply asked_recovery|]. by plain_query Hp Hm.
Qed.

(** *** Events *)

Definition update_outcome (ms : Z) (s s' : RouterState) (x : result (option JobUpdate) JobRouterError) : Prop :=
  (rs_world s' = rs_world s \/ router_asked ms (rs_world s) (rs_world s')) /\
  match x with
  | Ok (Some (Activated g clean)) => synchronized (rs_registry s) = true -> activation ms s s' g clean
  | Ok (Some (Retired _)) => flags_kept s s' /\ rs_force_clean_jobs s' = true
  | Ok (Some UpdateSuspended) => False
  | _ => flags_kept s s'
  end.

Lemma flags_refl s : flags_kept s s.
Proof. by split. Qed.

Lemma admissible_eval ms w ids : snd (on_registry (admissible_job_ids ms) w) = Ok ids ->
  fst (on_registry (admissible_job_ids ms) w) = mkWorld (ticked ms (registry w)) (heap w) (next_addr w) /\
  synchronized (registry w) = true /\
  ids = mkAdmissibleJobIds (current (ticked ms (registry w))) (recent (ticked ms (registry w))).
Proof.
  unfold on_registry, admissible_job_ids, st_bind. rewrite advance_clock_eval. destruct (moved_backwards _ ms); [done|].
  st_unfold. change (synchronized (ticked ms (registry w))) with (synchronized (registry w)).
  destruct (synchronized (registry w)) eqn:Es; cbn; [|done]. by intros [= <-].
Qed.

(** The current job after a tick is accepting and keeps its generation. *)
Lemma ticked_current ms r id g : Good r -> generation r id = Some g -> current (ticked ms r) = Some id ->
  exists e, entries (ticked ms r) !! id = Some e /\ re_generation e = g /\ re_state e = Accepting /\ ms < re_accept_until_ms e.
Proof.
  intros [Hi _] Hg Hc. destruct (ticked_spec ms r Hi) as (Hi' & Ht' & Hr').
  assert (id ∈ roles (ticked ms r)) as Hin by (unfold roles; rewrite Hc; set_solver).
  destruct (rv_roles _ (proj2 Hi') id Hin) as (e & Ee & Ha). exists e. split; [done|].
  destruct (entries_evolve_lookup _ _ _ _ (rev_entries _ _ Hr') Ee) as (e0 & E0 & V). split.
  - unfold generation in Hg. rewrite E0 in Hg. injection Hg as <-. unfold re_generation. by rewrite (ev_storage _ _ V).
  - split; [done|]. by apply (Ht' ms id e).
Qed.

Lemma update_for_cases event ms s : Good (rs_registry s) ->
  update_outcome ms s (fst (update_for event ms s)) (snd (update_for event ms s)).
Proof.
  intros Hgood. destruct event as [seq job|seq jid reason accept|seq jid| | | | | | |]; cbn [update_for]; st_unfold;
    try (split; [by left|]; apply flags_refl).
  - destruct (rs_health_paused s) eqn:Eh; [split; [by left|apply flags_refl]|].
    destruct (JobId_new _) as [id|]; cbn [map_err]; [|split; [by left|apply flags_refl]].
    destruct (generation (rs_registry s) id) as [g|] eqn:Eg; cbn [ok_or]; [|split; [by left|apply flags_refl]].
    rewrite with_registry_eval.
    destruct (snd (on_registry (admissible_job_ids ms) (rs_world s))) as [ids|] eqn:Ei; cbn [map_err].
    2: { split; [right; apply asked_admissible|]. apply set_world_kept. }
    pose proof (asked_admissible ms (rs_world s)) as Hask.
    apply admissible_eval in Ei as (Ew & Es & ->). rewrite Ew in Hask |- *. cbn [adm_current adm_recent].
    case_bool_decide as Hc; cbn [negb]; [|split; [by right|apply set_world_kept]].
    split; [by right|]. cbn [snd fst]. intros _. split; try done.
    + split; [done|]. destruct (ticked_current ms _ _ _ Hgood Eg Hc) as (e & ? & ? & ? & ?). by exists id, e.
    + intros Hro. cbn. destruct (rs_recovery_only s); [|done]. by rewrite Hro in Eh.
    + intros Hcl. cbn in Hcl. apply orb_false_iff in Hcl as [Hf Hcl]. split; [done|].
      apply negb_false_iff, existsb_exists in Hcl as (prior & Hin & Hp).
      destruct (generation _ prior) as [gp|] eqn:Ep; [|done]. exists prior, gp. rewrite list_elem_of_In.
      split_and!; [done|done|]. by apply bool_decide_eq_true in Hp.
  - destruct (JobId_new _) as [id|]; cbn [map_err]; [|split; [by left|apply flags_refl]].
    destruct (is_hard reason accept); cbn; (split; [by left|]); [|apply flags_refl]. by split.
  - destruct (JobId_new _) as [id|]; cbn; (split; [by left|]); by split.
Qed.

(** ** The registry's clock under failures *)

(** A computation that does not change an observation of its state. *)
Definition clock_keeps {S E A O} (f : S -> O) (m : M S E A) : Prop := forall s, f (fst (m s)) = f s.

Lemma keeps_bind {S E A B O} (f : S -> O) (m : M S E A) (k : A -> M S E B) :
  clock_keeps f m -> (forall a, clock_keeps f (k a)) -> clock_keeps f (st_bind m k).
Proof.
  intros Hm Hk s. unfold st_bind. specialize (Hm s). destruct (m s) as [s1 [a|e]]; [|exact Hm].
  rewrite (Hk a s1). exact Hm.
Qed.
Lemma keeps_lift {S E A O} (f : S -> O) (x : result A E) : clock_keeps f (st_lift x).
Proof. by intros s. Qed.
Lemma keeps_throw {S E A O} (f : S -> O) (e : E) : clock_keeps f (st_throw (A := A) e).
Proof. by intros s. Qed.
Lemma keeps_ret {S E A O} (f : S -> O) (a : A) : clock_keeps f (st_ret (E := E) a).
Proof. by intros s. Qed.
Lemma keeps_get {S E O} (f : S -> O) : clock_keeps f (st_get (E := E)).
Proof. by intros s. Qed.
Lemma keeps_modify {S E O} (f : S -> O) g : (forall s, f (g s) = f s) -> clock_keeps f (st_modify (E := E) g).
Proof. intros H s. apply H. Qed.

Definition world_clock (w : World) : option Z := last_monotonic_ms (registry w).

Lemma keeps_on_registry {A} (m : M GenerationRegistry JobRegistryError A) :
  clock_keeps last_monotonic_ms m -> clock_keeps world_clock (on_registry m).
Proof. intros H w. unfold on_registry. specialize (H (registry w)). by destruct (m (registry w)). Qed.
Lemma keeps_new g n : clock_keeps world_clock (new_resource g n).
Proof. by intros w. Qed.

Create HintDb clock.
#[local] Hint Resolve keeps_lift keeps_throw keeps_ret keeps_get keeps_new keeps_on_registry : clock.
#[local] Hint Extern 5 (clock_keeps _ (st_modify _)) => apply keeps_modify; intros; try done; by repeat case_match : clock.
#[local] Hint Extern 4 (clock_keeps _ (modify_registry _)) => apply keeps_on_registry : clock.
#[local] Hint Extern 4 (clock_keeps _ get_registry) => apply keeps_on_registry : clock.

(** Bind by bind, branch by branch. *)
Ltac keep_clock := repeat (first [apply keeps_bind; intros | case_match]); auto with clock.

Lemma invalidate_clock id reason accept anchor : clock_keeps last_monotonic_ms (invalidate_job id reason accept anchor).
Proof. unfold invalidate_job. keep_clock. Qed.

Lemma body_clock event anchor : clock_keeps world_clock (apply_event_body event anchor).
Proof.
  destruct event as [seq job|seq jid reason accept|seq jid| | | | | | |]; try done; cbn [apply_event_body].
  - unfold activate. keep_clock. apply keeps_on_registry, keeps_modify. intros r.
    unfold remember_winner_recovery. by case_match.
  - keep_clock. apply keeps_on_registry, invalidate_clock.
  - keep_clock. apply keeps_on_registry, keeps_modify. intros r. unfold close_generation. by case_match.
Qed.

(** The same for the failing runs. *)
Definition keeps_failing {S E A O} (f : S -> O) (m : M S E A) : Prop :=
  forall s e, snd (m s) = Err e -> f (fst (m s)) = f s.

Lemma failing_bind {S E A B O} (f : S -> O) (m : M S E A) (k : A -> M S E B) :
  clock_keeps f m -> (forall a, keeps_failing f (k a)) -> keeps_failing f (st_bind m k).
Proof.
  intros Hm Hk s e. unfold st_bind. specialize (Hm s). destruct (m s) as [s1 [a|e1]]; [|done].
  intros He. rewrite (Hk a s1 e He). exact Hm.
Qed.
Lemma failing_keeps {S E A O} (f : S -> O) (m : M S E A) : clock_keeps f m -> keeps_failing f m.
Proof. intros Hm s e _. apply Hm. Qed.

Lemma event_error_clock event anchor policy w e w' : apply_event_at sha256 event anchor policy w = (w', Err e) ->
  last_monotonic_ms (registry w') = last_monotonic_ms (registry w).
Proof.
  assert (keeps_failing world_clock (try_apply_event sha256 event anchor policy)) as Hf.
  { unfold try_apply_event.
    repeat (first [apply failing_bind; [first [solve [auto with clock]|apply body_clock]|intros] | case_match]);
      try (apply failing_keeps; solve [auto with clock]). by intros s e'. }
  unfold apply_event_at. destruct (try_apply_event sha256 event anchor policy w) as [w1 [[]|e1]] eqn:E; [done|].
  intros [= <- <-]. specialize (Hf w e1). rewrite E in Hf. by apply Hf.
Qed.

Lemma snapshot_error_clock seq cur rec started w w' e gs : SInv (w, gs) ->
  apply_snapshot seq cur rec started w = (w', Err e) ->
  last_monotonic_ms (registry w') = last_monotonic_ms (registry w).
Proof.
  intros [[Hi _] Hh]. unfold apply_snapshot.
  pose proof (prepare_snapshot_spec (registry w) seq cur rec started w (proj1 Hi) (hi_fresh _ _ Hh) eq_refl) as H.
  destruct (prepare_snapshot _ _ _ _ _ w) as [w1 [x|e1]]; [done|]. destruct H as [_ H]. intros [= <- <-]. cbn. by rewrite H.
Qed.

(** ** The invariant *)

Record SysInv (cfg : GenerationRegistryConfig) (a : BackendAuthority) (sys : RouterSys) : Prop := {
  si_world : reachable sha256 cfg (world (sys_router sys), sys_guards sys);
  si_authority : rs_backend_authority (router_state (sys_router sys)) = Some a;
  si_binding : exists b, rs_connection_binding (router_state (sys_router sys)) = Some b /\ cb_authority b = a;
  si_recovery : rs_recovery_only (router_state (sys_router sys)) = true ->
                rs_health_paused (router_state (sys_router sys)) = true;
  si_clock : forall t, last_monotonic_ms (registry (world (sys_router sys))) = Some t ->
               mt_origin (router_timeline (sys_router sys)) + t * 1000000 <= sys_clock sys;
  si_clean : rs_health_paused (router_state (sys_router sys)) = true ->
             rs_force_clean_jobs (router_state (sys_router sys)) = true
}.

Lemma timeline_forward tl clock now ms t : timeline_now_ms tl now = Ok ms -> clock <= now ->
  (forall x, t = Some x -> mt_origin tl + x * 1000000 <= clock) -> moved_backwards t ms = false.
Proof.
  unfold timeline_now_ms, instant_ms. destruct (Z.ltb_spec now (mt_origin tl)); [done|]. destruct (_ <? _); [done|].
  intros [= <-] Hc Ht. destruct t as [x|]; [|done]. cbn. specialize (Ht x eq_refl). apply Z.ltb_ge.
  apply Z.div_le_lower_bound; lia.
Qed.

Lemma timeline_bound tl now ms t x : timeline_now_ms tl now = Ok ms -> moved_backwards t ms = false -> t = Some x ->
  mt_origin tl + x * 1000000 <= now.
Proof.
  unfold timeline_now_ms, instant_ms. destruct (Z.ltb_spec now (mt_origin tl)); [done|]. destruct (_ <? _); [done|].
  intros [= <-] Hm ->. cbn in Hm. apply Z.ltb_ge in Hm.
  pose proof (Z.mul_div_le (now - mt_origin tl) 1000000 ltac:(lia)). lia.
Qed.

Section Preserved.
Context (cfg : GenerationRegistryConfig) (a : BackendAuthority).

(** A section that broadcasts nothing. *)
Lemma quiet_inv r gs clock k n s' gs' clock' k' n' :
  SysInv cfg a (mkRouterSys r gs clock k n) -> reachable sha256 cfg (rs_world s', gs') -> flags_kept (router_state r) s' ->
  (forall t, last_monotonic_ms (registry (rs_world s')) = Some t -> mt_origin (router_timeline r) + t * 1000000 <= clock') ->
  SysInv cfg a (mkRouterSys (set_router_state s' r) gs' clock' k' n').
Proof.
  intros [H1 H2 H3 H4 H5 H6] Hr [F1 F2 F3 F4 F5] Hc. split; cbn in *; auto.
  - congruence.
  - rewrite F2. done.
  - intros Hp. destruct (rs_force_clean_jobs s') eqn:E; auto.
Qed.

(** A broadcast that changes nothing else. *)
Lemma warn_inv r gs clock k n k' n' : SysInv cfg a (mkRouterSys r gs clock k n) ->
  SysInv cfg a (mkRouterSys (broadcast UpdateSuspended r) gs clock k' n').
Proof. by intros []. Qed.

Lemma suspend_inv r gs clock k n n' : SysInv cfg a (mkRouterSys r gs clock k n) ->
  SysInv cfg a (mkRouterSys (suspend_locked r) gs clock k n').
Proof.
  intros [H1 H2 H3 H4 H5 H6]. split; cbn in *; auto; [|done]. eapply rtc_r; [exact H1|]. apply (step_suspend sha256).
Qed.

Lemma router_activate_inv r gs clock k n s' g clean ms clock' :
  SysInv cfg a (mkRouterSys r gs clock k n) ->
  reachable sha256 cfg (rs_world s', gs) -> activation ms (router_state r) s' g clean ->
  (forall t, last_monotonic_ms (registry (rs_world s')) = Some t -> mt_origin (router_timeline r) + t * 1000000 <= clock') ->
  SysInv cfg a (mkRouterSys (broadcast (Activated g clean) (set_router_state s' r)) gs clock' k n).
Proof.
  intros [H1 H2 H3 H4 H5 H6] Hr [A1 A2 A3 A4 A5 A6 A7] Hc. split; cbn in *; auto.
  - congruence.
  - by rewrite A3.
  - rewrite A5 by done. done.
  - by rewrite A4.
Qed.

(** *** The events section *)

Lemma delivered_cases d tl ms s gs : SInv (rs_world s, gs) ->
  let '(s1, x) := with_world RouterIntegration (event_apply_to_registry_at sha256 d tl ms) s in
  exists w1, s1 = set_world w1 s /\ rtc (step sha256) (rs_world s, gs) (w1, gs) /\
  match x with
  | Ok _ => exists anchor, anchor_ms tl (de_anchor d) = Ok anchor /\
      event_applied sha256 (de_event d) anchor ms (rs_registry s) (registry w1) /\ synchronized (registry w1) = true
  | Err _ => last_monotonic_ms (registry w1) = last_monotonic_ms (rs_registry s) /\
      (w1 = rs_world s \/ synchronized (registry w1) = false)
  end.
Proof.
  intros Hs. unfold with_world, event_apply_to_registry_at. unfold st_bind, st_lift.
  destruct (anchor_ms tl (de_anchor d)) as [anchor|e] eqn:Ea; cbn [map_err].
  2: { exists (rs_world s). split_and!; [done|apply rtc_refl|done|by left]. }
  unfold lift_integration. pose proof Hs as [[Hi _] Hh].
  pose proof (apply_event_at_spec sha256 (de_event d) anchor ms (rs_world s) (hi_fresh _ _ Hh) Hi) as H.
  pose proof (event_error_clock (de_event d) anchor ms (rs_world s)) as Hc.
  pose proof (step_event sha256 (de_event d) anchor ms (rs_world s) gs) as Hst.
  destruct (apply_event_at sha256 (de_event d) anchor ms (rs_world s)) as [w1 [u|e]]; cbn [map_err fst] in *;
    exists w1; split_and!; try done; try (by apply rtc_once).
  - destruct H as (_ & _ & _ & Hsy & Hap). by exists anchor.
  - by apply Hc with e.
  - right. by apply H.
Qed.

Lemma apply_section_inv binding d now r r' x gs clock k n :
  SysInv cfg a (mkRouterSys r gs clock k n) -> clock <= now ->
  apply_event_section sha256 binding d now r = (r', x) ->
  SysInv cfg a (mkRouterSys r' gs now k (match x with Ok (Some _) => S n | _ => n end)).
Proof.
  intros Hinv Hnow. pose proof Hinv as [H1 _ _ _ H5 _]. cbn in H1, H5.
  assert (forall n', SysInv cfg a (mkRouterSys r gs now k n')) as Hlater.
  { intros n'. destruct Hinv as [? ? ? ? Hc ?]. split; auto. cbn in *. intros t Ht. specialize (Hc t Ht). lia. }
  unfold apply_event_section, lock_or_suspend. st_unfold. destruct (router_poisoned r) eqn:Hp.
  { intros [= <- <-]. eapply warn_inv, (Hlater n). }
  destruct (_ || _); [by intros [= <- <-]|]. destruct (timeline_now_ms (router_timeline r) now) as [ms|] eqn:Hm.
  2: { intros [= <- <-]. by apply (suspend_inv r gs now k n). }
  pose proof (reachable_SInv _ _ _ H1) as Hsinv. unfold router_locked.
  pose proof (delivered_cases d (router_timeline r) ms (router_state r) gs Hsinv) as Hd.
  destruct (with_world _ _ (router_state r)) as [s1 [u|e]]; destruct Hd as (w1 & -> & Hst & Hd);
    assert (reachable sha256 cfg (w1, gs)) as Hr1 by (by eapply rtc_trans).
  2: { intros [= <- <-]. destruct Hd as [Hc Hd]. eapply (quiet_inv r gs clock k n); [done|exact Hr1|apply set_world_kept|].
       intros t. cbn. rewrite Hc. intros Ht. specialize (H5 t Ht). lia. }
  destruct Hd as (anchor & _ & Hap & Hsy).
  pose proof (reachable_SInv _ _ _ Hr1) as [Hgood _]. cbn [set_router_state router_state].
  pose proof (update_for_cases (de_event d) ms (set_world w1 (router_state r)) Hgood) as Hu.
  destruct (update_for (de_event d) ms (set_world w1 (router_state r))) as [s2 y]. destruct Hu as [Hw Hu]. cbn [fst snd] in Hw, Hu.
  assert (moved_backwards (last_monotonic_ms (registry w1)) ms = false) as Hmb.
  { rewrite (ea_clock _ _ _ _ _ _ Hap). cbn. by rewrite Z.ltb_irrefl. }
  assert (reachable sha256 cfg (rs_world s2, gs) /\ synchronized (rs_registry s2) = true /\
    moved_backwards (last_monotonic_ms (registry (rs_world s2))) ms = false) as (Hr2 & Hs2 & Hm2).
  { destruct Hw as [Ew|Hw]; [unfold rs_registry; by rewrite Ew|].
    split; [eapply rtc_trans; [exact Hr1|by eapply asked_steps]|].
    apply asked_forward in Hw. destruct (Hw Hmb) as (E1 & _ & E2). split; [|exact E2]. unfold rs_registry. by rewrite E1. }
  assert (forall t, last_monotonic_ms (registry (rs_world s2)) = Some t -> mt_origin (router_timeline r) + t * 1000000 <= now) as Hc2
    by (intros t Ht; by eapply timeline_bound).
  assert (forall n', flags_kept (set_world w1 (router_state r)) s2 -> SysInv cfg a (mkRouterSys (set_router_state s2 r) gs now k n')) as Hquiet.
  { intros n' Hk. eapply (quiet_inv r gs clock k n); [done|exact Hr2| |exact Hc2].
    etrans; [apply set_world_kept|exact Hk]. }
  destruct y as [[[g clean|id|]|]|e]; intros [= <- <-]; try (by apply Hquiet).
  - eapply (router_activate_inv r gs clock k n s2 g clean ms now); [done|exact Hr2| |exact Hc2].
    destruct (Hu Hsy) as [A1 A2 A3 A4 A5 A6 A7]. by split.
  - destruct Hu as [Hk Hf]. pose proof (Hquiet n Hk) as [I1 I2 I3 I4 I5 I6]. by split.
  - done.
Qed.

(** *** Recovery *)

Lemma anchor_bound tl anchor ms : anchor_ms tl anchor = Ok ms -> mt_origin tl + ms * 1000000 <= anchor.
Proof.
  unfold anchor_ms, instant_ms. destruct (Z.ltb_spec anchor (mt_origin tl)); [done|]. destruct (_ <? _); [done|].
  intros [= <-]. pose proof (Z.mul_div_le (anchor - mt_origin tl) 1000000 ltac:(lia)). lia.
Qed.

Lemma snapshot_cases snapshot tl w gs clock : SInv (w, gs) -> js_anchor snapshot <= clock ->
  (forall t, last_monotonic_ms (registry w) = Some t -> mt_origin tl + t * 1000000 <= clock) ->
  let '(w', x) := snapshot_apply_to_registry snapshot tl w in
  rtc (step sha256) (w, gs) (w', gs) /\
  (forall t, last_monotonic_ms (registry w') = Some t -> mt_origin tl + t * 1000000 <= clock) /\
  match x with
  | Ok _ => synchronized (registry w') = true /\ last_event_seq (registry w') = Some (js_event_seq snapshot)
  | Err _ => w' = w \/ synchronized (registry w') = false
  end.
Proof.
  intros Hs Ha Hc. unfold snapshot_apply_to_registry, st_bind, st_lift.
  destruct (anchor_ms tl (js_anchor snapshot)) as [anchor|e] eqn:Ea; cbn [map_err].
  2: { split_and!; [apply rtc_refl|done|by left]. }
  unfold lift_integration. pose proof Hs as [[Hi _] Hh]. apply anchor_bound in Ea.
  pose proof (apply_snapshot_spec (js_event_seq snapshot) (js_current snapshot) (js_recent snapshot) anchor w (hi_fresh _ _ Hh) Hi) as H.
  pose proof (fun w' e => snapshot_error_clock (js_event_seq snapshot) (js_current snapshot) (js_recent snapshot) anchor w w' e gs Hs) as He.
  pose proof (step_snapshot sha256 (js_event_seq snapshot) (js_current snapshot) (js_recent snapshot) anchor w gs) as Hst.
  destruct (apply_snapshot _ _ _ _ w) as [w' [u|e]]; cbn [map_err fst] in *; (split; [by apply rtc_once|]).
  - destruct H as (_ & _ & _ & Hsy & Hap). split; [|split; [done|apply Hap]]. intros t. rewrite (sa_clock _ _ _ _ _ Hap).
    intros [= <-]. unfold observed_max. destruct (last_monotonic_ms (registry w)) as [p|]; [|lia]. specialize (Hc p eq_refl). lia.
  - split; [intros t; rewrite (He w' e eq_refl); apply Hc|]. right. by apply H.
Qed.

Lemma recover_inv snapshot r r' x gs clock k k' n : SysInv cfg a (mkRouterSys r gs clock k n) -> js_anchor snapshot <= clock ->
  recover_snapshot_section snapshot r = (r', x) -> SysInv cfg a (mkRouterSys r' gs clock k' n).
Proof.
  intros Hinv Hanchor. pose proof Hinv as [H1 H2 H3 H4 H5 H6]. cbn in H1, H2, H3, H4, H5, H6.
  unfold recover_snapshot_section, recover_section, lock_or_suspend. st_unfold.
  destruct (router_poisoned r) eqn:Hp; [intros [= <- <-]; by eapply warn_inv|]. destruct (sync r) eqn:Hs; [intros [= <- <-]; by split|].
  case_bool_decide as Ha; cbn [negb]; [|intros [= <- <-]; by eapply warn_inv]. unfold with_world. cbn [rs_world set_recovery_only set_force_clean_jobs].
  pose proof (snapshot_cases snapshot (router_timeline r) (world r) gs clock (reachable_SInv _ _ _ H1) Hanchor H5) as Hc.
  destruct (snapshot_apply_to_registry snapshot (router_timeline r) (world r)) as [w' [u|e]]; destruct Hc as (Hst & Hck & Hc);
    assert (reachable sha256 cfg (w', gs)) as Hr' by (by eapply rtc_trans); cbn [map_err]; intros [= <- <-].
  - split; cbn; auto; [congruence|]. eexists. split; [done|]. rewrite H2 in Ha. by injection Ha.
  - split; cbn; auto; [|done]. eapply rtc_r; [exact Hr'|]. apply (step_suspend sha256).
Qed.

(** *** The other sections *)

Lemma asked_inv ms r s' gs clock now k n : SysInv cfg a (mkRouterSys r gs clock k n) -> clock <= now ->
  timeline_now_ms (router_timeline r) now = Ok ms -> router_asked ms (world r) (rs_world s') ->
  reachable sha256 cfg (rs_world s', gs) /\ synchronized (rs_registry s') = sync r /\
  (forall t, last_monotonic_ms (registry (rs_world s')) = Some t -> mt_origin (router_timeline r) + t * 1000000 <= now).
Proof.
  intros [H1 _ _ _ H5 _] Hnow Hm Ha. cbn in H1, H5. pose proof (timeline_forward _ clock _ _ _ Hm Hnow H5) as Hb.
  destruct (asked_forward _ _ _ Ha Hb) as (E1 & _ & E2). split_and!; [|exact E1|].
  - eapply rtc_trans; [exact H1|]. by eapply asked_steps.
  - intros t Ht. by eapply timeline_bound.
Qed.

Lemma later_inv r gs clock now k n : SysInv cfg a (mkRouterSys r gs clock k n) -> clock <= now -> SysInv cfg a (mkRouterSys r gs now k n).
Proof. intros [? ? ? ? Hc ?] Hn. split; auto. cbn in *. intros t Ht. specialize (Hc t Ht). lia. Qed.

Lemma query_inv q r gs clock now k n : SysInv cfg a (mkRouterSys r gs clock k n) -> clock <= now ->
  SysInv cfg a (mkRouterSys (run_query q now r) gs now k n).
Proof.
  intros Hinv Hnow. destruct (query_cases q now r) as [->|(ms & s' & Hp & Hm & Ha & Hq)]; [by eapply later_inv|].
  destruct (asked_inv ms r s' gs clock now k n Hinv Hnow Hm Ha) as (Hr & Hs & Hc).
  destruct Hq as [[-> Hk]|(g & -> & Hact)].
  - by eapply quiet_inv.
  - by eapply router_activate_inv.
Qed.

(** A section that only moves the registry and the guards. *)
Lemma world_inv r gs clock now k n w' gs' : SysInv cfg a (mkRouterSys r gs clock k n) ->
  clock <= now -> rtc (step sha256) (world r, gs) (w', gs') ->
  (registry w' = registry (world r) \/ exists ms, timeline_now_ms (router_timeline r) now = Ok ms /\ forward ms (world r) w') ->
  SysInv cfg a (mkRouterSys (set_router_state (set_world w' (router_state r)) r) gs' now k n).
Proof.
  intros Hinv Hnow Hst Hor. pose proof Hinv as [H1 _ _ _ H5 _]. cbn in H1, H5.
  eapply quiet_inv; [done|by eapply rtc_trans|apply set_world_kept|]; unfold rs_registry; cbn.
  destruct Hor as [->|(ms & Hm & Hf)]; intros t Ht; [specialize (H5 t Ht); lia|].
  eapply timeline_bound; [done| |exact Ht]. apply Hf. by eapply timeline_forward.
Qed.

(** The effect of such a section. *)
Definition world_moved (now : Z) (r r' : JobRouter) (gs gs' : list GenerationAdmission) : Prop :=
  exists w', r' = set_router_state (set_world w' (router_state r)) r /\ rtc (step sha256) (world r, gs) (w', gs') /\
    (registry w' = registry (world r) \/ exists ms, timeline_now_ms (router_timeline r) now = Ok ms /\ forward ms (world r) w').

Lemma unmoved now r gs : world_moved now r r gs gs.
Proof. exists (world r). split_and!; [by destruct r as [[] ? ? ?]|apply rtc_refl|by left]. Qed.

Lemma moved_inv now r r' gs gs' clock k n : SysInv cfg a (mkRouterSys r gs clock k n) -> clock <= now ->
  world_moved now r r' gs gs' -> SysInv cfg a (mkRouterSys r' gs' now k n).
Proof. intros Hinv Hnow (w' & -> & Hst & Hor). by eapply world_inv. Qed.

Lemma moved_sync now r r' gs gs' clock k n : SysInv cfg a (mkRouterSys r gs clock k n) -> clock <= now ->
  world_moved now r r' gs gs' -> sync r' = sync r /\ router_updates r' = router_updates r.
Proof.
  intros [_ _ _ _ H5 _] Hnow (w' & -> & _ & Hor). split; [|done]. unfold rs_registry. cbn in H5 |- *.
  destruct Hor as [->|(ms & Hm & Hf)]; [done|]. by destruct (Hf (timeline_forward _ clock _ _ _ Hm Hnow H5)) as (-> & _).
Qed.

Lemma prepare_moved session login job time suffix solution now r r' x gs :
  router_prepare_submission sha256 session login job time suffix solution now r = (r', x) ->
  world_moved now r r' gs (match x with Ok ctx => sc_admission ctx :: gs | Err _ => gs end).
Proof.
  unfold router_prepare_submission, lock, router_now_ms, router_locked. st_unfold.
  destruct (router_poisoned r) eqn:Hp; [intros [= <- <-]; apply unmoved|].
  destruct (timeline_now_ms (router_timeline r) now) as [ms|] eqn:Hm; [|intros [= <- <-]; apply unmoved]. cbn [map_err].
  destruct (rs_health_paused (router_state r)) eqn:Hh.
  - rewrite with_registry_eval. set (w1 := fst (on_registry (admissible_job_ids ms) (world r))).
    assert (rtc (step sha256) (world r, gs) (w1, gs)) as Hst by (apply rtc_once, step_admissible).
    pose proof (admissible_forward ms (world r)) as Hf. fold w1 in Hf.
    destruct (snd _) as [ids|e]; cbn [map_err]; [|intros [= <- <-]; exists w1; split_and!; eauto].
    destruct (rs_recovery_only (router_state r)); [|intros [= <- <-]; exists w1; split_and!; eauto].
    unfold with_world. cbn [rs_world set_world router_state set_router_state].
    pose proof (prepare_guarded sha256 session login job time suffix solution ms true w1 gs) as Hg.
    pose proof (prepare_forward session login job time suffix solution ms true w1) as Hf2.
    unfold prepare_paused_zcash_candidate. destruct (prepare_submission_mode _ _ _ _ _ _ _ _ _ w1) as [w2 [ctx|e]];
      cbn [map_err]; intros [= <- <-]; (exists w2; split_and!; [done|by eapply rtc_trans|right; exists ms; split; [done|by etrans]]).
  - unfold with_world. pose proof (prepare_guarded sha256 session login job time suffix solution ms false (world r) gs) as Hg.
    pose proof (prepare_forward session login job time suffix solution ms false (world r)) as Hf2.
    unfold prepare_submission. destruct (prepare_submission_mode _ _ _ _ _ _ _ _ _ (world r)) as [w2 [ctx|e]];
      cbn [map_err]; intros [= <- <-]; (exists w2; split_and!; [done|exact Hg|right; eauto]).
Qed.

(** [refilter_guarded] when the consumed guard is anywhere among the live ones. *)
Lemma refilter_steps ctx now only w gs gs' : gs ≡ₚ sc_admission ctx :: gs' ->
  let outcome := refilter_zcash_candidate sha256 ctx now only w in
  rtc (step sha256) (w, gs) (fst outcome, match snd outcome with Ok ctx' => sc_admission ctx' :: gs' | Err _ => gs' end).
Proof.
  intros Hgs. cbv zeta. unfold refilter_zcash_candidate. set (m := if (_ || _)%bool then _ else _).
  assert (guarded sha256 (fun g => g) w gs (lift_registry m w)) as H.
  { unfold m. destruct (_ || _)%bool; [|destruct only]; by apply candidate_guarded. }
  clearbody m. destruct (lift_registry m w) as [w' [g|e]]; cbn in H.
  - destruct (negb _); cbn.
    + eapply rtc_r; [eapply rtc_r; [exact H|]|by apply step_drop]. by apply (step_drop _ g _ gs).
    + eapply rtc_r; [exact H|]. apply step_drop. etrans; [by apply Permutation_skip|apply Permutation_swap].
  - eapply rtc_r; [exact H|]. cbn. by apply step_drop.
Qed.

Lemma refilter_moved ctx client now r r' x gs gs' : gs ≡ₚ sc_admission ctx :: gs' ->
  prepare_queued_paused_candidate sha256 ctx client now r = (r', x) ->
  world_moved now r r' gs (match x with Ok ctx' => sc_admission ctx' :: gs' | Err _ => gs' end).
Proof.
  intros Hgs. unfold prepare_queued_paused_candidate, router_locked.
  assert (forall e : JobRouterError, (set_router_state (set_world (drop_admission (sc_admission ctx) (world r)) (router_state r)) r,
      Err (A := SubmissionContext) e) = (r', x) ->
    world_moved now r r' gs (match x with Ok ctx' => sc_admission ctx' :: gs' | Err _ => gs' end)) as Hrefuse.
  { intros e [= <- <-]. eexists. split_and!; [done|apply rtc_once; by apply step_drop|]. by left. }
  destruct (router_poisoned r); [apply Hrefuse|]. destruct (_ && _); [apply Hrefuse|]. destruct (_ || _); [apply Hrefuse|].
  destruct (timeline_now_ms (router_timeline r) now) as [ms|] eqn:Hm; [|apply Hrefuse].
  set (only := _ && _). unfold with_world.
  pose proof (refilter_steps ctx ms only (world r) gs gs' Hgs) as Hg. pose proof (refilter_forward ctx ms only (world r)) as Hf.
  cbv zeta in Hg. destruct (refilter_zcash_candidate sha256 ctx ms only (world r)) as [w2 [ctx'|e]]; cbn [map_err];
    intros [= <- <-]; (exists w2; split_and!; [done|exact Hg|right; eauto]).
Qed.

Lemma drop_moved g now r gs gs' : gs ≡ₚ g :: gs' ->
  world_moved now r (set_router_state (set_world (drop_admission g (world r)) (router_state r)) r) gs gs'.
Proof. intros Hgs. eexists. split_and!; [done|apply rtc_once; by apply step_drop|]. by left. Qed.

Lemma step_inv sys sys' : router_step sys sys' -> SysInv cfg a sys -> SysInv cfg a sys'.
Proof.
  intros Hstep Hinv. inversion Hstep; subst; clear Hstep.
  - by eapply apply_section_inv.
  - unfold router_suspend, lock_or_suspend. st_unfold. destruct (router_poisoned r) eqn:Hp; cbn.
    + by eapply warn_inv.
    + by eapply suspend_inv.
  - unfold router_suspend, lock_or_suspend. st_unfold. destruct (router_poisoned r) eqn:Hp; cbn.
    + by eapply warn_inv.
    + by eapply suspend_inv.
  - unfold suspend_if_bound, lock_or_suspend. st_unfold. destruct (router_poisoned r) eqn:Hp; cbn.
    + by eapply warn_inv.
    + destruct (negb _); [done|]. by eapply suspend_inv.
  - by eapply recover_inv.
  - by eapply warn_inv.
  - by eapply query_inv.
  - eapply moved_inv; [done|done|]. by eapply prepare_moved.
  - eapply moved_inv; [done|done|]. by eapply refilter_moved.
  - eapply (moved_inv clock); [done|done|]. by apply drop_moved.
  - destruct Hinv. by split.
Qed.
End Preserved.

(** A router as it is created, at a clock past its snapshot. *)
Definition router_started (cfg : GenerationRegistryConfig) (snapshot : JobSnapshot) (sys : RouterSys) : Prop :=
  exists timeline capacity, from_snapshot snapshot cfg timeline capacity = Ok (sys_router sys) /\
    js_anchor snapshot <= sys_clock sys /\ sys_guards sys = [] /\ sys_sends sys = 0%nat /\ sys_failed sys = 0%nat.

Lemma started_inv cfg snapshot sys : router_started cfg snapshot sys -> SysInv cfg (js_authority snapshot) sys.
Proof.
  destruct sys as [r gs clock k n]. intros (tl & capacity & Hr & Hc & Hgs & _). cbn in Hr, Hc, Hgs. subst gs. revert Hr.
  unfold from_snapshot. destruct (validate_event_capacity capacity); [|done].
  pose proof (snapshot_cases snapshot tl (World_new cfg) [] clock (initial_SInv cfg) Hc ltac:(done)) as H.
  destruct (snapshot_apply_to_registry _ _ _) as [w [u|e]]; [|done]. destruct H as (Hst & Hck & Hsy & _). intros [= <-].
  split; cbn; auto; try done. by eexists.
Qed.

Lemma history_inv cfg snapshot sys sys' : router_started cfg snapshot sys -> rtc router_step sys sys' ->
  SysInv cfg (js_authority snapshot) sys'.
Proof.
  intros Hs Hr. apply started_inv in Hs. induction Hr as [|s1 s2 s3 H1 _ IH]; [done|]. apply IH. by eapply step_inv.
Qed.

(** ** What a section says to the subscribers *)

(** An announced activation: the registry's current generation, clean unless work on the same tips is
    still acceptable and nothing was retired since the last one. *)
Definition says_activation (sys sys' : RouterSys) (g : BackendGeneration) (clean : bool) : Prop :=
  exists ms, announces ms (router_state (sys_router sys')) g /\
    rs_health_paused (router_state (sys_router sys')) = false /\
    (clean = false -> sync (sys_router sys) = true /\ rs_force_clean_jobs (router_state (sys_router sys)) = false /\
       exists prior_id prior, prior_id ∈ recent (rs_registry (router_state (sys_router sys'))) /\
         generation (rs_registry (router_state (sys_router sys'))) prior_id = Some prior /\ bg_tips prior = bg_tips g).

#[local] Abbreviation forced sys := (rs_force_clean_jobs (router_state (sys_router sys))).

(** A section after which the next activation need not be clean found it so, in a synchronised router. *)
Definition leaves_forced (sys sys' : RouterSys) : Prop :=
  sync (sys_router sys') = true -> forced sys' = false -> sync (sys_router sys) = true /\ forced sys = false.

Record says (sys sys' : RouterSys) (l : list JobUpdate) : Prop := {
  sy_log : router_updates (sys_router sys') = router_updates (sys_router sys) ++ l;
  sy_one : (length l <= 1)%nat;
  sy_activation : forall g clean, Activated g clean ∈ l -> says_activation sys sys' g clean;
  sy_suspended : sync (sys_router sys) = true -> sync (sys_router sys') = false ->
    UpdateSuspended ∈ l \/ sys_failed sys' = S (sys_failed sys);
  sy_failed : (sys_failed sys <= sys_failed sys')%nat \/ UpdateSuspended ∈ l;
  sy_forced : (forall g clean, Activated g clean ∉ l) -> leaves_forced sys sys';
  sy_retired : forall id, Retired id ∈ l -> forced sys' = true;
  sy_late : UpdateSuspended ∈ l -> sync (sys_router sys') = true ->
    router_poisoned (sys_router sys) = true \/ sys_sends sys = S (sys_sends sys');
  sy_poison : router_poisoned (sys_router sys') = false -> router_poisoned (sys_router sys) = false;
  sy_usable : forall g clean, Activated g clean ∈ l -> router_poisoned (sys_router sys) = false
}.

Lemma says_nothing sys sys' : router_updates (sys_router sys') = router_updates (sys_router sys) ->
  (sync (sys_router sys) = true -> sync (sys_router sys') = true \/ sys_failed sys' = S (sys_failed sys)) ->
  (sys_failed sys <= sys_failed sys')%nat -> leaves_forced sys sys' ->
  (router_poisoned (sys_router sys') = false -> router_poisoned (sys_router sys) = false) -> says sys sys' [].
Proof.
  intros H1 H2 H3 H4 H5. split; try done; try (intros; by match goal with H : _ ∈ [] |- _ => apply elem_of_nil in H end).
  - by rewrite app_nil_r.
  - cbn; lia.
  - intros Hs Hs'. destruct (H2 Hs); [congruence|by right].
  - by left.
Qed.

Lemma says_suspended sys sys' : router_updates (sys_router sys') = router_updates (sys_router sys) ++ [UpdateSuspended] ->
  leaves_forced sys sys' ->
  (sync (sys_router sys') = true -> router_poisoned (sys_router sys) = true \/ sys_sends sys = S (sys_sends sys')) ->
  router_poisoned (sys_router sys') = router_poisoned (sys_router sys) -> says sys sys' [UpdateSuspended].
Proof.
  intros H H' Hl Hp. split; try done; try (intros; first [by left; left|right; by left|by match goal with H : _ ∈ [_] |- _ => apply list_elem_of_singleton in H end]).
  by rewrite Hp.
Qed.

Lemma says_one sys sys' u : router_updates (sys_router sys') = router_updates (sys_router sys) ++ [u] ->
  (sync (sys_router sys) = true -> sync (sys_router sys') = true) -> sys_failed sys' = sys_failed sys ->
  match u with
  | Activated g clean => says_activation sys sys' g clean
  | Retired _ => forced sys' = true
  | UpdateSuspended => False
  end -> router_poisoned (sys_router sys) = false -> says sys sys' [u].
Proof.
  intros H1 H2 H3 H4 Hp. split; try done.
  - intros g c Hin%list_elem_of_singleton. by subst u.
  - intros Hs Hs'. rewrite (H2 Hs) in Hs'. done.
  - left. lia.
  - intros Hn _ Hf. destruct u as [g c|id|]; [destruct (Hn g c); by left|congruence|done].
  - intros id Hin%list_elem_of_singleton. by subst u.
  - intros Hin%list_elem_of_singleton. by subst u.
Qed.

Ltac say_suspended :=
  eexists; apply says_suspended; cbn; first [done | by intros; left | by intros; right | congruence].

Lemma kept_forced r gs clock k n s' gs' clock' k' n' : flags_kept (router_state r) s' -> (synchronized (rs_registry s') = true -> sync r = true) ->
  leaves_forced (mkRouterSys r gs clock k n) (mkRouterSys (set_router_state s' r) gs' clock' k' n').
Proof.
  intros [_ _ _ F _] Hs Hs' Hf. split; [by apply Hs|]. cbn in *. destruct (rs_force_clean_jobs (router_state r)); [|done]. by rewrite F in Hf.
Qed.

Lemma apply_section_says cfg a binding d now r r' x gs clock k n :
  SysInv cfg a (mkRouterSys r gs clock k n) -> apply_event_section sha256 binding d now r = (r', x) ->
  exists l, says (mkRouterSys r gs clock k n) (mkRouterSys r' gs now k (match x with Ok (Some _) => S n | _ => n end)) l.
Proof.
  intros Hinv. pose proof Hinv as [H1 _ _ _ _ _]. cbn in H1.
  unfold apply_event_section, lock_or_suspend. st_unfold. destruct (router_poisoned r) eqn:Hp.
  { intros [= <- <-]. say_suspended. }
  destruct (_ || _). { intros [= <- <-]. exists []. by apply says_nothing; cbn; auto. }
  destruct (timeline_now_ms (router_timeline r) now) as [ms|] eqn:Hm.
  2: { intros [= <- <-]. say_suspended. }
  pose proof (reachable_SInv _ _ _ H1) as Hsinv. unfold router_locked.
  pose proof (delivered_cases d (router_timeline r) ms (router_state r) gs Hsinv) as Hd.
  destruct (with_world _ _ (router_state r)) as [s1 [u|e]]; destruct Hd as (w1 & -> & Hst & Hd).
  2: { intros [= <- <-]. exists []. apply says_nothing; cbn; auto. apply kept_forced; [apply set_world_kept|].
       unfold rs_registry. cbn. destruct Hd as [_ [->|Hd]]; [done|congruence]. }
  destruct Hd as (anchor & _ & Hap & Hsy). cbn [set_router_state router_state].
  assert (reachable sha256 cfg (w1, gs)) as Hr1 by (by eapply rtc_trans). pose proof (reachable_SInv _ _ _ Hr1) as [Hgood _].
  pose proof (update_for_cases (de_event d) ms (set_world w1 (router_state r)) Hgood) as Hu.
  destruct (update_for (de_event d) ms (set_world w1 (router_state r))) as [s2 y]. destruct Hu as [Hw Hu]. cbn [fst snd] in Hw, Hu.
  assert (synchronized (rs_registry s2) = true) as Hs2.
  { unfold rs_registry. destruct Hw as [->|Hw]; [done|]. apply asked_forward in Hw.
    destruct Hw as (-> & _); [|done]. cbn. rewrite (ea_clock _ _ _ _ _ _ Hap). cbn. by rewrite Z.ltb_irrefl. }
  assert (forall n', flags_kept (set_world w1 (router_state r)) s2 ->
    leaves_forced (mkRouterSys r gs clock k n) (mkRouterSys (set_router_state s2 r) gs now k n')) as Hq.
  { intros n' Hk. apply kept_forced; [|intros _; apply (ea_sync _ _ _ _ _ _ Hap)]. etrans; [apply set_world_kept|exact Hk]. }
  destruct y as [[[g clean|id|]|]|e]; intros [= <- <-].
  - eexists. apply says_one; [done|done|done| |done]. destruct (Hu Hsy) as [A1 A2 A3 A4 A5 A6 A7].
    exists ms. split; [done|]. split; [done|]. intros Hcl. split; [apply (ea_sync _ _ _ _ _ _ Hap)|by apply A6].
  - eexists. apply says_one; [done|done|done|apply Hu|done].
  - done.
  - exists []. apply says_nothing; cbn; auto.
  - exists []. apply says_nothing; cbn; auto.
Qed.

Lemma recover_says snapshot r r' x gs clock k n : recover_snapshot_section snapshot r = (r', x) ->
  exists l, says (mkRouterSys r gs clock k n) (mkRouterSys r' gs clock (match x with Ok (Some _) => S k | _ => k end) n) l.
Proof.
  unfold recover_snapshot_section, recover_section, lock_or_suspend. st_unfold.
  destruct (router_poisoned r) eqn:Hp; [intros [= <- <-]; say_suspended|].
  destruct (sync r) eqn:Hs; [intros [= <- <-]; exists []; by apply says_nothing; cbn; auto|].
  destruct (negb _); [intros [= <- <-]; say_suspended|]. unfold with_world.
  destruct (snapshot_apply_to_registry _ _ _) as [w' [u|e]]; cbn [map_err]; intros [= <- <-]; exists [];
    (apply says_nothing; cbn; [done|congruence|lia|done|done]).
Qed.

Lemma moved_says cfg a now r r' gs gs' clock k n : SysInv cfg a (mkRouterSys r gs clock k n) -> clock <= now ->
  world_moved now r r' gs gs' -> exists l, says (mkRouterSys r gs clock k n) (mkRouterSys r' gs' now k n) l.
Proof.
  intros Hinv Hnow Hmv. destruct (moved_sync cfg a now _ _ _ _ _ _ _ Hinv Hnow Hmv) as [E1 E2]. destruct Hmv as (w' & -> & _).
  exists []. apply says_nothing; cbn; [done|rewrite <- E1; auto|lia| |done]. apply kept_forced; [apply set_world_kept|]. intros H. rewrite <- E1. exact H.
Qed.

Lemma step_says cfg a sys sys' : SysInv cfg a sys -> router_step sys sys' -> exists l, says sys sys' l.
Proof.
  intros Hinv Hstep. pose proof (step_inv cfg a sys sys' Hstep Hinv) as Hinv'. inversion Hstep; subst.
  - by eapply apply_section_says.
  - unfold router_suspend, lock_or_suspend. st_unfold. destruct (router_poisoned r) eqn:Hp; say_suspended.
  - unfold router_suspend, lock_or_suspend. st_unfold. destruct (router_poisoned r) eqn:Hp; say_suspended.
  - unfold suspend_if_bound, lock_or_suspend. st_unfold. destruct (router_poisoned r) eqn:Hp; [say_suspended|].
    destruct (negb _); [|say_suspended]. exists []. by apply says_nothing; cbn; auto.
  - by eapply recover_says.
  - say_suspended.
  - destruct (query_cases q now r) as [->|(ms & s' & Hp & Hm & Ha & Hq)]; [exists []; by apply says_nothing; cbn; auto|].
    destruct (asked_inv cfg a ms r s' gs clock now k n Hinv ltac:(done) Hm Ha) as (_ & Hs & _).
    destruct Hq as [[-> Hk]|(g & -> & Hact)].
    + exists []. apply says_nothing; cbn; [done|rewrite Hs; auto|lia| |done]. apply kept_forced; [done|]. by rewrite Hs.
    + eexists. apply says_one; [done|cbn; congruence|done| |done]. exists ms. by destruct Hact; split_and!.
  - eapply moved_says; [done|done|]. by eapply prepare_moved.
  - eapply moved_says; [done|done|]. by eapply refilter_moved.
  - eapply (moved_says _ _ clock); [done|done|]. by apply drop_moved.
  - exists []. by apply says_nothing; cbn; auto.
Qed.




(** The updates a subscriber takes off the channel, up to its first failure. *)
Fixpoint drain_updates (ring : nat) (updates : list JobUpdate) (fuel : nat) (sub : JobSubscription)
    : list (result JobUpdate JobRouterError) :=
  match fuel with
  | O => []
  | S fuel' =>
      match receive ring updates sub with
      | (_, None) => []
      | (_, Some (Err e)) => [Err e]
      | (sub, Some (Ok u)) => Ok u :: drain_updates ring updates fuel' sub
      end
  end.

Lemma drain_reaches ring updates fuel pos u : u ∈ drop pos updates -> (length updates < fuel + pos)%nat ->
  Ok u ∈ drain_updates ring updates fuel (mkJobSubscription pos false) \/
  exists e, Err e ∈ drain_updates ring updates fuel (mkJobSubscription pos false).
Proof.
  revert pos. induction fuel as [|fuel IH]; intros pos Hin Hf.
  { rewrite drop_ge in Hin by lia. by apply elem_of_nil in Hin. }
  cbn [drain_updates]. unfold receive. cbn [sub_suspension_pending sub_position].
  destruct (Nat.ltb_spec pos (length updates - ring)); [right; eexists; by left|].
  destruct (updates !! pos) as [v|] eqn:Ev.
  - rewrite (drop_S _ v) in Hin by done. apply elem_of_cons in Hin as [->|Hin]; [left; by left|].
    destruct (IH (S pos) Hin) as [H'|[e H']]; [lia|left; by right|right; exists e; by right].
  - rewrite drop_ge in Hin by (by apply lookup_ge_None). by apply elem_of_nil in Hin.
Qed.

(** What a subscriber created now will be told. *)
Definition warned (sub : JobSubscription) (sys : RouterSys) : Prop :=
  sub_suspension_pending sub = true \/ UpdateSuspended ∈ drop (sub_position sub) (router_updates (sys_router sys)) \/
  (0 < sys_failed sys)%nat.

Lemma warned_step cfg a sub sys sys' : SysInv cfg a sys -> router_step sys sys' ->
  (sub_position sub <= length (router_updates (sys_router sys)))%nat -> warned sub sys ->
  (sub_position sub <= length (router_updates (sys_router sys')))%nat /\ warned sub sys'.
Proof.
  intros Hinv Hstep Hpos Hw. destruct (step_says cfg a sys sys' Hinv Hstep) as (l & [Hl _ _ _ Hf _ _ _ _ _]).
  split; [rewrite Hl, length_app; lia|]. unfold warned. rewrite Hl, drop_app_le by done.
  destruct Hw as [Hw|[Hw|Hw]]; [by left|right; left; rewrite elem_of_app; by left|].
  destruct Hf as [Hf|Hf]; [right; right; lia|right; left; rewrite elem_of_app; by right].
Qed.

Lemma log_grows cfg a sys sys' : SysInv cfg a sys -> rtc router_step sys sys' ->
  (length (router_updates (sys_router sys)) <= length (router_updates (sys_router sys')))%nat.
Proof.
  intros Hinv Hr. revert Hinv. induction Hr as [|s1 s2 s3 H1 _ IH]; [done|]. intros Hinv.
  destruct (step_says cfg a s1 s2 Hinv H1) as (l & [Hl _ _ _ _ _ _ _ _ _]). specialize (IH (step_inv _ _ _ _ H1 Hinv)).
  rewrite Hl, length_app in IH. lia.
Qed.

Lemma desynchronised_step cfg a sub sys sys' : SysInv cfg a sys -> router_step sys sys' ->
  (sub_position sub <= length (router_updates (sys_router sys)))%nat ->
  (sync (sys_router sys) = false -> warned sub sys) -> sync (sys_router sys') = false -> warned sub sys'.
Proof.
  intros Hinv Hstep Hpos Hw Hs'. destruct (sync (sys_router sys)) eqn:Hs.
  - destruct (step_says cfg a sys sys' Hinv Hstep) as (l & [Hl _ _ Hsu _ _ _ _ _ _]). unfold warned. rewrite Hl, drop_app_le by done.
    destruct (Hsu Hs Hs') as [H|H]; [right; left; rewrite elem_of_app; by right|right; right; lia].
  - by eapply warned_step; [..|apply Hw].
Qed.

Lemma warned_steps cfg a sub sys sys' : SysInv cfg a sys -> rtc router_step sys sys' ->
  (sub_position sub <= length (router_updates (sys_router sys)))%nat -> warned sub sys -> warned sub sys'.
Proof.
  intros Hinv Hr. revert Hinv. induction Hr as [|s1 s2 s3 H1 _ IH]; [done|]. intros Hinv Hpos Hw.
  destruct (warned_step cfg a sub s1 s2 Hinv H1 Hpos Hw) as [Hp' Hw']. apply IH; [by eapply step_inv|done|done].
Qed.

Lemma desynchronised_steps cfg a sub sys sys' : SysInv cfg a sys -> rtc router_step sys sys' ->
  (sub_position sub <= length (router_updates (sys_router sys)))%nat ->
  (sync (sys_router sys) = false -> warned sub sys) ->
  SysInv cfg a sys' /\ (sub_position sub <= length (router_updates (sys_router sys')))%nat /\
  (sync (sys_router sys') = false -> warned sub sys').
Proof.
  intros Hinv Hr. revert Hinv. induction Hr as [|s1 s2 s3 H1 _ IH]; [done|]. intros Hinv Hpos Hw.
  apply IH; [by eapply step_inv| |intros Hs; by eapply desynchronised_step].
  destruct (step_says cfg a s1 s2 Hinv H1) as (l & [Hl _ _ _ _ _ _ _ _ _]). rewrite Hl, length_app. lia.
Qed.
End Sha.

(** The guard of a submission prepared during a pause. *)
Lemma prepared_paused sha256 session login job time suffix solution ms w w' ctx gs : SInv (w, gs) ->
  prepare_paused_zcash_candidate sha256 session login job time suffix solution ms w = (w', Ok ctx) ->
  ga_role (sc_admission ctx) = PausedZcashCandidate /\
  zcash_winner sha256 (ga_generation (sc_admission ctx)) (sc_nonce ctx) (sc_solution ctx) = true.
Proof.
  intros Hs. unfold prepare_paused_zcash_candidate, prepare_submission_mode, require. st_unfold.
  case_bool_decide as Hst; [|done]. destruct (ms_worker session) as [worker|]; [|done].
  destruct (ms_nonce_prefix session) as [prefix|]; [|done]. destruct (negb _); [done|].
  destruct (find_assignment session job) as [a|]; [|done]. destruct (join_nonce _ _) as [nonce|]; [|done]. cbn [map_err ok_or].
  destruct (admit_submission _ _ _ _ _ _ _ _ _) as [w1 [g|e]] eqn:E; [|done].
  apply (admit_submission_admitted sha256 _ _ _ _ _ _ _ _ _ gs) in E as [[H1 H2 H3] H4]; [|done].
  destruct (check_generation _ _ _ _) as [[]|]; [|done]. intros [= <- <-]. cbn. split; [done|]. apply H3. by rewrite H4.
Qed.

(** [context] with another admission guard. *)
Definition readmitted (context : SubmissionContext) (admission : GenerationAdmission) : SubmissionContext :=
  mkSubmissionContext (sc_session_id context) (sc_identity context) (sc_target_le context) (sc_time context)
    (sc_nonce context) (sc_solution context) admission.

(** A queued submission that passes the filter of a pause. *)
Record refiltered (sha256 : list Z -> list Z) (queued ctx : SubmissionContext) : Prop := {
  rf_same : ctx = readmitted queued (sc_admission ctx);
  rf_descriptor : bg_descriptor (ga_generation (sc_admission ctx)) = bg_descriptor (ga_generation (sc_admission queued));
  rf_role : is_winner_recovery (sc_admission ctx) = true;
  rf_winner : zcash_winner sha256 (ga_generation (sc_admission queued)) (sc_nonce queued) (sc_solution queued) = true
}.

Lemma refiltered_candidate sha256 queued ms w w' ctx :
  refilter_zcash_candidate sha256 queued ms true w = (w', Ok ctx) -> refiltered sha256 queued ctx.
Proof.
  unfold refilter_zcash_candidate, begin_paused_zcash_candidate, begin_historical_zcash_candidate_during_pause, lift_registry.
  destruct (_ || _); match goal with |- context [begin_zcash_candidate sha256 ?i ?n ?s ?t ?r ?al w] =>
    pose proof (begin_zcash_cases sha256 i n s t r al w) as H; destruct (begin_zcash_candidate sha256 i n s t r al w) as [w1 [g|e]] end;
    cbn [map_err]; try done; destruct H as (_ & _ & _ & e & _ & _ & _ & _ & _ & Hz & -> & _);
    (case_bool_decide as Hd; cbn [negb]; [|done]); intros [= <- <-]; (split; [done|done|done|]);
    unfold zcash_winner in *; by rewrite <- Hd.
Qed.

(** ** Properties *)

(** C13. The router refines the registry: whatever threads do, in any interleaving of its locked
    sections, its registry with the guards its callers hold is a reachable state of the registry's
    transition system, the backend authority never changes, and no time the router samples runs
    behind the registry's clock. *)
Theorem router_refines_registry sha256 cfg snapshot sys sys' :
  router_started cfg snapshot sys -> rtc (router_step sha256) sys sys' ->
  reachable sha256 cfg (rs_world (router_state (sys_router sys')), sys_guards sys') /\
  rs_backend_authority (router_state (sys_router sys')) = Some (js_authority snapshot) /\
  (exists b, rs_connection_binding (router_state (sys_router sys')) = Some b /\ cb_authority b = js_authority snapshot) /\
  (forall now ms, sys_clock sys' <= now -> timeline_now_ms (router_timeline (sys_router sys')) now = Ok ms ->
     moved_backwards (last_monotonic_ms (rs_registry (router_state (sys_router sys')))) ms = false).
Proof.
  intros Hs Hr. destruct (history_inv sha256 cfg snapshot sys sys' Hs Hr) as [H1 H2 H3 _ H5 _].
  split_and!; try done. intros now ms Hn Hm. by eapply timeline_forward.
Qed.


(** C15. A suspension cannot be missed: a subscription opens its receiver and then inspects the router,
    with anything happening in between; it is told, once the failing calls have finished, of every loss
    of synchronisation after the receiver was opened and of a router found unsynchronised at the
    inspection or later, unless the subscription has failed already. *)
Theorem suspension_not_missed sha256 cfg snapshot sys0 sys1 sys2 lost sys3 ring :
  router_started cfg snapshot sys0 -> rtc (router_step sha256) sys0 sys1 -> rtc (router_step sha256) sys1 sys2 ->
  (exists before, rtc (router_step sha256) sys1 before /\ rtc (router_step sha256) before lost /\
     synchronized (rs_registry (router_state (sys_router before))) = true) \/ rtc (router_step sha256) sys2 lost ->
  synchronized (rs_registry (router_state (sys_router lost))) = false ->
  rtc (router_step sha256) lost sys3 -> sys_failed sys3 = 0%nat ->
  let sub := router_subscribe (sys_router sys1) (sys_router sys2) in
  let updates := router_updates (sys_router sys3) in
  let heard := drain_updates ring updates (S (S (length updates))) sub in
  Ok UpdateSuspended ∈ heard \/ exists e, Err e ∈ heard.
Proof.
  intros Hs H01 H12 Hor Hd H23 Hf sub updates heard. pose proof (history_inv sha256 cfg snapshot sys0 sys1 Hs H01) as Hinv.
  assert (exists from, rtc (router_step sha256) sys1 from /\ rtc (router_step sha256) from lost /\
    (synchronized (rs_registry (router_state (sys_router from))) = false -> warned sub from)) as (from & H1f & Hfl & Hw0).
  { destruct Hor as [(before & H1 & H2 & H3)|H2]; [exists before|exists sys2]; (split; [done|split; [done|]]); [congruence|].
    intros Hu. left. unfold sub, router_subscribe, subscribe_inspect. cbn. by rewrite Hu, orb_true_r. }
  pose proof (history_inv sha256 cfg snapshot sys0 from Hs ltac:(by etrans)) as Hinvf.
  assert (sub_position sub <= length (router_updates (sys_router from)))%nat as Hposf.
  { apply (log_grows sha256 cfg (js_authority snapshot) _ _ Hinv H1f). }
  destruct (desynchronised_steps sha256 cfg _ sub from lost Hinvf Hfl Hposf Hw0) as (Hinv2 & Hpos & Hw).
  destruct (warned_steps sha256 cfg _ sub lost sys3 Hinv2 H23 Hpos (Hw Hd)) as [Hp|[Hp|Hp]]; [| |lia].
  - left. unfold heard. cbn [drain_updates]. unfold receive. rewrite Hp. by left.
  - unfold heard. destruct (sub_suspension_pending sub) eqn:Hpend.
    + left. cbn [drain_updates]. unfold receive. rewrite Hpend. by left.
    + replace sub with (mkJobSubscription (sub_position sub) false)
        by (destruct sub as [p b] eqn:E; cbn in *; congruence).
      apply drain_reaches; [exact Hp|]. lia.
Qed.

(** C31. During a health pause nothing but a proven Zcash candidate gets through: the router names no
    current or admissible job, admits a submission only once recovery is allowed and then only with a
    proof that meets the Zcash target, and lets queued work continue only unchanged, for the same job and
    with a proof of its own that meets the Zcash target. *)
Theorem pause_admits_only_candidates sha256 cfg snapshot sys0 sys now :
  router_started cfg snapshot sys0 -> rtc (router_step sha256) sys0 sys ->
  let r := sys_router sys in
  rs_health_paused (router_state r) = true ->
  (forall g, snd (router_current_generation now r) = Ok g -> g = None) /\
  (forall ids, snd (router_admissible_job_ids now r) = Ok ids -> ids = []) /\
  (forall session login job time suffix solution ctx,
     snd (router_prepare_submission sha256 session login job time suffix solution now r) = Ok ctx ->
     rs_recovery_only (router_state r) = true /\ ga_role (sc_admission ctx) = PausedZcashCandidate /\
     zcash_winner sha256 (ga_generation (sc_admission ctx)) (sc_nonce ctx) (sc_solution ctx) = true) /\
  (forall client queued ctx, snd (prepare_queued_paused_candidate sha256 queued client now r) = Ok ctx ->
     rs_recovery_only (router_state r) = true /\ client_bound client (router_state r) = true /\
     refiltered sha256 queued ctx).
Proof.
  intros Hs Hr r Hp. pose proof (history_inv sha256 cfg snapshot sys0 sys Hs Hr) as [H1 _ _ _ _ _]. fold r in H1. clearbody r.
  split_and!.
  - intros g. unfold router_current_generation, lock, router_now_ms, router_locked. st_unfold.
    destruct (router_poisoned r); [done|]. destruct (timeline_now_ms _ _) as [ms|]; [|done]. cbn [map_err].
    rewrite with_registry_eval. destruct (snd (on_registry _ _)); cbn; [|done]. rewrite Hp. by intros [= <-].
  - intros ids. unfold router_admissible_job_ids, lock, router_now_ms, router_locked. st_unfold.
    destruct (router_poisoned r); [done|]. destruct (timeline_now_ms _ _) as [ms|]; [|done]. cbn [map_err].
    rewrite with_registry_eval. destruct (snd (on_registry _ _)); cbn; [|done]. rewrite Hp. by intros [= <-].
  - intros session login job time suffix solution ctx. unfold router_prepare_submission, lock, router_now_ms, router_locked. st_unfold.
    destruct (router_poisoned r); [done|]. destruct (timeline_now_ms _ _) as [ms|]; [|done]. cbn [map_err]. rewrite Hp.
    rewrite with_registry_eval. destruct (snd (on_registry _ _)) as [ids|]; cbn [map_err]; [|done].
    destruct (rs_recovery_only (router_state r)); [|done]. unfold with_world. cbn [rs_world set_world router_state set_router_state].
    set (w1 := fst (on_registry (admissible_job_ids ms) (rs_world (router_state r)))).
    destruct (prepare_paused_zcash_candidate _ _ _ _ _ _ _ _ w1) as [w2 [ctx'|e]] eqn:E; cbn; [|done]. intros [= ->]. split; [done|].
    assert (reachable sha256 cfg (w1, sys_guards sys)) as Hr1 by (eapply rtc_r; [exact H1|apply step_admissible]).
    apply (prepared_paused sha256 _ _ _ _ _ _ _ _ _ _ _ (reachable_SInv _ _ _ Hr1) E).
  - intros client queued ctx. unfold prepare_queued_paused_candidate, router_locked. destruct (router_poisoned r); [done|].
    rewrite Hp. destruct (rs_recovery_only (router_state r)); cbn [andb negb]; [|done].
    destruct (client_bound client (router_state r)); cbn [negb orb]; [|done]. destruct (negb _); [done|].
    destruct (timeline_now_ms _ _) as [ms|]; [|done]. unfold with_world.
    destruct (refilter_zcash_candidate _ _ _ _ _) as [w2 [ctx'|e]] eqn:E; cbn; [|done]. intros [= ->]. split_and!; [done|done|].
    by eapply refiltered_candidate.
Qed.

(** ** A concrete router *)

Definition demo_subscribe_io : Io := mkIo 200 WriteDone (demo_frame 1).
Definition demo_job_snapshot : JobSnapshot :=
  match snd (@subscribe_jobs demo_client_env demo_subscribe_io 4 demo_client) with
  | Ok snapshot => snapshot
  | Err _ => mkJobSnapshot 0 None [] 0 0 (mkBackendConnectionBinding (authority demo_client) 0 0)
  end.
Definition demo_live_client : BackendClient := fst (@subscribe_jobs demo_client_env demo_subscribe_io 4 demo_client).
Definition demo_timeline : MonotonicTimeline := mkMonotonicTimeline 0.
Definition demo_router : JobRouter :=
  match from_snapshot demo_job_snapshot demo_config demo_timeline 16 with
  | Ok r => r
  | Err _ => mkJobRouter (mkRouterState (World_new demo_config) false false false None None) true demo_timeline []
  end.
Definition demo_sys : RouterSys := mkRouterSys demo_router [] 300 0 0.

Lemma demo_started : router_started demo_config demo_job_snapshot demo_sys.
Proof. exists demo_timeline, 16%nat. split_and!; [vm_compute; reflexivity|apply Z.leb_le; vm_compute; reflexivity|done|done|done]. Defined.

(** A second job is activated. *)
Definition demo_activation : DeliveredBackendEvent :=
  mkDeliveredBackendEvent (JobActivated 5 (demo_job 2)) 400000000 (js_connection_binding demo_job_snapshot).
Definition demo_activated : JobRouter :=
  fst (apply_event_section demo_sha256 (js_connection_binding demo_job_snapshot) demo_activation 500000000 demo_router).
Definition demo_sys1 : RouterSys := mkRouterSys demo_activated [] 500000000 0 0.

Lemma demo_step : router_step demo_sha256 demo_sys demo_sys1.
Proof.
  apply (rstep_apply demo_sha256 (js_connection_binding demo_job_snapshot) demo_activation 500000000 demo_router
    demo_activated (Ok None) [] 300 0 0); [lia|]. vm_compute. reflexivity.
Defined.

Lemma router_refines_registry_witness :
  reachable demo_sha256 demo_config (rs_world (router_state demo_activated), []) /\
  roles (rs_registry (router_state demo_activated)) = [demo_id 2; demo_id 1].
Proof.
  split; [|vm_compute; reflexivity].
  exact (proj1 (router_refines_registry demo_sha256 demo_config demo_job_snapshot demo_sys demo_sys1 demo_started
    (rtc_once _ _ demo_step))).
Defined.


Definition demo_suspended : RouterSys := mkRouterSys (fst (router_suspend demo_activated)) [] 500000000 0 0.

Lemma suspension_not_missed_witness :
  let sub := router_subscribe demo_router demo_activated in
  let updates := router_updates (sys_router demo_suspended) in
  let heard := drain_updates 16 updates (S (S (length updates))) sub in
  Ok UpdateSuspended ∈ heard \/ exists e, Err e ∈ heard.
Proof.
  apply (suspension_not_missed demo_sha256 demo_config demo_job_snapshot demo_sys demo_sys demo_sys1 demo_suspended demo_suspended 16
    demo_started (rtc_refl _ _) (rtc_once _ _ demo_step)).
  - right. apply rtc_once. apply rstep_suspend.
  - vm_compute. reflexivity.
  - apply rtc_refl.
  - reflexivity.
Defined.

(** The same router after its client reported an unhealthy backend. *)
Definition demo_paused : RouterSys := mkRouterSys (run_query (QPause demo_live_client) 600 demo_router) [] 600 0 0.

Lemma pause_admits_only_candidates_witness :
  rs_health_paused (router_state (sys_router demo_paused)) = true /\
  forall g, snd (router_current_generation 700 (sys_router demo_paused)) = Ok g -> g = None.
Proof.
  assert (rs_health_paused (router_state (sys_router demo_paused)) = true) as Hp by (vm_compute; reflexivity). split; [exact Hp|].
  assert (rtc (router_step demo_sha256) demo_sys demo_paused) as Hr by (apply rtc_once, rstep_query; lia).
  exact (proj1 (pause_admits_only_candidates demo_sha256 demo_config demo_job_snapshot demo_sys demo_paused 700 demo_started Hr Hp)).
Defined.
