(* ===== verification/RouterThreads.v ===== *)
(** The router between two calls of one thread (crates/wcash-pool-edge/src/router.rs): whatever the
    other threads call meanwhile, no generation is forgotten, and the current generation changes only
    to one the router had not seen.  Only a recovery may name an older generation current again. *)

From Stdlib Require Import ZArith Lia.
From stdpp Require Import prelude gmap sorting strings.
From S2P Require Import Prelude Wire Target Nonce LargestRemainder Backend Stream Framing Jobs JobsInv JobsWorld JobsLife JobsProps Session BackendClient BackendClientProps BackendClientHistory Router RouterProps.
Open Scope Z_scope.

(** ** Calls of other threads *)

(** A section under the lock, other than a recovery. *)
Inductive ThreadCall : Type :=
| ThreadApply (binding : BackendConnectionBinding) (delivered : DeliveredBackendEvent) (now : Z)
| ThreadSuspend
| ThreadSuspendBound (binding : BackendConnectionBinding)
| ThreadSend
| ThreadQuery (q : router_query) (now : Z)
| ThreadPrepare (session : MiningSession) (login : string) (job : JobId) (time : Hex4) (suffix : NonceSuffix)
    (solution : Hex1344) (now : Z)
| ThreadRefilter (context : SubmissionContext) (client : BackendClient) (now : Z)
| ThreadDrop (g : GenerationAdmission)
| ThreadPoison.

Inductive AnyCall : Type :=
| ThreadSection (call : ThreadCall)
| ThreadRecover (snapshot : JobSnapshot).

Definition run_thread (sha256 : list Z -> list Z) (call : ThreadCall) (r : JobRouter) : JobRouter :=
  match call with
  | ThreadApply binding delivered now => fst (apply_event_section sha256 binding delivered now r)
  | ThreadSuspend => fst (router_suspend r)
  | ThreadSuspendBound binding => fst (suspend_if_bound binding r)
  | ThreadSend => broadcast UpdateSuspended r
  | ThreadQuery q now => run_query q now r
  | ThreadPrepare session login job time suffix solution now =>
      fst (router_prepare_submission sha256 session login job time suffix solution now r)
  | ThreadRefilter context client now => fst (prepare_queued_paused_candidate sha256 context client now r)
  | ThreadDrop g => set_router_state (set_world (drop_admission g (rs_world (router_state r))) (router_state r)) r
  | ThreadPoison => mkJobRouter (router_state r) true (router_timeline r) (router_updates r)
  end.

Definition run_any (sha256 : list Z -> list Z) (call : AnyCall) (r : JobRouter) : JobRouter :=
  match call with
  | ThreadSection call => run_thread sha256 call r
  | ThreadRecover snapshot => fst (recover_snapshot_section snapshot r)
  end.

(** ** Registries *)

(** Every generation is filed under its own identifier. *)
Definition keyed (r : GenerationRegistry) : Prop :=
  forall id e, entries r !! id = Some e -> bg_id (re_generation e) = id.

(** Nothing is forgotten. *)
Record remembers (r r' : GenerationRegistry) : Prop := {
  rb_entries : forall id, is_Some (entries r !! id) -> is_Some (entries r' !! id);
  rb_keyed : keyed r -> keyed r'
}.

Record advances (r r' : GenerationRegistry) : Prop := {
  av_remembers : remembers r r';
  av_current : forall id, current r' = Some id -> current r = Some id \/ entries r !! id = None
}.

#[export] Instance remembers_preorder : PreOrder remembers.
Proof. split; [by intros r; split|]. intros r1 r2 r3 [H1 K1] [H2 K2]. split; auto. Qed.

#[export] Instance advances_preorder : PreOrder advances.
Proof.
  split; [intros r; split; [done|by left]|]. intros r1 r2 r3 [H1 C1] [H2 C2]. split; [by etrans|].
  intros id [Hc|Hc]%C2; [by apply C1|]. right. destruct (entries r1 !! id) eqn:E; [|done].
  destruct (rb_entries _ _ H1 id) as [e' E']; [by rewrite E|]. congruence.
Qed.

(** The entries of [r'] are those of [r], each with its generation, and its current role is none or that of [r]. *)
Lemma advances_same r r' : (forall id, re_generation <$> entries r' !! id = re_generation <$> entries r !! id) ->
  (current r' = None \/ current r' = current r) -> advances r r'.
Proof.
  intros He Hc. split; [split|].
  - intros id. specialize (He id). rewrite <- !(fmap_is_Some re_generation), He. done.
  - intros Hk id e E. specialize (He id). rewrite E in He. cbn in He. symmetry in He. apply fmap_Some in He as (e0 & E0 & ->). by apply Hk.
  - intros id Hid. destruct Hc as [Hc|Hc]; [congruence|]. left. congruence.
Qed.

Definition advancing {A E} (m : M GenerationRegistry E A) : Prop := forall r, advances r (fst (m r)).
Definition moving {A E} (m : M World E A) : Prop := forall w, advances (registry w) (registry (fst (m w))).

Lemma advancing_bind {A B E} (m : M GenerationRegistry E A) (f : A -> M GenerationRegistry E B) :
  advancing m -> (forall a, advancing (f a)) -> advancing (st_bind m f).
Proof. intros Hm Hf r. unfold st_bind. specialize (Hm r). destruct (m r) as [r1 [a|e]]; [|done]. etrans; [exact Hm|apply Hf]. Qed.

Lemma moving_bind {A B E} (m : M World E A) (f : A -> M World E B) : moving m -> (forall a, moving (f a)) -> moving (st_bind m f).
Proof. intros Hm Hf w. unfold st_bind. specialize (Hm w). destruct (m w) as [w1 [a|e]]; [|done]. etrans; [exact Hm|apply Hf]. Qed.

(** Calls that leave the registry as it is. *)
Lemma moving_still {A E} (m : M World E A) : (forall w, registry (fst (m w)) = registry w) -> moving m.
Proof. intros H w. rewrite H. done. Qed.
Lemma advancing_still {A E} (m : M GenerationRegistry E A) : (forall r, fst (m r) = r) -> advancing m.
Proof. intros H r. by rewrite H. Qed.

Lemma moving_registry {A} (m : M GenerationRegistry JobRegistryError A) : advancing m -> moving (on_registry m).
Proof. intros Hm w. unfold on_registry. specialize (Hm (registry w)). by destruct (m (registry w)). Qed.
Lemma moving_modify f : (forall r, advances r (f r)) -> moving (modify_registry f).
Proof. intros Hf w. apply Hf. Qed.

(** *** Clock and suspension *)

Lemma expire_advances now r : advances r (expire_at now r).
Proof.
  apply advances_same.
  - intros id. cbn. rewrite lookup_fmap. destruct (entries r !! id) as [e|]; [|done]. cbn. f_equal.
    unfold re_generation. by destruct (expire_entry_fields now e) as [-> _].
  - cbn. unfold opt_filter. destruct (current r); [|by left]. case_match; auto.
Qed.

Lemma ticked_advances now r : advances r (ticked now r).
Proof. etrans; [apply (expire_advances now)|]. apply advances_same; auto. Qed.

Lemma suspend_advances r : advances r (Jobs.suspend r).
Proof.
  apply advances_same; [|by left]. intros id. cbn. rewrite lookup_fmap. destruct (entries r !! id) as [e|]; [|done]. cbn. by case_match.
Qed.

Lemma recovery_list_advances l r : advances r (with_winner_recovery l r).
Proof. apply advances_same; auto. Qed.
Lemma prune_advances now r : advances r (prune_winner_recovery now r).
Proof. apply recovery_list_advances. Qed.
Lemma remember_advances id r : advances r (remember_winner_recovery id r).
Proof. unfold remember_winner_recovery. case_match; [done|apply recovery_list_advances]. Qed.

(** Work that another thread's call may drop from the roles. *)
Lemma roles_advance c recent' r : c = None \/ c = current r -> advances r (with_roles c recent' r).
Proof. intros Hc. apply advances_same; auto. Qed.

(** An entry that changes but keeps its generation. *)
Lemma entry_advances id e e' r : entries r !! id = Some e -> re_generation e' = re_generation e ->
  advances r (with_entries (<[id := e']> (entries r)) r).
Proof.
  intros E Hg. apply advances_same; [|by right]. intros id'. cbn. destruct (decide (id' = id)) as [->|].
  - rewrite lookup_insert_eq, E. cbn. by rewrite Hg.
  - by rewrite lookup_insert_ne.
Qed.

Lemma clock_advancing now : advancing (advance_clock now).
Proof. intros r. rewrite advance_clock_eval. destruct (moved_backwards _ _); [apply suspend_advances|apply ticked_advances]. Qed.

Ltac still := first [apply moving_still | apply advancing_still]; intros; st_unfold; repeat case_match; done.

Lemma current_advancing now : advancing (current_generation now).
Proof. apply advancing_bind; [apply clock_advancing|]. intros _. still. Qed.
Lemma admissible_advancing now : advancing (admissible_job_ids now).
Proof. apply advancing_bind; [apply clock_advancing|]. intros _. still. Qed.
Lemma recovery_ids_advancing now : advancing (winner_recovery_job_ids now).
Proof.
  apply advancing_bind; [apply clock_advancing|]. intros _ r. st_unfold. destruct (negb _); [done|]. apply prune_advances.
Qed.

(** *** Admission *)

Lemma begin_admission_moving id now : moving (begin_admission id now).
Proof.
  apply moving_bind; [apply moving_registry, clock_advancing|]. intros _ w. unfold get_registry, on_registry. st_unfold.
  destruct (negb _); [done|]. destruct (entries _ !! id) as [e|]; [|done]. cbn. destruct (negb _); [done|].
  destruct (live_resource _) as [res|]; [|done]. cbn. by destruct (checked_add _ _ _).
Qed.

Lemma begin_zcash_moving sha256 id nonce solution now role allow : moving (begin_zcash_candidate sha256 id nonce solution now role allow).
Proof.
  intros w. pose proof (begin_zcash_cases sha256 id nonce solution now role allow w) as H.
  assert (advances (registry w) (prune_winner_recovery now (ticked now (registry w)))) as Hp
    by (etrans; [apply ticked_advances|apply prune_advances]).
  destruct (begin_zcash_candidate _ _ _ _ _ _ _ w) as [w' [g|e]]; cbn [fst].
  - destruct H as (_ & _ & _ & e & _ & _ & _ & _ & _ & _ & _ & ->). exact Hp.
  - rewrite H. cbn [registry]. destruct (moved_backwards _ _); [apply suspend_advances|].
    destruct (synchronized _); [exact Hp|apply ticked_advances].
Qed.

Lemma lift_moving {A} (m : M World JobRegistryError A) : moving m -> moving (lift_registry m).
Proof. intros Hm w. unfold lift_registry. specialize (Hm w). by destruct (m w). Qed.

Lemma drop_moving g w : advances (registry w) (registry (drop_admission g w)).
Proof. unfold drop_admission. by repeat case_match. Qed.

Lemma admit_moving sha256 a job t nonce solution now paused : moving (admit_submission sha256 a job t nonce solution now paused).
Proof.
  assert (forall role allow, moving (do* check_retained a job t in lift_registry (begin_zcash_candidate sha256 job nonce solution now role allow))) as Hr.
  { intros role allow. apply moving_bind; [|intros _; by apply lift_moving, begin_zcash_moving].
    apply moving_still. intros w. unfold check_retained, lift_registry, get_registry, on_registry. st_unfold. repeat case_match; by simplify_eq. }
  unfold admit_submission. destruct paused; [apply Hr|]. intros w. pose proof (begin_admission_moving job now w) as Ha.
  destruct (begin_admission job now w) as [w1 [g|e]]; [done|]. destruct e; try done. etrans; [exact Ha|]. apply (Hr HistoricalZcashRecovery false w1).
Qed.

Lemma prepare_moving sha256 session login job t suffix solution now paused :
  moving (prepare_submission_mode sha256 session login job t suffix solution now paused).
Proof.
  intros w. unfold prepare_submission_mode, require. st_unfold. case_bool_decide; [|done].
  destruct (ms_worker session) as [worker|]; [|done]. destruct (ms_nonce_prefix session) as [prefix|]; [|done]. cbn.
  case_bool_decide; [|done]. destruct (find_assignment session job) as [a|]; [|done]. cbn.
  destruct (join_nonce prefix suffix) as [nonce|]; [|done]. cbn. pose proof (admit_moving sha256 a job t nonce solution now paused w) as Ha.
  destruct (admit_submission _ _ _ _ _ _ _ _ w) as [w1 [g|e]]; [|done]. destruct (check_generation _ _ _ _); [done|]. cbn.
  etrans; [exact Ha|apply (drop_moving g)].
Qed.

Lemma refilter_moving sha256 context now only : moving (refilter_zcash_candidate sha256 context now only).
Proof.
  intros w. unfold refilter_zcash_candidate. set (m := if (_ || _)%bool then _ else _).
  assert (moving (lift_registry m)) as Hm.
  { apply lift_moving. unfold m. destruct (_ || _)%bool; [|destruct only]; apply begin_zcash_moving. }
  clearbody m. specialize (Hm w). destruct (lift_registry m w) as [w1 [g|e]]; cbn in Hm; [destruct (negb _)|]; cbn.
  - etrans; [exact Hm|]. etrans; [apply (drop_moving g w1)|apply (drop_moving (sc_admission context))].
  - etrans; [exact Hm|apply (drop_moving (sc_admission context))].
  - etrans; [exact Hm|apply (drop_moving (sc_admission context))].
Qed.

(** *** Events *)

(** A new generation becomes current; the one before it is kept. *)
Lemma activate_moving descriptor anchor : moving (activate descriptor anchor).
Proof.
  intros w. unfold activate, get_registry, modify_registry, on_registry, new_resource. st_unfold.
  destruct (from_descriptor descriptor) as [g|]; [|done]. cbn [registry heap next_addr]. case_bool_decide as Hn; [done|].
  destruct (_ && _); [done|]. destruct (_ =? _)%nat; [done|]. destruct (deadline _ _) as [until|]; [|done]. cbn [registry heap next_addr].
  assert (entries (registry w) !! bg_id g = None) as Hnone by (destruct (entries (registry w) !! bg_id g); [destruct Hn; by eexists|done]).
  destruct (winner_recovery_deadline until) as [recover|]; cbn [fst registry]; [|by apply advances_same; auto].
  etrans; [|apply prune_advances]. etrans; [|apply remember_advances]. split; [split|].
  - intros id Hid. cbn. destruct (decide (id = bg_id g)) as [->|]; [by rewrite lookup_insert_eq|by rewrite lookup_insert_ne].
  - intros Hk id e. cbn. destruct (decide (id = bg_id g)) as [->|]; [rewrite lookup_insert_eq; by intros [= <-]|].
    rewrite lookup_insert_ne by done. apply Hk.
  - intros id [= <-]. by right.
Qed.

Lemma filter_role f r : opt_filter f (current r) = None \/ opt_filter f (current r) = current r.
Proof. unfold opt_filter. destruct (current r); [case_match; auto|by left]. Qed.

Lemma invalidate_advancing id reason accept anchor : advancing (invalidate_job id reason accept anchor).
Proof.
  intros r. unfold invalidate_job. st_unfold. destruct (entries r !! id) as [e|] eqn:E; [|done].
  destruct (negb _); [apply roles_advance, filter_role|].
  assert (forall r1, advances r1 (clear_current id r1)) as Hc by (intros r1; apply roles_advance, filter_role).
  assert (forall r1, advances r1 (if entry_is r1 (fun e => accepting e anchor) id then r1
    else with_roles (current r1) (keep (fun r => negb (bool_decide (r = id))) (recent r1)) r1)) as Hr
    by (intros r1; case_match; [done|]; apply roles_advance; by right).
  destruct (_ && _).
  - destruct (deadline _ _) as [proposed|]; [|done]. destruct (_ && _); [done|]. cbn.
    set (r1 := with_entries _ r). assert (advances r r1) as H1 by (by eapply entry_advances).
    destruct (_ && _); cbn; (etrans; [|apply Hr]); (etrans; [|apply Hc]); [|exact H1].
    etrans; [exact H1|]. apply roles_advance. by right.
  - cbn. etrans; [|apply Hr]. etrans; [|apply Hc]. by eapply entry_advances.
Qed.

Lemma close_advances id r : advances r (close_generation id r).
Proof.
  unfold close_generation. destruct (entries r !! id) as [e|] eqn:E; [|done]. etrans; [|apply recovery_list_advances].
  etrans; [|apply roles_advance, filter_role]. by eapply entry_advances.
Qed.

Lemma body_moving event anchor : moving (apply_event_body event anchor).
Proof.
  destruct event; try (by apply moving_still); cbn [apply_event_body].
  - apply activate_moving.
  - apply moving_bind; [apply moving_still; intros; by destruct (JobId_new _)|]. intros id. apply moving_bind.
    + apply moving_modify. intros r. case_match; [apply recovery_list_advances|done].
    + intros _. apply moving_registry, invalidate_advancing.
  - apply moving_bind; [apply moving_still; intros; by destruct (JobId_new _)|]. intros id. apply moving_modify, close_advances.
Qed.

Lemma event_moving sha256 event anchor policy : moving (apply_event_at sha256 event anchor policy).
Proof.
  assert (moving (try_apply_event sha256 event anchor policy)) as Ht.
  { intros w. unfold try_apply_event, get_registry, on_registry. unfold st_bind at 1. cbn. destruct (negb _); [by destruct w|].
    unfold st_lift. unfold st_bind at 1. destruct (check_delivery_clock _ _); [|by destruct w].
    unfold st_bind at 1. destruct (check_clock _ _); [|by destruct w]. destruct (_ <? _); [by destruct w|].
    unfold st_bind at 1. destruct (map_err _ _); [|by destruct w]. unfold st_bind at 1. destruct (ok_or _ _); [|by destruct w].
    unfold st_bind at 1. destruct (ok_or _ _); [|by destruct w]. destruct (negb _); [by destruct w|].
    refine (moving_bind _ _ _ _ (mkWorld (registry w) (heap w) (next_addr w))); [apply moving_modify, expire_advances|].
    intros _. apply moving_bind; [apply body_moving|]. intros _. apply moving_modify. intros r.
    etrans; [apply expire_advances|]. apply advances_same; auto. }
  intros w. unfold apply_event_at. specialize (Ht w). destruct (try_apply_event _ _ _ _ w) as [w1 [[]|e]]; [done|].
  etrans; [exact Ht|]. apply suspend_advances.
Qed.

(** ** Routers *)

#[local] Abbreviation reg r := (rs_registry (router_state r)).

(** A section that leaves the binding of states to routers alone moves the registry as the state does. *)
Lemma world_section {A E} wrap (m : M World E A) s : moving m ->
  advances (rs_registry s) (rs_registry (fst (with_world wrap m s))).
Proof. intros Hm. unfold with_world, rs_registry. specialize (Hm (rs_world s)). by destruct (m (rs_world s)) as [w [a|e]]. Qed.

Lemma registry_section {A} (m : M GenerationRegistry JobRegistryError A) s : advancing m ->
  advances (rs_registry s) (rs_registry (fst (with_registry m s))).
Proof. intros Hm. by apply world_section, moving_registry. Qed.

Lemma query_advances q now r : advances (reg r) (reg (run_query q now r)).
Proof.
  destruct (query_cases q now r) as [->|(ms & s' & _ & _ & Ha & Hq)]; [done|].
  assert (advances (reg r) (rs_registry s')) as H.
  { unfold rs_registry. destruct Ha; apply moving_registry; [apply admissible_advancing|apply current_advancing|apply recovery_ids_advancing]. }
  by destruct Hq as [[-> _]|(g & -> & _)].
Qed.

Lemma suspend_locked_advances r : advances (reg r) (reg (suspend_locked r)).
Proof. apply suspend_advances. Qed.

Lemma update_advances event ms s : advances (rs_registry s) (rs_registry (fst (update_for event ms s))).
Proof.
  destruct event; cbn [update_for]; try done; st_unfold.
  - destruct (rs_health_paused s); [done|]. destruct (JobId_new _) as [id|]; [|done]. cbn. destruct (generation _ _) as [g|]; [|done]. cbn.
    pose proof (registry_section (admissible_job_ids ms) s (admissible_advancing ms)) as H.
    destruct (with_registry _ s) as [s1 [ids|e]]; cbn in *; [|done]. by destruct (negb _).
  - destruct (JobId_new _) as [id|]; [|done]. cbn. by destruct (is_hard _ _).
  - by destruct (JobId_new _) as [id|].
Qed.

Lemma apply_section_advances sha256 binding d now r : advances (reg r) (reg (fst (apply_event_section sha256 binding d now r))).
Proof.
  unfold apply_event_section, lock_or_suspend. st_unfold. destruct (router_poisoned r); [done|]. destruct (_ || _); [done|].
  destruct (timeline_now_ms _ _) as [ms|]; [|apply suspend_locked_advances]. unfold router_locked.
  assert (moving (event_apply_to_registry_at sha256 d (router_timeline r) ms)) as Hm.
  { apply moving_bind; [apply moving_still; intros w; by destruct (anchor_ms _ _)|]. intros anchor w.
    pose proof (event_moving sha256 (de_event d) anchor ms w) as H. unfold lift_integration.
    by destruct (apply_event_at _ _ _ _ w) as [w1 [u|e]]. }
  pose proof (world_section RouterIntegration _ (router_state r) Hm) as H1.
  destruct (with_world _ _ (router_state r)) as [s1 [u|e]]; cbn in *; [|done].
  pose proof (update_advances (de_event d) ms s1) as H2. destruct (update_for _ _ s1) as [s2 [[u2|]|e]]; cbn in *; by etrans.
Qed.

Lemma prepare_advances sha256 session login job time suffix solution now r :
  advances (reg r) (reg (fst (router_prepare_submission sha256 session login job time suffix solution now r))).
Proof.
  unfold router_prepare_submission, lock, router_now_ms, router_locked. st_unfold. destruct (router_poisoned r); [done|].
  destruct (timeline_now_ms _ _) as [ms|]; [|done]. cbn [map_err]. destruct (rs_health_paused _).
  - pose proof (registry_section (admissible_job_ids ms) (router_state r) (admissible_advancing ms)) as H1.
    destruct (with_registry _ _) as [s1 [ids|e]]; cbn in *; [|done]. destruct (rs_recovery_only _); [|done].
    pose proof (world_section RouterSession _ s1 (prepare_moving sha256 session login job time suffix solution ms true)) as H2.
    unfold prepare_paused_zcash_candidate. cbn [set_router_state router_state].
    destruct (with_world _ _ s1) as [s2 x]. etrans; [exact H1|exact H2].
  - pose proof (world_section RouterSession _ (router_state r) (prepare_moving sha256 session login job time suffix solution ms false)) as H2.
    unfold prepare_submission. by destruct (with_world _ _ _) as [s2 x].
Qed.

Lemma refilter_advances sha256 context client now r :
  advances (reg r) (reg (fst (prepare_queued_paused_candidate sha256 context client now r))).
Proof.
  assert (advances (reg r) (registry (drop_admission (sc_admission context) (rs_world (router_state r))))) as Hd by apply drop_moving.
  unfold prepare_queued_paused_candidate. destruct (router_poisoned r); [exact Hd|]. destruct (_ && _); [exact Hd|].
  destruct (_ || _); [exact Hd|]. destruct (timeline_now_ms _ _) as [ms|]; [|exact Hd]. unfold router_locked.
  set (only := _ && _). pose proof (world_section RouterSession _ (router_state r) (refilter_moving sha256 context ms only)) as H.
  by destruct (with_world _ _ _) as [s x].
Qed.

Lemma thread_advances sha256 call r : advances (reg r) (reg (run_thread sha256 call r)).
Proof.
  destruct call; cbn [run_thread]; try done.
  - apply apply_section_advances.
  - unfold router_suspend, lock_or_suspend. st_unfold. destruct (router_poisoned r); [done|apply suspend_locked_advances].
  - unfold suspend_if_bound, lock_or_suspend. st_unfold. destruct (router_poisoned r); [done|]. destruct (negb _); [done|apply suspend_locked_advances].
  - apply query_advances.
  - apply prepare_advances.
  - apply refilter_advances.
Qed.

Lemma threads_advance sha256 calls r : advances (reg r) (reg (foldl (fun r call => run_thread sha256 call r) r calls)).
Proof. revert r. induction calls as [|call calls IH]; intros r; [done|]. etrans; [apply thread_advances|apply IH]. Qed.

(** *** Recovery *)

(** A call that leaves the registry alone and whose result satisfies [P]. *)
Definition yields {A E} (m : M World E A) (P : A -> Prop) : Prop :=
  forall w, registry (fst (m w)) = registry w /\ match snd (m w) with Ok a => P a | Err _ => True end.

Lemma yields_bind {A B E} (m : M World E A) (f : A -> M World E B) P Q :
  yields m P -> (forall a, P a -> yields (f a) Q) -> yields (st_bind m f) Q.
Proof.
  intros Hm Hf w. destruct (Hm w) as [H1 H2]. unfold st_bind. destruct (m w) as [w1 [a|e]]; cbn in *; [|done].
  destruct (Hf a H2 w1) as [H3 H4]. by rewrite H3.
Qed.
Lemma yields_ret {A E} (a : A) (P : A -> Prop) : P a -> yields (st_ret (E := E) a) P.
Proof. by intros H w. Qed.
Lemma yields_throw {A E} (e : E) (P : A -> Prop) : yields (st_throw e) P.
Proof. by intros w. Qed.
Lemma yields_lift {A E} (x : result A E) (P : A -> Prop) : (forall a, x = Ok a -> P a) -> yields (st_lift x) P.
Proof. intros H w. split; [by destruct x|]. unfold st_lift. destruct x; cbn; auto. Qed.

Definition filed (p : JobId * RegistryEntry) : Prop := bg_id (re_generation p.2) = p.1.

Lemma acceptable_filed self job anchor : keyed self -> yields (prepare_acceptable self job anchor) filed.
Proof.
  intros Hk. unfold prepare_acceptable. eapply (yields_bind _ _ (fun _ => True)); [by apply yields_lift|]. intros g _.
  destruct (_ || _); [apply yields_throw|]. eapply (yields_bind _ _ (fun _ => True)); [by apply yields_lift|]. intros proposed _.
  destruct (entries self !! bg_id g) as [old|] eqn:E.
  - destruct (negb _); [apply yields_throw|]. destruct (_ || _); [apply yields_throw|]. destruct (_ <=? _); [apply yields_throw|].
    apply yields_ret. exact (Hk _ _ E).
  - eapply (yields_bind _ _ (fun resource => gr_generation resource = g)); [by intros w|]. intros resource Hres.
    eapply (yields_bind _ _ (fun _ => True)); [by apply yields_lift|]. intros recovery _. apply yields_ret. unfold filed. cbn. by rewrite Hres.
Qed.

Lemma jobs_filed self jobs anchor seen : keyed self -> yields (prepare_jobs self jobs anchor seen) (Forall filed).
Proof.
  intros Hk. revert seen. induction jobs as [|job jobs IH]; intros seen; cbn [prepare_jobs]; [by apply yields_ret|].
  eapply yields_bind; [by apply acceptable_filed|]. intros p Hp. case_bool_decide; [apply yields_throw|].
  eapply yields_bind; [apply IH|]. intros l Hl. apply yields_ret. by constructor.
Qed.

Lemma inserted_keyed (l : list (JobId * RegistryEntry)) (m : gmap JobId RegistryEntry) : Forall filed l ->
  (forall id e, m !! id = Some e -> bg_id (re_generation e) = id) ->
  let m' := foldl (fun m p => <[p.1 := p.2]> m) m l in
  (forall id, is_Some (m !! id) -> is_Some (m' !! id)) /\ (forall id e, m' !! id = Some e -> bg_id (re_generation e) = id).
Proof.
  intros Hl. revert m. induction Hl as [|[id e] l H _ IH]; intros m Hm; [by split|]. unfold filed in H. cbn in *. destruct (IH (<[id := e]> m)) as [H1 H2].
  { intros id' e'. destruct (decide (id' = id)) as [->|]; [rewrite lookup_insert_eq; by intros [= <-]|]. rewrite lookup_insert_ne by done. apply Hm. }
  split; [|exact H2]. intros id' Hid. apply H1. destruct (decide (id' = id)) as [->|]; [by rewrite lookup_insert_eq|by rewrite lookup_insert_ne].
Qed.

Lemma prepared_keyed self seq cur rec anchor : keyed self ->
  yields (prepare_snapshot self seq cur rec anchor) (fun p =>
    (forall id, is_Some (entries self !! id) -> is_Some (ps_entries p !! id)) /\
    forall id e, ps_entries p !! id = Some e -> bg_id (re_generation e) = id).
Proof.
  intros Hk. unfold prepare_snapshot. eapply (yields_bind _ _ (fun _ => True)); [by apply yields_lift|]. intros _ _.
  eapply (yields_bind _ _ (fun _ => True)).
  { destruct (last_event_seq self); [|by apply yields_ret]. destruct (_ <? _); [apply yields_throw|by apply yields_ret]. }
  intros _ _. destruct (_ <? _)%nat; [apply yields_throw|]. eapply yields_bind; [by apply jobs_filed|]. intros l1 K1.
  eapply yields_bind; [by apply jobs_filed|]. intros l2 K2. destruct (_ && _); [apply yields_throw|].
  destruct (_ <? _)%nat; [apply yields_throw|]. apply yields_ret. cbn [ps_entries].
  destruct (inserted_keyed (l1 ++ l2) (entries self) (Forall_app_2 _ _ _ K1 K2) Hk) as [H3 H4]. split.
  - intros id Hid. rewrite map_lookup_imap. destruct (H3 id Hid) as [e ->]. by eexists.
  - intros id e. rewrite map_lookup_imap. destruct (_ !! id) as [e0|] eqn:E; [|done]. cbn. intros [= <-].
    unfold retire_unseen. specialize (H4 _ _ E). case_match; [done|]. exact H4.
Qed.

(** A snapshot that is applied, or refused, forgets nothing. *)
Lemma snapshot_remembers seq cur rec now w : keyed (registry w) -> remembers (registry w) (registry (fst (apply_snapshot seq cur rec now w))).
Proof.
  intros Hk. unfold apply_snapshot. pose proof (prepared_keyed (registry w) seq cur rec now Hk w) as [Hr H].
  destruct (prepare_snapshot _ _ _ _ _ w) as [w1 [p|e]]; cbn in Hr, H.
  - unfold modify_registry, on_registry, st_modify. cbn [fst registry]. rewrite Hr. etrans; [|apply prune_advances].
    set (fold := foldl _ _ _). assert (forall l r, remembers r (foldl (fun self id => remember_winner_recovery id self) r l)) as Hf.
    { induction l as [|id l IH]; intros r; [done|]. etrans; [apply (remember_advances id)|apply IH]. }
    etrans; [|apply Hf]. etrans; [|apply expire_advances]. destruct H as [H1 H2]. split; [exact H1|]. intros _. exact H2.
  - rewrite <- Hr. cbn. apply suspend_advances.
Qed.

Lemma recover_remembers snapshot r : keyed (reg r) -> remembers (reg r) (reg (fst (recover_snapshot_section snapshot r))).
Proof.
  intros Hk. unfold recover_snapshot_section, recover_section, lock_or_suspend. st_unfold. destruct (router_poisoned r); [done|].
  destruct (synchronized _); [done|]. destruct (negb _); [done|].
  unfold with_world. cbn [rs_world set_recovery_only set_force_clean_jobs].
  assert (remembers (reg r) (registry (fst (snapshot_apply_to_registry snapshot (router_timeline r) (rs_world (router_state r)))))) as H.
  { unfold snapshot_apply_to_registry, lift_integration, st_bind, st_lift. destruct (anchor_ms _ _) as [anchor|]; [|done]. cbn.
    pose proof (snapshot_remembers (js_event_seq snapshot) (js_current snapshot) (js_recent snapshot) anchor _ Hk) as H.
    by destruct (apply_snapshot _ _ _ _ _) as [w1 [u|e]]. }
  destruct (snapshot_apply_to_registry _ _ _) as [w1 [u|e]]; cbn in *; [exact H|]. etrans; [exact H|]. apply suspend_advances.
Qed.

Lemma calls_remember sha256 calls r : keyed (reg r) ->
  remembers (reg r) (reg (foldl (fun r call => run_any sha256 call r) r calls)).
Proof.
  revert r. induction calls as [|call calls IH]; intros r Hk; [done|]. cbn [foldl].
  assert (remembers (reg r) (reg (run_any sha256 call r))) as H.
  { destruct call; cbn [run_any]; [apply thread_advances|by apply recover_remembers]. }
  etrans; [exact H|]. apply IH. by apply (rb_keyed _ _ H).
Qed.

(** A new router. *)
Lemma created_keyed snapshot config timeline capacity r : from_snapshot snapshot config timeline capacity = Ok r -> keyed (reg r).
Proof.
  unfold from_snapshot. destruct (validate_event_capacity capacity); [|done].
  assert (keyed (registry (World_new config))) as H0 by done.
  unfold snapshot_apply_to_registry, lift_integration, st_bind, st_lift. destruct (anchor_ms _ _) as [anchor|]; [|done]. cbn.
  pose proof (snapshot_remembers (js_event_seq snapshot) (js_current snapshot) (js_recent snapshot) anchor _ H0) as H.
  destruct (apply_snapshot _ _ _ _ _) as [w1 [u|e]]; cbn; [|done]. intros [= <-]. by apply (rb_keyed _ _ H).
Qed.
