(* ===== verification/Edge.v ===== *)
(** The stable vocabulary of the miner edge (crates/wcash-pool-edge/src/config.rs, error.rs,
    telemetry.rs and the failures of submission.rs): limits, the errors a miner may see, telemetry
    categories and the outcome of a share submission. *)

From Stdlib Require Import ZArith Lia.
From stdpp Require Import prelude gmap sorting strings.
From S2P Require Import Prelude Wire RateLimit Backend Stream Hex Zip301 Jobs Session BackendClient.
Open Scope Z_scope.

(** ** Limits *)

(** [std::time::Duration] is a number of nanoseconds. *)
Definition MAXIMUM_TIMEOUT : Z := 300 * 1000000000.
Definition MAXIMUM_CONNECTIONS : nat := Z.to_nat 65535.
Definition MAXIMUM_QUEUE_CAPACITY : nat := 4096.
Definition MAXIMUM_ANNOUNCED_JOBS : nat := 16.

Inductive EdgeConfigError : Type :=
| InvalidCapacity (field : string) (actual maximum : nat)
| EdgeInvalidTimeout (field : string)
| FrameTimeoutExceedsIdle
| EdgeRateLimit (e : RateLimitError).

Record ConnectionLimits : Type := mkConnectionLimits {
  cl_maximum_connections : nat;
  cl_outbound_queue_capacity : nat;
  cl_backend_queue_capacity : nat;
  cl_maximum_announced_jobs : nat
}.

Definition validate_capacity (field : string) (actual maximum : nat) : result unit EdgeConfigError :=
  if negb ((1 <=? actual) && (actual <=? maximum))%nat then Err (InvalidCapacity field actual maximum) else Ok tt.

Definition ConnectionLimits_new (maximum_connections outbound_queue_capacity backend_queue_capacity
    maximum_announced_jobs : nat) : result ConnectionLimits EdgeConfigError :=
  let? _ := validate_capacity "maximum_connections" maximum_connections MAXIMUM_CONNECTIONS in
  let? _ := validate_capacity "outbound_queue_capacity" outbound_queue_capacity MAXIMUM_QUEUE_CAPACITY in
  let? _ := validate_capacity "backend_queue_capacity" backend_queue_capacity MAXIMUM_QUEUE_CAPACITY in
  let? _ := validate_capacity "maximum_announced_jobs" maximum_announced_jobs MAXIMUM_ANNOUNCED_JOBS in
  Ok (mkConnectionLimits maximum_connections outbound_queue_capacity backend_queue_capacity maximum_announced_jobs).

Record EdgeConfig : Type := mkEdgeConfig {
  ec_limits : ConnectionLimits;
  ec_request_rate : RateLimit;
  ec_idle_timeout : Z;
  ec_frame_timeout : Z;
  ec_write_timeout : Z;
  ec_authorization_timeout : Z;
  ec_submission_timeout : Z
}.

Definition validate_edge_timeout (field : string) (timeout : Z) : result unit EdgeConfigError :=
  if (timeout =? 0) || (MAXIMUM_TIMEOUT <? timeout) then Err (EdgeInvalidTimeout field) else Ok tt.

Definition EdgeConfig_new (limits : ConnectionLimits) (request_rate : RateLimit)
    (idle_timeout frame_timeout write_timeout authorization_timeout submission_timeout : Z)
    : result EdgeConfig EdgeConfigError :=
  let? _ := validate_edge_timeout "idle_timeout" idle_timeout in
  let? _ := validate_edge_timeout "frame_timeout" frame_timeout in
  let? _ := validate_edge_timeout "write_timeout" write_timeout in
  let? _ := validate_edge_timeout "authorization_timeout" authorization_timeout in
  let? _ := validate_edge_timeout "submission_timeout" submission_timeout in
  if idle_timeout <? frame_timeout then Err FrameTimeoutExceedsIdle else
  Ok (mkEdgeConfig limits request_rate idle_timeout frame_timeout write_timeout authorization_timeout
        submission_timeout).

(** ** Errors a miner may see *)

Inductive MinerErrorCode : Type :=
| CodeOther | CodeStaleJob | CodeDuplicateShare | CodeLowDifficulty | CodeUnauthorized | CodeNotSubscribed.

Definition MinerErrorCode_as_i32 (self : MinerErrorCode) : Z :=
  match self with
  | CodeOther => 20 | CodeStaleJob => 21 | CodeDuplicateShare => 22
  | CodeLowDifficulty => 23 | CodeUnauthorized => 24 | CodeNotSubscribed => 25
  end.

Record MinerError : Type := mkMinerError {
  me_code : MinerErrorCode;
  me_message : string;
  me_close_connection : bool
}.

Definition message_for (self : MinerError) (id : Zip301Id) : Zip301ServerMessage :=
  ErrorReply id (MinerErrorCode_as_i32 (me_code self)) (me_message self).

Definition from_session (error : SessionError) : MinerError :=
  match error with
  | UnexpectedState _ Connected => mkMinerError CodeNotSubscribed "not subscribed" false
  | UnexpectedState _ Session.Subscribed => mkMinerError CodeUnauthorized "unauthorized" false
  | LoginMismatch | IdentitySwitch | MissingIdentity => mkMinerError CodeUnauthorized "unauthorized" false
  | JobNotAnnounced _ | HeaderTimeMismatch _ | SessionRegistry (UnknownJob _)
  | SessionRegistry (Jobs.StaleJob _) | SessionRegistry NotSynchronized =>
      mkMinerError CodeStaleJob "stale job" false
  | SessionRegistry _ | SessionNonce _ | SessionAssignment _ | RegistryAssignmentMismatch _
  | AnnouncedJobConflict _ | AnnouncedJobCapacity _ | MissingNoncePrefix | NonceProfileMismatch
  | UnexpectedState _ _ | NilSessionId | NilIdentity | InvalidCanonicalLogin | InvalidAnnouncedJobLimit =>
      mkMinerError CodeOther "invalid request" true
  end.

Definition from_backend (code : BackendErrorCode) : MinerError :=
  match code with
  | Backend.StaleJob => mkMinerError CodeStaleJob "stale job" false
  | LowDifficulty => mkMinerError CodeLowDifficulty "low difficulty share" false
  | AttributionConflict => mkMinerError CodeDuplicateShare "duplicate share" false
  | InvalidRequest | InvalidEquihash | TargetOutOfRange => mkMinerError CodeOther "invalid share" false
  | Backend.Overloaded | BackendUnhealthy => mkMinerError CodeOther "service unavailable" true
  | RecoveryDeferred => mkMinerError CodeOther "service temporarily unavailable" false
  end.

(** ** Telemetry *)

Inductive ShareOutcome : Type := OutcomeAccepted | OutcomeStale | OutcomeInvalid | OutcomeDuplicate.

(** The calls made on a [MinerTelemetrySink]. *)
Inductive TelemetryCall : Type :=
| WorkerConnected (worker : AuthenticatedWorker)
| WorkerDisconnected (worker : AuthenticatedWorker)
| ShareRecorded (worker : AuthenticatedWorker) (outcome : ShareOutcome).

Definition share_outcome_for_backend (code : BackendErrorCode) : option ShareOutcome :=
  match code with
  | Backend.StaleJob => Some OutcomeStale
  | AttributionConflict => Some OutcomeDuplicate
  | InvalidRequest | LowDifficulty | InvalidEquihash | TargetOutOfRange => Some OutcomeInvalid
  | Backend.Overloaded | BackendUnhealthy | RecoveryDeferred => None
  end.

Definition share_outcome_for_session (error : SessionError) : option ShareOutcome :=
  match me_code (from_session error) with
  | CodeStaleJob => Some OutcomeStale
  | CodeDuplicateShare => Some OutcomeDuplicate
  | CodeLowDifficulty | CodeOther => Some OutcomeInvalid
  | CodeUnauthorized | CodeNotSubscribed => None
  end.

(** ** The outcome of a submission *)

Inductive ShareRouterError : Type :=
| BackendNotLive
| ShareConnectionMismatch
| ShareOverloaded
| ReplayRequiresProjection (receipt : ShareReceipt)
| ShareUnavailable
| JobStreamUnusable
| EventConsumerUnusable
| BackendHealthDeadline
| ShareRejected (code : BackendErrorCode)
| TaskFailed.

Definition from_client (error : ClientError) : ShareRouterError :=
  match error with
  | ClientBackendRejected code _ => ShareRejected code
  | ClientHistoricalReplayRequiresProjection receipt => ReplayRequiresProjection receipt
  | _ => ShareUnavailable
  end.

Definition error_is_terminal (self : ShareRouterError) : bool :=
  match self with
  | ShareUnavailable | JobStreamUnusable | EventConsumerUnusable | TaskFailed | ShareConnectionMismatch
  | BackendHealthDeadline => true
  | ShareRejected BackendUnhealthy => true
  | _ => false
  end.
