(* ===== verification/Connection.v ===== *)
(** The per-connection ZIP-301 actor (crates/wcash-pool-edge/src/connection.rs): one miner session
    with its targets, bounded outbound queue, completion tickets and telemetry.  The generation
    router is an interface; the order in which a hash map is visited is a parameter. *)

From Stdlib Require Import ZArith Lia.
From stdpp Require Import prelude gmap sorting strings.
From S2P Require Import Prelude Wire Target Limbs Vardiff Nonce LargestRemainder RateLimit Backend Stream Framing Hex Zip301 Jobs JobsInv JobsWorld JobsLife JobsProps Session BackendClient Router Edge.
Open Scope Z_scope.

(** ** Data *)

Record MiningPolicy : Type := mkMiningPolicy {
  mp_vardiff : VardiffConfig;
  mp_initial_target : ShareTarget
}.

Record AuthenticationTicket : Type := mkAuthenticationTicket {
  at_session_id : Uuid;
  at_ticket : Z;
  at_worker : string;
  at_password : string
}.

Inductive AuthenticationError : Type := AuthDenied | AuthUnavailable.

Record AuthenticationGrant : Type := mkAuthenticationGrant {
  ag_worker : AuthenticatedWorker;
  ag_credential_id : Uuid
}.

Definition AuthenticationGrant_new (worker : AuthenticatedWorker) (credential_id : Uuid)
    : result AuthenticationGrant AuthenticationError :=
  if Uuid_is_nil credential_id then Err AuthUnavailable else Ok (mkAuthenticationGrant worker credential_id).

Record ShareTicket : Type := mkShareTicket {
  sk_session_id : Uuid;
  sk_ticket : Z
}.

Record PendingShare : Type := mkPendingShare {
  pn_ticket : ShareTicket;
  pn_context : SubmissionContext
}.

Inductive ConnectionAction : Type :=
| Authenticate (ticket : AuthenticationTicket)
| SubmitShare (share : PendingShare).

(** [Zip301IdIndex(usize)] is the position itself. *)
Record PendingShareState : Type := mkPendingShareState {
  ps_response_id : option nat;
  ps_target : TargetBinding;
  ps_admitted_at_ms : Z;
  ps_vardiff_sample : option bool;
  ps_winner_recovery : bool;
  ps_expected_job_id : list Z;
  ps_expected_share_id : list Z;
  ps_expected_attribution_id : list Z
}.

Definition matches_receipt (self : PendingShareState) (receipt : ShareReceipt) : bool :=
  bool_decide (as_bytes (sr_job_id receipt) = ps_expected_job_id self)
  && bool_decide (as_bytes (sr_share_id receipt) = ps_expected_share_id self)
  && bool_decide (as_bytes (sr_attribution_id receipt) = ps_expected_attribution_id self).

(** [pending.vardiff_sample = Some(sample); pending.response_id.take()]. *)
Definition completed_with (sample : bool) (self : PendingShareState) : PendingShareState :=
  mkPendingShareState None (ps_target self) (ps_admitted_at_ms self) (Some sample) (ps_winner_recovery self)
    (ps_expected_job_id self) (ps_expected_share_id self) (ps_expected_attribution_id self).

Definition counts_toward_vardiff (replayed : bool) : bool := negb replayed.

Record SubmittedWork : Type := mkSubmittedWork {
  sw_worker : string;
  sw_job_id : Hex32;
  sw_time : Hex4;
  sw_nonce_2 : NonceSuffix;
  sw_solution : Hex1344
}.

Inductive ConnectionActorError : Type :=
| ActorClosed
| OutboundQueueFull (maximum : nat)
| ResponseIdCapacity
| NoPendingAuthorization
| CompletionTicketMismatch
| TicketExhausted
| MissingAssignment (id : JobId)
| ActorProtocol (e : ProtocolError)
| ActorSession (e : SessionError)
| ActorRouter (e : JobRouterError)
| ActorAssignment (e : JobAssignmentError)
| ActorVardiff (e : VardiffError).

Record ConnectionActor : Type := mkConnectionActor {
  ca_config : EdgeConfig;
  ca_policy : MiningPolicy;
  ca_session : MiningSession;
  ca_rate_limiter : RequestRateLimiter;
  ca_vardiff : option VardiffController;
  ca_assignments : gmap JobId TargetBinding;
  ca_advertised_lineage : gset JobId;
  ca_outbound : list Zip301ServerMessage;
  ca_response_ids : list (option Zip301Id);
  ca_pending_authorization : option (Z * nat);
  ca_authentication_grant : option AuthenticationGrant;
  ca_pending_shares : gmap Z PendingShareState;
  ca_timing_order : list Z;
  ca_next_ticket : Z;
  ca_telemetry_connected : bool;
  ca_closed : bool
}.

Definition ca_set_session (x : MiningSession) (a : ConnectionActor) : ConnectionActor :=
  mkConnectionActor (ca_config a) (ca_policy a) x (ca_rate_limiter a) (ca_vardiff a) (ca_assignments a)
    (ca_advertised_lineage a) (ca_outbound a) (ca_response_ids a) (ca_pending_authorization a)
    (ca_authentication_grant a) (ca_pending_shares a) (ca_timing_order a) (ca_next_ticket a)
    (ca_telemetry_connected a) (ca_closed a).
Definition ca_set_rate_limiter (x : RequestRateLimiter) (a : ConnectionActor) : ConnectionActor :=
  mkConnectionActor (ca_config a) (ca_policy a) (ca_session a) x (ca_vardiff a) (ca_assignments a)
    (ca_advertised_lineage a) (ca_outbound a) (ca_response_ids a) (ca_pending_authorization a)
    (ca_authentication_grant a) (ca_pending_shares a) (ca_timing_order a) (ca_next_ticket a)
    (ca_telemetry_connected a) (ca_closed a).
Definition ca_set_vardiff (x : option VardiffController) (a : ConnectionActor) : ConnectionActor :=
  mkConnectionActor (ca_config a) (ca_policy a) (ca_session a) (ca_rate_limiter a) x (ca_assignments a)
    (ca_advertised_lineage a) (ca_outbound a) (ca_response_ids a) (ca_pending_authorization a)
    (ca_authentication_grant a) (ca_pending_shares a) (ca_timing_order a) (ca_next_ticket a)
    (ca_telemetry_connected a) (ca_closed a).
Definition ca_set_assignments (x : gmap JobId TargetBinding) (a : ConnectionActor) : ConnectionActor :=
  mkConnectionActor (ca_config a) (ca_policy a) (ca_session a) (ca_rate_limiter a) (ca_vardiff a) x
    (ca_advertised_lineage a) (ca_outbound a) (ca_response_ids a) (ca_pending_authorization a)
    (ca_authentication_grant a) (ca_pending_shares a) (ca_timing_order a) (ca_next_ticket a)
    (ca_telemetry_connected a) (ca_closed a).
Definition ca_set_advertised_lineage (x : gset JobId) (a : ConnectionActor) : ConnectionActor :=
  mkConnectionActor (ca_config a) (ca_policy a) (ca_session a) (ca_rate_limiter a) (ca_vardiff a)
    (ca_assignments a) x (ca_outbound a) (ca_response_ids a) (ca_pending_authorization a)
    (ca_authentication_grant a) (ca_pending_shares a) (ca_timing_order a) (ca_next_ticket a)
    (ca_telemetry_connected a) (ca_closed a).
Definition ca_set_outbound (x : list Zip301ServerMessage) (a : ConnectionActor) : ConnectionActor :=
  mkConnectionActor (ca_config a) (ca_policy a) (ca_session a) (ca_rate_limiter a) (ca_vardiff a)
    (ca_assignments a) (ca_advertised_lineage a) x (ca_response_ids a) (ca_pending_authorization a)
    (ca_authentication_grant a) (ca_pending_shares a) (ca_timing_order a) (ca_next_ticket a)
    (ca_telemetry_connected a) (ca_closed a).
Definition ca_set_response_ids (x : list (option Zip301Id)) (a : ConnectionActor) : ConnectionActor :=
  mkConnectionActor (ca_config a) (ca_policy a) (ca_session a) (ca_rate_limiter a) (ca_vardiff a)
    (ca_assignments a) (ca_advertised_lineage a) (ca_outbound a) x (ca_pending_authorization a)
    (ca_authentication_grant a) (ca_pending_shares a) (ca_timing_order a) (ca_next_ticket a)
    (ca_telemetry_connected a) (ca_closed a).
Definition ca_set_pending_authorization (x : option (Z * nat)) (a : ConnectionActor) : ConnectionActor :=
  mkConnectionActor (ca_config a) (ca_policy a) (ca_session a) (ca_rate_limiter a) (ca_vardiff a)
    (ca_assignments a) (ca_advertised_lineage a) (ca_outbound a) (ca_response_ids a) x
    (ca_authentication_grant a) (ca_pending_shares a) (ca_timing_order a) (ca_next_ticket a)
    (ca_telemetry_connected a) (ca_closed a).
Definition ca_set_authentication_grant (x : option AuthenticationGrant) (a : ConnectionActor) : ConnectionActor :=
  mkConnectionActor (ca_config a) (ca_policy a) (ca_session a) (ca_rate_limiter a) (ca_vardiff a)
    (ca_assignments a) (ca_advertised_lineage a) (ca_outbound a) (ca_response_ids a) (ca_pending_authorization
    a) x (ca_pending_shares a) (ca_timing_order a) (ca_next_ticket a) (ca_telemetry_connected a) (ca_closed
    a).
Definition ca_set_pending_shares (x : gmap Z PendingShareState) (a : ConnectionActor) : ConnectionActor :=
  mkConnectionActor (ca_config a) (ca_policy a) (ca_session a) (ca_rate_limiter a) (ca_vardiff a)
    (ca_assignments a) (ca_advertised_lineage a) (ca_outbound a) (ca_response_ids a) (ca_pending_authorization
    a) (ca_authentication_grant a) x (ca_timing_order a) (ca_next_ticket a) (ca_telemetry_connected a)
    (ca_closed a).
Definition ca_set_timing_order (x : list Z) (a : ConnectionActor) : ConnectionActor :=
  mkConnectionActor (ca_config a) (ca_policy a) (ca_session a) (ca_rate_limiter a) (ca_vardiff a)
    (ca_assignments a) (ca_advertised_lineage a) (ca_outbound a) (ca_response_ids a) (ca_pending_authorization
    a) (ca_authentication_grant a) (ca_pending_shares a) x (ca_next_ticket a) (ca_telemetry_connected a)
    (ca_closed a).
Definition ca_set_next_ticket (x : Z) (a : ConnectionActor) : ConnectionActor :=
  mkConnectionActor (ca_config a) (ca_policy a) (ca_session a) (ca_rate_limiter a) (ca_vardiff a)
    (ca_assignments a) (ca_advertised_lineage a) (ca_outbound a) (ca_response_ids a) (ca_pending_authorization
    a) (ca_authentication_grant a) (ca_pending_shares a) (ca_timing_order a) x (ca_telemetry_connected a)
    (ca_closed a).
Definition ca_set_telemetry_connected (x : bool) (a : ConnectionActor) : ConnectionActor :=
  mkConnectionActor (ca_config a) (ca_policy a) (ca_session a) (ca_rate_limiter a) (ca_vardiff a)
    (ca_assignments a) (ca_advertised_lineage a) (ca_outbound a) (ca_response_ids a) (ca_pending_authorization
    a) (ca_authentication_grant a) (ca_pending_shares a) (ca_timing_order a) (ca_next_ticket a) x (ca_closed
    a).

(** ** The router the actor sees *)

(** What the actor calls on a [JobRouter]; a call may find the router changed by other threads.
    [rv_release] is the drop of a context with its guard. *)
Class RouterView (R : Type) : Type := {
  rv_current_generation : M R JobRouterError (option BackendGeneration);
  rv_retained_job_ids : M R JobRouterError (list JobId);
  rv_winner_recovery_job_ids : M R JobRouterError (list JobId);
  rv_prepare_submission : MiningSession -> string -> JobId -> Hex4 -> NonceSuffix -> Hex1344 ->
    M R JobRouterError SubmissionContext;
  rv_release : SubmissionContext -> R -> R
}.

(** The order in which [HashMap::retain] visits the assignments. *)
Class VisitOrder : Type := {
  visit : gmap JobId TargetBinding -> list JobId;
  visit_all : forall m, visit m ≡ₚ (map_to_list m).*1
}.

(** An actor with what it shares: the router, the nonce allocator and the telemetry sink. *)
Record Connection (R : Type) : Type := mkConnection {
  cn_actor : ConnectionActor;
  cn_router : R;
  cn_allocator : NoncePrefixAllocator;
  cn_telemetry : list TelemetryCall
}.
Arguments mkConnection {R} _ _ _ _.
Arguments cn_actor {R} _.
Arguments cn_router {R} _.
Arguments cn_allocator {R} _.
Arguments cn_telemetry {R} _.

Section Actor.
Context {R : Type} {view : RouterView R} {order : VisitOrder}.
Context (sha256 : list Z -> list Z).

Definition CM (A : Type) : Type := M (Connection R) ConnectionActorError A.

Definition cn_set_actor (a : ConnectionActor) (c : Connection R) : Connection R :=
  mkConnection a (cn_router c) (cn_allocator c) (cn_telemetry c).
Definition on_actor (f : ConnectionActor -> ConnectionActor) (c : Connection R) : Connection R :=
  cn_set_actor (f (cn_actor c)) c.
Definition update_actor (f : ConnectionActor -> ConnectionActor) : CM unit := st_modify (on_actor f).
Definition record_call (call : TelemetryCall) (c : Connection R) : Connection R :=
  mkConnection (cn_actor c) (cn_router c) (cn_allocator c) (cn_telemetry c ++ [call]).

Definition get_actor : CM ConnectionActor := fun c => (c, Ok (cn_actor c)).

(** A call on the router, on the session and on the difficulty controller. *)
Definition ask_router {A} (m : M R JobRouterError A) : M (Connection R) JobRouterError A :=
  fun c => let '(r, x) := m (cn_router c) in (mkConnection (cn_actor c) r (cn_allocator c) (cn_telemetry c), x).
Definition on_router {A} (m : M R JobRouterError A) : CM A :=
  fun c => let '(c, x) := ask_router m c in (c, map_err ActorRouter x).
Definition on_session {A} (m : SM A) : CM A :=
  fun c => let '(s, x) := m (ca_session (cn_actor c)) in (on_actor (ca_set_session s) c, map_err ActorSession x).
Definition on_vardiff {A} (m : VM A) (v : VardiffController) : CM A :=
  fun c => let '(v, x) := m v in (on_actor (ca_set_vardiff (Some v)) c, map_err ActorVardiff x).

Definition outbound_capacity (a : ConnectionActor) : nat := cl_outbound_queue_capacity (ec_limits (ca_config a)).

(** ** Closing *)

Definition closed_actor (a : ConnectionActor) : ConnectionActor :=
  mkConnectionActor (ca_config a) (ca_policy a) (close (ca_session a)) (ca_rate_limiter a) (ca_vardiff a)
    ∅ ∅ (ca_outbound a) [] None None ∅ [] (ca_next_ticket a) false true.

Definition conn_close (c : Connection R) : Connection R :=
  let a := cn_actor c in
  let c := if ca_telemetry_connected a then
             match ms_worker (ca_session a) with
             | Some worker => record_call (WorkerDisconnected worker) c
             | None => c
             end
           else c in
  on_actor closed_actor c.

Definition closing {A} (error : ConnectionActorError) : CM A := do* st_modify conn_close in st_throw error.

Definition require_open : CM unit :=
  let* self := get_actor in if ca_closed self then st_throw ActorClosed else st_ret tt.

Definition record_share_outcome (outcome : ShareOutcome) : CM unit :=
  st_modify (fun c => match ms_worker (ca_session (cn_actor c)) with
                      | Some worker => record_call (ShareRecorded worker outcome) c
                      | None => c
                      end).

(** ** Queues and tickets *)

(** The sum is below [usize::MAX]: both terms are bounded by the queue. *)
Definition ensure_outbound_capacity (additional : nat) : CM unit :=
  let* self := get_actor in
  let maximum := outbound_capacity self in
  if (maximum <? length (ca_outbound self) + additional)%nat then closing (OutboundQueueFull maximum) else st_ret tt.

Definition push_outbound (message : Zip301ServerMessage) (a : ConnectionActor) : ConnectionActor :=
  ca_set_outbound (ca_outbound a ++ [message]) a.

Definition queue (message : Zip301ServerMessage) : CM unit :=
  do* ensure_outbound_capacity 1 in update_actor (push_outbound message).

Definition queue_error (id : Zip301Id) (error : MinerError) : CM unit :=
  do* queue (message_for error id) in
  if me_close_connection error then st_modify conn_close else st_ret tt.

Definition queue_session_error (id : Zip301Id) (error : SessionError) : CM unit :=
  queue_error id (from_session error).

(** The first free slot, or one more slot. *)
Definition store_response_id (id : Zip301Id) : CM nat :=
  let* self := get_actor in
  let slots := ca_response_ids self in
  match list_find (fun slot => slot = None) slots with
  | Some (index, _) => do* update_actor (ca_set_response_ids (<[index := Some id]> slots)) in st_ret index
  | None =>
      if (outbound_capacity self <=? length slots)%nat then closing ResponseIdCapacity else
      do* update_actor (ca_set_response_ids (slots ++ [Some id])) in st_ret (length slots)
  end.

Definition take_response_id (index : nat) : CM Zip301Id :=
  let* self := get_actor in
  match mjoin (ca_response_ids self !! index) with
  | Some id => do* update_actor (ca_set_response_ids (<[index := None]> (ca_response_ids self))) in st_ret id
  | None => st_throw CompletionTicketMismatch
  end.

Definition allocate_ticket : CM Z :=
  let* self := get_actor in
  let ticket := ca_next_ticket self in
  let* next := st_lift (ok_or (checked_add U64_MAX (ca_next_ticket self) 1) TicketExhausted) in
  do* update_actor (ca_set_next_ticket next) in
  st_ret ticket.

(** ** Work *)

Definition current_assigned_target : CM (option ShareTarget) :=
  let* generation := on_router rv_current_generation in
  let* self := get_actor in
  st_ret (tb_target <$> (generation ≫= fun generation => ca_assignments self !! bg_id generation)).

(** The closure of [HashMap::retain]: an assignment that is not admissible is retired. *)
Definition retain_assignment (admissible : list JobId) (a : ConnectionActor) (id : JobId) : ConnectionActor :=
  if decide (id ∈ admissible) then a
  else ca_set_assignments (delete id (ca_assignments a)) (ca_set_session (retire_announced_job id (ca_session a)) a).

Definition retain_assignments (admissible recovery_ids : list JobId) (a : ConnectionActor) : ConnectionActor :=
  let a := foldl (retain_assignment admissible) a (visit (ca_assignments a)) in
  let a := ca_set_session (retain_winner_recovery_jobs recovery_ids (ca_session a)) a in
  ca_set_advertised_lineage (filter (fun id => is_Some (ca_assignments a !! id)) (ca_advertised_lineage a)) a.

Definition reconcile_jobs : CM unit :=
  do* require_open in
  let* admissible := on_router rv_retained_job_ids in
  let* recovery_ids := on_router rv_winner_recovery_job_ids in
  update_actor (retain_assignments admissible recovery_ids).

(** The binding of a generation: the one assigned before, or the controller's. *)
Definition binding_for (generation : BackendGeneration) : CM TargetBinding :=
  let* self := get_actor in
  match ca_assignments self !! bg_id generation with
  | Some binding => st_ret binding
  | None =>
      match ca_vardiff self with
      | Some vardiff =>
          on_vardiff (update_network_targets (bg_wcash_network_target generation)
                        (bg_zcash_network_target generation)) vardiff
      | None =>
          let* vardiff := st_lift (map_err ActorVardiff
            (VardiffController_new (mp_vardiff (ca_policy self)) (bg_wcash_network_target generation)
               (bg_zcash_network_target generation) (mp_initial_target (ca_policy self)) 1)) in
          do* update_actor (ca_set_vardiff (Some vardiff)) in
          st_ret (vc_binding vardiff)
      end
  end.

Definition notify_for (generation : BackendGeneration) (clean_jobs : bool) : Zip301ServerMessage :=
  Notify (mkZip301Notify (FixedHex_new (bg_id generation)) (jd_header_input (bg_descriptor generation)) clean_jobs).

Definition announce_generation (generation : BackendGeneration) (clean_jobs : bool) : CM unit :=
  let* self := get_actor in
  if negb (bool_decide (ms_state (ca_session self) = Authorized)) then st_ret tt else
  do* reconcile_jobs in
  let* self := get_actor in
  let clean_jobs := clean_jobs || bool_decide (ca_advertised_lineage self = ∅) in
  do* (if clean_jobs then update_actor (ca_set_advertised_lineage ∅) else st_ret tt) in
  if negb clean_jobs && bool_decide (is_Some (ca_assignments self !! bg_id generation)) then st_ret tt else
  let* binding := binding_for generation in
  let* assigned := (if clean_jobs then st_ret None else current_assigned_target) in
  let send_target := clean_jobs || negb (bool_decide (assigned = Some (tb_target binding))) in
  do* ensure_outbound_capacity ((if send_target then 1 else 0) + 1) in
  let* assignment := st_lift (map_err ActorAssignment (JobAssignment_new generation binding)) in
  do* on_session (announce_job assignment) in
  do* update_actor (fun a => ca_set_assignments (<[bg_id generation := binding]> (ca_assignments a)) a) in
  do* update_actor (fun a => ca_set_advertised_lineage ({[bg_id generation]} ∪ ca_advertised_lineage a) a) in
  do* (if send_target then update_actor (push_outbound (SetTarget (ShareTarget_to_zip301 (tb_target binding))))
       else st_ret tt) in
  update_actor (push_outbound (notify_for generation clean_jobs)).

Definition synchronize_current_job : CM unit :=
  let* current := on_router rv_current_generation in
  match current with
  | Some generation => announce_generation generation true
  | None => st_ret tt
  end.

(** ** Difficulty samples *)

(** The loop over the front of the timing queue. *)
Fixpoint drain_timing (order : list Z) : CM unit :=
  match order with
  | [] => st_ret tt
  | ticket :: rest =>
      let* self := get_actor in
      match ca_pending_shares self !! ticket with
      | None => st_ret tt
      | Some pending =>
          match ps_vardiff_sample pending with
          | None => st_ret tt
          | Some vardiff_sample =>
              do* update_actor (ca_set_pending_shares (delete ticket (ca_pending_shares self))) in
              do* update_actor (ca_set_timing_order rest) in
              do* (match vardiff_sample, ca_vardiff self with
                   | true, Some vardiff =>
                       do* on_vardiff (observe_share (ps_target pending) (ps_admitted_at_ms pending)) vardiff in st_ret tt
                   | _, _ => st_ret tt
                   end) in
              drain_timing rest
          end
      end
  end.

Definition drain_completed_timing : CM unit :=
  let* self := get_actor in drain_timing (ca_timing_order self).

(** ** Requests *)

Definition begin_authorization (id : Zip301Id) (worker password : string) : CM (option ConnectionAction) :=
  let* self := get_actor in
  if bool_decide (is_Some (ca_pending_authorization self)) then
    do* queue_error id (mkMinerError CodeOther "authorization already pending" true) in st_ret None
  else if negb (bool_decide (ms_state (ca_session self) = Session.Subscribed)) then
    do* queue_error id (from_session (UnexpectedState Session.Subscribed (ms_state (ca_session self)))) in st_ret None
  else
    let* response_id := store_response_id id in
    let* ticket := allocate_ticket in
    do* update_actor (ca_set_pending_authorization (Some (ticket, response_id))) in
    st_ret (Some (Authenticate (mkAuthenticationTicket (ms_id (ca_session self)) ticket worker password))).

(** [m?] while a context is held: a failure drops it. *)
Definition holding {A} (context : SubmissionContext) (m : CM A) : CM A :=
  fun c => match m c with
           | (c, Ok a) => (c, Ok a)
           | (c, Err e) => (mkConnection (cn_actor c) (rv_release context (cn_router c)) (cn_allocator c) (cn_telemetry c), Err e)
           end.

(** The bookkeeping of a prepared share. *)
Definition track_share (id : Zip301Id) (job_id : JobId) (context : SubmissionContext) (now_ms : Z)
    : CM ShareTicket :=
  let* self := get_actor in
  let* target := st_lift (ok_or (announced_target_binding (ca_session self) job_id) (MissingAssignment job_id)) in
  let winner_recovery := is_winner_recovery (sc_admission context) in
  if negb winner_recovery && negb (bool_decide (ca_assignments self !! job_id = Some target))
  then st_throw (MissingAssignment job_id) else
  let expected_job_id := ga_job_id (sc_admission context) in
  let expected_share_id := as_bytes (canonical_share_id sha256 (sc_job_id context) (sc_time context)
                                       (sc_nonce context) (sc_solution context)) in
  let* attribution := st_lift (map_err ActorProtocol
    (canonical_attribution_id sha256 (sc_identity context) (sc_target_le context))) in
  let* response_id := store_response_id id in
  let* ticket := allocate_ticket in
  do* update_actor (fun a => ca_set_pending_shares
       (<[ticket := mkPendingShareState (Some response_id) target now_ms None winner_recovery expected_job_id
                      expected_share_id (as_bytes attribution)]> (ca_pending_shares a)) a) in
  do* update_actor (fun a => ca_set_timing_order (ca_timing_order a ++ [ticket]) a) in
  st_ret (mkShareTicket (ms_id (ca_session self)) ticket).

Definition begin_submission (id : Zip301Id) (submitted : SubmittedWork) (now_ms : Z)
    : CM (option ConnectionAction) :=
  let* self := get_actor in
  if (outbound_capacity self <=? size (ca_pending_shares self))%nat then
    do* queue_error id (mkMinerError CodeOther "too many pending shares" true) in st_ret None
  else
  match JobId_new (as_bytes (sw_job_id submitted)) with
  | Err _ =>
      do* record_share_outcome OutcomeStale in
      do* queue_error id (mkMinerError CodeStaleJob "stale job" false) in
      st_ret None
  | Ok job_id => fun c =>
      match ask_router (rv_prepare_submission (ca_session self) (sw_worker submitted) job_id (sw_time submitted)
                          (sw_nonce_2 submitted) (sw_solution submitted)) c with
      | (c, Err (RouterSession error)) =>
          (do* (match share_outcome_for_session error with
                | Some outcome => record_share_outcome outcome
                | None => st_ret tt
                end) in
           do* queue_session_error id error in
           st_ret None) c
      | (c, Err error) => (c, Err (ActorRouter error))
      | (c, Ok context) =>
          (let* ticket := holding context (track_share id job_id context now_ms) in
           st_ret (Some (SubmitShare (mkPendingShare ticket context)))) c
      end
  end.

(** [self.session.subscribe(&self.nonce_allocator)]. *)
Definition conn_subscribe (c : Connection R) : Connection R * result NoncePrefix SessionError :=
  let '(s, allocator, x) := Session.subscribe (ca_session (cn_actor c), cn_allocator c) in
  (mkConnection (ca_set_session s (cn_actor c)) (cn_router c) allocator (cn_telemetry c), x).

Section Requests.
Context {json : JsonOps}.

Definition admit_rate (now_ms : Z) : CM bool :=
  fun c => let '(limiter, x) := admit_request now_ms (ca_rate_limiter (cn_actor c)) in
           (on_actor (ca_set_rate_limiter limiter) c, Ok (is_ok x)).

Definition handle_request (request : Zip301Request) (now_ms : Z) : CM (option ConnectionAction) :=
  do* require_open in
  let* admitted := admit_rate now_ms in
  if negb admitted then
    do* queue_error (Zip301Request_id request) (mkMinerError CodeOther "rate limit exceeded" true) in st_ret None
  else
  match request with
  | Subscribe id _ => fun c =>
      match conn_subscribe c with
      | (c, Ok nonce_1) => (do* queue (Zip301.Subscribed id nonce_1) in st_ret None) c
      | (c, Err error) => (do* queue_session_error id error in st_ret None) c
      end
  | Authorize id worker password => begin_authorization id worker password
  | SuggestTarget id _ =>
      let* self := get_actor in
      if negb (bool_decide (ms_state (ca_session self) = Authorized)) then
        do* queue_error id (if bool_decide (ms_state (ca_session self) = Connected)
                            then mkMinerError CodeNotSubscribed "not subscribed" false
                            else mkMinerError CodeUnauthorized "unauthorized" false) in
        st_ret None
      else
        let* assigned := current_assigned_target in
        do* queue (SetTarget (ShareTarget_to_zip301 (default (mp_initial_target (ca_policy self)) assigned))) in
        st_ret None
  | ExtranonceSubscribe id =>
      do* queue_error id (mkMinerError CodeOther "extranonce subscription unsupported" false) in st_ret None
  | MultiVersion _ _ => st_ret None
  | Submit id worker job_id time nonce_2 solution =>
      begin_submission id (mkSubmittedWork worker job_id time nonce_2 solution) now_ms
  end.
End Requests.

(** ** Completions *)

Definition complete_authorization_of (ticket : AuthenticationTicket)
    (outcome : result AuthenticationGrant AuthenticationError) : CM unit :=
  do* require_open in
  let* self := get_actor in
  match ca_pending_authorization self with
  | None => st_throw NoPendingAuthorization
  | Some (expected, index) =>
      do* update_actor (ca_set_pending_authorization None) in
      if negb (bool_decide (at_session_id ticket = ms_id (ca_session self)))
         || negb (bool_decide (at_ticket ticket = expected))
      then closing CompletionTicketMismatch else
      let* response_id := take_response_id index in
      match outcome with
      | Ok grant =>
          if bool_decide (aw_canonical_login (ag_worker grant) = at_worker ticket) then
            do* on_session (complete_authorization (ag_worker grant)) in
            do* update_actor (ca_set_authentication_grant (Some grant)) in
            do* st_modify (record_call (WorkerConnected (ag_worker grant))) in
            do* update_actor (ca_set_telemetry_connected true) in
            do* queue (Boolean response_id true) in
            synchronize_current_job
          else
            do* on_session reject_authorization in
            queue_error response_id (mkMinerError CodeUnauthorized "unauthorized" true)
      | Err AuthDenied =>
          do* on_session reject_authorization in
          queue_error response_id (mkMinerError CodeUnauthorized "unauthorized" true)
      | Err AuthUnavailable =>
          queue_error response_id (mkMinerError CodeOther "service unavailable" true)
      end
  end.

Definition completion_outcome (outcome : result VerifiedShareCommit ShareRouterError) : option ShareOutcome :=
  match outcome with
  | Ok verified => Some (if vs_replayed verified then OutcomeDuplicate else OutcomeAccepted)
  | Err (ShareRejected code) => share_outcome_for_backend code
  | Err (ReplayRequiresProjection _) => Some OutcomeDuplicate
  | Err _ => None
  end.

Definition answer_submission (response_id : Zip301Id) (outcome : result VerifiedShareCommit ShareRouterError) : CM unit :=
  match outcome with
  | Ok _ => queue (Boolean response_id true)
  | Err (ShareRejected code) => queue_error response_id (from_backend code)
  | Err ShareOverloaded => queue_error response_id (mkMinerError CodeOther "service busy" false)
  | Err (ReplayRequiresProjection _) =>
      queue_error response_id (mkMinerError CodeOther "share reconciliation pending" false)
  | Err (ShareUnavailable | JobStreamUnusable | EventConsumerUnusable | TaskFailed | BackendNotLive
        | ShareConnectionMismatch | BackendHealthDeadline) =>
      queue_error response_id (mkMinerError CodeOther "service unavailable" true)
  end.

Definition completion_matches (pending : option PendingShareState)
    (outcome : result VerifiedShareCommit ShareRouterError) : bool :=
  match pending with
  | None => false
  | Some pending =>
      bool_decide (ps_vardiff_sample pending = None)
      && match outcome with Ok commit => matches_receipt pending (vs_receipt commit) | Err _ => true end
  end.

Definition completion_sample (pending : PendingShareState) (outcome : result VerifiedShareCommit ShareRouterError) : bool :=
  match outcome with Ok verified => counts_toward_vardiff (vs_replayed verified) | Err _ => false end
  && negb (ps_winner_recovery pending).

Definition complete_submission (ticket : ShareTicket) (outcome : result VerifiedShareCommit ShareRouterError) : CM unit :=
  do* require_open in
  let* self := get_actor in
  if negb (bool_decide (sk_session_id ticket = ms_id (ca_session self))) then closing CompletionTicketMismatch else
  if negb (completion_matches (ca_pending_shares self !! sk_ticket ticket) outcome) then closing CompletionTicketMismatch else
  match ca_pending_shares self !! sk_ticket ticket with
  | None => closing CompletionTicketMismatch
  | Some pending =>
      let sample := completion_sample pending outcome in
      do* update_actor (ca_set_pending_shares (<[sk_ticket ticket := completed_with sample pending]> (ca_pending_shares self))) in
      match ps_response_id pending with
      | None => closing CompletionTicketMismatch
      | Some response_index =>
          let* response_id := take_response_id response_index in
          do* (match completion_outcome outcome with
               | Some o => record_share_outcome o
               | None => st_ret tt
               end) in
          do* answer_submission response_id outcome in
          let* self := get_actor in
          if ca_closed self then st_ret tt else
          fun c => match drain_completed_timing c with
                   | (c, Ok _) => (c, Ok tt)
                   | (c, Err error) => (conn_close c, Err error)
                   end
      end
  end.

(** ** Job updates, clocks and the transport *)

Definition apply_job_update (job_update : JobUpdate) : CM unit :=
  do* require_open in
  match job_update with
  | Activated generation clean_jobs =>
      let* current := on_router rv_current_generation in
      if bool_decide (bg_id <$> current = Some (bg_id generation)) then announce_generation generation clean_jobs
      else if clean_jobs then update_actor (ca_set_advertised_lineage ∅) else st_ret tt
  | Retired job_id =>
      do* update_actor (fun a => ca_set_assignments (delete job_id (ca_assignments a)) a) in
      do* update_actor (fun a => ca_set_advertised_lineage (ca_advertised_lineage a ∖ {[job_id]}) a) in
      do* update_actor (fun a => ca_set_session (retire_announced_job job_id (ca_session a)) a) in
      let* recovery_ids := on_router rv_winner_recovery_job_ids in
      update_actor (fun a => ca_set_session (retain_winner_recovery_jobs recovery_ids (ca_session a)) a)
  | UpdateSuspended => st_modify conn_close
  end.

Definition tick_vardiff (now_ms : Z) : CM unit :=
  do* require_open in
  let* self := get_actor in
  match ca_vardiff self with
  | Some vardiff => do* on_vardiff (tick now_ms) vardiff in st_ret tt
  | None => st_ret tt
  end.

Definition pop_outbound (c : Connection R) : Connection R * option Zip301ServerMessage :=
  match ca_outbound (cn_actor c) with
  | [] => (c, None)
  | message :: rest => (on_actor (ca_set_outbound rest) c, Some message)
  end.

Section Frames.
Context {json : JsonOps} {hex_ops : HexOps}.
Context (response_to_vec : Zip301Response -> result (list Z) string).
Context (notification_to_vec : Zip301Notification -> result (list Z) string).

Definition pop_outbound_frame : CM (option (list Z)) :=
  fun c => match pop_outbound c with
           | (c, None) => (c, Ok None)
           | (c, Some message) =>
               (c, match encode_zip301_message response_to_vec notification_to_vec message with
                   | Ok frame => Ok (Some frame)
                   | Err e => Err (ActorProtocol e)
                   end)
           end.
End Frames.

Definition transport_failed (c : Connection R) : Connection R := conn_close c.
Definition invalidate_authorization (c : Connection R) : Connection R := conn_close c.
End Actor.

Definition ConnectionActor_new (session_id : Uuid) (config : EdgeConfig) (policy : MiningPolicy) (now_ms : Z)
    : result ConnectionActor ConnectionActorError :=
  let? session := map_err ActorSession (MiningSession_new session_id (cl_maximum_announced_jobs (ec_limits config))) in
  Ok (mkConnectionActor config policy session (RequestRateLimiter_new (ec_request_rate config) now_ms) None ∅ ∅ []
        [] None None ∅ [] 1 false false).
