(* ===== verification/ConnectionRun.v ===== *)
(** What a connection promises (crates/wcash-pool-edge/src/connection.rs): under every history of
    requests, completions and job updates, each request is answered once, a share is acknowledged
    only with the receipt of exactly that share, targets reach the miner before the work they
    govern, and difficulty samples are taken in the order of admission. *)

From Stdlib Require Import ZArith Lia.
From stdpp Require Import prelude gmap sorting strings.
From S2P Require Import Prelude Wire Target Limbs Vardiff Nonce LargestRemainder RateLimit Backend Stream Framing Hex Zip301 Jobs JobsInv JobsWorld JobsLife JobsProps Session BackendClient Router Edge Connection.
Open Scope Z_scope.

(** ** Histories *)

(** The request a message answers, and the request it accepts. *)
Definition reply_id (m : Zip301ServerMessage) : option Zip301Id :=
  match m with
  | Zip301.Subscribed id _ | Boolean id _ | ErrorReply id _ _ => Some id
  | SetTarget _ | Notify _ => None
  end.
Definition accept_id (m : Zip301ServerMessage) : option Zip301Id :=
  match m with Boolean id true => Some id | _ => None end.

(** The target in force, and the target each job was announced under, after some messages. *)
Definition tell (st : option TargetBe * gmap JobId TargetBe) (m : Zip301ServerMessage)
    : option TargetBe * gmap JobId TargetBe :=
  match m with
  | SetTarget t => (Some t, snd st)
  | Notify n => (fst st, match fst st with
                         | Some t => <[as_bytes (zn_job_id n) := t]> (snd st)
                         | None => delete (as_bytes (zn_job_id n)) (snd st)
                         end)
  | _ => st
  end.
Definition told (l : list Zip301ServerMessage) : gmap JobId TargetBe := snd (foldl tell (None, ∅) l).

(** A share handed to the backend. *)
Record Issue : Type := mkIssue {
  is_ticket : Z;
  is_id : Zip301Id;
  is_context : SubmissionContext;
  is_binding : option TargetBinding;
  is_at : Z
}.

Section History.
Context {R : Type} {view : RouterView R} {json : JsonOps}.
Context (sha256 : list Z -> list Z).

(** What may happen to a connection; elsewhere other threads use the router and the allocator. *)
Inductive conn_event : Type :=
| EvRequest (request : Zip301Request) (now_ms : Z)
| EvAuthorized (ticket : AuthenticationTicket) (outcome : result AuthenticationGrant AuthenticationError)
| EvSubmitted (ticket : ShareTicket) (outcome : result VerifiedShareCommit ShareRouterError)
| EvUpdate (job_update : JobUpdate)
| EvTick (now_ms : Z)
| EvReconcile
| EvPop
| EvFailed
| EvElsewhere (router : R) (allocator : NoncePrefixAllocator).

(** A connection with what was asked of it, what was taken from its queue and what it submitted. *)
Record ConnRun : Type := mkConnRun {
  rn_conn : Connection R;
  rn_received : list Zip301Id;
  rn_sent : list Zip301ServerMessage;
  rn_issued : list Issue;
  rn_events : list conn_event
}.

(** A probe for version rolling is not answered, and a target suggestion of an authorised miner is
    answered by a target. *)
Definition expects_reply (a : ConnectionActor) (request : Zip301Request) (now_ms : Z) : bool :=
  match request with
  | MultiVersion _ _ => negb (is_ok (snd (admit_request now_ms (ca_rate_limiter a))))
  | SuggestTarget _ _ => negb (is_ok (snd (admit_request now_ms (ca_rate_limiter a))))
                         || negb (bool_decide (ms_state (ca_session a) = Authorized))
  | _ => true
  end.

(** The stream driver closes the actor on every error. *)
Definition close_on_error {A} (out : Connection R * result A ConnectionActorError) : Connection R * option A :=
  match out with
  | (c, Ok a) => (c, Some a)
  | (c, Err _) => (conn_close c, None)
  end.

Definition issue_of (c : Connection R) (request : Zip301Request) (now_ms : Z)
    (action : option (option ConnectionAction)) : list Issue :=
  match action, request with
  | Some (Some (SubmitShare share)), Submit id _ job_id _ _ _ =>
      [mkIssue (sk_ticket (pn_ticket share)) id (pn_context share)
         (announced_target_binding (ca_session (cn_actor c)) (as_bytes job_id)) now_ms]
  | _, _ => []
  end.

Definition with_conn (c : Connection R) (ev : conn_event) (s : ConnRun) : ConnRun :=
  mkConnRun c (rn_received s) (rn_sent s) (rn_issued s) (rn_events s ++ [ev]).

Definition run_event (order : VisitOrder) (ev : conn_event) (s : ConnRun) : ConnRun :=
  let c := rn_conn s in
  match ev with
  | EvRequest request now_ms =>
      let received := if negb (ca_closed (cn_actor c)) && expects_reply (cn_actor c) request now_ms
                      then [Zip301Request_id request] else [] in
      let '(c', action) := close_on_error (handle_request sha256 request now_ms c) in
      mkConnRun c' (rn_received s ++ received) (rn_sent s) (rn_issued s ++ issue_of c request now_ms action)
        (rn_events s ++ [ev])
  | EvAuthorized ticket outcome =>
      with_conn (fst (close_on_error (complete_authorization_of ticket outcome c))) ev s
  | EvSubmitted ticket outcome => with_conn (fst (close_on_error (complete_submission ticket outcome c))) ev s
  | EvUpdate job_update => with_conn (fst (close_on_error (apply_job_update job_update c))) ev s
  | EvTick now_ms => with_conn (fst (close_on_error (tick_vardiff now_ms c))) ev s
  | EvReconcile => with_conn (fst (close_on_error (reconcile_jobs c))) ev s
  | EvPop =>
      let '(c', message) := pop_outbound c in
      mkConnRun c' (rn_received s) (rn_sent s ++ option_list message) (rn_issued s) (rn_events s ++ [ev])
  | EvFailed => with_conn (transport_failed c) ev s
  | EvElsewhere router allocator => with_conn (mkConnection (cn_actor c) router allocator (cn_telemetry c)) ev s
  end.

Definition run_events (s : ConnRun) (evs : list (VisitOrder * conn_event)) : ConnRun :=
  foldl (fun s ev => run_event (fst ev) (snd ev) s) s evs.

Definition conn_started (s : ConnRun) : Prop :=
  exists session_id config policy now_ms a router allocator,
    ConnectionActor_new session_id config policy now_ms = Ok a /\
    s = mkConnRun (mkConnection a router allocator []) [] [] [] [].

(** ** Laws of the router the actor sees *)

(** A prepared share belongs to the authorised worker and to the target the session assigned. *)
Definition PrepareSound : Prop :=
  forall session login job time suffix solution r r' context,
    rv_prepare_submission session login job time suffix solution r = (r', Ok context) ->
    ms_state session = Authorized /\ sc_session_id context = ms_id session /\
    (exists worker, ms_worker session = Some worker /\ aw_canonical_login worker = login /\
       sc_identity context = backend_identity worker) /\
    (exists x, find_assignment session job = Some x /\
       sc_target_le context = ShareTarget_to_backend (tb_target (ja_target x))).

(** What the router remembers: [rm_knows r ids] holds of generations it has named and will not name
    anew.  No call forgets a generation, the one named current is known from then on, and when the
    reads of one handler find the current generation changed, by another thread, it is one that was
    not known before.  [rm_lawful] is the condition under which the view is used. *)
Class RouterMemory : Type := {
  rm_knows : R -> gset JobId -> Prop;
  rm_lawful : Prop;
  rm_less r ids ids' : rm_knows r ids -> ids' ⊆ ids -> rm_knows r ids';
  rm_current r r' x ids : rm_lawful -> rm_knows r ids -> rv_current_generation r = (r', x) ->
    rm_knows r' (match x with Ok (Some g) => {[bg_id g]} ∪ ids | _ => ids end);
  rm_retained r r' x ids : rm_lawful -> rm_knows r ids -> rv_retained_job_ids r = (r', x) -> rm_knows r' ids;
  rm_recovery r r' x ids : rm_lawful -> rm_knows r ids -> rv_winner_recovery_job_ids r = (r', x) -> rm_knows r' ids;
  rm_prepare session login job time suffix solution r r' x ids : rm_lawful -> rm_knows r ids ->
    rv_prepare_submission session login job time suffix solution r = (r', x) -> rm_knows r' ids;
  rm_release context r ids : rm_lawful -> rm_knows r ids -> rm_knows (rv_release context r) ids;
  rm_fresh r r1 r2 r3 r4 g g' l l' ids : rm_lawful -> rm_knows r ids ->
    rv_current_generation r = (r1, Ok (Some g)) -> rv_retained_job_ids r1 = (r2, Ok l) ->
    rv_winner_recovery_job_ids r2 = (r3, Ok l') -> rv_current_generation r3 = (r4, Ok (Some g')) ->
    bg_id g' = bg_id g \/ bg_id g' ∉ ids
}.

(** A view of which nothing is required. *)
#[refine] Definition no_memory : RouterMemory := {| rm_knows _ _ := False; rm_lawful := False |}.
Proof. all: done. Defined.

(** ** The invariant *)

(** The positions of the identifiers outstanding operations hold, and the identifiers there. *)
Definition held (a : ConnectionActor) : list nat :=
  option_list (snd <$> ca_pending_authorization a)
  ++ omap (fun p => ps_response_id (snd p)) (map_to_list (ca_pending_shares a)).
Definition awaiting (a : ConnectionActor) : list Zip301Id :=
  omap (fun i => mjoin (ca_response_ids a !! i)) (held a).

(** Why a request was accepted. *)
Inductive Evidence : Type :=
| ByGrant (ticket : AuthenticationTicket) (grant : AuthenticationGrant)
| ByCommit (issue : Issue) (commit : VerifiedShareCommit).
Definition commit_ticket (e : Evidence) : option Z :=
  match e with ByGrant _ _ => None | ByCommit issue _ => Some (is_ticket issue) end.

(** The receipt of exactly the share of a context. *)
Record receipt_of (context : SubmissionContext) (receipt : ShareReceipt) : Prop := {
  ro_job : as_bytes (sr_job_id receipt) = ga_job_id (sc_admission context);
  ro_share : sr_share_id receipt =
    canonical_share_id sha256 (sc_job_id context) (sc_time context) (sc_nonce context) (sc_solution context);
  ro_attribution : canonical_attribution_id sha256 (sc_identity context) (sc_target_le context)
    = Ok (sr_attribution_id receipt)
}.

Definition evidence_ok (issued : list Issue) (events : list conn_event) (e : Zip301Id * Evidence) : Prop :=
  match snd e with
  | ByGrant ticket grant =>
      EvAuthorized ticket (Ok grant) ∈ events /\ aw_canonical_login (ag_worker grant) = at_worker ticket
  | ByCommit issue commit =>
      issue ∈ issued /\ is_id issue = fst e /\ receipt_of (is_context issue) (vs_receipt commit) /\
      exists ticket, sk_ticket ticket = is_ticket issue /\ EvSubmitted ticket (Ok commit) ∈ events
  end.

(** Whether a share counts as a difficulty sample. *)
Definition sample_of (issue : Issue) (outcome : result VerifiedShareCommit ShareRouterError) : bool :=
  match outcome with Ok verified => negb (vs_replayed verified) | Err _ => false end
  && negb (is_winner_recovery (sc_admission (is_context issue))).
Definition verdict (events : list conn_event) (issue : Issue) (sample : bool) : Prop :=
  exists ticket outcome, EvSubmitted ticket outcome ∈ events /\ sk_ticket ticket = is_ticket issue /\
    sample = sample_of issue outcome.

Definition samples (done : list Issue) (verdicts : list bool) : list (TargetBinding * Z) :=
  omap (fun p : Issue * bool => if snd p then (fun b => (b, is_at (fst p))) <$> is_binding (fst p) else None)
    (zip done verdicts).
Definition observation (op : vardiff_op) : option (TargetBinding * Z) :=
  match op with OpShare b now => Some (b, now) | _ => None end.

(** The worker announced to telemetry, and whether its departure was. *)
Definition presence (call : TelemetryCall) : bool :=
  match call with ShareRecorded _ _ => false | _ => true end.
End History.

Lemma current_kept {R} {view : RouterView R} {memory : RouterMemory (R := R)} r r' x ids :
  rv_current_generation r = (r', x) -> rm_lawful -> rm_knows r ids -> rm_knows r' ids.
Proof. intros E Hl Hk. eapply rm_less; [by eapply rm_current|]. destruct x as [[g|]|]; set_solver. Qed.
