(* ===== verification/ConnectionInv.v ===== *)
(** The invariant of a connection and how the parts of its handlers keep it
    (crates/wcash-pool-edge/src/connection.rs). *)

From Stdlib Require Import ZArith Lia.
From stdpp Require Import prelude gmap sorting strings.
From S2P Require Import Prelude Wire Target Limbs Vardiff Nonce LargestRemainder RateLimit Backend Stream Framing Hex Zip301 Jobs JobsInv JobsWorld JobsLife JobsProps Session BackendClient Router Edge Connection ConnectionRun.
Open Scope Z_scope.

Section Invariant.
Context {R : Type} {view : RouterView R} {json : JsonOps} {memory : RouterMemory (R := R)}.
Context (sha256 : list Z -> list Z).
Context (received : list Zip301Id) (sent : list Zip301ServerMessage) (events : list (conn_event (R := R))).

Implicit Types (c : Connection R) (a : ConnectionActor) (issued : list Issue) (ev : list (Zip301Id * Evidence)).

Definition emitted a : list Zip301ServerMessage := sent ++ ca_outbound a.

(** What remains of a connection however it ends: the replies answer requests, each acceptance has
    its evidence, no share is accepted twice and telemetry is balanced. *)
Record Base issued ev c : Prop := {
  bs_replies : omap reply_id (emitted (cn_actor c)) ⊆+ received;
  bs_bound : (length (ca_outbound (cn_actor c)) <= outbound_capacity (cn_actor c))%nat;
  bs_accepted : fst <$> ev = omap accept_id (emitted (cn_actor c));
  bs_evidence : Forall (evidence_ok sha256 issued events) ev;
  bs_once : NoDup (omap commit_ticket (snd <$> ev));
  bs_presence :
    if ca_telemetry_connected (cn_actor c)
    then ca_closed (cn_actor c) = false /\
      exists w, ms_worker (ca_session (cn_actor c)) = Some w /\ filter presence (cn_telemetry c) = [WorkerConnected w]
    else filter presence (cn_telemetry c) = [] \/
      (ca_closed (cn_actor c) = true /\
       exists w, filter presence (cn_telemetry c) = [WorkerConnected w; WorkerDisconnected w])
}.

(** Every outstanding operation holds one slot of the side table, and no other slot is taken. *)
Record Slots a : Prop := {
  sl_nodup : NoDup (held a);
  sl_filled : forall i, i ∈ held a <-> is_Some (mjoin (ca_response_ids a !! i));
  sl_bound : (length (ca_response_ids a) <= outbound_capacity a)%nat
}.

(** The record kept of a submitted share. *)
Record share_tracked a (issue : Issue) (p : PendingShareState) : Prop := {
  tk_target : is_binding issue = Some (ps_target p);
  tk_at : is_at issue = ps_admitted_at_ms p;
  tk_recovery : ps_winner_recovery p = is_winner_recovery (sc_admission (is_context issue));
  tk_receipt : forall receipt, matches_receipt p receipt = true -> receipt_of sha256 (is_context issue) receipt;
  tk_slot :
    match ps_vardiff_sample p with
    | None => exists i, ps_response_id p = Some i /\ mjoin (ca_response_ids a !! i) = Some (is_id issue)
    | Some sample => ps_response_id p = None /\ verdict events issue sample
    end
}.

(** The shares that left the timing queue, those still in it, and the controller their samples made. *)
Record Timing (done waiting : list Issue) (verdicts : list bool) a : Prop := {
  tm_order : ca_timing_order a = is_ticket <$> waiting;
  tm_sorted : StronglySorted Z.lt (is_ticket <$> (done ++ waiting));
  tm_next : Forall (fun issue => is_ticket issue < ca_next_ticket a) (done ++ waiting);
  tm_done : Forall2 (verdict events) done verdicts;
  tm_waiting : forall issue, issue ∈ waiting -> exists p, ca_pending_shares a !! is_ticket issue = Some p /\ share_tracked a issue p;
  tm_pending : forall t, is_Some (ca_pending_shares a !! t) -> t ∈ is_ticket <$> waiting;
  tm_controller :
    match ca_vardiff a with
    | None => done ++ waiting = []
    | Some v =>
        exists v0 ops, v = vardiff_history ops v0 /\ omap observation ops = samples done verdicts /\
          exists w z, VardiffController_new (mp_vardiff (ca_policy a)) w z (mp_initial_target (ca_policy a)) 1 = Ok v0
    end
}.

Record SessionOk a : Prop := {
  so_inv : session_inv (ca_session a);
  so_state : ms_state (ca_session a) <> SessionClosed;
  so_pending : is_Some (ca_pending_authorization a) -> ms_state (ca_session a) = Session.Subscribed;
  so_connected : ca_telemetry_connected a = bool_decide (ms_state (ca_session a) = Authorized);
  so_grant :
    match ca_authentication_grant a with
    | Some g => ms_state (ca_session a) = Authorized /\ ms_worker (ca_session a) = Some (ag_worker g)
    | None => ms_state (ca_session a) <> Authorized
    end;
  so_mirror : forall x, x ∈ ms_announced_jobs (ca_session a) -> ca_assignments a !! ja_generation_id x = Some (ja_target x);
  so_vardiff : jobs_of (ca_session a) <> [] -> is_Some (ca_vardiff a);
  so_assigned : forall id b, ca_assignments a !! id = Some b -> is_Some (ca_vardiff a);
  so_shares : ca_pending_shares a <> ∅ -> ms_state (ca_session a) = Authorized;
  so_capacity : (size (ca_pending_shares a) <= outbound_capacity a)%nat
}.

(** The target of every job the session knows is the one the miner was told before the job. *)
Definition Told a : Prop :=
  forall x, x ∈ jobs_of (ca_session a) ->
    told (emitted a) !! ja_generation_id x = Some (ShareTarget_to_zip301 (tb_target (ja_target x))).

Record ConnOpen issued ev (owed : list Zip301Id) c : Prop := {
  oi_base : Base issued ev c;
  oi_open : ca_closed (cn_actor c) = false;
  oi_account : received ≡ₚ omap reply_id (emitted (cn_actor c)) ++ awaiting (cn_actor c) ++ owed;
  oi_slots : Slots (cn_actor c);
  oi_timing : exists done waiting verdicts, issued = done ++ waiting /\ Timing done waiting verdicts (cn_actor c);
  oi_fresh : forall t p, ca_pending_shares (cn_actor c) !! t = Some p -> ps_vardiff_sample p = None ->
    t ∉ omap commit_ticket (snd <$> ev);
  oi_session : SessionOk (cn_actor c);
  oi_told : rm_lawful -> Told (cn_actor c) /\ rm_knows (cn_router c) (dom (ca_assignments (cn_actor c)))
}.

(** The oldest share in the timing queue is not complete. *)
Definition Front a : Prop :=
  match ca_timing_order a with
  | [] => True
  | t :: _ => exists p, ca_pending_shares a !! t = Some p /\ ps_vardiff_sample p = None
  end.

Definition ConnInv issued c : Prop :=
  exists ev, Base issued ev c /\ (ca_closed (cn_actor c) = true \/ (ConnOpen issued ev [] c /\ Front (cn_actor c))).

(** A handler keeps the invariant, and after an error what is left when the actor is closed. *)
Definition settled {A} issued (x : result A ConnectionActorError) c : Prop :=
  match x with Ok _ => ConnInv issued c | Err _ => exists ev, Base issued ev c end.

(** ** Closing *)

Lemma conn_close_base issued ev c : Base issued ev c -> Base issued ev (conn_close c) /\ ca_closed (cn_actor (conn_close c)) = true.
Proof.
  intros [H1 H2 H3 H4 H5 H6]. unfold conn_close.
  destruct (ca_telemetry_connected (cn_actor c)) eqn:E.
  - destruct H6 as (_ & w & Hw & Hp). rewrite Hw. split; [|done]. split; try done. cbn. right. split; [done|].
    exists w. by rewrite filter_app, Hp.
  - split; [|done]. split; try done. cbn. destruct H6 as [H6|(_ & H6)]; [by left|by right].
Qed.

Lemma conn_close_inv issued ev c : Base issued ev c -> ConnInv issued (conn_close c).
Proof. intros H. apply conn_close_base in H as [H Hc]. exists ev. auto. Qed.
(** ** Messages *)

Lemma queue_eq m c :
  queue m c = if (outbound_capacity (cn_actor c) <? length (ca_outbound (cn_actor c)) + 1)%nat
              then (conn_close c, Err (OutboundQueueFull (outbound_capacity (cn_actor c))))
              else (on_actor (push_outbound m) c, Ok tt).
Proof. unfold queue, ensure_outbound_capacity, closing, get_actor, update_actor. st_unfold. by destruct (_ <? _)%nat. Qed.

Lemma told_app l m : told (l ++ [m]) = snd (tell (foldl tell (None, ∅) l) m).
Proof. unfold told. by rewrite foldl_app. Qed.
Lemma told_other l m : (forall n, m <> Notify n) -> told (l ++ [m]) = told l.
Proof. rewrite told_app. unfold told. destruct m; try done. intros H. by destruct (H notify). Qed.

Lemma emitted_push m a : emitted (push_outbound m a) = emitted a ++ [m].
Proof. unfold emitted. cbn. by rewrite (assoc_L (++)). Qed.

Lemma omap_snoc {A B} (f : A -> option B) (l : list A) x : omap f (l ++ [x]) = omap f l ++ option_list (f x).
Proof. rewrite omap_app. cbn. by destruct (f x). Qed.

(** A field by field copy of a property that does not mention the changed fields. *)
Ltac carry H := destruct H; split; assumption.

Lemma push_slots m a : Slots a -> Slots (push_outbound m a).
Proof. intros H. carry H. Qed.
Lemma push_timing m done waiting verdicts a :
  Timing done waiting verdicts a -> Timing done waiting verdicts (push_outbound m a).
Proof.
  intros [H1 H2 H3 H4 H5 H6 H7]. split; try assumption. intros issue Hi. destruct (H5 issue Hi) as (p & Hp & Ht).
  exists p. split; [done|]. carry Ht.
Qed.
Lemma push_session m a : SessionOk a -> SessionOk (push_outbound m a).
Proof. intros H. carry H. Qed.
Lemma push_told m a : (forall n, m <> Notify n) -> Told a -> Told (push_outbound m a).
Proof. intros Hm H x Hx. rewrite emitted_push, told_other by done. by apply H. Qed.

Lemma push_base_replies id owed issued ev c m :
  ConnOpen issued ev (id :: owed) c -> reply_id m = Some id ->
  omap reply_id (emitted (push_outbound m (cn_actor c))) ⊆+ received.
Proof.
  intros H Hm. rewrite (oi_account _ _ _ _ H), emitted_push, omap_snoc, Hm.
  apply submseteq_app; [done|]. cbn. apply (submseteq_trans _ (id :: owed)); [by apply submseteq_skip, submseteq_nil_l|].
  by apply submseteq_inserts_l.
Qed.

Lemma push_account id owed issued ev c m :
  ConnOpen issued ev (id :: owed) c -> reply_id m = Some id ->
  received ≡ₚ omap reply_id (emitted (push_outbound m (cn_actor c))) ++ awaiting (push_outbound m (cn_actor c)) ++ owed.
Proof.
  intros H Hm. rewrite (oi_account _ _ _ _ H), emitted_push, omap_snoc, Hm. cbn [option_list].
  change (awaiting (push_outbound m (cn_actor c))) with (awaiting (cn_actor c)).
  rewrite <- (assoc_L (++)). cbn. f_equiv. by rewrite Permutation_middle.
Qed.

(** The evidence for a message that may accept a request. *)
Definition accepts ev c (m : Zip301ServerMessage) (more : list (Zip301Id * Evidence)) issued : Prop :=
  (fst <$> more) = option_list (accept_id m) /\ Forall (evidence_ok sha256 issued events) more /\
  NoDup (omap commit_ticket (snd <$> (ev ++ more))) /\
  (forall t p, ca_pending_shares (cn_actor c) !! t = Some p -> ps_vardiff_sample p = None ->
     t ∉ omap commit_ticket (snd <$> more)).

Lemma push_reply issued ev id owed c m more :
  ConnOpen issued ev (id :: owed) c -> (length (ca_outbound (cn_actor c)) < outbound_capacity (cn_actor c))%nat ->
  reply_id m = Some id -> accepts ev c m more issued ->
  ConnOpen issued (ev ++ more) owed (on_actor (push_outbound m) c).
Proof.
  intros H Hlen Hm (A1 & A2 & A3 & A4).
  pose proof (push_base_replies _ _ _ _ _ _ H Hm) as Hr. pose proof (push_account _ _ _ _ _ _ H Hm) as Ha.
  destruct H as [B H2 _ H4 (done & waiting & verdicts & H5 & H6) H7 H8 H9]. split; cbn.
  - destruct B as [B1 B2 B3 B4 B5 B6]. split; cbn.
    + done.
    + rewrite length_app. cbn. unfold outbound_capacity in *. cbn. lia.
    + by rewrite fmap_app, emitted_push, omap_snoc, B3, A1.
    + by apply Forall_app.
    + done.
    + done.
  - done.
  - done.
  - by apply push_slots.
  - exists done, waiting, verdicts. split; [done|by apply push_timing].
  - intros t p Hp Hs. rewrite fmap_app, omap_app, not_elem_of_app. split; [by eapply H7|by eapply A4].
  - by apply push_session.
  - intros Hcs. destruct (H9 Hcs). split; [|done]. apply push_told; [|done]. intros n ->. done.
Qed.

Lemma accepts_none ev c m issued : NoDup (omap commit_ticket (snd <$> ev)) -> accept_id m = None -> accepts ev c m [] issued.
Proof. intros Hn Hm. unfold accepts. rewrite Hm, app_nil_r. repeat split; auto; intros; apply not_elem_of_nil. Qed.

Lemma push_refusal issued ev id owed c m :
  ConnOpen issued ev (id :: owed) c -> (length (ca_outbound (cn_actor c)) < outbound_capacity (cn_actor c))%nat ->
  reply_id m = Some id -> accept_id m = None -> ConnOpen issued ev owed (on_actor (push_outbound m) c).
Proof.
  intros H Hlen Hm Ha. rewrite <- (app_nil_r ev). eapply push_reply; [done..|].
  apply accepts_none; [apply (oi_base _ _ _ _ H)|done].
Qed.

(** Answering the last request owed. *)
Lemma queue_refusal issued ev id c m :
  ConnOpen issued ev [id] c -> Front (cn_actor c) -> reply_id m = Some id -> accept_id m = None ->
  leads (queue m) (fun x c' => match x with
    | Ok _ => ConnOpen issued ev [] c' /\ Front (cn_actor c')
    | Err _ => Base issued ev c'
    end) c.
Proof.
  intros H Hf Hm Ha. unfold leads. rewrite queue_eq. destruct (Nat.ltb_spec (outbound_capacity (cn_actor c)) (length (ca_outbound (cn_actor c)) + 1)).
  - by apply conn_close_base, H.
  - split; [|exact Hf]. eapply push_refusal; [done|lia|done..].
Qed.

Lemma queue_error_settled {A} issued ev id e c (x0 : A) :
  ConnOpen issued ev [id] c -> Front (cn_actor c) ->
  leads (do* queue_error id e in st_ret x0) (settled issued) c.
Proof.
  intros H Hf. unfold queue_error. apply leads_bind, leads_bind.
  eapply leads_mono; [by eapply (queue_refusal _ _ _ _ (message_for e id))|].
  intros [[]|err] c' H'; [|by exists ev]. destruct H' as [H' Hf'].
  destruct (me_close_connection e); unfold leads; cbn.
  - by eapply conn_close_inv, H'.
  - exists ev. split; [apply H'|by right].
Qed.

(** ** Slots *)

(** Taking a free slot. *)
Record stored (a : ConnectionActor) (slots : list (option Zip301Id)) (i : nat) (id : Zip301Id) : Prop := {
  st_free : mjoin (ca_response_ids a !! i) = None;
  st_taken : mjoin (slots !! i) = Some id;
  st_others : forall j, j <> i -> mjoin (slots !! j) = mjoin (ca_response_ids a !! j);
  st_length : (length slots <= outbound_capacity a)%nat
}.

Lemma store_spec id c : (length (ca_response_ids (cn_actor c)) <= outbound_capacity (cn_actor c))%nat ->
  leads (store_response_id id) (fun x c' =>
    match x with
    | Ok i => exists slots, c' = on_actor (ca_set_response_ids slots) c /\ stored (cn_actor c) slots i id
    | Err _ => c' = conn_close c
    end) c.
Proof.
  intros Hlen. unfold leads, store_response_id, get_actor, update_actor, closing. st_unfold.
  destruct (list_find _ _) as [[i x]|] eqn:E.
  - apply list_find_Some in E as (Hi & -> & _). eexists. split; [reflexivity|].
    assert (i < length (ca_response_ids (cn_actor c)))%nat by (by eapply lookup_lt_Some). split.
    + by rewrite Hi.
    + by rewrite list_lookup_insert_eq.
    + intros j Hj. by rewrite list_lookup_insert_ne.
    + by rewrite length_insert.
  - destruct (Nat.leb_spec (outbound_capacity (cn_actor c)) (length (ca_response_ids (cn_actor c)))); [done|].
    eexists. split; [reflexivity|]. split.
    + by rewrite lookup_ge_None_2.
    + by rewrite lookup_app_r, Nat.sub_diag.
    + intros j Hj. destruct (decide (j < length (ca_response_ids (cn_actor c)))%nat).
      * by rewrite lookup_app_l.
      * rewrite (lookup_ge_None_2 (ca_response_ids (cn_actor c))) by lia. rewrite lookup_ge_None_2; [done|].
        rewrite length_app. cbn. lia.
    + rewrite length_app. cbn. lia.
Qed.

Lemma omap_ext_in {A B} (f g : A -> option B) (l : list A) : (forall x, x ∈ l -> f x = g x) -> omap f l = omap g l.
Proof.
  induction l as [|x l IH]; intros H; [done|]. cbn. rewrite (H x) by left. rewrite IH; [done|]. intros. apply H. by right.
Qed.

(** One more operation holds a slot, and one fewer does. *)
Lemma held_more a a' i id :
  Slots a -> held a' ≡ₚ i :: held a -> outbound_capacity a' = outbound_capacity a ->
  stored a (ca_response_ids a') i id -> Slots a' /\ awaiting a' ≡ₚ id :: awaiting a.
Proof.
  intros [H1 H2 H3] Hh Hc [S1 S2 S3 S4].
  assert (i ∉ held a) as Hi by (rewrite H2, S1; by intros []). split.
  - split; [|intros j|by rewrite Hc].
    + rewrite Hh. by constructor.
    + rewrite Hh, elem_of_cons, H2. destruct (decide (j = i)) as [->|Hj]; [|by rewrite S3 by done; naive_solver].
      rewrite S2. split; [by eexists|by left].
  - unfold awaiting. rewrite Hh. cbn. rewrite S2. cbn. f_equiv. apply reflexive_eq, omap_ext_in. intros j Hj. apply S3. by intros ->.
Qed.

Lemma held_fewer a a' i id :
  Slots a -> held a ≡ₚ i :: held a' -> outbound_capacity a' = outbound_capacity a ->
  mjoin (ca_response_ids a !! i) = Some id -> ca_response_ids a' = <[i := None]> (ca_response_ids a) ->
  Slots a' /\ awaiting a ≡ₚ id :: awaiting a'.
Proof.
  intros [H1 H2 H3] Hh Hc Hi Hr. rewrite Hh in H1. apply NoDup_cons in H1 as [Hni H1].
  assert (i < length (ca_response_ids a))%nat as Hlt.
  { destruct (ca_response_ids a !! i) eqn:E; [by eapply lookup_lt_Some|done]. }
  assert (forall j, j <> i -> mjoin (ca_response_ids a' !! j) = mjoin (ca_response_ids a !! j)) as Hj
    by (intros j Hj; by rewrite Hr, list_lookup_insert_ne).
  split.
  - split; [done|intros j|by rewrite Hc, Hr, length_insert].
    destruct (decide (j = i)) as [->|Hne].
    + rewrite Hr, list_lookup_insert_eq by done. cbn. split; [done|by intros []].
    + rewrite Hj by done. rewrite <- H2, Hh, elem_of_cons. naive_solver.
  - unfold awaiting. rewrite Hh. cbn. rewrite Hi. cbn. f_equiv. apply reflexive_eq, omap_ext_in. intros j Hin.
    symmetry. apply Hj. by intros ->.
Qed.

(** ** Tickets *)

Lemma StronglySorted_snoc {A} (Rel : A -> A -> Prop) l y :
  StronglySorted Rel l -> Forall (fun x => Rel x y) l -> StronglySorted Rel (l ++ [y]).
Proof.
  induction 1 as [|x l Hl IH Hx]; intros Hy; cbn; [by repeat constructor|]. apply Forall_cons in Hy as [Hxy Hy].
  constructor; [by apply IH|]. apply Forall_app. split; [done|by constructor].
Qed.

Lemma evidence_more issued more e : evidence_ok sha256 issued events e -> evidence_ok sha256 (issued ++ more) events e.
Proof. unfold evidence_ok. destruct (snd e); [done|]. intros (H1 & H2). split; [|done]. apply elem_of_app. by left. Qed.

Lemma base_more issued more ev c : Base issued ev c -> Base (issued ++ more) ev c.
Proof.
  intros [H1 H2 H3 H4 H5 H6]. split; try done. eapply Forall_impl; [done|]. intros e. by apply evidence_more.
Qed.

Definition register (slots : list (option Zip301Id)) (p : PendingShareState) a : ConnectionActor :=
  ca_set_timing_order (ca_timing_order a ++ [ca_next_ticket a])
    (ca_set_pending_shares (<[ca_next_ticket a := p]> (ca_pending_shares a))
       (ca_set_next_ticket (ca_next_ticket a + 1) (ca_set_response_ids slots a))).

Lemma ticket_fresh done waiting verdicts a : Timing done waiting verdicts a ->
  ca_pending_shares a !! ca_next_ticket a = None.
Proof.
  intros H. destruct (ca_pending_shares a !! ca_next_ticket a) eqn:E; [|done]. exfalso.
  assert (ca_next_ticket a ∈ is_ticket <$> waiting) as Hin by (apply (tm_pending _ _ _ _ H); by rewrite E).
  apply list_elem_of_fmap in Hin as (issue & Ht & Hi). pose proof (tm_next _ _ _ _ H) as Hn. rewrite Forall_forall in Hn.
  specialize (Hn issue). rewrite elem_of_app in Hn. specialize (Hn (or_intror Hi)). lia.
Qed.

Lemma register_timing done waiting verdicts a slots i p issue :
  Timing done waiting verdicts a -> stored a slots i (is_id issue) -> is_ticket issue = ca_next_ticket a ->
  is_Some (ca_vardiff a) -> share_tracked (ca_set_response_ids slots a) issue p ->
  Timing done (waiting ++ [issue]) verdicts (register slots p a).
Proof.
  intros H Hst Ht Hv Htr. pose proof (ticket_fresh _ _ _ _ H) as Hfresh. destruct H as [H1 H2 H3 H4 H5 H6 H7]. split; cbn.
  - by rewrite H1, fmap_app, <- Ht.
  - rewrite (assoc_L (++)), fmap_app. apply StronglySorted_snoc; [done|]. rewrite Forall_fmap.
    eapply Forall_impl; [exact H3|]. intros x Hx. cbn. by rewrite Ht.
  - rewrite (assoc_L (++)). apply Forall_app. split; [|constructor; [lia|done]].
    eapply Forall_impl; [exact H3|]. intros x Hx. cbn in *. lia.
  - done.
  - intros x [Hx|Hx]%elem_of_app.
    + destruct (H5 x Hx) as (q & Hq & T). exists q. rewrite lookup_insert_ne by (intros E; rewrite <- E in Hq; congruence).
      split; [done|]. destruct T as [T1 T2 T3 T4 T5]. split; try done.
      destruct (ps_vardiff_sample q); [done|]. destruct T5 as (j & Hj & Hs). exists j. split; [done|]. cbn.
      rewrite (st_others _ _ _ _ Hst); [done|]. intros ->. by rewrite (st_free _ _ _ _ Hst) in Hs.
    + apply list_elem_of_singleton in Hx as ->. exists p. rewrite Ht, lookup_insert_eq. split; [done|]. carry Htr.
  - intros t. rewrite fmap_app, elem_of_app. destruct (decide (t = ca_next_ticket a)) as [->|Hne].
    + right. change (ca_next_ticket a ∈ [is_ticket issue]). rewrite Ht. by left.
    + rewrite lookup_insert_ne by done. left. by apply H6.
  - destruct Hv as [v Hv]. by rewrite Hv in *.
Qed.

Lemma register_share issued ev owed c slots i p issue :
  ConnOpen issued ev (is_id issue :: owed) c -> stored (cn_actor c) slots i (is_id issue) ->
  is_ticket issue = ca_next_ticket (cn_actor c) -> jobs_of (ca_session (cn_actor c)) <> [] ->
  (size (ca_pending_shares (cn_actor c)) < outbound_capacity (cn_actor c))%nat ->
  ps_response_id p = Some i -> ps_vardiff_sample p = None ->
  share_tracked (ca_set_response_ids slots (cn_actor c)) issue p ->
  ConnOpen (issued ++ [issue]) ev owed (on_actor (register slots p) c).
Proof.
  intros [B H2 H3 H4 (done & waiting & verdicts & -> & H6) H7 H8 H9] Hst Ht Hj Hsz Hi Hs Htr.
  pose proof (ticket_fresh _ _ _ _ H6) as Hfresh.
  assert (held (register slots p (cn_actor c)) ≡ₚ i :: held (cn_actor c)) as Hh.
  { unfold held. cbn. rewrite (map_to_list_insert _ _ _ Hfresh). cbn. rewrite Hi. cbn. by rewrite Permutation_middle. }
  destruct (held_more _ (register slots p (cn_actor c)) i (is_id issue) H4 Hh eq_refl) as [S1 S2]; [by destruct Hst|].
  split; cbn [cn_actor on_actor cn_set_actor].
  - apply base_more. carry B.
  - done.
  - rewrite S2. etrans; [exact H3|]. apply Permutation_app_head. symmetry. apply Permutation_middle.
  - done.
  - exists done, (waiting ++ [issue]), verdicts. split; [by rewrite (assoc_L (++))|].
    eapply register_timing; try done. by apply (so_vardiff _ H8).
  - cbn. intros t q. destruct (decide (t = ca_next_ticket (cn_actor c))) as [->|Hne].
    + rewrite lookup_insert_eq. intros [= <-] _ Hin. destruct B as [_ _ _ B4 _ _].
      apply list_elem_of_omap in Hin as (e & Hin & He). apply list_elem_of_fmap in Hin as ([id0 e'] & -> & Hin). cbn in He.
      rewrite Forall_forall in B4. specialize (B4 _ Hin). unfold evidence_ok in B4. cbn in B4.
      destruct e' as [|is0 cm]; [done|]. injection He as He. destruct B4 as [B4 _].
      pose proof (tm_next _ _ _ _ H6) as Hn. rewrite Forall_forall in Hn. specialize (Hn _ B4). lia.
    + rewrite lookup_insert_ne by done. by apply H7.
  - destruct H8 as [S3 S4 S5 S6 S7 S8 S9 S11 S10 S12]. split; try done; cbn.
    + intros _. pose proof (si_phase _ S3) as Hp. destruct (ms_state _); try done; by destruct Hp as (_ & _ & ?).
    + rewrite map_size_insert_None by done. exact Hsz.
  - done.
Qed.

Lemma register_front slots p a done waiting verdicts : Timing done waiting verdicts a ->
  Front a -> ps_vardiff_sample p = None -> Front (register slots p a).
Proof.
  intros H Hf Hs. pose proof (ticket_fresh _ _ _ _ H) as Hfresh. unfold Front in *. cbn.
  destruct (ca_timing_order a) as [|t l]; cbn.
  - exists p. by rewrite lookup_insert_eq.
  - destruct Hf as (q & Hq & Hn). exists q. rewrite lookup_insert_ne; [done|]. intros E. congruence.
Qed.

Definition register_auth (slots : list (option Zip301Id)) (i : nat) a : ConnectionActor :=
  ca_set_pending_authorization (Some (ca_next_ticket a, i))
    (ca_set_next_ticket (ca_next_ticket a + 1) (ca_set_response_ids slots a)).

Lemma register_authorization issued ev id owed c slots i :
  ConnOpen issued ev (id :: owed) c -> stored (cn_actor c) slots i id ->
  ca_pending_authorization (cn_actor c) = None -> ms_state (ca_session (cn_actor c)) = Session.Subscribed ->
  ConnOpen issued ev owed (on_actor (register_auth slots i) c).
Proof.
  intros [B H2 H3 H4 (done & waiting & verdicts & -> & H6) H7 H8 H9] Hst Hn Hs.
  assert (held (register_auth slots i (cn_actor c)) ≡ₚ i :: held (cn_actor c)) as Hh by (unfold held; cbn; by rewrite Hn).
  destruct (held_more _ (register_auth slots i (cn_actor c)) i id H4 Hh eq_refl) as [S1 S2]; [by destruct Hst|].
  split; cbn [cn_actor on_actor cn_set_actor].
  - carry B.
  - done.
  - rewrite S2. etrans; [exact H3|]. apply Permutation_app_head. symmetry. apply Permutation_middle.
  - done.
  - exists done, waiting, verdicts. split; [done|]. destruct H6 as [T1 T2 T3 T4 T5 T6 T7]. split; try done; cbn.
    + eapply Forall_impl; [exact T3|]. intros x Hx. cbn in *. lia.
    + intros x Hx. destruct (T5 x Hx) as (q & Hq & [Q1 Q2 Q3 Q4 Q5]). exists q. split; [done|]. split; try done.
      destruct (ps_vardiff_sample q); [done|]. destruct Q5 as (j & Hj & Hq5). exists j. split; [done|]. cbn.
      rewrite (st_others _ _ _ _ Hst); [done|]. intros ->. by rewrite (st_free _ _ _ _ Hst) in Hq5.
  - done.
  - destruct H8. by split.
  - done.
Qed.

(** ** Completions *)

Lemma held_replace a t p q : ca_pending_shares a !! t = Some p ->
  map_to_list (<[t := q]> (ca_pending_shares a)) ≡ₚ (t, q) :: map_to_list (delete t (ca_pending_shares a)) /\
  map_to_list (ca_pending_shares a) ≡ₚ (t, p) :: map_to_list (delete t (ca_pending_shares a)).
Proof.
  intros Hp. split.
  - rewrite <- insert_delete_eq. apply map_to_list_insert, lookup_delete_eq.
  - rewrite <- (insert_delete_id _ _ _ Hp) at 1. apply map_to_list_insert, lookup_delete_eq.
Qed.

Definition complete (t : Z) (p : PendingShareState) (i : nat) (sample : bool) a : ConnectionActor :=
  ca_set_response_ids (<[i := None]> (ca_response_ids a))
    (ca_set_pending_shares (<[t := completed_with sample p]> (ca_pending_shares a)) a).

Lemma issue_unique (l : list Issue) x y :
  StronglySorted Z.lt (is_ticket <$> l) -> x ∈ l -> y ∈ l -> is_ticket x = is_ticket y -> x = y.
Proof.
  intros Hs. induction l as [|z l IH]; [by intros ?%elem_of_nil|]. cbn in Hs. apply StronglySorted_cons in Hs as [Hz Hs].
  assert (forall u, u ∈ l -> is_ticket z < is_ticket u) as Hlt.
  { intros u Hu. rewrite Forall_forall in Hz. apply Hz. by apply list_elem_of_fmap_2. }
  rewrite !elem_of_cons. intros [->|Hx] [->|Hy] E; [done| | |by apply IH]; exfalso.
  - specialize (Hlt _ Hy). lia.
  - specialize (Hlt _ Hx). lia.
Qed.

(** A share completes: its identifier is owed an answer. *)
Lemma complete_share issued ev owed c t p issue sample i :
  ConnOpen issued ev owed c -> ca_pending_shares (cn_actor c) !! t = Some p -> ps_vardiff_sample p = None ->
  issue ∈ issued -> is_ticket issue = t -> share_tracked (cn_actor c) issue p -> verdict events issue sample ->
  ps_response_id p = Some i ->
  ConnOpen issued ev (is_id issue :: owed) (on_actor (complete t p i sample) c).
Proof.
  intros [B H2 H3 H4 (done & waiting & verdicts & -> & H6) H7 H8 H9] Hp Hn Hin Ht Htr Hv Hi.
  destruct Htr as [Q1 Q2 Q3 Q4 Q5]. rewrite Hn in Q5. destruct Q5 as (j & Hj & Hs). assert (j = i) as -> by congruence.
  destruct (held_replace (cn_actor c) t p (completed_with sample p) Hp) as [L1 L2].
  assert (held (cn_actor c) ≡ₚ i :: held (complete t p i sample (cn_actor c))) as Hh.
  { unfold held. cbn. rewrite L1, L2. cbn. rewrite Hi. cbn. by rewrite <- Permutation_middle. }
  destruct (held_fewer _ (complete t p i sample (cn_actor c)) i (is_id issue) H4 Hh eq_refl Hs eq_refl) as [S1 S2].
  pose proof (sl_nodup _ H4) as Hnd. rewrite Hh, NoDup_cons in Hnd. destruct Hnd as [Hni _].
  split; cbn [cn_actor on_actor cn_set_actor].
  - carry B.
  - done.
  - etrans; [exact H3|]. rewrite S2. apply Permutation_app_head. apply Permutation_middle.
  - done.
  - exists done, waiting, verdicts. split; [done|]. destruct H6 as [T1 T2 T3 T4 T5 T6 T7]. split; try done; cbn.
    + intros x Hx. destruct (T5 x Hx) as (q & Hq & Tq). destruct (decide (is_ticket x = t)) as [Hxt|Hxt].
      * rewrite Hxt in *. rewrite lookup_insert_eq. eexists. split; [reflexivity|].
        assert (x = issue) as ->.
        { apply (issue_unique _ _ _ T2); [apply elem_of_app; by right|done|congruence]. }
        by split.
      * rewrite lookup_insert_ne by done. exists q. split; [done|].
        destruct Tq as [P1 P2 P3 P4 P5]. split; try done.
        destruct (ps_vardiff_sample q); [done|]. destruct P5 as (k & Hk & P5). exists k. split; [done|]. cbn.
        rewrite list_lookup_insert_ne; [done|]. intros <-. apply Hni. unfold held. cbn. rewrite L1. cbn.
        apply elem_of_app. right. apply list_elem_of_omap. exists (is_ticket x, q). split; [|done].
        apply elem_of_map_to_list. by rewrite lookup_delete_ne.
    + intros t' Ht'. apply T6. destruct (decide (t' = t)) as [->|]; [by rewrite Hp|by rewrite lookup_insert_ne in Ht'].
  - cbn. intros t' q. destruct (decide (t' = t)) as [->|]; [rewrite lookup_insert_eq; by intros [= <-]|].
    rewrite lookup_insert_ne by done. by apply H7.
  - destruct H8 as [S3 S4 S5 S6 S7 S8 S9 S11 S10 S12]. split; try done; cbn.
    + intros _. apply S10. intros E. by rewrite E in Hp.
    + rewrite map_size_insert_Some by (by rewrite Hp). exact S12.
  - done.
Qed.

Lemma take_eq i id c : mjoin (ca_response_ids (cn_actor c) !! i) = Some id ->
  take_response_id i c = (on_actor (ca_set_response_ids (<[i := None]> (ca_response_ids (cn_actor c)))) c, Ok id).
Proof. intros H. unfold take_response_id, get_actor, update_actor. st_unfold. by rewrite H. Qed.

Definition release_auth (i : nat) a : ConnectionActor :=
  ca_set_response_ids (<[i := None]> (ca_response_ids a)) (ca_set_pending_authorization None a).

Lemma slots_kept a a' issue p i id :
  i ∉ held a' -> ca_response_ids a' = <[i := None]> (ca_response_ids a) -> mjoin (ca_response_ids a !! i) = Some id ->
  (forall j, ps_response_id p = Some j -> j ∈ held a') -> share_tracked a issue p -> share_tracked a' issue p.
Proof.
  intros Hni Hr Hi Hj [P1 P2 P3 P4 P5]. split; try done. destruct (ps_vardiff_sample p); [done|].
  destruct P5 as (k & Hk & P5). exists k. split; [done|]. rewrite Hr, list_lookup_insert_ne; [done|]. intros <-. by apply Hni, Hj.
Qed.

Lemma held_share a t p j : ca_pending_shares a !! t = Some p -> ps_response_id p = Some j -> j ∈ held a.
Proof.
  intros Hp Hj. unfold held. apply elem_of_app. right. apply list_elem_of_omap. exists (t, p).
  split; [by apply elem_of_map_to_list|done].
Qed.

Lemma complete_auth issued ev owed c t i :
  ConnOpen issued ev owed c -> ca_pending_authorization (cn_actor c) = Some (t, i) ->
  exists id, mjoin (ca_response_ids (cn_actor c) !! i) = Some id /\
    ConnOpen issued ev (id :: owed) (on_actor (release_auth i) c).
Proof.
  intros [B H2 H3 H4 (done & waiting & verdicts & -> & H6) H7 H8 H9] Hp.
  assert (held (cn_actor c) ≡ₚ i :: held (release_auth i (cn_actor c))) as Hh by (unfold held; cbn; by rewrite Hp).
  assert (is_Some (mjoin (ca_response_ids (cn_actor c) !! i))) as [id Hid] by (apply (sl_filled _ H4); rewrite Hh; by left).
  exists id. split; [done|].
  destruct (held_fewer _ (release_auth i (cn_actor c)) i id H4 Hh eq_refl Hid eq_refl) as [S1 S2].
  pose proof (sl_nodup _ H4) as Hnd. rewrite Hh, NoDup_cons in Hnd. destruct Hnd as [Hni _].
  split; cbn [cn_actor on_actor cn_set_actor].
  - carry B.
  - done.
  - etrans; [exact H3|]. rewrite S2. apply Permutation_app_head. apply Permutation_middle.
  - done.
  - exists done, waiting, verdicts. split; [done|]. destruct H6 as [T1 T2 T3 T4 T5 T6 T7]. split; try done; cbn.
    intros x Hx. destruct (T5 x Hx) as (q & Hq & Tq). exists q. split; [done|].
    eapply slots_kept; try done. intros j Hj. by eapply held_share.
  - done.
  - destruct H8 as [S3 S4 S5 S6 S7 S8 S9 S11 S10 S12]. split; try done. cbn. by intros [].
  - done.
Qed.

(** The worker is authorised and announced to telemetry. *)
Definition granted (grant : AuthenticationGrant) (s : MiningSession) c : Connection R :=
  on_actor (ca_set_telemetry_connected true)
    (record_call (WorkerConnected (ag_worker grant))
       (on_actor (ca_set_authentication_grant (Some grant)) (on_actor (ca_set_session s) c))).

Lemma grant_open issued ev owed c grant :
  ConnOpen issued ev owed c -> ca_pending_authorization (cn_actor c) = None ->
  ms_state (ca_session (cn_actor c)) = Session.Subscribed ->
  let s := fst (complete_authorization (ag_worker grant) (ca_session (cn_actor c))) in
  ConnOpen issued ev owed (granted grant s c) /\ ms_state s = Authorized.
Proof.
  intros [B H2 H3 H4 H5 H7 H8 H9] Hp Hs. cbv zeta. destruct H8 as [S3 S4 S5 S6 S7 S8 S9 S11 S10 S12].
  pose proof (session_step_inv _ (OpAuthorize (ag_worker grant)) S3) as Hi. cbn in Hi.
  unfold complete_authorization in *. unfold st_bind, st_get in *. rewrite Hs in *. cbn in *.
  assert (jobs_of (ca_session (cn_actor c)) = []) as Hj by (pose proof (si_phase _ S3) as Hph; rewrite Hs in Hph; by destruct Hph as (_ & _ & ?)).
  split; [|done]. split; cbn.
  - destruct B as [B1 B2 B3 B4 B5 B6]. split; try done. cbn. split; [done|]. exists (ag_worker grant). split; [done|].
    rewrite S6 in B6. rewrite bool_decide_eq_false_2 in B6 by done.
    destruct B6 as [B6|[B6 _]]; [by rewrite filter_app, B6|congruence].
  - done.
  - done.
  - carry H4.
  - destruct H5 as (done & waiting & verdicts & -> & [T1 T2 T3 T4 T5 T6 T7]). exists done, waiting, verdicts.
    split; [done|]. split; try done. intros x Hx. destruct (T5 x Hx) as (q & Hq & Tq). exists q. split; [done|]. carry Tq.
  - done.
  - split; cbn; try done. by rewrite Hp; intros [].
  - intros Hcs. destruct (H9 Hcs) as [T K]. split; [|exact K]. intros x Hx. by apply T.
Qed.

Lemma record_outcome_open issued ev owed c o :
  ConnOpen issued ev owed c ->
  exists c', record_share_outcome o c = (c', Ok tt) /\ ConnOpen issued ev owed c' /\ cn_actor c' = cn_actor c.
Proof.
  intros H. unfold record_share_outcome, st_modify. destruct (ms_worker _) as [w|]; [|by exists c].
  eexists. split; [reflexivity|]. split; [|done]. destruct H as [B H2 H3 H4 H5 H7 H8 H9]. split; try done.
  destruct B as [B1 B2 B3 B4 B5 B6]. split; try done. cbn. rewrite filter_app. cbn. by rewrite app_nil_r.
Qed.

Lemma elsewhere_base issued ev c r al : Base issued ev c -> Base issued ev (mkConnection (cn_actor c) r al (cn_telemetry c)).
Proof. intros B. carry B. Qed.
Lemma elsewhere_open issued ev owed c r al :
  ConnOpen issued ev owed c -> (forall ids, rm_lawful -> rm_knows (cn_router c) ids -> rm_knows r ids) ->
  ConnOpen issued ev owed (mkConnection (cn_actor c) r al (cn_telemetry c)).
Proof.
  intros H Hr. destruct H as [B H2 H3 H4 H5 H7 H8 H9]. split; try done; [by apply elsewhere_base|].
  intros Hl. destruct (H9 Hl) as [T K]. split; [exact T|]. cbn. by apply Hr.
Qed.

(** ** Difficulty samples *)

Lemma samples_snoc done verdicts issue b : length done = length verdicts ->
  samples (done ++ [issue]) (verdicts ++ [b]) =
  samples done verdicts ++ (if b then option_list ((fun t => (t, is_at issue)) <$> is_binding issue) else []).
Proof.
  intros Hl. unfold samples. rewrite zip_with_app by done. cbn [zip_with]. rewrite omap_snoc. cbn [fst snd].
  by destruct b.
Qed.

(** A completed share leaves the front of the queue. *)
Definition leave (t : Z) (rest : list Z) a : ConnectionActor :=
  ca_set_timing_order rest (ca_set_pending_shares (delete t (ca_pending_shares a)) a).

Lemma leave_slots t p rest a : Slots a -> ca_pending_shares a !! t = Some p -> ps_response_id p = None ->
  Slots (leave t rest a) /\ awaiting (leave t rest a) ≡ₚ awaiting a.
Proof.
  intros [S1 S2 S3] Hp Hn. destruct (held_replace a t p p Hp) as [_ L].
  assert (held (leave t rest a) ≡ₚ held a) as Hh by (unfold held; cbn; rewrite L; cbn; by rewrite Hn).
  split; [|unfold awaiting; by rewrite Hh]. split; [by rewrite Hh|intros j; by rewrite Hh|done].
Qed.

(** The controller after the sample, if any. *)
Definition sampled (p : PendingShareState) (b : bool) a : option VardiffController :=
  match b, ca_vardiff a with
  | true, Some v => Some (vardiff_run (OpShare (ps_target p) (ps_admitted_at_ms p)) v)
  | _, v => v
  end.

Lemma leave_timing done waiting verdicts issue p b a :
  Timing done (issue :: waiting) verdicts a -> ca_pending_shares a !! is_ticket issue = Some p ->
  share_tracked a issue p -> ps_vardiff_sample p = Some b ->
  Timing (done ++ [issue]) waiting (verdicts ++ [b])
    (ca_set_vardiff (sampled p b a) (leave (is_ticket issue) (is_ticket <$> waiting) a)).
Proof.
  intros [T1 T2 T3 T4 T5 T6 T7] Hp [Q1 Q2 Q3 Q4 Q5] Hb. rewrite Hb in Q5. destruct Q5 as [Q5 Q6].
  assert (Forall (fun x => is_ticket issue < is_ticket x) waiting) as Hlt.
  { rewrite fmap_app in T2. apply StronglySorted_app_1_r in T2. cbn in T2. apply StronglySorted_cons in T2 as [T2 _].
    by rewrite Forall_fmap in T2. }
  split; cbn.
  - done.
  - by rewrite <- (assoc_L (++)).
  - by rewrite <- (assoc_L (++)).
  - apply Forall2_app; [done|by constructor].
  - intros x Hx. destruct (T5 x ltac:(by right)) as (q & Hq & Tq). exists q.
    rewrite Forall_forall in Hlt. specialize (Hlt x Hx). rewrite lookup_delete_ne by lia. split; [done|]. carry Tq.
  - intros t Ht. destruct (decide (t = is_ticket issue)) as [->|Hne]; [rewrite lookup_delete_eq in Ht; by destruct Ht|].
    rewrite lookup_delete_ne in Ht by done. specialize (T6 t Ht). cbn in T6. apply elem_of_cons in T6 as [T6|T6]; done.
  - unfold sampled. destruct (ca_vardiff a) as [v|]; [|exfalso; clear -T7; by destruct done].
    destruct T7 as (v0 & ops & -> & Ho & Hnew). pose proof (Forall2_length _ _ _ T4) as Hl.
    rewrite samples_snoc by done. destruct b.
    + exists v0, (ops ++ [OpShare (ps_target p) (ps_admitted_at_ms p)]). split; [|split; [|done]].
      * unfold vardiff_history. by rewrite foldl_app.
      * rewrite omap_snoc, Ho. cbn. rewrite Q1, Q2. done.
    + exists v0, ops. split; [done|]. split; [|done]. by rewrite app_nil_r.
Qed.

Lemma leave_open issued ev owed c issue p b done waiting verdicts :
  ConnOpen issued ev owed c -> issued = done ++ issue :: waiting ->
  Timing done (issue :: waiting) verdicts (cn_actor c) ->
  ca_pending_shares (cn_actor c) !! is_ticket issue = Some p -> share_tracked (cn_actor c) issue p -> ps_vardiff_sample p = Some b ->
  ConnOpen issued ev owed
    (on_actor (fun a => ca_set_vardiff (sampled p b a) (leave (is_ticket issue) (is_ticket <$> waiting) a)) c).
Proof.
  intros [B H2 H3 H4 _ H7 H8 H9] Hi Ht Hp Htr Hb. pose proof (leave_timing _ _ _ _ _ _ _ Ht Hp Htr Hb) as HT.
  assert (ps_response_id p = None) as Hn by (pose proof (tk_slot _ _ _ Htr) as Hs; rewrite Hb in Hs; apply Hs).
  destruct (leave_slots _ _ (is_ticket <$> waiting) _ H4 Hp Hn) as [S1 S2].
  split; cbn [cn_actor on_actor cn_set_actor].
  - carry B.
  - done.
  - etrans; [exact H3|]. apply Permutation_app_head. change (awaiting (ca_set_vardiff _ _))
      with (awaiting (leave (is_ticket issue) (is_ticket <$> waiting) (cn_actor c))). by rewrite S2.
  - carry S1.
  - exists (done ++ [issue]), waiting, (verdicts ++ [b]). split; [by rewrite <- (assoc_L (++))|done].
  - cbn. intros t q. rewrite lookup_delete_Some. intros [_ Hq]. by apply (H7 t q).
  - destruct H8 as [S3 S4 S5 S6 S7 S8 S9 S11 S10 S12]. split; try done; cbn.
    + intros Hj. destruct (S9 Hj) as [v Hv]. unfold sampled. rewrite Hv. by destruct b.
    + intros id0 b0 Hj. destruct (S11 id0 b0 Hj) as [v Hv]. unfold sampled. rewrite Hv. by destruct b.
    + intros _. apply S10. intros E. by rewrite E in Hp.
    + rewrite map_size_delete_Some by (by rewrite Hp). etrans; [apply Nat.le_pred_l|exact S12].
  - done.
Qed.

Lemma drain_spec issued ev c order : ConnOpen issued ev [] c -> ca_timing_order (cn_actor c) = order ->
  leads (drain_timing order) (fun x c' => match x with
    | Ok _ => ConnOpen issued ev [] c' /\ Front (cn_actor c')
    | Err _ => Base issued ev c'
    end) c.
Proof.
  revert c. induction order as [|t rest IH]; intros c H Ho.
  { split; [done|]. unfold Front. by rewrite Ho. }
  destruct (oi_timing _ _ _ _ H) as (done & waiting & verdicts & Hi & HT).
  destruct waiting as [|issue waiting]; [by rewrite (tm_order _ _ _ _ HT) in Ho|].
  pose proof (tm_order _ _ _ _ HT) as Ho'. rewrite Ho in Ho'. cbn in Ho'. injection Ho' as -> ->.
  destruct (tm_waiting _ _ _ _ HT issue ltac:(by left)) as (p & Hp & Htr).
  unfold leads. cbn [drain_timing]. unfold get_actor at 1, st_bind at 1. rewrite Hp.
  destruct (ps_vardiff_sample p) as [b|] eqn:Hb.
  2:{ split; [done|]. unfold Front. rewrite Ho. by exists p. }
  pose proof (leave_open _ _ _ _ _ _ _ _ _ _ H Hi HT Hp Htr Hb) as Hl.
  unfold update_actor, st_modify, on_vardiff, st_bind. cbn [on_actor cn_set_actor cn_actor cn_router cn_allocator cn_telemetry].
  unfold on_actor, cn_set_actor, sampled in Hl |- *. cbn [cn_actor cn_router cn_allocator cn_telemetry] in Hl |- *.
  destruct b; [destruct (ca_vardiff (cn_actor c)) as [v|] eqn:Ev|].
  - cbn [vardiff_run] in Hl. destruct (observe_share _ _ v) as [v' [u|e]]; cbn [fst map_err] in Hl |- *.
    + exact (IH _ Hl eq_refl).
    + destruct (oi_base _ _ _ _ Hl). split; done.
  - unfold st_ret. apply IH; [|done]. rewrite <- Ev in Hl. exact Hl.
  - unfold st_ret. apply IH; [|done]. exact Hl.
Qed.

(** ** Work *)

(** Fewer jobs of the same session. *)
Record fewer_jobs (s s' : MiningSession) (m : gmap JobId TargetBinding) : Prop := {
  fj_inv : session_inv s';
  fj_state : ms_state s' = ms_state s;
  fj_worker : ms_worker s' = ms_worker s;
  fj_jobs : forall x, x ∈ jobs_of s' -> x ∈ jobs_of s;
  fj_mirror : forall x, x ∈ ms_announced_jobs s' -> m !! ja_generation_id x = Some (ja_target x)
}.

Lemma NoDup_lookup_delete_ne {A B} (f : A -> B) (l : list A) i y x :
  NoDup (f <$> l) -> l !! i = Some y -> x ∈ delete i l -> f x <> f y.
Proof.
  intros Hn Hy Hx E. rewrite (delete_Permutation _ _ _ Hy) in Hn. cbn in Hn. apply NoDup_cons in Hn as [Hn _].
  apply Hn. rewrite <- E. by apply list_elem_of_fmap_2.
Qed.

Lemma fewer_retire s0 s m id : fewer_jobs s0 s m -> fewer_jobs s0 (retire_announced_job id s) (delete id m).
Proof.
  intros [H1 H2 H3 H4 H5]. pose proof (session_step_inv _ (OpRetire id) H1) as Hi. cbn in Hi.
  assert (forall x, x ∈ jobs_of (retire_announced_job id s) -> x ∈ jobs_of s0) as Hj.
  { intros x Hx. apply H4. by destruct (session_step_jobs s (OpRetire id) x Hx) as [?|[? _]]. }
  split; try done; unfold retire_announced_job; destruct (list_find _ _) as [[i y]|] eqn:E; try done.
  - apply list_find_Some in E as (Hl & Hy & _). cbn. intros x Hx.
    assert (ja_generation_id x <> id) as Hne.
    { intros Hxi.
      pose proof (si_nodup _ H1) as Hnd. unfold jobs_of in Hnd. rewrite fmap_app, NoDup_app in Hnd. destruct Hnd as [Hnd _].
      apply (NoDup_lookup_delete_ne ja_generation_id _ i y x Hnd Hl Hx). congruence. }
    rewrite lookup_delete_ne by done. apply H5. eapply elem_of_submseteq; [exact Hx|]. apply sublist_submseteq, sublist_delete.
  - intros x Hx. apply list_find_None in E. rewrite Forall_forall in E. rewrite lookup_delete_ne; [by apply H5|].
    intros Hid. by apply (E x).
Qed.

Lemma fewer_retain s0 s m ids : fewer_jobs s0 s m -> fewer_jobs s0 (retain_winner_recovery_jobs ids s) m.
Proof.
  intros [H1 H2 H3 H4 H5]. pose proof (session_step_inv _ (OpRetain ids) H1) as Hi. split; try done.
  intros x Hx. apply H4. by destruct (session_step_jobs s (OpRetain ids) x Hx) as [?|[? _]].
Qed.

Lemma retain_fold adm l a s0 : fewer_jobs s0 (ca_session a) (ca_assignments a) ->
  exists s m, foldl (retain_assignment adm) a l = ca_set_assignments m (ca_set_session s a) /\ fewer_jobs s0 s m /\
    (forall id b, m !! id = Some b -> ca_assignments a !! id = Some b).
Proof.
  revert a. induction l as [|id l IH]; intros a H; cbn.
  { exists (ca_session a), (ca_assignments a). by destruct a. }
  unfold retain_assignment at 2. destruct (decide (id ∈ adm)); [by apply IH|].
  destruct (IH (ca_set_assignments (delete id (ca_assignments a)) (ca_set_session (retire_announced_job id (ca_session a)) a)))
    as (s & m & E & Hf & Hm); [by apply fewer_retire|].
  exists s, m. split; [exact E|]. split; [done|]. intros id0 b Hb. specialize (Hm id0 b Hb). cbn in Hm.
  by apply lookup_delete_Some in Hm as [_ Hm].
Qed.

Lemma work_open issued ev owed c s m l :
  ConnOpen issued ev owed c -> fewer_jobs (ca_session (cn_actor c)) s m ->
  (forall id b, m !! id = Some b -> ca_assignments (cn_actor c) !! id = Some b) ->
  ConnOpen issued ev owed (on_actor (fun a => ca_set_advertised_lineage l (ca_set_assignments m (ca_set_session s a))) c).
Proof.
  intros [B H2 H3 H4 H5 H7 H8 H9] [F1 F2 F3 F4 F5] Hm. split; cbn.
  - destruct B as [B1 B2 B3 B4 B5 B6]. split; try done. cbn. by rewrite F3.
  - done.
  - done.
  - carry H4.
  - destruct H5 as (done & waiting & verdicts & -> & [T1 T2 T3 T4 T5 T6 T7]). exists done, waiting, verdicts.
    split; [done|]. split; try done. intros x Hx. destruct (T5 x Hx) as (q & Hq & Tq). exists q. split; [done|]. carry Tq.
  - done.
  - destruct H8 as [S3 S4 S5 S6 S7 S8 S9 S11 S10 S12]. split; cbn; rewrite ?F2, ?F3; try done.
    + intros Hj. apply S9. intros E. destruct (jobs_of s) as [|x ?] eqn:Ej; [done|].
      specialize (F4 x ltac:(by left)). rewrite E in F4. by apply elem_of_nil in F4.
    + intros id b Hb. by eapply S11, Hm.
  - intros Hcs. destruct (H9 Hcs) as [T K]. split; [intros x Hx; by apply T, F4|]. eapply rm_less; [exact K|]. cbn.
    intros id [b Hb]%elem_of_dom. apply elem_of_dom. exists b. by apply Hm.
Qed.

Lemma fewer_refl a : SessionOk a -> fewer_jobs (ca_session a) (ca_session a) (ca_assignments a).
Proof. intros H. split; try done; apply H. Qed.

(** What a change of the work leaves alone. *)
Definition same_queue a a' : Prop :=
  ca_timing_order a' = ca_timing_order a /\ ca_pending_shares a' = ca_pending_shares a /\
  ca_outbound a' = ca_outbound a /\ ca_config a' = ca_config a /\ ca_closed a' = ca_closed a.
Lemma front_same a a' : same_queue a a' -> Front a -> Front a'.
Proof. intros (E1 & E2 & _). unfold Front. by rewrite E1, E2. Qed.
#[export] Instance same_queue_preorder : PreOrder same_queue.
Proof. split; [by intros a|]. intros x y z (A1 & A2 & A3 & A4 & A5) (B1 & B2 & B3 & B4 & B5). repeat split; congruence. Qed.

(** A call on the router. *)
Lemma on_router_eq {A} (m : M R JobRouterError A) c :
  on_router m c = (mkConnection (cn_actor c) (fst (m (cn_router c))) (cn_allocator c) (cn_telemetry c),
                   map_err ActorRouter (snd (m (cn_router c)))).
Proof. unfold on_router, ask_router. by destruct (m (cn_router c)). Qed.

Lemma reconcile_spec {order : VisitOrder} issued ev owed c : ConnOpen issued ev owed c ->
  leads reconcile_jobs (fun x c' => match x with
    | Ok _ => ConnOpen issued ev owed c' /\ same_queue (cn_actor c) (cn_actor c') /\
        ca_vardiff (cn_actor c') = ca_vardiff (cn_actor c) /\ ca_policy (cn_actor c') = ca_policy (cn_actor c) /\
        ms_state (ca_session (cn_actor c')) = ms_state (ca_session (cn_actor c)) /\
        (forall id b, ca_assignments (cn_actor c') !! id = Some b -> ca_assignments (cn_actor c) !! id = Some b) /\
        exists r1 l l', rv_retained_job_ids (cn_router c) = (r1, Ok l) /\
          rv_winner_recovery_job_ids r1 = (cn_router c', Ok l')
    | Err _ => Base issued ev c'
    end) c.
Proof.
  intros H. unfold leads, reconcile_jobs, require_open, get_actor. unfold st_bind at 1 2. rewrite (oi_open _ _ _ _ H).
  unfold st_ret, st_bind. rewrite on_router_eq. destruct (rv_retained_job_ids (cn_router c)) as [r1 [l|e]] eqn:E1; cbn [fst snd map_err].
  2:{ apply elsewhere_base, H. }
  rewrite on_router_eq. cbn [cn_router cn_actor cn_allocator cn_telemetry].
  destruct (rv_winner_recovery_job_ids r1) as [r2 [l'|e]] eqn:E2; cbn [fst snd map_err].
  2:{ apply elsewhere_base, H. }
  unfold update_actor, st_modify, retain_assignments. cbn [on_actor cn_actor cn_set_actor].
  destruct (retain_fold l (visit (ca_assignments (cn_actor c))) (cn_actor c) (ca_session (cn_actor c))) as (s & m & E & Hf & Hm);
    [apply fewer_refl, H|]. unfold on_actor, cn_set_actor. cbn [cn_actor cn_router cn_allocator cn_telemetry]. rewrite E. cbn [ca_session ca_set_assignments ca_set_session].
  assert (fewer_jobs (ca_session (cn_actor c)) (retain_winner_recovery_jobs l' s) m) as Hf' by (by apply fewer_retain).
  split; [|split; [done|split; [done|split; [done|split; [|split; [exact Hm|]]]]]].
  - apply (work_open _ _ _ (mkConnection (cn_actor c) r2 (cn_allocator c) (cn_telemetry c))
      (retain_winner_recovery_jobs l' s) m
      (filter (fun id => is_Some (m !! id)) (ca_advertised_lineage (cn_actor c)))); [|done..].
    apply elsewhere_open; [done|]. intros ids Hl Hk. eapply rm_recovery; [done| |exact E2]. by eapply rm_retained.
  - apply (fj_state _ _ _ Hf').
  - by exists r1, l, l'.
Qed.

(** ** Announcements *)

Lemma controller_open issued ev owed c v op :
  ConnOpen issued ev owed c -> ca_vardiff (cn_actor c) = Some v -> observation op = None ->
  ConnOpen issued ev owed (on_actor (ca_set_vardiff (Some (vardiff_run op v))) c).
Proof.
  intros [B H2 H3 H4 H5 H7 H8 H9] Hv Hop. split; cbn; try done.
  - carry B.
  - carry H4.
  - destruct H5 as (done & waiting & verdicts & -> & [T1 T2 T3 T4 T5 T6 T7]). exists done, waiting, verdicts.
    split; [done|]. split; try done; cbn.
    + intros x Hx. destruct (T5 x Hx) as (q & Hq & Tq). exists q. split; [done|]. carry Tq.
    + rewrite Hv in T7. destruct T7 as (v0 & ops & -> & Ho & Hn). exists v0, (ops ++ [op]).
      unfold vardiff_history. rewrite foldl_app, omap_snoc, Ho, Hop, app_nil_r. done.
  - destruct H8. by split.
Qed.

Lemma controller_new issued ev owed c w z v :
  ConnOpen issued ev owed c -> ca_vardiff (cn_actor c) = None ->
  VardiffController_new (mp_vardiff (ca_policy (cn_actor c))) w z (mp_initial_target (ca_policy (cn_actor c))) 1 = Ok v ->
  ConnOpen issued ev owed (on_actor (ca_set_vardiff (Some v)) c).
Proof.
  intros [B H2 H3 H4 H5 H7 H8 H9] Hv Hn. split; cbn; try done.
  - carry B.
  - carry H4.
  - destruct H5 as (done & waiting & verdicts & -> & [T1 T2 T3 T4 T5 T6 T7]). rewrite Hv in T7.
    apply app_eq_nil in T7 as [-> ->]. exists [], [], verdicts. split; [done|]. split; try done; cbn.
    + by intros x ?%elem_of_nil.
    + exists v, []. split; [done|]. split; [|by exists w, z]. by apply Forall2_nil_inv_l in T4 as ->.
  - destruct H8. by split.
Qed.

Lemma binding_for_spec issued ev owed c g : ConnOpen issued ev owed c ->
  leads (binding_for g) (fun x c' => match x with
    | Ok b => ConnOpen issued ev owed c' /\
        (exists v, c' = on_actor (ca_set_vardiff (Some v)) c) /\
        (forall b', ca_assignments (cn_actor c) !! bg_id g = Some b' -> b' = b)
    | Err _ => Base issued ev c'
    end) c.
Proof.
  intros H. unfold leads, binding_for, get_actor, on_vardiff, update_actor. st_unfold.
  destruct (ca_assignments (cn_actor c) !! bg_id g) as [b|] eqn:Eb.
  { destruct (so_assigned _ (oi_session _ _ _ _ H) _ _ Eb) as [v Hv]. split; [done|]. split; [|by intros b' [= ->]].
    exists v. unfold on_actor, cn_set_actor, ca_set_vardiff. rewrite <- Hv. by destruct c as [[] ? ? ?]. }
  destruct (ca_vardiff (cn_actor c)) as [v|] eqn:Ev.
  - pose proof (controller_open _ _ _ _ _ (OpNetwork (bg_wcash_network_target g) (bg_zcash_network_target g)) H Ev eq_refl) as H'.
    cbn [vardiff_run] in H'. destruct (update_network_targets _ _ v) as [v' [b|e]]; cbn [fst] in H'.
    + split; [done|]. split; [by exists v'|done].
    + apply H'.
  - destruct (VardiffController_new _ _ _ _ _) as [v|e] eqn:En; [|apply H].
    split; [by eapply controller_new|]. split; [by exists v|done].
Qed.

(** The session after an announcement. *)
Lemma announce_session x s s' : session_inv s -> announce_job x s = (s', Ok tt) ->
  session_inv s' /\ ms_state s' = Authorized /\ ms_state s = Authorized /\ ms_worker s' = ms_worker s /\ find_assignment s' (ja_generation_id x) = Some x /\
  (forall y, y ∈ jobs_of s' -> y ∈ jobs_of s \/ y = x) /\
  (forall y, y ∈ ms_announced_jobs s' -> y ∈ ms_announced_jobs s \/ y = x).
Proof.
  intros Hi E. pose proof (announce_inv x s Hi) as Hi'. rewrite E in Hi'. cbn in Hi'. revert E.
  unfold announce_job, require. st_unfold. case_bool_decide as Hst; [|done].
  destruct (find_assignment s (ja_generation_id x)) as [y|] eqn:Ef.
  - case_bool_decide as Hy; [|done]. intros [= <-]. subst y. repeat split; auto; apply Hi.
  - destruct (_ =? _)%nat; [done|]. intros [= <-]. split; [done|]. repeat split; cbn; try done.
    + apply (find_assignment_Some _ _ _ Hi'). split; [by left|done].
    + intros y. unfold jobs_of. cbn. intros [->|Hy]%elem_of_cons; auto.
    + intros y [->|Hy]%elem_of_cons; auto.
Qed.

(** The target and the work an announcement sends. *)
Definition announcement (send_target : bool) (b : TargetBinding) (n : Zip301ServerMessage) : list Zip301ServerMessage :=
  (if send_target then [SetTarget (ShareTarget_to_zip301 (tb_target b))] else []) ++ [n].
Definition announced (s : MiningSession) (g : BackendGeneration) (b : TargetBinding) (l : list Zip301ServerMessage) a
    : ConnectionActor :=
  ca_set_outbound (ca_outbound a ++ l)
    (ca_set_advertised_lineage ({[bg_id g]} ∪ ca_advertised_lineage a)
       (ca_set_assignments (<[bg_id g := b]> (ca_assignments a)) (ca_set_session s a))).

Lemma announce_open issued ev owed c g b s clean (send : bool) :
  ConnOpen issued ev owed c -> is_Some (ca_vardiff (cn_actor c)) ->
  JobAssignment_new g b = Ok (mkJobAssignment (bg_id g) b) ->
  announce_job (mkJobAssignment (bg_id g) b) (ca_session (cn_actor c)) = (s, Ok tt) ->
  (length (ca_outbound (cn_actor c)) + (if send then 1 else 0) + 1 <= outbound_capacity (cn_actor c))%nat ->
  (rm_lawful -> send = true) -> (rm_lawful -> rm_knows (cn_router c) ({[bg_id g]} ∪ dom (ca_assignments (cn_actor c)))) ->
  ConnOpen issued ev owed (on_actor (announced s g b (announcement send b (notify_for g clean))) c).
Proof.
  intros [B H2 H3 H4 H5 H7 H8 H9] Hv _ Ha Hlen Hsend Hknow. destruct H8 as [S3 S4 S5 S6 S7 S8 S9 S11 S10 S12].
  destruct (announce_session _ _ _ S3 Ha) as (A1 & A2 & A3 & A4 & A5 & A6 & A7).
  set (l := announcement send b (notify_for g clean)).
  assert (omap reply_id l = [] /\ omap accept_id l = [] /\ length l = ((if send then 1 else 0) + 1)%nat) as (L1 & L2 & L3)
    by (unfold l; by destruct send).
  set (a' := announced s g b l (cn_actor c)).
  assert (emitted a' = emitted (cn_actor c) ++ l) as He by (unfold emitted; cbn; by rewrite (assoc_L (++))).
  assert (omap reply_id (emitted a') = omap reply_id (emitted (cn_actor c))) as E1 by (by rewrite He, omap_app, L1, app_nil_r).
  assert (omap accept_id (emitted a') = omap accept_id (emitted (cn_actor c))) as E2 by (by rewrite He, omap_app, L2, app_nil_r).
  assert (forall y, y ∈ jobs_of s -> ja_generation_id y = bg_id g -> ja_target y = b) as Hb.
  { intros y Hy Hid. assert (find_assignment s (bg_id g) = Some y) as Hf by (apply (find_assignment_Some _ _ _ A1); done).
    cbn in A5. rewrite A5 in Hf. by injection Hf as <-. }
  split; cbn [cn_actor on_actor cn_set_actor]; fold a'.
  - destruct B as [B1 B2 B3 B4 B5 B6]. split; cbn [cn_actor on_actor cn_set_actor]; fold a'; rewrite ?E1, ?E2; try done.
    + cbn. rewrite length_app, L3. unfold outbound_capacity in *. cbn. lia.
    + cbn. by rewrite A4.
  - done.
  - by rewrite E1.
  - carry H4.
  - destruct H5 as (done & waiting & verdicts & -> & [T1 T2 T3 T4 T5 T6 T7]). exists done, waiting, verdicts.
    split; [done|]. split; try done. intros x Hx. destruct (T5 x Hx) as (q & Hq & Tq). exists q. split; [done|]. carry Tq.
  - done.
  - split; cbn; rewrite ?A2, ?A4; try done.
    + intros Hp. by rewrite S5 in A3.
    + by rewrite S6, A3.
    + destruct (ca_authentication_grant (cn_actor c)); [|done]. split; [done|]. apply S7.
    + intros y Hy. destruct (decide (ja_generation_id y = bg_id g)) as [Hid|Hid].
      * rewrite Hid, lookup_insert_eq. rewrite (Hb y); [done|unfold jobs_of; apply elem_of_app; by left|done].
      * rewrite lookup_insert_ne by done. apply S8. by destruct (A7 y Hy) as [?| ->].
  - intros Hcs. split; [|cbn; rewrite dom_insert_L; by apply Hknow]. intros y Hy. rewrite He. unfold l, announcement. rewrite Hsend by done. cbn [app].
    change [SetTarget (ShareTarget_to_zip301 (tb_target b)); notify_for g clean]
      with ([SetTarget (ShareTarget_to_zip301 (tb_target b))] ++ [notify_for g clean]).
    rewrite (assoc_L (++)), told_app, foldl_app. cbn. fold (told (emitted (cn_actor c))).
    destruct (decide (ja_generation_id y = bg_id g)) as [Hid|Hid].
    + rewrite Hid, lookup_insert_eq. by rewrite (Hb y).
    + rewrite lookup_insert_ne by done. apply (proj1 (H9 Hcs)). by destruct (A6 y Hy) as [?| ->].
Qed.

Lemma lineage_open issued ev owed c l : ConnOpen issued ev owed c ->
  ConnOpen issued ev owed (on_actor (ca_set_advertised_lineage l) c).
Proof.
  intros H. pose proof (work_open _ _ _ c (ca_session (cn_actor c)) (ca_assignments (cn_actor c)) l H
    (fewer_refl _ (oi_session _ _ _ _ H)) (fun _ _ E => E)) as H'.
  replace (on_actor (ca_set_advertised_lineage l) c) with
    (on_actor (fun a => ca_set_advertised_lineage l (ca_set_assignments (ca_assignments (cn_actor c))
       (ca_set_session (ca_session (cn_actor c)) a))) c); [exact H'|]. by destruct c as [[] ? ? ?].
Qed.

(** The tail of [announce_generation], once the binding is known. *)
Lemma send_announcement issued ev owed c g b clean (send : bool) :
  ConnOpen issued ev owed c -> is_Some (ca_vardiff (cn_actor c)) -> (rm_lawful -> send = true) ->
  (rm_lawful -> rm_knows (cn_router c) ({[bg_id g]} ∪ dom (ca_assignments (cn_actor c)))) ->
  leads (do* ensure_outbound_capacity ((if send then 1 else 0) + 1) in
         let* assignment := st_lift (map_err ActorAssignment (JobAssignment_new g b)) in
         do* on_session (announce_job assignment) in
         do* update_actor (fun a => ca_set_assignments (<[bg_id g := b]> (ca_assignments a)) a) in
         do* update_actor (fun a => ca_set_advertised_lineage ({[bg_id g]} ∪ ca_advertised_lineage a) a) in
         do* (if send then update_actor (push_outbound (SetTarget (ShareTarget_to_zip301 (tb_target b)))) else st_ret tt) in
         update_actor (push_outbound (notify_for g clean)))
    (fun x c' => match x with
     | Ok _ => ConnOpen issued ev owed c' /\ ca_timing_order (cn_actor c') = ca_timing_order (cn_actor c) /\
         ca_pending_shares (cn_actor c') = ca_pending_shares (cn_actor c)
     | Err _ => Base issued ev c'
     end) c.
Proof.
  intros H Hv Hs Hk. unfold leads, ensure_outbound_capacity, get_actor, closing, on_session, update_actor. st_unfold.
  destruct (Nat.ltb_spec (outbound_capacity (cn_actor c)) (length (ca_outbound (cn_actor c)) + ((if send then 1 else 0) + 1)))
    as [|Hlen]; [by apply conn_close_base, H|].
  destruct (JobAssignment_new g b) as [x|e] eqn:Ex; [|apply H].
  assert (x = mkJobAssignment (bg_id g) b) as ->
    by (unfold JobAssignment_new in Ex; destruct (_ || _); [done|by injection Ex as <-]).
  destruct (announce_job (mkJobAssignment (bg_id g) b) (ca_session (cn_actor c))) as [s [[]|e]] eqn:Es.
  - pose proof (announce_open _ _ _ _ g b s clean send H Hv Ex Es ltac:(lia) Hs Hk) as H'.
    unfold announced, announcement in H'. destruct send; (split; [|done]); [|exact H'].
    unfold on_actor, cn_set_actor, push_outbound in *. cbn in *. rewrite <- (assoc_L (++)). exact H'.
  - assert (s = ca_session (cn_actor c)) as ->.
    { revert Es. unfold announce_job. st_unfold. repeat case_match; intros; by simplify_eq. }
    destruct (oi_base _ _ _ _ H). by split.
Qed.

(** The generation to announce was just named current by the router. *)
Definition just_named (g : BackendGeneration) c : Prop :=
  exists r0 g0, rv_current_generation r0 = (cn_router c, Ok (Some g0)) /\ bg_id g0 = bg_id g /\
    (rm_lawful -> rm_knows r0 (dom (ca_assignments (cn_actor c)))).

Lemma announce_spec {order : VisitOrder} issued ev owed c g clean :
  ConnOpen issued ev owed c -> just_named g c ->
  leads (announce_generation g clean) (fun x c' => match x with
    | Ok _ => ConnOpen issued ev owed c' /\ ca_timing_order (cn_actor c') = ca_timing_order (cn_actor c) /\
        ca_pending_shares (cn_actor c') = ca_pending_shares (cn_actor c)
    | Err _ => Base issued ev c'
    end) c.
Proof.
  intros H (r0 & g0 & Hr0 & Hg0 & Hk0). unfold announce_generation. apply leads_bind. unfold leads at 1, get_actor at 1.
  case_bool_decide as Hst; cbn [negb]; [|done]. apply leads_bind. eapply leads_mono; [by apply (reconcile_spec issued ev owed)|].
  intros [[]|e] c1; [|done]. intros (H1 & Q1 & V1 & P1 & St1 & As1 & r1 & l & l' & R1 & R2).
  destruct Q1 as (T1 & Pe1 & _). apply leads_bind. unfold leads at 1, get_actor at 1. cbv zeta.
  assert (dom (ca_assignments (cn_actor c1)) ⊆ dom (ca_assignments (cn_actor c))) as Hdom.
  { intros id [b Hb]%elem_of_dom. apply elem_of_dom. exists b. by apply As1. }
  assert (rm_lawful -> rm_knows (cn_router c1) ({[bg_id g]} ∪ dom (ca_assignments (cn_actor c1)))) as Hknow.
  { intros Hl. apply (rm_less _ ({[bg_id g]} ∪ dom (ca_assignments (cn_actor c)))); [|set_solver].
    eapply rm_recovery; [done| |exact R2]. eapply rm_retained; [done| |exact R1].
    pose proof (rm_current _ _ _ _ Hl (Hk0 Hl) Hr0) as Hc. cbn in Hc. by rewrite Hg0 in Hc. }
  set (clean' := clean || bool_decide (ca_advertised_lineage (cn_actor c1) = ∅)). apply leads_bind.
  set (c2 := if clean' then on_actor (ca_set_advertised_lineage ∅) c1 else c1).
  assert (ConnOpen issued ev owed c2 /\ ca_timing_order (cn_actor c2) = ca_timing_order (cn_actor c1) /\
    ca_pending_shares (cn_actor c2) = ca_pending_shares (cn_actor c1) /\
    ca_assignments (cn_actor c2) = ca_assignments (cn_actor c1) /\ cn_router c2 = cn_router c1) as (H2 & T2 & Pe2 & As2 & Ro2).
  { unfold c2. destruct clean'; [|done]. by split; [apply lineage_open|]. }
  assert (((if clean' then update_actor (ca_set_advertised_lineage ∅) else st_ret tt) : CM unit) c1 = (c2, Ok tt)) as Ec2
    by (unfold c2; by destruct clean').
  unfold leads at 1. lazymatch goal with |- match ?t with _ => _ end => change t with
    (((if clean' then update_actor (ca_set_advertised_lineage ∅) else st_ret tt) : CM unit) c1) end. rewrite Ec2. clearbody c2. clear Ec2.
  destruct (negb clean' && _) eqn:Eskip; [split; [done|split; congruence]|].
  apply leads_bind. eapply leads_mono; [by apply (binding_for_spec issued ev owed)|].
  intros [b|e] c3; [|done]. intros (H3 & (v & ->) & _). apply leads_bind.
  destruct clean' eqn:Ecl; cbn [orb].
  - unfold leads at 1, st_ret at 1. eapply leads_mono; [apply (send_announcement issued ev owed _ g b true true); [done|done|done|]|].
    { cbn. by rewrite Ro2, As2. }
    intros [[]|e] c'; [|done]. intros (H' & E1 & E2). cbn in E1, E2. split; [done|split; congruence].
  - unfold leads at 1, current_assigned_target, get_actor, st_bind. rewrite on_router_eq. cbn [cn_router on_actor cn_set_actor].
    destruct (rv_current_generation (cn_router c2)) as [r4 [o|e]] eqn:Er; cbn [fst snd map_err].
    2:{ apply elsewhere_base, H3. }
    unfold st_ret. cbn [cn_actor].
    assert (forall ids, rm_lawful -> rm_knows (cn_router c2) ids -> rm_knows r4 ids) as Hlast by (intros ids; by eapply current_kept).
    eapply leads_mono; [apply (send_announcement issued ev owed); [by apply elsewhere_open|by eexists| |]|].
    + intros Hl. apply negb_true_iff, bool_decide_eq_false_2. destruct o as [g'|]; [|done]. cbn.
      rewrite Ro2 in Er. cbn in Eskip. apply bool_decide_eq_false_1 in Eskip. rewrite As2.
      destruct (rm_fresh _ _ _ _ _ _ _ _ _ _ Hl (Hk0 Hl) Hr0 R1 R2 Er) as [Hid|Hid].
      * rewrite Hid, Hg0. by destruct (ca_assignments (cn_actor c1) !! bg_id g); [destruct Eskip|].
      * destruct (ca_assignments (cn_actor c1) !! bg_id g') as [b'|] eqn:Eb; [|done]. destruct Hid. apply Hdom, elem_of_dom. by exists b'.
    + intros Hl. cbn. rewrite As2. apply Hlast; [done|]. rewrite Ro2. by apply Hknow.
    + intros [[]|e] c'; [|done]. intros (H' & E1 & E2). cbn in E1, E2. split; [done|split; congruence].
Qed.

(** The invariant between requests. *)
Lemma open_inv issued ev c : ConnOpen issued ev [] c -> Front (cn_actor c) -> ConnInv issued c.
Proof. intros H Hf. exists ev. split; [apply H|by right]. Qed.
End Invariant.
