(* ===== verification/ConnectionSteps.v ===== *)
(** Every handler of a connection keeps its invariant (crates/wcash-pool-edge/src/connection.rs). *)

From Stdlib Require Import ZArith Lia.
From stdpp Require Import prelude gmap sorting strings.
From S2P Require Import Prelude Wire Target Limbs Vardiff Nonce LargestRemainder RateLimit Backend Stream Framing Hex Zip301 Jobs JobsInv JobsWorld JobsLife JobsProps Session BackendClient Router Edge Connection ConnectionRun ConnectionInv.
Open Scope Z_scope.

Section Steps.
Context {R : Type} {view : RouterView R} {json : JsonOps} {memory : RouterMemory (R := R)}.
Context (sha256 : list Z -> list Z).
Context (received : list Zip301Id) (sent : list Zip301ServerMessage) (events : list (conn_event (R := R))).

Implicit Types (c : Connection R) (a : ConnectionActor) (issued : list Issue) (ev : list (Zip301Id * Evidence)).

#[local] Abbreviation Base := (Base sha256 received sent events).
#[local] Abbreviation ConnOpen := (ConnOpen sha256 received sent events).
#[local] Abbreviation ConnInv := (ConnInv sha256 received sent events).
#[local] Abbreviation settled := (settled sha256 received sent events).

(** ** Requests *)

(** A message that answers no request. *)
Lemma push_silent issued ev owed c m :
  ConnOpen issued ev owed c -> (length (ca_outbound (cn_actor c)) < outbound_capacity (cn_actor c))%nat ->
  reply_id m = None -> accept_id m = None -> (forall n, m <> Notify n) ->
  ConnOpen issued ev owed (on_actor (push_outbound m) c).
Proof.
  intros [B H2 H3 H4 (done & waiting & verdicts & H5 & H6) H7 H8 H9] Hlen Hr Ha Hn. split; cbn.
  - destruct B as [B1 B2 B3 B4 B5 B6]. split; cbn; rewrite ?emitted_push, ?omap_snoc, ?Hr, ?Ha, ?app_nil_r; try done.
    rewrite length_app. cbn. unfold outbound_capacity in *. cbn. lia.
  - done.
  - by rewrite emitted_push, omap_snoc, Hr, app_nil_r.
  - by apply push_slots.
  - exists done, waiting, verdicts. split; [done|by apply push_timing].
  - done.
  - by apply push_session.
  - intros Hcs. destruct (H9 Hcs). split; [|done]. by apply push_told.
Qed.

Lemma rate_open issued ev owed c l : ConnOpen issued ev owed c -> ConnOpen issued ev owed (on_actor (ca_set_rate_limiter l) c).
Proof.
  intros [B H2 H3 H4 (done & waiting & verdicts & H5 & H6) H7 H8 H9]. split; try done.
  - destruct B. by split.
  - destruct H4. by split.
  - exists done, waiting, verdicts. split; [done|]. destruct H6 as [T1 T2 T3 T4 T5 T6 T7]. split; try done.
    intros x Hx. destruct (T5 x Hx) as (q & Hq & Tq). exists q. split; [done|]. destruct Tq. by split.
  - destruct H8. by split.
Qed.

Lemma subscribed_open issued ev owed c s :
  ConnOpen issued ev owed c -> ms_state (ca_session (cn_actor c)) = Connected -> session_inv s ->
  ms_state s = Session.Subscribed -> ConnOpen issued ev owed (on_actor (ca_set_session s) c).
Proof.
  intros [B H2 H3 H4 (done & waiting & verdicts & H5 & H6) H7 H8 H9] Hc Hi Hs.
  pose proof (si_phase _ Hi) as Hp. rewrite Hs in Hp. destruct Hp as (_ & Hw & Hj).
  destruct H8 as [S3 S4 S5 S6 S7 S8 S9 S11 S10 S12].
  split; try done.
  - destruct B as [B1 B2 B3 B4 B5 B6]. split; try done. cbn. rewrite S6, Hc in *.
    by rewrite bool_decide_eq_false_2 in * by done.
  - destruct H4. by split.
  - exists done, waiting, verdicts. split; [done|]. destruct H6 as [T1 T2 T3 T4 T5 T6 T7]. split; try done.
    intros x Hx. destruct (T5 x Hx) as (q & Hq & Tq). exists q. split; [done|]. destruct Tq. by split.
  - split; cbn; rewrite ?Hs; try done.
    + by rewrite S6, Hc.
    + destruct (ca_authentication_grant (cn_actor c)); [|done]. destruct S7. congruence.
    + intros x Hx. assert (x ∈ jobs_of s) as Hx' by (unfold jobs_of; apply elem_of_app; by left).
      rewrite Hj in Hx'. by apply elem_of_nil in Hx'.
    + intros Hn. rewrite S10 in Hc by done. done.
  - intros Hcs. destruct (H9 Hcs). split; [|done]. intros x Hx. cbn in Hx. rewrite Hj in Hx. by apply elem_of_nil in Hx.
Qed.

Lemma conn_subscribe_spec issued ev owed c : ConnOpen issued ev owed c -> Front (cn_actor c) ->
  ConnOpen issued ev owed (fst (conn_subscribe c)) /\ Front (cn_actor (fst (conn_subscribe c))).
Proof.
  intros H Hf. pose proof (session_step_inv _ (OpSubscribe (cn_allocator c)) (so_inv _ (oi_session _ _ _ _ _ _ _ _ H))) as Hi.
  unfold conn_subscribe. cbn [session_step] in Hi. destruct (Session.subscribe _) as [[s al] x] eqn:E. cbn [fst] in Hi |- *.
  revert E. unfold subscribe, require. case_bool_decide as Hc.
  - destruct (allocate (cn_allocator c)) as [al' [p|e]]; intros E; injection E as <- <- <-; (split; [|exact Hf]).
    + match goal with |- ConnOpen _ _ _ (mkConnection (ca_set_session ?s _) _ _ _) =>
        apply (elsewhere_open _ _ _ _ _ _ _ (on_actor (ca_set_session s) c)) end; [by apply subscribed_open|done].
    + replace (ca_set_session _ _) with (cn_actor c) by (by destruct c as [[] ? ? ?]). by apply elsewhere_open.
  - intros E; injection E as <- <- <-. split; [|exact Hf].
    replace (ca_set_session _ _) with (cn_actor c) by (by destruct c as [[] ? ? ?]). by apply elsewhere_open.
Qed.

Lemma queue_silent issued ev c m :
  ConnOpen issued ev [] c -> Front (cn_actor c) -> reply_id m = None -> accept_id m = None -> (forall n, m <> Notify n) ->
  leads (do* queue m in st_ret (@None ConnectionAction)) (settled issued) c.
Proof.
  intros H Hf Hr Ha Hn. unfold leads, st_bind. rewrite queue_eq.
  destruct (Nat.ltb_spec (outbound_capacity (cn_actor c)) (length (ca_outbound (cn_actor c)) + 1)).
  - exists ev. by apply conn_close_base, H.
  - eapply open_inv; [apply push_silent; [done|lia|done..]|exact Hf].
Qed.

Lemma queue_reply issued ev id c m :
  ConnOpen issued ev [id] c -> Front (cn_actor c) -> reply_id m = Some id -> accept_id m = None ->
  leads (do* queue m in st_ret (@None ConnectionAction)) (settled issued) c.
Proof.
  intros H Hf Hr Ha. apply leads_bind. eapply leads_mono; [by apply (queue_refusal sha256 received sent events issued ev id)|].
  intros [[]|e] c' H'; [|by exists ev]. by eapply open_inv; apply H'.
Qed.

Lemma allocate_eq c :
  allocate_ticket c = match checked_add U64_MAX (ca_next_ticket (cn_actor c)) 1 with
                      | Some next => (on_actor (ca_set_next_ticket next) c, Ok (ca_next_ticket (cn_actor c)))
                      | None => (c, Err TicketExhausted)
                      end.
Proof. unfold allocate_ticket, get_actor, update_actor. st_unfold. by destruct (checked_add _ _ _). Qed.

Lemma authorize_spec issued ev id worker password c :
  ConnOpen issued ev [id] c -> Front (cn_actor c) ->
  leads (begin_authorization id worker password) (settled issued) c.
Proof.
  intros H Hf. unfold begin_authorization. apply leads_bind. unfold leads at 1, get_actor at 1.
  case_bool_decide as Hp; [by eapply queue_error_settled|]. case_bool_decide as Hs; cbn [negb]; [|by eapply queue_error_settled].
  apply leads_bind. eapply leads_mono; [apply store_spec, H|]. intros [i|e] c1; [|intros ->; exists ev; apply conn_close_base, H].
  intros (slots & -> & Hst). unfold leads, st_bind. rewrite allocate_eq. cbn [cn_actor on_actor cn_set_actor ca_next_ticket ca_set_response_ids].
  destruct (checked_add _ _ _) as [next|] eqn:En.
  - apply checked_add_Some in En as [-> _]. eapply (open_inv sha256 received sent events issued ev);
      [by apply (register_authorization sha256 received sent events issued ev id [] c slots i); [| |apply eq_None_not_Some|]|exact Hf].
  - exists ev. destruct (oi_base _ _ _ _ _ _ _ _ H). by split.
Qed.

(** ** Submissions *)

Definition issue_for (id : Zip301Id) (job : JobId) (context : SubmissionContext) (now_ms ticket : Z) a : Issue :=
  mkIssue ticket id context (announced_target_binding (ca_session a) job) now_ms.

Lemma track_spec issued ev id job context now_ms c :
  ConnOpen issued ev [id] c -> Front (cn_actor c) ->
  (size (ca_pending_shares (cn_actor c)) < outbound_capacity (cn_actor c))%nat ->
  leads (track_share sha256 id job context now_ms) (fun x c' => match x with
    | Ok ticket => ConnOpen (issued ++ [issue_for id job context now_ms (sk_ticket ticket) (cn_actor c)]) ev [] c' /\
        Front (cn_actor c')
    | Err _ => Base issued ev c'
    end) c.
Proof.
  intros H Hf Hsz. unfold leads, track_share, get_actor. unfold st_bind at 1. unfold st_lift at 1, st_bind at 1.
  destruct (announced_target_binding (ca_session (cn_actor c)) job) as [target|] eqn:Et; cbn [ok_or]; [|apply H].
  destruct (negb _ && _); [apply H|]. unfold st_bind at 1, st_lift at 1.
  destruct (canonical_attribution_id _ _ _) as [attribution|e] eqn:Ea; cbn [map_err]; [|apply H].
  unfold st_bind at 1. pose proof (store_spec id c (sl_bound _ (oi_slots _ _ _ _ _ _ _ _ H))) as Hs. unfold leads in Hs.
  destruct (store_response_id id c) as [c1 [i|e]]; [|subst c1; by apply conn_close_base, H].
  destruct Hs as (slots & -> & Hst). unfold st_bind at 1. rewrite allocate_eq.
  cbn [cn_actor on_actor cn_set_actor ca_next_ticket ca_set_response_ids].
  destruct (checked_add _ _ _) as [next|] eqn:En; [|destruct (oi_base _ _ _ _ _ _ _ _ H); by split].
  apply checked_add_Some in En as [-> _]. unfold update_actor, st_modify, st_bind, st_ret. cbn [sk_ticket].
  set (p := mkPendingShareState _ _ _ _ _ _ _ _). set (issue := issue_for _ _ _ _ _ _).
  destruct (oi_timing _ _ _ _ _ _ _ _ H) as (done & waiting & verdicts & _ & HT). split.
  - apply (register_share sha256 received sent events issued ev [] c slots i p issue); try done.
    + intros Hj. unfold announced_target_binding in Et. apply fmap_Some in Et as (x & Hx & _).
      apply (find_assignment_Some _ _ _ (so_inv _ (oi_session _ _ _ _ _ _ _ _ H))) in Hx as [Hx _]. rewrite Hj in Hx.
      by apply elem_of_nil in Hx.
    + split; try done; cbn.
      * intros receipt. unfold matches_receipt. cbn. intros Hm. apply andb_true_iff in Hm as [Hm H3].
        apply andb_true_iff in Hm as [H1 H2]. apply bool_decide_eq_true_1 in H1, H2, H3. split; cbn.
        -- done.
        -- by apply hex_eq.
        -- rewrite Ea. f_equal. by apply hex_eq.
      * exists i. split; [done|apply Hst].
  - exact (register_front _ _ slots p (cn_actor c) done waiting verdicts HT Hf eq_refl).
Qed.

(** The result of a request handler: a share it submits is issued. *)
Definition handled issued c0 (request : Zip301Request) (now_ms : Z)
    (x : result (option ConnectionAction) ConnectionActorError) c : Prop :=
  match x with
  | Ok action => ConnInv (issued ++ issue_of c0 request now_ms (Some action)) c
  | Err _ => exists ev, Base issued ev c
  end.

Lemma refuse_handled issued ev id e c0 request now_ms c :
  ConnOpen issued ev [id] c -> Front (cn_actor c) ->
  leads (do* queue_error id e in st_ret None) (handled issued c0 request now_ms) c.
Proof.
  intros H Hf. pose proof (queue_error_settled sha256 received sent events issued ev id e c (@None ConnectionAction) H Hf) as Hs.
  unfold leads, st_bind, st_ret in *. destruct (queue_error id e c) as [c' [u|e']]; [|exact Hs]. cbn. by rewrite app_nil_r.
Qed.

Lemma settled_handled issued c0 request now_ms m c :
  (forall id w j t n s, request <> Submit id w j t n s) ->
  leads m (settled issued) c -> leads m (handled issued c0 request now_ms) c.
Proof.
  intros Hns Hs. eapply leads_mono; [exact Hs|]. intros [action|e] c' H'; [|done]. unfold handled.
  assert (issue_of c0 request now_ms (Some action) = []) as ->; [|by rewrite app_nil_r].
  unfold issue_of. destruct action as [[]|]; try done. destruct request; try done.
  by destruct (Hns id worker job_id time nonce_2 solution).
Qed.

Lemma submit_spec issued ev id worker job_id time nonce_2 solution now_ms c0 c :
  ca_session (cn_actor c0) = ca_session (cn_actor c) -> ConnOpen issued ev [id] c -> Front (cn_actor c) ->
  leads (begin_submission sha256 id (mkSubmittedWork worker job_id time nonce_2 solution) now_ms)
    (handled issued c0 (Submit id worker job_id time nonce_2 solution) now_ms) c.
Proof.
  intros Hc0 H Hf. unfold begin_submission. apply leads_bind. unfold leads at 1, get_actor at 1.
  cbn [sw_job_id sw_worker sw_time sw_nonce_2 sw_solution].
  destruct (Nat.leb_spec (outbound_capacity (cn_actor c)) (size (ca_pending_shares (cn_actor c)))) as [|Hsz]; [by eapply refuse_handled|].
  destruct (JobId_new (as_bytes job_id)) as [job|e] eqn:Ej.
  2:{ apply leads_bind. unfold leads at 1. destruct (record_outcome_open sha256 received sent events issued ev [id] c OutcomeStale H)
        as (c1 & -> & H1 & Ec). eapply refuse_handled; [done|by rewrite Ec]. }
  assert (job = as_bytes job_id) as -> by (unfold JobId_new in Ej; by destruct (all_zero _); simplify_eq).
  unfold leads, ask_router. destruct (rv_prepare_submission _ _ _ _ _ _ (cn_router c)) as [r' [context|e]] eqn:Ep;
    set (c1 := mkConnection (cn_actor c) r' (cn_allocator c) (cn_telemetry c));
    assert (ConnOpen issued ev [id] c1) as H1 by (apply elsewhere_open; [done|]; intros ids ? ?; by eapply rm_prepare).
  - pose proof (track_spec issued ev id (as_bytes job_id) context now_ms c1 H1 Hf Hsz) as Ht. unfold leads in Ht.
    unfold st_bind, st_ret, holding. destruct (track_share _ _ _ _ _ c1) as [c2 [ticket|e]]; cbn.
    + eapply open_inv; [|apply Ht]. rewrite Hc0. apply Ht.
    + exists ev. by apply elsewhere_base.
  - destruct e; try by (exists ev; apply H1). unfold queue_session_error.
    destruct (share_outcome_for_session e) as [o|].
    2:{ exact (refuse_handled issued ev id (from_session e) c0 _ now_ms c1 H1 Hf). }
    destruct (record_outcome_open sha256 received sent events issued ev [id] c1 o H1) as (c2 & E & H2 & Ec).
    unfold st_bind at 1. rewrite E. apply (refuse_handled issued ev id (from_session e) c0 _ now_ms c2 H2). by rewrite Ec.
Qed.

Lemma suggest_spec issued ev id c :
  ConnOpen issued ev (if negb (bool_decide (ms_state (ca_session (cn_actor c)) = Authorized)) then [id] else []) c ->
  Front (cn_actor c) ->
  leads (let* self := get_actor in
      if negb (bool_decide (ms_state (ca_session self) = Authorized)) then
        do* queue_error id (if bool_decide (ms_state (ca_session self) = Connected)
                            then mkMinerError CodeNotSubscribed "not subscribed" false
                            else mkMinerError CodeUnauthorized "unauthorized" false) in
        st_ret (@None ConnectionAction)
      else
        let* assigned := current_assigned_target in
        do* queue (SetTarget (ShareTarget_to_zip301 (default (mp_initial_target (ca_policy self)) assigned))) in
        st_ret (@None ConnectionAction)) (settled issued) c.
Proof.
  intros H Hf. apply leads_bind. unfold leads at 1, get_actor at 1. destruct (negb _); [by eapply queue_error_settled|].
  apply leads_bind. unfold leads at 1, current_assigned_target, get_actor, st_bind. rewrite on_router_eq.
  destruct (rv_current_generation (cn_router c)) as [r [o|e]] eqn:Er; cbn [fst snd map_err].
  - unfold st_ret at 1. eapply queue_silent; [apply elsewhere_open; [done|intros ids; by eapply current_kept]|exact Hf|done..].
  - exists ev. apply elsewhere_base, H.
Qed.

Lemma handle_request_spec issued ev request now_ms c :
  ConnOpen issued ev (if expects_reply (cn_actor c) request now_ms then [Zip301Request_id request] else []) c ->
  Front (cn_actor c) ->
  leads (handle_request sha256 request now_ms) (handled issued c request now_ms) c.
Proof.
  intros H Hf. unfold handle_request. apply leads_bind. unfold leads at 1, require_open, get_actor. unfold st_bind at 1.
  rewrite (oi_open _ _ _ _ _ _ _ _ H). unfold st_ret at 1. apply leads_bind. unfold leads at 1, admit_rate.
  unfold expects_reply in H. destruct (admit_request now_ms (ca_rate_limiter (cn_actor c))) as [limiter x]. cbn [snd] in H.
  pose proof (rate_open _ _ _ _ limiter H) as H1. set (c1 := on_actor (ca_set_rate_limiter limiter) c) in *.
  destruct (is_ok x); cbn [negb] in *.
  2:{ eapply refuse_handled; [|exact Hf]. by destruct request. }
  destruct request as [id params|id worker password|id t|id|id v|id worker job time nonce solution]; cbn [Zip301Request_id orb] in *.
  - apply settled_handled; [done|]. unfold leads. destruct (conn_subscribe_spec _ _ _ _ H1 Hf) as [H2 Hf2].
    destruct (conn_subscribe c1) as [c2 [nonce|e]]; cbn [fst] in *.
    + by apply (queue_reply issued ev id).
    + by apply (queue_error_settled sha256 received sent events issued ev id).
  - apply settled_handled; [done|]. by eapply authorize_spec.
  - apply settled_handled; [done|]. by apply (suggest_spec issued ev).
  - apply settled_handled; [done|]. by eapply queue_error_settled.
  - apply settled_handled; [done|]. by eapply open_inv.
  - by apply (submit_spec issued ev).
Qed.
(** ** Completions *)

Lemma session_base issued ev c s : Base issued ev c -> ca_telemetry_connected (cn_actor c) = false ->
  Base issued ev (on_actor (ca_set_session s) c).
Proof. intros [B1 B2 B3 B4 B5 B6] Hc. split; try done. cbn. by rewrite Hc in *. Qed.

Lemma reject_eq s : ms_state s = Session.Subscribed -> reject_authorization s = (close s, Ok tt).
Proof. intros Hs. unfold reject_authorization, require. st_unfold. by rewrite bool_decide_eq_true_2. Qed.

(** A denial closes the session, answers and closes the connection. *)
Lemma reject_spec issued ev id c :
  ConnOpen issued ev [id] c -> ms_state (ca_session (cn_actor c)) = Session.Subscribed ->
  leads (do* on_session reject_authorization in
         queue_error id (mkMinerError CodeUnauthorized "unauthorized" true)) (settled issued) c.
Proof.
  intros H Hs. assert (ca_telemetry_connected (cn_actor c) = false) as Hc
    by (rewrite (so_connected _ (oi_session _ _ _ _ _ _ _ _ H)), Hs; done).
  unfold leads, st_bind, on_session. rewrite reject_eq by done. cbn [map_err].
  set (c1 := on_actor (ca_set_session (close (ca_session (cn_actor c)))) c).
  assert (Base issued ev c1) as B1 by (apply session_base; [apply H|done]).
  unfold queue_error, st_bind. rewrite queue_eq.
  destruct (Nat.ltb_spec (outbound_capacity (cn_actor c1)) (length (ca_outbound (cn_actor c1)) + 1)) as [|Hlen].
  - exists ev. by apply conn_close_base.
  - cbn. apply (conn_close_inv _ _ _ _ _ ev). set (m := message_for _ _).
    assert (ConnOpen issued ev [] (on_actor (push_outbound m) c)) as H2.
    { eapply push_refusal; [done| |done..]. unfold c1, outbound_capacity in *. cbn in Hlen. lia. }
    exact (session_base _ _ _ (close (ca_session (cn_actor c))) (oi_base _ _ _ _ _ _ _ _ H2) Hc).
Qed.

Lemma synchronize_spec {order : VisitOrder} issued ev c : ConnOpen issued ev [] c -> Front (cn_actor c) ->
  leads synchronize_current_job (settled issued) c.
Proof.
  intros H Hf. unfold synchronize_current_job. apply leads_bind. unfold leads at 1. rewrite on_router_eq.
  pose proof (elsewhere_open _ _ _ _ _ _ _ c (fst (rv_current_generation (cn_router c))) (cn_allocator c) H
    (fun ids => current_kept _ _ _ ids (surjective_pairing _))) as H'.
  destruct (rv_current_generation (cn_router c)) as [r [[g|]|e]] eqn:Er; cbn [fst snd map_err] in *.
  - eapply leads_mono; [apply (announce_spec sha256 received sent events issued ev); [exact H'|]|].
    { exists (cn_router c), g. split; [done|]. split; [done|]. intros Hl. apply (oi_told _ _ _ _ _ _ _ _ H Hl). }
    intros [[]|e] c' Hc'; [|by exists ev]. destruct Hc' as (Ho & E1 & E2). eapply open_inv; [exact Ho|].
    unfold Front in *. by rewrite E1, E2.
  - by eapply open_inv.
  - exists ev. apply H'.
Qed.

Lemma grant_accepts ev c id ticket grant issued : NoDup (omap commit_ticket (snd <$> ev)) ->
  EvAuthorized ticket (Ok grant) ∈ events -> aw_canonical_login (ag_worker grant) = at_worker ticket ->
  accepts sha256 events ev c (Boolean id true) [(id, ByGrant ticket grant)] issued.
Proof.
  intros Hn Hin Hl. split; [done|]. split; [by repeat constructor|]. split.
  - by rewrite fmap_app, omap_app, app_nil_r.
  - intros. apply not_elem_of_nil.
Qed.

Lemma authorized_spec {order : VisitOrder} issued ev id ticket grant c :
  ConnOpen issued ev [id] c -> Front (cn_actor c) -> ca_pending_authorization (cn_actor c) = None ->
  ms_state (ca_session (cn_actor c)) = Session.Subscribed -> EvAuthorized ticket (Ok grant) ∈ events ->
  aw_canonical_login (ag_worker grant) = at_worker ticket ->
  leads (do* on_session (complete_authorization (ag_worker grant)) in
         do* update_actor (ca_set_authentication_grant (Some grant)) in
         do* st_modify (record_call (WorkerConnected (ag_worker grant))) in
         do* update_actor (ca_set_telemetry_connected true) in
         do* queue (Boolean id true) in synchronize_current_job) (settled issued) c.
Proof.
  intros H Hf Hp Hs Hin Hl. destruct (grant_open _ _ _ _ _ _ _ _ grant H Hp Hs) as [H1 _].
  apply leads_bind. unfold leads at 1, on_session. destruct (complete_authorization _ _) as [s x] eqn:E. cbn [fst] in H1.
  assert (x = Ok tt) as -> by (revert E; unfold complete_authorization, st_bind, st_get; rewrite Hs; by intros [= _ <-]).
  cbn [map_err]. do 3 (apply leads_bind; unfold leads at 1, update_actor, st_modify).
  change (on_actor (ca_set_telemetry_connected true) _) with (granted grant s c).
  set (c1 := granted grant s c) in *. apply leads_bind. unfold leads at 1. rewrite queue_eq.
  destruct (Nat.ltb_spec (outbound_capacity (cn_actor c1)) (length (ca_outbound (cn_actor c1)) + 1)) as [|Hlen].
  - exists ev. by apply conn_close_base, H1.
  - apply (synchronize_spec _ (ev ++ [(id, ByGrant ticket grant)])); [|exact Hf].
    eapply push_reply; [exact H1|lia|done|]. apply grant_accepts; [apply H|done..].
Qed.

Lemma complete_authorization_spec {order : VisitOrder} issued ev ticket outcome c :
  ConnOpen issued ev [] c -> Front (cn_actor c) -> EvAuthorized ticket outcome ∈ events ->
  leads (complete_authorization_of ticket outcome) (settled issued) c.
Proof.
  intros H Hf Hin. unfold complete_authorization_of. apply leads_bind. unfold leads at 1, require_open, get_actor at 1. unfold st_bind at 1.
  rewrite (oi_open _ _ _ _ _ _ _ _ H). unfold st_ret. apply leads_bind. unfold leads at 1, get_actor.
  destruct (ca_pending_authorization (cn_actor c)) as [[expected i]|] eqn:Ep; [|exists ev; apply H].
  apply leads_bind. unfold leads at 1, update_actor, st_modify.
  pose proof (so_pending _ (oi_session _ _ _ _ _ _ _ _ H) ltac:(by rewrite Ep)) as Hs.
  destruct (_ || _).
  { exists ev. unfold closing, st_bind, st_modify, st_throw. apply conn_close_base. destruct (oi_base _ _ _ _ _ _ _ _ H). by split. }
  destruct (complete_auth _ _ _ _ _ _ _ _ _ _ H Ep) as (id & Hid & H1).
  apply leads_bind. unfold leads at 1. rewrite (take_eq i id) by done.
  change (on_actor (ca_set_response_ids _) _) with (on_actor (release_auth i) c). set (c1 := on_actor (release_auth i) c) in *.
  destruct outcome as [grant|[]].
  - case_bool_decide as Hl; [by apply (authorized_spec issued ev id ticket)|by apply (reject_spec issued ev)].
  - by apply (reject_spec issued ev).
  - pose proof (queue_error_settled sha256 received sent events issued ev id
      (mkMinerError CodeOther "service unavailable" true) c1 tt H1 Hf) as Hq.
    unfold leads, st_bind, st_ret in *. by destruct (queue_error _ _ c1) as [c2 [[]|e]].
Qed.
(** The invariant before the completed shares leave the timing queue. *)
Definition conn_answered issued (x : result unit ConnectionActorError) c : Prop :=
  match x with
  | Ok _ => exists ev, Base issued ev c /\ (ca_closed (cn_actor c) = true \/ ConnOpen issued ev [] c)
  | Err _ => exists ev, Base issued ev c
  end.

Lemma queue_error_answered issued ev id e c : ConnOpen issued ev [id] c ->
  leads (queue_error id e) (conn_answered issued) c.
Proof.
  intros H. unfold leads, queue_error, st_bind. rewrite queue_eq.
  destruct (Nat.ltb_spec (outbound_capacity (cn_actor c)) (length (ca_outbound (cn_actor c)) + 1)) as [|Hlen].
  - exists ev. by apply conn_close_base, H.
  - assert (ConnOpen issued ev [] (on_actor (push_outbound (message_for e id)) c)) as H1 by (eapply push_refusal; [done|lia|done..]).
    destruct (me_close_connection e); unfold st_modify, st_ret; exists ev.
    + destruct (conn_close_base _ _ _ _ _ _ _ (oi_base _ _ _ _ _ _ _ _ H1)) as [B Hc]. auto.
    + split; [apply H1|by right].
Qed.

Lemma answer_spec issued ev id outcome c : ConnOpen issued ev [id] c ->
  (forall commit, outcome = Ok commit -> exists e, accepts sha256 events ev c (Boolean id true) [(id, e)] issued) ->
  leads (answer_submission id outcome) (conn_answered issued) c.
Proof.
  intros H He. destruct outcome as [commit|e].
  - cbn [answer_submission]. unfold leads. rewrite queue_eq.
    destruct (Nat.ltb_spec (outbound_capacity (cn_actor c)) (length (ca_outbound (cn_actor c)) + 1)) as [|Hlen].
    + exists ev. by apply conn_close_base, H.
    + destruct (He commit eq_refl) as (e & Ha). exists (ev ++ [(id, e)]).
      assert (ConnOpen issued (ev ++ [(id, e)]) [] (on_actor (push_outbound (Boolean id true)) c)) as H1
        by (eapply push_reply; [done|lia|done..]).
      split; [apply H1|by right].
  - cbn [answer_submission]. destruct e; by apply (queue_error_answered issued ev).
Qed.

(** The share a ticket was issued for. *)
Lemma pending_issue issued ev owed c t p : ConnOpen issued ev owed c -> ca_pending_shares (cn_actor c) !! t = Some p ->
  exists issue, issue ∈ issued /\ is_ticket issue = t /\ share_tracked sha256 events (cn_actor c) issue p.
Proof.
  intros H Hp. destruct (oi_timing _ _ _ _ _ _ _ _ H) as (done & waiting & verdicts & -> & HT).
  pose proof (tm_pending _ _ _ _ _ _ HT t ltac:(by rewrite Hp)) as Hin. apply list_elem_of_fmap in Hin as (issue & -> & Hin).
  destruct (tm_waiting _ _ _ _ _ _ HT issue Hin) as (q & Hq & Tq). assert (q = p) as -> by congruence.
  exists issue. split; [apply elem_of_app; by right|done].
Qed.

Lemma commit_accepts issued ev c t p issue i sample ticket commit :
  ConnOpen issued ev [] c -> ca_pending_shares (cn_actor c) !! t = Some p -> ps_vardiff_sample p = None ->
  issue ∈ issued -> is_ticket issue = t -> share_tracked sha256 events (cn_actor c) issue p ->
  matches_receipt p (vs_receipt commit) = true -> sk_ticket ticket = t -> EvSubmitted ticket (Ok commit) ∈ events ->
  accepts sha256 events ev (on_actor (complete t p i sample) c) (Boolean (is_id issue) true)
    [(is_id issue, ByCommit issue commit)] issued.
Proof.
  intros H Hp Hn Hin Ht Htr Hm Htk Hev. split; [done|]. split; [|split].
  - apply Forall_singleton. split; [done|]. split; [done|]. split; [by apply (tk_receipt _ _ _ _ _ Htr)|].
    exists ticket. by rewrite Ht.
  - rewrite fmap_app, omap_app. cbn. rewrite NoDup_app. split; [apply H|]. split; [|apply NoDup_singleton].
    intros x Hx Hx'. apply list_elem_of_singleton in Hx' as ->. rewrite Ht in Hx. by apply (oi_fresh _ _ _ _ _ _ _ _ H t p Hp Hn).
  - cbn. intros t' q Hq Hs Hx. apply list_elem_of_singleton in Hx as ->. rewrite Ht, lookup_insert_eq in Hq.
    by injection Hq as <-.
Qed.

Lemma drained_spec issued c : conn_answered issued (Ok tt) c ->
  leads (let* self := get_actor in
         if ca_closed self then st_ret tt else
         fun c => match drain_completed_timing c with
                  | (c, Ok _) => (c, Ok tt)
                  | (c, Err error) => (conn_close c, Err error)
                  end) (settled issued) c.
Proof.
  intros (ev & B & H). apply leads_bind. unfold leads at 1, get_actor. destruct (ca_closed (cn_actor c)) eqn:Ec.
  - exists ev. auto.
  - destruct H as [?|H]; [done|]. unfold leads, drain_completed_timing, get_actor, st_bind.
    pose proof (drain_spec _ _ _ _ _ _ _ _ H eq_refl) as Hd. unfold leads in Hd.
    destruct (drain_timing _ c) as [c1 [u|e]].
    + by eapply open_inv; apply Hd.
    + exists ev. by apply conn_close_base.
Qed.

Lemma complete_submission_spec issued ev ticket outcome c :
  ConnOpen issued ev [] c -> EvSubmitted ticket outcome ∈ events ->
  leads (complete_submission ticket outcome) (settled issued) c.
Proof.
  intros H Hev. unfold complete_submission. apply leads_bind. unfold leads at 1, require_open, get_actor at 1. unfold st_bind at 1.
  rewrite (oi_open _ _ _ _ _ _ _ _ H). unfold st_ret at 1. apply leads_bind. unfold leads at 1, get_actor at 1.
  assert (forall c0, Base issued ev c0 -> leads (closing (A := unit) CompletionTicketMismatch) (settled issued) c0) as Hclose.
  { intros c0 B0. exists ev. by apply conn_close_base. }
  case_bool_decide as Hid; cbn [negb]; [|apply Hclose, H]. destruct (completion_matches _ _) eqn:Hm; cbn [negb]; [|apply Hclose, H].
  destruct (ca_pending_shares (cn_actor c) !! sk_ticket ticket) as [p|] eqn:Hp; [|apply Hclose, H].
  cbn in Hm. apply andb_true_iff in Hm as [Hn Hm]. apply bool_decide_eq_true_1 in Hn.
  destruct (pending_issue _ _ _ _ _ _ H Hp) as (issue & Hin & Ht & Htr).
  pose proof (tk_slot _ _ _ _ _ Htr) as Hsl. rewrite Hn in Hsl. destruct Hsl as (i & Hi & Hslot).
  apply leads_bind. unfold leads at 1, update_actor, st_modify. rewrite Hi. apply leads_bind. unfold leads at 1.
  rewrite (take_eq i (is_id issue)) by done. set (sample := completion_sample p outcome).
  assert (ConnOpen issued ev [is_id issue] (on_actor (complete (sk_ticket ticket) p i sample) c)) as H1.
  { eapply complete_share; try done. exists ticket, outcome. split; [done|]. split; [done|]. unfold sample, completion_sample, sample_of.
    rewrite (tk_recovery _ _ _ _ _ Htr). by destruct outcome. }
  match goal with |- leads _ _ ?c1 => change c1 with (on_actor (complete (sk_ticket ticket) p i sample) c) end.
  set (c1 := on_actor (complete (sk_ticket ticket) p i sample) c) in *.
  assert (forall c2, ConnOpen issued ev [is_id issue] c2 -> cn_actor c2 = cn_actor c1 ->
    leads (do* answer_submission (is_id issue) outcome in
           let* self := get_actor in
           if ca_closed self then st_ret tt else
           fun c => match drain_completed_timing c with
                    | (c, Ok _) => (c, Ok tt)
                    | (c, Err error) => (conn_close c, Err error)
                    end) (settled issued) c2) as Hrest.
  { intros c2 H2 E2. apply leads_bind. eapply leads_mono; [apply (answer_spec issued ev); [done|]|].
    - intros commit ->. exists (ByCommit issue commit). unfold accepts. rewrite E2. by eapply commit_accepts.
    - intros [[]|e] c3 H3; [by apply drained_spec|done]. }
  apply leads_bind. destruct (completion_outcome outcome) as [o|]; [|by apply Hrest].
  unfold leads at 1. destruct (record_outcome_open _ _ _ _ _ _ _ _ o H1) as (c2 & -> & H2 & E2). by apply Hrest.
Qed.

(** ** Updates and clocks *)

Lemma apply_update_spec {order : VisitOrder} issued ev job_update c :
  ConnOpen issued ev [] c -> Front (cn_actor c) ->
  leads (apply_job_update job_update) (settled issued) c.
Proof.
  intros H Hf. unfold apply_job_update. apply leads_bind. unfold leads at 1, require_open, get_actor. unfold st_bind at 1.
  rewrite (oi_open _ _ _ _ _ _ _ _ H). unfold st_ret at 1. destruct job_update as [g clean|job|].
  - apply leads_bind. unfold leads at 1. rewrite on_router_eq.
    pose proof (elsewhere_open _ _ _ _ _ _ _ c (fst (rv_current_generation (cn_router c))) (cn_allocator c) H
      (fun ids => current_kept _ _ _ ids (surjective_pairing _))) as H'.
    destruct (rv_current_generation (cn_router c)) as [r [cur|e]] eqn:Er; cbn [fst snd map_err] in *; [|exists ev; apply H'].
    case_bool_decide as Hid.
    + destruct cur as [g0|]; [|done]. cbn in Hid. injection Hid as Hid.
      eapply leads_mono; [apply (announce_spec sha256 received sent events issued ev); [exact H'|]|].
      { exists (cn_router c), g0. split; [done|]. split; [done|]. intros Hl. apply (oi_told _ _ _ _ _ _ _ _ H Hl). }
      intros [[]|e] c' Hc'; [|by exists ev]. destruct Hc' as (Ho & E1 & E2). eapply open_inv; [exact Ho|].
      unfold Front in *. by rewrite E1, E2.
    + destruct clean; [|by eapply open_inv]. eapply open_inv; [by apply (lineage_open _ _ _ _ issued ev)|exact Hf].
  - do 3 (apply leads_bind; unfold leads at 1, update_actor, st_modify). cbn [cn_actor on_actor cn_set_actor].
    apply leads_bind. unfold leads at 1. rewrite on_router_eq. unfold on_actor, cn_set_actor. cbn [cn_actor cn_router cn_allocator cn_telemetry].
    destruct (rv_winner_recovery_job_ids (cn_router c)) as [r [l|e]] eqn:Er; cbn [fst snd map_err].
    + unfold leads, st_modify, on_actor, cn_set_actor. cbn [cn_actor cn_router cn_allocator cn_telemetry].
      eapply (open_inv _ _ _ _ _ ev); [|exact Hf].
      apply (work_open _ _ _ _ _ _ _ (mkConnection (cn_actor c) r (cn_allocator c) (cn_telemetry c))
        (retain_winner_recovery_jobs l (retire_announced_job job (ca_session (cn_actor c))))
        (delete job (ca_assignments (cn_actor c))) (ca_advertised_lineage (cn_actor c) ∖ {[job]})).
      * apply elsewhere_open; [done|]. intros ids ? ?. by eapply rm_recovery.
      * apply fewer_retain, fewer_retire, fewer_refl, H.
      * intros id b Hb. by apply lookup_delete_Some in Hb as [_ Hb].
    + exists ev. destruct (oi_base _ _ _ _ _ _ _ _ H) as [B1 B2 B3 B4 B5 B6]. split; try done. cbn.
      pose proof (fj_worker _ _ _ (fewer_retire _ _ _ job (fewer_refl _ (oi_session _ _ _ _ _ _ _ _ H)))) as Hw. by rewrite Hw.
  - by eapply (conn_close_inv _ _ _ _ _ ev), H.
Qed.

Lemma tick_spec issued ev now_ms c : ConnOpen issued ev [] c -> Front (cn_actor c) ->
  leads (tick_vardiff now_ms) (settled issued) c.
Proof.
  intros H Hf. unfold tick_vardiff. apply leads_bind. unfold leads at 1, require_open, get_actor at 1. unfold st_bind at 1.
  rewrite (oi_open _ _ _ _ _ _ _ _ H). unfold st_ret at 1. unfold leads, get_actor, st_bind.
  destruct (ca_vardiff (cn_actor c)) as [v|] eqn:Ev; [|by eapply open_inv].
  pose proof (controller_open _ _ _ _ _ _ _ _ _ (OpTick now_ms) H Ev eq_refl) as H1. unfold on_vardiff. cbn [vardiff_run] in H1.
  destruct (tick now_ms v) as [v' [u|e]]; cbn [fst map_err] in *; [by eapply open_inv|exists ev; apply H1].
Qed.

Lemma reconcile_settled {order : VisitOrder} issued ev c : ConnOpen issued ev [] c -> Front (cn_actor c) ->
  leads reconcile_jobs (settled issued) c.
Proof.
  intros H Hf. eapply leads_mono; [by apply (reconcile_spec sha256 received sent events issued ev)|].
  intros [[]|e] c' Hc'; [|by exists ev]. destruct Hc' as (Ho & Q & _). eapply open_inv; [exact Ho|by eapply front_same].
Qed.
End Steps.
