(* ===== verification/ConnectionRouter.v ===== *)
(** The generation router as a connection sees it (crates/wcash-pool-edge/src/router.rs called from
    connection.rs): every call reads the clock and takes the lock once, and finds the router as the
    calls of other threads left it. *)

From Stdlib Require Import ZArith Lia.
From stdpp Require Import prelude gmap sorting strings.
From S2P Require Import Prelude Wire Target Limbs Vardiff Nonce LargestRemainder RateLimit Backend Stream Framing Hex Zip301 Jobs JobsInv JobsWorld JobsLife JobsProps Session BackendClient BackendClientProps BackendClientHistory Router RouterProps RouterThreads Edge Connection ConnectionRun.
Open Scope Z_scope.

(** A router with the readings of the clock its callers will see, and the calls other threads make
    before each of theirs. *)
Record RouterClock : Type := mkRouterClock {
  rc_router : JobRouter;
  rc_clock : nat -> Z;
  rc_others : nat -> list ThreadCall;
  rc_reads : nat
}.

Section View.
Context (sha256 : list Z -> list Z).

(** The router when the next call gets the lock. *)
Definition when_locked (r : RouterClock) : JobRouter :=
  foldl (fun router call => run_thread sha256 call router) (rc_router r) (rc_others r (rc_reads r)).

Definition at_next_reading {A} (call : Z -> RouterM A) : M RouterClock JobRouterError A :=
  fun r => let '(router, x) := call (rc_clock r (rc_reads r)) (when_locked r) in
           (mkRouterClock router (rc_clock r) (rc_others r) (S (rc_reads r)), x).

Definition release_context (context : SubmissionContext) (r : RouterClock) : RouterClock :=
  let state := router_state (rc_router r) in
  mkRouterClock (set_router_state (set_world (drop_admission (sc_admission context) (rs_world state)) state) (rc_router r))
    (rc_clock r) (rc_others r) (rc_reads r).

Definition router_view : RouterView RouterClock := {|
  rv_current_generation := at_next_reading router_current_generation;
  rv_retained_job_ids := at_next_reading retained_job_ids;
  rv_winner_recovery_job_ids := at_next_reading router_winner_recovery_job_ids;
  rv_prepare_submission := fun session login job time suffix solution =>
    at_next_reading (router_prepare_submission sha256 session login job time suffix solution);
  rv_release := release_context
|}.
End View.

Section Laws.
Context (sha256 : list Z -> list Z).
#[local] Hint Extern 0 (RouterView RouterClock) => exact (router_view sha256) : typeclass_instances.

(** *** A prepared share belongs to the session *)

Lemma prepare_mode_sound session login job time suffix solution now paused w w' context :
  prepare_submission_mode sha256 session login job time suffix solution now paused w = (w', Ok context) ->
  ms_state session = Authorized /\ sc_session_id context = ms_id session /\
  (exists worker, ms_worker session = Some worker /\ aw_canonical_login worker = login /\
     sc_identity context = backend_identity worker) /\
  (exists x, find_assignment session job = Some x /\
     sc_target_le context = ShareTarget_to_backend (tb_target (ja_target x))).
Proof.
  unfold prepare_submission_mode, require. st_unfold. case_bool_decide as Hst; [|done].
  destruct (ms_worker session) as [worker|]; [|done]. destruct (ms_nonce_prefix session) as [prefix|]; [|done].
  case_bool_decide as Hl; cbn [negb]; [|done]. destruct (find_assignment session job) as [x|]; [|done].
  destruct (join_nonce prefix suffix) as [nonce|]; [|done].
  destruct (admit_submission _ _ _ _ _ _ _ _ w) as [w1 [admission|]]; [|done].
  destruct (check_generation _ _ _ _) as [[]|]; [|done]. intros [= <- <-]. cbn.
  split; [done|]. split; [done|]. split; [by exists worker|by exists x].
Qed.

Lemma router_prepare_sound : @PrepareSound RouterClock (router_view sha256).
Proof.
  intros session login job time suffix solution r r' context. cbn. unfold at_next_reading, router_prepare_submission.
  unfold lock, router_now_ms. st_unfold. set (router := when_locked sha256 r). destruct (router_poisoned router); [done|].
  destruct (timeline_now_ms _ _) as [ms|]; [|done]. cbn [map_err].
  assert (forall q paused, let '(s, x) := with_world RouterSession
      (prepare_submission_mode sha256 session login job time suffix solution ms paused) q in x = Ok context ->
    ms_state session = Authorized /\ sc_session_id context = ms_id session /\
    (exists worker, ms_worker session = Some worker /\ aw_canonical_login worker = login /\
       sc_identity context = backend_identity worker) /\
    (exists x, find_assignment session job = Some x /\
       sc_target_le context = ShareTarget_to_backend (tb_target (ja_target x)))) as Hmode.
  { intros q paused. unfold with_world. destruct (prepare_submission_mode _ _ _ _ _ _ _ _ _ _) as [w [ctx|e]] eqn:E; cbn; [|done].
    intros [= ->]. by eapply prepare_mode_sound. }
  unfold router_locked. destruct (rs_health_paused _).
  - destruct (with_registry _ _) as [s1 [ids|]]; [|done]. destruct (rs_recovery_only _); [|done].
    cbn [router_state set_router_state]. specialize (Hmode s1 true). unfold prepare_paused_zcash_candidate.
    destruct (with_world _ _ s1) as [s2 x]. intros [= _ ->]. by apply Hmode.
  - specialize (Hmode (router_state router) false). unfold prepare_submission.
    destruct (with_world _ _ _) as [s2 x]. intros [= _ ->]. by apply Hmode.
Qed.

(** *** The current generation under reads *)

#[local] Existing Instance router_view.
#[local] Abbreviation reg r := (rs_registry (router_state (rc_router r))).

Definition router_knows (r : RouterClock) (ids : gset JobId) : Prop :=
  keyed (reg r) /\ forall id, id ∈ ids -> is_Some (entries (reg r) !! id).

Lemma knows_remembers r r' ids : remembers (reg r) (reg r') -> router_knows r ids -> router_knows r' ids.
Proof. intros [H1 H2] [K1 K2]. split; [by apply H2|]. intros id Hid. by apply H1, K2. Qed.

(** A call of the connection with those of other threads before it. *)
Lemma reading_advances {A} (call : Z -> RouterM A) r r' x :
  (forall now q, advances (rs_registry (router_state q)) (rs_registry (router_state (fst (call now q))))) ->
  at_next_reading sha256 call r = (r', x) -> advances (reg r) (reg r').
Proof.
  intros Hc. unfold at_next_reading. specialize (Hc (rc_clock r (rc_reads r)) (when_locked sha256 r)).
  destruct (call _ _) as [q y]. intros [= <- <-]. etrans; [apply (threads_advance sha256)|exact Hc].
Qed.

Lemma current_advances r r' x : rv_current_generation r = (r', x) -> advances (reg r) (reg r').
Proof. apply reading_advances. intros now q. apply (query_advances QCurrent). Qed.
Lemma retained_advances r r' x : rv_retained_job_ids r = (r', x) -> advances (reg r) (reg r').
Proof. apply reading_advances. intros now q. apply (query_advances QRetained). Qed.
Lemma recovery_advances r r' x : rv_winner_recovery_job_ids r = (r', x) -> advances (reg r) (reg r').
Proof. apply reading_advances. intros now q. apply (query_advances QRecoveryIds). Qed.

(** The generation a read names is the current one and filed under its identifier. *)
Lemma current_read r r' g : rv_current_generation r = (r', Ok (Some g)) -> keyed (reg r') ->
  current (reg r') = Some (bg_id g) /\ is_Some (entries (reg r') !! bg_id g).
Proof.
  cbn. unfold at_next_reading, router_current_generation, lock, router_now_ms, router_locked. st_unfold.
  set (q := when_locked sha256 r). destruct (router_poisoned q); [done|].
  destruct (timeline_now_ms _ _) as [ms|]; [|done]. cbn [map_err].
  unfold with_registry, with_world, on_registry, current_generation, st_bind. rewrite advance_clock_eval.
  destruct (moved_backwards _ _); [done|]. unfold st_get. set (reg1 := ticked ms _). clearbody reg1.
  destruct (current reg1) as [id|] eqn:Ec; cbn [fst snd map_err]; [|cbn; destruct (rs_health_paused (router_state q)); intros E; discriminate E].
  cbn. destruct (rs_health_paused (router_state q)); [intros E; discriminate E|]. intros [= <- E] Hk. unfold rs_registry in *. cbn in *.
  unfold opt_filter in E. destruct (entries reg1 !! id) as [e|] eqn:Ee; [|done]. destruct (synchronized reg1 && _); [|done]. injection E as <-.
  rewrite (Hk _ _ Ee). split; [exact Ec|by rewrite Ee].
Qed.

#[refine] Definition router_memory : @RouterMemory RouterClock (router_view sha256) :=
  {| rm_knows := router_knows; rm_lawful := True |}.
Proof.
  - intros r ids ids' [K1 K2] Hs. split; [done|]. intros id Hid. by apply K2, Hs.
  - intros r r' x ids _ K E. pose proof (knows_remembers _ _ _ (av_remembers _ _ (current_advances _ _ _ E)) K) as [K1 K2].
    destruct x as [[g|]|]; try done. split; [done|]. intros id [->%elem_of_singleton|Hid]%elem_of_union; [|by apply K2].
    by apply (current_read _ _ _ E).
  - intros r r' x ids _ K E. eapply knows_remembers, K. by eapply av_remembers, retained_advances.
  - intros r r' x ids _ K E. eapply knows_remembers, K. by eapply av_remembers, recovery_advances.
  - intros session login job time suffix solution r r' x ids _ K E. eapply knows_remembers, K.
    eapply av_remembers, reading_advances, E. intros now q. apply prepare_advances.
  - intros context r ids _. apply knows_remembers, av_remembers, (drop_moving (sc_admission context)).
  - intros r r1 r2 r3 r4 g g' l l' ids _ K E1 E2 E3 E4.
    pose proof (knows_remembers _ _ _ (av_remembers _ _ (current_advances _ _ _ E1)) K) as [K1 K2].
    assert (advances (reg r1) (reg r4)) as Ha.
    { etrans; [by eapply retained_advances|]. etrans; [by eapply recovery_advances|by eapply current_advances]. }
    destruct (current_read _ _ _ E1 K1) as [C1 _].
    destruct (current_read _ _ _ E4 (rb_keyed _ _ (av_remembers _ _ Ha) K1)) as [C4 _].
    destruct (av_current _ _ Ha _ C4) as [H|H]; [left; congruence|]. right. intros Hin. destruct (K2 _ Hin) as [e He]. congruence.
Defined.
End Laws.

(** ** A concrete connection *)

Definition demo_limits : ConnectionLimits := mkConnectionLimits 64 8 8 4.
Definition demo_edge_config : EdgeConfig := mkEdgeConfig demo_limits (mkRateLimit 100 1000) 60 30 30 30 30.
Definition demo_mining_policy : MiningPolicy := mkMiningPolicy (mkVardiffConfig 8 160000 2500 4 ShareTarget_MAX) ShareTarget_MAX.
Definition demo_router_clock : RouterClock := mkRouterClock demo_router (fun n => 400 + Z.of_nat n) (fun _ => []) 0.
Definition demo_conn_run : ConnRun (R := RouterClock) (json := demo_json) :=
  match ConnectionActor_new 3 demo_edge_config demo_mining_policy 1 with
  | Ok a => mkConnRun (mkConnection a demo_router_clock (demo_allocator 0 2) []) [] [] [] []
  | Err _ => mkConnRun (mkConnection (mkConnectionActor demo_edge_config demo_mining_policy demo_connected
               (RequestRateLimiter_new (mkRateLimit 100 1000) 1) None ∅ ∅ [] [] None None ∅ [] 1 false true)
               demo_router_clock (demo_allocator 0 2) []) [] [] [] []
  end.
Lemma demo_conn_started : conn_started demo_conn_run.
Proof. exists 3, demo_edge_config, demo_mining_policy, 1. eexists _, _, _. split; [vm_compute; reflexivity|reflexivity]. Defined.

#[export] Instance demo_order : VisitOrder := {| visit m := (map_to_list m).*1; visit_all m := Permutation_refl _ |}.

(** A miner subscribes, is authorised, receives its first work and submits a share. *)
Definition demo_login_events : list (VisitOrder * conn_event (json := demo_json) (R := RouterClock)) :=
  pair demo_order <$>
  [EvRequest (Subscribe (IdNumber 1) []) 10; EvPop;
   EvRequest (Authorize (IdNumber 2) "rig.1" "x") 20;
   EvAuthorized (mkAuthenticationTicket 3 1 "rig.1" "x") (Ok (mkAuthenticationGrant demo_worker 5))].
Definition demo_login : ConnRun (R := RouterClock) (json := demo_json) :=
  @run_events _ (router_view demo_sha256) demo_json demo_sha256 demo_conn_run demo_login_events.

Definition demo_share_time : Hex4 :=
  match generation (rs_registry (router_state demo_router)) (demo_id 1) with Some g => header_time g | None => demo_hex 4 0 end.
Definition demo_submit : Zip301Request (json := demo_json) :=
  Submit (IdNumber 3) "rig.1" (demo_hex 32 1) demo_share_time (TwentyEight (demo_hex 28 9)) (demo_hex 1344 7).
Definition demo_submitted : ConnRun (R := RouterClock) (json := demo_json) :=
  @run_event _ (router_view demo_sha256) demo_json demo_sha256 demo_order (EvRequest demo_submit 30) demo_login.

(** The same miner, its share committed. *)
Definition demo_share_commit : VerifiedShareCommit :=
  mkVerifiedShareCommit (mkShareReceipt 9 (demo_hex 32 1) (demo_hex 32 1) (demo_hex 32 1) (demo_hex 32 2) []) false.
Definition demo_conn_events : list (VisitOrder * conn_event (json := demo_json) (R := RouterClock)) :=
  demo_login_events ++ (pair demo_order <$>
  [EvPop; EvRequest demo_submit 30; EvTick 30; EvSubmitted (mkShareTicket 3 2) (Ok demo_share_commit)]).
