(* ===== verification/ConnectionProps.v ===== *)
(** What a connection promises (crates/wcash-pool-edge/src/connection.rs): under every history of
    requests, completions and job updates, each request is answered once, a share is acknowledged
    only with the receipt of exactly that share, targets reach the miner before the work they
    govern, and difficulty samples are taken in the order of admission. *)

From Stdlib Require Import ZArith Lia.
From stdpp Require Import prelude gmap sorting strings.
From S2P Require Import Prelude Wire Target Limbs Vardiff Nonce LargestRemainder RateLimit Backend Stream Framing Hex Zip301 Jobs JobsInv JobsWorld JobsLife JobsProps Session BackendClient BackendClientProps BackendClientHistory Router RouterProps RouterThreads Edge Connection ConnectionRun ConnectionInv ConnectionSteps ConnectionRouter.
Open Scope Z_scope.

Section RunInvariant.
Context {R : Type} {view : RouterView R} {json : JsonOps} {memory : RouterMemory (R := R)}.
Context (sha256 : list Z -> list Z).

Implicit Types (c : Connection R) (issued : list Issue) (ev : list (Zip301Id * Evidence)) (s : ConnRun (R := R)).

(** ** Longer records *)

Lemma verdict_more events more issue b : verdict (R := R) events issue b -> verdict (events ++ more) issue b.
Proof. intros (t & o & H & H'). exists t, o. split; [apply elem_of_app; by left|done]. Qed.

Lemma tracked_more events more a issue p :
  share_tracked (R := R) sha256 events a issue p -> share_tracked sha256 (events ++ more) a issue p.
Proof.
  intros [H1 H2 H3 H4 H5]. split; try done. destruct (ps_vardiff_sample p); [|done]. destruct H5. split; [done|by apply verdict_more].
Qed.

Lemma base_events received sent events more issued ev c :
  Base sha256 received sent events issued ev c -> Base sha256 received sent (events ++ more) issued ev c.
Proof.
  intros [H1 H2 H3 H4 H5 H6]. split; try done. eapply Forall_impl; [exact H4|]. intros [id e]. unfold evidence_ok. cbn.
  destruct e; [intros [? ?]; split; [apply elem_of_app; by left|done]|].
  intros (E1 & E2 & E3 & t & E4 & E5). refine (conj E1 (conj E2 (conj E3 _))). exists t. split; [done|apply elem_of_app; by left].
Qed.

Lemma base_received received more sent events issued ev c :
  Base sha256 received sent events issued ev c -> Base sha256 (received ++ more) sent events issued ev c.
Proof. intros [H1 H2 H3 H4 H5 H6]. split; try done. by apply submseteq_inserts_r. Qed.

Lemma open_events received sent events more issued ev owed c :
  ConnOpen sha256 received sent events issued ev owed c -> ConnOpen sha256 received sent (events ++ more) issued ev owed c.
Proof.
  intros [B H2 H3 H4 (done & waiting & verdicts & H5 & [T1 T2 T3 T4 T5 T6 T7]) H7 H8 H9]. split; try done.
  - by apply base_events.
  - exists done, waiting, verdicts. split; [done|]. split; try done.
    + eapply Forall2_impl; [exact T4|]. intros. by apply verdict_more.
    + intros x Hx. destruct (T5 x Hx) as (p & Hp & Tp). exists p. split; [done|by apply tracked_more].
Qed.

Lemma open_received received id sent events issued ev c :
  ConnOpen sha256 received sent events issued ev [] c -> ConnOpen sha256 (received ++ [id]) sent events issued ev [id] c.
Proof.
  intros [B H2 H3 H4 H5 H7 H8 H9]. split; try done; [by apply base_received|]. rewrite H3, app_nil_r. by rewrite <- !(assoc_L (++)).
Qed.

Lemma inv_events received sent events more issued c :
  ConnInv sha256 received sent events issued c -> ConnInv sha256 received sent (events ++ more) issued c.
Proof.
  intros (ev & B & H). exists ev. split; [by apply base_events|]. destruct H as [?|[H Hf]]; [by left|right].
  split; [by apply open_events|done].
Qed.

(** ** The invariant of a run *)

Definition RunInv s : Prop := ConnInv sha256 (rn_received s) (rn_sent s) (rn_events s) (rn_issued s) (rn_conn s).

Lemma settle_inv {A} received sent events issued (out : Connection R * result A ConnectionActorError) :
  settled sha256 received sent events issued (snd out) (fst out) ->
  ConnInv sha256 received sent events issued (fst (close_on_error out)).
Proof. destruct out as [c [x|e]]; cbn; [done|]. intros [ev B]. by eapply conn_close_inv. Qed.

(** A handler that only runs on an open connection. *)
Lemma handler_inv {A} (m : CM A) s (event : conn_event) :
  RunInv s -> (forall c, ca_closed (cn_actor c) = true -> m c = (c, Err ActorClosed)) ->
  (forall ev, ConnOpen sha256 (rn_received s) (rn_sent s) (rn_events s ++ [event]) (rn_issued s) ev [] (rn_conn s) ->
     Front (cn_actor (rn_conn s)) ->
     leads m (settled sha256 (rn_received s) (rn_sent s) (rn_events s ++ [event]) (rn_issued s)) (rn_conn s)) ->
  RunInv (with_conn (fst (close_on_error (m (rn_conn s)))) event s).
Proof.
  intros (ev & B & H) Hclosed Hopen. unfold RunInv. cbn. apply settle_inv. destruct H as [Hc|[H Hf]].
  - rewrite (Hclosed _ Hc). cbn. exists ev. by apply base_events.
  - specialize (Hopen ev (open_events _ _ _ _ _ _ _ _ H) Hf). unfold leads in Hopen. by destruct (m (rn_conn s)).
Qed.

Lemma closed_handler {A} (k : CM A) c : ca_closed (cn_actor c) = true -> (do* require_open in k) c = (c, Err ActorClosed).
Proof. intros H. unfold require_open, get_actor. st_unfold. by rewrite H. Qed.

Lemma request_inv s request now_ms order : RunInv s -> RunInv (run_event sha256 order (EvRequest request now_ms) s).
Proof.
  intros (ev & B & H). cbn [run_event]. set (c := rn_conn s) in *. destruct H as [Hc|[H Hf]].
  - assert (handle_request sha256 request now_ms c = (c, Err ActorClosed)) as -> by by apply closed_handler.
    rewrite Hc. cbn. unfold RunInv. cbn. rewrite !app_nil_r. apply (conn_close_inv _ _ _ _ _ ev). by apply base_events.
  - rewrite (oi_open _ _ _ _ _ _ _ _ H). cbn [negb andb]. set (more := if expects_reply _ _ _ then _ else _).
    set (rc := rn_received s ++ more). set (evs := rn_events s ++ [_]).
    assert (ConnOpen sha256 rc (rn_sent s) evs (rn_issued s) ev
      (if expects_reply (cn_actor c) request now_ms then [Zip301Request_id request] else []) c) as H1.
    { apply open_events. unfold rc, more. destruct (expects_reply _ _ _); [by apply open_received|by rewrite app_nil_r]. }
    pose proof (handle_request_spec sha256 _ _ _ _ _ _ now_ms _ H1 Hf) as Hs. unfold leads in Hs.
    destruct (handle_request sha256 request now_ms c) as [c1 [action|e]]; cbn [close_on_error].
    + exact Hs.
    + cbn. unfold RunInv. cbn. rewrite app_nil_r. destruct Hs as [ev1 B1]. by eapply conn_close_inv.
Qed.

Lemma pop_inv s order : RunInv s -> RunInv (run_event sha256 order EvPop s).
Proof.
  intros (ev & B & H). cbn [run_event]. unfold pop_outbound. destruct (ca_outbound (cn_actor (rn_conn s))) as [|m rest] eqn:Eo.
  { unfold RunInv. cbn. rewrite app_nil_r. exists ev. split; [by apply base_events|]. destruct H as [?|[H Hf]]; [by left|right].
    split; [by apply open_events|done]. }
  assert (emitted (rn_sent s ++ [m]) (ca_set_outbound rest (cn_actor (rn_conn s))) = emitted (rn_sent s) (cn_actor (rn_conn s))) as He.
  { unfold emitted. cbn. by rewrite Eo, <- (assoc_L (++)). }
  assert (Base sha256 (rn_received s) (rn_sent s ++ [m]) (rn_events s ++ [EvPop]) (rn_issued s) ev
    (on_actor (ca_set_outbound rest) (rn_conn s))) as B'.
  { apply base_events. destruct B as [B1 B2 B3 B4 B5 B6]. split; cbn [cn_actor on_actor cn_set_actor]; rewrite ?He; try done.
    rewrite Eo in B2. cbn in B2. unfold outbound_capacity in *. cbn. lia. }
  unfold RunInv. cbn. exists ev. split; [exact B'|]. destruct H as [Hc|[H Hf]]; [by left|right]. split; [|exact Hf].
  pose proof (open_events _ _ _ [EvPop] _ _ _ _ H) as [_ H2 H3 H4 (done & waiting & verdicts & H5 & H6) H7 H8 H9].
  split; cbn [cn_actor on_actor cn_set_actor]; rewrite ?He; try done.
  - destruct H4. by split.
  - exists done, waiting, verdicts. split; [done|]. destruct H6 as [T1 T2 T3 T4 T5 T6 T7]. split; try done.
    intros x Hx. destruct (T5 x Hx) as (q & Hq & Tq). exists q. split; [done|]. destruct Tq. by split.
  - destruct H8. by split.
  - intros Hl. destruct (H9 Hl) as [T K]. split; [|exact K]. intros x Hx. rewrite He. by apply T.
Qed.

(** Other threads forget nothing the router knows. *)
Definition elsewhere_remembers s event : Prop :=
  match event with
  | EvElsewhere r _ => forall ids, rm_lawful -> rm_knows (cn_router (rn_conn s)) ids -> rm_knows r ids
  | _ => True
  end.

Lemma event_inv order event s : RunInv s -> elsewhere_remembers s event -> RunInv (run_event sha256 order event s).
Proof.
  intros H Hr. destruct event as [request now_ms|ticket outcome|ticket outcome|u|now_ms| | | |r al].
  - by apply request_inv.
  - cbn [run_event]. apply handler_inv; [done|intros c; apply closed_handler|]. intros ev Ho Hf.
    apply (complete_authorization_spec sha256 _ _ _ _ ev); [done..|]. apply elem_of_app. right. by left.
  - cbn [run_event]. apply handler_inv; [done|intros c; apply closed_handler|]. intros ev Ho Hf.
    apply (complete_submission_spec sha256 _ _ _ _ ev); [done|]. apply elem_of_app. right. by left.
  - cbn [run_event]. apply handler_inv; [done|intros c; apply closed_handler|]. intros ev Ho Hf.
    by apply (apply_update_spec sha256 _ _ _ _ ev).
  - cbn [run_event]. apply handler_inv; [done|intros c; apply closed_handler|]. intros ev Ho Hf.
    by apply (tick_spec sha256 _ _ _ _ ev).
  - cbn [run_event]. apply handler_inv; [done|intros c; apply closed_handler|]. intros ev Ho Hf.
    by apply (reconcile_settled sha256 _ _ _ _ ev).
  - by apply pop_inv.
  - cbn [run_event]. unfold RunInv, transport_failed. cbn. destruct H as (ev & B & _).
    apply (conn_close_inv _ _ _ _ _ ev). by apply base_events.
  - cbn [run_event]. unfold RunInv. cbn. apply inv_events. destruct H as (ev & B & H). exists ev.
    split; [by apply elsewhere_base|]. destruct H as [?|[H Hf]]; [by left|right]. split; [by apply elsewhere_open; [|exact Hr]|done].
Qed.

Lemma conn_started_inv s : conn_started s -> (rm_lawful -> rm_knows (cn_router (rn_conn s)) ∅) -> RunInv s.
Proof.
  intros Hst0 Hk0. destruct Hst0 as (sid & config & policy & now_ms & a & r & al & Ha & ->). cbn in Hk0. unfold ConnectionActor_new in Ha.
  destruct (MiningSession_new sid _) as [session|e] eqn:Es; [|done]. cbn in Ha. injection Ha as <-.
  pose proof (MiningSession_new_inv _ _ _ Es) as Hi.
  assert (ms_state session = Connected /\ jobs_of session = []) as [Hst Hj].
  { unfold MiningSession_new in Es. repeat case_match; try done. by injection Es as <-. }
  exists []. split; [|right; split; [|done]].
  - split; cbn; try done; [lia|constructor|by left].
  - split; cbn; try done.
    + split; cbn; try done; [lia|constructor|by left].
    + split; cbn; [constructor| |lia]. intros i. rewrite lookup_nil. split; [by intros ?%elem_of_nil|by intros []].
    + exists [], [], []. split; [done|]. split; cbn; try done; [constructor|by intros ? ?%elem_of_nil|].
      intros t. rewrite lookup_empty. by intros [].
    + split; cbn; rewrite ?Hst, ?Hj; try done; [|rewrite map_size_empty; lia].
      intros x Hx. assert (x ∈ jobs_of session) as Hx' by (unfold jobs_of; apply elem_of_app; by left).
      rewrite Hj in Hx'. by apply elem_of_nil in Hx'.
    + intros Hl. split; [|by rewrite dom_empty_L; apply Hk0]. intros x. cbn. rewrite Hj. by intros ?%elem_of_nil.
Qed.

Lemma run_inv s evs : conn_started s -> (rm_lawful -> rm_knows (cn_router (rn_conn s)) ∅) ->
  (forall before order event after, evs = before ++ (order, event) :: after ->
     elsewhere_remembers (run_events sha256 s before) event) ->
  RunInv (run_events sha256 s evs).
Proof.
  intros Hs Hk. revert evs. refine (rev_ind _ _ _); [intros _; by apply conn_started_inv|].
  intros [o e] evs IH Hr. unfold run_events. rewrite foldl_app. cbn. fold (run_events sha256 s evs). apply event_inv.
  - apply IH. intros before order event after ->. apply (Hr before order event (after ++ [(o, e)])). by rewrite <- (assoc_L (++)).
  - by apply (Hr evs o e []).
Qed.
End RunInvariant.

(** Whatever the router does, all but the targets are accounted for. *)
Section Runs.
Context {R : Type} {view : RouterView R} {json : JsonOps}.
Context (sha256 : list Z -> list Z).

Implicit Types (c : Connection R) (s : ConnRun (R := R)).

Lemma run_inv_any s evs : conn_started s -> RunInv (memory := no_memory) sha256 (run_events sha256 s evs).
Proof. intros Hs. apply (run_inv (memory := no_memory)); [done..|]. intros ? ? [] ? _; try done. by intros ids []. Qed.

(** ** The claims *)

Lemma awaiting_length a : Slots a -> length (awaiting a) = length (held a).
Proof.
  intros [_ H _]. unfold awaiting. assert (forall i, i ∈ held a -> is_Some (mjoin (ca_response_ids a !! i))) as Hf by apply H.
  clear H. induction (held a) as [|i l IH]; [done|]. cbn. destruct (Hf i ltac:(by left)) as [id ->]. cbn. f_equal.
  apply IH. intros. apply Hf. by right.
Qed.

(** A submitted share was prepared by the router for the session as it was. *)
Lemma submitted_prepared c c' id worker job time nonce solution now_ms share :
  handle_request sha256 (Submit id worker job time nonce solution) now_ms c = (c', Ok (Some (SubmitShare share))) ->
  exists r, rv_prepare_submission (ca_session (cn_actor c)) worker (as_bytes job) time nonce solution (cn_router c)
    = (r, Ok (pn_context share)).
Proof.
  unfold handle_request, require_open, get_actor, admit_rate. unfold st_bind at 1 2. destruct (ca_closed _); [done|].
  unfold st_ret at 1, st_bind at 1. destruct (admit_request _ _) as [limiter [u|e]]; cbn [is_ok negb].
  2:{ unfold st_bind. by destruct (queue_error _ _ _) as [? []]. }
  unfold begin_submission, get_actor. unfold st_bind at 1. cbn [sw_job_id sw_worker sw_time sw_nonce_2 sw_solution].
  destruct (_ <=? _)%nat; [unfold st_bind; by destruct (queue_error _ _ _) as [? []]|].
  destruct (JobId_new (as_bytes job)) as [j|e] eqn:Ej.
  2:{ unfold st_bind. destruct (record_share_outcome _ _) as [c1 [[]|]]; [|done]. by destruct (queue_error _ _ _) as [? []]. }
  assert (j = as_bytes job) as -> by (unfold JobId_new in Ej; by destruct (all_zero _); simplify_eq).
  unfold ask_router. cbn [cn_actor on_actor cn_set_actor cn_router ca_session ca_set_rate_limiter].
  destruct (rv_prepare_submission _ _ _ _ _ _ _) as [r [context|e]] eqn:Ep.
  - unfold st_bind, st_ret, holding. destruct (track_share _ _ _ _ _ _) as [c2 [ticket|e]]; [|done].
    intros [= <- <-]. cbn. by exists r.
  - assert (forall (m : CM unit) c1, (do* m in do* queue_session_error id match e with RouterSession e => e | _ => LoginMismatch end in
      st_ret (@None ConnectionAction)) c1 <> (c', Ok (Some (SubmitShare share)))) as Hn.
    { intros m c1. unfold st_bind. destruct (m c1) as [c2 [[]|]]; [|done]. by destruct (queue_session_error _ _ _) as [? []]. }
    destruct e; try done. intros E. by destruct (Hn _ _ E).
Qed.

Lemma conn_close_closed c : ca_closed (cn_actor (conn_close c)) = true.
Proof. unfold conn_close. by destruct (ca_telemetry_connected (cn_actor c)), (ms_worker (ca_session (cn_actor c))). Qed.

(** A request that expects no reply puts nothing on the queue, or a target. *)
Lemma silent_request c request now_ms : ca_closed (cn_actor c) = false ->
  expects_reply (cn_actor c) request now_ms = false ->
  let a' := cn_actor (fst (close_on_error (handle_request sha256 request now_ms c))) in
  match request with
  | MultiVersion _ _ => ca_outbound a' = ca_outbound (cn_actor c)
  | SuggestTarget _ _ => ms_state (ca_session (cn_actor c)) = Authorized /\
      (ca_closed a' = true \/ exists target, ca_outbound a' = ca_outbound (cn_actor c) ++ [SetTarget target])
  | _ => False
  end.
Proof.
  intros Hc He. cbv zeta. set (out := handle_request _ _ _ _).
  assert (out = handle_request sha256 request now_ms c) as Eo by done. clearbody out. revert Eo.
  unfold handle_request, require_open, get_actor, admit_rate. unfold st_bind at 1 2. rewrite Hc.
  unfold st_ret at 1, st_bind at 1. unfold expects_reply in He.
  destruct request as [id params|id worker password|id t|id|id v|id worker job time nonce solution]; try done.
  - apply orb_false_iff in He as [He Ha]. apply negb_false_iff in He, Ha. apply bool_decide_eq_true_1 in Ha. intros Eo. split; [done|]. revert Eo.
    destruct (admit_request _ _) as [limiter x]. cbn [snd] in He. rewrite He. cbn [negb]. unfold st_bind at 1.
    cbn [cn_actor on_actor cn_set_actor ca_session ca_set_rate_limiter]. rewrite bool_decide_true by done. cbn [negb].
    unfold current_assigned_target. unfold st_bind. rewrite on_router_eq.
    destruct (rv_current_generation _) as [r [g|e]]; cbn [fst snd map_err]; [|intros ->; left; apply conn_close_closed].
    unfold get_actor, st_ret. rewrite queue_eq.
    destruct (_ <? _)%nat; intros ->; cbn [fst close_on_error]; [left; apply conn_close_closed|right; by eexists].
  - apply negb_false_iff in He. destruct (admit_request _ _) as [limiter x]. cbn [snd] in He. rewrite He. by intros ->.
Qed.

(** C16. One reply per request: whatever happens to a connection, no reply (a subscription, a boolean
    or an error carrying a request's identifier) is sent that no request asked for.  While the
    connection is open, the requests that expect a reply are exactly those replied to and those whose
    authorization or share is outstanding.  Every request expects a reply but two kinds, when the rate
    limit admits them: a version-rolling probe, on which nothing is queued, and the target suggestion
    of an authorised miner, on which one target is queued unless the connection closes.  The outbound
    queue, the side table of identifiers and the outstanding shares stay within the configured
    capacity. *)
Theorem one_reply_per_request s0 evs (started : conn_started s0) :
  let s := run_events sha256 s0 evs in
  let a := cn_actor (rn_conn s) in
  omap reply_id (rn_sent s ++ ca_outbound a) ⊆+ rn_received s /\
  (length (ca_outbound a) <= outbound_capacity a)%nat /\
  (ca_closed a = false ->
     rn_received s ≡ₚ omap reply_id (rn_sent s ++ ca_outbound a) ++ awaiting a /\
     length (awaiting a) = length (held a) /\
     (length (ca_response_ids a) <= outbound_capacity a)%nat /\
     (size (ca_pending_shares a) <= outbound_capacity a)%nat /\
     forall order request now_ms,
       let s' := run_event sha256 order (EvRequest request now_ms) s in
       let a' := cn_actor (rn_conn s') in
       if expects_reply a request now_ms then rn_received s' = rn_received s ++ [Zip301Request_id request]
       else rn_received s' = rn_received s /\
            is_ok (snd (admit_request now_ms (ca_rate_limiter a))) = true /\
            match request with
            | MultiVersion _ _ => ca_outbound a' = ca_outbound a
            | SuggestTarget _ _ => ms_state (ca_session a) = Authorized /\
                (ca_closed a' = true \/ exists target, ca_outbound a' = ca_outbound a ++ [SetTarget target])
            | _ => False
            end).
Proof.
  cbv zeta. destruct (run_inv_any s0 evs started) as (ev & B & H). split; [apply B|]. split; [apply B|].
  intros Hc. destruct H as [?|[H _]]; [congruence|]. split; [|split; [|split; [|split]]].
  - pose proof (oi_account _ _ _ _ _ _ _ _ H) as Ha. by rewrite app_nil_r in Ha.
  - apply awaiting_length, H.
  - apply (oi_slots _ _ _ _ _ _ _ _ H).
  - apply (oi_session _ _ _ _ _ _ _ _ H).
  - intros order request now_ms. cbn [run_event]. rewrite Hc. cbn [negb andb].
    pose proof (silent_request _ request now_ms Hc) as Hs.
    destruct (close_on_error _) as [c' action]. cbn [rn_received rn_conn fst] in *.
    destruct (expects_reply _ _ _) eqn:He; [done|]. rewrite app_nil_r. split; [done|]. split; [|by apply Hs].
    unfold expects_reply in He. destruct request; try done; [apply orb_false_iff in He as [He _]|]; by apply negb_false_iff in He.
Qed.

(** C11. No acceptance without evidence: the requests a connection accepts are, in order, those of a
    list of grants and receipts.  A share is accepted only on a completion that carries the receipt of
    exactly that job, proof, worker and target, for a ticket the connection issued for that request,
    and no ticket is accepted twice. *)
Theorem acceptance_needs_evidence s0 evs (started : conn_started s0) :
  let s := run_events sha256 s0 evs in
  exists evidence,
    fst <$> evidence = omap accept_id (rn_sent s ++ ca_outbound (cn_actor (rn_conn s))) /\
    Forall (evidence_ok sha256 (rn_issued s) (rn_events s)) evidence /\
    NoDup (omap commit_ticket (snd <$> evidence)).
Proof. cbv zeta. destruct (run_inv_any s0 evs started) as (ev & B & _). exists ev. split; [apply B|]. split; apply B. Qed.

(** C32. Difficulty samples follow admission: whatever the order in which shares complete, the
    controller of an open connection is the one obtained by observing, in the order the shares were
    admitted, those of the longest completed prefix that count, each under its own target and time;
    the first share after the prefix is not complete. *)
Theorem samples_in_admission_order s0 evs (started : conn_started s0) :
  let s := run_events sha256 s0 evs in
  let a := cn_actor (rn_conn s) in
  ca_closed a = false ->
  exists done waiting verdicts,
    rn_issued s = done ++ waiting /\ StronglySorted Z.lt (is_ticket <$> rn_issued s) /\
    Forall2 (verdict (rn_events s)) done verdicts /\
    ca_timing_order a = is_ticket <$> waiting /\
    match waiting with
    | [] => True
    | issue :: _ => exists p, ca_pending_shares a !! is_ticket issue = Some p /\ ps_vardiff_sample p = None
    end /\
    match ca_vardiff a with
    | None => rn_issued s = []
    | Some v =>
        exists v0 ops w z, VardiffController_new (mp_vardiff (ca_policy a)) w z (mp_initial_target (ca_policy a)) 1 = Ok v0 /\
          v = vardiff_history ops v0 /\ omap observation ops = samples done verdicts
    end.
Proof.
  cbv zeta. intros Hc. destruct (run_inv_any s0 evs started) as (ev & B & H). destruct H as [?|[H Hf]]; [congruence|].
  destruct (oi_timing _ _ _ _ _ _ _ _ H) as (done & waiting & verdicts & Hi & [T1 T2 T3 T4 T5 T6 T7]).
  exists done, waiting, verdicts. rewrite Hi. split; [done|]. split; [done|]. split; [done|]. split; [done|]. split.
  - unfold Front in Hf. rewrite T1 in Hf. by destruct waiting.
  - destruct (ca_vardiff _); [|done]. destruct T7 as (v0 & ops & E1 & E2 & w & z & E3). by exists v0, ops, w, z.
Qed.

(** C33. Telemetry is balanced: a connection reports one worker at most, reports its departure exactly
    when it closes, and while it is open the worker reported is the one its session authorised. *)
Theorem telemetry_balanced s0 evs (started : conn_started s0) :
  let s := run_events sha256 s0 evs in
  let a := cn_actor (rn_conn s) in
  if ca_closed a
  then filter presence (cn_telemetry (rn_conn s)) = [] \/
       exists w, filter presence (cn_telemetry (rn_conn s)) = [WorkerConnected w; WorkerDisconnected w]
  else filter presence (cn_telemetry (rn_conn s)) = WorkerConnected <$> option_list (ms_worker (ca_session a)).
Proof.
  cbv zeta. destruct (run_inv_any s0 evs started) as (ev & B & H). pose proof (bs_presence _ _ _ _ _ _ _ B) as Hp.
  destruct (ca_closed _) eqn:Ec.
  - destruct (ca_telemetry_connected _); [by destruct Hp|]. destruct Hp as [Hp|[_ Hp]]; auto.
  - destruct H as [?|[H _]]; [done|]. pose proof (oi_session _ _ _ _ _ _ _ _ H) as Hs.
    rewrite (so_connected _ Hs) in Hp. case_bool_decide as Hst.
    + destruct Hp as (_ & w & -> & ->). done.
    + destruct Hp as [->|[? _]]; [|done]. pose proof (si_phase _ (so_inv _ Hs)) as Hph.
      destruct (ms_state _); [..|done|]; by destruct Hph as (_ & -> & _).
Qed.
End Runs.

(** ** On the shared router *)

Section SharedRouter.
Context {json : JsonOps} (sha256 : list Z -> list Z).
#[local] Hint Extern 0 (RouterView RouterClock) => exact (router_view sha256) : typeclass_instances.

(** A router made from a snapshot and used since, recoveries included. *)
Definition router_in_use (r : RouterClock) : Prop :=
  exists snapshot config timeline capacity r0 calls, from_snapshot snapshot config timeline capacity = Ok r0 /\
    rc_router r = foldl (fun q call => run_any sha256 call q) r0 calls.

(** Between the handlers of a connection any thread may call any operation of the router. *)
Definition router_shared (s0 : ConnRun (R := RouterClock)) (evs : list (VisitOrder * conn_event (R := RouterClock))) : Prop :=
  forall before order r allocator after, evs = before ++ (order, EvElsewhere r allocator) :: after ->
  exists calls, rc_router r = foldl (fun q call => run_any sha256 call q)
    (rc_router (cn_router (rn_conn (run_events sha256 s0 before)))) calls.

Lemma run_inv_shared s0 evs : conn_started s0 -> router_in_use (cn_router (rn_conn s0)) -> router_shared s0 evs ->
  RunInv (memory := router_memory sha256) sha256 (run_events sha256 s0 evs).
Proof.
  intros Hs (sn & cf & tl & cap & r0 & calls & H0 & Hr) Hsh. apply (run_inv (memory := router_memory sha256)); [done| |].
  - intros _. split; [|by intros id ?%not_elem_of_empty]. rewrite Hr.
    eapply rb_keyed; [apply calls_remember|]; by eapply created_keyed.
  - intros before order event after He. destruct event as [| | | | | | | |r al]; try done. cbn. intros ids _ Hk.
    destruct (Hsh _ _ _ _ _ He) as [more Hm]. eapply knows_remembers, Hk. rewrite Hm. apply calls_remember, Hk.
Qed.

(** C12. Shares are bound to the target the miner was told: when a connection hands a share to the
    backend, the job was announced to that miner, and the target submitted with the share is the
    target in force when the job was announced; the share carries the identity of the authorised
    worker whose login the miner repeated.  The router is the shared one: made from a snapshot, used
    by any threads before, and called by them between the handlers of the connection, recoveries
    included, and between the calls one handler makes, where any number of their calls but no
    recovery from a snapshot may fall. *)
Theorem share_bound_to_told_target s0 evs order id worker job time nonce solution now_ms issue
    (started : conn_started s0) (in_use : router_in_use (cn_router (rn_conn s0))) (shared : router_shared s0 evs) :
  let s := run_events sha256 s0 evs in
  let a := cn_actor (rn_conn s) in
  rn_issued (run_event sha256 order (EvRequest (Submit id worker job time nonce solution) now_ms) s)
    = rn_issued s ++ [issue] ->
  (exists target, told (rn_sent s ++ ca_outbound a) !! as_bytes job = Some target /\
     sc_target_le (is_context issue) = TargetLe_from_TargetBe target) /\
  (exists w, ms_worker (ca_session a) = Some w /\ aw_canonical_login w = worker /\
     sc_identity (is_context issue) = backend_identity w).
Proof.
  cbv zeta. set (s := run_events sha256 s0 evs). destruct (run_inv_shared s0 evs started in_use shared) as (ev & B & H). fold s in B, H.
  cbn [run_event]. destruct (handle_request sha256 _ now_ms (rn_conn s)) as [c' [action|e]] eqn:Eh; cbn [close_on_error].
  2:{ cbn. rewrite app_nil_r. intros E. by apply (f_equal length) in E; rewrite length_app in E; cbn in E; lia. }
  cbn. intros E. apply app_inv_head in E. destruct action as [[]|]; try done. injection E as <-. cbn.
  destruct (submitted_prepared _ _ _ _ _ _ _ _ _ _ _ Eh) as (r & Hr).
  destruct (router_prepare_sound sha256 _ _ _ _ _ _ _ _ _ Hr) as (_ & _ & Hw & x & Hx & Ht). split; [|exact Hw].
  destruct H as [Hc|[H _]].
  { exfalso. assert (handle_request sha256 (Submit id worker job time nonce solution) now_ms (rn_conn s) = (rn_conn s, Err ActorClosed))
      as E by by apply closed_handler. congruence. }
  apply (find_assignment_Some _ _ _ (so_inv _ (oi_session _ _ _ _ _ _ _ _ H))) in Hx as [Hx Hid].
  exists (ShareTarget_to_zip301 (tb_target (ja_target x))). split; [|exact Ht]. rewrite <- Hid.
  exact (proj1 (oi_told _ _ _ _ _ _ _ _ H I) x Hx).
Qed.
End SharedRouter.

(** ** On a concrete connection *)

Lemma one_reply_per_request_witness :
  let s := @run_events _ (router_view demo_sha256) demo_json demo_sha256 demo_conn_run demo_conn_events in
  omap reply_id (rn_sent s ++ ca_outbound (cn_actor (rn_conn s))) = [IdNumber 1; IdNumber 2; IdNumber 3] /\
  rn_received s ≡ₚ omap reply_id (rn_sent s ++ ca_outbound (cn_actor (rn_conn s))) ++ awaiting (cn_actor (rn_conn s)).
Proof.
  cbv zeta. split; [vm_compute; reflexivity|].
  apply (@one_reply_per_request _ (router_view demo_sha256) demo_json demo_sha256 demo_conn_run demo_conn_events demo_conn_started).
  vm_compute. reflexivity.
Defined.

Lemma acceptance_needs_evidence_witness :
  let s := @run_events _ (router_view demo_sha256) demo_json demo_sha256 demo_conn_run demo_conn_events in
  omap accept_id (rn_sent s ++ ca_outbound (cn_actor (rn_conn s))) = [IdNumber 2; IdNumber 3] /\
  exists evidence,
    fst <$> evidence = omap accept_id (rn_sent s ++ ca_outbound (cn_actor (rn_conn s))) /\
    Forall (evidence_ok demo_sha256 (rn_issued s) (rn_events s)) evidence /\
    NoDup (omap commit_ticket (snd <$> evidence)).
Proof.
  cbv zeta. split; [vm_compute; reflexivity|].
  exact (@acceptance_needs_evidence _ (router_view demo_sha256) demo_json demo_sha256 demo_conn_run demo_conn_events demo_conn_started).
Defined.

Lemma samples_in_admission_order_witness :
  let s := @run_events _ (router_view demo_sha256) demo_json demo_sha256 demo_conn_run demo_conn_events in
  ca_timing_order (cn_actor (rn_conn s)) = [] /\ length (rn_issued s) = 1%nat /\
  exists done waiting verdicts, rn_issued s = done ++ waiting /\ Forall2 (verdict (rn_events s)) done verdicts.
Proof.
  cbv zeta. split; [vm_compute; reflexivity|]. split; [vm_compute; reflexivity|].
  assert (ca_closed (cn_actor (rn_conn (@run_events _ (router_view demo_sha256) demo_json demo_sha256 demo_conn_run demo_conn_events)))
    = false) as Hc by (vm_compute; reflexivity).
  pose proof (@samples_in_admission_order _ (router_view demo_sha256) demo_json demo_sha256 demo_conn_run demo_conn_events demo_conn_started) as H.
  cbv zeta in H. specialize (H Hc). destruct H as (done & waiting & verdicts & H1 & _ & H2 & _).
  exists done, waiting, verdicts. split; [exact H1|exact H2].
Defined.

Definition demo_issue : Issue :=
  match rn_issued demo_submitted with issue :: _ => issue | [] => mkIssue 0 IdNull demo_context None 0 end.

Lemma demo_in_use : router_in_use demo_sha256 (cn_router (rn_conn demo_conn_run)).
Proof.
  exists demo_job_snapshot, demo_config, demo_timeline, 16%nat, demo_router, []. split; vm_compute; reflexivity.
Qed.
Lemma demo_shared : router_shared demo_sha256 demo_conn_run demo_login_events.
Proof.
  intros before o r al after H. exfalso.
  assert (Forall (fun e => match snd e with EvElsewhere _ _ => False | _ => True end) demo_login_events) as Hf by by repeat constructor.
  rewrite H in Hf. apply Forall_app in Hf as [_ Hf]. by inversion Hf.
Qed.

Lemma share_bound_to_told_target_witness :
  let s := @run_events _ (router_view demo_sha256) demo_json demo_sha256 demo_conn_run demo_login_events in
  exists target, told (rn_sent s ++ ca_outbound (cn_actor (rn_conn s))) !! as_bytes (demo_hex 32 1) = Some target /\
    sc_target_le (is_context demo_issue) = TargetLe_from_TargetBe target.
Proof.
  cbv zeta.
  assert (rn_issued (@run_event _ (router_view demo_sha256) demo_json demo_sha256 demo_order
      (EvRequest (Submit (IdNumber 3) "rig.1" (demo_hex 32 1) demo_share_time (TwentyEight (demo_hex 28 9)) (demo_hex 1344 7)) 30)
      (@run_events _ (router_view demo_sha256) demo_json demo_sha256 demo_conn_run demo_login_events))
    = rn_issued (@run_events _ (router_view demo_sha256) demo_json demo_sha256 demo_conn_run demo_login_events) ++ [demo_issue]) as H
    by (vm_compute; reflexivity).
  pose proof (share_bound_to_told_target demo_sha256 demo_conn_run demo_login_events demo_order
    (IdNumber 3) "rig.1" (demo_hex 32 1) demo_share_time (TwentyEight (demo_hex 28 9)) (demo_hex 1344 7) 30 demo_issue
    demo_conn_started demo_in_use demo_shared) as T.
  cbv zeta in T. specialize (T H). exact (proj1 T).
Defined.

Lemma telemetry_balanced_witness :
  let s := @run_events _ (router_view demo_sha256) demo_json demo_sha256 demo_conn_run
    (demo_conn_events ++ [(demo_order, EvUpdate UpdateSuspended)]) in
  filter presence (cn_telemetry (rn_conn s)) = [WorkerConnected demo_worker; WorkerDisconnected demo_worker] /\
  (filter presence (cn_telemetry (rn_conn s)) = [] \/
   exists w, filter presence (cn_telemetry (rn_conn s)) = [WorkerConnected w; WorkerDisconnected w]).
Proof.
  cbv zeta. split; [vm_compute; reflexivity|].
  pose proof (@telemetry_balanced _ (router_view demo_sha256) demo_json demo_sha256 demo_conn_run
    (demo_conn_events ++ [(demo_order, EvUpdate UpdateSuspended)]) demo_conn_started) as H. cbv zeta in H.
  destruct (ca_closed _) eqn:E in H; [exact H|]. exfalso. vm_compute in E. discriminate E.
Defined.
