(* ===== verification/Ledger.v ===== *)
(** The double-entry ledger tables and the chain-safety fence of the store
    (crates/wcash-pool-store/src/postgres.rs: insert_owned_ledger_transaction, ledger_snapshot,
    hash_bounded_text, lock_chain_safety_row, lock_unfrozen_chain, ChainPolicy; the SQL functions
    freeze_chain_payouts_v1 and lock_chain_safety_v1 of the migrations).

    The tables are those of one deployment: every statement of the store filters by its
    deployment identifier.  A statement that the schema refuses is the error [Database]. *)

From Stdlib Require Import ZArith Lia.
From stdpp Require Import prelude gmap sorting strings.
From S2P Require Import Prelude Wire Backend Hex LargestRemainder Pplns PayoutFees.
Open Scope Z_scope.

(** ** The environment of a store *)

Inductive ChainNetwork : Type := Testnet | Mainnet | Regtest.

#[global] Instance ChainNetwork_eq_dec : EqDecision ChainNetwork.
Proof. solve_decision. Defined.

(** The deployment a store is bound to, and the functions other crates give it: SHA-256, the
    hyphenated text of a UUID, the hexadecimal codec and the JSON text of a backend event. *)
Class StoreEnv : Type := {
  env_deployment : Uuid;
  env_network : ChainNetwork;
  env_wcash_transparent_payouts : bool;
  env_sha256 : list Z -> list Z;
  env_uuid_text : Uuid -> string;
  env_event_json : BackendEvent -> list Z;
  env_hex :: HexOps
}.

(** ** Chains and policies *)

(** [Chain] has the two values of the protocol's [MergedChain]; the conversion is the identity. *)
Abbreviation Chain := MergedChain (only parsing).

#[global] Program Instance MergedChain_countable : Countable MergedChain :=
  inj_countable' (fun c => match c with Wcash => true | Zcash => false end)
    (fun b : bool => if b then Wcash else Zcash) _.
Next Obligation. by intros []. Qed.

Definition Chain_as_str (c : Chain) : string :=
  match c with Wcash => "wcash" | Zcash => "zcash" end.

Definition MAX_PAYOUT_OUTPUTS : Z := 200.

Record ChainPolicy : Type := mkChainPolicy {
  cp_pplns_window_work : Z;
  cp_fee_bps : Z;
  cp_payout_threshold_zat : Z;
  cp_required_confirmations : Z;
  cp_payout_confirmations : Z;
  cp_maximum_payout_outputs : Z;
  cp_minimum_payout_zat : Z;
  cp_maximum_payout_zat : Z;
  cp_payout_skip_bps : Z;
  cp_maximum_network_fee_zat : Z;
  cp_maximum_network_fee_bps : Z;
  cp_policy_version : Z
}.

#[global] Instance ChainPolicy_eq_dec : EqDecision ChainPolicy.
Proof. solve_decision. Defined.

Definition ChainPolicy_validate (p : ChainPolicy) : result unit StoreError :=
  if (cp_pplns_window_work p =? 0)
     || (1000 <? cp_fee_bps p)
     || (cp_payout_threshold_zat p =? 0)
     || (cp_required_confirmations p <? 100)
     || (1000000 <? cp_required_confirmations p)
     || (cp_payout_confirmations p =? 0)
     || (cp_required_confirmations p <? cp_payout_confirmations p)
     || negb ((1 <=? cp_maximum_payout_outputs p)
              && (cp_maximum_payout_outputs p <=? MAX_PAYOUT_OUTPUTS))
     || (cp_minimum_payout_zat p =? 0)
     || (cp_maximum_payout_zat p =? 0)
     || (cp_maximum_payout_zat p <? cp_minimum_payout_zat p)
     || (10000 <? cp_payout_skip_bps p)
     || (cp_maximum_network_fee_bps p =? 0)
     || (1000 <? cp_maximum_network_fee_bps p)
     || (cp_policy_version p =? 0)
  then Err InvalidChainPolicy else Ok tt.

(** ** The tables *)

(** A sealed row of [ledger_transactions] with its [ledger_entries] in line order: the store
    inserts and seals a transaction within one database transaction. *)
Record LedgerTransaction : Type := mkLedgerTransaction {
  lt_id : Uuid;
  lt_sequence : Z;
  lt_chain : Chain;
  lt_kind : string;
  lt_event_seq : option Z;
  lt_reference : string;
  lt_entries : list LedgerEntry
}.

Record ChainSafety : Type := mkChainSafety {
  payouts_frozen : bool;
  frozen_by_backend_event_seq : option Z;
  freeze_reason : option string
}.

(** [ledger] is in the order of the [ledger_sequence] identity column, whose next value is
    [next_sequence]. *)
Record LedgerTables : Type := mkLedgerTables {
  ledger : list LedgerTransaction;
  next_sequence : Z;
  safety : gmap Chain ChainSafety;
  policies : gmap Chain ChainPolicy
}.

(** ** Integers of the database *)

Definition I64_MIN : Z := - 2 ^ 63.
Definition I32_MAX : Z := 2 ^ 31 - 1.

(** A cast to [BIGINT], and [u64::try_from] of one. *)
Definition bigint (v : Z) : result Z StoreError :=
  if (I64_MIN <=? v) && (v <=? I64_MAX) then Ok v else Err (Database "bigint out of range").

Definition u64_from (v : Z) (e : StoreError) : result Z StoreError :=
  if v <? 0 then Err e else Ok v.

(** ** Inserting a transaction *)

(** The accounts of the schema, and those that belong to a miner. *)
Definition miner_ledger_accounts : list string :=
  ["miner_immature"; "miner_payable"; "payout_pending"]%string.
Definition ledger_accounts : list string :=
  ["collector_immature_asset"; "collector_spendable_asset"]%string ++ miner_ledger_accounts
  ++ ["pool_fee_unearned"; "pool_equity"; "network_fee_expense"; "miner_network_fee_contribution"]%string.

(** The row checks on [ledger_entries]. *)
Definition ledger_entry_check (e : LedgerEntry) : bool :=
  let '(account_id, ledger_account, amount_zat) := e in
  bool_decide (ledger_account ∈ ledger_accounts) && negb (amount_zat =? 0)
  && Bool.eqb (bool_decide (ledger_account ∈ miner_ledger_accounts)) (bool_decide (is_Some account_id)).

Definition insert_owned_ledger_transaction (t : LedgerTables) (id : Uuid) (chain : Chain)
    (kind : string) (backend_event_seq : option Z) (reference : string)
    (entries : list LedgerEntry) : result LedgerTables StoreError :=
  let? _ := ledger_guard entries in
  if existsb (fun x => lt_id x =? id) (ledger t)
  then Err (Database "ledger_transactions_pkey") else
  if bool_decide (is_Some backend_event_seq)
     && existsb (fun x => bool_decide (lt_event_seq x = backend_event_seq)
                          && String.eqb (lt_kind x) kind) (ledger t)
  then Err (Database "ledger_backend_event_kind_key") else
  if I32_MAX <? Z.of_nat (length entries) then Err MoneyOverflow else
  if negb (forallb ledger_entry_check entries) then Err (Database "ledger_entries_check") else
  Ok (mkLedgerTables
        (ledger t ++ [mkLedgerTransaction id (next_sequence t) chain kind backend_event_seq
                        reference entries])
        (next_sequence t + 1) (safety t) (policies t)).

(** ** Balances *)

(** Every entry of a chain, in order. *)
Definition chain_entries (l : list LedgerTransaction) (chain : Chain) : list LedgerEntry :=
  mjoin (lt_entries <$> filter (fun x => lt_chain x = chain) l).

(** The sum of one ledger account, for one owner. *)
Definition owner_sum (who : option Uuid) (label : string) (es : list LedgerEntry) : Z :=
  entry_sum (filter (fun e => fst e = (who, label)) es).

Definition label_balance (t : LedgerTables) (chain : Chain) (label : string) : Z :=
  label_sum label (chain_entries (ledger t) chain).

Definition owner_balance (t : LedgerTables) (chain : Chain) (who : option Uuid) (label : string) : Z :=
  owner_sum who label (chain_entries (ledger t) chain).

(** ** Ledger snapshots *)

Definition LEDGER_SNAPSHOT_DOMAIN : list Z := str_bytes "zecwec/ledger-snapshot/v1".

(** [i64::to_be_bytes] and [i32::to_be_bytes]: two's complement. *)
Definition i64_be (v : Z) : list Z := be_bytes 8 (v mod 2 ^ 64).
Definition i32_be (v : Z) : list Z := be_bytes 4 (v mod 2 ^ 32).

Definition hash_bounded_text (value : string) (maximum_length : nat)
    : result (list Z) StoreError :=
  let bytes := str_bytes value in
  if bool_decide (bytes = []) || (maximum_length <? length bytes)%nat
  then Err (CorruptDatabaseState "ledger text")
  else Ok (be_bytes 2 (Z.of_nat (length bytes)) ++ bytes).

(** What one joined row adds to the hasher. *)
Definition snapshot_line (x : LedgerTransaction) (line_no : Z) (e : LedgerEntry)
    : result (list Z) StoreError :=
  if lt_sequence x <=? 0 then Err (CorruptDatabaseState "ledger sequence") else
  let? kind := hash_bounded_text (lt_kind x) 64 in
  let? event := match lt_event_seq x with
                | Some s => if 0 <? s then Ok (1 :: i64_be s)
                            else Err (CorruptDatabaseState "ledger event sequence")
                | None => Ok [0]
                end in
  let? reference := hash_bounded_text (lt_reference x) 256 in
  let count := Z.of_nat (length (lt_entries x)) in
  if (count <? 2) || (line_no <=? 0) then Err (CorruptDatabaseState "ledger seal") else
  let account := match fst (fst e) with Some a => 1 :: Uuid_as_bytes a | None => [0] end in
  let? label := hash_bounded_text (snd (fst e)) 64 in
  if snd e =? 0 then Err (CorruptDatabaseState "zero ledger line") else
  Ok (i64_be (lt_sequence x) ++ Uuid_as_bytes (lt_id x) ++ kind ++ event ++ reference
      ++ i32_be count ++ i32_be line_no ++ account ++ label ++ i64_be (snd e)).

Fixpoint snapshot_lines (x : LedgerTransaction) (line_no : Z) (es : list LedgerEntry)
    : result (list Z) StoreError :=
  match es with
  | [] => Ok []
  | e :: es' =>
      let? line := snapshot_line x line_no e in
      let? rest := snapshot_lines x (line_no + 1) es' in
      Ok (line ++ rest)
  end.

Fixpoint snapshot_rows (l : list LedgerTransaction) : result (list Z) StoreError :=
  match l with
  | [] => Ok []
  | x :: l' =>
      let? lines := snapshot_lines x 1 (lt_entries x) in
      let? rest := snapshot_rows l' in
      Ok (lines ++ rest)
  end.

Record LedgerSnapshot : Type := mkLedgerSnapshot {
  ls_root : list Z;
  ls_transaction_count : Z;
  ls_collector_spendable_zat : Z
}.

(** The rows a snapshot reads. *)
Definition within_cutoff (cutoff : option Z) (x : LedgerTransaction) : bool :=
  match cutoff with Some c => lt_sequence x <=? c | None => true end.

Definition snapshot_transactions (t : LedgerTables) (chain : Chain) (cutoff : option Z)
    : list LedgerTransaction :=
  filter (fun x => lt_chain x = chain /\ within_cutoff cutoff x = true) (ledger t).

Section Snapshot.
Context {env : StoreEnv}.

Definition ledger_snapshot (t : LedgerTables) (chain : Chain) (sequence_cutoff : option Z)
    : result LedgerSnapshot StoreError :=
  let? _ := match sequence_cutoff with Some c => as_i64 c | None => Ok 0 end in
  let rows := snapshot_transactions t chain sequence_cutoff in
  let? bytes := snapshot_rows rows in
  let count := Z.of_nat (length (filter (fun x => lt_entries x <> []) rows)) in
  let? spendable :=
    bigint (label_sum "collector_spendable_asset" (mjoin (lt_entries <$> rows))) in
  let? spendable := u64_from spendable CollectorReconciliationFailed in
  Ok (mkLedgerSnapshot
        (env_sha256 (LEDGER_SNAPSHOT_DOMAIN ++ Uuid_as_bytes env_deployment
                     ++ [match chain with Wcash => 1 | Zcash => 2 end]
                     ++ bytes ++ be_bytes 8 count))
        count spendable).
End Snapshot.

(** ** The safety fence *)

(** The row is created with the chain policy; its absence is a database error. *)
Definition lock_chain_safety_row (t : LedgerTables) (chain : Chain) : result bool StoreError :=
  match safety t !! chain with
  | Some row => Ok (payouts_frozen row)
  | None => Err (Database "chain safety state not found")
  end.

Definition lock_unfrozen_chain (t : LedgerTables) (chain : Chain) : result unit StoreError :=
  let? frozen := lock_chain_safety_row t chain in
  if frozen then Err (PayoutsFrozen chain) else Ok tt.

(** [freeze_chain_payouts_v1]: the first cause is kept. *)
Definition freeze_chain_payouts (t : LedgerTables) (chain : Chain) (event_seq : option Z)
    (reason : string) : result LedgerTables StoreError :=
  match safety t !! chain with
  | None => Err (Database "chain safety state not found")
  | Some row =>
      let row' := if payouts_frozen row then row
                  else mkChainSafety true event_seq (Some reason) in
      Ok (mkLedgerTables (ledger t) (next_sequence t) (<[chain := row']> (safety t)) (policies t))
  end.
