(* ===== verification/PayoutRequest.v ===== *)
(** The request an accounting batch makes of the isolated signer, and the boundary that guards
    it (crates/wcash-pool-portal/src/signer.rs). *)

From Stdlib Require Import ZArith Lia.
From stdpp Require Import prelude gmap sorting strings.
From S2P Require Import Prelude Wire Backend Hex LargestRemainder PayoutFees Ledger.
Open Scope Z_scope.

(** ** Data *)

Inductive Asset : Type := Wec | Zec.

#[global] Instance Asset_eq_dec : EqDecision Asset.
Proof. solve_decision. Defined.
#[global] Instance ReceiverKind_eq_dec : EqDecision ReceiverKind.
Proof. solve_decision. Defined.

(** The portal's [ReceiverKind] has the values of the store's. *)
Record PayoutOutput : Type := mkPayoutOutput {
  po_allocation_id : Uuid;
  po_canonical_address : string;
  po_receiver_kind : ReceiverKind;
  po_amount_zat : Z
}.

#[global] Instance PayoutOutput_eq_dec : EqDecision PayoutOutput.
Proof. solve_decision. Defined.

Record PayoutBatchRequest : Type := mkPayoutBatchRequest {
  rq_batch_id : Uuid;
  rq_asset : Asset;
  rq_network : ChainNetwork;
  rq_ledger_root : list Z;
  rq_reconciliation_id : Uuid;
  rq_maximum_network_fee_zat : Z;
  rq_outputs : list PayoutOutput
}.

#[global] Instance PayoutBatchRequest_eq_dec : EqDecision PayoutBatchRequest.
Proof. solve_decision. Defined.

Inductive SignerError : Type :=
| NotConfigured | InvalidSignerRequest | WrongNetwork | IdempotencyConflict
| AmbiguousBroadcast | SignerRejected | ReadinessTimeout.

#[global] Instance SignerError_eq_dec : EqDecision SignerError.
Proof. solve_decision. Defined.

Record BroadcastReceipt : Type := mkBroadcastReceipt {
  rc_batch_id : Uuid;
  rc_request_commitment : list Z;
  rc_asset : Asset;
  rc_transaction_id : string;
  rc_output_total_zat : Z
}.

(** ** Validation *)

(** [char::is_whitespace] somewhere in a UTF-8 text: the ASCII white space, U+0085, U+00A0,
    U+1680, U+2000 to U+200A, U+2028, U+2029, U+202F, U+205F and U+3000. *)
Fixpoint has_whitespace (bytes : list Z) : bool :=
  match bytes with
  | [] => false
  | b :: rest =>
      ((9 <=? b) && (b <=? 13)) || (b =? 32)
      || match b, rest with
         | 194, c :: _ => (c =? 133) || (c =? 160)
         | 225, c :: d :: _ => (c =? 154) && (d =? 128)
         | 226, c :: d :: _ =>
             ((c =? 128) && (((128 <=? d) && (d <=? 138)) || (d =? 168) || (d =? 169) || (d =? 175)))
             || ((c =? 129) && (d =? 159))
         | 227, c :: d :: _ => (c =? 128) && (d =? 128)
         | _, _ => false
         end
      || has_whitespace rest
  end.

(** The loop over the outputs, with the set of identifiers seen so far. *)
Fixpoint validate_outputs (outputs : list PayoutOutput) (allocation_ids : gset Z) (total : Z)
    : result Z SignerError :=
  match outputs with
  | [] => Ok total
  | output :: rest =>
      let address := str_bytes (po_canonical_address output) in
      if Uuid_is_nil (po_allocation_id output)
         || bool_decide (po_allocation_id output ∈ allocation_ids)
         || (po_amount_zat output =? 0)
         || (length address <? 8)%nat
         || (512 <? length address)%nat
         || has_whitespace address
      then Err InvalidSignerRequest
      else
        let? total' := ok_or (checked_add U64_MAX total (po_amount_zat output))
                         InvalidSignerRequest in
        validate_outputs rest ({[po_allocation_id output]} ∪ allocation_ids) total'
  end.

Definition PayoutBatchRequest_validate (self : PayoutBatchRequest) : result Z SignerError :=
  if Uuid_is_nil (rq_batch_id self)
     || Uuid_is_nil (rq_reconciliation_id self)
     || all_zero (rq_ledger_root self)
     || (rq_maximum_network_fee_zat self =? 0)
  then Err InvalidSignerRequest else
  if bool_decide (rq_outputs self = [])
     || (MAX_PAYOUT_OUTPUTS <? Z.of_nat (length (rq_outputs self)))
  then Err InvalidSignerRequest
  else validate_outputs (rq_outputs self) ∅ 0.

(** ** The commitment *)

Definition PAYOUT_COMMITMENT_DOMAIN : list Z := str_bytes "zecwec/payout-batch/v2".

Definition asset_tag (a : Asset) : Z := match a with Wec => 1 | Zec => 2 end.
Definition network_tag (n : ChainNetwork) : Z :=
  match n with Testnet => 1 | Mainnet => 2 | Regtest => 3 end.
Definition receiver_tag (r : ReceiverKind) : Z :=
  match r with Transparent => 1 | Ironwood => 2 end.

Definition output_preimage (o : PayoutOutput) : list Z :=
  Uuid_as_bytes (po_allocation_id o) ++ [receiver_tag (po_receiver_kind o)]
  ++ be_bytes 8 (po_amount_zat o)
  ++ be_bytes 2 (Z.of_nat (length (str_bytes (po_canonical_address o))))
  ++ str_bytes (po_canonical_address o).

Definition commitment_preimage (self : PayoutBatchRequest) : list Z :=
  PAYOUT_COMMITMENT_DOMAIN ++ Uuid_as_bytes (rq_batch_id self)
  ++ [asset_tag (rq_asset self)] ++ [network_tag (rq_network self)]
  ++ rq_ledger_root self ++ Uuid_as_bytes (rq_reconciliation_id self)
  ++ be_bytes 8 (rq_maximum_network_fee_zat self)
  ++ be_bytes 2 (Z.of_nat (length (rq_outputs self)))
  ++ mjoin (output_preimage <$> rq_outputs self).

(** The two [u16::try_from] are total here: [validate] bounds the lengths. *)
Definition PayoutBatchRequest_commitment (sha256 : list Z -> list Z) (self : PayoutBatchRequest)
    : result (list Z) SignerError :=
  let? _ := PayoutBatchRequest_validate self in
  Ok (sha256 (commitment_preimage self)).

(** ** The boundary *)

Inductive PayoutExecution : Type := Enabled | Deferred.

(** [TestnetPayoutBoundary::execute] around a signer. *)
Definition boundary_execute (sha256 : list Z -> list Z)
    (sign_and_broadcast : PayoutBatchRequest -> result BroadcastReceipt SignerError)
    (execution : PayoutExecution) (network : ChainNetwork) (request : PayoutBatchRequest)
    : result BroadcastReceipt SignerError :=
  match execution with
  | Deferred => Err NotConfigured
  | Enabled =>
      if bool_decide (rq_network request <> network) then Err WrongNetwork else
      let? expected_total := PayoutBatchRequest_validate request in
      let? expected_commitment := PayoutBatchRequest_commitment sha256 request in
      let? receipt := sign_and_broadcast request in
      let text := str_bytes (rc_transaction_id receipt) in
      if negb (rc_batch_id receipt =? rq_batch_id request)
         || bool_decide (rc_request_commitment receipt <> expected_commitment)
         || bool_decide (rc_asset receipt <> rq_asset request)
         || negb (rc_output_total_zat receipt =? expected_total)
         || negb (length text =? 64)%nat
         || negb (forallb is_ascii_hexdigit text)
      then Err SignerRejected
      else Ok receipt
  end.

(** ** What a valid request is *)

Definition output_ok (o : PayoutOutput) : Prop :=
  po_allocation_id o <> 0 /\ po_amount_zat o <> 0 /\
  (8 <= length (str_bytes (po_canonical_address o)) <= 512)%nat /\
  has_whitespace (str_bytes (po_canonical_address o)) = false.

Lemma validate_outputs_Ok outputs seen total t :
  Forall (fun o => 0 <= po_amount_zat o) outputs ->
  validate_outputs outputs seen total = Ok t <->
  Forall output_ok outputs /\ NoDup (po_allocation_id <$> outputs) /\
  Forall (fun o => po_allocation_id o ∉ seen) outputs /\
  t = total + sumZ (po_amount_zat <$> outputs) /\ (outputs <> [] -> t <= U64_MAX).
Proof.
  intros Hpos. revert seen total.
  induction Hpos as [|o outputs Ho Hpos IH]; intros seen total; cbn [validate_outputs].
  { rewrite !fmap_nil. change (sumZ []) with 0. split; [|intros (_ & _ & _ & Ht & _); rewrite Ht; f_equal; lia].
    intros [= ->]. split_and!; [constructor|constructor|constructor|lia|done]. }
  pose proof (sumZ_nonneg (po_amount_zat <$> outputs) ltac:(by apply Forall_fmap)) as Hs.
  rewrite !fmap_cons, sumZ_cons, !Forall_cons, NoDup_cons. unfold output_ok at 1, Uuid_is_nil.
  destruct (po_allocation_id o =? 0) eqn:E1; cbn [orb]; boolprop; [naive_solver|].
  case_bool_decide as E2; cbn [orb]; [naive_solver|].
  destruct (po_amount_zat o =? 0) eqn:E3; cbn [orb]; boolprop; [naive_solver|].
  destruct (Nat.ltb_spec (length (str_bytes (po_canonical_address o))) 8); cbn [orb];
    [naive_solver lia|].
  destruct (Nat.ltb_spec 512 (length (str_bytes (po_canonical_address o)))); cbn [orb];
    [naive_solver lia|].
  destruct (has_whitespace (str_bytes (po_canonical_address o))) eqn:E6; [naive_solver|].
  unfold checked_add, ok_or.
  destruct (Z.leb_spec (total + po_amount_zat o) U64_MAX) as [Hle|Hgt].
  2:{ split; [done|]. intros (_ & _ & _ & -> & Hmax). specialize (Hmax ltac:(done)). lia. }
  rewrite IH. assert (forall l, Forall (fun o' => po_allocation_id o' ∉ {[po_allocation_id o]} ∪ seen) l <->
    (po_allocation_id o ∉ po_allocation_id <$> l) /\ Forall (fun o' => po_allocation_id o' ∉ seen) l) as ->.
  { induction l as [|o' l IHl]; [set_solver|]. rewrite fmap_cons, !Forall_cons, IHl. set_solver. }
  split.
  - intros (H1 & H2 & (H3 & H4) & -> & H5). split_and!; try done; try lia.
    intros _. destruct outputs; [rewrite fmap_nil; unfold sumZ; simpl; lia|]. by apply H5.
  - intros ((_ & H1) & (H2 & H3) & (_ & H4) & -> & H5). split_and!; try done; try lia.
    intros _. by apply H5.
Qed.

(** Requests with field widths of the Rust types. *)
Definition output_wf (o : PayoutOutput) : Prop :=
  uuid_wf (po_allocation_id o) /\ in_range U64_MAX (po_amount_zat o).

Definition request_wf (r : PayoutBatchRequest) : Prop :=
  uuid_wf (rq_batch_id r) /\ uuid_wf (rq_reconciliation_id r) /\
  byte_array 32 (rq_ledger_root r) /\ in_range U64_MAX (rq_maximum_network_fee_zat r) /\
  Forall output_wf (rq_outputs r).

Lemma PayoutBatchRequest_validate_Ok r t : request_wf r ->
  PayoutBatchRequest_validate r = Ok t <->
  rq_batch_id r <> 0 /\ rq_reconciliation_id r <> 0 /\ all_zero (rq_ledger_root r) = false /\
  rq_maximum_network_fee_zat r <> 0 /\
  (1 <= length (rq_outputs r) <= 200)%nat /\ Forall output_ok (rq_outputs r) /\
  NoDup (po_allocation_id <$> rq_outputs r) /\
  t = sumZ (po_amount_zat <$> rq_outputs r) /\ t <= U64_MAX.
Proof.
  intros (_ & _ & _ & _ & Hw). unfold PayoutBatchRequest_validate, Uuid_is_nil, MAX_PAYOUT_OUTPUTS.
  destruct (rq_batch_id r =? 0) eqn:E1; cbn [orb]; boolprop; [naive_solver|].
  destruct (rq_reconciliation_id r =? 0) eqn:E2; cbn [orb]; boolprop; [naive_solver|].
  destruct (all_zero (rq_ledger_root r)) eqn:E3; cbn [orb]; [naive_solver|].
  destruct (rq_maximum_network_fee_zat r =? 0) eqn:E4; boolprop; [naive_solver|].
  case_bool_decide as E5; cbn [orb]; [rewrite E5; naive_solver lia|].
  destruct (Z.ltb_spec 200 (Z.of_nat (length (rq_outputs r)))); [naive_solver lia|].
  rewrite validate_outputs_Ok.
  2:{ eapply Forall_impl; [exact Hw|]. intros o [_ Ho]. unfold in_range in Ho. lia. }
  assert (Forall (fun o => po_allocation_id o ∉ (∅ : gset Z)) (rq_outputs r)) as Hempty
    by (apply Forall_true; set_solver).
  destruct (rq_outputs r) as [|o os]; [done|]. cbn [length]. split.
  - intros (H1 & H2 & _ & -> & H4). rewrite Z.add_0_l in *. cbn [length] in *. split_and!; try done; try lia. by apply H4.
  - intros (_ & _ & _ & _ & _ & H1 & H2 & -> & H4). split_and!; done.
Qed.

(** ** The commitment identifies the request *)

Lemma app_length_inj {A} (a b c d : list A) : length a = length c -> a ++ b = c ++ d -> a = c /\ b = d.
Proof. intros Hl He. by apply app_inj_1. Qed.

Lemma Uuid_as_bytes_inj u v : uuid_wf u -> uuid_wf v -> Uuid_as_bytes u = Uuid_as_bytes v -> u = v.
Proof. unfold uuid_wf, Uuid_as_bytes. widths. intros. apply (be_bytes_inj 16); [lia..|done]. Qed.

Lemma output_preimage_inj o1 o2 k1 k2 :
  output_wf o1 -> output_wf o2 -> output_ok o1 -> output_ok o2 ->
  output_preimage o1 ++ k1 = output_preimage o2 ++ k2 -> o1 = o2 /\ k1 = k2.
Proof.
  intros [Hu1 Ha1] [Hu2 Ha2] (_ & _ & Hl1 & _) (_ & _ & Hl2 & _) H. unfold output_preimage in H.
  rewrite <- !app_assoc in H.
  apply app_length_inj in H as [H1 H]; [|unfold Uuid_as_bytes; by rewrite !length_be_bytes].
  apply app_length_inj in H as [H2 H]; [|done].
  apply app_length_inj in H as [H3 H]; [|by rewrite !length_be_bytes].
  apply app_length_inj in H as [H4 H]; [|by rewrite !length_be_bytes].
  apply be_bytes_inj in H4; [|change (256 ^ Z.of_nat 2) with 65536; lia..].
  apply app_length_inj in H as [H5 H]; [|lia].
  apply Uuid_as_bytes_inj in H1; [|done..]. apply str_bytes_inj in H5.
  unfold in_range, U64_MAX in *. apply (be_bytes_inj 8) in H3; [|lia..].
  split; [|done]. destruct o1 as [a1 s1 r1 m1], o2 as [a2 s2 r2 m2]. simpl in *.
  destruct r1, r2; simplify_eq; done.
Qed.

Lemma outputs_preimage_inj l1 l2 :
  Forall output_wf l1 -> Forall output_wf l2 -> Forall output_ok l1 -> Forall output_ok l2 ->
  length l1 = length l2 ->
  mjoin (output_preimage <$> l1) = mjoin (output_preimage <$> l2) -> l1 = l2.
Proof.
  revert l2; induction l1 as [|o1 l1 IH]; intros [|o2 l2]; try done.
  rewrite !Forall_cons, !fmap_cons. cbn [length mjoin]. intros [Hw1 Hw1'] [Hw2 Hw2'] [Hk1 Hk1'] [Hk2 Hk2'] Hl He.
  apply output_preimage_inj in He as [-> He]; [|done..]. f_equal. apply IH; auto.
Qed.

(** The commitment a signer stores under an idempotency key binds every field of the
    request: two valid requests with the same commitment preimage are the same request, so a
    changed amount, address, fee ceiling, ledger root or output order changes the hashed bytes. *)
Theorem payout_commitment_binds_request (r1 r2 : PayoutBatchRequest) (t1 t2 : Z)
    (Hw1 : request_wf r1) (Hw2 : request_wf r2)
    (Hv1 : PayoutBatchRequest_validate r1 = Ok t1) (Hv2 : PayoutBatchRequest_validate r2 = Ok t2) :
  commitment_preimage r1 = commitment_preimage r2 -> r1 = r2.
Proof.
  apply PayoutBatchRequest_validate_Ok in Hv1 as (_ & _ & _ & _ & Hl1 & Hok1 & _); [|done].
  apply PayoutBatchRequest_validate_Ok in Hv2 as (_ & _ & _ & _ & Hl2 & Hok2 & _); [|done].
  destruct Hw1 as (Hb1 & Hr1 & Hg1 & Hf1 & Ho1), Hw2 as (Hb2 & Hr2 & Hg2 & Hf2 & Ho2).
  unfold commitment_preimage. intros H. apply app_inv_head in H.
  apply app_length_inj in H as [H1 H]; [|unfold Uuid_as_bytes; by rewrite !length_be_bytes].
  apply app_length_inj in H as [H2 H]; [|done]. apply app_length_inj in H as [H3 H]; [|done].
  apply app_length_inj in H as [H4 H]; [|by destruct Hg1 as [-> _], Hg2 as [-> _]].
  apply app_length_inj in H as [H5 H]; [|unfold Uuid_as_bytes; by rewrite !length_be_bytes].
  apply app_length_inj in H as [H6 H]; [|by rewrite !length_be_bytes].
  apply app_length_inj in H as [H7 H]; [|by rewrite !length_be_bytes].
  apply be_bytes_inj in H7; [|change (256 ^ Z.of_nat 2) with 65536; lia..].
  apply outputs_preimage_inj in H; [|done..|lia].
  apply Uuid_as_bytes_inj in H1, H5; [|done..].
  unfold in_range, U64_MAX in *. apply (be_bytes_inj 8) in H6; [|lia..].
  destruct r1 as [b1 a1 n1 g1 c1 f1 o1], r2 as [b2 a2 n2 g2 c2 f2 o2]. simpl in *. subst.
  f_equal; [by destruct a1, a2|by destruct n1, n2].
Qed.

Definition demo_request (amount : Z) : PayoutBatchRequest :=
  mkPayoutBatchRequest 1 Wec Testnet (replicate 32 1) 2 1
    [mkPayoutOutput 3 "wcash-test-address-value" Ironwood amount].

Lemma demo_request_wf amount : in_range U64_MAX amount -> request_wf (demo_request amount).
Proof.
  intros Ha. unfold request_wf, demo_request, uuid_wf, in_range in *; simpl. unfold U128_MAX, U64_MAX in *.
  split_and!; try lia.
  - split; [done|]. apply (Forall_replicate is_byte 32 1). unfold is_byte. lia.
  - repeat constructor; simpl; unfold U128_MAX, U64_MAX; lia.
Qed.

Lemma payout_commitment_binds_request_witness :
  commitment_preimage (demo_request 5) = commitment_preimage (demo_request 5) /\
  PayoutBatchRequest_validate (demo_request 5) = Ok 5 /\
  demo_request 5 = demo_request 5 /\
  commitment_preimage (demo_request 5) <> commitment_preimage (demo_request 6).
Proof.
  split; [reflexivity|]. split; [vm_compute; reflexivity|].
  split; [exact (payout_commitment_binds_request (demo_request 5) (demo_request 5) 5 5
            (demo_request_wf 5 ltac:(vm_compute; split; congruence))
            (demo_request_wf 5 ltac:(vm_compute; split; congruence))
            ltac:(vm_compute; reflexivity) ltac:(vm_compute; reflexivity) eq_refl)|].
  vm_compute. congruence.
Defined.
