(* ===== verification/StoreDb.v ===== *)
(** The tables of one deployment's database and the database transactions of the store
    (crates/wcash-pool-store/migrations and the row types of src/postgres.rs).

    The chain-accounting tables are written by the event projector, the payout tables by the
    payout worker, and the ledger by both.  Bookkeeping columns that nothing reads back
    ([updated_at], [portal_sequence], the stored JSON of an event) are left out. *)

From Stdlib Require Import ZArith Lia.
From stdpp Require Import prelude gmap sorting strings.
From S2P Require Import Prelude Wire Backend Hex LargestRemainder Pplns PayoutFees Ledger PayoutRequest.
Open Scope Z_scope.

(** ** Payout tables *)

Inductive PayoutBatchState : Type :=
| Draft | Signing | Signed | Broadcasting | Broadcast | ExpiryPending | Expired | Confirmed
| Reorged | Cancelled.

#[global] Instance PayoutBatchState_eq_dec : EqDecision PayoutBatchState.
Proof. solve_decision. Defined.

Definition PayoutBatchState_as_str (s : PayoutBatchState) : string :=
  match s with
  | Draft => "draft" | Signing => "signing" | Signed => "signed"
  | Broadcasting => "broadcasting" | Broadcast => "broadcast"
  | ExpiryPending => "expiry_pending" | Expired => "expired" | Confirmed => "confirmed"
  | Reorged => "reorged" | Cancelled => "cancelled"
  end.

Definition PayoutBatchState_parse (value : string) : result PayoutBatchState StoreError :=
  if String.eqb value "draft" then Ok Draft
  else if String.eqb value "signing" then Ok Signing
  else if String.eqb value "signed" then Ok Signed
  else if String.eqb value "broadcasting" then Ok Broadcasting
  else if String.eqb value "broadcast" then Ok Broadcast
  else if String.eqb value "expiry_pending" then Ok ExpiryPending
  else if String.eqb value "expired" then Ok Expired
  else if String.eqb value "confirmed" then Ok Confirmed
  else if String.eqb value "reorged" then Ok Reorged
  else if String.eqb value "cancelled" then Ok Cancelled
  else Err (CorruptDatabaseState "payout batch state").

(** The state column is read back through [parse]; the tables below hold the parsed value. *)
Lemma PayoutBatchState_parse_as_str s : PayoutBatchState_parse (PayoutBatchState_as_str s) = Ok s.
Proof. by destruct s. Qed.

(** The nullable columns come in groups that the schema's checks keep all null or all set:
    the reconciliation seal, the signed facts and the confirmation. *)
Record BatchSeal : Type := mkBatchSeal {
  bs_reconciliation_id : Uuid;
  bs_ledger_root : list Z;
  bs_ledger_sequence_cutoff : Z
}.

Record SignedFacts : Type := mkSignedFacts {
  sf_unsigned_digest : list Z;
  sf_transaction_id : list Z;
  sf_signed_transaction : list Z;
  sf_network_fee_zat : Z
}.

#[global] Instance SignedFacts_eq_dec : EqDecision SignedFacts.
Proof. solve_decision. Defined.

Record PayoutConfirmation : Type := mkPayoutConfirmation {
  pc_block_hash : list Z;
  pc_block_height : Z;
  pc_confirmations : Z
}.

#[global] Instance PayoutConfirmation_eq_dec : EqDecision PayoutConfirmation.
Proof. solve_decision. Defined.

Record PayoutBatchRow : Type := mkPayoutBatchRow {
  br_chain : Chain;
  br_policy_version : Z;
  br_idempotency_key : Uuid;
  br_state : PayoutBatchState;
  br_created_at : Z;
  br_seal : option BatchSeal;
  br_signed : option SignedFacts;
  br_confirmation : option PayoutConfirmation
}.

Record PayoutItem : Type := mkPayoutItem {
  it_account_id : Uuid;
  it_destination_id : Uuid;
  it_amount_zat : Z;
  it_allocation_id : Uuid;
  it_liability_amount_zat : option Z
}.

(** [COALESCE(liability_amount_zat, amount_zat)]. *)
Definition item_liability (i : PayoutItem) : Z := default (it_amount_zat i) (it_liability_amount_zat i).

Inductive DestinationState : Type := DestinationPending | DestinationActive | DestinationDisabled.

#[global] Instance DestinationState_eq_dec : EqDecision DestinationState.
Proof. solve_decision. Defined.

Record PayoutDestination : Type := mkPayoutDestination {
  pd_account_id : Uuid;
  pd_chain : Chain;
  pd_address : string;
  pd_receiver_kind : string;
  pd_payout_threshold_zat : Z;
  pd_automatic : bool;
  pd_state : DestinationState;
  pd_active_after : Z;
  pd_address_digest : list Z;
  pd_revision : Z
}.

Definition set_pd_state (x : PayoutDestination) (s : DestinationState) : PayoutDestination :=
  mkPayoutDestination (pd_account_id x) (pd_chain x) (pd_address x) (pd_receiver_kind x)
    (pd_payout_threshold_zat x) (pd_automatic x) s (pd_active_after x) (pd_address_digest x)
    (pd_revision x).

(** The audit row of one configuration request. *)
Record PayoutChangeEvent : Type := mkPayoutChangeEvent {
  ce_account_id : Uuid;
  ce_chain : Chain;
  ce_address_digest : list Z;
  ce_payout_threshold_zat : Z;
  ce_automatic : bool;
  ce_requested_at : Z;
  ce_active_after : Z;
  ce_revision : Z
}.

Record WalletObservation : Type := mkWalletObservation {
  wo_chain : Chain;
  wo_wallet_state_digest : list Z;
  wo_wallet_spendable_zat : Z;
  wo_best_tip_hash : list Z;
  wo_best_tip_height : Z;
  wo_observed_at : Z;
  wo_valid_until : Z
}.

Record ReconciliationRow : Type := mkReconciliationRow {
  wr_chain : Chain;
  wr_ledger_root : list Z;
  wr_ledger_transaction_count : Z;
  wr_wallet_state_digest : list Z;
  wr_wallet_spendable_zat : Z;
  wr_ledger_spendable_zat : Z;
  wr_best_tip_hash : list Z;
  wr_best_tip_height : Z;
  wr_observed_at : Z;
  wr_valid_until : Z;
  wr_matched : bool;
  wr_created_at : Z
}.

Record PayoutExpiryEvidence : Type := mkPayoutExpiryEvidence {
  ev_transaction_id : list Z;
  ev_signed_transaction_sha256 : list Z;
  ev_expiry_height : Z;
  ev_tip_hash : list Z;
  ev_tip_height : Z;
  ev_observed_at : Z
}.

#[global] Instance PayoutExpiryEvidence_eq_dec : EqDecision PayoutExpiryEvidence.
Proof. solve_decision. Defined.

Record PayoutReorg : Type := mkPayoutReorg {
  rg_prior_confirmation : PayoutConfirmation;
  rg_replacement_tip_hash : list Z;
  rg_replacement_tip_height : Z;
  rg_observed_at : Z
}.

#[global] Instance PayoutReorg_eq_dec : EqDecision PayoutReorg.
Proof. solve_decision. Defined.

(** [expiry_held] and [expiry_finalized] are the two phases of [payout_expiry_evidence]; a watch
    cursor is the batch checked last and its generation. *)
Record PayoutTables : Type := mkPayoutTables {
  destinations : gmap Z PayoutDestination;
  batches : gmap Z PayoutBatchRow;
  items : gmap Z (list PayoutItem);
  reconciliations : gmap Z ReconciliationRow;
  expiry_held : gmap Z PayoutExpiryEvidence;
  expiry_finalized : gmap Z (PayoutExpiryEvidence * Uuid);
  reorg_events : list (Uuid * Uuid * PayoutReorg);
  change_events : gmap Z PayoutChangeEvent;
  watch_cursors : gmap MergedChain (option Uuid * Z)
}.

(** ** Chain-accounting tables *)

Inductive WinnerState : Type :=
| Submitted | SideChain | Observed | Matured | Quarantined | Requeued | Orphaned.

#[global] Instance WinnerState_eq_dec : EqDecision WinnerState.
Proof. solve_decision. Defined.

Record ShareRow : Type := mkShareRow {
  sh_share_id : list Z;
  sh_event_seq : Z;
  sh_job_id : list Z;
  sh_account_id : Uuid;
  sh_worker_id : Uuid;
  sh_target_le : TargetLe;
  sh_work : Z;
  sh_parent_hash_le : list Z
}.

Record WinnerRecord : Type := mkWinnerRecord {
  wn_share_id : list Z;
  wn_job_id : list Z;
  wn_height : Z;
  wn_coinbase_txid_le : list Z;
  wn_reward_zat : Z;
  wn_maturity_confirmations : Z;
  wn_state : WinnerState;
  wn_active_observation_event_seq : option Z;
  wn_active_maturity_event_seq : option Z;
  wn_active_proof_share_id : option (list Z)
}.

Record WinnerProof : Type := mkWinnerProof { wp_job_id : list Z; wp_state : WinnerState }.

Record AllocationRow : Type := mkAllocationRow {
  al_chain : Chain;
  al_block_hash_le : list Z;
  al_observation_event_seq : Z;
  al_policy_version : Z;
  al_account_id : Uuid;
  al_selected_work : Z;
  al_amount_zat : Z
}.

(** [shares] is newest first; [winners] is keyed by chain and block hash, [winner_proofs] also by
    share. *)
Record ChainTables : Type := mkChainTables {
  last_event_seq : Z;
  backend_events : gmap Z (list Z);
  accounts : gmap Z string;
  workers : gmap Z (Uuid * string * string);
  jobs : gmap (list Z) JobDescriptor;
  shares : list ShareRow;
  winners : gmap (Chain * list Z) WinnerRecord;
  winner_proofs : gmap (Chain * list Z * list Z) WinnerProof;
  winner_allocations : list AllocationRow
}.

(** ** The database *)

Record Db : Type := mkDb { led : LedgerTables; pay : PayoutTables; chn : ChainTables }.

Definition set_led (db : Db) (t : LedgerTables) : Db := mkDb t (pay db) (chn db).
Definition set_pay (db : Db) (t : PayoutTables) : Db := mkDb (led db) t (chn db).
Definition set_chn (db : Db) (t : ChainTables) : Db := mkDb (led db) (pay db) t.

Definition set_destinations (t : PayoutTables) d : PayoutTables :=
  mkPayoutTables d (batches t) (items t) (reconciliations t) (expiry_held t) (expiry_finalized t)
    (reorg_events t) (change_events t) (watch_cursors t).
Definition set_batches (t : PayoutTables) b : PayoutTables :=
  mkPayoutTables (destinations t) b (items t) (reconciliations t) (expiry_held t)
    (expiry_finalized t) (reorg_events t) (change_events t) (watch_cursors t).
Definition set_items (t : PayoutTables) i : PayoutTables :=
  mkPayoutTables (destinations t) (batches t) i (reconciliations t) (expiry_held t)
    (expiry_finalized t) (reorg_events t) (change_events t) (watch_cursors t).
Definition set_reconciliations (t : PayoutTables) r : PayoutTables :=
  mkPayoutTables (destinations t) (batches t) (items t) r (expiry_held t) (expiry_finalized t)
    (reorg_events t) (change_events t) (watch_cursors t).
Definition set_expiry_held (t : PayoutTables) e : PayoutTables :=
  mkPayoutTables (destinations t) (batches t) (items t) (reconciliations t) e (expiry_finalized t)
    (reorg_events t) (change_events t) (watch_cursors t).
Definition set_expiry_finalized (t : PayoutTables) e : PayoutTables :=
  mkPayoutTables (destinations t) (batches t) (items t) (reconciliations t) (expiry_held t) e
    (reorg_events t) (change_events t) (watch_cursors t).
Definition set_reorg_events (t : PayoutTables) r : PayoutTables :=
  mkPayoutTables (destinations t) (batches t) (items t) (reconciliations t) (expiry_held t)
    (expiry_finalized t) r (change_events t) (watch_cursors t).
Definition set_change_events (t : PayoutTables) c : PayoutTables :=
  mkPayoutTables (destinations t) (batches t) (items t) (reconciliations t) (expiry_held t)
    (expiry_finalized t) (reorg_events t) c (watch_cursors t).
Definition set_watch_cursors (t : PayoutTables) c : PayoutTables :=
  mkPayoutTables (destinations t) (batches t) (items t) (reconciliations t) (expiry_held t)
    (expiry_finalized t) (reorg_events t) (change_events t) c.

Definition set_winners (t : ChainTables) w : ChainTables :=
  mkChainTables (last_event_seq t) (backend_events t) (accounts t) (workers t) (jobs t) (shares t) w
    (winner_proofs t) (winner_allocations t).
Definition set_winner_proofs (t : ChainTables) p : ChainTables :=
  mkChainTables (last_event_seq t) (backend_events t) (accounts t) (workers t) (jobs t) (shares t)
    (winners t) p (winner_allocations t).
Definition set_winner_allocations (t : ChainTables) a : ChainTables :=
  mkChainTables (last_event_seq t) (backend_events t) (accounts t) (workers t) (jobs t) (shares t)
    (winners t) (winner_proofs t) a.
Definition set_identities (t : ChainTables) a w : ChainTables :=
  mkChainTables (last_event_seq t) (backend_events t) a w (jobs t) (shares t) (winners t)
    (winner_proofs t) (winner_allocations t).
Definition set_jobs (t : ChainTables) j : ChainTables :=
  mkChainTables (last_event_seq t) (backend_events t) (accounts t) (workers t) j (shares t)
    (winners t) (winner_proofs t) (winner_allocations t).
Definition set_shares (t : ChainTables) s : ChainTables :=
  mkChainTables (last_event_seq t) (backend_events t) (accounts t) (workers t) (jobs t) s
    (winners t) (winner_proofs t) (winner_allocations t).
Definition set_cursor (t : ChainTables) c e : ChainTables :=
  mkChainTables c e (accounts t) (workers t) (jobs t) (shares t) (winners t) (winner_proofs t)
    (winner_allocations t).

(** ** Database transactions *)

(** How the body of a transaction ends: [commit().await?] followed by a result, or
    [rollback().await?] followed by one.  An error that leaves the body through [?] drops the
    transaction, which rolls it back. *)
Inductive TxEnd (A : Type) : Type :=
| Commit (db : Db) (r : result A StoreError)
| Rollback (r : result A StoreError).
Arguments Commit {A} _ _.
Arguments Rollback {A} _.

Definition transaction {A} (db : Db) (body : result (TxEnd A) StoreError)
    : Db * result A StoreError :=
  match body with
  | Ok (Commit db' r) => (db', r)
  | Ok (Rollback r) => (db, r)
  | Err e => (db, Err e)
  end.

Lemma transaction_cases {A} (P : Db -> Prop) db (body : result (TxEnd A) StoreError) :
  P db -> (forall db' r, body = Ok (Commit db' r) -> P db') -> P (fst (transaction db body)).
Proof. intros H0 HS. destruct body as [[db' r|r]|e]; cbn; [by eapply HS|done|done]. Qed.

Lemma transaction_Ok {A} db (body : result (TxEnd A) StoreError) db' r :
  transaction db body = (db', Ok r) ->
  body = Ok (Commit db' (Ok r)) \/ db' = db /\ body = Ok (Rollback (Ok r)).
Proof. destruct body as [[d r'|r']|e]; cbn; intros H; simplify_eq; auto. Qed.

(** ** Batches as the store returns them *)

Record PayoutBatch : Type := mkPayoutBatch {
  pb_id : Uuid;
  pb_chain : Chain;
  pb_state : PayoutBatchState;
  pb_policy_version : Z;
  pb_reconciliation_id : Uuid;
  pb_ledger_root : list Z;
  pb_ledger_sequence_cutoff : Z;
  pb_miner_total_zat : Z;
  pb_payout_total_zat : Z;
  pb_maximum_network_fee_zat : Z;
  pb_outputs : list PayoutInstruction
}.

Record SignedPayoutArtifact : Type := mkSignedPayoutArtifact {
  ar_batch_id : Uuid;
  ar_chain : Chain;
  ar_state : PayoutBatchState;
  ar_facts : SignedFacts
}.

#[global] Instance SignedPayoutArtifact_eq_dec : EqDecision SignedPayoutArtifact.
Proof. solve_decision. Defined.

Record WalletReconciliation : Type := mkWalletReconciliation {
  rec_id : Uuid;
  rec_chain : Chain;
  rec_ledger_root : list Z;
  rec_ledger_transaction_count : Z;
  rec_wallet_spendable_zat : Z;
  rec_best_tip_hash : list Z;
  rec_best_tip_height : Z;
  rec_observed_at : Z;
  rec_valid_until : Z
}.
