(* ===== verification/PayoutStore.v ===== *)
(** The payout transactions of the store (crates/wcash-pool-store/src/postgres.rs): opening
    equity, wallet reconciliation, batch creation, the signing and broadcast fences, expiry,
    confirmation, reorganisation and cancellation.

    Each operation is one database transaction on the tables of [StoreDb].  The identifiers that
    [Uuid::new_v4] draws, the randomness of the payout cap and the database clock are arguments;
    advisory and row locks only serialise transactions, which are atomic steps here. *)

From Stdlib Require Import ZArith Lia.
From stdpp Require Import prelude gmap sorting strings.
From S2P Require Import Prelude Wire Backend Hex LargestRemainder Pplns PayoutFees Ledger PayoutRequest StoreDb.
Open Scope Z_scope.

Definition MAX_SIGNED_TRANSACTION_BYTES : Z := 4 * 1024 * 1024.
Definition PAYOUT_EXPIRY_FINALITY_DEPTH : Z := 1001.
Definition MAX_WALLET_RECONCILIATION_AGE_SECS : Z := 5 * 60.
Definition WALLET_RECONCILIATION_MISMATCH_GRACE_SECS : Z := 10 * 60.

(** ** Conversions *)

Definition unix_i64 (value : Z) : result Z StoreError :=
  if I64_MAX <? value then Err InvalidTimestamp else Ok value.

Definition exact_hash (value : list Z) (field : string) : result (list Z) StoreError :=
  if (length value =? 32)%nat then Ok value else Err (CorruptDatabaseState field).

Definition as_i32 (value : Z) (e : StoreError) : result Z StoreError :=
  if I32_MAX <? value then Err e else Ok value.

Definition asset_for_chain (chain : Chain) : Asset :=
  match chain with Wcash => Wec | Zcash => Zec end.

Definition PayoutConfirmation_validate (self : PayoutConfirmation) : result unit StoreError :=
  if all_zero (pc_block_hash self) || (pc_block_height self =? 0) || (pc_confirmations self =? 0)
  then Err InvalidPayoutConfirmation else Ok tt.

Definition PayoutReorg_validate (self : PayoutReorg) : result unit StoreError :=
  let? _ := PayoutConfirmation_validate (rg_prior_confirmation self) in
  if all_zero (rg_replacement_tip_hash self)
     || bool_decide (rg_replacement_tip_hash self = pc_block_hash (rg_prior_confirmation self))
     || (rg_replacement_tip_height self =? 0) || (rg_observed_at self =? 0)
  then Err InvalidPayoutConfirmation else Ok tt.

(** ** Reading a batch *)

(** [payout_items] joined with the destination each row names, by account and allocation. *)
Definition item_rows (t : PayoutTables) (batch_id : Uuid) : list (PayoutItem * PayoutDestination) :=
  sort_by (fun a b => cmp_then (it_account_id (fst a) ?= it_account_id (fst b))
                               (it_allocation_id (fst a) ?= it_allocation_id (fst b)))
    (omap (fun i => (fun d => (i, d)) <$> destinations t !! it_destination_id i)
       (default [] (items t !! batch_id))).

Fixpoint load_outputs (rows : list (PayoutItem * PayoutDestination)) (miner_total payout_total : Z)
    : result (list PayoutInstruction * Z * Z) StoreError :=
  match rows with
  | [] => Ok ([], miner_total, payout_total)
  | (i, d) :: rest =>
      let? amount := u64_from (it_amount_zat i) (CorruptDatabaseState "payout amount") in
      let? liability := u64_from (item_liability i)
                          (CorruptDatabaseState "payout liability amount") in
      if liability <? amount then Err (CorruptDatabaseState "payout liability amount") else
      let? miner_total' := ok_or (checked_add U64_MAX miner_total liability) MoneyOverflow in
      let? payout_total' := ok_or (checked_add U64_MAX payout_total amount) MoneyOverflow in
      let? kind := ReceiverKind_parse (pd_receiver_kind d) in
      let? p := load_outputs rest miner_total' payout_total' in
      let '(outputs, m, q) := p in
      Ok (mkPayoutInstruction (it_allocation_id i) (it_account_id i) (it_destination_id i) kind
            (pd_address d) liability amount :: outputs, m, q)
  end.

Definition load_payout_batch (db : Db) (batch_id : Uuid) : result PayoutBatch StoreError :=
  let? row := ok_or (batches (pay db) !! batch_id) UnknownPayoutBatch in
  let? seal := ok_or (br_seal row) (CorruptDatabaseState "payout reconciliation identity") in
  let? ledger_root := exact_hash (bs_ledger_root seal) "payout ledger root" in
  let? cutoff := u64_from (bs_ledger_sequence_cutoff seal)
                   (CorruptDatabaseState "payout ledger sequence cutoff") in
  let rows := item_rows (pay db) batch_id in
  if bool_decide (rows = []) then Err (CorruptDatabaseState "empty payout batch") else
  let? p := load_outputs rows 0 0 in
  let '(outputs, miner_total, payout_total) := p in
  let? maximum_fee := ok_or (checked_sub miner_total payout_total) MoneyOverflow in
  Ok (mkPayoutBatch batch_id (br_chain row) (br_state row) (br_policy_version row)
        (bs_reconciliation_id seal) ledger_root cutoff miner_total payout_total maximum_fee outputs).

Definition signed_artifact_from_row (batch_id : Uuid) (state : PayoutBatchState)
    (row : PayoutBatchRow) : result SignedPayoutArtifact StoreError :=
  let? facts := ok_or (br_signed row) (CorruptDatabaseState "unsigned payout digest") in
  let? _ := exact_hash (sf_unsigned_digest facts) "unsigned payout digest" in
  let? _ := exact_hash (sf_transaction_id facts) "payout transaction ID" in
  if bool_decide (sf_signed_transaction facts = [])
     || (MAX_SIGNED_TRANSACTION_BYTES <? Z.of_nat (length (sf_signed_transaction facts)))
  then Err (CorruptDatabaseState "signed payout transaction") else
  let? _ := u64_from (sf_network_fee_zat facts) (CorruptDatabaseState "payout network fee") in
  Ok (mkSignedPayoutArtifact batch_id (br_chain row) state facts).

Definition signed_payout_artifact (db : Db) (batch_id : Uuid)
    : result (option SignedPayoutArtifact) StoreError :=
  let? row := ok_or (batches (pay db) !! batch_id) UnknownPayoutBatch in
  match br_state row with
  | Draft | Signing | Cancelled => Ok None
  | state => let? artifact := signed_artifact_from_row batch_id state row in Ok (Some artifact)
  end.

(** ** Writing a batch row *)

Definition set_state (row : PayoutBatchRow) (s : PayoutBatchState) : PayoutBatchRow :=
  mkPayoutBatchRow (br_chain row) (br_policy_version row) (br_idempotency_key row) s
    (br_created_at row) (br_seal row) (br_signed row) (br_confirmation row).

Definition put_batch (db : Db) (batch_id : Uuid) (row : PayoutBatchRow) : Db :=
  set_pay db (set_batches (pay db) (<[batch_id := row]> (batches (pay db)))).

(** [UPDATE ... WHERE id = $2 AND state = $3], which must hit one row. *)
Definition update_payout_state (db : Db) (batch_id : Uuid) (expected next : PayoutBatchState)
    : result Db StoreError :=
  match batches (pay db) !! batch_id with
  | Some row => if bool_decide (br_state row = expected)
                then Ok (put_batch db batch_id (set_state row next))
                else Err InvalidPayoutTransition
  | None => Err InvalidPayoutTransition
  end.

Definition insert_ledger (db : Db) (id : Uuid) (chain : Chain) (kind : string)
    (backend_event_seq : option Z) (reference : string) (entries : list LedgerEntry)
    : result Db StoreError :=
  let? t := insert_owned_ledger_transaction (led db) id chain kind backend_event_seq reference
              entries in
  Ok (set_led db t).

(** ** Wallet reconciliation *)

(** Both the wallet checkpoint and a new batch require every held payout to have expired. *)
Definition ensure_held_payouts_expired_at (db : Db) (chain : Chain) (tip_height : Z)
    : result unit StoreError :=
  let held := filter (fun p => br_chain (snd p) = chain /\ br_state (snd p) = ExpiryPending)
                (map_to_list (batches (pay db))) in
  let evidence := omap (fun p => expiry_held (pay db) !! fst p) held in
  if negb (length evidence =? length held)%nat
     || (tip_height <=? foldr (fun e m => Z.max (ev_expiry_height e) m) 0 evidence)
  then Err WalletReconciliationBlocked else Ok tt.

Definition ambiguous_payout (state : PayoutBatchState) : bool :=
  match state with
  | Signing | Signed | Broadcasting | Broadcast | Reorged => true
  | _ => false
  end.

Definition has_ambiguous_payout (db : Db) (chain : Chain) : bool :=
  existsb (fun p => bool_decide (br_chain (snd p) = chain) && ambiguous_payout (br_state (snd p)))
    (map_to_list (batches (pay db))).

Section Store.
Context {env : StoreEnv}.

Definition record_opening_pool_equity (db : Db) (ledger_id : Uuid) (chain : Chain)
    (observed_wallet_spendable_zat expected_surplus_zat : Z) : Db * result unit StoreError :=
  if expected_surplus_zat =? 0 then (db, Ok tt) else
  transaction db (
    let? _ := lock_chain_safety_row (led db) chain in
    let reference := ("opening-pool-equity:" +:+ Chain_as_str chain)%string in
    let existing := length (filter (fun x => lt_chain x = chain /\
                                             lt_kind x = "operator_capital_funded"%string /\
                                             lt_reference x = reference) (ledger (led db))) in
    if (existing =? 1)%nat then Ok (Rollback (Ok tt)) else
    if negb (existing =? 0)%nat
    then Err (CorruptDatabaseState "opening pool equity transaction") else
    if existsb (fun p => bool_decide (wr_chain (snd p) = chain))
         (map_to_list (reconciliations (pay db)))
       || existsb (fun p => bool_decide (br_chain (snd p) = chain)) (map_to_list (batches (pay db)))
    then Err CollectorReconciliationFailed else
    let? spendable := bigint (label_balance (led db) chain "collector_spendable_asset") in
    let? spendable := u64_from spendable CollectorReconciliationFailed in
    let? actual := ok_or (checked_sub observed_wallet_spendable_zat spendable)
                     CollectorReconciliationFailed in
    if negb (actual =? expected_surplus_zat) then Err CollectorReconciliationFailed else
    let? surplus := as_i64 expected_surplus_zat in
    let? db := insert_ledger db ledger_id chain "operator_capital_funded" None reference
                 [(None, "collector_spendable_asset"%string, surplus);
                  (None, "pool_equity"%string, - surplus)] in
    Ok (Commit db (Ok tt))).

(** The mismatch already recorded at least the grace period ago. *)
Definition persistent_mismatch (db : Db) (chain : Chain) (snapshot : LedgerSnapshot)
    (wallet_spendable now : Z) : bool :=
  existsb (fun p => let r := snd p in
      bool_decide (wr_chain r = chain) && negb (wr_matched r)
      && bool_decide (wr_ledger_root r = ls_root snapshot)
      && (wr_wallet_spendable_zat r =? wallet_spendable)
      && (wr_ledger_spendable_zat r =? ls_collector_spendable_zat snapshot)
      && (wr_created_at r <=? now - WALLET_RECONCILIATION_MISMATCH_GRACE_SECS))
    (map_to_list (reconciliations (pay db))).

Definition record_wallet_reconciliation (db : Db) (checkpoint_id : Uuid) (now : Z)
    (o : WalletObservation) : Db * result WalletReconciliation StoreError :=
  if all_zero (wo_wallet_state_digest o) || all_zero (wo_best_tip_hash o)
     || (wo_best_tip_height o =? 0) || (wo_observed_at o =? 0)
     || (wo_valid_until o <=? wo_observed_at o)
     || (MAX_WALLET_RECONCILIATION_AGE_SECS <? saturating_sub (wo_valid_until o) (wo_observed_at o))
  then (db, Err InvalidWalletObservation) else
  transaction db (
    let chain := wo_chain o in
    let? _ := lock_chain_safety_row (led db) chain in
    let? database_now := u64_from now (CorruptDatabaseState "timestamp") in
    if (database_now <? wo_observed_at o)
       || (MAX_WALLET_RECONCILIATION_AGE_SECS <? saturating_sub database_now (wo_observed_at o))
       || (wo_valid_until o <=? database_now)
    then Err InvalidWalletObservation else
    if has_ambiguous_payout db chain then Err WalletReconciliationBlocked else
    let? _ := ensure_held_payouts_expired_at db chain (wo_best_tip_height o) in
    let? snapshot := ledger_snapshot (led db) chain None in
    let matched := ls_collector_spendable_zat snapshot =? wo_wallet_spendable_zat o in
    let? wallet_spendable := as_i64 (wo_wallet_spendable_zat o) in
    let? ledger_spendable := as_i64 (ls_collector_spendable_zat snapshot) in
    let persistent := if matched then false
                      else persistent_mismatch db chain snapshot wallet_spendable now in
    let? _ := as_i64 (ls_transaction_count snapshot) in
    let? _ := unix_i64 (wo_observed_at o) in
    let? _ := unix_i64 (wo_valid_until o) in
    if bool_decide (is_Some (reconciliations (pay db) !! checkpoint_id))
    then Err (Database "wallet_reconciliations_pkey") else
    if negb (bool_decide (is_Some (policies (led db) !! chain)))
    then Err (Database "wallet_reconciliations_chain_fkey") else
    let row := mkReconciliationRow chain (ls_root snapshot) (ls_transaction_count snapshot)
                 (wo_wallet_state_digest o) (wo_wallet_spendable_zat o)
                 (ls_collector_spendable_zat snapshot) (wo_best_tip_hash o) (wo_best_tip_height o)
                 (wo_observed_at o) (wo_valid_until o) matched now in
    let db := set_pay db (set_reconciliations (pay db)
                (<[checkpoint_id := row]> (reconciliations (pay db)))) in
    if negb matched then
      if negb persistent then Ok (Commit db (Err WalletReconciliationPending)) else
      let? t := freeze_chain_payouts (led db) chain None "wallet_reconciliation_mismatch" in
      Ok (Commit (set_led db t) (Err CollectorReconciliationFailed))
    else
      Ok (Commit db (Ok (mkWalletReconciliation checkpoint_id chain (ls_root snapshot)
            (ls_transaction_count snapshot) (wo_wallet_spendable_zat o) (wo_best_tip_hash o)
            (wo_best_tip_height o) (wo_observed_at o) (wo_valid_until o))))).

Definition load_usable_wallet_reconciliation (db : Db) (now : Z) (chain : Chain)
    (reconciliation_id : Uuid) : result WalletReconciliation StoreError :=
  let? row := ok_or (reconciliations (pay db) !! reconciliation_id) WalletReconciliationStale in
  let? wallet_spendable := u64_from (wr_wallet_spendable_zat row)
                             (CorruptDatabaseState "wallet balance") in
  let? ledger_spendable := u64_from (wr_ledger_spendable_zat row)
                             (CorruptDatabaseState "ledger balance") in
  if bool_decide (wr_chain row <> chain) || negb (wr_matched row)
     || negb (now <? wr_valid_until row) || negb (wallet_spendable =? ledger_spendable)
  then Err WalletReconciliationStale else
  let? best_tip_height := u64_from (wr_best_tip_height row)
                            (CorruptDatabaseState "wallet best tip height") in
  let? _ := ensure_held_payouts_expired_at db chain best_tip_height in
  let? root := exact_hash (wr_ledger_root row) "wallet ledger root" in
  let? count := u64_from (wr_ledger_transaction_count row)
                  (CorruptDatabaseState "ledger transaction count") in
  let? tip := exact_hash (wr_best_tip_hash row) "wallet best tip" in
  let? observed_at := u64_from (wr_observed_at row) (CorruptDatabaseState "timestamp") in
  let? valid_until := u64_from (wr_valid_until row) (CorruptDatabaseState "timestamp") in
  Ok (mkWalletReconciliation reconciliation_id chain root count wallet_spendable tip
        best_tip_height observed_at valid_until).

(** ** Creating a batch *)

(** [activate_due_payout_destinations_v1]: each due pending destination, in order, disables the
    account's active one and becomes active. *)
Definition activate_one (chain : Chain) (d : gmap Z PayoutDestination) (due : Z * PayoutDestination)
    : gmap Z PayoutDestination :=
  let disabled := (fun x => if bool_decide (pd_account_id x = pd_account_id (snd due) /\
                                            pd_chain x = chain /\ pd_state x = DestinationActive)
                            then set_pd_state x DestinationDisabled else x) <$> d in
  <[fst due := set_pd_state (snd due) DestinationActive]> disabled.

Definition activate_due_payout_destinations (db : Db) (now : Z) (chain : Chain) : Db :=
  let d := destinations (pay db) in
  let due := filter (fun p => pd_chain (snd p) = chain /\ pd_state (snd p) = DestinationPending /\
                              pd_active_after (snd p) <= now) (map_to_list d) in
  let ordered := sort_by (fun a b => cmp_then (pd_account_id (snd a) ?= pd_account_id (snd b))
                                              (fst a ?= fst b)) due in
  set_pay db (set_destinations (pay db) (foldl (activate_one chain) d ordered)).

(** The latest batch that pays an account and was not released. *)
Definition last_payout_at (db : Db) (chain : Chain) (account : Uuid) : option Z :=
  foldr (fun p m =>
      let (id, row) := (p : Z * PayoutBatchRow) in
      if bool_decide (br_chain row = chain)
         && negb (bool_decide (br_state row = Cancelled \/ br_state row = Expired))
         && existsb (fun i => it_account_id i =? account) (default [] (items (pay db) !! id))
      then Some (match m with Some t => Z.max t (br_created_at row) | None => br_created_at row end)
      else m)
    None (map_to_list (batches (pay db))).

Record EligibleRow : Type := mkEligibleRow {
  el_account_id : Uuid;
  el_amount_zat : Z;
  el_destination_id : Uuid;
  el_address : string;
  el_receiver_kind : string;
  el_last_payout_at : option Z
}.

Definition payable_amounts (db : Db) (chain : Chain) (account : Uuid) : list LedgerEntry :=
  filter (fun e => fst e = (Some account, "miner_payable"%string))
    (chain_entries (ledger (led db)) chain).

(** The common table expression [eligible] of the selection query. *)
Definition eligible_row (db : Db) (chain : Chain) (minimum : Z) (p : Z * PayoutDestination)
    : option EligibleRow :=
  let d := snd p in
  let account := pd_account_id d in
  let amounts := payable_amounts db chain account in
  let pending_change :=
    existsb (fun q => bool_decide (pd_account_id (snd q) = account /\ pd_chain (snd q) = chain /\
                                   pd_state (snd q) = DestinationPending))
      (map_to_list (destinations (pay db))) in
  if bool_decide (pd_chain d = chain /\ pd_state d = DestinationActive /\ amounts <> [])
     && pd_automatic d
     && (bool_decide (chain <> Wcash) || env_wcash_transparent_payouts
         || String.eqb (pd_receiver_kind d) "ironwood")
     && negb pending_change
     && (Z.max (pd_payout_threshold_zat d) minimum <=? - entry_sum amounts)
  then Some (mkEligibleRow account (- entry_sum amounts) (fst p) (pd_address d)
               (pd_receiver_kind d) (last_payout_at db chain account))
  else None.

Definition nulls_first (a b : option Z) : comparison :=
  match a, b with
  | None, None => Eq
  | None, Some _ => Lt
  | Some _, None => Gt
  | Some x, Some y => x ?= y
  end.

Definition eligible_rows (db : Db) (chain : Chain) (minimum : Z) : list EligibleRow :=
  sort_by (fun a b => cmp_then (nulls_first (el_last_payout_at a) (el_last_payout_at b))
                               (el_account_id a ?= el_account_id b))
    (omap (eligible_row db chain minimum) (map_to_list (destinations (pay db)))).

(** A Wcash batch holds one receiver kind: that of the account waiting longest. *)
Definition selected_rows (db : Db) (chain : Chain) (minimum maximum_outputs : Z)
    : list EligibleRow :=
  let rows := eligible_rows db chain minimum in
  let same_kind := match chain, rows with
                   | Wcash, first :: _ =>
                       filter (fun r => el_receiver_kind r = el_receiver_kind first) rows
                   | _, _ => rows
                   end in
  take (Z.to_nat maximum_outputs) same_kind.

Definition payout_rows (fresh : nat -> Uuid) (rows : list EligibleRow) : list PayoutRow :=
  imap (fun i r => mkPayoutRow (fresh i) (el_account_id r) (el_destination_id r)
                     (el_receiver_kind r) (el_address r) (el_amount_zat r)) rows.

Definition item_of (o : PayoutInstruction) : PayoutItem :=
  mkPayoutItem (pi_account_id o) (pi_destination_id o) (amount_zat o) (pi_allocation_id o)
    (Some (liability_amount_zat o)).

(** The inserts into [payout_items]: the amounts fit [BIGINT], and the account and the
    allocation are unique within the batch. *)
Fixpoint insert_items (outputs : list PayoutInstruction) (done : list PayoutItem)
    : result (list PayoutItem) StoreError :=
  match outputs with
  | [] => Ok done
  | o :: rest =>
      let? _ := as_i64 (amount_zat o) in
      let? _ := as_i64 (liability_amount_zat o) in
      if existsb (fun i => it_account_id i =? pi_account_id o) done
      then Err (Database "payout_items_pkey") else
      if existsb (fun i => it_allocation_id i =? pi_allocation_id o) done
      then Err (Database "payout_items_allocation_idx") else
      insert_items rest (done ++ [item_of o])
  end.

(** The unique index on [reconciliation_id]: a checkpoint seals at most one batch. *)
Definition reconciliation_consumed (db : Db) (reconciliation_id : Uuid) : bool :=
  existsb (fun p => match br_seal (snd p) with
                    | Some s => bs_reconciliation_id s =? reconciliation_id
                    | None => false
                    end) (map_to_list (batches (pay db))).

Definition create_payout_batch (db : Db) (now : Z) (fresh : nat -> Uuid) (draws : option (list Z))
    (batch_id ledger_id : Uuid) (chain : Chain) (idempotency_key reconciliation_id : Uuid)
    : Db * result PayoutBatch StoreError :=
  if Uuid_is_nil idempotency_key || Uuid_is_nil reconciliation_id
  then (db, Err InvalidPayoutBatch) else
  transaction db (
    match filter (fun p => br_idempotency_key (snd p) = idempotency_key)
            (map_to_list (batches (pay db))) with
    | (existing, _) :: _ =>
        let? batch := load_payout_batch db existing in
        if bool_decide (pb_chain batch <> chain)
           || negb (pb_reconciliation_id batch =? reconciliation_id)
        then Err PayoutIdempotencyConflict else Ok (Rollback (Ok batch))
    | [] =>
        let db := activate_due_payout_destinations db now chain in
        let? _ := lock_unfrozen_chain (led db) chain in
        let? checkpoint := load_usable_wallet_reconciliation db now chain reconciliation_id in
        let? snapshot := ledger_snapshot (led db) chain None in
        let? _ := ensure_held_payouts_expired_at db chain (rec_best_tip_height checkpoint) in
        if bool_decide (rec_ledger_root checkpoint <> ls_root snapshot)
           || negb (rec_ledger_transaction_count checkpoint =? ls_transaction_count snapshot)
           || negb (rec_wallet_spendable_zat checkpoint =? ls_collector_spendable_zat snapshot)
        then Err WalletReconciliationStale else
        let? policy := ok_or (policies (led db) !! chain) (MissingChainPolicy chain) in
        let minimum := cp_minimum_payout_zat policy in
        let? _ := as_i64 minimum in
        let rows := selected_rows db chain minimum (cp_maximum_payout_outputs policy) in
        if existsb (fun r => I64_MAX <? el_amount_zat r) (eligible_rows db chain minimum)
        then Err (Database "bigint out of range") else
        if bool_decide (rows = []) then Ok (Commit db (Err NoPayableBalances)) else
        let? cap := random_payout_cap draws minimum (cp_maximum_payout_zat policy)
                      (cp_payout_skip_bps policy) in
        match cap with
        | None => Ok (Commit db (Err NoPayableBalances))
        | Some payout_cap_zat =>
            let? plan := plan_payout_batch (payout_rows fresh rows) payout_cap_zat
                           (cp_maximum_network_fee_zat policy) (cp_maximum_network_fee_bps policy) in
            if bool_decide (is_Some (batches (pay db) !! batch_id))
            then Err (Database "payout_batches_pkey") else
            let? new_items := insert_items (pp_outputs plan) [] in
            let? entries := reservation_entries (pp_outputs plan) in
            let cutoff := next_sequence (led db) in
            let? db := insert_ledger db ledger_id chain "payout_reserved" None
                         (env_uuid_text batch_id) entries in
            let? sealed := ledger_snapshot (led db) chain (Some cutoff) in
            let? _ := as_i64 cutoff in
            if reconciliation_consumed db reconciliation_id
            then Err (Database "payout_batches_one_reconciliation_idx") else
            let row := mkPayoutBatchRow chain (cp_policy_version policy) idempotency_key Draft now
                         (Some (mkBatchSeal reconciliation_id (ls_root sealed) cutoff)) None None in
            let db := set_pay db (set_items (set_batches (pay db)
                          (<[batch_id := row]> (batches (pay db))))
                        (<[batch_id := new_items]> (items (pay db)))) in
            Ok (Commit db (Ok (mkPayoutBatch batch_id chain Draft (cp_policy_version policy)
                  reconciliation_id (ls_root sealed) cutoff (pp_miner_total_zat plan)
                  (pp_payout_total_zat plan) (pp_maximum_network_fee_zat plan) (pp_outputs plan))))
        end
    end).

(** ** The signing fence *)

(** The chain policy at the version a batch was built with. *)
Definition policy_at (t : LedgerTables) (chain : Chain) (version : Z) : option ChainPolicy :=
  match policies t !! chain with
  | Some p => if cp_policy_version p =? version then Some p else None
  | None => None
  end.

Definition request_output (o : PayoutInstruction) : PayoutOutput :=
  mkPayoutOutput (pi_allocation_id o) (pi_address o) (pi_receiver_kind o) (amount_zat o).

Definition request_of (batch : PayoutBatch) : PayoutBatchRequest :=
  mkPayoutBatchRequest (pb_id batch) (asset_for_chain (pb_chain batch)) env_network
    (pb_ledger_root batch) (pb_reconciliation_id batch) (pb_maximum_network_fee_zat batch)
    (request_output <$> pb_outputs batch).

Definition frozen_payout_signer_request (db : Db) (batch : PayoutBatch)
    : result PayoutBatchRequest StoreError :=
  let? cutoff := as_i64 (pb_ledger_sequence_cutoff batch) in
  if negb (existsb (fun x => (lt_sequence x =? cutoff) && bool_decide (lt_chain x = pb_chain batch)
                             && String.eqb (lt_kind x) "payout_reserved"
                             && String.eqb (lt_reference x) (env_uuid_text (pb_id batch)))
             (ledger (led db)))
  then Err (CorruptDatabaseState "payout ledger sequence fence") else
  let? policy := ok_or (policy_at (led db) (pb_chain batch) (pb_policy_version batch))
                   (CorruptDatabaseState "payout policy") in
  let relative := pb_miner_total_zat batch * cp_maximum_network_fee_bps policy / 10000 in
  if U64_MAX <? relative then Err MoneyOverflow else
  let? smallest := ok_or (smallest_liability (pb_outputs batch)) InvalidPayoutBatch in
  let reserve := Z.min (Z.min (cp_maximum_network_fee_zat policy) relative)
                   (saturating_sub smallest 1) in
  if (reserve =? 0) || negb (pb_maximum_network_fee_zat batch =? reserve)
     || bool_decide (checked_add U64_MAX (pb_payout_total_zat batch)
                       (pb_maximum_network_fee_zat batch) <> Some (pb_miner_total_zat batch))
  then Err (CorruptDatabaseState "payout fee reserve") else
  let request := request_of batch in
  let? _ := map_err (fun _ => CorruptDatabaseState "payout signer request")
              (PayoutBatchRequest_validate request) in
  Ok request.

Definition payout_signer_request (db : Db) (batch : PayoutBatch)
    : result PayoutBatchRequest StoreError :=
  let? derived := ledger_snapshot (led db) (pb_chain batch) (Some (pb_ledger_sequence_cutoff batch)) in
  if bool_decide (ls_root derived <> pb_ledger_root batch) then Err WalletReconciliationStale
  else frozen_payout_signer_request db batch.

Definition authorize_payout_signing (db : Db) (now : Z) (batch_id : Uuid)
    : Db * result PayoutBatchRequest StoreError :=
  if Uuid_is_nil batch_id then (db, Err InvalidPayoutBatch) else
  transaction db (
    let? batch := load_payout_batch db batch_id in
    match pb_state batch with
    | Draft =>
        let? _ := lock_unfrozen_chain (led db) (pb_chain batch) in
        let? _ := load_usable_wallet_reconciliation db now (pb_chain batch)
                    (pb_reconciliation_id batch) in
        let? request := payout_signer_request db batch in
        let? db := update_payout_state db batch_id Draft Signing in
        Ok (Commit db (Ok request))
    | Signing =>
        let? request := payout_signer_request db batch in
        Ok (Rollback (Ok request))
    | _ => Err InvalidPayoutTransition
    end).

Definition signing_payout_request (db : Db) (batch_id : Uuid)
    : Db * result PayoutBatchRequest StoreError :=
  if Uuid_is_nil batch_id then (db, Err InvalidPayoutBatch) else
  transaction db (
    let? batch := load_payout_batch db batch_id in
    if bool_decide (pb_state batch <> Signing) then Err InvalidPayoutTransition else
    let? request := payout_signer_request db batch in
    Ok (Rollback (Ok request))).

(** ** Recording external facts *)

Definition set_signed (row : PayoutBatchRow) (s : PayoutBatchState) (facts : option SignedFacts)
    : PayoutBatchRow :=
  mkPayoutBatchRow (br_chain row) (br_policy_version row) (br_idempotency_key row) s
    (br_created_at row) (br_seal row)
    (match facts with Some f => Some f | None => br_signed row end) (br_confirmation row).

(** The checks on the facts a signer returns. *)
Definition signed_facts_allowed (db : Db) (batch_id : Uuid) (row : PayoutBatchRow)
    (facts : SignedFacts) : result unit StoreError :=
  if existsb (fun p => bool_decide (br_chain (snd p) = br_chain row) && negb (fst p =? batch_id)
                       && match br_signed (snd p) with
                          | Some f => bool_decide (sf_transaction_id f = sf_transaction_id facts)
                          | None => false
                          end) (map_to_list (batches (pay db)))
  then Err PayoutTransactionConflict else
  let? policy := ok_or (policy_at (led db) (br_chain row) (br_policy_version row))
                   (CorruptDatabaseState "payout policy") in
  let batch_items := default [] (items (pay db) !! batch_id) in
  if bool_decide (batch_items = []) then Err (Database "unexpected null") else
  let? payout_total := bigint (sumZ (it_amount_zat <$> batch_items)) in
  let? liability_total := bigint (sumZ (item_liability <$> batch_items)) in
  let? payout_total := u64_from payout_total (CorruptDatabaseState "payout total") in
  let? liability_total := u64_from liability_total
                            (CorruptDatabaseState "payout liability total") in
  let? fee_reserve := ok_or (checked_sub liability_total payout_total)
                        (CorruptDatabaseState "payout fee reserve") in
  let fee := sf_network_fee_zat facts in
  if (fee =? 0) || (cp_maximum_network_fee_zat policy <? fee)
     || (liability_total * cp_maximum_network_fee_bps policy <? fee * 10000)
     || (fee_reserve <? fee)
  then Err ExcessivePayoutFee else
  let? _ := as_i64 fee in
  Ok tt.

Definition transition_payout (db : Db) (batch_id : Uuid) (expected next : PayoutBatchState)
    (signed : option SignedFacts) (requires_unfrozen : bool) : Db * result unit StoreError :=
  transaction db (
    let? row := ok_or (batches (pay db) !! batch_id) UnknownPayoutBatch in
    if bool_decide (br_state row = next) then
      let replay_matches := match signed with
                            | Some facts => bool_decide (br_signed row = Some facts)
                            | None => true
                            end in
      Ok (Rollback (if replay_matches then Ok tt else Err PayoutReplayConflict))
    else if bool_decide (br_state row <> expected) then Err InvalidPayoutTransition else
    let? _ := (if requires_unfrozen then lock_unfrozen_chain (led db) (br_chain row)
               else let? _ := lock_chain_safety_row (led db) (br_chain row) in Ok tt) in
    let? _ := match signed with
              | Some facts => signed_facts_allowed db batch_id row facts
              | None => Ok tt
              end in
    Ok (Commit (put_batch db batch_id (set_signed row next signed)) (Ok tt))).

Definition mark_payout_signed (db : Db) (batch_id : Uuid) (facts : SignedFacts)
    : Db * result unit StoreError :=
  if all_zero (sf_unsigned_digest facts) || all_zero (sf_transaction_id facts)
     || bool_decide (sf_signed_transaction facts = [])
     || (MAX_SIGNED_TRANSACTION_BYTES <? Z.of_nat (length (sf_signed_transaction facts)))
  then (db, Err InvalidPayoutBatch)
  else transition_payout db batch_id Signing Signed (Some facts) false.

Definition authorize_payout_broadcast (db : Db) (batch_id : Uuid)
    : Db * result SignedPayoutArtifact StoreError :=
  if Uuid_is_nil batch_id then (db, Err InvalidPayoutBatch) else
  transaction db (
    let? row := ok_or (batches (pay db) !! batch_id) UnknownPayoutBatch in
    match br_state row with
    | Signed =>
        let? _ := lock_unfrozen_chain (led db) (br_chain row) in
        let? db := update_payout_state db batch_id Signed Broadcasting in
        let? artifact := signed_artifact_from_row batch_id Broadcasting row in
        Ok (Commit db (Ok artifact))
    | Broadcasting | Broadcast =>
        let? artifact := signed_artifact_from_row batch_id (br_state row) row in
        Ok (Commit db (Ok artifact))
    | _ => Err InvalidPayoutTransition
    end).

Definition mark_payout_broadcast (db : Db) (batch_id : Uuid) : Db * result unit StoreError :=
  transition_payout db batch_id Broadcasting Broadcast None false.

(** ** Enumerating work *)

Definition resumable (state : PayoutBatchState) : bool :=
  match state with
  | Draft | Signing | Signed | Broadcasting | Broadcast | Reorged => true
  | _ => false
  end.

Fixpoint load_batches (db : Db) (ids : list Uuid) : result (list PayoutBatch) StoreError :=
  match ids with
  | [] => Ok []
  | id :: rest =>
      let? batch := load_payout_batch db id in
      let? batches := load_batches db rest in
      Ok (batch :: batches)
  end.

(** The rows of the query, by creation time and identifier. *)
Definition resumable_rows (db : Db) (chain : Chain) : list (Uuid * PayoutBatchRow) :=
  sort_by (fun a b => cmp_then (br_created_at (snd a) ?= br_created_at (snd b)) (fst a ?= fst b))
    (filter (fun p => br_chain (snd p) = chain /\ resumable (br_state (snd p)) = true)
       (map_to_list (batches (pay db)))).

Definition list_resumable_payout_batches (db : Db) (chain : Chain) (maximum : Z)
    : result (list PayoutBatch) StoreError :=
  if negb ((1 <=? maximum) && (maximum <=? 1000)) then Err InvalidPayoutBatch
  else load_batches db (take (Z.to_nat maximum) (fst <$> resumable_rows db chain)).

(** ** Expiry *)

Definition load_expiry_held (db : Db) (batch_id : Uuid) : result PayoutExpiryEvidence StoreError :=
  ok_or (expiry_held (pay db) !! batch_id) (CorruptDatabaseState "payout expiry evidence").

Definition load_expiry_finalized (db : Db) (batch_id : Uuid)
    : result PayoutExpiryEvidence StoreError :=
  ok_or (fst <$> expiry_finalized (pay db) !! batch_id)
    (CorruptDatabaseState "payout expiry evidence").

Definition validate_payout_expiry_evidence (db : Db) (now : Z) (batch_id : Uuid)
    (e : PayoutExpiryEvidence) : result unit StoreError :=
  if all_zero (ev_transaction_id e) || all_zero (ev_signed_transaction_sha256 e)
     || (ev_expiry_height e =? 0) || all_zero (ev_tip_hash e)
     || (ev_tip_height e <=? ev_expiry_height e) || (ev_observed_at e =? 0)
  then Err InvalidPayoutExpiryEvidence else
  let? row := ok_or (batches (pay db) !! batch_id) (Database "row not found") in
  let? now := u64_from now (CorruptDatabaseState "timestamp") in
  let? facts := ok_or (br_signed row) (Database "unexpected null") in
  if bool_decide (sf_transaction_id facts <> ev_transaction_id e)
     || bool_decide (env_sha256 (sf_signed_transaction facts) <> ev_signed_transaction_sha256 e)
     || (now <? ev_observed_at e)
     || (MAX_WALLET_RECONCILIATION_AGE_SECS <? saturating_sub now (ev_observed_at e))
  then Err InvalidPayoutExpiryEvidence else Ok tt.

Definition hold_expired_payout (db : Db) (now : Z) (batch_id : Uuid) (e : PayoutExpiryEvidence)
    : Db * result unit StoreError :=
  transaction db (
    let? batch := load_payout_batch db batch_id in
    if bool_decide (pb_chain batch <> Wcash) then Err InvalidPayoutTransition else
    match pb_state batch with
    | ExpiryPending =>
        let? prior := load_expiry_held db batch_id in
        Ok (Rollback (if bool_decide (prior = e) then Ok tt else Err PayoutReplayConflict))
    | Signed | Broadcasting | Broadcast =>
        let? _ := lock_chain_safety_row (led db) Wcash in
        let? _ := validate_payout_expiry_evidence db now batch_id e in
        let? _ := unix_i64 (ev_observed_at e) in
        if bool_decide (is_Some (expiry_held (pay db) !! batch_id))
        then Err (Database "payout_expiry_evidence_pkey") else
        let db := set_pay db (set_expiry_held (pay db) (<[batch_id := e]> (expiry_held (pay db)))) in
        let? db := update_payout_state db batch_id (pb_state batch) ExpiryPending in
        Ok (Commit db (Ok tt))
    | _ => Err InvalidPayoutTransition
    end).

(** The entries that return every reserved liability to payable. *)
Fixpoint release_entries (outputs : list PayoutInstruction) : result (list LedgerEntry) StoreError :=
  match outputs with
  | [] => Ok []
  | o :: rest =>
      let? liability := as_i64 (liability_amount_zat o) in
      let? entries := release_entries rest in
      Ok ((Some (pi_account_id o), "payout_pending"%string, liability)
          :: (Some (pi_account_id o), "miner_payable"%string, - liability) :: entries)
  end.

Definition expire_held_payout (db : Db) (now : Z) (ledger_id batch_id : Uuid)
    (e : PayoutExpiryEvidence) : Db * result unit StoreError :=
  transaction db (
    let? batch := load_payout_batch db batch_id in
    if bool_decide (pb_chain batch <> Wcash) then Err InvalidPayoutTransition else
    match pb_state batch with
    | Expired =>
        let? prior := load_expiry_finalized db batch_id in
        Ok (Rollback (if bool_decide (prior = e) then Ok tt else Err PayoutReplayConflict))
    | ExpiryPending =>
        let? _ := lock_chain_safety_row (led db) Wcash in
        let? _ := validate_payout_expiry_evidence db now batch_id e in
        let? held := load_expiry_held db batch_id in
        if bool_decide (ev_transaction_id held <> ev_transaction_id e)
           || bool_decide (ev_signed_transaction_sha256 held <> ev_signed_transaction_sha256 e)
           || negb (ev_expiry_height held =? ev_expiry_height e)
           || (ev_tip_height e <? ev_tip_height held)
           || (ev_observed_at e <? ev_observed_at held)
           || match checked_add U32_MAX (ev_expiry_height e) PAYOUT_EXPIRY_FINALITY_DEPTH with
              | None => true
              | Some minimum => ev_tip_height e <? minimum
              end
        then Err InvalidPayoutExpiryEvidence else
        let? entries := release_entries (pb_outputs batch) in
        let? db := insert_ledger db ledger_id (pb_chain batch) "payout_released" None
                     (env_uuid_text batch_id) entries in
        let? _ := unix_i64 (ev_observed_at e) in
        if bool_decide (is_Some (expiry_finalized (pay db) !! batch_id))
        then Err (Database "payout_expiry_evidence_pkey") else
        let db := set_pay db (set_expiry_finalized (pay db)
                    (<[batch_id := (e, ledger_id)]> (expiry_finalized (pay db)))) in
        let? db := update_payout_state db batch_id ExpiryPending Expired in
        Ok (Commit db (Ok tt))
    | _ => Err InvalidPayoutTransition
    end).

(** ** Confirmation and reorganisation *)

Definition set_confirmation (row : PayoutBatchRow) (c : PayoutConfirmation) : PayoutBatchRow :=
  mkPayoutBatchRow (br_chain row) (br_policy_version row) (br_idempotency_key row) Confirmed
    (br_created_at row) (br_seal row) (br_signed row) (Some c).

(** The comparison with a stored confirmation, in the order of the code. *)
Definition confirmation_matches (stored c : PayoutConfirmation) : result bool StoreError :=
  if bool_decide (pc_block_hash stored = pc_block_hash c)
     && (pc_block_height stored =? pc_block_height c) then
    let? count := as_i32 (pc_confirmations c) InvalidPayoutConfirmation in
    Ok (pc_confirmations stored =? count)
  else Ok false.

(** The amounts of a loaded batch that its settlement uses. *)
Definition batch_amounts (b : PayoutBatch) : PlannedPayout :=
  mkPlannedPayout (pb_outputs b) (pb_payout_total_zat b) (pb_maximum_network_fee_zat b)
    (pb_miner_total_zat b).

Definition confirm_payout (db : Db) (ledger_id batch_id : Uuid) (c : PayoutConfirmation)
    : Db * result unit StoreError :=
  match PayoutConfirmation_validate c with
  | Err e => (db, Err e)
  | Ok _ =>
  transaction db (
    let? batch := load_payout_batch db batch_id in
    let? row := ok_or (batches (pay db) !! batch_id) (Database "row not found") in
    match pb_state batch with
    | Confirmed =>
        let? stored := ok_or (br_confirmation row) (Database "unexpected null") in
        let? replay_matches := confirmation_matches stored c in
        Ok (Rollback (if replay_matches then Ok tt else Err PayoutReplayConflict))
    | Broadcast | ExpiryPending =>
        let? _ := lock_chain_safety_row (led db) (pb_chain batch) in
        let? policy := ok_or (policy_at (led db) (pb_chain batch) (pb_policy_version batch))
                         (CorruptDatabaseState "payout policy") in
        if pc_confirmations c <? cp_payout_confirmations policy
        then Err (PrematurePayoutConfirmation (cp_payout_confirmations policy) (pc_confirmations c))
        else
        let? facts := ok_or (br_signed row) (Database "unexpected null") in
        let? fee := u64_from (sf_network_fee_zat facts) MoneyOverflow in
        let amounts := batch_amounts batch in
        let? _ := confirmation_asset amounts fee in
        let? available := bigint (label_balance (led db) (pb_chain batch) "collector_spendable_asset") in
        let? outstanding := bigint (- (label_balance (led db) (pb_chain batch) "miner_payable"
                                       + label_balance (led db) (pb_chain batch) "payout_pending")) in
        let? entries := confirmation_entries amounts fee available outstanding in
        let? db := insert_ledger db ledger_id (pb_chain batch) "payout_confirmed" None
                     (env_uuid_text batch_id) entries in
        let? _ := as_i32 (pc_confirmations c) InvalidPayoutConfirmation in
        Ok (Commit (put_batch db batch_id (set_confirmation row c)) (Ok tt))
    | _ => Err InvalidPayoutTransition
    end)
  end.

(** The latest reorganisation recorded for a batch. *)
Definition latest_reorg (t : PayoutTables) (batch_id : Uuid) : option PayoutReorg :=
  snd <$> head (sort_by (fun a b => cmp_then (rg_observed_at (snd b) ?= rg_observed_at (snd a))
                                             (fst (fst b) ?= fst (fst a)))
                  (filter (fun r => snd (fst r) = batch_id) (reorg_events t))).

Definition mark_confirmed_payout_reorged (db : Db) (event_id batch_id : Uuid) (evidence : PayoutReorg)
    : Db * result unit StoreError :=
  match PayoutReorg_validate evidence with
  | Err e => (db, Err e)
  | Ok _ =>
  transaction db (
    let? batch := load_payout_batch db batch_id in
    let? row := ok_or (batches (pay db) !! batch_id) (Database "row not found") in
    match pb_state batch with
    | Reorged =>
        let? stored := ok_or (latest_reorg (pay db) batch_id)
                         (CorruptDatabaseState "payout reorg evidence") in
        let? prior_matches := confirmation_matches (rg_prior_confirmation stored)
                                (rg_prior_confirmation evidence) in
        let? replay_matches :=
          (if prior_matches
              && bool_decide (rg_replacement_tip_hash stored = rg_replacement_tip_hash evidence)
              && (rg_replacement_tip_height stored =? rg_replacement_tip_height evidence)
           then let? observed_at := unix_i64 (rg_observed_at evidence) in
                Ok (rg_observed_at stored =? observed_at)
           else Ok false) in
        Ok (Rollback (if replay_matches then Ok tt else Err PayoutReplayConflict))
    | Confirmed =>
        let? stored := ok_or (br_confirmation row) (Database "unexpected null") in
        let? prior_matches := confirmation_matches stored (rg_prior_confirmation evidence) in
        if negb prior_matches then Err PayoutReplayConflict else
        let? _ := lock_chain_safety_row (led db) (pb_chain batch) in
        let? _ := unix_i64 (rg_observed_at evidence) in
        if existsb (fun r => fst (fst r) =? event_id) (reorg_events (pay db))
        then Err (Database "payout_reorg_events_pkey") else
        let db := set_pay db (set_reorg_events (pay db)
                    ((event_id, batch_id, evidence) :: reorg_events (pay db))) in
        let db := put_batch db batch_id (set_state row Reorged) in
        let? t := freeze_chain_payouts (led db) (pb_chain batch) None "confirmed_payout_reorg" in
        Ok (Commit (set_led db t) (Ok tt))
    | _ => Err InvalidPayoutTransition
    end)
  end.

(** ** Cancellation *)

Definition cancel_payout_draft (db : Db) (ledger_id batch_id : Uuid) : Db * result unit StoreError :=
  transaction db (
    let? batch := load_payout_batch db batch_id in
    match pb_state batch with
    | Cancelled => Ok (Rollback (Ok tt))
    | Draft =>
        let? entries := release_entries (pb_outputs batch) in
        let? db := insert_ledger db ledger_id (pb_chain batch) "payout_released" None
                     (env_uuid_text batch_id) entries in
        let? db := update_payout_state db batch_id Draft Cancelled in
        Ok (Commit db (Ok tt))
    | _ => Err InvalidPayoutTransition
    end).

Definition cancel_rejected_payout_signing (db : Db) (ledger_id batch_id : Uuid)
    : Db * result unit StoreError :=
  transaction db (
    let? batch := load_payout_batch db batch_id in
    match pb_state batch with
    | Cancelled => Ok (Rollback (Ok tt))
    | Signing =>
        let? row := ok_or (batches (pay db) !! batch_id) (Database "row not found") in
        if bool_decide (is_Some (br_signed row)) then Err InvalidPayoutTransition else
        let? entries := release_entries (pb_outputs batch) in
        let? db := insert_ledger db ledger_id (pb_chain batch) "payout_released" None
                     (env_uuid_text batch_id) entries in
        let? db := update_payout_state db batch_id Signing Cancelled in
        Ok (Commit db (Ok tt))
    | _ => Err InvalidPayoutTransition
    end).
End Store.
