(* ===== verification/Configuration.v ===== *)
(** Chain policies and payout destinations: the launch policies of a deployment
    (crates/wcash-pool-store/src/postgres.rs: bind_chain_policy, bind_zero_fee_launch_policies,
    verify_zero_fee_launch_policies, chain_policy) and the payout settings of an account
    (src/portal.rs: configure_payout, payout_settings, active_payout_destination, with the SQL
    function configure_payout_destination_v2 of migration 0015).

    The clock of the database, the identifiers it draws and the [enabled] column of the account
    are arguments. *)

From Stdlib Require Import ZArith Lia.
From stdpp Require Import prelude gmap sorting strings.
From S2P Require Import Prelude Wire Backend Hex LargestRemainder Pplns PayoutFees Ledger PayoutRequest StoreDb PayoutStore.
Open Scope Z_scope.

(** ** Chain policies *)

(** The conversions of the bound parameters, in their order. *)
Definition policy_parameters (p : ChainPolicy) : result unit StoreError :=
  let? _ := as_i64 (cp_payout_threshold_zat p) in
  let? _ := as_i32 (cp_required_confirmations p) InvalidChainPolicy in
  let? _ := as_i32 (cp_payout_confirmations p) InvalidChainPolicy in
  let? _ := as_i32 (cp_maximum_payout_outputs p) InvalidChainPolicy in
  let? _ := as_i64 (cp_minimum_payout_zat p) in
  let? _ := as_i64 (cp_maximum_payout_zat p) in
  let? _ := as_i64 (cp_maximum_network_fee_zat p) in
  if I64_MAX <? cp_policy_version p then Err InvalidChainPolicy else Ok tt.

(** The statements of one policy, each [ON CONFLICT DO NOTHING]: the policy itself, whose window
    is a [NUMERIC(78,0)], its safety row and its watch cursor. *)
Definition insert_policy (db : Db) (chain : Chain) (p : ChainPolicy) : result Db StoreError :=
  let? _ := ChainPolicy_validate p in
  let? _ := policy_parameters p in
  if 10 ^ 78 <=? cp_pplns_window_work p then Err (Database "numeric field overflow") else
  let t := led db in
  let bound := match policies t !! chain with
               | Some _ => policies t
               | None => <[chain := p]> (policies t)
               end in
  let safe := match safety t !! chain with
              | Some _ => safety t
              | None => <[chain := mkChainSafety false None None]> (safety t)
              end in
  let cursors := match watch_cursors (pay db) !! chain with
                 | Some _ => watch_cursors (pay db)
                 | None => <[chain := (None, 0)]> (watch_cursors (pay db))
                 end in
  Ok (set_pay (set_led db (mkLedgerTables (ledger t) (next_sequence t) safe bound))
        (set_watch_cursors (pay db) cursors)).

(** A stored policy is validated again when it is read. *)
Definition chain_policy (db : Db) (chain : Chain) : result (option ChainPolicy) StoreError :=
  match policies (led db) !! chain with
  | None => Ok None
  | Some p => let? _ := ChainPolicy_validate p in Ok (Some p)
  end.

Definition policy_is (db : Db) (chain : Chain) (p : ChainPolicy) : result unit StoreError :=
  let? stored := chain_policy db chain in
  if bool_decide (stored = Some p) then Ok tt else Err ChainPolicyMismatch.

Definition bind_chain_policy (db : Db) (chain : Chain) (p : ChainPolicy) : Db * result unit StoreError :=
  match insert_policy db chain p with
  | Err e => (db, Err e)
  | Ok db' => (db', policy_is db' chain p)
  end.

Definition launch_policies (wcash zcash : Chain * ChainPolicy) : bool :=
  bool_decide (fst wcash = Wcash) && bool_decide (fst zcash = Zcash)
  && (cp_fee_bps (snd wcash) =? 0) && (cp_fee_bps (snd zcash) =? 0).

(** Both policies are inserted in one transaction and compared after its commit. *)
Definition bind_zero_fee_launch_policies (db : Db) (wcash zcash : Chain * ChainPolicy)
    : Db * result unit StoreError :=
  if negb (launch_policies wcash zcash) then (db, Err NonZeroLaunchFee) else
  let inserted := let? db := insert_policy db (fst wcash) (snd wcash) in
                  insert_policy db (fst zcash) (snd zcash) in
  match inserted with
  | Err e => (db, Err e)
  | Ok db' => (db', let? _ := policy_is db' (fst wcash) (snd wcash) in
                    policy_is db' (fst zcash) (snd zcash))
  end.

Definition verify_zero_fee_launch_policies (db : Db) (wcash zcash : Chain * ChainPolicy)
    : result unit StoreError :=
  if negb (launch_policies wcash zcash) then Err NonZeroLaunchFee else
  let? _ := ChainPolicy_validate (snd wcash) in
  let? _ := policy_is db (fst wcash) (snd wcash) in
  let? _ := ChainPolicy_validate (snd zcash) in
  policy_is db (fst zcash) (snd zcash).

(** ** Payout destinations *)

Inductive RepositoryError : Type := NotFound | Conflict | InvalidState | Unavailable.

Definition MAXIMUM_MONEY_ZAT : Z := 2100000000000000.

Definition chain_for_asset (a : Asset) : Chain := match a with Wec => Wcash | Zec => Zcash end.

Definition portal_receiver_name (r : ReceiverKind) : string :=
  match r with Transparent => "transparent" | Ironwood => "ironwood" end.

Definition portal_receiver_from_name (value : string) : result ReceiverKind RepositoryError :=
  if String.eqb value "transparent" then Ok Transparent
  else if String.eqb value "ironwood" then Ok Ironwood
  else Err InvalidState.

Definition payout_configuration_hold_is_valid (hold_secs : Z) : bool := hold_secs <=? 7 * 24 * 60 * 60.

(** Rows of one account and chain. *)
Definition in_table (account : Uuid) (chain : Chain) (account' : Uuid) (chain' : Chain) : bool :=
  (account' =? account) && bool_decide (chain' = chain).

Definition next_revision (t : PayoutTables) (account : Uuid) (chain : Chain) : Z :=
  1 + foldr (fun p m => if in_table account chain (ce_account_id (snd p)) (ce_chain (snd p))
                        then Z.max (ce_revision (snd p)) m else m)
        0 (map_to_list (change_events t)).

Definition disable_pending (t : PayoutTables) (account : Uuid) (chain : Chain)
    : gmap Z PayoutDestination :=
  (fun x => if in_table account chain (pd_account_id x) (pd_chain x)
               && bool_decide (pd_state x = DestinationPending)
            then set_pd_state x DestinationDisabled else x) <$> destinations t.

(** The pending destination of the account is disabled and a new one waits [hold_secs].  An
    exception the function raises is [Unavailable], a violated unique index [Conflict]. *)
Definition configure_payout_destination (t : PayoutTables) (now : Z) (enabled : bool)
    (destination_id event_id account : Uuid) (chain : Chain) (address receiver : string)
    (digest : list Z) (threshold : Z) (automatic : bool) (hold_secs : Z)
    : result PayoutTables RepositoryError :=
  let length_address := Z.of_nat (String.length address) in
  if Uuid_is_nil account
     || negb ((8 <=? length_address) && (length_address <=? 512))
     || negb (String.eqb receiver "transparent" || String.eqb receiver "ironwood")
     || negb (length digest =? 32)%nat || all_zero digest
     || negb ((1 <=? threshold) && (threshold <=? MAXIMUM_MONEY_ZAT))
     || (hold_secs <? 0) || (604800 <? hold_secs)
  then Err Unavailable else
  if negb enabled then Err Unavailable else
  let revision := next_revision t account chain in
  let others := disable_pending t account chain in
  let row := mkPayoutDestination account chain address receiver threshold automatic
               DestinationPending (now + hold_secs) digest revision in
  if bool_decide (is_Some (others !! destination_id))
     || existsb (fun p => in_table account chain (pd_account_id (snd p)) (pd_chain (snd p))
                          && (pd_revision (snd p) =? revision)) (map_to_list others)
  then Err Conflict else
  let event := mkPayoutChangeEvent account chain digest threshold automatic now (now + hold_secs)
                 revision in
  if bool_decide (is_Some (change_events t !! event_id)) then Err Conflict else
  Ok (set_change_events (set_destinations t (<[destination_id := row]> others))
        (<[event_id := event]> (change_events t))).

(** ** The settings of an account *)

(** Addresses are ASCII, one byte a character. *)
Definition mask_destination (address : string) : string :=
  let n := String.length address in
  if (n <=? 12)%nat then "••••••••"%string
  else (String.substring 0 6 address +:+ "…" +:+ String.substring (n - 6) 6 address)%string.

Record PayoutSettingSummary : Type := mkPayoutSettingSummary {
  ps_asset : Asset;
  ps_network : ChainNetwork;
  ps_active_destination : option string;
  ps_active_receiver : option ReceiverKind;
  ps_pending_destination : option string;
  ps_pending_effective_at : option Z;
  ps_threshold_zat : Z;
  ps_automatic : bool;
  ps_revision : Z;
  ps_pending_threshold_zat : option Z;
  ps_pending_automatic : option bool;
  ps_pending_revision : option Z
}.

(** The rows of the account that are active or pending, by revision. *)
Definition setting_rows (t : PayoutTables) (account : Uuid) (chain : Chain) : list PayoutDestination :=
  sort_by (fun a b => pd_revision a ?= pd_revision b)
    (filter (fun d => in_table account chain (pd_account_id d) (pd_chain d) = true /\
                      pd_state d <> DestinationDisabled) (snd <$> map_to_list (destinations t))).

Definition setting_step (s : PayoutSettingSummary) (row : PayoutDestination)
    : result PayoutSettingSummary RepositoryError :=
  let? receiver := portal_receiver_from_name (pd_receiver_kind row) in
  if (pd_revision row <? 0) || (pd_payout_threshold_zat row <? 0) then Err InvalidState else
  match pd_state row with
  | DestinationActive =>
      if bool_decide (is_Some (ps_active_destination s)) then Err InvalidState else
      Ok (mkPayoutSettingSummary (ps_asset s) (ps_network s) (Some (mask_destination (pd_address row)))
            (Some receiver) (ps_pending_destination s) (ps_pending_effective_at s)
            (pd_payout_threshold_zat row) (pd_automatic row) (pd_revision row)
            (ps_pending_threshold_zat s) (ps_pending_automatic s) (ps_pending_revision s))
  | DestinationPending =>
      if bool_decide (is_Some (ps_pending_destination s)) then Err InvalidState else
      if pd_active_after row <? 0 then Err InvalidState else
      Ok (mkPayoutSettingSummary (ps_asset s) (ps_network s) (ps_active_destination s)
            (ps_active_receiver s) (Some (mask_destination (pd_address row)))
            (Some (pd_active_after row)) (ps_threshold_zat s) (ps_automatic s) (ps_revision s)
            (Some (pd_payout_threshold_zat row)) (Some (pd_automatic row)) (Some (pd_revision row)))
  | DestinationDisabled => Err InvalidState
  end.

Fixpoint setting_rows_summary (s : PayoutSettingSummary) (rows : list PayoutDestination)
    : result PayoutSettingSummary RepositoryError :=
  match rows with
  | [] => Ok s
  | row :: rest => let? s := setting_step s row in setting_rows_summary s rest
  end.

Definition payout_setting_in_transaction (t : PayoutTables) (account : Uuid) (chain : Chain)
    (network : ChainNetwork) : result (option PayoutSettingSummary) RepositoryError :=
  match setting_rows t account chain with
  | [] => Ok None
  | rows =>
      let? s := setting_rows_summary
                  (mkPayoutSettingSummary (asset_for_chain chain) network None None None None 0 false
                     0 None None None) rows in
      Ok (Some s)
  end.

Record OwnedPayoutPreference : Type := mkOwnedPayoutPreference {
  op_account_id : Uuid;
  op_asset : Asset;
  op_network : ChainNetwork;
  op_canonical_address : string;
  op_receiver_kind : ReceiverKind;
  op_threshold_zat : Z;
  op_automatic : bool;
  op_replacement_hold_secs : Z;
  op_address_digest : list Z
}.

Section Settings.
Context {env : StoreEnv}.

Definition require_network (network : ChainNetwork) : result unit RepositoryError :=
  if bool_decide (env_network = network) then Ok tt else Err InvalidState.

(** The commit precedes the check that a setting was read. *)
Definition configure_payout (db : Db) (now : Z) (enabled : bool) (destination_id event_id : Uuid)
    (change : OwnedPayoutPreference) : Db * result PayoutSettingSummary RepositoryError :=
  if Uuid_is_nil (op_account_id change)
     || (op_threshold_zat change =? 0)
     || (MAXIMUM_MONEY_ZAT <? op_threshold_zat change)
     || negb (payout_configuration_hold_is_valid (op_replacement_hold_secs change))
     || all_zero (op_address_digest change)
  then (db, Err InvalidState) else
  let chain := chain_for_asset (op_asset change) in
  let body :=
    let? _ := require_network (op_network change) in
    let? t := configure_payout_destination (pay db) now enabled destination_id event_id
                (op_account_id change) chain (op_canonical_address change)
                (portal_receiver_name (op_receiver_kind change)) (op_address_digest change)
                (op_threshold_zat change) (op_automatic change) (op_replacement_hold_secs change) in
    let? setting := payout_setting_in_transaction t (op_account_id change) chain
                      (op_network change) in
    Ok (t, setting) in
  match body with
  | Err e => (db, Err e)
  | Ok (t, setting) => (set_pay db t, ok_or setting InvalidState)
  end.

Definition payout_settings (db : Db) (account : Uuid) (network : ChainNetwork)
    : result (list PayoutSettingSummary) RepositoryError :=
  let? _ := require_network network in
  if Uuid_is_nil account then Err NotFound else
  let? wcash := payout_setting_in_transaction (pay db) account Wcash network in
  let? zcash := payout_setting_in_transaction (pay db) account Zcash network in
  Ok (match wcash with Some s => [s] | None => [] end
      ++ match zcash with Some s => [s] | None => [] end).

(** The destination payouts use: an active one with no replacement waiting. *)
Definition active_payout_destination (db : Db) (account : Uuid) (asset : Asset)
    (network : ChainNetwork) : result (option (string * ReceiverKind)) RepositoryError :=
  let? _ := require_network network in
  let chain := chain_for_asset asset in
  let mine := filter (fun d => in_table account chain (pd_account_id d) (pd_chain d) = true)
                (snd <$> map_to_list (destinations (pay db))) in
  let pending := existsb (fun d => bool_decide (pd_state d = DestinationPending)) mine in
  match filter (fun d => pd_state d = DestinationActive) mine with
  | row :: _ =>
      if pending then Ok None else
      let? receiver := portal_receiver_from_name (pd_receiver_kind row) in
      let n := Z.of_nat (String.length (pd_address row)) in
      if negb ((8 <=? n) && (n <=? 512)) || has_whitespace (str_bytes (pd_address row)) then Err InvalidState
      else Ok (Some (pd_address row, receiver))
  | [] => Ok None
  end.
End Settings.
