(* ===== verification/WinnerStore.v ===== *)
(** Projection of the backend's event journal into accounts, shares, winners and the ledger
    (crates/wcash-pool-store/src/postgres.rs: project_one and the winner life cycle; the SQL
    function ensure_projected_worker_v1 of the migrations).

    A Wcash block can have several proofs with one block hash, so the proof of each share has a
    state of its own beside the state of the one economic winner they all stand for. *)

From Stdlib Require Import ZArith Lia.
From stdpp Require Import prelude gmap sorting strings.
From S2P Require Import Prelude Wire Backend Hex LargestRemainder Pplns PayoutFees Ledger PayoutRequest StoreDb PayoutStore.
Open Scope Z_scope.

Definition MAX_REPLAY_BATCH : Z := 1024.
Definition MAX_PPLNS_SHARES : Z := 1000001.

(** [LIMIT n] on the rows of a query. *)
Fixpoint limit {A} (n : Z) (l : list A) : list A :=
  match l with
  | [] => []
  | x :: l' => if n <=? 0 then [] else x :: limit (n - 1) l'
  end.

(** ** Worker identities *)

Definition login_byte (b : Z) : bool :=
  is_ascii_digit b || ((97 <=? b) && (b <=? 122)) || (b =? 95) || (b =? 45).

(** The pattern [^[a-z0-9_-]{1,64}\.[a-z0-9_-]{1,63}$]: the only dot separates the two parts. *)
Fixpoint login_parts (l : list Z) : list Z * option (list Z) :=
  match l with
  | [] => ([], None)
  | b :: l' => if b =? 46 then ([], Some l')
               else let (account, worker) := login_parts l' in (b :: account, worker)
  end.

Definition canonical_login_ok (login : string) : bool :=
  match login_parts (str_bytes login) with
  | (account, Some worker) =>
      (1 <=? length account)%nat && (length account <=? 64)%nat && forallb login_byte account
      && (1 <=? length worker)%nat && (length worker <=? 63)%nat && forallb login_byte worker
  | (_, None) => false
  end.

(** ** Winners *)

Definition winner_key (w : WinnerDescriptor) : Chain * list Z :=
  (wd_chain w, as_bytes (wd_block_hash_le w)).

Definition winner_facts_match (row : WinnerRecord) (w : WinnerDescriptor) : result bool StoreError :=
  if (wn_height row =? wd_height w)
     && bool_decide (wn_coinbase_txid_le row = as_bytes (wd_coinbase_txid_le w)) then
    let? reward := as_i64 (wd_reward_zat w) in
    if wn_reward_zat row =? reward then
      let? maturity := as_i32 (wd_maturity_confirmations w) MoneyOverflow in
      Ok (wn_maturity_confirmations row =? maturity)
    else Ok false
  else Ok false.

(** [WinnerRow]. *)
Record LoadedWinner : Type := mkLoadedWinner {
  lw_state : WinnerState;
  lw_proof_state : WinnerState;
  lw_active_proof_share_id : option (list Z);
  lw_observation_event_seq : option Z;
  lw_maturity_event_seq : option Z;
  lw_share_event_seq : Z
}.

Definition find_share (l : list ShareRow) (share_id : list Z) : option ShareRow :=
  head (filter (fun s => sh_share_id s = share_id) l).

Definition load_winner (db : Db) (share_id job_id : list Z) (w : WinnerDescriptor)
    : result LoadedWinner StoreError :=
  let? row := ok_or (winners (chn db) !! winner_key w) UnknownWinner in
  let? share := ok_or (find_share (shares (chn db)) (wn_share_id row)) UnknownWinner in
  let? proof := ok_or (winner_proofs (chn db) !! (winner_key w, share_id)) UnknownWinner in
  if bool_decide (wp_job_id proof <> job_id) then Err WinnerFactConflict else
  let? facts_match := winner_facts_match row w in
  if negb facts_match then Err WinnerFactConflict else
  Ok (mkLoadedWinner (wn_state row) (wp_state proof) (wn_active_proof_share_id row)
        (wn_active_observation_event_seq row) (wn_active_maturity_event_seq row)
        (sh_event_seq share)).

Definition update_winner_proof_state (db : Db) (w : WinnerDescriptor) (share_id : list Z)
    (state : WinnerState) : result Db StoreError :=
  match winner_proofs (chn db) !! (winner_key w, share_id) with
  | Some p => Ok (set_chn db (set_winner_proofs (chn db)
                  (<[(winner_key w, share_id) := mkWinnerProof (wp_job_id p) state]>
                     (winner_proofs (chn db)))))
  | None => Err UnknownWinner
  end.

Definition put_winner (db : Db) (w : WinnerDescriptor) (row : WinnerRecord) : Db :=
  set_chn db (set_winners (chn db) (<[winner_key w := row]> (winners (chn db)))).

Definition select_winner_proof (db : Db) (w : WinnerDescriptor) (share_id : list Z) : Db :=
  match winners (chn db) !! winner_key w with
  | Some r => put_winner db w
      (mkWinnerRecord (wn_share_id r) (wn_job_id r) (wn_height r) (wn_coinbase_txid_le r)
         (wn_reward_zat r) (wn_maturity_confirmations r) (wn_state r)
         (wn_active_observation_event_seq r) (wn_active_maturity_event_seq r) (Some share_id))
  | None => db
  end.

Definition positive_state (s : WinnerState) : bool :=
  match s with Observed | Matured => true | _ => false end.

Definition set_winner_state (r : WinnerRecord) (s : WinnerState) (o m : option Z) : WinnerRecord :=
  mkWinnerRecord (wn_share_id r) (wn_job_id r) (wn_height r) (wn_coinbase_txid_le r)
    (wn_reward_zat r) (wn_maturity_confirmations r) s o m
    (if positive_state s then wn_active_proof_share_id r else None).

Definition update_winner_state (db : Db) (w : WinnerDescriptor) (state : WinnerState)
    (observation_event_seq maturity_event_seq : option Z) : result Db StoreError :=
  match winners (chn db) !! winner_key w with
  | Some r => Ok (put_winner db w (set_winner_state r state observation_event_seq maturity_event_seq))
  | None => Err UnknownWinner
  end.

Section Projector.
Context {env : StoreEnv}.

(** [ensure_projected_worker_v1]. *)
Definition import_worker (db : Db) (worker : WorkerIdentity) : result Db StoreError :=
  let account_id := wi_account_id worker in
  let worker_id := wi_worker_id worker in
  let login := wi_label worker in
  if Uuid_is_nil account_id || Uuid_is_nil worker_id || negb (canonical_login_ok login)
  then Err (Database "invalid projected worker identity") else
  let account_login := ("imported_" +:+ hex_encode (take 8 (Uuid_as_bytes account_id)))%string in
  let label := ("legacy_" +:+ hex_encode (take 8 (Uuid_as_bytes worker_id)))%string in
  let t := chn db in
  let? accounts' :=
    (if bool_decide (is_Some (accounts t !! account_id)) then Ok (accounts t)
     else if existsb (fun p => String.eqb (snd p) account_login) (map_to_list (accounts t))
     then Err (Database "accounts_deployment_id_login_key")
     else Ok (<[account_id := account_login]> (accounts t))) in
  let? workers' :=
    (if bool_decide (is_Some (workers t !! worker_id)) then Ok (workers t)
     else if existsb (fun p => bool_decide (fst (fst (snd p)) = account_id)
                               && String.eqb (snd (fst (snd p))) label) (map_to_list (workers t))
     then Err (Database "workers_deployment_id_account_id_label_key")
     else if existsb (fun p => String.eqb (snd (snd p)) login) (map_to_list (workers t))
     then Err (Database "workers_deployment_id_canonical_login_key")
     else Ok (<[worker_id := (account_id, label, login)]> (workers t))) in
  match workers' !! worker_id with
  | Some (a, _, l) =>
      if (a =? account_id) && String.eqb l login
      then Ok (set_chn db (set_identities t accounts' workers'))
      else Err (Database "projected worker attribution conflict")
  | None => Err (Database "projected worker attribution conflict")
  end.

Fixpoint verify_maturity (t : LedgerTables) (l : list (Chain * Z)) : result unit StoreError :=
  match l with
  | [] => Ok tt
  | (chain, advertised) :: rest =>
      let? policy := ok_or (policies t !! chain) (MissingChainPolicy chain) in
      if negb (cp_required_confirmations policy =? advertised)
      then Err (WinnerMaturityPolicyMismatch chain advertised (cp_required_confirmations policy))
      else verify_maturity t rest
  end.

Definition verify_job_maturity_policies (db : Db) (job : JobDescriptor) : result unit StoreError :=
  verify_maturity (led db) [(Wcash, jd_wcash_maturity_confirmations job);
                            (Zcash, jd_zcash_maturity_confirmations job)].

Definition insert_winner (db : Db) (receipt : ShareReceipt) (job_id : Hex32) (w : WinnerDescriptor)
    : result Db StoreError :=
  let share_id := as_bytes (sr_share_id receipt) in
  let? db :=
    match winners (chn db) !! winner_key w with
    | Some row =>
        if bool_decide (wd_chain w <> Wcash) then Err WinnerFactConflict else
        let? facts_match := winner_facts_match row w in
        if facts_match then Ok db else Err WinnerFactConflict
    | None =>
        let? reward := as_i64 (wd_reward_zat w) in
        let? maturity := as_i32 (wd_maturity_confirmations w) MoneyOverflow in
        if reward =? 0 then Err (Database "winners_reward_zat_check") else
        Ok (put_winner db w
              (mkWinnerRecord share_id (as_bytes job_id) (wd_height w)
                 (as_bytes (wd_coinbase_txid_le w)) reward maturity Submitted None None None))
    end in
  if bool_decide (is_Some (winner_proofs (chn db) !! (winner_key w, share_id)))
     || existsb (fun p => bool_decide (fst (fst (fst p)) = wd_chain w)
                          && bool_decide (snd (fst p) = share_id))
          (map_to_list (winner_proofs (chn db)))
  then Err (Database "winner_proofs_pkey") else
  Ok (set_chn db (set_winner_proofs (chn db)
        (<[(winner_key w, share_id) := mkWinnerProof (as_bytes job_id) Submitted]>
           (winner_proofs (chn db))))).

Fixpoint insert_winners (db : Db) (receipt : ShareReceipt) (job_id : Hex32)
    (l : list WinnerDescriptor) : result Db StoreError :=
  match l with
  | [] => Ok db
  | w :: rest => let? db := insert_winner db receipt job_id w in insert_winners db receipt job_id rest
  end.

(** ** Allocation *)

(** The allocation rows of a block at one observation, by account. *)
Definition allocation_rows (t : ChainTables) (chain : Chain) (block : list Z) (seq : Z)
    : list AllocationRow :=
  sort_by (fun a b => al_account_id a ?= al_account_id b)
    (filter (fun a => al_chain a = chain /\ al_block_hash_le a = block /\
                      al_observation_event_seq a = seq) (winner_allocations t)).

Definition block_observations (t : ChainTables) (chain : Chain) (block : list Z) : list Z :=
  al_observation_event_seq <$>
    filter (fun a => al_chain a = chain /\ al_block_hash_le a = block) (winner_allocations t).

Definition original_allocations (t : ChainTables) (chain : Chain) (block : list Z)
    : list AllocationRow :=
  match block_observations t chain block with
  | [] => []
  | s :: rest => allocation_rows t chain block (foldl Z.min s rest)
  end.

Fixpoint replay_allocations (rows : list AllocationRow) (policy_version work miner_total : Z)
    : result (list AccountAllocation * Z * Z) StoreError :=
  match rows with
  | [] => Ok ([], work, miner_total)
  | r :: rest =>
      if negb (al_policy_version r =? policy_version)
      then Err (CorruptDatabaseState "winner allocation policy") else
      let? amount := u64_from (al_amount_zat r) MoneyOverflow in
      let? miner_total' := ok_or (checked_add U64_MAX miner_total amount) MoneyOverflow in
      let? p := replay_allocations rest policy_version (work + al_selected_work r) miner_total' in
      let '(accounts, work', total) := p in
      Ok (mkAccountAllocation (al_account_id r) (al_selected_work r) amount :: accounts, work', total)
  end.

Definition winner_allocation_plan (db : Db) (chain : Chain) (w : WinnerDescriptor)
    (share_event_seq : Z) : result (AllocationPlan * Z) StoreError :=
  match original_allocations (chn db) chain (as_bytes (wd_block_hash_le w)) with
  | first :: _ as original =>
      let policy_version := al_policy_version first in
      let? p := replay_allocations original policy_version 0 0 in
      let '(accounts, work, miner_total) := p in
      let? fee := ok_or (checked_sub (wd_reward_zat w) miner_total) MoneyOverflow in
      Ok (mkAllocationPlan work fee accounts, policy_version)
  | [] =>
      let? policy := ok_or (policies (led db) !! chain) (MissingChainPolicy chain) in
      let rows := limit MAX_PPLNS_SHARES
                    (filter (fun s => sh_event_seq s <= share_event_seq) (shares (chn db))) in
      let weighted := (fun s => mkWeightedShare (sh_share_id s) (sh_account_id s) (sh_work s)) <$> rows in
      if (Z.of_nat (length rows) =? MAX_PPLNS_SHARES)
         && (sumZ (sh_work <$> rows) <? cp_pplns_window_work policy)
      then Err PplnsWindowTooLarge else
      let? plan := map_err PplnsFailed
                     (allocate_pplns weighted (cp_pplns_window_work policy) (wd_reward_zat w)
                        (cp_fee_bps policy)) in
      Ok (plan, cp_policy_version policy)
  end.

Fixpoint insert_allocations (t : ChainTables) (chain : Chain) (block : list Z) (event_seq version : Z)
    (l : list AccountAllocation) : result ChainTables StoreError :=
  match l with
  | [] => Ok t
  | a :: rest =>
      let? amount := as_i64 (aa_amount_zat a) in
      if amount <? 0 then Err (Database "winner_allocations_amount_zat_check") else
      if existsb (fun r => bool_decide (al_chain r = chain /\ al_block_hash_le r = block /\
                                        al_observation_event_seq r = event_seq /\
                                        al_account_id r = aa_account_id a)) (winner_allocations t)
      then Err (Database "winner_allocations_pkey") else
      insert_allocations
        (set_winner_allocations t
           (winner_allocations t ++ [mkAllocationRow chain block event_seq version (aa_account_id a)
                                       (aa_work a) amount]))
        chain block event_seq version rest
  end.

(** ** Ledger movements of a winner *)

Definition winner_reference (w : WinnerDescriptor) : string :=
  Chain_as_str (wd_chain w) +:+ ":" +:+ FixedHex_to_string (wd_block_hash_le w).

(** The lines of an observation for the allocated accounts. *)
Fixpoint immature_lines (l : list AccountAllocation) : result (list LedgerEntry) StoreError :=
  match l with
  | [] => Ok []
  | a :: rest =>
      if 0 <? aa_amount_zat a then
        let? amount := as_i64 (aa_amount_zat a) in
        let? entries := immature_lines rest in
        Ok ((Some (aa_account_id a), "miner_immature"%string, - amount) :: entries)
      else immature_lines rest
  end.

Definition observation_entries (reward : Z) (plan : AllocationPlan)
    : result (list LedgerEntry) StoreError :=
  let? r := as_i64 reward in
  let? lines := immature_lines (ap_accounts plan) in
  let? fee := (if 0 <? pool_fee_zat plan then
                 let? f := as_i64 (pool_fee_zat plan) in
                 Ok [(None, "pool_fee_unearned"%string, - f)]
               else Ok []) in
  Ok ((None, "collector_immature_asset"%string, r) :: lines ++ fee).

Fixpoint maturity_lines (rows : list AllocationRow) (miner_total : Z)
    : result (list LedgerEntry * Z) StoreError :=
  match rows with
  | [] => Ok ([], miner_total)
  | r :: rest =>
      let? amount := u64_from (al_amount_zat r) MoneyOverflow in
      let? miner_total' := ok_or (checked_add U64_MAX miner_total amount) MoneyOverflow in
      let? a := as_i64 amount in
      let? p := maturity_lines rest miner_total' in
      Ok ((if 0 <? amount then
             [(Some (al_account_id r), "miner_immature"%string, a);
              (Some (al_account_id r), "miner_payable"%string, - a)]
           else []) ++ fst p, snd p)
  end.

Definition maturity_entries (reward : Z) (rows : list AllocationRow)
    : result (list LedgerEntry) StoreError :=
  let? r := as_i64 reward in
  let? p := maturity_lines rows 0 in
  let (lines, miner_total) := p in
  let? pool_fee := ok_or (checked_sub reward miner_total) MoneyOverflow in
  let? fee := (if 0 <? pool_fee then
                 let? f := as_i64 pool_fee in
                 Ok [(None, "pool_fee_unearned"%string, f); (None, "pool_equity"%string, - f)]
               else Ok []) in
  Ok ((None, "collector_immature_asset"%string, - r)
      :: (None, "collector_spendable_asset"%string, r) :: lines ++ fee).

(** The lines the ledger holds for an event and a kind; an absent event matches nothing. *)
Definition event_matches (seq : option Z) (kind : string) (x : LedgerTransaction) : bool :=
  match seq with
  | Some s => bool_decide (lt_event_seq x = Some s) && String.eqb (lt_kind x) kind
  | None => false
  end.

Definition event_entries (l : list LedgerTransaction) (observation maturity : option Z)
    : list LedgerEntry :=
  mjoin (lt_entries <$>
    filter (fun x => event_matches observation "winner_observed" x
                     || event_matches maturity "winner_matured" x = true) l).

(** [checked_neg] of every line. *)
Fixpoint negated_entries (es : list LedgerEntry) : result (list LedgerEntry) StoreError :=
  match es with
  | [] => Ok []
  | (key, amount) :: rest =>
      if amount =? I64_MIN then Err MoneyOverflow else
      let? entries := negated_entries rest in
      Ok ((key, - amount) :: entries)
  end.

Definition required_winner_confirmations (db : Db) (w : WinnerDescriptor) : result Z StoreError :=
  let? policy := ok_or (policies (led db) !! wd_chain w) (MissingChainPolicy (wd_chain w)) in
  Ok (Z.max (wd_maturity_confirmations w) (cp_required_confirmations policy)).

(** Any batch of the chain that was not cancelled exposes it to a maturity regression. *)
Definition exposed (db : Db) (chain : Chain) : bool :=
  existsb (fun p => bool_decide (br_chain (snd p) = chain)
                    && negb (bool_decide (br_state (snd p) = Cancelled)))
    (map_to_list (batches (pay db))).

Definition freeze_if_exposed (db : Db) (chain : Chain) (event_seq : Z) (reason : string)
    : result Db StoreError :=
  let? _ := lock_chain_safety_row (led db) chain in
  if exposed db chain then
    let? t := freeze_chain_payouts (led db) chain (Some event_seq) reason in Ok (set_led db t)
  else Ok db.

Definition demature_winner (db : Db) (event_seq : Z) (ledger_id : Uuid) (w : WinnerDescriptor)
    (row : LoadedWinner) : result Db StoreError :=
  let? observation := ok_or (lw_observation_event_seq row) InvalidWinnerTransition in
  let? maturity := ok_or (lw_maturity_event_seq row) InvalidWinnerTransition in
  let? db := freeze_if_exposed db (wd_chain w) event_seq "matured_winner_depth_regression" in
  let lines := event_entries (ledger (led db)) None (Some maturity) in
  if bool_decide (lines = []) then Err (CorruptDatabaseState "active winner maturity ledger") else
  let? entries := negated_entries lines in
  let? db := insert_ledger db ledger_id (wd_chain w) "winner_dematured" (Some event_seq)
               (winner_reference w) entries in
  update_winner_state db w Observed (Some observation) None.

Definition observe_economic_winner (db : Db) (event_seq : Z) (ledger_id : Uuid)
    (w : WinnerDescriptor) (confirmations : Z) (row : LoadedWinner) : result Db StoreError :=
  match lw_state row, lw_observation_event_seq row, lw_maturity_event_seq row with
  | Observed, Some _, None => Ok db
  | Matured, Some _, Some _ =>
      let? required := required_winner_confirmations db w in
      if required <=? confirmations then Ok db
      else demature_winner db event_seq ledger_id w row
  | (Submitted | SideChain | Requeued | Orphaned | Quarantined), None, None =>
      let chain := wd_chain w in
      let? p := winner_allocation_plan db chain w (lw_share_event_seq row) in
      let (plan, version) := p in
      let? t := insert_allocations (chn db) chain (as_bytes (wd_block_hash_le w)) event_seq version
                  (ap_accounts plan) in
      let db := set_chn db t in
      let? entries := observation_entries (wd_reward_zat w) plan in
      let? db := insert_ledger db ledger_id chain "winner_observed" (Some event_seq)
                   (winner_reference w) entries in
      update_winner_state db w Observed (Some event_seq) None
  | _, _, _ => Err InvalidWinnerTransition
  end.

Definition observe_winner (db : Db) (event_seq : Z) (ledger_id : Uuid) (share_id job_id : list Z)
    (w : WinnerDescriptor) (confirmations : Z) : result Db StoreError :=
  let? row := load_winner db share_id job_id w in
  if (confirmations =? 0)
     || (bool_decide (lw_proof_state row = Matured) && (wd_maturity_confirmations w <=? confirmations))
  then Err InvalidWinnerTransition else
  let? db := observe_economic_winner db event_seq ledger_id w confirmations row in
  let? db := update_winner_proof_state db w share_id Observed in
  Ok (select_winner_proof db w share_id).

Definition mature_economic_winner (db : Db) (event_seq : Z) (ledger_id : Uuid)
    (w : WinnerDescriptor) (row : LoadedWinner) : result Db StoreError :=
  match lw_state row, lw_observation_event_seq row, lw_maturity_event_seq row with
  | Matured, Some _, Some _ => Ok db
  | Observed, Some observation, None =>
      let rows := allocation_rows (chn db) (wd_chain w) (as_bytes (wd_block_hash_le w)) observation in
      if bool_decide (rows = []) then Err (CorruptDatabaseState "winner allocations") else
      let? entries := maturity_entries (wd_reward_zat w) rows in
      let? db := insert_ledger db ledger_id (wd_chain w) "winner_matured" (Some event_seq)
                   (winner_reference w) entries in
      update_winner_state db w Matured (Some observation) (Some event_seq)
  | _, _, _ => Err InvalidWinnerTransition
  end.

Definition mature_winner (db : Db) (event_seq : Z) (fresh : nat -> Uuid) (share_id job_id : list Z)
    (w : WinnerDescriptor) (confirmations : Z) : result Db StoreError :=
  let? row := load_winner db share_id job_id w in
  if bool_decide (lw_proof_state row <> Observed) then Err InvalidWinnerTransition else
  let? required := required_winner_confirmations db w in
  if confirmations <? required then Err (PrematureWinner required confirmations) else
  let? p := (if positive_state (lw_state row) then Ok (db, row)
             else
               let? db := observe_economic_winner db event_seq (fresh 0%nat) w confirmations row in
               let? row := load_winner db share_id job_id w in
               Ok (db, row)) in
  let (db, row) := p in
  let? db := mature_economic_winner db event_seq (fresh 1%nat) w row in
  let? db := update_winner_proof_state db w share_id Matured in
  Ok (select_winner_proof db w share_id).

(** [WinnerReversal]: the two reversals of the code. *)
Inductive WinnerReversal : Type := ReverseOrphaned | ReverseQuarantined.

Definition reversal_kind (r : WinnerReversal) : string :=
  match r with ReverseOrphaned => "winner_orphaned" | ReverseQuarantined => "winner_quarantined" end.
Definition reversal_state (r : WinnerReversal) : WinnerState :=
  match r with ReverseOrphaned => Orphaned | ReverseQuarantined => Quarantined end.

(** The economic side of a reversal, once no other proof of the block is active. *)
Definition reverse_economic_winner (db : Db) (event_seq : Z) (ledger_id : Uuid)
    (w : WinnerDescriptor) (row : LoadedWinner) (reversal : WinnerReversal) : result Db StoreError :=
  if negb (positive_state (lw_state row)) then
    if bool_decide (is_Some (lw_observation_event_seq row))
       || bool_decide (is_Some (lw_maturity_event_seq row))
    then Err (CorruptDatabaseState "inactive winner ledger")
    else update_winner_state db w (reversal_state reversal) None None
  else
  let? db := (if bool_decide (is_Some (lw_maturity_event_seq row))
              then freeze_if_exposed db (wd_chain w) event_seq "matured_winner_reorg"
              else Ok db) in
  if bool_decide (lw_observation_event_seq row = None)
  then Err (CorruptDatabaseState "active winner ledger") else
  let lines := event_entries (ledger (led db)) (lw_observation_event_seq row)
                 (lw_maturity_event_seq row) in
  if bool_decide (lines = []) then Err (CorruptDatabaseState "active winner ledger") else
  let? entries := negated_entries lines in
  let? db := insert_ledger db ledger_id (wd_chain w) (reversal_kind reversal) (Some event_seq)
               (winner_reference w) entries in
  update_winner_state db w (reversal_state reversal) None None.

Definition reverse_winner (db : Db) (event_seq : Z) (ledger_id : Uuid) (share_id job_id : list Z)
    (w : WinnerDescriptor) (reversal : WinnerReversal) : result Db StoreError :=
  let? row := load_winner db share_id job_id w in
  let valid := match reversal with
               | ReverseOrphaned => positive_state (lw_proof_state row)
               | ReverseQuarantined => bool_decide (lw_proof_state row <> Quarantined)
               end in
  if negb valid then Err InvalidWinnerTransition else
  let? db := update_winner_proof_state db w share_id (reversal_state reversal) in
  let another_active := match reversal, lw_active_proof_share_id row with
                        | ReverseQuarantined, Some active => bool_decide (active <> share_id)
                        | _, _ => false
                        end in
  if another_active then Ok db else
  reverse_economic_winner db event_seq ledger_id w row reversal.

(** ** Projecting an event *)

Definition side_chain_winner (db : Db) (share_id job_id : list Z) (w : WinnerDescriptor)
    : result Db StoreError :=
  let? row := load_winner db share_id job_id w in
  if bool_decide (wd_chain w <> Zcash)
     || bool_decide (lw_proof_state row <> Submitted)
     || bool_decide (lw_state row <> Submitted)
     || bool_decide (is_Some (lw_observation_event_seq row))
     || bool_decide (is_Some (lw_maturity_event_seq row))
     || bool_decide (is_Some (lw_active_proof_share_id row))
  then Err InvalidWinnerTransition else
  let? db := update_winner_proof_state db w share_id SideChain in
  update_winner_state db w SideChain None None.

Definition requeue_winner (db : Db) (share_id job_id : list Z) (w : WinnerDescriptor)
    : result Db StoreError :=
  let? row := load_winner db share_id job_id w in
  if bool_decide (lw_proof_state row <> Quarantined) then Err InvalidWinnerTransition else
  let? db := update_winner_proof_state db w share_id Requeued in
  if bool_decide (lw_active_proof_share_id row = None) && bool_decide (lw_state row = Quarantined)
  then update_winner_state db w Requeued None None
  else Ok db.

Definition commit_share (db : Db) (receipt : ShareReceipt) (job_id : Hex32) (worker : WorkerIdentity)
    (target_le : TargetLe) : result Db StoreError :=
  let? descriptor := ok_or (jobs (chn db) !! as_bytes job_id) UnknownJob in
  let? _ := map_err ProtocolFailed (ShareReceipt_validate_for_job receipt descriptor) in
  let? db := import_worker db worker in
  let? work := map_err PplnsFailed (target_work target_le) in
  let share := mkShareRow (as_bytes (sr_share_id receipt)) (sr_event_seq receipt) (as_bytes job_id)
                 (wi_account_id worker) (wi_worker_id worker) target_le work
                 (as_bytes (sr_parent_hash_le receipt)) in
  if existsb (fun s => bool_decide (sh_share_id s = sh_share_id share)) (shares (chn db))
  then Err (Database "shares_pkey") else
  let db := set_chn db (set_shares (chn db) (share :: shares (chn db))) in
  insert_winners db receipt job_id (sr_winners receipt).

(** The effect of an event on the tables other than the journal's own. *)
Definition apply_event (db : Db) (fresh : nat -> Uuid) (event : BackendEvent) : result Db StoreError :=
  match event with
  | JobActivated _ job =>
      let? _ := verify_job_maturity_policies db job in
      if bool_decide (is_Some (jobs (chn db) !! as_bytes (jd_job_id job)))
      then Err (Database "jobs_pkey")
      else Ok (set_chn db (set_jobs (chn db) (<[as_bytes (jd_job_id job) := job]> (jobs (chn db)))))
  | ShareCommittedEvent receipt job_id worker target_le =>
      commit_share db receipt job_id worker target_le
  | WinnerSideChain _ share_id job_id w _ =>
      side_chain_winner db (as_bytes share_id) (as_bytes job_id) w
  | WinnerObserved seq share_id job_id w _ confirmations =>
      observe_winner db seq (fresh 0%nat) (as_bytes share_id) (as_bytes job_id) w confirmations
  | WinnerMatured seq share_id job_id w _ confirmations =>
      mature_winner db seq fresh (as_bytes share_id) (as_bytes job_id) w confirmations
  | WinnerOrphaned seq share_id job_id w _ =>
      reverse_winner db seq (fresh 0%nat) (as_bytes share_id) (as_bytes job_id) w ReverseOrphaned
  | WinnerQuarantined seq share_id job_id w _ =>
      if bool_decide (wd_chain w <> Wcash) then Err InvalidWinnerTransition
      else reverse_winner db seq (fresh 0%nat) (as_bytes share_id) (as_bytes job_id) w
             ReverseQuarantined
  | WinnerRequeued _ share_id job_id w _ =>
      requeue_winner db (as_bytes share_id) (as_bytes job_id) w
  | JobInvalidated _ _ _ _ | GenerationClosed _ _ => Ok db
  end.

Inductive ProjectionResult : Type := Applied | Replayed.

Definition project_one (db : Db) (fresh : nat -> Uuid) (event : BackendEvent)
    : Db * result ProjectionResult StoreError :=
  match BackendEvent_validate env_sha256 event with
  | Err e => (db, Err (ProtocolFailed e))
  | Ok _ =>
  let seq := event_seq event in
  if I64_MAX <? seq then (db, Err EventSeqOverflow) else
  let payload_hash := env_sha256 (env_event_json event) in
  transaction db (
    let last := last_event_seq (chn db) in
    if seq <=? last then
      Ok (Rollback (if bool_decide (backend_events (chn db) !! seq = Some payload_hash)
                    then Ok Replayed else Err (EventReplayConflict seq)))
    else
    let? expected := ok_or (checked_add I64_MAX last 1) EventSeqOverflow in
    if negb (seq =? expected) then Err (EventSequenceGap expected seq) else
    if bool_decide (is_Some (backend_events (chn db) !! seq))
    then Err (Database "backend_events_pkey") else
    let db := set_chn db (set_cursor (chn db) last (<[seq := payload_hash]> (backend_events (chn db)))) in
    let? db := apply_event db fresh event in
    Ok (Commit (set_chn db (set_cursor (chn db) seq (backend_events (chn db)))) (Ok Applied)))
  end.

(** A replay page: the events in order, up to the first failure. *)
Fixpoint project_events (db : Db) (fresh : nat -> nat -> Uuid) (events : list BackendEvent)
    : Db * result unit StoreError :=
  match events with
  | [] => (db, Ok tt)
  | event :: rest =>
      match project_one db (fresh (length rest)) event with
      | (db', Ok _) => project_events db' fresh rest
      | (db', Err e) => (db', Err e)
      end
  end.

Definition project_replay_page (db : Db) (fresh : nat -> nat -> Uuid) (events : list BackendEvent)
    : Db * result unit StoreError :=
  if MAX_REPLAY_BATCH <? Z.of_nat (length events)
  then (db, Err (ReplayBatchTooLarge (Z.of_nat (length events))))
  else project_events db fresh events.
End Projector.
