(* ===== verification/Books.v ===== *)
(** The balance sheet of a deployment: what every ledger account must hold, computed from the
    states of the winners and of the payout batches alone, and the closed forms of the ledger
    movements of crates/wcash-pool-store/src/postgres.rs. *)

From Stdlib Require Import ZArith Lia.
From stdpp Require Import prelude gmap sorting strings.
From S2P Require Import Prelude Wire Backend Hex LargestRemainder Pplns PayoutFees Ledger PayoutRequest StoreDb PayoutStore WinnerStore.
Open Scope Z_scope.

(** ** Sums over a table *)

Definition table_sum {K} `{Countable K} {V} (f : K -> V -> Z) (m : gmap K V) : Z :=
  map_fold (fun k v acc => f k v + acc) 0 m.

Section TableSum.
Context {K : Type} `{Countable K} {V : Type}.
Implicit Types (f g : K -> V -> Z) (m : gmap K V).

Lemma table_sum_empty f : table_sum f ∅ = 0.
Proof. apply map_fold_empty. Qed.

Lemma table_sum_fresh f m k v : m !! k = None -> table_sum f (<[k := v]> m) = f k v + table_sum f m.
Proof. intros Hk. unfold table_sum. rewrite map_fold_insert_L; [done|intros; lia|done]. Qed.

Lemma table_sum_update f m k v0 v :
  m !! k = Some v0 -> table_sum f (<[k := v]> m) = table_sum f m - f k v0 + f k v.
Proof.
  intros Hk. rewrite <- (insert_id m k v0) at 2 by done.
  rewrite <- (insert_delete_eq m k v), <- (insert_delete_eq m k v0).
  rewrite !table_sum_fresh by apply lookup_delete_eq. lia.
Qed.

Lemma table_sum_ind f m (P : Z -> Prop) :
  P 0 -> (forall k v s, m !! k = Some v -> P s -> P (f k v + s)) -> P (table_sum f m).
Proof.
  intros H0 HS. unfold table_sum.
  assert (forall m', m' ⊆ m -> P (map_fold (fun k v acc => f k v + acc) 0 m')) as Hall; [|by apply Hall].
  induction m' as [|k v m' Hk IH] using map_ind; intros Hsub; [by rewrite map_fold_empty|].
  rewrite map_fold_insert_L; [|intros; lia|done]. apply HS.
  - eapply lookup_weaken; [|done]. apply lookup_insert_eq.
  - apply IH. etrans; [|done]. by apply insert_subseteq.
Qed.

Lemma table_sum_ext f g m :
  (forall k v, m !! k = Some v -> f k v = g k v) -> table_sum f m = table_sum g m.
Proof.
  induction m as [|k v m Hk IH] using map_ind; intros Hfg; [by rewrite !table_sum_empty|].
  rewrite !table_sum_fresh by done. rewrite (Hfg k v), IH; [done| |apply lookup_insert_eq].
  intros k' v' Hk'. apply Hfg. rewrite lookup_insert_ne; [done|]. intros ->. congruence.
Qed.

Lemma table_sum_nonpos f m : (forall k v, m !! k = Some v -> f k v <= 0) -> table_sum f m <= 0.
Proof. intros Hf. apply table_sum_ind; [done|]. intros k v s Hk Hs. specialize (Hf k v Hk). lia. Qed.

Lemma table_sum_zero f m : (forall k v, m !! k = Some v -> f k v = 0) -> table_sum f m = 0.
Proof. intros Hf. apply table_sum_ind; [done|]. intros k v s Hk Hs. by rewrite (Hf k v Hk), Hs. Qed.

Lemma table_sum_add f g m : table_sum (fun k v => f k v + g k v) m = table_sum f m + table_sum g m.
Proof.
  induction m as [|k v m Hk IH] using map_ind; [by rewrite !table_sum_empty|].
  rewrite !table_sum_fresh, IH by done. lia.
Qed.
End TableSum.

(** ** Sums of ledger lines *)

Definition is_line (who : option Uuid) (label : string) (e : LedgerEntry) : bool :=
  bool_decide (fst e = (who, label)).

Lemma owner_sum_nil who label : owner_sum who label [] = 0.
Proof. done. Qed.

Lemma owner_sum_cons who label e es :
  owner_sum who label (e :: es) = (if is_line who label e then snd e else 0) + owner_sum who label es.
Proof. unfold owner_sum, is_line. rewrite filter_cons. case_bool_decide; by case_decide. Qed.

Lemma owner_sum_app who label es fs :
  owner_sum who label (es ++ fs) = owner_sum who label es + owner_sum who label fs.
Proof. unfold owner_sum. by rewrite filter_app, entry_sum_app. Qed.

(** The accounts that carry spendable value: their entries balance in every transaction. *)
Definition core_sum (es : list LedgerEntry) : Z :=
  label_sum "collector_spendable_asset" es + label_sum "miner_payable" es
  + label_sum "payout_pending" es + label_sum "pool_equity" es.

Lemma core_sum_app es fs : core_sum (es ++ fs) = core_sum es + core_sum fs.
Proof. unfold core_sum. rewrite !label_sum_app. lia. Qed.

Lemma negated_entries_Ok es fs : negated_entries es = Ok fs ->
  (forall who label, owner_sum who label fs = - owner_sum who label es) /\
  core_sum fs = - core_sum es.
Proof.
  revert fs; induction es as [|[[w l] a] es IH]; intros fs H; cbn [negated_entries] in H.
  { simplify_eq. done. }
  run_in H. destruct (IH _ eq_refl) as [IH1 IH2]. split.
  - intros who label. rewrite !owner_sum_cons, IH1. unfold is_line. cbn [fst snd].
    case_bool_decide; lia.
  - unfold core_sum in *. rewrite !label_sum_cons. cbn [fst snd].
    repeat case_bool_decide; lia.
Qed.

(** Appending a transaction to a ledger. *)
Lemma chain_entries_snoc l x c :
  chain_entries (l ++ [x]) c = chain_entries l c ++ (if decide (lt_chain x = c) then lt_entries x else []).
Proof.
  unfold chain_entries. rewrite filter_app, fmap_app, join_app. f_equal.
  rewrite filter_cons. case_decide; cbn; by rewrite ?app_nil_r.
Qed.

Lemma owner_sum_snoc l x c who label :
  owner_sum who label (chain_entries (l ++ [x]) c) =
  owner_sum who label (chain_entries l c) +
  (if decide (lt_chain x = c) then owner_sum who label (lt_entries x) else 0).
Proof. rewrite chain_entries_snoc, owner_sum_app. by case_decide. Qed.

Lemma label_sum_snoc l x c label :
  label_sum label (chain_entries (l ++ [x]) c) =
  label_sum label (chain_entries l c) +
  (if decide (lt_chain x = c) then label_sum label (lt_entries x) else 0).
Proof. rewrite chain_entries_snoc, label_sum_app. by case_decide. Qed.

(** ** The lines of the payout movements *)

(** What an account has in a list of outputs. *)
Definition account_sum (f : PayoutInstruction -> Z) (a : Uuid) (os : list PayoutInstruction) : Z :=
  sumZ ((fun o => if decide (pi_account_id o = a) then f o else 0) <$> os).

Lemma account_sum_cons f a o os :
  account_sum f a (o :: os) = (if decide (pi_account_id o = a) then f o else 0) + account_sum f a os.
Proof. done. Qed.

(** A liability pending, from payable. *)
Definition reservation_line (os : list PayoutInstruction) (who : option Uuid) (label : string) : Z :=
  match who with
  | None => 0
  | Some a =>
      if decide (label = "miner_payable"%string) then account_sum liability_amount_zat a os
      else if decide (label = "payout_pending"%string) then - account_sum liability_amount_zat a os
      else 0
  end.

Ltac line_cases :=
  unfold is_line in *; cbn [fst snd] in *; repeat case_bool_decide; repeat case_decide;
  simplify_eq; try lia.

Lemma reservation_entries_lines os es : reservation_entries os = Ok es ->
  (forall who label, owner_sum who label es = reservation_line os who label) /\ core_sum es = 0.
Proof.
  revert es; induction os as [|o os IH]; intros es H; cbn [reservation_entries] in H.
  { simplify_eq. split; [|done]. intros [a|] label; [|done]. cbn. by repeat case_decide. }
  unfold as_i64 in H. run_in H. destruct (IH _ eq_refl) as [IH1 IH2]. split.
  - intros who label. rewrite !owner_sum_cons, IH1. unfold reservation_line.
    destruct who as [wh|]; [rewrite account_sum_cons|]; line_cases.
  - unfold core_sum in *. ledger_sums. lia.
Qed.

Lemma release_entries_lines os es : release_entries os = Ok es ->
  (forall who label, owner_sum who label es = - reservation_line os who label) /\ core_sum es = 0.
Proof.
  revert es; induction os as [|o os IH]; intros es H; cbn [release_entries] in H.
  { simplify_eq. split; [|done]. intros [a|] label; [|done]. cbn. by repeat case_decide. }
  unfold as_i64 in H. run_in H. destruct (IH _ eq_refl) as [IH1 IH2]. split.
  - intros who label. rewrite !owner_sum_cons, IH1. unfold reservation_line.
    destruct who as [wh|]; [rewrite account_sum_cons|]; line_cases.
  - unfold core_sum in *. ledger_sums. lia.
Qed.

(** What an account has paid once a batch is settled: its output and its share of the fee. *)
Definition settled_sum (a : Uuid) (os : list PayoutInstruction) (cs : list Z) : Z :=
  sumZ (zip_with (fun o c => if decide (pi_account_id o = a) then amount_zat o + c else 0) os cs).

Lemma settled_sum_cons a o os c cs :
  settled_sum a (o :: os) (c :: cs) =
  (if decide (pi_account_id o = a) then amount_zat o + c else 0) + settled_sum a os cs.
Proof. done. Qed.

Definition confirmation_line (os : list PayoutInstruction) (cs : list Z) (who : option Uuid)
    (label : string) : Z :=
  match who with
  | None => 0
  | Some a =>
      if decide (label = "payout_pending"%string) then account_sum liability_amount_zat a os
      else if decide (label = "miner_payable"%string)
      then settled_sum a os cs - account_sum liability_amount_zat a os
      else 0
  end.

Lemma confirmation_lines_lines os cs es : length os = length cs -> confirmation_lines os cs = Ok es ->
  (forall who label, owner_sum who label es = confirmation_line os cs who label) /\
  label_sum "collector_spendable_asset" es = 0 /\ label_sum "pool_equity" es = 0 /\
  entry_sum es = core_sum es.
Proof.
  revert cs es; induction os as [|o os IH]; intros [|c cs] es Hl H; try done.
  { cbn in H. simplify_eq. split; [|done]. intros [a|] label; [|done]. cbn. by repeat case_decide. }
  cbn [confirmation_lines] in H. unfold as_i64, ok_or, checked_sub in H. run_in H.
  all: edestruct (IH cs) as (IH1 & IH2 & IH3 & IH4); [simpl in *; lia|eassumption|].
  - split_and!.
    + intros who label. rewrite !owner_sum_cons, IH1. unfold confirmation_line.
      destruct who as [wh|]; [rewrite account_sum_cons, settled_sum_cons|]; line_cases.
    + ledger_sums. lia.
    + ledger_sums. lia.
    + unfold core_sum in *. ledger_sums. lia.
  - split_and!.
    + intros who label. cbn [app]. rewrite !owner_sum_cons, IH1. unfold confirmation_line.
      destruct who as [wh|]; [rewrite account_sum_cons, settled_sum_cons|]; line_cases.
    + cbn [app]. ledger_sums. lia.
    + cbn [app]. ledger_sums. lia.
    + cbn [app]. unfold core_sum in *. ledger_sums. lia.
Qed.

(** ** A guarded transaction sums to zero *)

Lemma i128_sum_Some es s v : i128_sum es s = Some v -> v = s + entry_sum es.
Proof.
  revert s; induction es as [|[k a] es IH]; intros s H; cbn [i128_sum] in H.
  { simplify_eq. change (entry_sum []) with 0. lia. }
  case_match; [|done]. rewrite entry_sum_cons. cbn [snd]. specialize (IH _ H). lia.
Qed.

Lemma ledger_guard_sum es : ledger_guard es = Ok tt -> entry_sum es = 0.
Proof.
  unfold ledger_guard. intros H. run_in H. destruct (i128_sum es 0) as [v|] eqn:Hv.
  - apply i128_sum_Some in Hv. destruct (decide (v = 0)) as [->|]; [lia|]. exfalso. naive_solver.
  - exfalso. naive_solver.
Qed.

(** ** The settlement of a batch *)

(** The lines of a settled batch that belong to the pool. *)
Definition settlement_line (payout_total fee : Z) (label : string) : Z :=
  if decide (label = "collector_spendable_asset"%string) then - (payout_total + fee)
  else if decide (label = "network_fee_expense"%string) then fee
  else if decide (label = "miner_network_fee_contribution"%string) then - fee
  else 0.

Lemma allocate_actual_length os fee cs :
  Forall (fun o => 0 <= amount_zat o <= liability_amount_zat o) os ->
  sumZ (liabilities os) <= U64_MAX -> 0 <= fee ->
  allocate_actual_network_fee os fee = Ok cs ->
  length cs = length os /\ sumZ cs = fee /\ 0 < fee /\
  (forall i o c, os !! i = Some o -> cs !! i = Some c -> 0 <= c <= reserve_of o).
Proof.
  intros Hwf Hmax Hfee H.
  assert (sumZ (reserve_of <$> os) <= U64_MAX) as Hr.
  { rewrite sumZ_reserves. assert (0 <= sumZ (amount_zat <$> os)); [|lia].
    apply sumZ_nonneg, Forall_fmap. eapply Forall_impl; [exact Hwf|]. intros ? ?. simpl in *. lia. }
  assert (0 < fee <= sumZ (reserve_of <$> os)) as Hb.
  { unfold allocate_actual_network_fee in H. rewrite fee_reserves_spec in H by (done || lia).
    rewrite Z.add_0_l in H. case_match; [done|]. boolprop. lia. }
  destruct (allocate_actual_fee_split os fee Hwf Hr Hb) as (cs' & H' & Hl & Hs & Hc).
  rewrite H in H'. simplify_eq. split_and!; try done; [lia|]. intros i o c Ho Hc'. by apply (Hc i).
Qed.

Lemma confirmation_entries_lines b fee available outstanding es :
  Forall (fun o => 0 <= amount_zat o <= liability_amount_zat o) (pp_outputs b) ->
  sumZ (liabilities (pp_outputs b)) <= U64_MAX -> 0 <= fee ->
  confirmation_entries b fee available outstanding = Ok es ->
  exists cs, allocate_actual_network_fee (pp_outputs b) fee = Ok cs /\
    (forall who label, owner_sum who label es =
       confirmation_line (pp_outputs b) cs who label +
       match who with None => settlement_line (pp_payout_total_zat b) fee label | Some _ => 0 end) /\
    entry_sum es = core_sum es.
Proof.
  intros Hwf Hmax Hfee H. unfold confirmation_entries, confirmation_asset, as_i64, ok_or, checked_add in H.
  run_in H.
  all: match goal with H : allocate_actual_network_fee _ _ = Ok ?cs |- _ => exists cs; split; [done|];
         destruct (allocate_actual_length _ _ _ Hwf Hmax Hfee H) as (Hlen & _ & Hpos & _) end.
  all: match goal with H : confirmation_lines _ _ = Ok _ |- _ =>
         apply confirmation_lines_lines in H as (Hlines & Hs & He & Hsum); [|done] end.
  - split.
    + intros who label. rewrite !owner_sum_app, Hlines. f_equal. rewrite !owner_sum_cons, !owner_sum_nil.
      unfold settlement_line, is_line. cbn [fst snd]. destruct who; repeat case_bool_decide; repeat case_decide;
        simplify_eq; lia.
    + rewrite !core_sum_app, !entry_sum_app, Hsum. unfold core_sum. ledger_sums. lia.
  - lia.
Qed.

(** ** The outputs of a batch *)

(** An output read back from an item and its destination. *)
Definition output_of_row (p : PayoutItem * PayoutDestination) (o : PayoutInstruction) : Prop :=
  pi_allocation_id o = it_allocation_id (fst p) /\ pi_account_id o = it_account_id (fst p) /\
  pi_destination_id o = it_destination_id (fst p) /\
  ReceiverKind_parse (pd_receiver_kind (snd p)) = Ok (pi_receiver_kind o) /\
  pi_address o = pd_address (snd p) /\
  liability_amount_zat o = item_liability (fst p) /\ amount_zat o = it_amount_zat (fst p).

Lemma load_outputs_Ok rows mt pt os m q : load_outputs rows mt pt = Ok (os, m, q) ->
  Forall2 output_of_row rows os /\
  Forall (fun o => 0 <= amount_zat o <= liability_amount_zat o) os /\
  m = mt + sumZ (liabilities os) /\ q = pt + sumZ (amount_zat <$> os) /\
  (mt <= U64_MAX -> m <= U64_MAX) /\ (pt <= U64_MAX -> q <= U64_MAX).
Proof.
  revert mt pt os m q; induction rows as [|[i d] rows IH]; intros mt pt os m q H; cbn [load_outputs] in H.
  { simplify_eq. rewrite !fmap_nil. change (sumZ (liabilities [])) with 0. change (sumZ []) with 0.
    split_and!; try constructor; lia. }
  unfold u64_from, ok_or, checked_add in H. run_in H.
  match goal with Hl : load_outputs rows _ _ = Ok _ |- _ =>
    apply IH in Hl as (H1 & H2 & H3 & H4 & H5 & H6) end.
  unfold liabilities in *. rewrite !fmap_cons, !sumZ_cons. cbn [liability_amount_zat amount_zat].
  split_and!; [constructor; [|done]|constructor; [simpl; lia|done]|lia|lia|lia|lia].
  unfold output_of_row. cbn. split_and!; done.
Qed.

Lemma load_outputs_Ok_2 rows mt pt :
  Forall (fun p => 0 <= it_amount_zat (fst p) <= item_liability (fst p) /\
                   is_ok (ReceiverKind_parse (pd_receiver_kind (snd p))) = true) rows ->
  0 <= mt -> 0 <= pt ->
  mt + sumZ ((fun p => item_liability (fst p)) <$> rows) <= U64_MAX ->
  pt + sumZ ((fun p => it_amount_zat (fst p)) <$> rows) <= U64_MAX ->
  is_ok (load_outputs rows mt pt) = true.
Proof.
  intros Hrows. revert mt pt.
  induction Hrows as [|[i d] rows [Ha Hk] Hrows IH]; intros mt pt Hm0 Hp0 Hm Hp; cbn [load_outputs]; [done|].
  rewrite !fmap_cons, !sumZ_cons in *. cbn [fst snd] in *.
  assert (0 <= sumZ ((fun p => item_liability (fst p)) <$> rows) /\
          0 <= sumZ ((fun p : PayoutItem * PayoutDestination => it_amount_zat (fst p)) <$> rows)) as [Hs1 Hs2].
  { split; apply sumZ_nonneg, Forall_fmap; (eapply Forall_impl; [exact Hrows|]); intros ? [? ?]; simpl in *; lia. }
  unfold u64_from, ok_or, checked_add.
  rewrite !(proj2 (Z.ltb_ge _ _)), !(proj2 (Z.leb_le _ _)) by lia.
  destruct (ReceiverKind_parse (pd_receiver_kind d)); [|done].
  specialize (IH (mt + item_liability i) (pt + it_amount_zat i) ltac:(lia) ltac:(lia) ltac:(lia) ltac:(lia)).
  by destruct (load_outputs rows _ _) as [[[? ?] ?]|].
Qed.

(** The outputs as the store reads them, fixed once the batch exists. *)
Definition batch_outputs (t : PayoutTables) (batch_id : Uuid) : list PayoutInstruction :=
  match load_outputs (item_rows t batch_id) 0 0 with
  | Ok (os, _, _) => os
  | Err _ => []
  end.

(** Only the address and the receiver kind of a destination matter to a batch. *)
Definition same_receiver (d d' : PayoutDestination) : Prop :=
  pd_address d' = pd_address d /\ pd_receiver_kind d' = pd_receiver_kind d.

Definition row_agrees (p p' : PayoutItem * PayoutDestination) : Prop :=
  fst p' = fst p /\ same_receiver (snd p) (snd p').

Lemma load_outputs_agrees rows rows' mt pt :
  Forall2 row_agrees rows rows' -> load_outputs rows' mt pt = load_outputs rows mt pt.
Proof.
  intros H. revert mt pt. induction H as [|[i d] [i' d'] rows rows' [Hi [Ha Hk]] _ IH]; intros mt pt; [done|].
  cbn [load_outputs fst snd] in *. subst i'. rewrite Hk, Ha.
  repeat match goal with
  | |- match ?x with Ok _ => _ | Err _ => _ end = _ =>
      lazymatch x with load_outputs _ _ _ => fail | _ => destruct x; [|done] end
  | |- (if ?b then _ else _) = _ => destruct b; [done|]
  end.
  by rewrite IH.
Qed.

Lemma sort_by_Forall2 {A B} (R : A -> B -> Prop) cmp cmp' (l : list A) (l' : list B) :
  (forall x x' y y', R x x' -> R y y' -> cmp x y = cmp' x' y') ->
  Forall2 R l l' -> Forall2 R (sort_by cmp l) (sort_by cmp' l').
Proof.
  intros Hc. induction 1 as [|x x' l l' Hx Hl IH]; simpl; [constructor|].
  clear Hl. induction IH as [|y y' s s' Hy Hs IHs]; simpl; [by repeat constructor|].
  rewrite <- (Hc x x' y y') by done. case_match; by repeat constructor.
Qed.

Definition items_bound (t : PayoutTables) (its : list PayoutItem) : Prop :=
  Forall (fun i => is_Some (destinations t !! it_destination_id i)) its.

Definition rows_kept (m m' : gmap Z PayoutDestination) : Prop :=
  forall id d, m !! id = Some d -> exists d', m' !! id = Some d' /\ same_receiver d d'.

Definition receivers_kept (t t' : PayoutTables) : Prop := rows_kept (destinations t) (destinations t').

Lemma joined_rows_agree t t' its : receivers_kept t t' -> items_bound t its ->
  Forall2 row_agrees
    (omap (fun i => (fun d => (i, d)) <$> destinations t !! it_destination_id i) its)
    (omap (fun i => (fun d => (i, d)) <$> destinations t' !! it_destination_id i) its).
Proof.
  intros Hk. induction 1 as [|i its [d Hd] _ IH]; [constructor|].
  destruct (Hk _ _ Hd) as (d' & Hd' & Hs). cbn [omap list_omap]. rewrite Hd, Hd'. cbn.
  constructor; [by split|done].
Qed.

Lemma load_outputs_stable t t' id :
  items t' !! id = items t !! id -> receivers_kept t t' ->
  items_bound t (default [] (items t !! id)) ->
  load_outputs (item_rows t' id) 0 0 = load_outputs (item_rows t id) 0 0.
Proof.
  intros Hi Hk Hb. apply load_outputs_agrees. unfold item_rows. rewrite Hi.
  apply sort_by_Forall2; [|by apply joined_rows_agree].
  intros x x' y y' [-> _] [-> _]. done.
Qed.

Lemma batch_outputs_stable t t' id :
  items t' !! id = items t !! id -> receivers_kept t t' ->
  items_bound t (default [] (items t !! id)) -> batch_outputs t' id = batch_outputs t id.
Proof. intros. unfold batch_outputs. by rewrite (load_outputs_stable t t'). Qed.

(** What the sums over a batch depend on. *)
Definition output_amounts (o : PayoutInstruction) : Uuid * Z * Z :=
  (pi_account_id o, liability_amount_zat o, amount_zat o).
Definition item_amounts (i : PayoutItem) : Uuid * Z * Z :=
  (it_account_id i, item_liability i, it_amount_zat i).

Lemma joined_items t its : items_bound t its ->
  fst <$> omap (fun i => (fun d => (i, d)) <$> destinations t !! it_destination_id i) its = its.
Proof.
  induction 1 as [|i its [d Hd] _ IH]; [done|]. cbn [omap list_omap]. rewrite Hd. cbn. by rewrite IH.
Qed.

Lemma load_outputs_amounts t id os m q :
  items_bound t (default [] (items t !! id)) -> load_outputs (item_rows t id) 0 0 = Ok (os, m, q) ->
  output_amounts <$> os ≡ₚ item_amounts <$> default [] (items t !! id).
Proof.
  intros Hb H. apply load_outputs_Ok in H as (H & _).
  assert (output_amounts <$> os = item_amounts <$> (fst <$> item_rows t id)) as ->.
  { induction H as [|[i d] o rows os (H1 & H2 & H3 & H4 & H5 & H6 & H7) _ IH]; [done|].
    rewrite !fmap_cons, IH. f_equal. unfold output_amounts, item_amounts. cbn [fst snd] in *. congruence. }
  apply fmap_Permutation. unfold item_rows. rewrite sort_by_perm. by rewrite joined_items.
Qed.

Lemma account_sum_amounts (os os' : list PayoutInstruction) (a : Uuid) :
  output_amounts <$> os ≡ₚ output_amounts <$> os' ->
  account_sum liability_amount_zat a os = account_sum liability_amount_zat a os' /\
  account_sum amount_zat a os = account_sum amount_zat a os'.
Proof.
  intros Hp.
  assert (forall (g : Uuid * Z * Z -> Z), sumZ (g <$> (output_amounts <$> os)) = sumZ (g <$> (output_amounts <$> os')))
    as Hg by (intros g; by apply sumZ_perm, fmap_Permutation).
  unfold account_sum. split.
  - pose proof (Hg (fun p => if decide (fst (fst p) = a) then snd (fst p) else 0)) as E.
    rewrite <- !list_fmap_compose in E. exact E.
  - pose proof (Hg (fun p => if decide (fst (fst p) = a) then snd p else 0)) as E.
    rewrite <- !list_fmap_compose in E. exact E.
Qed.

(** ** The lines of a winner *)

Definition allocation_at (key : Chain * list Z) (o : Z) (r : AllocationRow) : bool :=
  bool_decide (al_chain r = fst key /\ al_block_hash_le r = snd key /\ al_observation_event_seq r = o).

(** What an observation allots to an account, and to all of them. *)
Definition alloc_amount (t : ChainTables) (key : Chain * list Z) (o : Z) (a : Uuid) : Z :=
  sumZ ((fun r => if allocation_at key o r && (al_account_id r =? a) then al_amount_zat r else 0)
          <$> winner_allocations t).
Definition alloc_total (t : ChainTables) (key : Chain * list Z) (o : Z) : Z :=
  sumZ ((fun r => if allocation_at key o r then al_amount_zat r else 0) <$> winner_allocations t).

(** An observed reward is immature value, owed to the miners and to the pool. *)
Definition observed_line (t : ChainTables) (key : Chain * list Z) (reward o : Z)
    (who : option Uuid) (label : string) : Z :=
  match who with
  | None => if decide (label = "collector_immature_asset"%string) then reward
            else if decide (label = "pool_fee_unearned"%string) then - (reward - alloc_total t key o)
            else 0
  | Some a => if decide (label = "miner_immature"%string) then - alloc_amount t key o a else 0
  end.

(** A matured reward is spendable, payable to the miners and earned by the pool. *)
Definition matured_line (t : ChainTables) (key : Chain * list Z) (reward o : Z)
    (who : option Uuid) (label : string) : Z :=
  match who with
  | None => if decide (label = "collector_spendable_asset"%string) then reward
            else if decide (label = "pool_equity"%string) then - (reward - alloc_total t key o)
            else 0
  | Some a => if decide (label = "miner_payable"%string) then - alloc_amount t key o a else 0
  end.

Definition alloc_sum (a : Uuid) (l : list AccountAllocation) : Z :=
  sumZ ((fun x => if decide (aa_account_id x = a) then aa_amount_zat x else 0) <$> l).

Lemma immature_lines_lines l es : Forall (fun x => 0 <= aa_amount_zat x) l -> immature_lines l = Ok es ->
  (forall who label, owner_sum who label es =
     match who with
     | None => 0
     | Some a => if decide (label = "miner_immature"%string) then - alloc_sum a l else 0
     end) /\ core_sum es = 0 /\ entry_sum es = - sumZ (aa_amount_zat <$> l).
Proof.
  intros Hl. revert es; induction Hl as [|x l Hx Hl IH]; intros es H; cbn [immature_lines] in H.
  { simplify_eq. split_and!; [|done|done]. intros [a|] label; [|done]. by case_decide. }
  unfold alloc_sum in *. rewrite fmap_cons, sumZ_cons.
  destruct (Z.ltb_spec 0 (aa_amount_zat x)).
  - unfold as_i64 in H. run_in H. destruct (IH _ eq_refl) as (IH1 & IH2 & IH3). split_and!.
    + intros who label. rewrite owner_sum_cons, IH1. destruct who as [wh|]; [rewrite fmap_cons, sumZ_cons|]; line_cases.
    + unfold core_sum in *. ledger_sums. lia.
    + rewrite entry_sum_cons. cbn [snd]. lia.
  - destruct (IH _ H) as (IH1 & IH2 & IH3). split_and!; [|done|lia].
    intros who label. rewrite IH1. destruct who as [wh|]; [rewrite fmap_cons, sumZ_cons|]; line_cases.
Qed.

(** The observation of a plan, given that its entries pass the ledger's guard. *)
Lemma observation_entries_lines reward plan es :
  Forall (fun x => 0 <= aa_amount_zat x) (ap_accounts plan) ->
  observation_entries reward plan = Ok es -> ledger_guard es = Ok tt ->
  (forall who label, owner_sum who label es =
     match who with
     | None => if decide (label = "collector_immature_asset"%string) then reward
               else if decide (label = "pool_fee_unearned"%string)
               then - (reward - sumZ (aa_amount_zat <$> ap_accounts plan))
               else 0
     | Some a => if decide (label = "miner_immature"%string) then - alloc_sum a (ap_accounts plan) else 0
     end) /\ core_sum es = 0 /\ sumZ (aa_amount_zat <$> ap_accounts plan) <= reward.
Proof.
  intros Hl H Hg. apply ledger_guard_sum in Hg. unfold observation_entries, as_i64 in H. run_in H.
  all: match goal with H : immature_lines _ = Ok _ |- _ =>
         apply immature_lines_lines in H as (H1 & H2 & H3); [|done] end.
  - rewrite entry_sum_cons, entry_sum_app, H3, entry_sum_cons in Hg. change (entry_sum []) with 0 in Hg. cbn [snd] in Hg.
    split_and!.
    + intros who label. rewrite owner_sum_cons, owner_sum_app, H1, owner_sum_cons, owner_sum_nil.
      destruct who as [wh|]; line_cases.
    + unfold core_sum in *. ledger_sums. lia.
    + lia.
  - rewrite app_nil_r in *. rewrite entry_sum_cons, H3 in Hg. cbn [snd] in Hg. split_and!.
    + intros who label. rewrite owner_sum_cons, H1. destruct who as [wh|]; line_cases.
    + unfold core_sum in *. ledger_sums. lia.
    + lia.
Qed.

Definition row_sum (a : Uuid) (rows : list AllocationRow) : Z :=
  sumZ ((fun r => if decide (al_account_id r = a) then al_amount_zat r else 0) <$> rows).

Lemma maturity_lines_lines rows total es m : maturity_lines rows total = Ok (es, m) ->
  m = total + sumZ (al_amount_zat <$> rows) /\
  (forall who label, owner_sum who label es =
     match who with
     | None => 0
     | Some a => if decide (label = "miner_immature"%string) then row_sum a rows
                 else if decide (label = "miner_payable"%string) then - row_sum a rows else 0
     end) /\ label_sum "collector_spendable_asset" es = 0 /\ label_sum "payout_pending" es = 0 /\
  label_sum "pool_equity" es = 0 /\ label_sum "miner_payable" es = - sumZ (al_amount_zat <$> rows).
Proof.
  revert total es m; induction rows as [|r rows IH]; intros total es m H; cbn [maturity_lines] in H.
  { simplify_eq. rewrite fmap_nil. change (sumZ []) with 0. split_and!; [lia| |done..].
    intros [a|] label; [|done]. unfold row_sum. rewrite fmap_nil. change (sumZ []) with 0. by repeat case_decide. }
  unfold u64_from, ok_or, checked_add, as_i64 in H. unfold row_sum in *. rewrite fmap_cons, sumZ_cons.
  run_in H.
  all: match goal with Hl : maturity_lines _ _ = Ok ?p |- _ => destruct p as [es' m'];
         apply IH in Hl as (H1 & H2 & H3 & H4 & H5 & H6) end; cbn [fst snd app] in *.
  - split_and!; [lia| |ledger_sums; lia..].
    intros who label. rewrite !owner_sum_cons, H2. destruct who as [wh|]; [rewrite fmap_cons, sumZ_cons|]; line_cases.
  - split_and!; [lia| |ledger_sums; lia..].
    intros who label. rewrite H2. destruct who as [wh|]; [rewrite fmap_cons, sumZ_cons|]; line_cases.
Qed.

(** The maturity of allocated rows turns observed lines into matured ones. *)
Lemma maturity_entries_lines reward rows es :
  maturity_entries reward rows = Ok es ->
  (forall who label, owner_sum who label es =
     match who with
     | None => if decide (label = "collector_immature_asset"%string) then - reward
               else if decide (label = "collector_spendable_asset"%string) then reward
               else if decide (label = "pool_fee_unearned"%string)
               then reward - sumZ (al_amount_zat <$> rows)
               else if decide (label = "pool_equity"%string)
               then - (reward - sumZ (al_amount_zat <$> rows))
               else 0
     | Some a => if decide (label = "miner_immature"%string) then row_sum a rows
                 else if decide (label = "miner_payable"%string) then - row_sum a rows else 0
     end) /\ core_sum es = 0.
Proof.
  intros H. unfold maturity_entries, as_i64, ok_or, checked_sub in H. run_in H.
  all: match goal with Hl : maturity_lines _ _ = Ok _ |- _ =>
         apply maturity_lines_lines in Hl as (H1 & H2 & H3 & H4 & H5 & H6) end.
  - split.
    + intros who label. rewrite !owner_sum_cons, owner_sum_app, H2, !owner_sum_cons, owner_sum_nil.
      destruct who as [wh|]; line_cases.
    + unfold core_sum in *. ledger_sums. lia.
  - rewrite app_nil_r. split.
    + intros who label. rewrite !owner_sum_cons, H2. destruct who as [wh|]; line_cases.
    + unfold core_sum in *. ledger_sums. lia.
Qed.
