(* ===== verification/BatchPlan.v ===== *)
(** What a planned batch holds: each output comes from one eligible account of the selection
    query, settles at most its balance and the cap, and is stored with the destination it names
    (crates/wcash-pool-store/src/postgres.rs: create_payout_batch). *)

From Stdlib Require Import ZArith Lia.
From stdpp Require Import prelude gmap sorting strings.
From S2P Require Import Prelude Wire Backend Hex LargestRemainder Pplns PayoutFees Ledger PayoutRequest StoreDb PayoutStore Books.
Open Scope Z_scope.

(** ** The planner, from its result *)

(** An output planned for a row, before and after its fee reserve. *)
Definition output_for (cap : Z) (row : PayoutRow) (o : PayoutInstruction) : Prop :=
  pi_allocation_id o = row_allocation_id row /\ pi_account_id o = row_account_id row /\
  pi_destination_id o = row_destination_id row /\
  ReceiverKind_parse (row_receiver_kind row) = Ok (pi_receiver_kind o) /\
  pi_address o = row_address row /\
  0 <= row_amount_zat row /\ liability_amount_zat o = capped cap row.

Lemma select_outputs_Ok rows cap total os total' : 0 <= cap -> total <= U64_MAX ->
  select_outputs rows cap total = Ok (os, total') ->
  Forall2 (output_for cap) rows os /\ Forall (fun o => amount_zat o = liability_amount_zat o) os /\
  Forall (fun o => 0 <= liability_amount_zat o) os /\
  total' = total + sumZ (liabilities os) /\ total' <= U64_MAX.
Proof.
  intros Hcap. revert total os total'. induction rows as [|row rows IH]; intros total os total' Ht H;
    cbn [select_outputs] in H.
  { simplify_eq. change (sumZ (liabilities [])) with 0. split_and!; try constructor; lia. }
  unfold ok_or, checked_add in H. run_in H.
  match goal with p : (list PayoutInstruction * Z)%type |- _ => destruct p as [os' t'] end.
  match goal with Hs : select_outputs rows _ _ = Ok _ |- _ =>
    apply IH in Hs as (H1 & H2 & H3 & H4 & H5); [|done] end.
  unfold liabilities in *. rewrite fmap_cons, sumZ_cons. cbn [fst snd liability_amount_zat].
  split_and!; [|by constructor| |lia|done].
  - constructor; [|done]. unfold output_for, capped. cbn. split_and!; done.
  - constructor; [|done]. cbn. unfold payout_amount_for_liability. case_match; lia.
Qed.

Lemma deduct_network_fee_reserve_Ok os fee os' :
  Forall (fun o => 0 <= liability_amount_zat o) os -> 0 <= fee ->
  deduct_network_fee_reserve os fee = Ok os' -> reserved os os' fee /\ reservable os fee.
Proof.
  intros Hnn Hfee H.
  assert (reservable os fee) as Hr.
  { apply dec_stable. intros Hn. destruct (not_reservable_err os fee Hnn Hfee Hn) as (e & He & _). congruence. }
  split; [|done]. destruct (reservable_split os fee Hr) as (os2 & H2 & Hres). congruence.
Qed.

Lemma output_for_reserved cap rows os os' fee :
  Forall2 (output_for cap) rows os -> reserved os os' fee -> Forall2 (output_for cap) rows os'.
Proof.
  intros Hf (Hlen & _ & _ & Hall). apply Forall2_same_length_lookup_2.
  { rewrite Hlen. by eapply Forall2_length. }
  intros i row o' Hrow Ho'. destruct (Forall2_lookup_l _ _ _ _ _ Hf Hrow) as (o & Ho & Hof).
  destruct (Hall i o o' Ho Ho') as (-> & _). exact Hof.
Qed.

Lemma try_sum_Ok l s v : try_sum l s = Ok v -> v = s + sumZ l.
Proof.
  revert s; induction l as [|x l IH]; intros s H; cbn [try_sum] in H.
  { simplify_eq. change (sumZ []) with 0. lia. }
  unfold ok_or, checked_add in H. run_in H. apply IH in H. rewrite sumZ_cons. lia.
Qed.

Lemma reserved_positive os os' fee :
  reserved os os' fee -> Forall (fun o => 0 < amount_zat o <= liability_amount_zat o) os'.
Proof.
  intros (Hlen & _ & _ & Hall). apply Forall_lookup. intros i o' Ho'.
  destruct (lookup_lt_is_Some_2 os i) as [o Ho]; [rewrite <- Hlen; by eapply lookup_lt_Some|].
  destruct (Hall i o o' Ho Ho') as (_ & H1 & H2 & _). unfold reserve_of in H2. lia.
Qed.

(** A plan that succeeds has an output for every row, in order, and exact totals. *)
Lemma plan_payout_batch_inv rows cap absolute bps plan :
  0 <= cap -> 0 <= absolute -> 0 <= bps -> plan_payout_batch rows cap absolute bps = Ok plan ->
  Forall2 (output_for cap) rows (pp_outputs plan) /\ batch_wf plan.
Proof.
  intros Hcap Habs Hbps H. unfold plan_payout_batch, ok_or in H. run_in H.
  match goal with Hs : select_outputs _ _ _ = Ok _ |- _ =>
    apply select_outputs_Ok in Hs as (H1 & H2 & H3 & H4 & H5); [|done|widths; lia] end.
  match goal with Hd : deduct_network_fee_reserve _ ?f = Ok _ |- _ => set (fee := f) in * end.
  assert (0 <= fee) as Hf.
  { unfold fee, saturating_sub. assert (0 <= sumZ (liabilities l)) by by apply sumZ_nonneg, Forall_fmap.
    assert (0 <= z * bps / 10000) by (apply Z.div_pos; nia). lia. }
  match goal with Hd : deduct_network_fee_reserve _ _ = Ok _ |- _ =>
    apply deduct_network_fee_reserve_Ok in Hd as [Hres Hable]; [|done|done] end.
  split; [by eapply output_for_reserved|].
  pose proof (reserved_positive _ _ _ Hres) as Hpos. pose proof Hres as (Hlen & Hsum & Hl & _).
  match goal with Ht : try_sum _ _ = Ok _ |- _ => apply try_sum_Ok in Ht end.
  match goal with Hc : checked_add _ _ _ = Some _ |- _ => unfold checked_add in Hc; run_in Hc end.
  unfold batch_wf. cbn [pp_outputs pp_payout_total_zat pp_maximum_network_fee_zat pp_miner_total_zat].
  rewrite Hl. split_and!; try done; try lia.
  intros ->. destruct Hable as (Hne & _). by destruct l.
Qed.

(** A bound policy: validated, with fields of unsigned types. *)
Definition policy_unsigned (p : ChainPolicy) : Prop :=
  0 <= cp_pplns_window_work p /\ 0 <= cp_fee_bps p /\
  0 <= cp_minimum_payout_zat p /\ 0 <= cp_maximum_payout_zat p /\
  0 <= cp_maximum_network_fee_zat p /\ 0 <= cp_maximum_network_fee_bps p /\
  0 <= cp_payout_confirmations p.

Definition policy_wf (p : ChainPolicy) : Prop := ChainPolicy_validate p = Ok tt /\ policy_unsigned p.

Lemma policy_wf_bounds p : policy_wf p ->
  0 < cp_minimum_payout_zat p <= cp_maximum_payout_zat p /\ 0 <= cp_maximum_network_fee_zat p /\
  0 < cp_maximum_network_fee_bps p <= 1000 /\ cp_fee_bps p <= 1000.
Proof.
  intros (Hv & H1 & H2 & H3 & H4 & H5 & H6). unfold ChainPolicy_validate in Hv.
  case_match; [done|]. boolprop. lia.
Qed.

Lemma random_payout_cap_bound draws minimum maximum skip cap :
  0 < minimum <= maximum -> random_payout_cap draws minimum maximum skip = Ok (Some cap) -> minimum <= cap.
Proof.
  intros Hm H. unfold random_payout_cap, payout_cap_from_draws, checked_add in H.
  run_steps H; [injection H; boolprop; lia|]. injection H as <-.
  match goal with |- _ <= _ + ?x mod ?m => pose proof (Z.mod_pos_bound x m ltac:(lia)) end. lia.
Qed.

(** ** The items of a batch *)

Lemma insert_items_Ok os its fixed :
  insert_items os fixed = Ok its -> its = fixed ++ (item_of <$> os) /\
  (NoDup (it_account_id <$> fixed) -> NoDup (it_account_id <$> its)).
Proof.
  revert fixed; induction os as [|o os IH]; intros fixed H; cbn [insert_items] in H.
  { simplify_eq. by rewrite app_nil_r. }
  unfold as_i64 in H. run_in H. destruct (IH _ H) as [-> Hn].
  split; [by rewrite fmap_cons, <- app_assoc|]. intros Hf. apply Hn. rewrite fmap_app, fmap_cons, fmap_nil.
  apply NoDup_app. split_and!; [done| |apply NoDup_singleton].
  intros a (i & -> & Hi)%list_elem_of_fmap Heq%list_elem_of_singleton. cbn [item_of it_account_id] in *.
  match goal with Hx : existsb (fun i => it_account_id i =? _) _ = false |- _ =>
    apply not_true_iff_false in Hx; apply Hx end.
  apply existsb_exists. exists i. split; [by apply list_elem_of_In|]. by apply Z.eqb_eq.
Qed.

(** The destination a row was read from. *)
Definition row_stored (t : PayoutTables) (row : PayoutRow) : Prop :=
  exists d, destinations t !! row_destination_id row = Some d /\
    pd_receiver_kind d = row_receiver_kind row /\ pd_address d = row_address row /\
    pd_account_id d = row_account_id row.

Lemma item_amounts_of o : item_amounts (item_of o) = output_amounts o.
Proof. done. Qed.

Lemma planned_items_bound t cap rows os :
  Forall2 (output_for cap) rows os -> Forall (row_stored t) rows -> items_bound t (item_of <$> os).
Proof.
  intros Hf Hs. apply Forall_fmap. induction Hf as [|row o rows os Ho _ IH]; [constructor|].
  apply Forall_cons in Hs as [(d & Hd & _) Hs]. constructor; [|by apply IH].
  destruct Ho as (_ & _ & Hid & _). simpl. rewrite Hid. by exists d.
Qed.

Lemma joined_planned t cap rows os :
  Forall2 (output_for cap) rows os -> Forall (row_stored t) rows ->
  Forall (fun o => 0 < amount_zat o <= liability_amount_zat o) os ->
  Forall (fun p => 0 <= it_amount_zat (fst p) <= item_liability (fst p) /\
                   is_ok (ReceiverKind_parse (pd_receiver_kind (snd p))) = true)
    (omap (fun i => (fun d => (i, d)) <$> destinations t !! it_destination_id i) (item_of <$> os)).
Proof.
  intros Hf Hs Ho. induction Hf as [|row o rows os Hrow _ IH]; [constructor|].
  apply Forall_cons in Hs as [(d & Hd & Hk & _) Hs]. apply Forall_cons in Ho as [Ho Hos].
  rewrite fmap_cons. cbn [omap list_omap]. destruct Hrow as (_ & _ & Hid & Hp & _).
  change (it_destination_id (item_of o)) with (pi_destination_id o). rewrite Hid, Hd. cbn [fmap option_fmap option_map].
  constructor; [|by apply IH]. cbn [fst snd]. rewrite Hk, Hp. split; [|done].
  unfold item_liability. cbn. lia.
Qed.

(** A stored batch reads back as the plan, up to the order of its outputs. *)
Lemma stored_outputs t id cap rows plan :
  items t !! id = Some (item_of <$> pp_outputs plan) ->
  Forall2 (output_for cap) rows (pp_outputs plan) -> Forall (row_stored t) rows -> batch_wf plan ->
  (exists os m q, load_outputs (item_rows t id) 0 0 = Ok (os, m, q)) /\
  output_amounts <$> batch_outputs t id ≡ₚ output_amounts <$> pp_outputs plan.
Proof.
  intros Hi Hf Hs (Hpos & Hne & Hfee & Hl & Hq & _ & Hsum & Hmax).
  pose proof (planned_items_bound _ _ _ _ Hf Hs) as Hb.
  assert (fst <$> item_rows t id ≡ₚ item_of <$> pp_outputs plan) as Hperm.
  { unfold item_rows. rewrite sort_by_perm, Hi. cbn [default]. by rewrite joined_items. }
  assert (forall f : PayoutItem -> Z, sumZ ((fun p => f (fst p)) <$> item_rows t id) =
                       sumZ ((fun o => f (item_of o)) <$> pp_outputs plan)) as Hsums.
  { intros f. transitivity (sumZ (f <$> (fst <$> item_rows t id))); [by rewrite <- list_fmap_compose|].
    rewrite (sumZ_perm _ (f <$> (item_of <$> pp_outputs plan))) by by apply fmap_Permutation.
    by rewrite <- list_fmap_compose. }
  assert (is_ok (load_outputs (item_rows t id) 0 0) = true) as Hok.
  { apply load_outputs_Ok_2; try lia.
    - unfold item_rows. rewrite sort_by_perm, Hi. by eapply joined_planned.
    - rewrite (Hsums item_liability). change (sumZ (liabilities (pp_outputs plan)) <= U64_MAX). lia.
    - rewrite (Hsums it_amount_zat). change (sumZ (amount_zat <$> pp_outputs plan) <= U64_MAX). lia. }
  destruct (load_outputs (item_rows t id) 0 0) as [[[os m] q]|] eqn:Hload; [|done].
  split; [by eexists _, _, _|]. unfold batch_outputs. rewrite Hload.
  rewrite (load_outputs_amounts t id os m q); [|by rewrite Hi|done].
  rewrite Hi. change (item_amounts <$> (item_of <$> pp_outputs plan) ≡ₚ output_amounts <$> pp_outputs plan).
  by rewrite <- list_fmap_compose.
Qed.

Lemma reservation_line_perm os os' who label :
  output_amounts <$> os ≡ₚ output_amounts <$> os' ->
  reservation_line os who label = reservation_line os' who label.
Proof.
  intros Hp. destruct who as [a|]; [|done]. unfold reservation_line.
  destruct (account_sum_amounts os os' a Hp) as [-> _]. done.
Qed.

(** ** The selection query *)

Section Selection.
Context {env : StoreEnv}.

(** Where a selected row was read from. *)
Definition row_from (db : Db) (chain : Chain) (minimum : Z) (r : EligibleRow) : Prop :=
  exists d, destinations (pay db) !! el_destination_id r = Some d /\
    eligible_row db chain minimum (el_destination_id r, d) = Some r.

Lemma eligible_row_Some db chain minimum p r :
  eligible_row db chain minimum p = Some r ->
  let d := snd p in
  el_account_id r = pd_account_id d /\ el_destination_id r = fst p /\ el_address r = pd_address d /\
  el_receiver_kind r = pd_receiver_kind d /\ pd_chain d = chain /\ pd_state d = DestinationActive /\
  pd_automatic d = true /\
  el_amount_zat r = - entry_sum (payable_amounts db chain (pd_account_id d)) /\
  Z.max (pd_payout_threshold_zat d) minimum <= el_amount_zat r /\
  (forall id' d', destinations (pay db) !! id' = Some d' -> pd_account_id d' = pd_account_id d ->
     pd_chain d' = chain -> pd_state d' <> DestinationPending).
Proof.
  unfold eligible_row. intros H. case_match eqn:E; [|done]. simplify_eq. boolprop.
  cbn [el_account_id el_destination_id el_address el_receiver_kind el_amount_zat]. destruct_and!.
  split_and!; try done. intros id' d' Hd Ha Hc Hp.
  match goal with Hx : existsb _ _ = false |- _ => apply not_true_iff_false in Hx; apply Hx end.
  apply existsb_exists. exists (id', d'). split; [by apply list_elem_of_In, elem_of_map_to_list|].
  by apply bool_decide_eq_true_2.
Qed.

Lemma eligible_rows_from db chain minimum : Forall (row_from db chain minimum) (eligible_rows db chain minimum).
Proof.
  apply Forall_forall. intros r Hr. unfold eligible_rows in Hr. rewrite sort_by_perm in Hr.
  apply list_elem_of_omap in Hr as ([id d] & Hp & He). apply elem_of_map_to_list in Hp.
  pose proof (eligible_row_Some _ _ _ _ _ He) as (_ & Hid & _). cbn [fst] in Hid.
  exists d. rewrite Hid. done.
Qed.

Lemma selected_rows_from db chain minimum maximum :
  Forall (row_from db chain minimum) (selected_rows db chain minimum maximum).
Proof.
  unfold selected_rows. apply Forall_take. pose proof (eligible_rows_from db chain minimum) as H.
  destruct chain, (eligible_rows db _ minimum) as [|r rows] eqn:E; try done.
  apply Forall_forall. intros x [_ Hx]%list_elem_of_filter. rewrite Forall_forall in H. by apply H.
Qed.

Lemma payout_rows_lookup fresh rows i row :
  payout_rows fresh rows !! i = Some row ->
  exists r, rows !! i = Some r /\ row = mkPayoutRow (fresh i) (el_account_id r) (el_destination_id r)
    (el_receiver_kind r) (el_address r) (el_amount_zat r).
Proof.
  unfold payout_rows. rewrite list_lookup_imap. intros (r & Hr & Heq)%fmap_Some. by exists r.
Qed.

Lemma payout_rows_stored db chain minimum maximum fresh :
  Forall (row_stored (pay db)) (payout_rows fresh (selected_rows db chain minimum maximum)).
Proof.
  apply Forall_lookup. intros i row (r & Hr & ->)%payout_rows_lookup.
  pose proof (selected_rows_from db chain minimum maximum) as Hf. rewrite Forall_lookup in Hf.
  destruct (Hf i r Hr) as (d & Hd & (H1 & H2 & H3 & H4 & _)%eligible_row_Some). exists d. cbn in *. by split_and!.
Qed.

(** ** Activating destinations *)

Lemma activate_one_receivers d0 d due chain :
  rows_kept d0 d -> d0 !! fst due = Some (snd due) -> rows_kept d0 (activate_one chain d due).
Proof.
  intros Hk Hdue id x Hx. unfold activate_one.
  destruct (decide (id = fst due)) as [->|Hne].
  - rewrite lookup_insert_eq. eexists. split; [done|]. rewrite Hdue in Hx. simplify_eq. done.
  - rewrite lookup_insert_ne, lookup_fmap by done. destruct (Hk id x Hx) as (y & Hy & Hs).
    rewrite Hy. cbn. eexists. split; [done|]. by case_bool_decide.
Qed.

Lemma activate_receivers db now chain :
  receivers_kept (pay db) (pay (activate_due_payout_destinations db now chain)).
Proof.
  set (d0 := destinations (pay db)).
  assert (forall l d, Forall (fun p => d0 !! fst p = Some (snd p)) l ->
    rows_kept d0 d -> rows_kept d0 (foldl (activate_one chain) d l)) as Hl.
  { induction l as [|p l IH]; intros d Hf Hd; cbn [foldl]; [done|].
    apply Forall_cons in Hf as [Hp Hf]. apply IH; [done|]. by apply activate_one_receivers. }
  apply Hl; [|intros id x Hx; by exists x].
  rewrite sort_by_perm. apply Forall_forall. intros [id x] [_ Hx]%list_elem_of_filter.
  by apply elem_of_map_to_list in Hx.
Qed.

(** ** A created batch *)

Lemma insert_ledger_tables db id c kind ev ref es db' :
  insert_ledger db id c kind ev ref es = Ok db' -> pay db' = pay db /\ chn db' = chn db.
Proof. unfold insert_ledger. intros H. run_steps H. by simplify_eq. Qed.


(** The sealed row, with its items. *)
Definition sealed_draft (db1 : Db) (now : Z) (batch_id : Uuid) (chain : Chain) (policy : ChainPolicy)
    (key reconciliation_id : Uuid) (root : list Z) (cutoff : Z) (its : list PayoutItem) : Db :=
  set_pay db1
    (set_items (set_batches (pay db1)
       (<[batch_id := mkPayoutBatchRow chain (cp_policy_version policy) key Draft now
            (Some (mkBatchSeal reconciliation_id root cutoff)) None None]> (batches (pay db1))))
       (<[batch_id := its]> (items (pay db1)))).

(** What every created batch went through. *)
Definition created_from (db : Db) (now : Z) (fresh : nat -> Uuid) (draws : option (list Z))
    (batch_id ledger_id : Uuid) (chain : Chain) (key reconciliation_id : Uuid)
    (policy : ChainPolicy) (cap : Z) (plan : PlannedPayout) (es : list LedgerEntry) (db1 : Db)
    (sealed : LedgerSnapshot) : Prop :=
  let act := activate_due_payout_destinations db now chain in
  batches (pay db) !! batch_id = None /\
  (forall id row, batches (pay db) !! id = Some row -> br_idempotency_key row <> key) /\
  (forall id row s, batches (pay db) !! id = Some row -> br_seal row = Some s ->
     bs_reconciliation_id s <> reconciliation_id) /\
  lock_unfrozen_chain (led db) chain = Ok tt /\
  (exists checkpoint snapshot,
     load_usable_wallet_reconciliation act now chain reconciliation_id = Ok checkpoint /\
     ledger_snapshot (led db) chain None = Ok snapshot /\
     rec_ledger_root checkpoint = ls_root snapshot /\
     rec_wallet_spendable_zat checkpoint = ls_collector_spendable_zat snapshot) /\
  policies (led db) !! chain = Some policy /\
  random_payout_cap draws (cp_minimum_payout_zat policy) (cp_maximum_payout_zat policy)
    (cp_payout_skip_bps policy) = Ok (Some cap) /\
  plan_payout_batch (payout_rows fresh (selected_rows act chain (cp_minimum_payout_zat policy)
                       (cp_maximum_payout_outputs policy))) cap
    (cp_maximum_network_fee_zat policy) (cp_maximum_network_fee_bps policy) = Ok plan /\
  NoDup (pi_account_id <$> pp_outputs plan) /\
  reservation_entries (pp_outputs plan) = Ok es /\
  insert_ledger act ledger_id chain "payout_reserved" None (env_uuid_text batch_id) es = Ok db1 /\
  ledger_snapshot (led db1) chain (Some (next_sequence (led db))) = Ok sealed.

Lemma reconciliation_fresh db rid : reconciliation_consumed db rid = false ->
  forall id row s, batches (pay db) !! id = Some row -> br_seal row = Some s ->
    bs_reconciliation_id s <> rid.
Proof.
  intros Hx id row s Hrow Hs Heq. apply not_true_iff_false in Hx. apply Hx, existsb_exists.
  exists (id, row). split; [by apply list_elem_of_In, elem_of_map_to_list|].
  cbn [snd]. rewrite Hs. by apply Z.eqb_eq.
Qed.

Lemma idempotency_fresh (m : gmap Z PayoutBatchRow) key :
  filter (fun p => br_idempotency_key (snd p) = key) (map_to_list m) = [] ->
  forall id row, m !! id = Some row -> br_idempotency_key row <> key.
Proof.
  intros Hf id row Hrow Heq. assert ((id, row) ∈ ([] : list (Z * PayoutBatchRow))) as Hx; [|by apply not_elem_of_nil in Hx].
  rewrite <- Hf. apply list_elem_of_filter. split; [done|]. by apply elem_of_map_to_list.
Qed.

Lemma create_payout_batch_cases (P : Db -> Prop) db now fresh draws bid lid chain key rid :
  P db -> P (activate_due_payout_destinations db now chain) ->
  (forall policy cap plan es db1 sealed,
     created_from db now fresh draws bid lid chain key rid policy cap plan es db1 sealed ->
     P (sealed_draft db1 now bid chain policy key rid (ls_root sealed) (next_sequence (led db))
          (item_of <$> pp_outputs plan))) ->
  P (fst (create_payout_batch db now fresh draws bid lid chain key rid)).
Proof.
  intros H0 Hact HS. unfold create_payout_batch. case_match; [done|].
  apply (transaction_cases P); [done|]. intros db' r H'. run_steps H'.
  all: injection H' as <- <-; try done.
  match goal with Hi : insert_items _ _ = Ok _, Hl : insert_ledger _ _ _ _ _ _ _ = Ok _,
                  Hp : ok_or (policies _ !! _) _ = Ok _, Hu : lock_unfrozen_chain _ _ = Ok ?u |- _ =>
    apply insert_items_Ok in Hi as [-> Hn]; apply ok_or_Ok in Hp; destruct u;
    pose proof (insert_ledger_tables _ _ _ _ _ _ _ _ Hl) as [Hpay _] end.
  boolprop. eapply HS. split_and!; try eassumption.
  - by apply eq_None_not_Some.
  - by apply idempotency_fresh.
  - match goal with Hc : reconciliation_consumed _ _ = false |- _ =>
      pose proof (reconciliation_fresh _ _ Hc) as Hr end. rewrite Hpay in Hr. exact Hr.
  - eexists _, _. split_and!; try eassumption. by apply dec_stable.
  - specialize (Hn ltac:(constructor)). cbn [app] in Hn. by rewrite <- list_fmap_compose in Hn.
Qed.
End Selection.
