(* ===== verification/StoreInv.v ===== *)
(** The invariant of the store: the ledger is the balance sheet of [Books], and the rows the
    winner and payout transitions read back describe the movements they must undo.  Every
    operation of crates/wcash-pool-store/src/postgres.rs preserves it. *)

From Stdlib Require Import ZArith Lia.
From stdpp Require Import prelude gmap sorting strings.
From S2P Require Import Prelude Wire Backend Hex LargestRemainder Pplns PayoutFees Ledger PayoutRequest StoreDb PayoutStore Configuration WinnerStore Books BatchPlan.
Open Scope Z_scope.

(** ** The balance sheet *)

Definition winner_balance (t : ChainTables) (key : Chain * list Z) (row : WinnerRecord)
    (who : option Uuid) (label : string) : Z :=
  match wn_state row, wn_active_observation_event_seq row with
  | Observed, Some o => observed_line t key (wn_reward_zat row) o who label
  | Matured, Some o => matured_line t key (wn_reward_zat row) o who label
  | _, _ => 0
  end.

(** An open batch holds its liabilities pending; a settled one has taken the outputs and the fee
    from the collector and from its miners; a released one has left no trace. *)
Definition batch_balance (t : PayoutTables) (id : Uuid) (row : PayoutBatchRow)
    (who : option Uuid) (label : string) : Z :=
  let os := batch_outputs t id in
  match br_state row with
  | Cancelled | Expired => 0
  | Confirmed | Reorged =>
      match br_signed row with
      | Some f =>
          match allocate_actual_network_fee os (sf_network_fee_zat f), who with
          | Ok _, None => settlement_line (sumZ (amount_zat <$> os)) (sf_network_fee_zat f) label
          | Ok cs, Some a => if decide (label = "miner_payable"%string) then settled_sum a os cs else 0
          | Err _, _ => 0
          end
      | None => 0
      end
  | _ => reservation_line os who label
  end.

Definition opening_kind : string := "operator_capital_funded".

(** The collector surplus recognised before accounting began. *)
Definition opening_balance (l : list LedgerTransaction) (c : Chain) (who : option Uuid)
    (label : string) : Z :=
  owner_sum who label (chain_entries (filter (fun x => lt_kind x = opening_kind) l) c).

Definition books (db : Db) (c : Chain) (who : option Uuid) (label : string) : Z :=
  opening_balance (ledger (led db)) c who label
  + table_sum (fun key row => if decide (fst key = c) then winner_balance (chn db) key row who label else 0)
      (winners (chn db))
  + table_sum (fun id row => if decide (br_chain row = c) then batch_balance (pay db) id row who label else 0)
      (batches (pay db)).

(** ** The invariant *)

Definition has_event (l : list LedgerTransaction) (e : Z) (kind : string) : Prop :=
  Exists (fun x => lt_event_seq x = Some e /\ lt_kind x = kind) l.

(** The ledger still holds the lines of the active observation, and of the active maturity. *)
Definition observed_ok (t : ChainTables) (l : list LedgerTransaction) (key : Chain * list Z)
    (reward o : Z) : Prop :=
  has_event l o "winner_observed" /\
  (forall who label, owner_sum who label (event_entries l (Some o) None) =
                     observed_line t key reward o who label) /\
  alloc_total t key o <= reward.

Definition matured_ok (t : ChainTables) (l : list LedgerTransaction) (key : Chain * list Z)
    (reward o m : Z) : Prop :=
  has_event l m "winner_matured" /\
  (forall who label, owner_sum who label (event_entries l None (Some m)) =
                     matured_line t key reward o who label - observed_line t key reward o who label).

Definition winner_ok (t : ChainTables) (l : list LedgerTransaction) (key : Chain * list Z)
    (row : WinnerRecord) : Prop :=
  match wn_state row, wn_active_observation_event_seq row, wn_active_maturity_event_seq row with
  | Observed, Some o, None => observed_ok t l key (wn_reward_zat row) o
  | Matured, Some o, Some m =>
      observed_ok t l key (wn_reward_zat row) o /\ matured_ok t l key (wn_reward_zat row) o m
  | (Submitted | SideChain | Quarantined | Requeued | Orphaned), None, None => True
  | _, _, _ => False
  end.

(** A batch can be read back, and has signed facts exactly when its state says so. *)
Definition batch_ok (t : PayoutTables) (id : Uuid) (row : PayoutBatchRow) : Prop :=
  is_Some (items t !! id) /\
  (exists os m q, load_outputs (item_rows t id) 0 0 = Ok (os, m, q)) /\
  match br_state row with
  | Draft | Signing | Cancelled => br_signed row = None
  | Confirmed | Reorged =>
      exists f cs, br_signed row = Some f /\ 0 <= sf_network_fee_zat f /\
        allocate_actual_network_fee (batch_outputs t id) (sf_network_fee_zat f) = Ok cs
  | _ => exists f, br_signed row = Some f /\ 0 <= sf_network_fee_zat f
  end.

Definition opening_ok (x : LedgerTransaction) : Prop :=
  lt_kind x = opening_kind ->
  exists s, 0 <= s /\ lt_entries x = [(None, "collector_spendable_asset"%string, s);
                                      (None, "pool_equity"%string, - s)].

(** [b] bounds the event sequences the allocations were made at. *)
Record store_inv (b : Z) (db : Db) : Prop := {
  si_books : forall c who label, owner_balance (led db) c who label = books db c who label;
  si_core : Forall (fun x => core_sum (lt_entries x) = 0) (ledger (led db));
  si_opening : Forall opening_ok (ledger (led db));
  si_winners : map_Forall (winner_ok (chn db) (ledger (led db))) (winners (chn db));
  si_allocations : Forall (fun r => al_observation_event_seq r <= b /\ 0 <= al_amount_zat r)
                     (winner_allocations (chn db));
  si_items : map_Forall (fun _ its => items_bound (pay db) its) (items (pay db));
  si_batches : map_Forall (batch_ok (pay db)) (batches (pay db))
}.

(** ** Appending transactions *)

(** A transaction the unique index on (event, kind) admits. *)
Definition fresh_event (l : list LedgerTransaction) (x : LedgerTransaction) : Prop :=
  forall e, lt_event_seq x = Some e -> ~ has_event l e (lt_kind x).

Lemma event_entries_app l1 l2 o m : event_entries (l1 ++ l2) o m = event_entries l1 o m ++ event_entries l2 o m.
Proof. unfold event_entries. by rewrite filter_app, fmap_app, join_app. Qed.

Lemma event_entries_one x o m :
  event_entries [x] o m =
  if event_matches o "winner_observed" x || event_matches m "winner_matured" x then lt_entries x else [].
Proof.
  unfold event_entries. rewrite filter_cons, filter_nil.
  destruct (event_matches o "winner_observed" x || event_matches m "winner_matured" x); case_decide; try done.
  cbn. by rewrite app_nil_r.
Qed.

Lemma event_matches_true s kind x :
  event_matches (Some s) kind x = true <-> lt_event_seq x = Some s /\ lt_kind x = kind.
Proof. unfold event_matches. rewrite andb_true_iff, bool_decide_eq_true, String.eqb_eq. done. Qed.

(** A transaction is never both the observation and the maturity of an event. *)
Lemma event_entries_split l o m who label :
  owner_sum who label (event_entries l o m) =
  owner_sum who label (event_entries l o None) + owner_sum who label (event_entries l None m).
Proof.
  induction l as [|x l IH]; [done|]. rewrite !(event_entries_app [x] l), !owner_sum_app, IH.
  rewrite !event_entries_one. cbn [event_matches orb]. rewrite orb_false_r.
  destruct (event_matches o "winner_observed" x) eqn:E1, (event_matches m "winner_matured" x) eqn:E2; cbn [orb];
    rewrite ?owner_sum_nil; try lia.
  exfalso. destruct o as [o|], m as [m|]; try done.
  apply event_matches_true in E1 as [_ E1]. apply event_matches_true in E2 as [_ E2]. congruence.
Qed.

Lemma observed_ok_snoc t l x key reward o :
  fresh_event l x -> observed_ok t l key reward o -> observed_ok t (l ++ [x]) key reward o.
Proof.
  intros Hf (He & Hs & Ht). split_and!; [by apply Exists_app; left| |done].
  intros who label. rewrite event_entries_app, owner_sum_app, Hs, event_entries_one. cbn [event_matches].
  rewrite orb_false_r. case_match eqn:E; [|rewrite owner_sum_nil; lia].
  apply (event_matches_true o "winner_observed" x) in E as [E1 E2]. exfalso. apply (Hf o); [done|]. by rewrite E2.
Qed.

Lemma matured_ok_snoc t l x key reward o m :
  fresh_event l x -> matured_ok t l key reward o m -> matured_ok t (l ++ [x]) key reward o m.
Proof.
  intros Hf (He & Hs). split; [by apply Exists_app; left|].
  intros who label. rewrite event_entries_app, owner_sum_app, Hs, event_entries_one. cbn [event_matches orb].
  case_match eqn:E; [|rewrite owner_sum_nil; lia].
  apply (event_matches_true m "winner_matured" x) in E as [E1 E2]. exfalso. apply (Hf m); [done|]. by rewrite E2.
Qed.

Lemma winner_ok_snoc t l x key row :
  fresh_event l x -> winner_ok t l key row -> winner_ok t (l ++ [x]) key row.
Proof.
  intros Hf. unfold winner_ok. repeat case_match; try done.
  - by apply observed_ok_snoc.
  - intros [Ho Hm]. split; [by apply observed_ok_snoc|by apply matured_ok_snoc].
Qed.

(** Other winners do not see the allocations of this one. *)
Definition allocs_kept (t t' : ChainTables) (key : Chain * list Z) : Prop :=
  (forall o a, alloc_amount t' key o a = alloc_amount t key o a) /\
  (forall o, alloc_total t' key o = alloc_total t key o).

Lemma allocs_kept_refl t key : allocs_kept t t key.
Proof. done. Qed.

Lemma observed_line_kept t t' key reward o who label :
  allocs_kept t t' key -> observed_line t' key reward o who label = observed_line t key reward o who label.
Proof. intros [H1 H2]. unfold observed_line. destruct who; by rewrite ?H1, ?H2. Qed.

Lemma matured_line_kept t t' key reward o who label :
  allocs_kept t t' key -> matured_line t' key reward o who label = matured_line t key reward o who label.
Proof. intros [H1 H2]. unfold matured_line. destruct who; by rewrite ?H1, ?H2. Qed.

Lemma winner_balance_kept t t' key row who label :
  allocs_kept t t' key -> winner_balance t' key row who label = winner_balance t key row who label.
Proof.
  intros Hk. unfold winner_balance. repeat case_match; try done;
    [by apply observed_line_kept|by apply matured_line_kept].
Qed.

Lemma winner_ok_kept t t' l key row : allocs_kept t t' key -> winner_ok t l key row -> winner_ok t' l key row.
Proof.
  intros Hk. pose proof Hk as [Hka Hkt]. unfold winner_ok, observed_ok, matured_ok. repeat case_match; try done.
  - intros (Ha & Hb & Hc). split_and!; [done| |by rewrite Hkt]. intros. by rewrite Hb, (observed_line_kept t t').
  - intros ((Ha & Hb & Hc) & Hd & He). split_and!; [done| |by rewrite Hkt|done|].
    + intros. by rewrite Hb, (observed_line_kept t t').
    + intros. by rewrite He, (matured_line_kept t t'), (observed_line_kept t t').
Qed.

Lemma opening_balance_snoc l x c who label :
  opening_balance (l ++ [x]) c who label =
  opening_balance l c who label +
  (if decide (lt_kind x = opening_kind /\ lt_chain x = c) then owner_sum who label (lt_entries x) else 0).
Proof.
  unfold opening_balance. rewrite filter_app, filter_cons, filter_nil.
  destruct (decide (lt_kind x = opening_kind)) as [E|E].
  - rewrite owner_sum_snoc. f_equal. by repeat case_decide; naive_solver.
  - rewrite app_nil_r. case_decide as F; [naive_solver|]. lia.
Qed.

(** ** Steps of the invariant *)

(** What a step appends to the ledger: nothing, or one transaction. *)
Definition appended (db : Db) (ox : option LedgerTransaction) (db' : Db) : Prop :=
  ledger (led db') = match ox with Some x => ledger (led db) ++ [x] | None => ledger (led db) end.

(** The effect of the appended transaction on an account. *)
Definition moved (ox : option LedgerTransaction) (c : Chain) (who : option Uuid) (label : string) : Z :=
  match ox with
  | Some x => if decide (lt_chain x = c) then owner_sum who label (lt_entries x) else 0
  | None => 0
  end.

Definition plain (l : list LedgerTransaction) (ox : option LedgerTransaction) : Prop :=
  match ox with
  | Some x => fresh_event l x /\ core_sum (lt_entries x) = 0 /\ lt_kind x <> opening_kind
  | None => True
  end.

Lemma owner_balance_appended db ox db' c who label : appended db ox db' ->
  owner_balance (led db') c who label = owner_balance (led db) c who label + moved ox c who label.
Proof.
  unfold appended, owner_balance. intros ->. destruct ox as [x|]; cbn [moved].
  - by rewrite owner_sum_snoc.
  - lia.
Qed.

Lemma opening_appended db ox db' c who label :
  appended db ox db' -> plain (ledger (led db)) ox ->
  opening_balance (ledger (led db')) c who label = opening_balance (ledger (led db)) c who label.
Proof.
  unfold appended. intros ->. destruct ox as [x|]; cbn [plain]; [|done].
  intros (_ & _ & Hk). rewrite opening_balance_snoc. case_decide; [naive_solver|lia].
Qed.

Lemma core_appended db ox db' :
  appended db ox db' -> plain (ledger (led db)) ox ->
  Forall (fun x => core_sum (lt_entries x) = 0) (ledger (led db)) ->
  Forall (fun x => core_sum (lt_entries x) = 0) (ledger (led db')).
Proof.
  unfold appended. intros -> Hp H. destruct ox as [x|]; [|done].
  apply Forall_app. split; [done|]. apply Forall_singleton. apply Hp.
Qed.

Lemma opening_ok_appended db ox db' :
  appended db ox db' -> plain (ledger (led db)) ox ->
  Forall opening_ok (ledger (led db)) -> Forall opening_ok (ledger (led db')).
Proof.
  unfold appended. intros -> Hp H. destruct ox as [x|]; [|done].
  apply Forall_app. split; [done|]. apply Forall_singleton. intros Hk. exfalso. by apply Hp.
Qed.

Lemma winners_appended t db ox db' key row :
  appended db ox db' -> plain (ledger (led db)) ox ->
  winner_ok t (ledger (led db)) key row -> winner_ok t (ledger (led db')) key row.
Proof.
  unfold appended. intros -> Hp H. destruct ox as [x|]; [|done].
  apply winner_ok_snoc; [apply Hp|done].
Qed.

Lemma batch_ok_kept t t' id row :
  is_Some (items t' !! id) ->
  load_outputs (item_rows t' id) 0 0 = load_outputs (item_rows t id) 0 0 ->
  batch_ok t id row -> batch_ok t' id row.
Proof. intros Hi Hl. unfold batch_ok, batch_outputs. rewrite Hl. by intros (_ & H2 & H3). Qed.

(** A batch changes its row; its items and their destinations stay. *)
Lemma inv_batch_step b db db' id row row' ox :
  store_inv b db -> chn db' = chn db ->
  items (pay db') = items (pay db) -> destinations (pay db') = destinations (pay db) ->
  batches (pay db) !! id = Some row -> batches (pay db') = <[id := row']> (batches (pay db)) ->
  br_chain row' = br_chain row -> batch_ok (pay db) id row' ->
  appended db ox db' -> plain (ledger (led db)) ox ->
  (forall c who label, moved ox c who label =
     if decide (br_chain row = c)
     then batch_balance (pay db) id row' who label - batch_balance (pay db) id row who label else 0) ->
  store_inv b db'.
Proof.
  intros Hinv Hc Hi Hd Hrow Hb Hch Hok Ha Hp Hm.
  assert (forall j, load_outputs (item_rows (pay db') j) 0 0 = load_outputs (item_rows (pay db) j) 0 0) as Hload
    by (intros j; unfold item_rows; by rewrite Hi, Hd).
  assert (forall j, batch_outputs (pay db') j = batch_outputs (pay db) j) as Hout
    by (intros j; unfold batch_outputs; by rewrite Hload).
  assert (forall j r who label, batch_balance (pay db') j r who label = batch_balance (pay db) j r who label) as Hbal
    by (intros; unfold batch_balance; by rewrite Hout).
  destruct Hinv as [Hbooks Hcore Hopen Hwin Hall Hitems Hbatches]. constructor.
  - intros c who label. rewrite (owner_balance_appended db ox db') by done. rewrite Hbooks, Hm.
    unfold books. rewrite (opening_appended db ox db'), Hc, Hb by done.
    rewrite (table_sum_ext (fun j r => if decide (br_chain r = c) then batch_balance (pay db') j r who label else 0)
      (fun j r => if decide (br_chain r = c) then batch_balance (pay db) j r who label else 0))
      by (intros; by rewrite Hbal).
    rewrite (table_sum_update _ _ _ row row' Hrow), Hch. case_decide; lia.
  - by apply (core_appended db ox).
  - by apply (opening_ok_appended db ox).
  - rewrite Hc. intros key w Hw. apply (winners_appended _ db ox db'); auto.
  - by rewrite Hc.
  - rewrite Hi. intros j its Hj. unfold items_bound. rewrite Hd. by apply (Hitems j).
  - rewrite Hb. assert (forall j r, batch_ok (pay db) j r -> batch_ok (pay db') j r) as Hkept
      by (intros j r Hr; apply (batch_ok_kept (pay db)); [rewrite Hi; apply Hr|done..]).
    apply map_Forall_insert_2; [by apply Hkept|]. intros j r Hj. by apply Hkept, Hbatches.
Qed.

(** Tables the balance sheet does not read, and destinations that keep their receivers. *)
Lemma inv_frame b b' db db' :
  store_inv b db -> b <= b' -> ledger (led db') = ledger (led db) ->
  winners (chn db') = winners (chn db) -> winner_allocations (chn db') = winner_allocations (chn db) ->
  items (pay db') = items (pay db) -> batches (pay db') = batches (pay db) ->
  receivers_kept (pay db) (pay db') -> store_inv b' db'.
Proof.
  intros [Hbooks Hcore Hopen Hwin Hall Hitems Hbatches] Hle Hl Hw Ha Hi Hb Hk.
  assert (forall key, allocs_kept (chn db) (chn db') key) as Hka
    by (intros key; split; intros; unfold alloc_amount, alloc_total; by rewrite Ha).
  assert (forall j r, batches (pay db) !! j = Some r ->
    load_outputs (item_rows (pay db') j) 0 0 = load_outputs (item_rows (pay db) j) 0 0) as Hload.
  { intros j r Hj. apply load_outputs_stable; [by rewrite Hi|done|].
    destruct (Hbatches j r Hj) as ([its Hits] & _). rewrite Hits. by apply (Hitems j). }
  constructor.
  - intros c who label. unfold owner_balance in *. rewrite Hl, Hbooks. unfold books.
    rewrite Hl, Hw, Hb. f_equal; [f_equal|].
    + apply table_sum_ext. intros key row _. by rewrite (winner_balance_kept (chn db) (chn db')).
    + apply table_sum_ext. intros j r Hj. unfold batch_balance, batch_outputs. by rewrite (Hload j r).
  - by rewrite Hl.
  - by rewrite Hl.
  - rewrite Hl, Hw. intros key row Hrow. apply (winner_ok_kept (chn db)); [done|]. by apply Hwin.
  - rewrite Ha. eapply Forall_impl; [exact Hall|]. intros r [? ?]. simpl. lia.
  - rewrite Hi. intros j its Hj. specialize (Hitems j its Hj). unfold items_bound in *.
    eapply Forall_impl; [exact Hitems|]. intros i [d Hd]. destruct (Hk _ _ Hd) as (d' & Hd' & _). by exists d'.
  - rewrite Hb. intros j r Hj. apply (batch_ok_kept (pay db)); [|by apply (Hload j r)|by apply Hbatches].
    rewrite Hi. apply (Hbatches j r Hj).
Qed.

(** A new batch with its items. *)
Lemma inv_new_batch b db db' id row its ox :
  store_inv b db -> chn db' = chn db ->
  batches (pay db) !! id = None -> batches (pay db') = <[id := row]> (batches (pay db)) ->
  items (pay db') = <[id := its]> (items (pay db)) -> destinations (pay db') = destinations (pay db) ->
  items_bound (pay db) its -> batch_ok (pay db') id row ->
  appended db ox db' -> plain (ledger (led db)) ox ->
  (forall c who label, moved ox c who label =
     if decide (br_chain row = c) then batch_balance (pay db') id row who label else 0) ->
  store_inv b db'.
Proof.
  intros Hinv Hc Hnew Hb Hi Hd Hits Hok Ha Hp Hm.
  destruct Hinv as [Hbooks Hcore Hopen Hwin Hall Hitems Hbatches].
  assert (forall j r, batches (pay db) !! j = Some r -> j <> id) as Hne by (intros j r Hj ->; congruence).
  assert (forall j r, batches (pay db) !! j = Some r ->
    load_outputs (item_rows (pay db') j) 0 0 = load_outputs (item_rows (pay db) j) 0 0) as Hload.
  { intros j r Hj. unfold item_rows. by rewrite Hd, Hi, lookup_insert_ne by (symmetry; by eapply Hne). }
  constructor.
  - intros c who label. rewrite (owner_balance_appended db ox db') by done. rewrite Hbooks, Hm.
    unfold books. rewrite (opening_appended db ox db'), Hc, Hb, table_sum_fresh by done.
    rewrite (table_sum_ext (fun j r => if decide (br_chain r = c) then batch_balance (pay db') j r who label else 0)
      (fun j r => if decide (br_chain r = c) then batch_balance (pay db) j r who label else 0)).
    2:{ intros j r Hj. unfold batch_balance, batch_outputs. by rewrite (Hload j r). }
    case_decide; lia.
  - by apply (core_appended db ox).
  - by apply (opening_ok_appended db ox).
  - rewrite Hc. intros key w Hw. apply (winners_appended _ db ox db'); auto.
  - by rewrite Hc.
  - rewrite Hi. unfold items_bound in *. rewrite Hd. by apply map_Forall_insert_2.
  - rewrite Hb. apply map_Forall_insert_2; [done|]. intros j r Hj.
    apply (batch_ok_kept (pay db)); [|by apply (Hload j r)|by apply Hbatches].
    rewrite Hi, lookup_insert_ne by (symmetry; by eapply Hne). apply (Hbatches j r Hj).
Qed.

(** A winner changes its row, possibly with allocations of its own. *)
Lemma inv_winner_step b b' db db' key row row' ox :
  store_inv b db -> pay db' = pay db ->
  winners (chn db) !! key = Some row -> winners (chn db') = <[key := row']> (winners (chn db)) ->
  (forall k, k <> key -> allocs_kept (chn db) (chn db') k) ->
  Forall (fun r => al_observation_event_seq r <= b' /\ 0 <= al_amount_zat r) (winner_allocations (chn db')) ->
  appended db ox db' -> plain (ledger (led db)) ox ->
  winner_ok (chn db') (ledger (led db')) key row' ->
  (forall c who label, moved ox c who label =
     if decide (fst key = c)
     then winner_balance (chn db') key row' who label - winner_balance (chn db) key row who label else 0) ->
  store_inv b' db'.
Proof.
  intros [Hbooks Hcore Hopen Hwin Hall Hitems Hbatches] Hpay Hrow Hw Hk Hall' Ha Hp Hok Hm. constructor.
  - intros c who label. rewrite (owner_balance_appended db ox db') by done. rewrite Hbooks, Hm.
    unfold books. rewrite (opening_appended db ox db'), Hpay, Hw by done.
    rewrite <- (insert_delete_eq (winners (chn db)) key row'), table_sum_fresh by apply lookup_delete_eq.
    rewrite (table_sum_ext (fun k r => if decide (fst k = c) then winner_balance (chn db') k r who label else 0)
      (fun k r => if decide (fst k = c) then winner_balance (chn db) k r who label else 0)).
    2:{ intros k r Hr. rewrite (winner_balance_kept (chn db) (chn db')); [done|]. apply Hk.
        intros ->. by rewrite lookup_delete_eq in Hr. }
    rewrite <- (insert_id (winners (chn db)) key row Hrow) at 1.
    rewrite <- (insert_delete_eq (winners (chn db)) key row), table_sum_fresh by apply lookup_delete_eq.
    case_decide; lia.
  - by apply (core_appended db ox).
  - by apply (opening_ok_appended db ox).
  - rewrite Hw. intros k r Hr. destruct (decide (k = key)) as [->|Hne].
    + rewrite lookup_insert_eq in Hr. by simplify_eq.
    + rewrite lookup_insert_ne in Hr by done. apply (winner_ok_kept (chn db)); [by apply Hk|].
      apply (winners_appended _ db ox db'); auto.
  - done.
  - by rewrite Hpay.
  - by rewrite Hpay.
Qed.

(** ** Reading the operations *)

Lemma insert_ledger_Ok db id c kind ev ref es db' :
  insert_ledger db id c kind ev ref es = Ok db' ->
  let x := mkLedgerTransaction id (next_sequence (led db)) c kind ev ref es in
  db' = set_led db (mkLedgerTables (ledger (led db) ++ [x]) (next_sequence (led db) + 1)
                      (safety (led db)) (policies (led db))) /\
  ledger_guard es = Ok tt /\ fresh_event (ledger (led db)) x /\
  Forall (fun y => lt_id y <> id) (ledger (led db)) /\ forallb ledger_entry_check es = true.
Proof.
  unfold insert_ledger, insert_owned_ledger_transaction. intros H. run_steps H. simplify_eq.
  destruct (ledger_guard es) as [[]|]; [|done].
  assert (Forall (fun y => lt_id y <> id) (ledger (led db))) as Hid.
  { apply Forall_forall. intros y Hy Heq.
    match goal with Hf : existsb _ _ = false |- _ => apply not_true_iff_false in Hf; apply Hf end.
    apply existsb_exists. exists y. split; [by apply list_elem_of_In|by apply Z.eqb_eq]. }
  split_and!; try done; [|by boolprop].
  intros e He (y & Hy & Hye & Hyk)%Exists_exists. cbn [lt_event_seq lt_kind] in *. subst ev.
  match goal with Hf : (_ && existsb _ _)%bool = false |- _ =>
    apply not_true_iff_false in Hf; apply Hf end.
  apply andb_true_iff. split; [by apply bool_decide_eq_true_2|].
  apply existsb_exists. exists y. split; [by apply list_elem_of_In|].
  rewrite andb_true_iff, bool_decide_eq_true, String.eqb_eq. done.
Qed.

Lemma load_payout_batch_Ok db id batch : load_payout_batch db id = Ok batch ->
  exists row seal, batches (pay db) !! id = Some row /\ br_seal row = Some seal /\
    pb_id batch = id /\ pb_chain batch = br_chain row /\ pb_state batch = br_state row /\
    pb_policy_version batch = br_policy_version row /\
    pb_reconciliation_id batch = bs_reconciliation_id seal /\
    pb_ledger_root batch = bs_ledger_root seal /\
    pb_ledger_sequence_cutoff batch = bs_ledger_sequence_cutoff seal /\
    pb_outputs batch = batch_outputs (pay db) id /\ pb_outputs batch <> [] /\
    Forall (fun o => 0 <= amount_zat o <= liability_amount_zat o) (pb_outputs batch) /\
    pb_miner_total_zat batch = sumZ (liabilities (pb_outputs batch)) /\
    pb_payout_total_zat batch = sumZ (amount_zat <$> pb_outputs batch) /\
    pb_miner_total_zat batch <= U64_MAX /\
    pb_maximum_network_fee_zat batch = pb_miner_total_zat batch - pb_payout_total_zat batch.
Proof.
  unfold load_payout_batch, ok_or, exact_hash, u64_from, checked_sub. intros H. run_steps H. simplify_eq.
  match goal with Hl : load_outputs _ _ _ = Ok _ |- _ => pose proof Hl as Hload; apply load_outputs_Ok in Hl as
    (H1 & H2 & H3 & H4 & H5 & H6) end.
  boolprop. eexists _, _. split; [reflexivity|]. split; [eassumption|]. cbn. split_and!; try done.
  - unfold batch_outputs. by rewrite Hload.
  - intros ->. by apply Forall2_nil_inv_r in H1.
  - apply H5. unfold U64_MAX. lia.
Qed.

Definition open_state (s : PayoutBatchState) : bool :=
  match s with Cancelled | Expired | Confirmed | Reorged => false | _ => true end.

Lemma batch_balance_open t id row who label : open_state (br_state row) = true ->
  batch_balance t id row who label = reservation_line (batch_outputs t id) who label.
Proof. unfold batch_balance. by destruct (br_state row). Qed.

Lemma update_payout_state_Ok db id expected next db' :
  update_payout_state db id expected next = Ok db' ->
  exists row, batches (pay db) !! id = Some row /\ br_state row = expected /\
    db' = put_batch db id (set_state row next).
Proof.
  unfold update_payout_state. intros H. run_steps H. simplify_eq. boolprop. by eexists.
Qed.

(** The payout reference kinds are not the opening's. *)
Lemma plain_payout l id seq c kind ref es :
  core_sum es = 0 -> kind <> opening_kind ->
  plain l (Some (mkLedgerTransaction id seq c kind None ref es)).
Proof. intros. by split_and!. Qed.

(** A reserved batch is released: its lines are reversed and it leaves the sheet. *)
Lemma inv_release b db db1 db' lid id row next batch ref es :
  store_inv b db -> batches (pay db) !! id = Some row -> load_payout_batch db id = Ok batch ->
  open_state (br_state row) = true -> release_entries (pb_outputs batch) = Ok es ->
  insert_ledger db lid (pb_chain batch) "payout_released" None ref es = Ok db1 ->
  batch_ok (pay db) id (set_state row next) -> (next = Cancelled \/ next = Expired) ->
  led db' = led db1 -> chn db' = chn db1 -> items (pay db') = items (pay db1) ->
  destinations (pay db') = destinations (pay db1) ->
  batches (pay db') = <[id := set_state row next]> (batches (pay db1)) ->
  store_inv b db'.
Proof.
  intros Hinv Hrow Hload Hopen Hes Hins Hok Hnext Hl Hc Hi Hd Hb.
  apply load_payout_batch_Ok in Hload as (row' & seal & Hrow' & _ & _ & Hchain & _ & _ & _ & _ & _ & Hos & _).
  rewrite Hrow in Hrow'. simplify_eq.
  apply insert_ledger_Ok in Hins as (-> & _ & _ & _). apply release_entries_lines in Hes as [Hlines Hcore].
  set (x := mkLedgerTransaction lid (next_sequence (led db)) (pb_chain batch) "payout_released" None ref es) in *.
  assert (appended db (Some x) db') as Ha by (unfold appended; by rewrite Hl).
  assert (plain (ledger (led db)) (Some x)) as Hp by by apply plain_payout.
  apply (inv_batch_step b db db' id row' (set_state row' next) (Some x)); try done.
  intros c who label. unfold x. cbn [moved lt_chain lt_entries]. rewrite Hchain, Hlines, (batch_balance_open _ _ row'), Hos by done.
  unfold batch_balance. cbn [br_state set_state]. destruct Hnext as [-> | ->]; case_decide; lia.
Qed.

(** A transition between open states that leaves the ledger alone. *)
Lemma inv_open b db db' id row row' :
  store_inv b db -> batches (pay db) !! id = Some row ->
  open_state (br_state row) = true -> open_state (br_state row') = true ->
  br_chain row' = br_chain row -> batch_ok (pay db) id row' ->
  ledger (led db') = ledger (led db) -> chn db' = chn db -> items (pay db') = items (pay db) ->
  destinations (pay db') = destinations (pay db) ->
  batches (pay db') = <[id := row']> (batches (pay db)) ->
  store_inv b db'.
Proof.
  intros Hinv Hrow Ho Ho' Hch Hok Hl Hc Hi Hd Hb.
  eapply (inv_batch_step b db db' id row row' None); try done.
  intros c who label. cbn [moved]. rewrite !batch_balance_open by done. case_decide; lia.
Qed.

Section Payouts.
Context {env : StoreEnv}.

Lemma cancel_payout_draft_inv b db lid id :
  store_inv b db -> store_inv b (fst (cancel_payout_draft db lid id)).
Proof.
  intros Hinv. unfold cancel_payout_draft. apply (transaction_cases (store_inv b)); [done|]. intros db' r H. run_steps H. injection H as <- <-.
  match goal with Hu : update_payout_state _ _ _ _ = Ok _, Hi : insert_ledger _ _ _ _ _ _ _ = Ok _ |- _ =>
    pose proof Hi as Hins; apply insert_ledger_Ok in Hi as (-> & _); apply update_payout_state_Ok in Hu as (row & Hrow & Hst & ->)
  end.
  cbn [pay set_led] in Hrow. destruct (si_batches _ _ Hinv id row Hrow) as (Hi & Hl & Hs). rewrite Hst in Hs.
  eapply (inv_release b db _ _ lid id row Cancelled); try eassumption; try reflexivity; [by rewrite Hst| |by left].
  split_and!; done.
Qed.

Lemma cancel_rejected_payout_signing_inv b db lid id :
  store_inv b db -> store_inv b (fst (cancel_rejected_payout_signing db lid id)).
Proof.
  intros Hinv. unfold cancel_rejected_payout_signing. apply (transaction_cases (store_inv b)); [done|].
  intros db' r H. run_steps H. injection H as <- <-.
  match goal with Hu : update_payout_state _ _ _ _ = Ok _, Hi : insert_ledger _ _ _ _ _ _ _ = Ok _ |- _ =>
    pose proof Hi as Hins; apply insert_ledger_Ok in Hi as (-> & _);
    apply update_payout_state_Ok in Hu as (row & Hrow & Hst & ->) end.
  cbn [pay set_led] in Hrow. destruct (si_batches _ _ Hinv id row Hrow) as (Hi & Hl & Hs). rewrite Hst in Hs.
  eapply (inv_release b db _ _ lid id row Cancelled); try eassumption; try reflexivity; [by rewrite Hst| |by left].
  split_and!; done.
Qed.

Lemma expire_held_payout_inv b db now lid id e :
  store_inv b db -> store_inv b (fst (expire_held_payout db now lid id e)).
Proof.
  intros Hinv. unfold expire_held_payout. apply (transaction_cases (store_inv b)); [done|].
  intros db' r H. run_steps H; injection H as <- <-.
  all: match goal with Hu : update_payout_state _ _ _ _ = Ok _, Hi : insert_ledger _ _ _ _ _ _ _ = Ok _ |- _ =>
    pose proof Hi as Hins; apply insert_ledger_Ok in Hi as (-> & _);
    apply update_payout_state_Ok in Hu as (row & Hrow & Hst & ->) end.
  all: cbn [pay set_led set_pay batches set_expiry_finalized] in Hrow.
  all: destruct (si_batches _ _ Hinv id row Hrow) as (Hi & Hl & Hs); rewrite Hst in Hs.
  all: eapply (inv_release b db _ _ lid id row Expired); try eassumption; try reflexivity;
    [by rewrite Hst|by split_and!|by right].
Qed.

Lemma hold_expired_payout_inv b db now id e :
  store_inv b db -> store_inv b (fst (hold_expired_payout db now id e)).
Proof.
  intros Hinv. unfold hold_expired_payout. apply (transaction_cases (store_inv b)); [done|].
  intros db' r H. run_steps H; injection H as <- <-.
  all: match goal with Hu : update_payout_state _ _ _ _ = Ok _ |- _ =>
         apply update_payout_state_Ok in Hu as (row & Hrow & Hst & ->) end.
  all: cbn [pay set_pay batches set_expiry_held] in Hrow.
  all: destruct (si_batches _ _ Hinv _ row Hrow) as (Hi & Hl & Hs); rewrite Hst in Hs.
  all: eapply (inv_open b db _ id row (set_state row ExpiryPending)); try eassumption; try reflexivity;
    [by rewrite Hst|by split_and!].
Qed.

Lemma authorize_payout_signing_inv b db now id :
  store_inv b db -> store_inv b (fst (authorize_payout_signing db now id)).
Proof.
  intros Hinv. unfold authorize_payout_signing. case_match; [done|].
  apply (transaction_cases (store_inv b)); [done|]. intros db' r H'. run_steps H'. injection H' as <- <-.
  match goal with Hu : update_payout_state _ _ _ _ = Ok _ |- _ =>
    apply update_payout_state_Ok in Hu as (row & Hrow & Hst & ->) end.
  destruct (si_batches _ _ Hinv id row Hrow) as (Hi & Hl & Hs). rewrite Hst in Hs.
  eapply (inv_open b db _ id row (set_state row Signing)); try eassumption; try reflexivity;
    [by rewrite Hst|by split_and!].
Qed.

Lemma signing_payout_request_state db id : fst (signing_payout_request db id) = db.
Proof.
  unfold signing_payout_request. case_match; [done|].
  apply (transaction_cases (fun db' => db' = db)); [done|]. intros db' r H'. run_steps H'.
Qed.

Lemma authorize_payout_broadcast_inv b db id :
  store_inv b db -> store_inv b (fst (authorize_payout_broadcast db id)).
Proof.
  intros Hinv. unfold authorize_payout_broadcast. case_match; [done|].
  apply (transaction_cases (store_inv b)); [done|]. intros db' r H'. run_steps H'; injection H' as <- <-; try done.
  match goal with Hu : update_payout_state _ _ _ _ = Ok _ |- _ =>
    apply update_payout_state_Ok in Hu as (row & Hrow & Hst & ->) end.
  destruct (si_batches _ _ Hinv id row Hrow) as (Hi & Hl & Hs). rewrite Hst in Hs.
  eapply (inv_open b db _ id row (set_state row Broadcasting)); try eassumption; try reflexivity;
    [by rewrite Hst|by split_and!].
Qed.

Lemma transition_payout_Ok db id expected next signed unfrozen (P : Db -> Prop) :
  P db ->
  (forall row, batches (pay db) !! id = Some row -> br_state row = expected ->
     (forall facts, signed = Some facts -> signed_facts_allowed db id row facts = Ok tt) ->
     P (put_batch db id (set_signed row next signed))) ->
  P (fst (transition_payout db id expected next signed unfrozen)).
Proof.
  intros H0 HS. unfold transition_payout. apply (transaction_cases P); [done|]. intros db' r H.
  run_steps H; injection H as <- <-; boolprop.
  all: match goal with Hr : ok_or _ _ = Ok _, Hs : ~ _ <> _ |- _ =>
    apply ok_or_Ok in Hr; apply dec_stable in Hs; apply HS; [done|done|] end.
  all: intros facts ?; simplify_eq; by match goal with u : unit |- _ => destruct u end.
Qed.

Lemma mark_payout_signed_inv b db id facts : 0 <= sf_network_fee_zat facts ->
  store_inv b db -> store_inv b (fst (mark_payout_signed db id facts)).
Proof.
  intros Hfee Hinv. unfold mark_payout_signed. case_match; [done|]. apply transition_payout_Ok; [done|].
  intros row Hrow Hst _. destruct (si_batches _ _ Hinv id row Hrow) as (Hi & Hl & Hs).
  eapply (inv_open b db _ id row (set_signed row Signed (Some facts))); try eassumption; try reflexivity;
    [by rewrite Hst|]. split_and!; [done..|]. by exists facts.
Qed.

Lemma mark_payout_broadcast_inv b db id :
  store_inv b db -> store_inv b (fst (mark_payout_broadcast db id)).
Proof.
  intros Hinv. unfold mark_payout_broadcast. apply transition_payout_Ok; [done|]. intros row Hrow Hst _.
  destruct (si_batches _ _ Hinv id row Hrow) as (Hi & Hl & Hs). rewrite Hst in Hs.
  eapply (inv_open b db _ id row (set_signed row Broadcast None)); try eassumption; try reflexivity;
    [by rewrite Hst|by split_and!].
Qed.

(** The settlement lines turn a reserved batch into a settled one. *)
Lemma settle_balance t id row facts cs c who label :
  open_state (br_state row) = true -> br_signed row = Some facts ->
  allocate_actual_network_fee (batch_outputs t id) (sf_network_fee_zat facts) = Ok cs ->
  batch_balance t id (set_confirmation row c) who label - batch_balance t id row who label =
  confirmation_line (batch_outputs t id) cs who label +
  match who with
  | None => settlement_line (sumZ (amount_zat <$> batch_outputs t id)) (sf_network_fee_zat facts) label
  | Some _ => 0
  end.
Proof.
  intros Ho Hs Ha. rewrite (batch_balance_open t id row) by done. unfold batch_balance.
  cbn [br_state br_signed set_confirmation]. rewrite Hs, Ha. unfold confirmation_line, reservation_line.
  destruct who as [a|]; [|lia]. repeat case_decide; simplify_eq; lia.
Qed.

Lemma inv_confirm b db db1 lid id row facts c batch available outstanding ref es :
  store_inv b db -> batches (pay db) !! id = Some row -> load_payout_batch db id = Ok batch ->
  open_state (br_state row) = true -> br_signed row = Some facts -> 0 <= sf_network_fee_zat facts ->
  confirmation_entries (batch_amounts batch) (sf_network_fee_zat facts) available outstanding = Ok es ->
  insert_ledger db lid (pb_chain batch) "payout_confirmed" None ref es = Ok db1 ->
  store_inv b (put_batch db1 id (set_confirmation row c)).
Proof.
  intros Hinv Hrow Hload Hopen Hf Hfee Hes Hins.
  apply load_payout_batch_Ok in Hload as
    (row' & seal & Hrow' & _ & _ & Hchain & _ & _ & _ & _ & _ & Hos & _ & Hwf & Hm & Hp & Hmax & _).
  rewrite Hrow in Hrow'. simplify_eq.
  apply confirmation_entries_lines in Hes as (cs & Hcs & Hlines & Hcore); [|done|cbn [batch_amounts pp_outputs]; by rewrite <- Hm|done].
  cbn [batch_amounts pp_outputs pp_payout_total_zat] in *. rewrite Hp, Hos in *.
  apply insert_ledger_Ok in Hins as (-> & Hg & _ & _). apply ledger_guard_sum in Hg.
  destruct (si_batches _ _ Hinv id row' Hrow) as (Hi & Hl & _).
  set (x := mkLedgerTransaction lid (next_sequence (led db)) (pb_chain batch) "payout_confirmed" None ref es) in *.
  assert (plain (ledger (led db)) (Some x)) as Hplain by (apply plain_payout; [lia|done]).
  eapply (inv_batch_step b db _ id row' (set_confirmation row' c) (Some x)); try done.
  - split_and!; [done..|]. by exists facts, cs.
  - intros c' who label. unfold x. cbn [moved lt_chain lt_entries]. rewrite Hchain, Hlines.
    case_decide; [|done]. by rewrite (settle_balance _ _ _ facts cs) by done.
Qed.

Lemma confirm_payout_inv b db lid id c :
  store_inv b db -> store_inv b (fst (confirm_payout db lid id c)).
Proof.
  intros Hinv. unfold confirm_payout. case_match; [|done].
  apply (transaction_cases (store_inv b)); [done|]. intros db' r H'. run_steps H'; injection H' as <- <-.
  all: match goal with Hl : load_payout_batch _ _ = Ok _ |- _ =>
         pose proof (load_payout_batch_Ok _ _ _ Hl) as (row' & _ & Hrow' & _ & _ & _ & Hst & _) end.
  all: match goal with H1 : ok_or (batches _ !! _) _ = Ok _, H2 : ok_or (br_signed _) _ = Ok _,
                       H3 : u64_from _ _ = Ok _ |- _ =>
         apply ok_or_Ok in H1; apply ok_or_Ok in H2; unfold u64_from in H3; run_in H3 end.
  all: eapply inv_confirm; try eassumption.
  all: rewrite <- Hst; match goal with E : pb_state _ = _ |- _ => by rewrite E end.
Qed.

Lemma freeze_chain_payouts_ledger t c ev reason t' :
  freeze_chain_payouts t c ev reason = Ok t' -> ledger t' = ledger t /\ next_sequence t' = next_sequence t.
Proof. unfold freeze_chain_payouts. intros H. by run_in H. Qed.

Lemma mark_confirmed_payout_reorged_inv b db eid id e :
  store_inv b db -> store_inv b (fst (mark_confirmed_payout_reorged db eid id e)).
Proof.
  intros Hinv. unfold mark_confirmed_payout_reorged. case_match; [|done].
  apply (transaction_cases (store_inv b)); [done|]. intros db' r H'. run_steps H'; injection H' as <- <-.
  all: match goal with Hl : load_payout_batch _ _ = Ok _ |- _ =>
         pose proof (load_payout_batch_Ok _ _ _ Hl) as (row' & _ & Hrow' & _ & _ & _ & Hst & _) end.
  all: match goal with H1 : ok_or (batches _ !! _) _ = Ok ?row, Hf : freeze_chain_payouts _ _ _ _ = Ok _,
                       E : pb_state _ = Confirmed |- _ =>
         apply ok_or_Ok in H1; rewrite H1 in Hrow'; simplify_eq; rewrite E in Hst; symmetry in Hst;
         apply freeze_chain_payouts_ledger in Hf as [Hf _];
         destruct (si_batches _ _ Hinv id row' H1) as (Hi & Hl & Hs); rewrite Hst in Hs;
         eapply (inv_batch_step b db _ id row' (set_state row' Reorged) None); try eassumption; try done end.
  intros c who label. unfold batch_balance. cbn [moved br_state set_state br_signed]. rewrite Hst. case_decide; lia.
Qed.

Lemma receivers_kept_refl t t' : destinations t' = destinations t -> receivers_kept t t'.
Proof. intros Hd i d Hi. exists d. by rewrite Hd. Qed.

Lemma record_wallet_reconciliation_inv b db cid now o :
  store_inv b db -> store_inv b (fst (record_wallet_reconciliation db cid now o)).
Proof.
  intros Hinv. unfold record_wallet_reconciliation. case_match; [done|].
  apply (transaction_cases (store_inv b)); [done|]. intros db' r H'. run_steps H'; injection H' as <- <-.
  all: try match goal with Hf : freeze_chain_payouts _ _ _ _ = Ok _ |- _ =>
             apply freeze_chain_payouts_ledger in Hf as [Hf _] end.
  all: apply (inv_frame b b db); try done; by apply receivers_kept_refl.
Qed.

Lemma activate_inv b db now c :
  store_inv b db -> store_inv b (activate_due_payout_destinations db now c).
Proof. intros Hinv. apply (inv_frame b b db); try done. apply activate_receivers. Qed.

Lemma create_payout_batch_inv b db now fresh draws bid lid c key rid :
  map_Forall (fun _ => policy_wf) (policies (led db)) ->
  store_inv b db -> store_inv b (fst (create_payout_batch db now fresh draws bid lid c key rid)).
Proof.
  intros Hpol Hinv. apply create_payout_batch_cases; [done|by apply activate_inv|].
  intros policy cap plan es db1 sealed (Hnew & _ & _ & _ & _ & Hp & Hcap & Hplan & _ & Hes & Hins & _).
  pose proof (activate_inv b db now c Hinv) as Hact. set (act := activate_due_payout_destinations db now c) in *.
  destruct (policy_wf_bounds policy (Hpol c policy Hp)) as (Hmin & Habs & Hbps & _).
  apply random_payout_cap_bound in Hcap; [|done].
  apply plan_payout_batch_inv in Hplan as [Hout Hwf]; [|lia..].
  pose proof (payout_rows_stored act c (cp_minimum_payout_zat policy) (cp_maximum_payout_outputs policy) fresh) as Hst.
  apply insert_ledger_Ok in Hins as (-> & _). apply reservation_entries_lines in Hes as [Hlines Hcore].
  set (x := mkLedgerTransaction lid (next_sequence (led act)) c "payout_reserved" None (env_uuid_text bid) es).
  destruct (stored_outputs (pay (sealed_draft (set_led act (mkLedgerTables (ledger (led act) ++ [x]) (next_sequence (led act) + 1)
    (safety (led act)) (policies (led act)))) now bid c policy key rid (ls_root sealed) (next_sequence (led db))
    (item_of <$> pp_outputs plan))) bid cap _ plan (lookup_insert_eq _ _ _) Hout Hst Hwf) as [Hload Hperm].
  eapply (inv_new_batch b act _ bid _ (item_of <$> pp_outputs plan) (Some x)); try done.
  - by eapply planned_items_bound.
  - split_and!; [|done|done]. cbn. rewrite lookup_insert_eq. by eexists.
  - intros c' who label. cbn [moved x lt_chain lt_entries]. rewrite Hlines.
    rewrite batch_balance_open by done. cbn [br_chain]. case_decide; [|done]. by apply reservation_line_perm.
Qed.

(** The opening transaction adds to the opening balance and to nothing else. *)
Lemma inv_opening b db db' x s :
  store_inv b db -> ledger (led db') = ledger (led db) ++ [x] -> pay db' = pay db -> chn db' = chn db ->
  lt_kind x = opening_kind -> lt_event_seq x = None ->
  lt_entries x = [(None, "collector_spendable_asset"%string, s); (None, "pool_equity"%string, - s)] ->
  0 <= s -> store_inv b db'.
Proof.
  intros [Hbooks Hcore Hopen Hwin Hall Hitems Hbatches] Hl Hp Hc Hk Hev Hes Hs.
  assert (fresh_event (ledger (led db)) x) as Hf by (intros e He; congruence).
  constructor; rewrite ?Hp, ?Hc; try done.
  - intros c who label. rewrite (owner_balance_appended db (Some x) db') by done. rewrite Hbooks.
    unfold books. rewrite Hl, Hp, Hc, opening_balance_snoc. cbn [moved].
    repeat case_decide; naive_solver lia.
  - rewrite Hl. apply Forall_app. split; [done|]. apply Forall_singleton. rewrite Hes.
    unfold core_sum. ledger_sums. lia.
  - rewrite Hl. apply Forall_app. split; [done|]. apply Forall_singleton. intros _. by exists s.
  - rewrite Hl. intros key row Hrow. apply winner_ok_snoc; [done|]. by apply Hwin.
Qed.

Lemma record_opening_pool_equity_inv b db lid c w s : 0 <= s ->
  store_inv b db -> store_inv b (fst (record_opening_pool_equity db lid c w s)).
Proof.
  intros Hs Hinv. unfold record_opening_pool_equity. case_match; [done|].
  apply (transaction_cases (store_inv b)); [done|]. intros db' r H'. run_steps H'; injection H' as <- <-.
  match goal with Hi : insert_ledger _ _ _ _ _ _ _ = Ok _, Ha : as_i64 _ = Ok _ |- _ =>
    apply insert_ledger_Ok in Hi as (-> & _); unfold as_i64 in Ha; run_in Ha end.
  eapply inv_opening; done || reflexivity.
Qed.

Lemma configure_payout_destination_frame t now enabled did eid a c address k digest th auto hold t' :
  configure_payout_destination t now enabled did eid a c address k digest th auto hold = Ok t' ->
  items t' = items t /\ batches t' = batches t /\ receivers_kept t t'.
Proof.
  unfold configure_payout_destination. intros H. run_steps H. injection H as <-. split_and!; [done..|].
  intros id x Hx. boolprop. cbn [destinations set_change_events set_destinations].
  assert (exists y, disable_pending t a c !! id = Some y /\ same_receiver x y) as (y & Hy & Hs).
  { unfold disable_pending. rewrite lookup_fmap, Hx. cbn. eexists. split; [done|]. by case_match. }
  exists y. rewrite lookup_insert_ne; [done|]. intros ->.
  match goal with Hn : ~ is_Some (disable_pending _ _ _ !! _) |- _ => apply Hn; by exists y end.
Qed.

Lemma configure_payout_inv b db now enabled did eid change :
  store_inv b db -> store_inv b (fst (configure_payout db now enabled did eid change)).
Proof.
  intros Hinv. unfold configure_payout. case_match; [done|]. cbv zeta.
  case_match eqn:E; [|done]. run_steps E. injection E as <-.
  match goal with Hc : configure_payout_destination _ _ _ _ _ _ _ _ _ _ _ _ _ = Ok _ |- _ =>
    apply configure_payout_destination_frame in Hc as (H1 & H2 & H3) end.
  by apply (inv_frame b b db).
Qed.

Lemma insert_policy_frame db c p db' : insert_policy db c p = Ok db' ->
  ledger (led db') = ledger (led db) /\ chn db' = chn db /\ items (pay db') = items (pay db) /\
  batches (pay db') = batches (pay db) /\ destinations (pay db') = destinations (pay db) /\
  (map_Forall (fun _ => policy_wf) (policies (led db)) -> policy_wf p ->
   map_Forall (fun _ => policy_wf) (policies (led db'))).
Proof.
  unfold insert_policy. intros H. run_steps H; injection H as <-; cbn; split_and!; try done;
  intros Hp Hw; by apply map_Forall_insert_2.
Qed.

Lemma bind_chain_policy_inv b db c p : store_inv b db -> store_inv b (fst (bind_chain_policy db c p)).
Proof.
  intros Hinv. unfold bind_chain_policy. case_match eqn:E; [|done]. cbn [fst].
  apply insert_policy_frame in E as (H1 & H2 & H3 & H4 & H5 & _).
  apply (inv_frame b b db); try (done || congruence). by apply receivers_kept_refl.
Qed.

Lemma bind_zero_fee_launch_policies_inv b db w z :
  store_inv b db -> store_inv b (fst (bind_zero_fee_launch_policies db w z)).
Proof.
  intros Hinv. unfold bind_zero_fee_launch_policies. case_match; [done|]. cbv zeta.
  case_match eqn:E; [|done]. cbn [fst]. run_steps E.
  match goal with H1 : insert_policy _ _ _ = Ok _, H2 : insert_policy _ _ _ = Ok _ |- _ =>
    apply insert_policy_frame in H1 as (? & ? & ? & ? & ? & _);
    apply insert_policy_frame in H2 as (? & ? & ? & ? & ? & _) end.
  apply (inv_frame b b db); try (done || congruence). apply receivers_kept_refl. congruence.
Qed.
End Payouts.
