(* ===== verification/WinnerInv.v ===== *)
(** The event projector preserves the invariant of the store: every winner transition of
    crates/wcash-pool-store/src/postgres.rs posts exactly the change of the winner's line on the
    balance sheet. *)

From Stdlib Require Import ZArith Lia.
From stdpp Require Import prelude gmap sorting strings.
From S2P Require Import Prelude Wire Backend Hex LargestRemainder Pplns PayoutFees Ledger PayoutRequest StoreDb PayoutStore Configuration WinnerStore Books BatchPlan StoreInv.
Open Scope Z_scope.

(** ** Rows *)

Lemma update_winner_state_Ok db w s o m db' :
  update_winner_state db w s o m = Ok db' ->
  exists row, winners (chn db) !! winner_key w = Some row /\
    db' = put_winner db w (set_winner_state row s o m).
Proof. unfold update_winner_state. case_match; [|done]. intros [= <-]. by eexists. Qed.

Lemma winner_facts_reward row w : winner_facts_match row w = Ok true -> wn_reward_zat row = wd_reward_zat w.
Proof. unfold winner_facts_match, as_i64. intros H. run_in H. lia. Qed.

Lemma load_winner_Ok db sid jid w lw : load_winner db sid jid w = Ok lw ->
  exists row, winners (chn db) !! winner_key w = Some row /\ lw_state lw = wn_state row /\
    lw_observation_event_seq lw = wn_active_observation_event_seq row /\
    lw_maturity_event_seq lw = wn_active_maturity_event_seq row /\
    lw_active_proof_share_id lw = wn_active_proof_share_id row /\
    wn_reward_zat row = wd_reward_zat w /\
    exists proof, winner_proofs (chn db) !! (winner_key w, sid) = Some proof /\ lw_proof_state lw = wp_state proof.
Proof.
  unfold load_winner. intros H. run_steps H. simplify_eq.
  match goal with H1 : ok_or (winners _ !! _) _ = Ok ?r, H2 : winner_facts_match _ _ = Ok ?b,
                  H3 : ok_or (winner_proofs _ !! _) _ = Ok _ |- _ =>
    apply ok_or_Ok in H1; apply ok_or_Ok in H3; destruct b; [|done]; apply winner_facts_reward in H2;
    exists r end.
  cbn. split_and!; try done. by eexists.
Qed.

Lemma update_winner_proof_state_Ok db w sid s db' :
  update_winner_proof_state db w sid s = Ok db' ->
  led db' = led db /\ pay db' = pay db /\ winners (chn db') = winners (chn db) /\
  winner_allocations (chn db') = winner_allocations (chn db).
Proof. unfold update_winner_proof_state. intros H. run_steps H. by simplify_eq. Qed.

Lemma inv_same b b' db db' :
  store_inv b db -> b <= b' -> led db' = led db -> pay db' = pay db ->
  winners (chn db') = winners (chn db) -> winner_allocations (chn db') = winner_allocations (chn db) ->
  store_inv b' db'.
Proof.
  intros Hinv Hb Hl Hp Hw Ha. apply (inv_frame b b' db); rewrite ?Hl, ?Hp; try done.
  by apply receivers_kept_refl.
Qed.

(** A change of the row that leaves its money alone. *)
Lemma inv_row b db w row row' :
  store_inv b db -> winners (chn db) !! winner_key w = Some row ->
  wn_state row' = wn_state row -> wn_reward_zat row' = wn_reward_zat row ->
  wn_active_observation_event_seq row' = wn_active_observation_event_seq row ->
  wn_active_maturity_event_seq row' = wn_active_maturity_event_seq row ->
  store_inv b (put_winner db w row').
Proof.
  intros Hinv Hrow Hs Hr Ho Hm.
  apply (inv_winner_step b b db _ (winner_key w) row row' None); try done.
  - apply (si_allocations _ _ Hinv).
  - pose proof (si_winners _ _ Hinv _ _ Hrow) as Hok. unfold winner_ok in *. by rewrite Hs, Hr, Ho, Hm.
  - intros c who label. unfold winner_balance. rewrite Hs, Hr, Ho. cbn [moved]. case_decide; [|done]. symmetry. apply Z.sub_diag.
Qed.

Lemma select_winner_proof_inv b db w sid : store_inv b db -> store_inv b (select_winner_proof db w sid).
Proof.
  intros Hinv. unfold select_winner_proof. case_match eqn:E; [|done].
  by eapply inv_row.
Qed.

(** A winner with no money on the sheet moves to another such state. *)
Lemma inv_idle b db w row s :
  store_inv b db -> winners (chn db) !! winner_key w = Some row ->
  positive_state (wn_state row) = false -> positive_state s = false ->
  store_inv b (put_winner db w (set_winner_state row s None None)).
Proof.
  intros Hinv Hrow Hp Hs.
  apply (inv_winner_step b b db _ (winner_key w) row (set_winner_state row s None None) None); try done.
  - apply (si_allocations _ _ Hinv).
  - unfold winner_ok. cbn [set_winner_state wn_state wn_active_observation_event_seq wn_active_maturity_event_seq].
    by destruct s.
  - intros c who label. unfold winner_balance. cbn [moved set_winner_state wn_state wn_active_observation_event_seq].
    case_decide; [|done]. by destruct (wn_state row), s.
Qed.

Lemma inv_new_winner b db w row :
  store_inv b db -> winners (chn db) !! winner_key w = None ->
  wn_state row = Submitted -> wn_active_observation_event_seq row = None ->
  wn_active_maturity_event_seq row = None -> store_inv b (put_winner db w row).
Proof.
  intros [Hbooks Hcore Hopen Hwin Hall Hitems Hbatches] Hn Hs Ho Hm. constructor; try done.
  - intros c who label. change (owner_balance (led db) c who label = books (put_winner db w row) c who label).
    rewrite Hbooks. unfold books. cbn [put_winner set_chn chn led pay set_winners winners].
    rewrite table_sum_fresh by done. unfold winner_balance at 2. rewrite Hs.
    match goal with |- context [if decide (fst (winner_key w) = c) then ?x else 0] =>
      replace (if decide (fst (winner_key w) = c) then x else 0) with 0 by (by case_decide) end.
    by rewrite Z.add_0_l.
  - cbn [put_winner set_chn chn set_winners winners led]. apply map_Forall_insert_2; [|done].
    unfold winner_ok. by rewrite Hs, Ho, Hm.
Qed.

(** ** Event lines *)

Lemma event_entries_core l o m : Forall (fun x => core_sum (lt_entries x) = 0) l ->
  core_sum (event_entries l o m) = 0.
Proof.
  induction 1 as [|x l Hx _ IH]; [done|].
  rewrite (event_entries_app [x] l), core_sum_app, IH, event_entries_one. case_match; [lia|done].
Qed.

(** Before an event is posted, the ledger has no line of it. *)
Lemma event_entries_fresh l seq kind :
  ~ has_event l seq kind ->
  (kind = "winner_observed"%string -> event_entries l (Some seq) None = []) /\
  (kind = "winner_matured"%string -> event_entries l None (Some seq) = []).
Proof.
  intros Hn. split; intros ->; induction l as [|x l IH]; try done.
  all: rewrite (event_entries_app [x] l), IH by (intros Hx; apply Hn; by right); rewrite event_entries_one, app_nil_r.
  all: cbn [event_matches orb]; rewrite ?orb_false_r; case_match eqn:E; [|done].
  all: exfalso; apply Hn; left; apply andb_true_iff in E as [E1 E2]; apply bool_decide_eq_true in E1;
    by apply String.eqb_eq in E2.
Qed.

(** The lines of the event just posted. *)
Lemma event_entries_posted l x seq :
  fresh_event l x -> lt_event_seq x = Some seq ->
  (lt_kind x = "winner_observed"%string -> event_entries (l ++ [x]) (Some seq) None = lt_entries x) /\
  (lt_kind x = "winner_matured"%string -> event_entries (l ++ [x]) None (Some seq) = lt_entries x).
Proof.
  intros Hf Hs. destruct (event_entries_fresh l seq (lt_kind x) (Hf seq Hs)) as [H1 H2].
  split; intros Hk; rewrite event_entries_app, event_entries_one; [rewrite H1|rewrite H2]; try done.
  all: cbn [event_matches orb app]; rewrite Hs, Hk, bool_decide_eq_true_2 by done; done.
Qed.

Lemma has_event_posted l x seq kind : lt_event_seq x = Some seq -> lt_kind x = kind -> has_event (l ++ [x]) seq kind.
Proof. intros. apply Exists_app. right. by constructor. Qed.

(** ** Allocations *)

Definition rows_of (chain : Chain) (block : list Z) (seq version : Z) (l : list AccountAllocation)
    : list AllocationRow :=
  (fun a => mkAllocationRow chain block seq version (aa_account_id a) (aa_work a) (aa_amount_zat a)) <$> l.

Lemma insert_allocations_Ok t chain block seq version l t' :
  insert_allocations t chain block seq version l = Ok t' ->
  t' = set_winner_allocations t (winner_allocations t ++ rows_of chain block seq version l) /\
  Forall (fun a => 0 <= aa_amount_zat a) l.
Proof.
  revert t; induction l as [|a l IH]; intros t H; cbn [insert_allocations] in H.
  { simplify_eq. split; [|done]. unfold rows_of. rewrite fmap_nil, app_nil_r. by destruct t'. }
  unfold as_i64 in H. run_in H. destruct (IH _ H) as [-> Hl]. split; [|by constructor].
  unfold rows_of. rewrite fmap_cons. cbn [winner_allocations set_winner_allocations]. by rewrite <- app_assoc.
Qed.

(** At a new event the rows of the block are exactly the inserted ones. *)
Lemma alloc_new t chain block seq version l :
  Forall (fun r => al_observation_event_seq r < seq) (winner_allocations t) ->
  let t' := set_winner_allocations t (winner_allocations t ++ rows_of chain block seq version l) in
  (forall a, alloc_amount t' (chain, block) seq a = alloc_sum a l) /\
  alloc_total t' (chain, block) seq = sumZ (aa_amount_zat <$> l).
Proof.
  intros Hold t'.
  assert (forall g : AllocationRow -> Z, sumZ ((fun r => if allocation_at (chain, block) seq r then g r else 0)
            <$> winner_allocations t) = 0) as Hz.
  { intros g. induction Hold as [|r rs Hr _ IH]; [done|]. rewrite fmap_cons, sumZ_cons, IH.
    unfold allocation_at. rewrite bool_decide_eq_false_2; [done|]. simpl in Hr. lia. }
  assert (forall g : AllocationRow -> Z, sumZ ((fun r => if allocation_at (chain, block) seq r then g r else 0)
            <$> rows_of chain block seq version l) = sumZ (g <$> rows_of chain block seq version l)) as Hn.
  { intros g. unfold rows_of. induction l as [|a l IH]; [done|]. rewrite !fmap_cons, !sumZ_cons, IH.
    unfold allocation_at. by rewrite bool_decide_eq_true_2. }
  split.
  - intros a. unfold alloc_amount, t'. cbn [winner_allocations set_winner_allocations].
    rewrite fmap_app, sumZ_app.
    assert (forall rs, (fun r => if allocation_at (chain, block) seq r && (al_account_id r =? a)
              then al_amount_zat r else 0) <$> rs =
            (fun r => if allocation_at (chain, block) seq r then (if al_account_id r =? a then al_amount_zat r else 0) else 0) <$> rs)
      as Hf by (intros rs; apply list_fmap_ext; intros; by destruct (allocation_at _ _ _)).
    rewrite !Hf, Hz, Hn. unfold rows_of, alloc_sum. rewrite <- list_fmap_compose, Z.add_0_l.
    f_equal. apply list_fmap_ext. intros i x _. cbn. by destruct (Z.eqb_spec (aa_account_id x) a); case_decide.
  - unfold alloc_total, t'. cbn [winner_allocations set_winner_allocations].
    rewrite fmap_app, sumZ_app, Hz, Hn. unfold rows_of. by rewrite <- list_fmap_compose.
Qed.

Lemma alloc_other t chain block seq version l k : k <> (chain, block) ->
  allocs_kept t (set_winner_allocations t (winner_allocations t ++ rows_of chain block seq version l)) k.
Proof.
  intros Hk.
  assert (forall o g, sumZ ((fun r => if allocation_at k o r then g r else 0) <$> rows_of chain block seq version l) = 0) as Hz.
  { intros o g. unfold rows_of. induction l as [|a l IH]; [done|]. rewrite !fmap_cons, sumZ_cons, IH.
    unfold allocation_at. rewrite bool_decide_eq_false_2; [done|]. cbn. intros (-> & -> & _). by destruct k. }
  split.
  - intros o a. unfold alloc_amount. cbn [winner_allocations set_winner_allocations].
    rewrite fmap_app, sumZ_app. rewrite (list_fmap_ext _ (fun r => if allocation_at k o r then
      (if al_account_id r =? a then al_amount_zat r else 0) else 0) (rows_of _ _ _ _ _)), Hz; [lia|].
    intros. by destruct (allocation_at _ _ _).
  - intros o. unfold alloc_total. cbn [winner_allocations set_winner_allocations].
    rewrite fmap_app, sumZ_app, Hz. lia.
Qed.

(** The rows a maturity reads are those of its observation. *)
Lemma allocation_rows_sums t chain block o :
  (forall a, row_sum a (allocation_rows t chain block o) = alloc_amount t (chain, block) o a) /\
  sumZ (al_amount_zat <$> allocation_rows t chain block o) = alloc_total t (chain, block) o.
Proof.
  assert (forall (g : AllocationRow -> Z), sumZ (g <$> allocation_rows t chain block o) =
    sumZ ((fun r => if allocation_at (chain, block) o r then g r else 0) <$> winner_allocations t)) as Hg.
  { intros g. unfold allocation_rows. rewrite (sumZ_perm _ (g <$> filter (fun a => al_chain a = chain /\ al_block_hash_le a = block /\
      al_observation_event_seq a = o) (winner_allocations t))) by (apply fmap_Permutation, sort_by_perm).
    induction (winner_allocations t) as [|r rs IH]; [done|]. rewrite filter_cons, fmap_cons, sumZ_cons.
    unfold allocation_at in *. cbn [fst snd] in *. case_decide as E; case_bool_decide; try naive_solver.
    all: rewrite ?fmap_cons, ?sumZ_cons, IH; lia. }
  split.
  - intros a. unfold row_sum, alloc_amount. rewrite Hg. f_equal. apply list_fmap_ext. intros i r _.
    destruct (allocation_at _ _ _); [|done]. by destruct (Z.eqb_spec (al_account_id r) a); case_decide.
  - apply Hg.
Qed.

(** ** Transitions *)

Lemma freeze_if_exposed_Ok db c seq reason db' : freeze_if_exposed db c seq reason = Ok db' ->
  ledger (led db') = ledger (led db) /\ next_sequence (led db') = next_sequence (led db) /\
  pay db' = pay db /\ chn db' = chn db.
Proof.
  unfold freeze_if_exposed. intros H. run_steps H; simplify_eq; [|done].
  match goal with Hf : freeze_chain_payouts _ _ _ _ = Ok _ |- _ => apply freeze_chain_payouts_ledger in Hf as [H1 H2] end.
  done.
Qed.

(** A winner's row and its posting together. *)
Lemma inv_posted b b' db db1 db2 w row row' lid kind seq ref es :
  store_inv b db -> b <= b' -> winners (chn db) !! winner_key w = Some row ->
  ledger (led db1) = ledger (led db) -> pay db1 = pay db ->
  winners (chn db1) = winners (chn db) ->
  (forall k, k <> winner_key w -> allocs_kept (chn db) (chn db1) k) ->
  Forall (fun r => al_observation_event_seq r <= b' /\ 0 <= al_amount_zat r) (winner_allocations (chn db1)) ->
  insert_ledger db1 lid (wd_chain w) kind (Some seq) ref es = Ok db2 ->
  core_sum es = 0 -> kind <> opening_kind ->
  (forall x, fresh_event (ledger (led db)) x -> lt_event_seq x = Some seq -> lt_kind x = kind ->
     lt_entries x = es -> winner_ok (chn db1) (ledger (led db) ++ [x]) (winner_key w) row') ->
  (forall who label, owner_sum who label es =
     winner_balance (chn db1) (winner_key w) row' who label - winner_balance (chn db) (winner_key w) row who label) ->
  store_inv b' (put_winner db2 w row').
Proof.
  intros Hinv Hb Hrow Hl Hp Hw Hk Hall Hins Hcore Hkind Hok Hlines.
  apply insert_ledger_Ok in Hins as (-> & _ & Hfresh & _). rewrite Hl in Hfresh.
  set (x := mkLedgerTransaction lid (next_sequence (led db1)) (wd_chain w) kind (Some seq) ref es) in *.
  assert (plain (ledger (led db)) (Some x)) as Hplain by by split_and!.
  eapply (inv_winner_step b b' db _ (winner_key w) row row' (Some x)); try done.
  - cbn. by rewrite Hw.
  - unfold appended. cbn. by rewrite Hl.
  - cbn [put_winner set_chn led set_led ledger]. rewrite Hl. by apply Hok.
  - intros c who label. cbn [moved x lt_chain lt_entries winner_key fst]. rewrite Hlines. by case_decide.
Qed.

Lemma winner_reading db sid jid w lw row : load_winner db sid jid w = Ok lw ->
  winners (chn db) !! winner_key w = Some row ->
  lw_state lw = wn_state row /\ lw_observation_event_seq lw = wn_active_observation_event_seq row /\
  lw_maturity_event_seq lw = wn_active_maturity_event_seq row /\ wn_reward_zat row = wd_reward_zat w.
Proof. intros (r & Hr & H1 & H2 & H3 & _ & H4 & _)%load_winner_Ok Hrow. rewrite Hr in Hrow. by simplify_eq. Qed.

Section Projection.
Context {env : StoreEnv}.

Lemma demature_winner_inv b db seq lid w lw db' row :
  store_inv b db -> winners (chn db) !! winner_key w = Some row -> wn_state row = Matured ->
  lw_observation_event_seq lw = wn_active_observation_event_seq row ->
  lw_maturity_event_seq lw = wn_active_maturity_event_seq row ->
  demature_winner db seq lid w lw = Ok db' -> store_inv b db'.
Proof.
  intros Hinv Hrow Hst Ho Hm H. unfold demature_winner in H. run_steps H.
  match goal with H1 : ok_or _ _ = Ok ?o', H2 : ok_or _ _ = Ok ?m', Hf : freeze_if_exposed _ _ _ _ = Ok ?d,
                  Hn : negated_entries _ = Ok _ |- _ =>
    apply ok_or_Ok in H1, H2; apply freeze_if_exposed_Ok in Hf as (Hfl & _ & Hfp & Hfc);
    rename o' into o, m' into m; rewrite H1 in Ho; rewrite H2 in Hm;
    rewrite Hfl in *; pose proof Hn as [Hneg Hcore]%negated_entries_Ok end.
  apply update_winner_state_Ok in H as (row1 & Hrow1 & ->).
  pose proof (si_winners _ _ Hinv _ _ Hrow) as Hok. unfold winner_ok in Hok. rewrite Hst, <- Ho, <- Hm in Hok.
  destruct Hok as [Hobs (Hme & Hms)].
  assert (row1 = row) as ->.
  { match goal with Hi : insert_ledger _ _ _ _ _ _ _ = Ok _ |- _ =>
      apply insert_ledger_tables in Hi as [_ Hc]; rewrite Hc, Hfc in Hrow1 end. congruence. }
  eapply (inv_posted b b db _ _ w row); try eassumption; try done.
  - by rewrite Hfc.
  - intros. rewrite Hfc. apply allocs_kept_refl.
  - rewrite Hfc. apply (si_allocations _ _ Hinv).
  - rewrite Hcore, (event_entries_core _ _ _ (si_core _ _ Hinv)). done.
  - intros x Hx _ _ _. rewrite Hfc. unfold winner_ok. cbn. by apply observed_ok_snoc.
  - intros who label. rewrite Hfc. unfold winner_balance. rewrite Hst, <- Ho. cbn.
    rewrite Hneg, Hms. lia.
Qed.

(** The first observation of a winner: its allocations, its posting, its state. *)
Lemma observe_idle_inv b db seq lid w row plan version t es db2 :
  store_inv b db -> b < seq -> winners (chn db) !! winner_key w = Some row ->
  positive_state (wn_state row) = false -> wn_reward_zat row = wd_reward_zat w ->
  insert_allocations (chn db) (wd_chain w) (as_bytes (wd_block_hash_le w)) seq version
    (ap_accounts plan) = Ok t ->
  observation_entries (wd_reward_zat w) plan = Ok es ->
  insert_ledger (set_chn db t) lid (wd_chain w) "winner_observed" (Some seq) (winner_reference w) es = Ok db2 ->
  store_inv seq (put_winner db2 w (set_winner_state row Observed (Some seq) None)).
Proof.
  intros Hinv Hb Hrow Hidle Hrew Halloc Hes Hins.
  apply insert_allocations_Ok in Halloc as [-> Hnn].
  pose proof Hins as (_ & Hg & _)%insert_ledger_Ok.
  apply observation_entries_lines in Hes as (Hlines & Hcore & Hle); [|done|done].
  assert (Forall (fun r => al_observation_event_seq r < seq) (winner_allocations (chn db))) as Hold
    by (eapply Forall_impl; [exact (si_allocations _ _ Hinv)|]; intros r [? _]; simpl; lia).
  destruct (alloc_new (chn db) (wd_chain w) (as_bytes (wd_block_hash_le w)) seq version (ap_accounts plan) Hold) as [Ha Ht].
  set (t := set_winner_allocations _ _) in *. fold (winner_key w) in Ha, Ht.
  assert (forall who label, owner_sum who label es = observed_line t (winner_key w) (wn_reward_zat row) seq who label) as Hobs.
  { intros who label. rewrite Hlines, Hrew. unfold observed_line. rewrite Ht. destruct who; [by rewrite Ha|done]. }
  eapply (inv_posted b seq db (set_chn db t) _ w row); try eassumption; try done.
  - lia.
  - intros k Hk. by apply alloc_other.
  - cbn. apply Forall_app. split.
    + eapply Forall_impl; [exact (si_allocations _ _ Hinv)|]. intros r [? ?]. simpl. lia.
    + apply Forall_fmap. eapply Forall_impl; [exact Hnn|]. intros a ?. simpl in *. lia.
  - intros x Hx Hs Hk He. cbn. split_and!.
    + by apply has_event_posted.
    + rewrite (proj1 (event_entries_posted (ledger (led db)) x seq Hx Hs) Hk), He. exact Hobs.
    + rewrite Ht, Hrew. done.
  - intros who label. cbn. rewrite Hobs. unfold winner_balance. cbn.
    destruct (wn_state row); try done; lia.
Qed.

Lemma observe_economic_winner_inv b db seq lid w conf lw db' row :
  store_inv b db -> b < seq -> winners (chn db) !! winner_key w = Some row ->
  lw_state lw = wn_state row -> lw_observation_event_seq lw = wn_active_observation_event_seq row ->
  lw_maturity_event_seq lw = wn_active_maturity_event_seq row -> wn_reward_zat row = wd_reward_zat w ->
  observe_economic_winner db seq lid w conf lw = Ok db' -> store_inv seq db'.
Proof.
  intros Hinv Hb Hrow Hst Ho Hm Hrew H.
  assert (store_inv seq db) as Hseq by (apply (inv_same b seq db db); try done; lia).
  unfold observe_economic_winner in H. run_steps H; simplify_eq; try done.
  all: try (eapply (demature_winner_inv seq db seq lid w lw _ row); try eassumption; congruence).
  all: match goal with Hu : update_winner_state _ _ _ _ _ = Ok _, Hi : insert_ledger _ _ _ _ _ _ _ = Ok _ |- _ =>
    apply update_winner_state_Ok in Hu as (row1 & Hrow1 & ->);
    pose proof (insert_ledger_tables _ _ _ _ _ _ _ _ Hi) as [_ Hc] end.
  all: match goal with Ha : insert_allocations _ _ _ _ _ _ = Ok _ |- _ =>
    pose proof (insert_allocations_Ok _ _ _ _ _ _ _ Ha) as [Ht _] end.
  all: assert (row1 = row) as -> by (rewrite Hc, Ht in Hrow1; cbn in Hrow1; congruence).
  all: clear Hseq; eapply observe_idle_inv; try eassumption; by rewrite <- Hst.
Qed.

Lemma mature_economic_winner_inv b db seq lid w lw db' row :
  store_inv b db -> b <= seq -> winners (chn db) !! winner_key w = Some row ->
  lw_state lw = wn_state row -> lw_observation_event_seq lw = wn_active_observation_event_seq row ->
  lw_maturity_event_seq lw = wn_active_maturity_event_seq row -> wn_reward_zat row = wd_reward_zat w ->
  mature_economic_winner db seq lid w lw = Ok db' -> store_inv seq db'.
Proof.
  intros Hinv Hb Hrow Hst Ho Hm Hrew H. unfold mature_economic_winner in H. run_steps H; simplify_eq.
  2:{ by apply (inv_same b seq db' db'). }
  match goal with Hl : Some ?z = wn_active_observation_event_seq _ |- _ => rename z into o end.
  match goal with He : maturity_entries _ _ = Ok _ |- _ => apply maturity_entries_lines in He as [Hlines Hcore] end.
  apply update_winner_state_Ok in H as (row1 & Hrow1 & ->).
  match goal with Hi : insert_ledger _ _ _ _ _ _ _ = Ok _ |- _ =>
    pose proof (insert_ledger_tables _ _ _ _ _ _ _ _ Hi) as [_ Hc] end.
  assert (row1 = row) as -> by (rewrite Hc in Hrow1; congruence).
  pose proof (si_winners _ _ Hinv _ _ Hrow) as Hok. unfold winner_ok in Hok. rewrite <- Hst, <- Ho, <- Hm in Hok.
  destruct (allocation_rows_sums (chn db) (wd_chain w) (as_bytes (wd_block_hash_le w)) o) as [Ha Ht].
  fold (winner_key w) in Ha, Ht.
  assert (forall who label, owner_sum who label a =
    matured_line (chn db) (winner_key w) (wn_reward_zat row) o who label -
    observed_line (chn db) (winner_key w) (wn_reward_zat row) o who label) as Hmoved.
  { intros who label. rewrite Hlines, Ht, Hrew. unfold matured_line, observed_line.
    destruct who; rewrite ?Ha; repeat case_decide; simplify_eq; lia. }
  eapply (inv_posted b seq db db _ w row); try eassumption; try done.
  - eapply Forall_impl; [exact (si_allocations _ _ Hinv)|]. intros r [? ?]. simpl. lia.
  - intros x Hx Hs Hk He. cbn. split; [by apply observed_ok_snoc|]. split; [by apply has_event_posted|].
    by rewrite (proj2 (event_entries_posted (ledger (led db)) x seq Hx Hs) Hk), He.
  - intros who label. rewrite Hmoved. unfold winner_balance. rewrite <- Hst, <- Ho. done.
Qed.

(** Reversing a winner that has money on the sheet takes all of it back. *)
Lemma reverse_active_inv b db db1 seq lid w row o es db2 s kind :
  store_inv b db -> winners (chn db) !! winner_key w = Some row -> positive_state (wn_state row) = true ->
  wn_active_observation_event_seq row = Some o -> positive_state s = false -> kind <> opening_kind ->
  ledger (led db1) = ledger (led db) -> pay db1 = pay db -> winners (chn db1) = winners (chn db) ->
  winner_allocations (chn db1) = winner_allocations (chn db) ->
  negated_entries (event_entries (ledger (led db)) (Some o) (wn_active_maturity_event_seq row)) = Ok es ->
  insert_ledger db1 lid (wd_chain w) kind (Some seq) (winner_reference w) es = Ok db2 ->
  store_inv b (put_winner db2 w (set_winner_state row s None None)).
Proof.
  intros Hinv Hrow Hpos Ho Hs Hkind Hl Hp Hw Hal Hneg Hins.
  pose proof Hneg as [Hlines Hcore]%negated_entries_Ok.
  assert (forall k, allocs_kept (chn db) (chn db1) k) as Hk
    by (intros k; split; intros; unfold alloc_amount, alloc_total; by rewrite Hal).
  pose proof (si_winners _ _ Hinv _ _ Hrow) as Hok. unfold winner_ok in Hok.
  eapply (inv_posted b b db db1 _ w row); try eassumption; try done.
  - rewrite Hal. apply (si_allocations _ _ Hinv).
  - by rewrite Hcore, (event_entries_core _ _ _ (si_core _ _ Hinv)).
  - intros x _ _ _ _. unfold winner_ok. cbn. by destruct s.
  - intros who label. rewrite Hlines, event_entries_split. unfold winner_balance. rewrite Ho. cbn.
    rewrite Ho in Hok. destruct (wn_state row); try done; destruct (wn_active_maturity_event_seq row); try done.
    + destruct Hok as (_ & Hobs & _). rewrite Hobs.
      replace (owner_sum who label (event_entries (ledger (led db)) None None)) with 0; [by destruct s; lia|].
      clear. induction (ledger (led db)) as [|x l IH]; [done|]. by rewrite (event_entries_app [x] l), event_entries_one, owner_sum_app, <- IH.
    + destruct Hok as [(_ & Hobs & _) [_ Hmat]]. rewrite Hobs, Hmat. destruct s; lia || done.
Qed.

Lemma reversal_idle rev : positive_state (reversal_state rev) = false.
Proof. by destruct rev. Qed.

Lemma reverse_economic_winner_inv b db db1 seq lid sid jid w rev lw db' :
  store_inv b db -> load_winner db sid jid w = Ok lw ->
  update_winner_proof_state db w sid (reversal_state rev) = Ok db1 ->
  reverse_economic_winner db1 seq lid w lw rev = Ok db' -> store_inv b db'.
Proof.
  intros Hinv Hload Hproof H.
  apply load_winner_Ok in Hload as (row & Hrow & Hst & Ho & Hm & _ & Hrew & _).
  pose proof Hproof as (Hl1 & Hp1 & Hw1 & Ha1)%update_winner_proof_state_Ok.
  unfold reverse_economic_winner in H. destruct (positive_state (lw_state lw)) eqn:Hpos; cbn [negb] in H.
  - bind_in H db2 Hf.
    assert (ledger (led db2) = ledger (led db) /\ pay db2 = pay db /\ chn db2 = chn db1) as (Hl2 & Hp2 & Hc2).
    { destruct (bool_decide (is_Some (lw_maturity_event_seq lw))); [|simplify_eq; split_and!; congruence].
      apply freeze_if_exposed_Ok in Hf as (? & _ & ? & ?). split_and!; congruence. }
    run_steps H. apply update_winner_state_Ok in H as (row1 & Hrow1 & ->). boolprop.
    match goal with Hi : insert_ledger _ _ _ _ _ _ _ = Ok _ |- _ =>
      pose proof (insert_ledger_tables _ _ _ _ _ _ _ _ Hi) as [_ Hc] end.
    assert (row1 = row) as -> by (rewrite Hc, Hc2, Hw1 in Hrow1; congruence).
    rewrite Ho, Hm, Hl2 in *. destruct (wn_active_observation_event_seq row) as [o|] eqn:Eo; [|congruence].
    eapply (reverse_active_inv b db db2 seq lid w row o); try eassumption; try congruence.
    + by apply reversal_idle.
    + by destruct rev.
  - run_steps H. apply update_winner_state_Ok in H as (row1 & Hrow1 & ->).
    apply inv_idle; [by apply (inv_same b b db)|done| |by apply reversal_idle].
    rewrite Hw1 in Hrow1. congruence.
Qed.

Lemma reverse_winner_inv b db seq lid sid jid w rev db' :
  store_inv b db -> reverse_winner db seq lid sid jid w rev = Ok db' -> store_inv b db'.
Proof.
  intros Hinv H. unfold reverse_winner in H. run_steps H; simplify_eq.
  all: try (by eapply reverse_economic_winner_inv).
  all: match goal with Hp : update_winner_proof_state _ _ _ _ = Ok _ |- _ =>
    apply update_winner_proof_state_Ok in Hp as (Hl1 & Hp1 & Hw1 & Ha1) end.
  all: by apply (inv_same b b db).
Qed.

Lemma observe_winner_inv b db seq lid sid jid w conf db' : b < seq ->
  store_inv b db -> observe_winner db seq lid sid jid w conf = Ok db' -> store_inv seq db'.
Proof.
  intros Hb Hinv H. unfold observe_winner in H. run_steps H. simplify_eq.
  match goal with Hl : load_winner _ _ _ _ = Ok _, Ho : observe_economic_winner _ _ _ _ _ _ = Ok _,
                  Hp : update_winner_proof_state _ _ _ _ = Ok _ |- _ =>
    apply load_winner_Ok in Hl as (row & Hrow & Hst & Hobs & Hm & _ & Hrew & _);
    eapply (observe_economic_winner_inv b) in Ho; try eassumption;
    apply update_winner_proof_state_Ok in Hp as (? & ? & ? & ?) end.
  apply select_winner_proof_inv. by eapply (inv_same seq seq).
Qed.

Lemma mature_winner_inv b db seq fresh sid jid w conf db' : b < seq ->
  store_inv b db -> mature_winner db seq fresh sid jid w conf = Ok db' -> store_inv seq db'.
Proof.
  intros Hb Hinv H. unfold mature_winner in H. bind_in H lw Hload0. case_match; [done|].
  bind_in H required Hreq. case_match; [done|]. bind_in H p Hobserve. destruct p as [db1 lw1].
  assert (exists b1, b1 <= seq /\ store_inv b1 db1 /\ load_winner db1 sid jid w = Ok lw1) as (b1 & Hb1 & Hinv1 & Hload).
  { destruct (positive_state (lw_state lw)).
    { simplify_eq. exists b. split_and!; [lia|done..]. }
    run_steps Hobserve. simplify_eq. exists seq.
    apply load_winner_Ok in Hload0 as (row & Hrow & Hst & Hobs & Hm & _ & Hrew & _).
    match goal with Ho : observe_economic_winner _ _ _ _ _ _ = Ok _ |- _ =>
      eapply (observe_economic_winner_inv b) in Ho; try eassumption end.
    split_and!; [lia|done|done]. }
  run_steps H. simplify_eq. apply load_winner_Ok in Hload as (row & Hrow & Hst & Hobs & Hm & _ & Hrew & _).
  match goal with Ho : mature_economic_winner _ _ _ _ _ = Ok _, Hp : update_winner_proof_state _ _ _ _ = Ok _ |- _ =>
    eapply (mature_economic_winner_inv b1) in Ho; try eassumption;
    apply update_winner_proof_state_Ok in Hp as (? & ? & ? & ?) end.
  apply select_winner_proof_inv. by eapply (inv_same seq seq).
Qed.

Lemma side_chain_winner_inv b db sid jid w db' :
  store_inv b db -> side_chain_winner db sid jid w = Ok db' -> store_inv b db'.
Proof.
  intros Hinv H. unfold side_chain_winner in H. run_steps H. boolprop.
  match goal with Hl : load_winner _ _ _ _ = Ok _, Hp : update_winner_proof_state _ _ _ _ = Ok _ |- _ =>
    apply load_winner_Ok in Hl as (row & Hrow & Hst & _); apply update_winner_proof_state_Ok in Hp as (? & ? & Hw & ?) end.
  apply update_winner_state_Ok in H as (row1 & Hrow1 & ->). rewrite Hw in Hrow1.
  assert (row1 = row) as -> by congruence.
  apply inv_idle; [by apply (inv_same b b db)|by rewrite Hw| |done].
  match goal with Hs : ~ lw_state _ <> Submitted |- _ => apply dec_stable in Hs; by rewrite <- Hst, Hs end.
Qed.

Lemma requeue_winner_inv b db sid jid w db' :
  store_inv b db -> requeue_winner db sid jid w = Ok db' -> store_inv b db'.
Proof.
  intros Hinv H. unfold requeue_winner in H. run_steps H; boolprop.
  all: match goal with Hl : load_winner _ _ _ _ = Ok _, Hp : update_winner_proof_state _ _ _ _ = Ok _ |- _ =>
    apply load_winner_Ok in Hl as (row & Hrow & Hst & _); apply update_winner_proof_state_Ok in Hp as (? & ? & Hw & ?) end.
  2:{ simplify_eq. by apply (inv_same b b db). }
  apply update_winner_state_Ok in H as (row1 & Hrow1 & ->). rewrite Hw in Hrow1.
  assert (row1 = row) as -> by congruence.
  apply inv_idle; [by apply (inv_same b b db)|by rewrite Hw| |done].
  match goal with Hs : lw_state _ = Quarantined |- _ => by rewrite <- Hst, Hs end.
Qed.

Lemma insert_winner_inv b db receipt jid w db' :
  store_inv b db -> insert_winner db receipt jid w = Ok db' -> store_inv b db'.
Proof.
  intros Hinv H. unfold insert_winner in H. bind_in H db1 Hnew.
  assert (store_inv b db1) as Hinv1.
  { run_steps Hnew; simplify_eq; [done|]. by apply inv_new_winner. }
  run_steps H. simplify_eq. by apply (inv_same b b db1).
Qed.

Lemma insert_winners_inv b db receipt jid l db' :
  store_inv b db -> insert_winners db receipt jid l = Ok db' -> store_inv b db'.
Proof.
  revert db; induction l as [|w l IH]; intros db Hinv H; cbn [insert_winners] in H; [by simplify_eq|].
  bind_in H db1 Hw. eapply IH; [|exact H]. by eapply insert_winner_inv.
Qed.

Lemma import_worker_inv b db worker db' :
  store_inv b db -> import_worker db worker = Ok db' -> store_inv b db'.
Proof.
  intros Hinv H. unfold import_worker in H. case_match; [done|]. bind_in H accounts' Ha. bind_in H workers' Hw.
  run_steps H. injection H as <-. by apply (inv_same b b db).
Qed.

Lemma commit_share_inv b db receipt jid worker target db' :
  store_inv b db -> commit_share db receipt jid worker target = Ok db' -> store_inv b db'.
Proof.
  intros Hinv H. unfold commit_share in H. run_steps H.
  match goal with Hi : import_worker _ _ = Ok _ |- _ => eapply import_worker_inv in Hi; [|exact Hinv] end.
  eapply insert_winners_inv; [|exact H]. by eapply (inv_same b b).
Qed.

(** ** The projector *)

(** An event is applied at its own sequence, which is new. *)
Lemma apply_event_inv b db fresh event db' : b < event_seq event ->
  store_inv b db -> apply_event db fresh event = Ok db' -> store_inv (event_seq event) db'.
Proof.
  intros Hb Hinv H.
  assert (forall d, store_inv b d -> store_inv (event_seq event) d) as Hup
    by (intros d Hd; apply (inv_same b (event_seq event) d d); try done; lia).
  destruct event; cbn [apply_event] in H; simpl in Hb, Hup |- *.
  all: first
    [by eapply (observe_winner_inv b)
    |by eapply (mature_winner_inv b)
    |apply Hup; first [by eapply commit_share_inv|by eapply side_chain_winner_inv
       |by eapply reverse_winner_inv|by eapply requeue_winner_inv|by simplify_eq]
    |run_steps H; apply Hup; first [by eapply reverse_winner_inv|simplify_eq; by apply (inv_same b b db)]].
Qed.

Lemma project_one_inv db fresh event :
  store_inv (last_event_seq (chn db)) db ->
  store_inv (last_event_seq (chn (fst (project_one db fresh event)))) (fst (project_one db fresh event)).
Proof.
  intros Hinv. unfold project_one. case_match; [|done]. cbv zeta. case_match; [done|].
  apply (transaction_cases (fun d => store_inv (last_event_seq (chn d)) d)); [done|].
  intros db' r H'. run_steps H'. injection H' as <- <-. boolprop.
  match goal with He : ok_or _ _ = Ok _ |- _ => apply ok_or_Ok in He; unfold checked_add in He; run_in He end.
  cbn [chn set_chn set_cursor last_event_seq].
  match goal with Ha : apply_event _ _ _ = Ok ?d |- _ =>
    assert (store_inv (event_seq event) d) as Hd end.
  { eapply (apply_event_inv (last_event_seq (chn db))); [lia| |eassumption].
    by apply (inv_same (last_event_seq (chn db)) (last_event_seq (chn db)) db). }
  by eapply (inv_same (event_seq event) (event_seq event)).
Qed.

Lemma project_events_inv db fresh events :
  store_inv (last_event_seq (chn db)) db ->
  store_inv (last_event_seq (chn (fst (project_events db fresh events)))) (fst (project_events db fresh events)).
Proof.
  revert db; induction events as [|event events IH]; intros db Hinv; cbn [project_events]; [done|].
  pose proof (project_one_inv db (fresh (length events)) event Hinv) as H1.
  destruct (project_one db _ event) as [db' [r|e]]; [by apply IH|done].
Qed.
End Projection.
