(* ===== verification/StoreOps.v ===== *)
(** The store as one machine: every writing operation of the payout worker, the portal and the
    event projector as a command, and the invariants that hold after any sequence of them. *)

From Stdlib Require Import ZArith Lia.
From stdpp Require Import prelude gmap sorting strings.
From S2P Require Import Prelude Wire Backend Hex LargestRemainder Pplns PayoutFees Ledger PayoutRequest StoreDb PayoutStore Configuration PayoutWatch WinnerStore Books BatchPlan StoreInv WinnerInv.
Open Scope Z_scope.

(** ** Commands *)

(** The arguments a command carries besides its request are what the operation draws: fresh
    identifiers, randomness, the clock, and the account's [enabled] column. *)
Inductive StoreOp : Type :=
| OpProject (fresh : nat -> nat -> Uuid) (events : list BackendEvent)
| OpBindPolicy (chain : Chain) (policy : ChainPolicy)
| OpLaunchPolicies (wcash zcash : Chain * ChainPolicy)
| OpConfigure (now : Z) (enabled : bool) (destination_id event_id : Uuid) (change : OwnedPayoutPreference)
| OpActivate (now : Z) (chain : Chain)
| OpOpening (ledger_id : Uuid) (chain : Chain) (observed_zat surplus_zat : Z)
| OpReconcile (checkpoint_id : Uuid) (now : Z) (observation : WalletObservation)
| OpCreate (now : Z) (fresh : nat -> Uuid) (draws : option (list Z)) (batch_id ledger_id : Uuid)
    (chain : Chain) (idempotency_key reconciliation_id : Uuid)
| OpAuthorizeSigning (now : Z) (batch_id : Uuid)
| OpMarkSigned (batch_id : Uuid) (facts : SignedFacts)
| OpAuthorizeBroadcast (batch_id : Uuid)
| OpMarkBroadcast (batch_id : Uuid)
| OpHoldExpired (now : Z) (batch_id : Uuid) (evidence : PayoutExpiryEvidence)
| OpExpireHeld (now : Z) (ledger_id batch_id : Uuid) (evidence : PayoutExpiryEvidence)
| OpConfirm (ledger_id batch_id : Uuid) (confirmation : PayoutConfirmation)
| OpReorg (event_id batch_id : Uuid) (evidence : PayoutReorg)
| OpCancelDraft (ledger_id batch_id : Uuid)
| OpCancelRejected (ledger_id batch_id : Uuid)
| OpAdvanceWatch (chain : Chain) (cursor : ConfirmedPayoutWatchCursor).

(** The types of the arguments: unsigned amounts, arrays of 32 bytes, and identifiers that
    [Uuid::new_v4] draws, which are not nil. *)
Definition op_wf (op : StoreOp) : Prop :=
  match op with
  | OpBindPolicy _ p => policy_unsigned p
  | OpLaunchPolicies w z => policy_unsigned (snd w) /\ policy_unsigned (snd z)
  | OpOpening _ _ _ surplus => 0 <= surplus
  | OpCreate _ _ _ batch_id _ _ _ _ => batch_id <> 0
  | OpMarkSigned _ facts => 0 <= sf_network_fee_zat facts /\ length (sf_transaction_id facts) = 32%nat /\
                            length (sf_unsigned_digest facts) = 32%nat
  | OpConfirm _ _ c => length (pc_block_hash c) = 32%nat
  | _ => True
  end.

Section Machine.
Context {env : StoreEnv}.

Definition run_op (db : Db) (op : StoreOp) : Db :=
  match op with
  | OpProject fresh events => fst (project_replay_page db fresh events)
  | OpBindPolicy chain p => fst (bind_chain_policy db chain p)
  | OpLaunchPolicies w z => fst (bind_zero_fee_launch_policies db w z)
  | OpConfigure now enabled did eid change => fst (configure_payout db now enabled did eid change)
  | OpActivate now chain => activate_due_payout_destinations db now chain
  | OpOpening lid chain w s => fst (record_opening_pool_equity db lid chain w s)
  | OpReconcile cid now o => fst (record_wallet_reconciliation db cid now o)
  | OpCreate now fresh draws bid lid chain key rid =>
      fst (create_payout_batch db now fresh draws bid lid chain key rid)
  | OpAuthorizeSigning now id => fst (authorize_payout_signing db now id)
  | OpMarkSigned id facts => fst (mark_payout_signed db id facts)
  | OpAuthorizeBroadcast id => fst (authorize_payout_broadcast db id)
  | OpMarkBroadcast id => fst (mark_payout_broadcast db id)
  | OpHoldExpired now id e => fst (hold_expired_payout db now id e)
  | OpExpireHeld now lid id e => fst (expire_held_payout db now lid id e)
  | OpConfirm lid id c => fst (confirm_payout db lid id c)
  | OpReorg eid id e => fst (mark_confirmed_payout_reorged db eid id e)
  | OpCancelDraft lid id => fst (cancel_payout_draft db lid id)
  | OpCancelRejected lid id => fst (cancel_rejected_payout_signing db lid id)
  | OpAdvanceWatch chain cursor => fst (advance_confirmed_payout_watch_cursor db chain cursor)
  end.

Definition run_ops (db : Db) (ops : list StoreOp) : Db := foldl run_op db ops.

(** The database after the migrations: no row, identity columns at one. *)
Definition empty_db : Db :=
  mkDb (mkLedgerTables [] 1 ∅ ∅)
       (mkPayoutTables ∅ ∅ ∅ ∅ ∅ ∅ [] ∅ ∅)
       (mkChainTables 0 ∅ ∅ ∅ ∅ [] ∅ ∅ []).

(** A state the store can be in. *)
Definition reachable (db : Db) : Prop := exists ops, Forall op_wf ops /\ db = run_ops empty_db ops.

Lemma reachable_ind_op (P : Db -> Prop) :
  P empty_db -> (forall db op, reachable db -> op_wf op -> P db -> P (run_op db op)) ->
  forall db, reachable db -> P db.
Proof.
  intros H0 HS db (ops & Hwf & ->). induction ops as [|op ops IH] using rev_ind; [done|].
  apply Forall_app in Hwf as [Hwf Hop]. rewrite Forall_singleton in Hop.
  unfold run_ops. rewrite foldl_app. cbn [foldl]. apply HS; [by exists ops|done|by apply IH].
Qed.

Lemma reachable_op db op : reachable db -> op_wf op -> reachable (run_op db op).
Proof.
  intros (ops & Hwf & ->) Hop. exists (ops ++ [op]). split; [by apply Forall_app; split; [|by constructor]|].
  unfold run_ops. by rewrite foldl_app.
Qed.

Lemma reachable_ops db ops : reachable db -> Forall op_wf ops -> reachable (run_ops db ops).
Proof.
  intros Hr Hwf. revert db Hr. induction Hwf as [|op ops Hop _ IH]; intros db Hr; cbn; [done|].
  apply IH. by apply reachable_op.
Qed.
End Machine.
