(* ===== verification/StoreEvolve.v ===== *)
(** How one operation may change the store: the ledger, the policies and the evidence only grow,
    a frozen chain stays frozen, destinations keep their receivers, and a payout batch changes
    only as the schema's trigger permits (permit_only_payout_batch_seal of migration 0022). *)

From Stdlib Require Import ZArith Lia.
From stdpp Require Import prelude gmap sorting strings.
From S2P Require Import Prelude Wire Backend Hex LargestRemainder Pplns PayoutFees Ledger PayoutRequest StoreDb PayoutStore Configuration PayoutWatch WinnerStore Books BatchPlan StoreInv WinnerInv StoreOps.
Open Scope Z_scope.

#[global] Instance BatchSeal_eq_dec : EqDecision BatchSeal.
Proof. solve_decision. Defined.

Section Trigger.
Context {env : StoreEnv}.

(** ** The trigger on [payout_batches] *)

Definition batch_identity_kept (old new : PayoutBatchRow) : bool :=
  bool_decide (br_chain new = br_chain old) && (br_policy_version new =? br_policy_version old)
  && (br_idempotency_key new =? br_idempotency_key old) && (br_created_at new =? br_created_at old).

Definition signed_kept (old new : PayoutBatchRow) : bool := bool_decide (br_signed new = br_signed old).
Definition confirmation_kept (old new : PayoutBatchRow) : bool :=
  bool_decide (br_confirmation new = br_confirmation old).

(** A sealed ledger transaction of the batch's chain that names it. *)
Definition posted (id : Uuid) (row : PayoutBatchRow) (kind : string) (x : LedgerTransaction) : bool :=
  bool_decide (lt_chain x = br_chain row) && String.eqb (lt_kind x) kind
  && String.eqb (lt_reference x) (env_uuid_text id).

(** The first update of a row, which seals it. *)
Definition seal_matches (db : Db) (id : Uuid) (new : PayoutBatchRow) (seal : BatchSeal) : bool :=
  let item_count := Z.of_nat (length (default [] (items (pay db) !! id))) in
  (1 <=? item_count) && (item_count <=? 200)
  && match reconciliations (pay db) !! bs_reconciliation_id seal with
     | Some r => bool_decide (wr_chain r = br_chain new) && wr_matched r
     | None => false
     end
  && existsb (fun x => (lt_sequence x =? bs_ledger_sequence_cutoff seal)
                       && posted id new "payout_reserved" x) (ledger (led db)).

Definition evidence_bound (row : PayoutBatchRow) (e : option PayoutExpiryEvidence) : bool :=
  match e, br_signed row with
  | Some e, Some f => bool_decide (ev_transaction_id e = sf_transaction_id f)
                      && bool_decide (ev_signed_transaction_sha256 e = env_sha256 (sf_signed_transaction f))
  | _, _ => false
  end.

(** The lifecycle of a sealed row. *)
Definition lifecycle_edge (db : Db) (id : Uuid) (old new : PayoutBatchRow) : bool :=
  match br_state old, br_state new with
  | Draft, Signing | Draft, Cancelled | Signed, Broadcasting | Broadcasting, Broadcast
  | Confirmed, Reorged => signed_kept old new && confirmation_kept old new
  | Signing, Signed => bool_decide (br_confirmation new = None)
  | (Broadcast | ExpiryPending), Confirmed => signed_kept old new
  | (Signed | Broadcasting | Broadcast), ExpiryPending =>
      bool_decide (br_chain new = Wcash) && signed_kept old new && confirmation_kept old new
      && evidence_bound new (expiry_held (pay db) !! id)
  | ExpiryPending, Expired =>
      bool_decide (br_chain new = Wcash) && signed_kept old new && confirmation_kept old new
      && evidence_bound new (fst <$> expiry_finalized (pay db) !! id)
  | Signing, Cancelled =>
      bool_decide (br_signed new = None) && bool_decide (br_confirmation new = None)
      && existsb (posted id new "payout_released") (ledger (led db))
  | _, _ => false
  end.

Definition permit_only_payout_batch_seal (db : Db) (id : Uuid) (old new : PayoutBatchRow) : bool :=
  batch_identity_kept old new &&
  match br_seal old with
  | None =>
      bool_decide (br_state old = Draft) && bool_decide (br_state new = Draft)
      && match br_seal new with Some seal => seal_matches db id new seal | None => false end
  | Some _ =>
      bool_decide (br_seal new = br_seal old) &&
      lifecycle_edge db id old new
  end.

(** ** Growth *)

(** Transactions are appended under the identity column. *)
Definition led_grows (t t' : LedgerTables) : Prop :=
  next_sequence t <= next_sequence t' /\
  exists new, ledger t' = ledger t ++ new /\
    StronglySorted Z.lt (lt_sequence <$> new) /\
    Forall (fun x => next_sequence t <= lt_sequence x < next_sequence t' /\
                     forallb ledger_entry_check (lt_entries x) = true) new.

(** A frozen chain keeps its first cause; a chain with a safety row keeps one. *)
Definition freeze_kept (t t' : LedgerTables) : Prop :=
  forall c row, safety t !! c = Some row ->
    exists row', safety t' !! c = Some row' /\ (payouts_frozen row = true -> row' = row).

Record led_evolves (t t' : LedgerTables) : Prop := {
  le_ledger : led_grows t t';
  le_safety : freeze_kept t t';
  le_policies : policies t ⊆ policies t';
  le_new_policies : forall c p, policies t' !! c = Some p -> policies t !! c = Some p \/ policy_wf p
}.

#[global] Instance led_evolves_preorder : PreOrder led_evolves.
Proof.
  split.
  - intros t. split; [|intros c row H; by exists row|done|by left].
    split; [lia|]. exists []. rewrite app_nil_r. split_and!; constructor.
  - intros t1 t2 t3 [(Hn1 & new1 & Hl1 & Hs1 & Hf1) Hz1 Hp1 Hq1] [(Hn2 & new2 & Hl2 & Hs2 & Hf2) Hz2 Hp2 Hq2].
    split; [|intros c row H|by etrans|].
    + split; [lia|]. exists (new1 ++ new2). split; [by rewrite Hl2, Hl1, app_assoc|]. split.
      * rewrite fmap_app. apply StronglySorted_app_2; [|done|done].
        intros a b (x & -> & Hx)%list_elem_of_fmap (y & -> & Hy)%list_elem_of_fmap.
        rewrite Forall_forall in Hf1, Hf2. specialize (Hf1 x Hx). specialize (Hf2 y Hy). simpl in *. lia.
      * apply Forall_app. split; (eapply Forall_impl; [eassumption|]); intros x [??]; simpl in *; (split; [lia|done]).
    + destruct (Hz1 c row H) as (row1 & H1 & Hk1). destruct (Hz2 c row1 H1) as (row2 & H2 & Hk2).
      exists row2. split; [done|]. intros Hf. specialize (Hk1 Hf). subst. by apply Hk2.
    + intros c p Hp. destruct (Hq2 c p Hp) as [H2|]; [|by right]. by apply Hq1.
Qed.

Lemma insert_ledger_evolves db lid c kind ev ref es db' :
  insert_ledger db lid c kind ev ref es = Ok db' -> led_evolves (led db) (led db') /\ pay db' = pay db /\ chn db' = chn db.
Proof.
  intros (-> & _ & _ & _ & Hc)%insert_ledger_Ok. split_and!; [|done|done]. split; [|intros c' row H; by exists row|done|by left].
  split; [cbn; lia|]. eexists. split; [done|]. split; [by repeat constructor|]. apply Forall_singleton. cbn. split; [lia|done].
Qed.

Lemma freeze_evolves t c ev reason t' : freeze_chain_payouts t c ev reason = Ok t' -> led_evolves t t'.
Proof.
  unfold freeze_chain_payouts. destruct (safety t !! c) as [row|] eqn:E; [|done]. intros [= <-].
  split; [|intros c' r H|done|by left].
  - split; [cbn; lia|]. exists []. cbn. rewrite app_nil_r. split_and!; constructor.
  - cbn. destruct (decide (c' = c)) as [->|Hne].
    + rewrite lookup_insert_eq. eexists. split; [done|]. intros Hf. rewrite E in H. simplify_eq. by rewrite Hf.
    + rewrite lookup_insert_ne by done. by exists r.
Qed.

(** ** The projector *)

(** What the pool owes a miner, as the negative balance of the account, and a frozen chain. *)
Definition payable (t : LedgerTables) (c : Chain) (a : Uuid) : Z := owner_balance t c (Some a) "miner_payable".

Definition frozen (t : LedgerTables) (c : Chain) : Prop :=
  exists row, safety t !! c = Some row /\ payouts_frozen row = true.

Lemma frozen_kept t t' c : led_evolves t t' -> frozen t c -> frozen t' c.
Proof.
  intros Hev (row & Hrow & Hf). destruct (le_safety _ _ Hev c row Hrow) as (row' & Hrow' & Hk).
  specialize (Hk Hf). subst. by exists row.
Qed.

(** Value is taken back from miners only on a chain without payouts, or that is then frozen. *)
Definition payable_kept (db db' : Db) : Prop :=
  forall c, frozen (led db') c \/ exposed db' c = false \/ forall a, payable (led db') c a <= payable (led db) c a.

(** Events leave the payout tables alone; applying one also leaves the journal to its caller. *)
Definition moves (db db' : Db) : Prop :=
  led_evolves (led db) (led db') /\ pay db' = pay db /\ payable_kept db db'.

Definition cursor (t : ChainTables) : Z * gmap Z (list Z) := (last_event_seq t, backend_events t).

Definition projects (db db' : Db) : Prop := moves db db' /\ cursor (chn db') = cursor (chn db).

#[global] Instance moves_preorder : PreOrder moves.
Proof.
  split.
  - intros db. split_and!; [done..|]. intros c. right. by right.
  - intros d1 d2 d3 (H1 & P1 & K1) (H2 & P2 & K2). split_and!; [by etrans|congruence|]. intros c.
    destruct (K2 c) as [|[|D2]]; [by left|by right; left|]. destruct (K1 c) as [F1|[E1|D1]].
    + left. by eapply frozen_kept.
    + right; left. unfold exposed in *. by rewrite P2.
    + right; right. intros a. etrans; [apply D2|apply D1].
Qed.

#[global] Instance projects_preorder : PreOrder projects.
Proof.
  split; [by intros db; split|]. intros d1 d2 d3 [H1 C1] [H2 C2]. split; [by etrans|congruence].
Qed.

Lemma moves_same db db' : ledger (led db') = ledger (led db) -> led_evolves (led db) (led db') ->
  pay db' = pay db -> moves db db'.
Proof. intros Hl Hev Hp. split_and!; [done..|]. intros c. right; right. intros a. unfold payable, owner_balance. by rewrite Hl. Qed.

Lemma projects_chn db t : cursor t = cursor (chn db) -> projects db (set_chn db t).
Proof. split; [by apply moves_same|done]. Qed.

(** A posting that takes nothing payable back, unless the chain allows it. *)
Definition covered (db : Db) (c : Chain) (es : list LedgerEntry) : Prop :=
  frozen (led db) c \/ exposed db c = false \/ forall a, owner_sum (Some a) "miner_payable" es <= 0.

Lemma projects_insert db lid c kind ev ref es db' :
  covered db c es -> insert_ledger db lid c kind ev ref es = Ok db' -> projects db db'.
Proof.
  intros Hcov H. pose proof H as (H1 & H2 & H3)%insert_ledger_evolves. split; [|by rewrite H3]. split_and!; [done..|].
  intros c'. destruct (decide (c' = c)) as [->|Hne].
  - destruct Hcov as [Hf|[He|Hs]].
    + left. by eapply frozen_kept.
    + right; left. unfold exposed in *. by rewrite H2.
    + right; right. intros a. apply insert_ledger_Ok in H as (-> & _). unfold payable, owner_balance.
      cbn [led ledger set_led]. rewrite owner_sum_snoc. cbn [lt_chain lt_entries]. specialize (Hs a). case_decide; lia.
  - right; right. intros a. apply insert_ledger_Ok in H as (-> & _). unfold payable, owner_balance.
    cbn [led ledger set_led]. rewrite owner_sum_snoc. cbn [lt_chain lt_entries]. case_decide; [congruence|lia].
Qed.

Lemma projects_winner db w s o m db' : update_winner_state db w s o m = Ok db' -> projects db db'.
Proof. intros (row & _ & ->)%update_winner_state_Ok. by apply projects_chn. Qed.

Lemma projects_proof db w sid s db' : update_winner_proof_state db w sid s = Ok db' -> projects db db'.
Proof. unfold update_winner_proof_state. intros H. case_match; [|done]. simplify_eq. by apply projects_chn. Qed.

Lemma projects_select db w sid : projects db (select_winner_proof db w sid).
Proof. unfold select_winner_proof. case_match; [by apply projects_chn|done]. Qed.

Lemma projects_freeze db c seq reason db' : freeze_if_exposed db c seq reason = Ok db' -> projects db db'.
Proof.
  intros H. pose proof H as (Hl & _ & Hp & Hc)%freeze_if_exposed_Ok. split; [|by rewrite Hc]. apply moves_same; [done| |done].
  unfold freeze_if_exposed in H. run_steps H; simplify_eq; [|done]. by eapply freeze_evolves.
Qed.

Lemma frozen_covered db c seq reason db' es : freeze_if_exposed db c seq reason = Ok db' -> covered db' c es.
Proof.
  unfold freeze_if_exposed, freeze_chain_payouts. intros H. run_steps H; simplify_eq.
  all: try (by right; left).
  all: left; eexists; split; [apply lookup_insert_eq|]; done.
Qed.

(** The lines that fill in payable amounts. *)
Lemma observation_covered db c reward plan es : observation_entries reward plan = Ok es -> covered db c es.
Proof.
  intros H. right; right. intros a. unfold observation_entries in H.
  assert (forall l es', immature_lines l = Ok es' -> owner_sum (Some a) "miner_payable" es' = 0) as Hlines.
  { induction l as [|x l IH]; intros es' Hl; cbn [immature_lines] in Hl; [by simplify_eq|].
    run_steps Hl; [|by apply IH]. simplify_eq. rewrite owner_sum_cons, (IH _ eq_refl). line_cases. }
  run_steps H; simplify_eq; rewrite owner_sum_cons, owner_sum_app; (erewrite Hlines by eassumption);
    rewrite ?owner_sum_cons, owner_sum_nil; line_cases.
Qed.

Lemma maturity_covered db c reward rows es : Forall (fun r => 0 <= al_amount_zat r) rows ->
  maturity_entries reward rows = Ok es -> covered db c es.
Proof.
  intros Hr H. right; right. intros a. apply maturity_entries_lines in H as [H _]. rewrite H, decide_False, decide_True by done.
  assert (0 <= row_sum a rows); [|lia]. unfold row_sum. apply sumZ_nonneg. apply Forall_fmap.
  eapply Forall_impl; [done|]. intros r ?. simpl in *. case_decide; lia.
Qed.

(** Follow the calls of a body, which each project. *)
Ltac follow :=
  repeat match goal with
  | |- projects ?d ?d => reflexivity
  | H : ?f = Ok ?d |- projects _ ?d => etrans; [|first
      [eapply projects_insert; [|exact H]|eapply projects_winner, H|eapply projects_proof, H|eapply projects_freeze, H]]
  | |- projects _ (select_winner_proof _ _ _) => etrans; [|apply projects_select]
  | |- projects _ (set_chn _ _) => etrans; [|by apply projects_chn]
  end.

Lemma observe_economic_projects db seq lid w conf lw db' :
  observe_economic_winner db seq lid w conf lw = Ok db' -> projects db db'.
Proof.
  unfold observe_economic_winner, demature_winner. intros H. run_steps H; simplify_eq.
  all: repeat match goal with Hi : insert_allocations _ _ _ _ _ _ = Ok _ |- _ => apply insert_allocations_Ok in Hi as [-> _] end.
  all: follow; try done.
  all: first [by eapply observation_covered|by eapply frozen_covered].
Qed.

Lemma mature_economic_projects b db seq lid w lw db' : store_inv b db ->
  mature_economic_winner db seq lid w lw = Ok db' -> projects db db'.
Proof.
  unfold mature_economic_winner. intros Hinv H. run_steps H; simplify_eq; follow.
  eapply maturity_covered; [|eassumption]. unfold allocation_rows. rewrite sort_by_perm.
  apply Forall_forall. intros r [_ Hr]%list_elem_of_filter.
  pose proof (si_allocations _ _ Hinv) as Ha. rewrite Forall_forall in Ha. by apply Ha.
Qed.

(** An observation that has not matured left nothing payable. *)
Lemma observed_quiet b db sid jid w lw a : store_inv b db -> load_winner db sid jid w = Ok lw ->
  positive_state (lw_state lw) = true -> lw_maturity_event_seq lw = None ->
  owner_sum (Some a) "miner_payable"
    (event_entries (ledger (led db)) (lw_observation_event_seq lw) (lw_maturity_event_seq lw)) = 0.
Proof.
  intros Hinv (row & Hrow & Hst & Ho & Hm & _)%load_winner_Ok Hpos Hnone.
  pose proof (si_winners _ _ Hinv _ _ Hrow) as Hok. unfold winner_ok in Hok. rewrite Hnone, Ho.
  rewrite <- Hst, <- Hm, Hnone in Hok. unfold positive_state in Hpos.
  destruct (lw_state lw); try done; destruct (wn_active_observation_event_seq row) as [o|]; try done.
  destruct Hok as (_ & Hlines & _). by rewrite Hlines.
Qed.

Lemma reverse_economic_projects b db db1 seq lid sid jid w lw rev db' :
  store_inv b db -> load_winner db sid jid w = Ok lw ->
  update_winner_proof_state db w sid (reversal_state rev) = Ok db1 ->
  reverse_economic_winner db1 seq lid w lw rev = Ok db' -> projects db1 db'.
Proof.
  intros Hinv Hload (Hl1 & _)%update_winner_proof_state_Ok H. unfold reverse_economic_winner in H.
  destruct (positive_state (lw_state lw)) eqn:Hpos; cbn [negb] in H; [|run_steps H; simplify_eq; by follow].
  bind_in H db2 Hf. destruct (bool_decide_reflect (is_Some (lw_maturity_event_seq lw))) as [_|Hnone].
  - run_steps H; simplify_eq; follow. by eapply frozen_covered.
  - simplify_eq. apply eq_None_not_Some in Hnone. run_steps H; simplify_eq; follow. right; right. intros a'.
    match goal with Hn : negated_entries _ = Ok _ |- _ => apply negated_entries_Ok in Hn as [Hn _]; rewrite Hn end.
    rewrite Hl1. by erewrite observed_quiet by eassumption.
Qed.

Lemma insert_winner_projects db receipt jid w db' : insert_winner db receipt jid w = Ok db' -> projects db db'.
Proof.
  unfold insert_winner. intros H. bind_in H db1 Hnew. run_steps H. simplify_eq. follow.
  run_steps Hnew; simplify_eq; [done|]. by apply projects_chn.
Qed.

Lemma insert_winners_projects db receipt jid l db' : insert_winners db receipt jid l = Ok db' -> projects db db'.
Proof.
  revert db; induction l as [|w l IH]; intros db H; cbn [insert_winners] in H; [by simplify_eq|].
  bind_in H db1 Hw. etrans; [by eapply insert_winner_projects|by apply IH].
Qed.

Lemma commit_share_projects db receipt jid worker target db' :
  commit_share db receipt jid worker target = Ok db' -> projects db db'.
Proof.
  unfold commit_share. intros H. run_steps H. etrans; [|by eapply insert_winners_projects].
  follow. match goal with Hi : import_worker _ _ = Ok _ |- _ => unfold import_worker in Hi; revert Hi end.
  intros Hi. case_match; [done|]. bind_in Hi accounts' Ha. bind_in Hi workers' Hb. run_steps Hi. injection Hi as <-. by apply projects_chn.
Qed.

Lemma observe_winner_projects db seq lid sid jid w conf db' :
  observe_winner db seq lid sid jid w conf = Ok db' -> projects db db'.
Proof. unfold observe_winner. intros H. run_steps H. simplify_eq. follow. by eapply observe_economic_projects. Qed.

Lemma mature_winner_projects b db seq fresh sid jid w conf db' : b < seq -> store_inv b db ->
  mature_winner db seq fresh sid jid w conf = Ok db' -> projects db db'.
Proof.
  unfold mature_winner. intros Hb Hinv H. bind_in H lw Hload. case_match; [done|]. bind_in H required Hreq.
  case_match; [done|]. bind_in H p Hp. destruct p as [db1 lw1]. run_steps H. simplify_eq. follow.
  destruct (positive_state (lw_state lw)).
  - simplify_eq. by eapply mature_economic_projects.
  - run_steps Hp. simplify_eq. etrans; [by eapply observe_economic_projects|].
    eapply mature_economic_projects; [|eassumption].
    apply load_winner_Ok in Hload as (row & Hrow & Hst & Hobs & Hm & _ & Hrew & _).
    by eapply (observe_economic_winner_inv b).
Qed.

Lemma reverse_winner_projects b db seq lid sid jid w rev db' : store_inv b db ->
  reverse_winner db seq lid sid jid w rev = Ok db' -> projects db db'.
Proof.
  unfold reverse_winner. intros Hinv H. run_steps H; simplify_eq; try (by follow).
  all: etrans; [by eapply projects_proof|by eapply reverse_economic_projects].
Qed.

Lemma apply_event_projects b db fresh event db' : b < event_seq event -> store_inv b db ->
  apply_event db fresh event = Ok db' -> projects db db'.
Proof.
  intros Hb Hinv H. destruct event; cbn [apply_event] in H.
  all: first
    [by eapply commit_share_projects|by eapply observe_winner_projects|by eapply (mature_winner_projects b)
    |by eapply reverse_winner_projects|by simplify_eq
    |run_steps H; first [by eapply reverse_winner_projects|simplify_eq; by apply projects_chn]
    |unfold side_chain_winner, requeue_winner in H; run_steps H; simplify_eq; by follow].
Qed.

Lemma project_one_moves db fresh event : store_inv (last_event_seq (chn db)) db ->
  moves db (fst (project_one db fresh event)).
Proof.
  intros Hinv. unfold project_one. case_match; [|done]. cbv zeta. case_match; [done|].
  apply (transaction_cases (moves db)); [done|]. intros db' r H'. run_steps H'. injection H' as <- <-.
  match goal with He : ok_or _ _ = Ok _ |- _ => apply ok_or_Ok in He; unfold checked_add in He; run_in He end.
  match goal with Ha : apply_event ?d0 _ _ = Ok ?d |- _ => etrans; [by apply (moves_same db d0)|];
    apply (apply_event_projects (last_event_seq (chn db))) in Ha as [Ha _]; [|lia|] end.
  { etrans; [eassumption|]. by apply moves_same. }
  by apply (inv_same (last_event_seq (chn db)) (last_event_seq (chn db)) db).
Qed.

Lemma project_events_moves db fresh events : store_inv (last_event_seq (chn db)) db ->
  moves db (fst (project_events db fresh events)).
Proof.
  revert db; induction events as [|event events IH]; intros db Hinv; cbn [project_events]; [done|].
  pose proof (project_one_moves db (fresh (length events)) event Hinv) as H1.
  pose proof (project_one_inv db (fresh (length events)) event Hinv) as Hinv1.
  destruct (project_one db _ event) as [db' [r|e]]; [|done]. etrans; [exact H1|by apply IH].
Qed.

(** ** One operation *)

(** The transitions that move value outside: they need an unfrozen chain. *)
Definition gated (old new : PayoutBatchState) : bool :=
  match old, new with Draft, Signing | Signed, Broadcasting => true | _, _ => false end.

(** The row as it was inserted, before its seal. *)
Definition unsealed (row : PayoutBatchRow) : PayoutBatchRow :=
  mkPayoutBatchRow (br_chain row) (br_policy_version row) (br_idempotency_key row) (br_state row)
    (br_created_at row) None None None.

(** The transaction identifier of a row is new to its chain. *)
Definition fresh_txid (db : Db) (id : Uuid) (row' : PayoutBatchRow) : Prop :=
  forall f j r g, br_signed row' = Some f -> j <> id -> batches (pay db) !! j = Some r ->
    br_chain r = br_chain row' -> br_signed r = Some g -> sf_transaction_id g <> sf_transaction_id f.

(** The idempotency key and the wallet checkpoint of a row are new. *)
Definition fresh_keys (db : Db) (row' : PayoutBatchRow) : Prop :=
  forall j r, batches (pay db) !! j = Some r -> br_idempotency_key r <> br_idempotency_key row' /\
    forall s s', br_seal r = Some s -> br_seal row' = Some s' -> bs_reconciliation_id s <> bs_reconciliation_id s'.

Record evolves (db db' : Db) : Prop := {
  ev_led : led_evolves (led db) (led db');
  ev_receivers : receivers_kept (pay db) (pay db');
  ev_items : items (pay db) ⊆ items (pay db');
  ev_items_owned : forall id, is_Some (items (pay db') !! id) ->
    is_Some (items (pay db) !! id) \/ is_Some (batches (pay db') !! id);
  ev_reconciliations : reconciliations (pay db) ⊆ reconciliations (pay db');
  ev_held : expiry_held (pay db) ⊆ expiry_held (pay db');
  ev_finalized : expiry_finalized (pay db) ⊆ expiry_finalized (pay db');
  ev_batches : forall id row, batches (pay db) !! id = Some row ->
    exists row', batches (pay db') !! id = Some row' /\
      (row' = row \/ permit_only_payout_batch_seal db' id row row' = true);
  ev_created : forall id row', batches (pay db) !! id = None -> batches (pay db') !! id = Some row' ->
    permit_only_payout_batch_seal db' id (unsealed row') row' = true /\
    br_signed row' = None /\ br_confirmation row' = None /\ fresh_keys db row';
  ev_signed : forall id row row', batches (pay db) !! id = Some row -> batches (pay db') !! id = Some row' ->
    br_signed row' = br_signed row \/ fresh_txid db id row';
  ev_single : exists id, forall j, j <> id -> batches (pay db') !! j = batches (pay db) !! j;
  ev_gate : forall id row', batches (pay db') !! id = Some row' ->
    lock_unfrozen_chain (led db) (br_chain row') = Ok tt \/
    exists row, batches (pay db) !! id = Some row /\ gated (br_state row) (br_state row') = false
}.

Lemma gated_same s : gated s s = false.
Proof. by destruct s. Qed.

Lemma evolves_frame db db' :
  led_evolves (led db) (led db') -> receivers_kept (pay db) (pay db') ->
  items (pay db') = items (pay db) -> reconciliations (pay db) ⊆ reconciliations (pay db') ->
  expiry_held (pay db') = expiry_held (pay db) -> expiry_finalized (pay db') = expiry_finalized (pay db) ->
  batches (pay db') = batches (pay db) -> evolves db db'.
Proof.
  intros Hl Hr Hi Hc Hh Hf Hb. split; rewrite ?Hi, ?Hh, ?Hf, ?Hb; try done.
  - by left.
  - intros id row Hrow. exists row. auto.
  - congruence.
  - intros id row row' H1 H2. left. congruence.
  - by exists 0.
  - intros id row Hrow. right. exists row. by rewrite gated_same.
Qed.

Lemma evolves_refl db : evolves db db.
Proof. apply evolves_frame; try done. intros i d Hd. by exists d. Qed.

Lemma evolves_moves db db' : moves db db' -> evolves db db'.
Proof. intros (Hl & Hp & _). apply evolves_frame; rewrite ?Hp; try done. intros i d Hd. by exists d. Qed.

(** One row moves. *)
Lemma evolves_row db db' id row row' :
  batches (pay db) !! id = Some row -> led_evolves (led db) (led db') ->
  destinations (pay db') = destinations (pay db) -> items (pay db') = items (pay db) ->
  reconciliations (pay db') = reconciliations (pay db) ->
  expiry_held (pay db) ⊆ expiry_held (pay db') -> expiry_finalized (pay db) ⊆ expiry_finalized (pay db') ->
  batches (pay db') = <[id := row']> (batches (pay db)) ->
  permit_only_payout_batch_seal db' id row row' = true ->
  br_signed row' = br_signed row \/ fresh_txid db id row' ->
  lock_unfrozen_chain (led db) (br_chain row') = Ok tt \/ gated (br_state row) (br_state row') = false ->
  evolves db db'.
Proof.
  intros Hrow Hl Hd Hi Hc Hh Hf Hb Hp Hx Hg. split; rewrite ?Hi, ?Hc; try done.
  - by apply receivers_kept_refl.
  - by left.
  - rewrite Hb. intros j r Hj. destruct (decide (j = id)) as [->|Hne].
    + rewrite lookup_insert_eq. exists row'. split; [done|]. right. congruence.
    + rewrite lookup_insert_ne by done. exists r. auto.
  - rewrite Hb. intros j r Hj Hr. assert (j <> id) by congruence. rewrite lookup_insert_ne in Hr by done. congruence.
  - rewrite Hb. intros j r r' Hj Hr. destruct (decide (j = id)) as [->|Hne].
    + rewrite lookup_insert_eq in Hr. by simplify_eq.
    + rewrite lookup_insert_ne in Hr by done. left. congruence.
  - exists id. intros j Hj. by rewrite Hb, lookup_insert_ne.
  - rewrite Hb. intros j r Hr. destruct (decide (j = id)) as [->|Hne].
    + rewrite lookup_insert_eq in Hr. simplify_eq. destruct Hg as [Hg|Hg]; [by left|]. right. by exists row.
    + rewrite lookup_insert_ne in Hr by done. right. exists r. by rewrite gated_same.
Qed.

(** What the schema's row checks keep of a stored batch. *)
Definition row_wf (row : PayoutBatchRow) : Prop :=
  is_Some (br_seal row) /\
  match br_state row with Confirmed | Reorged => True | _ => br_confirmation row = None end.

Definition rows_wf (db : Db) : Prop :=
  map_Forall (fun _ => row_wf) (batches (pay db)) /\
  (forall id, is_Some (items (pay db) !! id) -> is_Some (batches (pay db) !! id)).

Lemma rows_wf_evolves db db' : rows_wf db -> evolves db db' -> rows_wf db'.
Proof.
  intros [Hwf Hown] Hev. split.
  2:{ intros id Hid. destruct (ev_items_owned _ _ Hev id Hid) as [Hi|]; [|done].
      destruct (Hown id Hi) as [row Hrow]. destruct (ev_batches _ _ Hev id row Hrow) as (row' & Hr & _). by exists row'. }
  intros id row' Hrow'. destruct (batches (pay db) !! id) as [row|] eqn:Hrow.
  - destruct (ev_batches _ _ Hev id row Hrow) as (r & Hr & [->|Hp]); [rewrite Hr in Hrow'; simplify_eq; by apply (Hwf id)|].
    rewrite Hr in Hrow'. simplify_eq. destruct (Hwf id row Hrow) as [[seal Hs] Hc]. unfold row_wf.
    unfold permit_only_payout_batch_seal in Hp. rewrite Hs in Hp. apply andb_true_iff in Hp as [_ Hp].
    apply andb_true_iff in Hp as [Hseal Hp]. apply bool_decide_eq_true in Hseal. rewrite Hseal. split; [by eexists|].
    unfold lifecycle_edge, confirmation_kept in Hp.
    destruct (br_state row), (br_state row'); try done; boolprop; destruct_and?; congruence.
  - destruct (ev_created _ _ Hev id row' Hrow Hrow') as (Hp & _ & Hc & _). unfold row_wf. rewrite Hc.
    unfold permit_only_payout_batch_seal in Hp. cbn [unsealed br_seal] in Hp.
    split; [|by destruct (br_state row')]. destruct (br_seal row'); [done|]. by rewrite !andb_false_r in Hp.
Qed.

Lemma permit_edge db id row row' :
  is_Some (br_seal row) -> br_chain row' = br_chain row -> br_policy_version row' = br_policy_version row ->
  br_idempotency_key row' = br_idempotency_key row -> br_created_at row' = br_created_at row ->
  br_seal row' = br_seal row -> lifecycle_edge db id row row' = true ->
  permit_only_payout_batch_seal db id row row' = true.
Proof.
  intros [seal Hs] H1 H2 H3 H4 H5 Hp. unfold permit_only_payout_batch_seal, batch_identity_kept.
  rewrite H1, H2, H3, H4, !Z.eqb_refl, Hs, H5, Hs, !bool_decide_eq_true_2 by done. done.
Qed.

Lemma edge_signed db1 db id row row' : lifecycle_edge db1 id row row' = true ->
  (br_state row' = Signed -> fresh_txid db id row') -> br_signed row' = br_signed row \/ fresh_txid db id row'.
Proof.
  unfold lifecycle_edge, signed_kept. intros He Hx. destruct (br_state row), (br_state row'); try done; try (right; by apply Hx).
  all: boolprop; try (by left). right. intros f j r g Hf. congruence.
Qed.

Lemma put_batch_evolves db db1 id row row' :
  batches (pay db) !! id = Some row -> rows_wf db -> led_evolves (led db) (led db1) ->
  destinations (pay db1) = destinations (pay db) -> items (pay db1) = items (pay db) ->
  reconciliations (pay db1) = reconciliations (pay db) -> batches (pay db1) = batches (pay db) ->
  expiry_held (pay db) ⊆ expiry_held (pay db1) -> expiry_finalized (pay db) ⊆ expiry_finalized (pay db1) ->
  br_chain row' = br_chain row -> br_policy_version row' = br_policy_version row ->
  br_idempotency_key row' = br_idempotency_key row -> br_created_at row' = br_created_at row ->
  br_seal row' = br_seal row -> lifecycle_edge db1 id row row' = true ->
  (br_state row' = Signed -> fresh_txid db id row') ->
  lock_unfrozen_chain (led db) (br_chain row) = Ok tt \/ gated (br_state row) (br_state row') = false ->
  evolves db (put_batch db1 id row').
Proof.
  intros Hrow Hwf Hl Hd Hi Hc Hb Hh Hf H1 H2 H3 H4 H5 Hp Hx Hg.
  apply (evolves_row db _ id row row'); try done.
  - cbn. by rewrite Hb.
  - apply permit_edge; try done. apply (proj1 Hwf id row Hrow).
  - by apply (edge_signed db1).
  - by rewrite H1.
Qed.

Lemma released_posted db lid c kind ref es db1 id row :
  insert_ledger db lid c kind None ref es = Ok db1 -> c = br_chain row -> ref = env_uuid_text id ->
  existsb (posted id row kind) (ledger (led db1)) = true.
Proof.
  intros (-> & _)%insert_ledger_Ok -> ->. apply existsb_exists. eexists. split.
  - cbn. apply in_or_app. right. by left.
  - unfold posted. cbn. by rewrite bool_decide_eq_true_2, !String.eqb_refl.
Qed.

Lemma kept_refl row : bool_decide (br_signed row = br_signed row) = true /\
  bool_decide (br_confirmation row = br_confirmation row) = true.
Proof. by rewrite !bool_decide_eq_true_2. Qed.

Lemma cancel_payout_draft_evolves db lid id : rows_wf db -> evolves db (fst (cancel_payout_draft db lid id)).
Proof.
  intros Hwf. unfold cancel_payout_draft. apply (transaction_cases (evolves db)); [apply evolves_refl|].
  intros db' r H. run_steps H. injection H as <- <-.
  match goal with Hu : update_payout_state _ _ _ _ = Ok _, Hi : insert_ledger _ _ _ _ _ _ _ = Ok _ |- _ =>
    apply insert_ledger_evolves in Hi as (Hl & Hpay & _); apply update_payout_state_Ok in Hu as (row & Hrow & Hst & ->) end.
  rewrite Hpay in Hrow. apply (put_batch_evolves db _ id row); rewrite ?Hpay; try done.
  - unfold lifecycle_edge, signed_kept, confirmation_kept. cbn. rewrite Hst. by destruct (kept_refl row) as [-> ->].
  - right. by rewrite Hst.
Qed.

Lemma cancel_rejected_payout_signing_evolves b db lid id : rows_wf db -> store_inv b db ->
  evolves db (fst (cancel_rejected_payout_signing db lid id)).
Proof.
  intros Hwf Hinv. unfold cancel_rejected_payout_signing.
  apply (transaction_cases (evolves db)); [apply evolves_refl|]. intros db' r H. run_steps H. injection H as <- <-.
  match goal with Hu : update_payout_state _ _ _ _ = Ok _, Hi : insert_ledger _ _ _ _ _ _ _ = Ok _,
                  Hl : load_payout_batch _ _ = Ok _ |- _ =>
    pose proof Hi as (Hev & Hpay & _)%insert_ledger_evolves; apply update_payout_state_Ok in Hu as (row & Hrow & Hst & ->);
    apply load_payout_batch_Ok in Hl as (row0 & _ & Hrow0 & _ & _ & Hch & _);
    rewrite Hpay, Hrow0 in Hrow; simplify_eq; pose proof (released_posted _ _ _ _ _ _ _ id (set_state row Cancelled) Hi Hch eq_refl) as Hrel end.
  destruct (si_batches _ _ Hinv id row Hrow0) as (_ & _ & Hs). rewrite Hst in Hs.
  destruct (proj1 Hwf id row Hrow0) as [_ Hc]. rewrite Hst in Hc.
  apply (put_batch_evolves db _ id row); rewrite ?Hpay; try done.
  - unfold lifecycle_edge. cbn [set_state br_state br_signed br_confirmation]. rewrite Hst, Hs, Hc, Hrel. done.
  - right. by rewrite Hst.
Qed.

Lemma evidence_validated db now id e row u :
  validate_payout_expiry_evidence db now id e = Ok u -> batches (pay db) !! id = Some row ->
  evidence_bound row (Some e) = true.
Proof.
  unfold validate_payout_expiry_evidence. intros H Hrow. run_steps H. boolprop.
  repeat match goal with Ho : ok_or _ _ = Ok _ |- _ => apply ok_or_Ok in Ho end. simplify_eq.
  unfold evidence_bound. match goal with Hf : br_signed _ = Some _ |- _ => rewrite Hf end.
  apply andb_true_iff. split; apply bool_decide_eq_true_2; symmetry; by apply dec_stable.
Qed.

Lemma hold_expired_payout_evolves db now id e : rows_wf db ->
  evolves db (fst (hold_expired_payout db now id e)).
Proof.
  intros Hwf. unfold hold_expired_payout.
  apply (transaction_cases (evolves db)); [apply evolves_refl|]. intros db' r H. run_steps H; injection H as <- <-.
  all: match goal with Hu : update_payout_state _ _ _ _ = Ok _, Hl : load_payout_batch _ _ = Ok _,
                       Hc : bool_decide (pb_chain _ <> _) = false, Hh : bool_decide (is_Some _) = false |- _ =>
    apply update_payout_state_Ok in Hu as (row & Hrow & Hst & ->);
    apply load_payout_batch_Ok in Hl as (row0 & _ & Hrow0 & _ & _ & Hch & _);
    cbn [pay set_pay batches set_expiry_held] in Hrow; rewrite Hrow0 in Hrow; simplify_eq;
    apply bool_decide_eq_false in Hc; apply dec_stable in Hc; rewrite Hch in Hc;
    apply bool_decide_eq_false in Hh; apply eq_None_not_Some in Hh end.
  all: match goal with Hv : validate_payout_expiry_evidence _ _ _ _ = Ok _ |- _ =>
    pose proof (evidence_validated _ _ _ _ _ _ Hv Hrow0) as Hbound end.
  all: apply (put_batch_evolves db _ id row); try done; [by apply insert_subseteq| |right; by rewrite Hst].
  all: unfold lifecycle_edge, signed_kept, confirmation_kept;
    cbn [set_state br_state br_chain br_signed br_confirmation pay set_pay set_expiry_held expiry_held];
    rewrite Hst, lookup_insert_eq, bool_decide_eq_true_2 by done; destruct (kept_refl row) as [-> ->].
  all: exact Hbound.
Qed.

Lemma expire_held_payout_evolves db now lid id e : rows_wf db ->
  evolves db (fst (expire_held_payout db now lid id e)).
Proof.
  intros Hwf. unfold expire_held_payout.
  apply (transaction_cases (evolves db)); [apply evolves_refl|]. intros db' r H. run_steps H; injection H as <- <-.
  all: match goal with Hu : update_payout_state _ _ _ _ = Ok _, Hl : load_payout_batch _ _ = Ok _,
                       Hi : insert_ledger _ _ _ _ _ _ _ = Ok ?d,
                       Hc : bool_decide (pb_chain _ <> _) = false, Hh : bool_decide (is_Some (expiry_finalized _ !! _)) = false |- _ =>
    apply insert_ledger_evolves in Hi as (Hev & Hpay & _);
    apply update_payout_state_Ok in Hu as (row & Hrow & Hst & ->);
    apply load_payout_batch_Ok in Hl as (row0 & _ & Hrow0 & _ & _ & Hch & _);
    cbn [pay set_pay batches set_expiry_finalized] in Hrow; rewrite Hpay, Hrow0 in Hrow; simplify_eq;
    apply bool_decide_eq_false in Hc; apply dec_stable in Hc; rewrite Hch in Hc;
    apply bool_decide_eq_false in Hh; apply eq_None_not_Some in Hh; rewrite Hpay in Hh end.
  all: match goal with Hv : validate_payout_expiry_evidence _ _ _ _ = Ok _ |- _ =>
    pose proof (evidence_validated _ _ _ _ _ _ Hv Hrow0) as Hbound end.
  all: apply (put_batch_evolves db _ id row); cbn [pay set_pay set_expiry_finalized expiry_finalized expiry_held
      items batches destinations reconciliations]; rewrite ?Hpay; try done;
    [by apply insert_subseteq| |right; by rewrite Hst].
  all: unfold lifecycle_edge, signed_kept, confirmation_kept;
    cbn [set_state br_state br_chain br_signed br_confirmation pay set_pay set_expiry_finalized expiry_finalized];
    rewrite Hst, lookup_insert_eq, bool_decide_eq_true_2 by done; destruct (kept_refl row) as [-> ->].
  all: exact Hbound.
Qed.

Lemma authorize_payout_signing_evolves db now id : rows_wf db ->
  evolves db (fst (authorize_payout_signing db now id)).
Proof.
  intros Hwf. unfold authorize_payout_signing. case_match; [apply evolves_refl|].
  apply (transaction_cases (evolves db)); [apply evolves_refl|]. intros db' r H'. run_steps H'. injection H' as <- <-.
  match goal with Hu : update_payout_state _ _ _ _ = Ok _, Hl : load_payout_batch _ _ = Ok _,
                  Hf : lock_unfrozen_chain _ _ = Ok ?u |- _ =>
    destruct u; apply update_payout_state_Ok in Hu as (row & Hrow & Hst & ->);
    apply load_payout_batch_Ok in Hl as (row0 & _ & Hrow0 & _ & _ & Hch & _);
    rewrite Hrow0 in Hrow; simplify_eq; rewrite Hch in Hf end.
  apply (put_batch_evolves db db id row); try done; [|by left].
  unfold lifecycle_edge, signed_kept, confirmation_kept. cbn. rewrite Hst. by destruct (kept_refl row) as [-> ->].
Qed.

Lemma signed_facts_fresh db id row facts u : signed_facts_allowed db id row facts = Ok u ->
  fresh_txid db id (set_signed row Signed (Some facts)).
Proof.
  unfold signed_facts_allowed. intros H f j r g Hf Hj Hr Hc Hg Heq. cbn in Hf, Hc. simplify_eq.
  case_match eqn:Hx; [done|]. apply not_true_iff_false in Hx. apply Hx, existsb_exists. exists (j, r).
  split; [by apply list_elem_of_In, elem_of_map_to_list|]. cbn [fst snd].
  rewrite Hg, Heq, Hc, !bool_decide_eq_true_2 by done. by rewrite (proj2 (Z.eqb_neq _ _)).
Qed.

Lemma mark_payout_signed_evolves db id facts : rows_wf db -> evolves db (fst (mark_payout_signed db id facts)).
Proof.
  intros Hwf. unfold mark_payout_signed. case_match; [apply evolves_refl|].
  apply transition_payout_Ok; [apply evolves_refl|]. intros row Hrow Hst Hallow.
  destruct (proj1 Hwf id row Hrow) as [_ Hc]. rewrite Hst in Hc.
  apply (put_batch_evolves db db id row); try done.
  - unfold lifecycle_edge. cbn [set_signed br_state br_confirmation]. by rewrite Hst, bool_decide_eq_true_2.
  - intros _. apply (signed_facts_fresh db id row facts tt). by apply Hallow.
  - right. by rewrite Hst.
Qed.

Lemma mark_payout_broadcast_evolves db id : rows_wf db -> evolves db (fst (mark_payout_broadcast db id)).
Proof.
  intros Hwf. unfold mark_payout_broadcast. apply transition_payout_Ok; [apply evolves_refl|]. intros row Hrow Hst _.
  apply (put_batch_evolves db db id row); try done; [|right; by rewrite Hst].
  unfold lifecycle_edge, signed_kept, confirmation_kept. cbn. rewrite Hst. by destruct (kept_refl row) as [-> ->].
Qed.

Lemma authorize_payout_broadcast_evolves db id : rows_wf db ->
  evolves db (fst (authorize_payout_broadcast db id)).
Proof.
  intros Hwf. unfold authorize_payout_broadcast. case_match; [apply evolves_refl|].
  apply (transaction_cases (evolves db)); [apply evolves_refl|]. intros db' r H'. run_steps H'; injection H' as <- <-;
    try apply evolves_refl.
  match goal with Hu : update_payout_state _ _ _ _ = Ok _, Hr : ok_or _ _ = Ok _, Hf : lock_unfrozen_chain _ _ = Ok ?u |- _ =>
    destruct u; apply ok_or_Ok in Hr; apply update_payout_state_Ok in Hu as (row & Hrow & Hst & ->);
    rewrite Hr in Hrow; simplify_eq end.
  apply (put_batch_evolves db db id row); try done; [|by left].
  unfold lifecycle_edge, signed_kept, confirmation_kept. cbn. rewrite Hst. by destruct (kept_refl row) as [-> ->].
Qed.

Lemma confirm_payout_evolves db lid id c : rows_wf db -> evolves db (fst (confirm_payout db lid id c)).
Proof.
  intros Hwf. unfold confirm_payout. case_match; [|apply evolves_refl].
  apply (transaction_cases (evolves db)); [apply evolves_refl|]. intros db' r H'. run_steps H'; injection H' as <- <-.
  all: match goal with Hl : load_payout_batch _ _ = Ok _, Hi : insert_ledger _ _ _ _ _ _ _ = Ok _,
                       Hr : ok_or (batches _ !! _) _ = Ok ?row, Hs : pb_state _ = _ |- _ =>
    apply insert_ledger_evolves in Hi as (Hev & Hpay & _); apply ok_or_Ok in Hr;
    apply load_payout_batch_Ok in Hl as (row0 & _ & Hrow0 & _ & _ & _ & Hst & _); rewrite Hr in Hrow0;
    injection Hrow0 as <-; rewrite Hs in Hst; symmetry in Hst;
    apply (put_batch_evolves db _ id row); rewrite ?Hpay; try done; [|right; by rewrite Hst];
    unfold lifecycle_edge, signed_kept; cbn [set_confirmation br_state br_signed]; rewrite Hst;
    by rewrite bool_decide_eq_true_2 end.
Qed.

Lemma mark_confirmed_payout_reorged_evolves db eid id e : rows_wf db ->
  evolves db (fst (mark_confirmed_payout_reorged db eid id e)).
Proof.
  intros Hwf. unfold mark_confirmed_payout_reorged. case_match; [|apply evolves_refl].
  apply (transaction_cases (evolves db)); [apply evolves_refl|]. intros db' r H'. run_steps H'; injection H' as <- <-.
  all: match goal with Hl : load_payout_batch _ _ = Ok _, Hf : freeze_chain_payouts _ _ _ _ = Ok _,
                       Hr : ok_or (batches _ !! _) _ = Ok ?row, Hs : pb_state _ = Confirmed |- _ =>
    apply freeze_evolves in Hf; apply ok_or_Ok in Hr;
    apply load_payout_batch_Ok in Hl as (row0 & _ & Hrow0 & _ & _ & _ & Hst & _); rewrite Hr in Hrow0;
    injection Hrow0 as <-; rewrite Hs in Hst; symmetry in Hst;
    apply (evolves_row db _ id row (set_state row Reorged)); try done; [|by left|right; by rewrite Hst] end.
  apply permit_edge; try done; [by apply (proj1 Hwf id)|].
  unfold lifecycle_edge, signed_kept, confirmation_kept. cbn. rewrite Hst.
  match goal with |- context [bool_decide (br_signed ?x = br_signed ?x)] => by destruct (kept_refl x) as [-> ->] end.
Qed.

Lemma record_wallet_reconciliation_evolves db cid now o : evolves db (fst (record_wallet_reconciliation db cid now o)).
Proof.
  unfold record_wallet_reconciliation. case_match; [apply evolves_refl|].
  apply (transaction_cases (evolves db)); [apply evolves_refl|]. intros db' r H'. run_steps H'; injection H' as <- <-.
  all: match goal with Hc : bool_decide (is_Some (reconciliations _ !! _)) = false |- _ =>
    apply bool_decide_eq_false in Hc; apply eq_None_not_Some in Hc end.
  all: try match goal with Hf : freeze_chain_payouts _ _ _ _ = Ok _ |- _ => apply freeze_evolves in Hf end.
  all: apply evolves_frame; try done; try (by apply receivers_kept_refl); by apply insert_subseteq.
Qed.

Lemma record_opening_pool_equity_evolves db lid c w s : evolves db (fst (record_opening_pool_equity db lid c w s)).
Proof.
  unfold record_opening_pool_equity. case_match; [apply evolves_refl|].
  apply (transaction_cases (evolves db)); [apply evolves_refl|]. intros db' r H'. run_steps H'; injection H' as <- <-.
  apply evolves_moves. eapply projects_insert; [|eassumption]. by right; right.
Qed.

(** A policy of unsigned fields that is bound has been validated. *)
Lemma bound_policy_wf db c p db' : policy_unsigned p -> insert_policy db c p = Ok db' -> policy_wf p.
Proof.
  intros Hu H. unfold insert_policy in H. bind_in H u Hv. destruct u. by split.
Qed.

Lemma insert_policy_evolves db c p db' : policy_unsigned p -> insert_policy db c p = Ok db' ->
  led_evolves (led db) (led db') /\ destinations (pay db') = destinations (pay db) /\
  items (pay db') = items (pay db) /\ batches (pay db') = batches (pay db) /\
  reconciliations (pay db') = reconciliations (pay db) /\ expiry_held (pay db') = expiry_held (pay db) /\
  expiry_finalized (pay db') = expiry_finalized (pay db).
Proof.
  intros Hu H. pose proof (bound_policy_wf _ _ _ _ Hu H) as Hwf.
  unfold insert_policy in H. run_steps H; injection H as <-; split_and!; try done.
  all: split; cbn; try done; try (by apply insert_subseteq); try (by left).
  all: try (split; [cbn; lia|]; exists []; cbn; rewrite app_nil_r; split_and!; constructor).
  all: try (intros c' p' [[-> ->]|[_ ?]]%lookup_insert_Some; [by right|by left]).
  all: intros c' row Hrow; cbn; try (by exists row).
  all: rewrite lookup_insert_ne by congruence; by exists row.
Qed.

Lemma bind_chain_policy_evolves db c p : policy_unsigned p -> evolves db (fst (bind_chain_policy db c p)).
Proof.
  intros Hu. unfold bind_chain_policy. case_match eqn:E; [|apply evolves_refl].
  apply insert_policy_evolves in E as (H1 & H2 & H3 & H4 & H5 & H6 & H7); [|done]. cbn [fst].
  apply evolves_frame; rewrite ?H5; try done. by apply receivers_kept_refl.
Qed.

Lemma bind_zero_fee_launch_policies_evolves db w z :
  policy_unsigned (snd w) -> policy_unsigned (snd z) -> evolves db (fst (bind_zero_fee_launch_policies db w z)).
Proof.
  intros Hw Hz. unfold bind_zero_fee_launch_policies. case_match; [apply evolves_refl|]. cbv zeta.
  case_match eqn:E; [|apply evolves_refl]. cbn [fst]. run_steps E.
  match goal with H1 : insert_policy _ _ _ = Ok ?d, H2 : insert_policy ?d _ _ = Ok _ |- _ =>
    apply insert_policy_evolves in H1 as (? & ? & ? & ? & Hr1 & ? & ?); [|done];
    apply insert_policy_evolves in H2 as (? & ? & ? & ? & Hr & ? & ?); [|done] end.
  apply evolves_frame; try congruence; [by etrans| |].
  - apply receivers_kept_refl. congruence.
  - by rewrite Hr, Hr1.
Qed.

Lemma configure_payout_evolves db now enabled did eid change :
  evolves db (fst (configure_payout db now enabled did eid change)).
Proof.
  unfold configure_payout. case_match; [apply evolves_refl|]. cbv zeta.
  case_match eqn:E; [|apply evolves_refl]. run_steps E. injection E as <-. cbn [fst].
  match goal with Hc : configure_payout_destination _ _ _ _ _ _ _ _ _ _ _ _ _ = Ok _ |- _ =>
    pose proof Hc as (H1 & H2 & H3)%configure_payout_destination_frame;
    unfold configure_payout_destination in Hc; run_steps Hc; injection Hc as <- end.
  by apply evolves_frame.
Qed.

Lemma activate_evolves db now c : evolves db (activate_due_payout_destinations db now c).
Proof. apply evolves_frame; try done. apply activate_receivers. Qed.

Lemma advance_watch_evolves db c cursor : evolves db (fst (advance_confirmed_payout_watch_cursor db c cursor)).
Proof.
  unfold advance_confirmed_payout_watch_cursor. repeat case_match; try apply evolves_refl.
  apply evolves_frame; try done. by apply receivers_kept_refl.
Qed.

(** A created batch satisfies the trigger's seal. *)
Lemma selected_rows_bound db c minimum maximum :
  Z.of_nat (length (selected_rows db c minimum maximum)) <= Z.max 0 maximum.
Proof. unfold selected_rows. rewrite length_take. lia. Qed.

Lemma usable_matched db now c rid r : load_usable_wallet_reconciliation db now c rid = Ok r ->
  exists row, reconciliations (pay db) !! rid = Some row /\ wr_chain row = c /\ wr_matched row = true.
Proof.
  unfold load_usable_wallet_reconciliation. intros H. run_steps H. boolprop.
  match goal with Ho : ok_or _ _ = Ok ?row |- _ => apply ok_or_Ok in Ho; exists row end.
  split_and!; [done|by apply dec_stable|done].
Qed.

(** The seal of a created batch matches what the same transaction wrote. *)
Lemma seal_matches_created db now fresh draws bid lid c key rid policy cap plan es db1 sealed :
  policy_wf policy ->
  created_from db now fresh draws bid lid c key rid policy cap plan es db1 sealed ->
  let db' := sealed_draft db1 now bid c policy key rid (ls_root sealed) (next_sequence (led db))
               (item_of <$> pp_outputs plan) in
  forall row', batches (pay db') !! bid = Some row' ->
    permit_only_payout_batch_seal db' bid (unsealed row') row' = true.
Proof.
  intros Hpol (Hnew & _ & _ & Hfree & (cp & snap & Hcp & _) & Hp & Hcap & Hplan & _ & Hes & Hins & _) db' row' Hrow'.
  cbn in Hrow'. rewrite lookup_insert_eq in Hrow'. injection Hrow' as <-.
  pose proof (policy_wf_bounds policy Hpol) as (Hmin & Habs & Hbps & _).
  apply random_payout_cap_bound in Hcap; [|done]. apply plan_payout_batch_inv in Hplan as [Hout Hwf]; [|lia..].
  pose proof Hins as (Hl & _)%insert_ledger_Ok.
  pose proof (selected_rows_bound (activate_due_payout_destinations db now c) c (cp_minimum_payout_zat policy)
    (cp_maximum_payout_outputs policy)) as Hcount.
  apply Forall2_length in Hout. unfold payout_rows in Hout. rewrite length_imap in Hout.
  assert (cp_maximum_payout_outputs policy <= 200) as Hmax.
  { destruct Hpol as [Hv _]. unfold ChainPolicy_validate in Hv. case_match; [done|]. boolprop. unfold MAX_PAYOUT_OUTPUTS in *. lia. }
  apply usable_matched in Hcp as (rrow & Hr & Hrc & Hrm).
  unfold permit_only_payout_batch_seal, batch_identity_kept, seal_matches. cbn [unsealed br_seal br_state br_chain
    br_policy_version br_idempotency_key br_created_at bs_reconciliation_id bs_ledger_sequence_cutoff].
  rewrite !Z.eqb_refl, !bool_decide_eq_true_2 by done. cbn [andb].
  subst db' db1. cbn [sealed_draft pay set_pay set_led led items set_items set_batches reconciliations ledger].
  rewrite lookup_insert_eq. cbn [default from_option id]. rewrite length_fmap, Hr, Hrm, bool_decide_eq_true_2 by done.
  destruct Hwf as (_ & Hne & _). assert (length (pp_outputs plan) <> 0%nat) by by destruct (pp_outputs plan).
  rewrite (proj2 (Z.leb_le 1 _)), (proj2 (Z.leb_le _ 200)) by lia. cbn [andb].
  apply existsb_exists. eexists. split; [apply in_or_app; right; by left|].
  unfold posted. cbn. by rewrite Z.eqb_refl, bool_decide_eq_true_2, String.eqb_refl.
Qed.

Lemma create_payout_batch_evolves db now fresh draws bid lid c key rid :
  map_Forall (fun _ => policy_wf) (policies (led db)) -> rows_wf db ->
  evolves db (fst (create_payout_batch db now fresh draws bid lid c key rid)).
Proof.
  intros Hpol [Hwf Hown]. apply create_payout_batch_cases; [apply evolves_refl|apply activate_evolves|].
  intros policy cap plan es db1 sealed Hcr.
  pose proof Hcr as (Hnew & Hkey & Hrid & Hfree & _ & Hp & _ & _ & _ & _ & Hins & _).
  pose proof (seal_matches_created _ _ _ _ _ _ _ _ _ _ _ _ _ _ _ (Hpol c policy Hp) Hcr) as Hseal. cbv zeta in Hseal.
  apply insert_ledger_evolves in Hins as (Hl & Hpay & _).
  assert (items (pay db) !! bid = None) as Hni.
  { apply eq_None_not_Some. intros Hi. apply Hown in Hi. rewrite Hnew in Hi. by destruct Hi. }
  split; cbn [sealed_draft pay set_pay set_items set_batches items batches destinations reconciliations expiry_held
      expiry_finalized]; rewrite ?Hpay; try done.
  - apply activate_receivers.
  - by apply insert_subseteq.
  - intros id Hid. destruct (decide (id = bid)) as [->|Hne]; [right; rewrite lookup_insert_eq; by eexists|].
    rewrite lookup_insert_ne in Hid by done. by left.
  - intros id row Hrow. assert (id <> bid) by congruence. rewrite lookup_insert_ne by done. exists row. auto.
  - intros id row' Hn Hr. destruct (decide (id = bid)) as [->|Hne].
    + split; [apply Hseal; cbn; by rewrite Hpay|]. rewrite lookup_insert_eq in Hr. simplify_eq. split_and!; [done..|].
      intros j r Hj. split; [by eapply Hkey|]. intros s s' Hs [= <-]. by eapply Hrid.
    + rewrite lookup_insert_ne in Hr by done. change (batches (pay db) !! id = Some row') in Hr. congruence.
  - intros id row row' Hr Hr'. assert (id <> bid) by congruence. rewrite lookup_insert_ne in Hr' by done.
    change (batches (pay db) !! id = Some row') in Hr'. left. congruence.
  - exists bid. intros j Hj. by rewrite lookup_insert_ne.
  - intros id row' Hr. destruct (decide (id = bid)) as [->|Hne].
    + left. rewrite lookup_insert_eq in Hr. by simplify_eq.
    + rewrite lookup_insert_ne in Hr by done. right. exists row'. by rewrite gated_same.
Qed.

(** ** Reachable states *)

Definition sequenced (t : LedgerTables) : Prop :=
  1 <= next_sequence t /\ StronglySorted Z.lt (lt_sequence <$> ledger t) /\
  Forall (fun x => 1 <= lt_sequence x < next_sequence t /\
                   forallb ledger_entry_check (lt_entries x) = true) (ledger t).

Record store_ok (db : Db) : Prop := {
  ok_inv : store_inv (last_event_seq (chn db)) db;
  ok_policies : map_Forall (fun _ => policy_wf) (policies (led db));
  ok_rows : rows_wf db;
  ok_sequenced : sequenced (led db)
}.

Lemma sequenced_evolves t t' : sequenced t -> led_evolves t t' -> sequenced t'.
Proof.
  intros (H1 & H2 & H3) [(Hn & new & Hl & Hs & Hf) _ _ _]. unfold sequenced. rewrite Hl. split_and!; [lia| |].
  - rewrite fmap_app. apply StronglySorted_app_2; [|done|done].
    intros a b (x & -> & Hx)%list_elem_of_fmap (y & -> & Hy)%list_elem_of_fmap.
    rewrite Forall_forall in H3, Hf. specialize (H3 x Hx). specialize (Hf y Hy). simpl in *. lia.
  - apply Forall_app. split; (eapply Forall_impl; [eassumption|]); intros x [??]; simpl in *; (split; [lia|done]).
Qed.

Lemma run_op_evolves db op : store_ok db -> op_wf op -> evolves db (run_op db op).
Proof.
  intros [Hinv Hpol Hrows Hseq] Hwf. destruct op; cbn [run_op].
  - apply evolves_moves. unfold project_replay_page. case_match; [done|]. by apply project_events_moves.
  - by apply bind_chain_policy_evolves.
  - destruct Hwf as [Hw Hz]. by apply bind_zero_fee_launch_policies_evolves.
  - apply configure_payout_evolves.
  - apply activate_evolves.
  - apply record_opening_pool_equity_evolves.
  - apply record_wallet_reconciliation_evolves.
  - by apply create_payout_batch_evolves.
  - by apply authorize_payout_signing_evolves.
  - by apply mark_payout_signed_evolves.
  - by apply authorize_payout_broadcast_evolves.
  - by apply mark_payout_broadcast_evolves.
  - by apply hold_expired_payout_evolves.
  - by apply expire_held_payout_evolves.
  - by apply confirm_payout_evolves.
  - by apply mark_confirmed_payout_reorged_evolves.
  - by apply cancel_payout_draft_evolves.
  - by eapply cancel_rejected_payout_signing_evolves.
  - apply advance_watch_evolves.
Qed.

Lemma insert_ledger_chn db lid c kind ev ref es db' :
  insert_ledger db lid c kind ev ref es = Ok db' -> chn db' = chn db.
Proof. unfold insert_ledger. intros H. run_steps H; by injection H as <-. Qed.

Lemma update_payout_chn db id s s' db' : update_payout_state db id s s' = Ok db' -> chn db' = chn db.
Proof. unfold update_payout_state. intros H. run_steps H; by injection H as <-. Qed.

(** Only the projector writes the chain-accounting tables. *)
Definition is_projection (op : StoreOp) : bool := match op with OpProject _ _ => true | _ => false end.

Lemma payout_op_chn db op : is_projection op = false -> chn (run_op db op) = chn db.
Proof.
  intros Hop. destruct op; try done; cbn [run_op]; clear Hop.
  all: unfold bind_chain_policy, bind_zero_fee_launch_policies, configure_payout, record_opening_pool_equity,
         record_wallet_reconciliation, authorize_payout_signing, mark_payout_signed,
         mark_payout_broadcast, transition_payout, authorize_payout_broadcast, hold_expired_payout,
         expire_held_payout, confirm_payout, mark_confirmed_payout_reorged, cancel_payout_draft,
         cancel_rejected_payout_signing, advance_confirmed_payout_watch_cursor.
  all: repeat (case_match; try done).
  all: try (apply (transaction_cases (fun d => chn d = chn db)); [done|]; intros db' r H').
  all: try (run_steps H'; injection H' as <- <-; cbn; try done).
  all: repeat match goal with
         | H : insert_ledger _ _ _ _ _ _ _ = Ok _ |- _ => apply insert_ledger_chn in H; try rewrite H
         | H : update_payout_state _ _ _ _ = Ok _ |- _ => apply update_payout_chn in H; try rewrite H
         | H : insert_policy _ _ _ = Ok _ |- _ => apply insert_policy_frame in H as (_ & H & _)
         end; try done; try (cbn; congruence).
  apply (create_payout_batch_cases (fun d => chn d = chn db)); [done|done|].
  intros policy cap plan es db1 sealed H. unfold created_from in H. destruct_and! H.
  match goal with Hl : insert_ledger _ _ _ _ _ _ _ = Ok _ |- _ => by apply insert_ledger_chn in Hl end.
Qed.

Lemma run_op_inv db op : store_ok db -> op_wf op -> store_inv (last_event_seq (chn (run_op db op))) (run_op db op).
Proof.
  intros [Hinv Hpol Hrows Hseq] Hwf. destruct (is_projection op) eqn:Hop.
  { destruct op; try done. cbn [run_op]. unfold project_replay_page. case_match; [done|]. by apply project_events_inv. }
  rewrite (payout_op_chn db op) by done. destruct op; try done; cbn [run_op op_wf] in *.
  - by apply bind_chain_policy_inv.
  - by apply bind_zero_fee_launch_policies_inv.
  - by apply configure_payout_inv.
  - by apply activate_inv.
  - by apply record_opening_pool_equity_inv.
  - by apply record_wallet_reconciliation_inv.
  - by apply create_payout_batch_inv.
  - by apply authorize_payout_signing_inv.
  - apply mark_payout_signed_inv; [apply Hwf|done].
  - by apply authorize_payout_broadcast_inv.
  - by apply mark_payout_broadcast_inv.
  - by apply hold_expired_payout_inv.
  - by apply expire_held_payout_inv.
  - by apply confirm_payout_inv.
  - by apply mark_confirmed_payout_reorged_inv.
  - by apply cancel_payout_draft_inv.
  - by apply cancel_rejected_payout_signing_inv.
  - unfold advance_confirmed_payout_watch_cursor. repeat (case_match; try done). cbn [fst].
    apply (inv_frame (last_event_seq (chn db)) (last_event_seq (chn db)) db); try done.
    by apply receivers_kept_refl.
Qed.

Lemma run_op_ok db op : store_ok db -> op_wf op -> store_ok (run_op db op).
Proof.
  intros Hok Hwf. pose proof (run_op_evolves db op Hok Hwf) as Hev. split.
  - by apply run_op_inv.
  - intros c p Hp. destruct (le_new_policies _ _ (ev_led _ _ Hev) c p Hp); [|done].
    by eapply (ok_policies _ Hok).
  - by eapply rows_wf_evolves; [apply Hok|].
  - by eapply sequenced_evolves; [apply Hok|apply Hev].
Qed.

Lemma store_ok_empty : store_ok empty_db.
Proof.
  split; [split|..]; try apply map_Forall_empty; try constructor; try done; try apply map_Forall_empty.
  - by intros id [? ?].
  - split; constructor.
Qed.

Lemma reachable_ok db : reachable db -> store_ok db.
Proof. revert db. apply reachable_ind_op; [apply store_ok_empty|]. intros db op _ Hwf Hok. by apply run_op_ok. Qed.
End Trigger.
