(* ===== verification/StoreDemo.v ===== *)
(** A concrete deployment and history of the store, on which the properties of the store are
    instantiated: a job, a share that wins on both chains, its observation and maturity, the
    policies, a payout destination, a wallet checkpoint, and a batch taken to its confirmation. *)

From Stdlib Require Import ZArith Lia.
From stdpp Require Import prelude gmap sorting strings.
From S2P Require Import Prelude Wire Backend Hex LargestRemainder Pplns PayoutFees Ledger PayoutRequest StoreDb PayoutStore Configuration PayoutWatch WinnerStore Books BatchPlan StoreInv WinnerInv StoreOps.
Open Scope Z_scope.

(** A checksum in the place of SHA-256. *)
Definition demo_digest (l : list Z) : list Z :=
  let h := foldl (fun h b => (h * 31 + b + 1) mod 65521) 7 l in
  replicate 30 1 ++ [h / 256; h mod 256].

Definition demo_uuid_text (u : Uuid) : string := @hex_encode demo_hex_ops (be_bytes 16 u).

(** The sequence and the kind of an event stand for its JSON text. *)
Definition demo_event_json (e : BackendEvent) : list Z :=
  [event_seq e; match e with
                | JobActivated _ _ => 0 | JobInvalidated _ _ _ _ => 1 | GenerationClosed _ _ => 2
                | ShareCommittedEvent _ _ _ _ => 3 | WinnerObserved _ _ _ _ _ _ => 4
                | WinnerSideChain _ _ _ _ _ => 5 | WinnerOrphaned _ _ _ _ _ => 6
                | WinnerQuarantined _ _ _ _ _ => 7 | WinnerRequeued _ _ _ _ _ => 8
                | WinnerMatured _ _ _ _ _ _ => 9
                end].

#[global] Instance demo_env : StoreEnv := {|
  env_deployment := 77;
  env_network := Regtest;
  env_wcash_transparent_payouts := false;
  env_sha256 := demo_digest;
  env_uuid_text := demo_uuid_text;
  env_event_json := demo_event_json;
  env_hex := demo_hex_ops
|}.

Definition demo_policy : ChainPolicy :=
  mkChainPolicy 1 100 1000 100 10 50 1000 100000000 0 20000 100 1.

Definition demo_worker_identity : WorkerIdentity := mkWorkerIdentity 7 8 "rig.1".

Definition demo_share (seq : Z) : BackendEvent :=
  match canonical_attribution_id demo_digest demo_worker_identity (demo_target 5) with
  | Ok attribution =>
      ShareCommittedEvent
        (mkShareReceipt seq (demo_hex 32 1) (demo_hex 32 3) attribution (demo_hex 32 31)
           [demo_winner Wcash; demo_winner Zcash])
        (demo_hex 32 1) demo_worker_identity (demo_target 5)
  | Err _ => GenerationClosed seq (demo_hex 32 1)
  end.

Definition demo_events : list BackendEvent :=
  [JobActivated 1 (demo_job 1); demo_share 2;
   WinnerObserved 3 (demo_hex 32 3) (demo_hex 32 1) (demo_winner Wcash) (mkChainTip (demo_hex 32 21) 100) 1;
   WinnerMatured 4 (demo_hex 32 3) (demo_hex 32 1) (demo_winner Wcash) (mkChainTip (demo_hex 32 40) 199) 100].

Definition demo_preference : OwnedPayoutPreference :=
  mkOwnedPayoutPreference 7 Wec Regtest "wcash-regtest-address" Ironwood 1000 true 0 (replicate 32 9).

Definition demo_wallet (spendable : Z) : WalletObservation :=
  mkWalletObservation Wcash (replicate 32 5) spendable (replicate 32 6) 500 100 200.

(** The state with a matured winner, a destination and a wallet checkpoint. *)
Definition demo_setup : list StoreOp :=
  [OpBindPolicy Wcash demo_policy; OpBindPolicy Zcash demo_policy;
   OpProject (fun i j => 1000 + 10 * Z.of_nat i + Z.of_nat j) demo_events;
   OpConfigure 90 true 51 52 demo_preference;
   OpReconcile 61 150 (demo_wallet 625000000)].

Definition demo_create : StoreOp :=
  OpCreate 160 (fun i => 2000 + Z.of_nat i) (Some [5; 7; 11; 13]) 71 72 Wcash 73 61.

Definition demo_facts : SignedFacts := mkSignedFacts (replicate 32 3) (replicate 32 4) [1; 2; 3] 8.

(** The batch from its draft to its confirmation. *)
Definition demo_settle : list StoreOp :=
  [demo_create; OpAuthorizeSigning 170 71; OpMarkSigned 71 demo_facts; OpAuthorizeBroadcast 71;
   OpMarkBroadcast 71; OpConfirm 74 71 (mkPayoutConfirmation (replicate 32 8) 600 10)].

(** The winner falls below its maturity depth after the payout. *)
Definition demo_regression : StoreOp :=
  OpProject (fun i j => 3000 + 10 * Z.of_nat i + Z.of_nat j)
    [WinnerObserved 5 (demo_hex 32 3) (demo_hex 32 1) (demo_winner Wcash) (mkChainTip (demo_hex 32 21) 100) 1].

Lemma demo_ops_wf : Forall op_wf (demo_setup ++ demo_settle ++ [demo_regression]).
Proof. repeat constructor; vm_compute; congruence. Defined.

Lemma pair_of_snd {A B} (p : A * B) (b : B) : snd p = b -> p = (fst p, b).
Proof. destruct p; cbn. by intros ->. Qed.

(** The states of the history, each reachable. *)
Definition demo_state (n : nat) : Db := run_ops empty_db (take n (demo_setup ++ demo_settle ++ [demo_regression])).

Lemma demo_state_reachable n : reachable (demo_state n).
Proof. eexists. split; [|reflexivity]. apply Forall_take, demo_ops_wf. Qed.

(** A second batch, after the first was confirmed. *)
Definition demo_again : list StoreOp :=
  [OpReconcile 62 170 (demo_wallet 624999002);
   OpCreate 180 (fun i => 4000 + Z.of_nat i) (Some [5; 7; 11; 13]) 75 76 Wcash 77 62].
