(* ===== verification/Solvency.v ===== *)
(** Solvency of the store: the collector covers everything owed, the pool's equity is never
    spent, and no miner of an unfrozen chain is paid more than was earned
    (crates/wcash-pool-store/src/postgres.rs, over every sequence of operations). *)

From Stdlib Require Import ZArith Lia.
From stdpp Require Import prelude gmap sorting strings.
From S2P Require Import Prelude Wire Backend Hex LargestRemainder Pplns PayoutFees Ledger PayoutRequest StoreDb PayoutStore Configuration PayoutWatch WinnerStore Books BatchPlan StoreInv WinnerInv StoreOps StoreEvolve.
Open Scope Z_scope.

(** ** Sums over owners *)

(** The sum of a table whose rows each sink. *)
Lemma table_sum_mono {K} `{Countable K} {V} (f g : K -> V -> Z) (m m' : gmap K V) :
  (forall k, match m !! k, m' !! k with
             | Some v, Some v' => g k v' <= f k v
             | None, None => True
             | _, _ => False
             end) ->
  table_sum g m' <= table_sum f m.
Proof.
  revert m'; induction m as [|k v m Hk IH] using map_ind; intros m' Hm.
  { assert (m' = ∅) as ->; [|by rewrite !table_sum_empty].
    apply map_eq. intros k. specialize (Hm k). rewrite lookup_empty in *. by destruct (m' !! k). }
  pose proof (Hm k) as Hmk. rewrite lookup_insert_eq in Hmk. destruct (m' !! k) as [v'|] eqn:Hk'; [|done].
  rewrite <- (insert_delete_id m' k v') by done.
  rewrite !table_sum_fresh by (done || apply lookup_delete_eq).
  enough (table_sum g (delete k m') <= table_sum f m) by lia. apply IH. intros j.
  destruct (decide (j = k)) as [->|Hne]; [by rewrite Hk, lookup_delete_eq|].
  specialize (Hm j). rewrite lookup_insert_ne in Hm by done. by rewrite lookup_delete_ne.
Qed.

Lemma sumZ_single {A} `{EqDecision A} (x : A) (v : Z) (l : list A) : NoDup l -> x ∈ l ->
  sumZ ((fun y => if decide (y = x) then v else 0) <$> l) = v.
Proof.
  intros Hn Hx. induction Hn as [|y l Hy Hn IH]; [by apply not_elem_of_nil in Hx|].
  rewrite fmap_cons, sumZ_cons. apply elem_of_cons in Hx as [->|Hx].
  - rewrite decide_True by done. enough (sumZ ((fun z => if decide (z = y) then v else 0) <$> l) = 0) by lia.
    clear Hn IH. induction l as [|z l IH]; [done|]. apply not_elem_of_cons in Hy as [Hne Hy].
    rewrite fmap_cons, sumZ_cons, decide_False, IH by congruence. done.
  - rewrite decide_False by (intros ->; done). by rewrite IH.
Qed.

(** A ledger account is the sum over its owners. *)
Lemma label_sum_owners label es owners : NoDup owners -> Forall (fun e => fst (fst e) ∈ owners) es ->
  label_sum label es = sumZ ((fun who => owner_sum who label es) <$> owners).
Proof.
  intros Hn He. induction He as [|[[w l] v] es Hw _ IH].
  { rewrite label_sum_nil. clear Hn. by induction owners. }
  rewrite label_sum_cons, IH. cbn [fst snd] in *.
  transitivity (sumZ ((fun who => if decide (who = w) then if bool_decide (l = label) then v else 0 else 0) <$> owners)
                + sumZ ((fun who => owner_sum who label es) <$> owners)); [by rewrite sumZ_single|].
  clear IH Hn Hw. induction owners as [|who owners IH]; [done|]. rewrite !fmap_cons, !sumZ_cons, <- IH, owner_sum_cons.
  unfold is_line. cbn [fst snd]. repeat case_decide; repeat case_bool_decide; simplify_eq; lia.
Qed.

Lemma label_sum_nonpos label es : (forall who, owner_sum who label es <= 0) -> label_sum label es <= 0.
Proof.
  intros Hw. rewrite (label_sum_owners label es (remove_dups ((fun e => fst (fst e)) <$> es))).
  - induction (remove_dups _) as [|who l IH]; [done|]. rewrite fmap_cons, sumZ_cons. specialize (Hw who). lia.
  - apply NoDup_remove_dups.
  - apply Forall_forall. intros e He. apply elem_of_remove_dups, list_elem_of_fmap. by exists e.
Qed.

(** The rows that carry an account of the pool name no miner. *)
Lemma pool_label_sum label es : label ∉ miner_ledger_accounts -> forallb ledger_entry_check es = true ->
  label_sum label es = owner_sum None label es.
Proof.
  intros Hl. induction es as [|[[who l] v] es IH]; intros Hc; [done|]. cbn [forallb] in Hc.
  apply andb_true_iff in Hc as [Hc Hes]. rewrite label_sum_cons, owner_sum_cons, IH by done.
  unfold is_line. cbn [fst snd]. repeat case_bool_decide; simplify_eq; try done.
  unfold ledger_entry_check in Hc. rewrite (bool_decide_eq_false_2 _ Hl) in Hc. destruct who; [|done].
  rewrite andb_false_r in Hc. done.
Qed.

Lemma miner_label_none label es : label ∈ miner_ledger_accounts -> forallb ledger_entry_check es = true ->
  owner_sum None label es = 0.
Proof.
  intros Hl. induction es as [|[[who l] v] es IH]; intros Hc; [done|]. cbn [forallb] in Hc.
  apply andb_true_iff in Hc as [Hc Hes]. rewrite owner_sum_cons, IH by done.
  unfold is_line. cbn [fst snd]. case_bool_decide; simplify_eq; [|done].
  unfold ledger_entry_check in Hc. rewrite (bool_decide_eq_true_2 _ Hl), andb_false_r in Hc. done.
Qed.

(** ** The signs of the balance sheet *)

Lemma chain_entries_cons x l c :
  chain_entries (x :: l) c = (if decide (lt_chain x = c) then lt_entries x else []) ++ chain_entries l c.
Proof. unfold chain_entries. rewrite filter_cons. by case_decide. Qed.

Lemma opening_miner l c a label : Forall opening_ok l -> opening_balance l c (Some a) label = 0.
Proof.
  unfold opening_balance. intros Hl. induction Hl as [|x l Hx _ IH]; [done|]. rewrite filter_cons.
  case_decide as Hk; [|done]. rewrite chain_entries_cons, owner_sum_app, IH. case_decide; [|done].
  destruct (Hx Hk) as (s & _ & ->). by rewrite !owner_sum_cons.
Qed.

Lemma opening_equity l c : Forall opening_ok l -> opening_balance l c None "pool_equity" <= 0.
Proof.
  unfold opening_balance. intros Hl. induction Hl as [|x l Hx _ IH]; [done|]. rewrite filter_cons.
  case_decide as Hk; [|done]. rewrite chain_entries_cons, owner_sum_app. case_decide; [|done].
  destruct (Hx Hk) as (s & Hs & ->). rewrite !owner_sum_cons, owner_sum_nil. line_cases.
Qed.

Lemma alloc_amount_nonneg t key o a : Forall (fun r => 0 <= al_amount_zat r) (winner_allocations t) ->
  0 <= alloc_amount t key o a.
Proof.
  intros H. unfold alloc_amount. apply sumZ_nonneg, Forall_fmap. eapply Forall_impl; [done|].
  intros r ?. simpl in *. case_match; lia.
Qed.

Lemma winner_signs b db c : store_inv b db ->
  let part who label := table_sum (fun key row =>
    if decide (fst key = c) then winner_balance (chn db) key row who label else 0) (winners (chn db)) in
  (forall a, part (Some a) "miner_payable"%string <= 0) /\
  (forall a, part (Some a) "payout_pending"%string = 0) /\ part None "pool_equity"%string <= 0.
Proof.
  intros Hinv part.
  assert (Forall (fun r => 0 <= al_amount_zat r) (winner_allocations (chn db))) as Ha
    by (eapply Forall_impl; [apply Hinv|]; by intros r [_ ?]).
  unfold part. split_and!; intros; [apply table_sum_nonpos|apply table_sum_zero|apply table_sum_nonpos];
    intros key row Hrow; (case_decide; [|done]); unfold winner_balance, observed_line, matured_line;
    destruct (wn_state row) eqn:Hst; try done; destruct (wn_active_observation_event_seq row) as [o|] eqn:Ho; try done;
    repeat (case_decide; try done).
  - pose proof (alloc_amount_nonneg _ key o a Ha). lia.
  - pose proof (si_winners _ _ Hinv key row Hrow) as Hok. unfold winner_ok in Hok. rewrite Hst, Ho in Hok.
    destruct (wn_active_maturity_event_seq row); [|done]. destruct Hok as ((_ & _ & ?) & _). lia.
Qed.

(** The outputs of a stored batch. *)
Lemma stored_batch_outputs t id row : batch_ok t id row ->
  Forall (fun o => 0 <= amount_zat o <= liability_amount_zat o) (batch_outputs t id) /\
  sumZ (liabilities (batch_outputs t id)) <= U64_MAX.
Proof.
  intros (_ & (os & m & q & Hl) & _). unfold batch_outputs. rewrite Hl.
  apply load_outputs_Ok in Hl as (_ & Hos & Hm & _ & Hmax & _). split; [done|]. widths. lia.
Qed.

Lemma account_sum_nonneg a os : Forall (fun o => 0 <= amount_zat o <= liability_amount_zat o) os ->
  0 <= account_sum liability_amount_zat a os.
Proof.
  intros H. unfold account_sum. apply sumZ_nonneg, Forall_fmap. eapply Forall_impl; [done|].
  intros o ?. simpl in *. case_decide; lia.
Qed.

(** A settled batch takes at most what it had reserved, and at least nothing. *)
Lemma settled_sum_le a os cs :
  length cs = length os -> (forall i o c, os !! i = Some o -> cs !! i = Some c -> 0 <= c <= reserve_of o) ->
  settled_sum a os cs <= account_sum liability_amount_zat a os.
Proof.
  revert cs; induction os as [|o os IH]; intros [|c cs] Hlen Hc; try done.
  rewrite settled_sum_cons, account_sum_cons. pose proof (Hc 0%nat o c eq_refl eq_refl) as H0. unfold reserve_of in H0.
  assert (settled_sum a os cs <= account_sum liability_amount_zat a os).
  { apply IH; [by injection Hlen|]. intros i. apply (Hc (S i)). }
  case_decide; lia.
Qed.

Lemma settled_batch_le b db id row f cs a : store_inv b db -> batches (pay db) !! id = Some row ->
  0 <= sf_network_fee_zat f ->
  allocate_actual_network_fee (batch_outputs (pay db) id) (sf_network_fee_zat f) = Ok cs ->
  settled_sum a (batch_outputs (pay db) id) cs <= account_sum liability_amount_zat a (batch_outputs (pay db) id).
Proof.
  intros Hinv Hrow Hf Hcs. destruct (stored_batch_outputs _ _ _ (si_batches _ _ Hinv id row Hrow)) as [Hos Hmax].
  apply allocate_actual_length in Hcs as (Hlen & _ & _ & Hc); [|done..]. by apply settled_sum_le.
Qed.

Lemma batch_signs b db id row : store_inv b db -> batches (pay db) !! id = Some row ->
  (forall a, batch_balance (pay db) id row (Some a) "payout_pending" <= 0) /\
  batch_balance (pay db) id row None "pool_equity" = 0.
Proof.
  intros Hinv Hrow. destruct (stored_batch_outputs _ _ _ (si_batches _ _ Hinv id row Hrow)) as [Hos Hmax].
  split; [intros a; pose proof (account_sum_nonneg a _ Hos)|]; unfold batch_balance;
    destruct (br_state row); unfold reservation_line; repeat (case_decide; try done); try lia; try done;
    (destruct (br_signed row) as [f|]; [|done]); by case_match.
Qed.

(** ** Payable balances *)

Section Payable.
Context {env : StoreEnv}.

Lemma evolves_outputs b db db' id row : store_inv b db -> evolves db db' -> batches (pay db) !! id = Some row ->
  batch_outputs (pay db') id = batch_outputs (pay db) id.
Proof.
  intros Hinv Hev Hrow. destruct (si_batches _ _ Hinv id row Hrow) as ([its Hi] & _).
  apply batch_outputs_stable; [|apply Hev|].
  - rewrite Hi. eapply lookup_weaken; [exact Hi|apply Hev].
  - rewrite Hi. by eapply (si_items _ _ Hinv).
Qed.

(** The edge a changed row took. *)
Lemma evolves_edge db db' id row row' : rows_wf db -> evolves db db' ->
  batches (pay db) !! id = Some row -> batches (pay db') !! id = Some row' ->
  row' = row \/ lifecycle_edge db' id row row' = true /\ batch_identity_kept row row' = true /\
                br_seal row' = br_seal row.
Proof.
  intros [Hwf _] Hev Hrow Hrow'. destruct (ev_batches _ _ Hev id row Hrow) as (r & Hr & [->|Hp]);
    rewrite Hr in Hrow'; simplify_eq; [by left|]. right.
  destruct (Hwf id row Hrow) as [[seal Hs] _]. unfold permit_only_payout_batch_seal in Hp. rewrite Hs in Hp.
  apply andb_true_iff in Hp as [Hid Hp]. apply andb_true_iff in Hp as [Hseal Hp].
  apply bool_decide_eq_true in Hseal. split_and!; [done|done|congruence].
Qed.

Lemma batch_payable_le b b' db db' id row row' a :
  store_inv b db -> store_inv b' db' -> rows_wf db -> evolves db db' ->
  batches (pay db) !! id = Some row -> batches (pay db') !! id = Some row' ->
  batch_balance (pay db') id row' (Some a) "miner_payable" <= batch_balance (pay db) id row (Some a) "miner_payable".
Proof.
  intros Hinv Hinv' Hwf Hev Hrow Hrow'. pose proof (evolves_outputs b db db' id row Hinv Hev Hrow) as Hos.
  destruct (evolves_edge db db' id row row' Hwf Hev Hrow Hrow') as [->|(He & _ & _)].
  { unfold batch_balance. by rewrite Hos. }
  destruct (stored_batch_outputs _ _ _ (si_batches _ _ Hinv id row Hrow)) as [Hwf0 _].
  pose proof (account_sum_nonneg a _ Hwf0) as Hnn.
  pose proof (si_batches _ _ Hinv' id row' Hrow') as (_ & _ & Hok').
  unfold lifecycle_edge, signed_kept in He. unfold batch_balance, reservation_line. rewrite Hos in *.
  destruct (br_state row) eqn:Hs, (br_state row') eqn:Hs'; try done; repeat (case_decide; try done); try lia.
  3: { apply andb_true_iff in He as [He _]. apply bool_decide_eq_true in He. by rewrite He. }
  all: destruct Hok' as (f & cs & Hf & Hfee & Hcs); rewrite Hf, Hcs.
  all: by eapply (settled_batch_le b db id row f cs).
Qed.

Definition payable_ok (db : Db) : Prop :=
  forall c, frozen (led db) c \/ forall a, payable (led db) c a <= 0.

(** The balance of a miner, from the winners and the batches. *)
Lemma payable_books b db c a : store_inv b db ->
  payable (led db) c a =
  table_sum (fun key row => if decide (fst key = c) then winner_balance (chn db) key row (Some a) "miner_payable" else 0)
    (winners (chn db))
  + table_sum (fun id row => if decide (br_chain row = c) then batch_balance (pay db) id row (Some a) "miner_payable" else 0)
    (batches (pay db)).
Proof.
  intros Hinv. unfold payable. rewrite (si_books _ _ Hinv). unfold books.
  rewrite opening_miner by apply Hinv. lia.
Qed.

Lemma unexposed_payable b db c a : store_inv b db -> exposed db c = false -> payable (led db) c a <= 0.
Proof.
  intros Hinv He. rewrite (payable_books b) by done. destruct (winner_signs b db c Hinv) as (Hw & _).
  specialize (Hw a). cbv zeta in Hw. rewrite (table_sum_zero _ (batches (pay db))); [lia|].
  intros id row Hrow. case_decide as Hc; [|done]. unfold exposed in He. apply not_true_iff_false in He.
  unfold batch_balance. destruct (decide (br_state row = Cancelled)) as [->|Hn]; [done|].
  exfalso. apply He, existsb_exists. exists (id, row). split; [by apply list_elem_of_In, elem_of_map_to_list|].
  cbn [snd]. by rewrite bool_decide_eq_true_2, bool_decide_eq_false_2.
Qed.

(** An operation that neither projects nor creates only returns value to miners. *)
Lemma payable_ok_moves b b' db db' : store_inv b db -> store_inv b' db' -> rows_wf db -> evolves db db' ->
  chn db' = chn db -> (forall id, is_Some (batches (pay db') !! id) -> is_Some (batches (pay db) !! id)) ->
  payable_ok db -> payable_ok db'.
Proof.
  intros Hinv Hinv' Hwf Hev Hc Hdom Hok c. destruct (Hok c) as [Hf|Ha]; [left; by eapply frozen_kept; [apply Hev|]|].
  right. intros a. etrans; [|apply (Ha a)]. rewrite (payable_books b' db'), (payable_books b db), Hc by done.
  apply Z.add_le_mono_l, table_sum_mono. intros id.
  destruct (batches (pay db) !! id) as [row|] eqn:Hrow.
  - destruct (ev_batches _ _ Hev id row Hrow) as (row' & Hrow' & _). rewrite Hrow'.
    pose proof (batch_payable_le b b' db db' id row row' a) as Hle.
    destruct (evolves_edge db db' id row row' Hwf Hev Hrow Hrow') as [->|(_ & Hid & _)].
    + case_decide; [by apply Hle|done].
    + unfold batch_identity_kept in Hid. boolprop.
      match goal with Hch : br_chain row' = _ |- _ => rewrite Hch end. case_decide; [by apply Hle|done].
  - destruct (batches (pay db') !! id) eqn:Hrow'; [|done].
    destruct (Hdom id ltac:(by rewrite Hrow')) as [? ?]. congruence.
Qed.

(** ** Creating a batch *)

Lemma account_sum_bound a os limit : NoDup (pi_account_id <$> os) -> 0 <= limit ->
  Forall (fun o => pi_account_id o = a -> liability_amount_zat o <= limit) os ->
  account_sum liability_amount_zat a os <= limit.
Proof.
  intros Hn H0 Hl.
  assert (forall l, a ∉ (pi_account_id <$> l) -> account_sum liability_amount_zat a l = 0) as Hz.
  { induction l as [|o l IH]; intros Hl'; [done|]. rewrite account_sum_cons. rewrite fmap_cons in Hl'.
    apply not_elem_of_cons in Hl' as [? ?]. rewrite decide_False, IH by congruence. done. }
  induction Hl as [|o os Ho Hl IH]; [done|]. rewrite fmap_cons in Hn. apply NoDup_cons in Hn as [Hni Hn].
  rewrite account_sum_cons. case_decide as He; [|by apply IH].
  rewrite Hz by congruence. specialize (Ho He). lia.
Qed.

(** A new batch reserves at most what each of its miners is owed. *)
Lemma create_payable db now fresh draws bid lid c key rid policy cap plan es db1 sealed a :
  map_Forall (fun _ => policy_wf) (policies (led db)) ->
  created_from db now fresh draws bid lid c key rid policy cap plan es db1 sealed ->
  payable (led db) c a <= 0 ->
  payable (led db1) c a <= 0.
Proof.
  intros Hpol (_ & _ & _ & _ & _ & Hp & Hcap & Hplan & Hnd & Hes & Hins & _) Ha.
  destruct (policy_wf_bounds policy (Hpol c policy Hp)) as (Hmin & Habs & Hbps & _).
  apply random_payout_cap_bound in Hcap; [|done].
  apply plan_payout_batch_inv in Hplan as [Hout Hwf]; [|lia..].
  apply insert_ledger_Ok in Hins as (-> & _). apply reservation_entries_lines in Hes as [Hlines _].
  enough (account_sum liability_amount_zat a (pp_outputs plan) <= - payable (led db) c a) as Hle.
  { unfold payable, owner_balance in *. cbn [led set_led ledger]. rewrite owner_sum_snoc. cbn [lt_chain lt_entries].
    change (led (activate_due_payout_destinations db now c)) with (led db).
    rewrite decide_True, Hlines by done. unfold reservation_line. rewrite decide_True by done. lia. }
  apply account_sum_bound; [done|lia|]. apply Forall_lookup. intros i o Ho Hacc.
  destruct (Forall2_lookup_r _ _ _ _ _ Hout Ho) as (row & Hrow & (_ & Hra & _ & _ & _ & _ & Hlia)).
  apply payout_rows_lookup in Hrow as (r & Hr & ->). cbn in Hra, Hlia.
  pose proof (selected_rows_from (activate_due_payout_destinations db now c) c (cp_minimum_payout_zat policy)
    (cp_maximum_payout_outputs policy)) as Hf. rewrite Forall_lookup in Hf.
  destruct (Hf i r Hr) as (d & Hd & (H1 & _ & _ & _ & _ & _ & _ & Hamt & _)%eligible_row_Some). cbn [snd] in *.
  replace (pd_account_id d) with a in Hamt by congruence.
  change (payable (led db) c a) with (entry_sum (payable_amounts (activate_due_payout_destinations db now c) c a)).
  rewrite Hlia, <- Hamt. unfold capped, payout_amount_for_liability. cbn [row_amount_zat]. case_match; lia.
Qed.

(** ** Every operation *)

Definition is_creation (op : StoreOp) : bool := match op with OpCreate _ _ _ _ _ _ _ _ => true | _ => false end.

(** No batch that was not there. *)
Definition no_new_batch (db db' : Db) : Prop :=
  forall id, is_Some (batches (pay db') !! id) -> is_Some (batches (pay db) !! id).

Lemma no_new_same db db' : batches (pay db') = batches (pay db) -> no_new_batch db db'.
Proof. intros H id. by rewrite H. Qed.

Lemma no_new_frame db db1 db2 : batches (pay db2) = batches (pay db1) -> no_new_batch db db1 -> no_new_batch db db2.
Proof. intros H Hn id. rewrite H. apply Hn. Qed.

Lemma no_new_put db db1 id row : is_Some (batches (pay db) !! id) -> no_new_batch db db1 ->
  no_new_batch db (put_batch db1 id row).
Proof.
  intros Hid H j. cbn. destruct (decide (j = id)) as [->|Hne]; [done|]. rewrite lookup_insert_ne by done. apply H.
Qed.

Lemma no_new_update db db1 id s s' db2 : no_new_batch db db1 ->
  update_payout_state db1 id s s' = Ok db2 -> no_new_batch db db2.
Proof.
  unfold update_payout_state. intros Hn H. run_steps H; simplify_eq. apply no_new_put; [|done].
  apply Hn. by eexists.
Qed.

Lemma no_new_ledger db lid c kind ev ref es db1 : insert_ledger db lid c kind ev ref es = Ok db1 -> no_new_batch db db1.
Proof. intros (Hp & _)%insert_ledger_tables. apply no_new_same. by rewrite Hp. Qed.

Lemma other_op_batches db op : is_projection op = false -> is_creation op = false -> no_new_batch db (run_op db op).
Proof.
  intros Hop Hcr. destruct op; try done; cbn [run_op]; clear Hop Hcr.
  all: unfold bind_chain_policy, bind_zero_fee_launch_policies, configure_payout, record_opening_pool_equity,
         record_wallet_reconciliation, authorize_payout_signing, mark_payout_signed,
         mark_payout_broadcast, transition_payout, authorize_payout_broadcast, hold_expired_payout,
         expire_held_payout, confirm_payout, mark_confirmed_payout_reorged, cancel_payout_draft,
         cancel_rejected_payout_signing, advance_confirmed_payout_watch_cursor.
  all: repeat (case_match; try done).
  all: try (apply (transaction_cases (no_new_batch db)); [done|]; intros db' r H').
  all: try (run_steps H'; injection H' as <- <-; try done).
  all: cbn [fst transaction].
  all: repeat match goal with
         | H : ok_or (batches _ !! _) _ = Ok _ |- _ => apply ok_or_Ok in H
         | H : insert_policy _ _ _ = Ok _ |- _ => apply insert_policy_frame in H as (_ & _ & _ & H & _)
         | H : configure_payout_destination _ _ _ _ _ _ _ _ _ _ _ _ _ = Ok _ |- _ =>
             apply configure_payout_destination_frame in H as (_ & H & _)
         | H : update_payout_state _ _ _ _ = Ok ?d |- no_new_batch _ ?d => eapply no_new_update; [|exact H]
         | H : insert_ledger _ _ _ _ _ _ _ = Ok ?d |- no_new_batch _ ?d => by eapply no_new_ledger
         | |- no_new_batch _ (put_batch _ _ _) => apply no_new_put; [by eexists|]
         | |- no_new_batch _ (set_led ?d _) => apply (no_new_frame _ d); [done|]
         | |- no_new_batch _ (set_pay ?d (set_expiry_finalized _ _)) => apply (no_new_frame _ d); [done|]
         end; try done; try (apply no_new_same; cbn; congruence).
Qed.

Lemma create_payable_ok db now fresh draws bid lid c key rid : store_ok db -> payable_ok db ->
  payable_ok (fst (create_payout_batch db now fresh draws bid lid c key rid)).
Proof.
  intros Hst Hok. apply (create_payout_batch_cases payable_ok); [done|done|].
  intros policy cap plan es db1 sealed Hc c'. destruct (Hok c') as [Hf|Ha].
  { left. pose proof Hc as (_ & _ & _ & _ & _ & _ & _ & _ & _ & _ & Hins & _).
    apply insert_ledger_evolves in Hins as (Hev & _). by eapply frozen_kept; [exact Hev|]. }
  right. intros a. cbn [led sealed_draft set_pay]. destruct (decide (c' = c)) as [->|Hne].
  - eapply create_payable; [apply Hst|exact Hc|apply Ha].
  - destruct Hc as (_ & _ & _ & _ & _ & _ & _ & _ & _ & _ & (-> & _)%insert_ledger_Ok & _).
    specialize (Ha a). unfold payable, owner_balance in *. cbn [led set_led ledger]. rewrite owner_sum_snoc. cbn [lt_chain].
    change (led (activate_due_payout_destinations db now c)) with (led db). rewrite decide_False by congruence. lia.
Qed.

Lemma run_op_payable db op : store_ok db -> op_wf op -> payable_ok db -> payable_ok (run_op db op).
Proof.
  intros Hst Hwf Hok. pose proof (run_op_ok db op Hst Hwf) as Hst'. pose proof (run_op_evolves db op Hst Hwf) as Hev.
  destruct (is_projection op) eqn:Hp.
  { destruct op; try done. intros c. cbn [run_op] in *. unfold project_replay_page in *. case_match; [apply Hok|].
    destruct (project_events_moves db fresh events (ok_inv _ Hst)) as (_ & _ & Hk). destruct (Hk c) as [|[He|Hd]]; [by left| |].
    - right. intros a. by eapply unexposed_payable; [apply Hst'|].
    - destruct (Hok c) as [Hf|Ha]; [left; by eapply frozen_kept; [apply Hev|]|]. right. intros a. etrans; [apply Hd|apply Ha]. }
  destruct (is_creation op) eqn:Hc.
  { destruct op; try done. by apply create_payable_ok. }
  eapply payable_ok_moves; [apply Hst|apply Hst'|apply Hst|done|by apply payout_op_chn| |done].
  by apply other_op_batches.
Qed.

Lemma reachable_payable db : reachable db -> payable_ok db.
Proof.
  revert db. apply reachable_ind_op.
  - intros c. by right.
  - intros db op Hr Hwf Hok. apply run_op_payable; [by apply reachable_ok|done|done].
Qed.
End Payable.
