(* ===== verification/StoreProps.v ===== *)
(** What every history of the store guarantees: the ledger is the balance sheet, the collector
    covers what is owed, no miner is overpaid, a frozen chain releases nothing, and a payout
    batch follows its one-way lifecycle with facts that never change. *)

From Stdlib Require Import ZArith Lia.
From stdpp Require Import prelude gmap sorting strings.
From S2P Require Import Prelude Wire Backend Hex LargestRemainder Pplns PayoutFees Ledger PayoutRequest StoreDb PayoutStore Configuration PayoutWatch WinnerStore Books BatchPlan StoreInv WinnerInv StoreOps StoreEvolve StoreDemo Solvency.
Open Scope Z_scope.

#[global] Instance PayoutConfirmation_eq_dec : EqDecision PayoutConfirmation.
Proof. solve_decision. Defined.

#[global] Instance PayoutBatchRow_eq_dec : EqDecision PayoutBatchRow.
Proof. solve_decision. Defined.

Section Props.
Context {env : StoreEnv}.

(** ** Sequences of operations *)

Lemma run_ops_ind (P : Db -> Db -> Prop) :
  (forall db, reachable db -> P db db) ->
  (forall db1 db2 op, reachable db2 -> op_wf op -> P db1 db2 -> P db1 (run_op db2 op)) ->
  forall db ops, reachable db -> Forall op_wf ops -> P db (run_ops db ops).
Proof.
  intros H0 HS db ops Hr. induction ops as [|op ops IH] using rev_ind; intros Hwf; [by apply H0|].
  apply Forall_app in Hwf as [Hwf Hop]. rewrite Forall_singleton in Hop.
  unfold run_ops. rewrite foldl_app. cbn [foldl]. apply HS; [by apply reachable_ops|done|by apply IH].
Qed.

Lemma reachable_evolves db op : reachable db -> op_wf op -> evolves db (run_op db op).
Proof. intros Hr Hwf. apply run_op_evolves; [by apply reachable_ok|done]. Qed.

(** ** The lifecycle of a batch *)

Definition rank (s : PayoutBatchState) : Z :=
  match s with
  | Draft => 0 | Signing => 1 | Signed => 2 | Broadcasting => 3 | Broadcast => 4
  | ExpiryPending => 5 | Confirmed => 6 | Reorged => 7 | Expired => 7 | Cancelled => 7
  end.

(** A batch after further operations: its identity and its seal are fixed, signed facts stay,
    and every change advances it. *)
Record advanced (row row' : PayoutBatchRow) : Prop := {
  ad_chain : br_chain row' = br_chain row;
  ad_version : br_policy_version row' = br_policy_version row;
  ad_key : br_idempotency_key row' = br_idempotency_key row;
  ad_created : br_created_at row' = br_created_at row;
  ad_seal : br_seal row' = br_seal row;
  ad_signed : forall f, br_signed row = Some f -> br_signed row' = Some f;
  ad_rank : row' = row \/ rank (br_state row) < rank (br_state row')
}.

#[global] Instance advanced_preorder : PreOrder advanced.
Proof.
  split; [intros r; split; auto|]. intros r1 r2 r3 [A1 B1 C1 D1 E1 F1 G1] [A2 B2 C2 D2 E2 F2 G2].
  split; try congruence; [auto|]. destruct G1 as [->|], G2 as [->|]; auto. right; lia.
Qed.

Lemma step_advanced db op id row : reachable db -> op_wf op -> batches (pay db) !! id = Some row ->
  exists row', batches (pay (run_op db op)) !! id = Some row' /\ advanced row row'.
Proof.
  intros Hr Hwf Hrow. pose proof (reachable_evolves db op Hr Hwf) as Hev.
  pose proof (reachable_ok db Hr) as Hok. pose proof (run_op_ok db op Hok Hwf) as Hok'.
  destruct (ev_batches _ _ Hev id row Hrow) as (row' & Hrow' & _). exists row'. split; [done|].
  destruct (evolves_edge db _ id row row' (ok_rows _ Hok) Hev Hrow Hrow') as [->|(He & Hid & Hseal)]; [done|].
  unfold batch_identity_kept in Hid. boolprop. destruct_and?. split; try done.
  - intros f Hf. pose proof (si_batches _ _ (ok_inv _ Hok) id row Hrow) as (_ & _ & Hs).
    unfold lifecycle_edge, signed_kept in He.
    destruct (br_state row), (br_state row'); try done; boolprop; congruence.
  - right. unfold lifecycle_edge in He. destruct (br_state row), (br_state row'); done.
Qed.

Lemma ops_advanced db ops id row : reachable db -> Forall op_wf ops -> batches (pay db) !! id = Some row ->
  exists row', batches (pay (run_ops db ops)) !! id = Some row' /\ advanced row row'.
Proof.
  intros Hr Hwf. revert db ops Hr Hwf.
  apply (run_ops_ind (fun d1 d2 => batches (pay d1) !! id = Some row ->
    exists row', batches (pay d2) !! id = Some row' /\ advanced row row')).
  - intros db _ Hrow. by exists row.
  - intros d1 d2 op Hr Hop IH Hrow. destruct (IH Hrow) as (r & Hr2 & Ha).
    destruct (step_advanced d2 op id r Hr Hop Hr2) as (r' & Hr' & Ha'). exists r'. split; [done|by etrans].
Qed.

(** ** Frozen chains *)

(** The transaction may be on the wire. *)
Definition on_wire (s : PayoutBatchState) : bool :=
  match s with Broadcasting | Broadcast => true | _ => false end.

Definition held_back (row row' : PayoutBatchRow) : Prop :=
  (on_wire (br_state row') = true -> on_wire (br_state row) = true) /\
  (br_state row = Draft -> br_state row' = Draft \/ br_state row' = Cancelled).

Lemma frozen_locked t c : frozen t c -> lock_unfrozen_chain t c = Err (PayoutsFrozen c).
Proof.
  intros (row & Hrow & Hf). unfold lock_unfrozen_chain, lock_chain_safety_row. rewrite Hrow. cbn. by rewrite Hf.
Qed.

(** One operation on a frozen chain. *)
Lemma frozen_step db op c id row' : reachable db -> op_wf op -> frozen (led db) c ->
  batches (pay (run_op db op)) !! id = Some row' -> br_chain row' = c ->
  exists row, batches (pay db) !! id = Some row /\ br_chain row = c /\
    (row' = row \/ lifecycle_edge (run_op db op) id row row' = true /\ gated (br_state row) (br_state row') = false).
Proof.
  intros Hr Hwf Hf Hrow' Hc. pose proof (reachable_evolves db op Hr Hwf) as Hev.
  destruct (ev_gate _ _ Hev id row' Hrow') as [Hl|(row & Hrow & Hg)].
  { rewrite Hc, frozen_locked in Hl by done. done. }
  exists row. split; [done|].
  destruct (evolves_edge db _ id row row' (ok_rows _ (reachable_ok db Hr)) Hev Hrow Hrow') as [->|(He & Hid & _)].
  - split; [done|by left].
  - unfold batch_identity_kept in Hid. boolprop. split; [congruence|]. by right.
Qed.

(** C17. Once a chain is frozen its first cause is kept, no batch is created on it, no draft is
    authorised for signing and no transaction that was not already on its way is released for
    broadcast, whatever operations follow. *)
Theorem frozen_chain_releases_nothing db ops c cause :
  reachable db -> Forall op_wf ops ->
  safety (led db) !! c = Some cause -> payouts_frozen cause = true ->
  let db' := run_ops db ops in
  safety (led db') !! c = Some cause /\
  forall id row', batches (pay db') !! id = Some row' -> br_chain row' = c ->
    exists row, batches (pay db) !! id = Some row /\ held_back row row'.
Proof.
  intros Hr Hwf Hc Hf. revert db ops Hr Hwf Hc.
  apply (run_ops_ind (fun db db' => safety (led db) !! c = Some cause ->
    safety (led db') !! c = Some cause /\
    forall id row', batches (pay db') !! id = Some row' -> br_chain row' = c ->
      exists row, batches (pay db) !! id = Some row /\ held_back row row')).
  - intros db _ Hc. split; [done|]. intros id row' Hrow' _. exists row'. split; [done|]. split; auto.
  - intros d1 d2 op Hr Hop IH Hc. destruct (IH Hc) as [Hc2 Hrows].
    pose proof (reachable_evolves d2 op Hr Hop) as Hev. split.
    + destruct (le_safety _ _ (ev_led _ _ Hev) c cause Hc2) as (cause' & Hc' & Hk). by rewrite Hc', Hk.
    + intros id row3 Hrow3 Hch.
      destruct (frozen_step d2 op c id row3 Hr Hop) as (row2 & Hrow2 & Hch2 & Hstep); [by exists cause|done|done|].
      destruct (Hrows id row2 Hrow2 Hch2) as (row & Hrow & Hwire & Hdraft). exists row. split; [done|].
      destruct Hstep as [->|[He Hg]]; [done|]. unfold lifecycle_edge in He.
      split; [|intros Hd; destruct (Hdraft Hd) as [Hs|Hs]];
        destruct (br_state row2), (br_state row3); try done; auto.
Qed.

(** ** Money *)

(** C1. The ledger implements the balance sheet: in every state the store can reach, the balance
    of every account on every chain is what the winners, the payout batches and the opening
    equity alone determine. *)
Theorem ledger_refines_balance_sheet db : reachable db ->
  forall c who label, owner_balance (led db) c who label = books db c who label.
Proof. intros Hr. apply (si_books _ _ (ok_inv _ (reachable_ok db Hr))). Qed.

(** A miner's matured rewards on a chain, and what batches have paid or reserved of them. *)
Definition earned (db : Db) (c : Chain) (a : Uuid) : Z :=
  - table_sum (fun key row => if decide (fst key = c)
                              then winner_balance (chn db) key row (Some a) "miner_payable" else 0) (winners (chn db)).
Definition committed (db : Db) (c : Chain) (a : Uuid) : Z :=
  table_sum (fun id row => if decide (br_chain row = c)
                           then batch_balance (pay db) id row (Some a) "miner_payable" else 0) (batches (pay db)).

(** C2. On a chain that is not frozen no miner is ever paid, or promised by an open batch, more
    than the matured rewards earned, whatever the projector, the portal and the payout worker did. *)
Theorem no_miner_overpaid db c a : reachable db -> ~ frozen (led db) c -> committed db c a <= earned db c a.
Proof.
  intros Hr Hn. destruct (reachable_payable db Hr c) as [|Ha]; [done|]. specialize (Ha a).
  rewrite (payable_books _ db c a (ok_inv _ (reachable_ok db Hr))) in Ha. unfold committed, earned. lia.
Qed.

Lemma entries_checked db c : reachable db -> forallb ledger_entry_check (chain_entries (ledger (led db)) c) = true.
Proof.
  intros Hr. destruct (ok_sequenced _ (reachable_ok db Hr)) as (_ & _ & Hchk).
  induction Hchk as [|x l [_ Hx] _ IH]; [done|]. rewrite chain_entries_cons, forallb_app, IH, andb_true_r.
  by case_decide.
Qed.

Lemma core_balanced db c : reachable db -> core_sum (chain_entries (ledger (led db)) c) = 0.
Proof.
  intros Hr. pose proof (si_core _ _ (ok_inv _ (reachable_ok db Hr))) as Hcore.
  induction Hcore as [|x l Hx _ IH]; [done|]. rewrite chain_entries_cons, core_sum_app, IH. by case_decide; [rewrite Hx|].
Qed.

Lemma equity_nonneg db c : reachable db -> label_balance (led db) c "pool_equity" <= 0.
Proof.
  intros Hr. pose proof (ok_inv _ (reachable_ok db Hr)) as Hinv. unfold label_balance.
  rewrite pool_label_sum by (set_solver || by apply entries_checked).
  change (owner_balance (led db) c None "pool_equity" <= 0). rewrite (si_books _ _ Hinv). unfold books.
  pose proof (opening_equity (ledger (led db)) c (si_opening _ _ Hinv)).
  destruct (winner_signs _ db c Hinv) as (_ & _ & Hw). cbv zeta in Hw.
  rewrite (table_sum_zero _ (batches (pay db))); [lia|]. intros id row Hrow. case_decide; [|done].
  by apply (batch_signs _ db id row Hinv Hrow).
Qed.

Lemma pending_nonneg db c a : reachable db -> owner_balance (led db) c (Some a) "payout_pending" <= 0.
Proof.
  intros Hr. pose proof (ok_inv _ (reachable_ok db Hr)) as Hinv. rewrite (si_books _ _ Hinv). unfold books.
  rewrite opening_miner by apply Hinv. destruct (winner_signs _ db c Hinv) as (_ & Hw & _). cbv zeta in Hw. rewrite Hw.
  enough (table_sum (fun id row => if decide (br_chain row = c) then batch_balance (pay db) id row (Some a) "payout_pending" else 0)
    (batches (pay db)) <= 0) by lia.
  apply table_sum_nonpos. intros id row Hrow. case_decide; [|done]. by apply (batch_signs _ db id row Hinv Hrow).
Qed.

(** C20. The collector is solvent: its spendable balance is what miners are owed, payable or
    pending, plus the pool's equity; the equity is never spent; and on a chain that is not frozen
    what is owed is not negative, so the balance covers it. *)
Theorem collector_covers_liabilities db c : reachable db ->
  let spendable := label_balance (led db) c "collector_spendable_asset" in
  let owed := - (label_balance (led db) c "miner_payable" + label_balance (led db) c "payout_pending") in
  let equity := - label_balance (led db) c "pool_equity" in
  spendable = owed + equity /\ 0 <= equity /\ (~ frozen (led db) c -> 0 <= owed <= spendable).
Proof.
  intros Hr spendable owed equity. pose proof (core_balanced db c Hr) as Hcore. unfold core_sum in Hcore.
  pose proof (equity_nonneg db c Hr) as He. unfold spendable, owed, equity, label_balance in *.
  split_and!; [lia|lia|]. intros Hn. destruct (reachable_payable db Hr c) as [|Ha]; [done|].
  assert (forall label, label ∈ miner_ledger_accounts -> owner_sum None label (chain_entries (ledger (led db)) c) = 0) as H0
    by (intros label Hl; by apply miner_label_none, entries_checked).
  assert (label_sum "miner_payable" (chain_entries (ledger (led db)) c) <= 0).
  { apply label_sum_nonpos. intros [a|]; [apply Ha|]. rewrite H0; [done|set_solver]. }
  assert (label_sum "payout_pending" (chain_entries (ledger (led db)) c) <= 0).
  { apply label_sum_nonpos. intros [a|]; [by apply pending_nonneg|]. rewrite H0; [done|set_solver]. }
  lia.
Qed.

(** ** Identity *)

Definition distinct (r s : PayoutBatchRow) : Prop :=
  br_idempotency_key r <> br_idempotency_key s /\
  (forall x y, br_seal r = Some x -> br_seal s = Some y -> bs_reconciliation_id x <> bs_reconciliation_id y) /\
  (forall f g, br_chain r = br_chain s -> br_signed r = Some f -> br_signed s = Some g ->
     sf_transaction_id f <> sf_transaction_id g).

Lemma distinct_sym r s : distinct r s -> distinct s r.
Proof.
  intros (H1 & H2 & H3). split_and!; [done| |].
  - intros x y Hx Hy Heq. by eapply H2.
  - intros f g Hc Hf Hg Heq. by eapply H3.
Qed.

(** The row an operation wrote, against any other. *)
Lemma distinct_step db db' k j r s : rows_wf db -> evolves db db' -> k <> j ->
  batches (pay db') !! k = Some r -> batches (pay db) !! j = Some s ->
  (forall r0, batches (pay db) !! k = Some r0 -> distinct r0 s) -> distinct r s.
Proof.
  intros Hwf Hev Hkj Hr Hs Hd. destruct (batches (pay db) !! k) as [r0|] eqn:Hr0.
  - specialize (Hd r0 eq_refl). destruct (evolves_edge db db' k r0 r Hwf Hev Hr0 Hr) as [->|(_ & Hid & Hseal)]; [done|].
    unfold batch_identity_kept in Hid. boolprop. destruct Hd as (D1 & D2 & D3). split_and!; [congruence|by rewrite Hseal|].
    intros f g Hc Hf Hg Heq. destruct (ev_signed _ _ Hev k r0 r Hr0 Hr) as [Hsame|Hx].
    + apply (D3 f g); congruence.
    + by eapply (Hx f j s g).
  - destruct (ev_created _ _ Hev k r Hr0 Hr) as (_ & Hns & _ & Hk). destruct (Hk j s Hs) as [H1 H2].
    split_and!; [congruence| |congruence]. intros x y Hx Hy Heq. by eapply H2.
Qed.

Lemma reachable_distinct db i j r s : reachable db -> i <> j ->
  batches (pay db) !! i = Some r -> batches (pay db) !! j = Some s -> distinct r s.
Proof.
  intros Hr. revert db Hr i j r s. apply (reachable_ind_op (fun db => forall i j r s, i <> j ->
    batches (pay db) !! i = Some r -> batches (pay db) !! j = Some s -> distinct r s)).
  - intros i j r s _ Hi. done.
  - intros db op Hr Hwf IH i j r s Hij Hi Hj. pose proof (reachable_evolves db op Hr Hwf) as Hev.
    pose proof (ok_rows _ (reachable_ok db Hr)) as Hrows. destruct (ev_single _ _ Hev) as [k Hk].
    destruct (decide (i = k)) as [->|Hni]; [|destruct (decide (j = k)) as [->|Hnj]].
    + rewrite Hk in Hj by done. apply (distinct_step db (run_op db op) k j r s Hrows Hev); [done..|].
      intros r0 Hr0. by eapply (IH k j).
    + rewrite Hk in Hi by done. apply distinct_sym. apply (distinct_step db (run_op db op) k i s r Hrows Hev); [done..|].
      intros r0 Hr0. apply distinct_sym. by eapply (IH i k).
    + rewrite Hk in Hi, Hj by done. by apply (IH i j).
Qed.

(** No two batches share an idempotency key or a wallet checkpoint, and no two batches of a
    chain ever record the same transaction: a checkpoint pays once and a retry never pays twice. *)
Theorem payout_batches_distinct db i j r s : reachable db -> i <> j ->
  batches (pay db) !! i = Some r -> batches (pay db) !! j = Some s ->
  br_idempotency_key r <> br_idempotency_key s /\
  (forall x y, br_seal r = Some x -> br_seal s = Some y -> bs_reconciliation_id x <> bs_reconciliation_id y) /\
  (forall f g, br_chain r = br_chain s -> br_signed r = Some f -> br_signed s = Some g ->
     sf_transaction_id f <> sf_transaction_id g).
Proof. apply reachable_distinct. Qed.

(** ** The schema and the lifecycle *)

(** C22. The store refines the schema's rule for payout batches: whatever operation runs, a row it
    inserts is sealed and a row it changes is changed as the trigger on the table permits, and
    one operation writes at most one row. *)
Theorem payout_updates_permitted db op : reachable db -> op_wf op ->
  let db' := run_op db op in
  (forall id row, batches (pay db) !! id = Some row -> exists row', batches (pay db') !! id = Some row' /\
     (row' = row \/ permit_only_payout_batch_seal db' id row row' = true)) /\
  (forall id row', batches (pay db) !! id = None -> batches (pay db') !! id = Some row' ->
     permit_only_payout_batch_seal db' id (unsealed row') row' = true) /\
  (exists id, forall j, j <> id -> batches (pay db') !! j = batches (pay db) !! j).
Proof.
  intros Hr Hwf db'. pose proof (reachable_evolves db op Hr Hwf) as Hev. split_and!.
  - apply Hev.
  - intros id row' Hn Hrow'. apply (ev_created _ _ Hev id row' Hn Hrow').
  - apply Hev.
Qed.

(** C3. A payout batch never disappears and never turns back: its chain, policy version, keys and
    seal are fixed, the transaction it was signed with is never replaced, and every later
    operation either leaves the row or advances its state. *)
Theorem payout_batch_one_way db ops id row : reachable db -> Forall op_wf ops ->
  batches (pay db) !! id = Some row ->
  exists row', batches (pay (run_ops db ops)) !! id = Some row' /\ advanced row row'.
Proof. apply ops_advanced. Qed.

(** How often the row of a batch changes over a sequence of operations. *)
Fixpoint batch_updates (db : Db) (ops : list StoreOp) (id : Uuid) : Z :=
  match ops with
  | [] => 0
  | op :: rest => (if decide (batches (pay (run_op db op)) !! id = batches (pay db) !! id) then 0 else 1)
                  + batch_updates (run_op db op) rest id
  end.

(** C23. Every payout batch comes to rest: over any sequence of operations, however long, its row
    changes at most seven times, and a batch in a final state never again. *)
Theorem payout_batch_settles db ops id row : reachable db -> Forall op_wf ops ->
  batches (pay db) !! id = Some row -> batch_updates db ops id <= 7 - rank (br_state row).
Proof.
  intros Hr Hwf. revert db row Hr. induction Hwf as [|op ops Hop Hwf IH]; intros db row Hr Hrow; cbn [batch_updates].
  { destruct (br_state row); cbn; lia. }
  destruct (step_advanced db op id row Hr Hop Hrow) as (row' & Hrow' & Ha).
  specialize (IH (run_op db op) row' (reachable_op db op Hr Hop) Hrow'). rewrite Hrow, Hrow'.
  destruct (ad_rank _ _ Ha) as [->|Hlt]; [rewrite decide_True by done; lia|]. case_decide; lia.
Qed.
End Props.

(** ** The demonstration history *)

Definition demo_row (n : nat) : PayoutBatchRow :=
  default (mkPayoutBatchRow Wcash 0 0 Draft 0 None None None) (batches (pay (demo_state n)) !! 71).

Lemma demo_row_stored n : is_Some (batches (pay (demo_state n)) !! 71) ->
  batches (pay (demo_state n)) !! 71 = Some (demo_row n).
Proof. intros [row H]. unfold demo_row. by rewrite H. Qed.

Lemma ledger_refines_balance_sheet_witness :
  owner_balance (led (demo_state 11)) Wcash (Some 7) "miner_payable" = -618749002 /\
  books (demo_state 11) Wcash (Some 7) "miner_payable" = -618749002.
Proof.
  assert (owner_balance (led (demo_state 11)) Wcash (Some 7) "miner_payable" = -618749002) as H
    by (vm_compute; reflexivity).
  split; [exact H|]. rewrite <- H. symmetry.
  exact (ledger_refines_balance_sheet (demo_state 11) (demo_state_reachable 11) Wcash (Some 7) "miner_payable").
Defined.

Lemma no_miner_overpaid_witness : committed (demo_state 11) Wcash 7 <= earned (demo_state 11) Wcash 7 /\
  committed (demo_state 11) Wcash 7 = 998 /\ earned (demo_state 11) Wcash 7 = 618750000.
Proof.
  split; [|split; vm_compute; reflexivity].
  apply (no_miner_overpaid (demo_state 11) Wcash 7 (demo_state_reachable 11)).
  intros (row & Hrow & Hf). vm_compute in Hrow. injection Hrow as <-. discriminate Hf.
Defined.

Lemma collector_covers_liabilities_witness :
  label_balance (led (demo_state 11)) Wcash "collector_spendable_asset" = 624999002 /\
  label_balance (led (demo_state 11)) Wcash "collector_spendable_asset" =
    - (label_balance (led (demo_state 11)) Wcash "miner_payable" + label_balance (led (demo_state 11)) Wcash "payout_pending")
    + - label_balance (led (demo_state 11)) Wcash "pool_equity".
Proof.
  split; [vm_compute; reflexivity|].
  exact (proj1 (collector_covers_liabilities (demo_state 11) Wcash (demo_state_reachable 11))).
Defined.

Lemma frozen_chain_releases_nothing_witness :
  exists cause, safety (led (demo_state 12)) !! Wcash = Some cause /\ payouts_frozen cause = true /\
    safety (led (run_ops (demo_state 12) [demo_create; OpAuthorizeBroadcast 71])) !! Wcash = Some cause.
Proof.
  eexists. split; [vm_compute; reflexivity|]. split; [reflexivity|].
  refine (proj1 (frozen_chain_releases_nothing (demo_state 12) [demo_create; OpAuthorizeBroadcast 71] Wcash _
    (demo_state_reachable 12) _ _ _)); [repeat constructor; discriminate|vm_compute; reflexivity|reflexivity].
Defined.

Lemma payout_updates_permitted_witness :
  permit_only_payout_batch_seal (run_op (demo_state 5) demo_create) 71 (unsealed (demo_row 6)) (demo_row 6) = true.
Proof.
  refine (proj1 (proj2 (payout_updates_permitted (demo_state 5) demo_create (demo_state_reachable 5) ltac:(discriminate))) 71 (demo_row 6) _ _);
    vm_compute; reflexivity.
Defined.

Lemma payout_batch_one_way_witness :
  exists row', batches (pay (run_ops (demo_state 8) [OpAuthorizeBroadcast 71; OpMarkBroadcast 71])) !! 71 = Some row' /\
    br_signed row' = Some demo_facts.
Proof.
  destruct (payout_batch_one_way (demo_state 8) [OpAuthorizeBroadcast 71; OpMarkBroadcast 71] 71 (demo_row 8)
    (demo_state_reachable 8)) as (row' & Hrow' & Ha); [repeat constructor|vm_compute; reflexivity|].
  exists row'. split; [exact Hrow'|]. apply (ad_signed _ _ Ha). vm_compute. reflexivity.
Defined.

Lemma payout_batch_settles_witness :
  batch_updates (demo_state 6) demo_settle 71 = 5 /\ batch_updates (demo_state 6) demo_settle 71 <= 7.
Proof.
  split; [vm_compute; reflexivity|].
  apply (payout_batch_settles (demo_state 6) demo_settle 71 (demo_row 6) (demo_state_reachable 6));
    [repeat constructor; vm_compute; congruence|vm_compute; reflexivity].
Defined.

Lemma payout_batches_distinct_witness :
  exists r s, batches (pay (run_ops (demo_state 11) demo_again)) !! 71 = Some r /\
    batches (pay (run_ops (demo_state 11) demo_again)) !! 75 = Some s /\ br_idempotency_key r <> br_idempotency_key s.
Proof.
  eexists _, _. split; [vm_compute; reflexivity|]. split; [vm_compute; reflexivity|].
  refine (proj1 (payout_batches_distinct (run_ops (demo_state 11) demo_again) 71 75 _ _ _ _ _ _)).
  - apply reachable_ops; [apply demo_state_reachable|repeat constructor; discriminate].
  - discriminate.
  - vm_compute. reflexivity.
  - vm_compute. reflexivity.
Defined.
