(* ===== verification/StoreJournal.v ===== *)
(** The event projector as an exactly-once consumer of the backend's journal
    (crates/wcash-pool-store/src/postgres.rs: project_one, project_replay_page): the cursor
    advances by one, a recorded event replays to nothing, a conflicting or early one is refused,
    and a page can be replayed from any earlier point after a crash. *)

From Stdlib Require Import ZArith Lia.
From stdpp Require Import prelude gmap sorting strings.
From S2P Require Import Prelude Wire Backend Hex LargestRemainder Pplns PayoutFees Ledger PayoutRequest StoreDb PayoutStore Configuration PayoutWatch WinnerStore Books BatchPlan StoreInv WinnerInv StoreOps StoreEvolve StoreDemo.
Open Scope Z_scope.

Section Journal.
Context {env : StoreEnv}.

(** The payload digest a journal row holds. *)
Definition payload_hash (event : BackendEvent) : list Z := env_sha256 (env_event_json event).

(** What the store has recorded of an event. *)
Definition recorded (db : Db) (event : BackendEvent) : Prop :=
  BackendEvent_validate env_sha256 event = Ok tt /\ event_seq event <= I64_MAX /\
  event_seq event <= last_event_seq (chn db) /\
  backend_events (chn db) !! event_seq event = Some (payload_hash event).

Lemma recorded_replays db fresh event : recorded db event -> project_one db fresh event = (db, Ok Replayed).
Proof.
  intros (Hv & Hmax & Hle & Hb). unfold project_one. rewrite Hv. cbv zeta.
  rewrite (proj2 (Z.ltb_ge _ _)), (proj2 (Z.leb_le _ _)) by done. cbn [transaction].
  unfold payload_hash in Hb. by rewrite bool_decide_eq_true_2.
Qed.

(** An event that succeeds either replays, or is the next one. *)
Lemma project_one_Ok db fresh event db' r : store_inv (last_event_seq (chn db)) db ->
  project_one db fresh event = (db', Ok r) ->
  recorded db' event /\
  (r = Replayed /\ db' = db \/
   r = Applied /\ event_seq event = last_event_seq (chn db) + 1 /\ backend_events (chn db) !! event_seq event = None /\
   last_event_seq (chn db') = event_seq event /\
   backend_events (chn db') = <[event_seq event := payload_hash event]> (backend_events (chn db))).
Proof.
  intros Hinv H. unfold project_one in H.
  destruct (BackendEvent_validate env_sha256 event) as [[]|] eqn:Hv; [|done]. cbv zeta in H.
  destruct (Z.ltb_spec I64_MAX (event_seq event)); [done|].
  destruct (Z.leb_spec (event_seq event) (last_event_seq (chn db))) as [Hle|Hgt].
  { cbn [transaction] in H. case_bool_decide; simplify_eq. by split; [|left]. }
  apply transaction_Ok in H as [H|[_ H]]; run_steps H. injection H as <- <-. boolprop.
  match goal with Ha : apply_event _ _ _ = Ok _ |- _ =>
    apply (apply_event_projects (last_event_seq (chn db))) in Ha as [_ Hc]; [|lia|] end.
  2:{ by apply (inv_same (last_event_seq (chn db)) (last_event_seq (chn db)) db). }
  unfold cursor in Hc. cbn [chn set_chn set_cursor last_event_seq backend_events] in Hc. injection Hc as _ Hc.
  match goal with He : ok_or _ _ = Ok _ |- _ => apply ok_or_Ok in He; unfold checked_add in He; run_in He end.
  unfold recorded, payload_hash. cbn [chn set_chn set_cursor last_event_seq backend_events]. rewrite Hc.
  split; [split_and!; [done..|lia|apply lookup_insert_eq]|]. right. split_and!; try done. by apply eq_None_not_Some.
Qed.

(** A failed projection leaves the database as it was. *)
Lemma project_one_Err db fresh event db' e : project_one db fresh event = (db', Err e) -> db' = db.
Proof.
  unfold project_one. intros H. case_match; [|by simplify_eq]. cbv zeta in H. case_match; [by simplify_eq|].
  match goal with H : transaction _ ?b = _ |- _ => destruct b as [[d r|r]|] eqn:Hb end; cbn in H; simplify_eq; try done.
  by run_steps Hb.
Qed.

Lemma recorded_kept db fresh event db' r e : store_inv (last_event_seq (chn db)) db ->
  project_one db fresh event = (db', Ok r) -> recorded db e -> recorded db' e.
Proof.
  intros Hinv H (Hv & Hm & Hle & Hb). destruct (project_one_Ok _ _ _ _ _ Hinv H) as [_ [[_ ->]|(_ & Hseq & Hn & Hl & Hbe)]]; [done|].
  split_and!; [done|done|lia|]. rewrite Hbe, lookup_insert_ne; [done|]. intros Heq. rewrite Heq, Hb in Hn. done.
Qed.

Lemma project_events_recorded db fresh events db' : store_inv (last_event_seq (chn db)) db ->
  project_events db fresh events = (db', Ok tt) ->
  Forall (recorded db') events /\ (forall e, recorded db e -> recorded db' e).
Proof.
  revert db; induction events as [|event events IH]; intros db Hinv H; cbn [project_events] in H.
  { simplify_eq. by split. }
  destruct (project_one db (fresh (length events)) event) as [db1 [r|e]] eqn:H1; [|done].
  pose proof (project_one_inv db (fresh (length events)) event Hinv) as Hinv1. rewrite H1 in Hinv1. cbn [fst] in Hinv1.
  destruct (IH db1 Hinv1 H) as [Hall Hkept]. destruct (project_one_Ok _ _ _ _ _ Hinv H1) as [Hrec _].
  split; [constructor; [by apply Hkept|done]|]. intros x Hx. apply Hkept. exact (recorded_kept _ _ _ _ _ _ Hinv H1 Hx).
Qed.

Lemma replay_prefix db fresh es rest : Forall (recorded db) es ->
  project_events db fresh (es ++ rest) = project_events db fresh rest.
Proof.
  induction 1 as [|e es He _ IH]; [done|]. cbn [app project_events]. by rewrite recorded_replays.
Qed.

(** The projector consumes the journal exactly once: after a page was projected, replaying it
    from the start with more events behind it, as after a crash or a lost acknowledgement, gives
    what projecting only the new events gives; with nothing new it changes nothing. *)
Theorem projection_resumes db fresh es db1 fresh' rest :
  reachable db -> project_events db fresh es = (db1, Ok tt) ->
  project_events db1 fresh' (es ++ rest) = project_events db1 fresh' rest.
Proof.
  intros Hr H. apply replay_prefix. eapply project_events_recorded; [|exact H]. apply (ok_inv _ (reachable_ok db Hr)).
Qed.

(** The recorded sequences are those from one to the cursor. *)
Definition contiguous (t : ChainTables) : Prop :=
  0 <= last_event_seq t /\ forall s, is_Some (backend_events t !! s) <-> 1 <= s <= last_event_seq t.

Lemma project_events_contiguous db fresh events : store_inv (last_event_seq (chn db)) db ->
  contiguous (chn db) -> contiguous (chn (fst (project_events db fresh events))).
Proof.
  revert db; induction events as [|event events IH]; intros db Hinv Hc; cbn [project_events]; [done|].
  pose proof (project_one_inv db (fresh (length events)) event Hinv) as Hinv1.
  destruct (project_one db (fresh (length events)) event) as [db1 [r|e]] eqn:H1; cbn [fst] in *.
  - apply IH; [done|]. destruct (project_one_Ok _ _ _ _ _ Hinv H1) as [_ [[_ ->]|(_ & Hseq & _ & Hl & Hb)]]; [done|].
    destruct Hc as [H0 Hc]. split; [lia|]. intros s. rewrite Hb, Hl. destruct (decide (s = event_seq event)) as [->|Hne].
    + rewrite lookup_insert_eq. split; [lia|by eexists].
    + rewrite lookup_insert_ne, Hc by done. lia.
  - apply project_one_Err in H1. by subst.
Qed.

Lemma reachable_contiguous db : reachable db -> contiguous (chn db).
Proof.
  revert db. apply reachable_ind_op.
  { split; [done|]. intros s. cbn. rewrite lookup_empty. split; [by intros [? ?]|lia]. }
  intros db op Hr Hwf Hc. destruct (is_projection op) eqn:Hp; [|by rewrite payout_op_chn].
  destruct op; try done. cbn [run_op]. unfold project_replay_page. case_match; [done|].
  apply project_events_contiguous; [|done]. apply (ok_inv _ (reachable_ok db Hr)).
Qed.

(** C24. The journal has no gap and no second version of an event: the recorded sequences are
    those from one to the cursor; an event at or below the cursor replays without effect if its
    digest is the recorded one and is refused otherwise; one beyond the next is refused; and a
    refusal leaves the database as it was. *)
Theorem journal_exact db fresh event : reachable db ->
  BackendEvent_validate env_sha256 event = Ok tt -> event_seq event <= I64_MAX ->
  let last := last_event_seq (chn db) in
  (forall s, is_Some (backend_events (chn db) !! s) <-> 1 <= s <= last) /\
  (event_seq event <= last -> project_one db fresh event =
     (db, if bool_decide (backend_events (chn db) !! event_seq event = Some (payload_hash event))
          then Ok Replayed else Err (EventReplayConflict (event_seq event)))) /\
  (last < event_seq event -> last < I64_MAX -> event_seq event <> last + 1 ->
     project_one db fresh event = (db, Err (EventSequenceGap (last + 1) (event_seq event)))) /\
  (forall db' e, project_one db fresh event = (db', Err e) -> db' = db).
Proof.
  intros Hr Hv Hmax last. split_and!.
  - intros s. apply (reachable_contiguous db Hr).
  - intros Hle. unfold project_one. rewrite Hv. cbv zeta.
    rewrite (proj2 (Z.ltb_ge _ _)), (proj2 (Z.leb_le _ _)) by done. reflexivity.
  - intros Hgt Hlast Hne. unfold project_one. rewrite Hv. cbv zeta.
    rewrite (proj2 (Z.ltb_ge _ _)), (proj2 (Z.leb_gt _ _)) by done. unfold checked_add.
    fold last. rewrite (proj2 (Z.leb_le (last + 1) I64_MAX)) by lia. cbn [ok_or].
    by rewrite (proj2 (Z.eqb_neq _ _)).
  - intros db' e. apply project_one_Err.
Qed.

End Journal.

Definition demo_fresh (i j : nat) : Uuid := 1000 + 10 * Z.of_nat i + Z.of_nat j.

Definition demo_next : list BackendEvent :=
  [WinnerOrphaned 5 (demo_hex 32 3) (demo_hex 32 1) (demo_winner Wcash) (mkChainTip (demo_hex 32 41) 150)].

Lemma projection_resumes_witness :
  last_event_seq (chn (fst (project_events (demo_state 2) demo_fresh demo_events))) = 4 /\
  project_events (fst (project_events (demo_state 2) demo_fresh demo_events)) demo_fresh (demo_events ++ demo_next) =
  project_events (fst (project_events (demo_state 2) demo_fresh demo_events)) demo_fresh demo_next.
Proof.
  assert (snd (project_events (demo_state 2) demo_fresh demo_events) = Ok tt) as H by (vm_compute; reflexivity).
  apply pair_of_snd in H. split; [vm_compute; reflexivity|].
  exact (projection_resumes (demo_state 2) demo_fresh demo_events _ demo_fresh demo_next (demo_state_reachable 2) H).
Defined.

Lemma journal_exact_witness :
  project_one (demo_state 3) (demo_fresh 0) (GenerationClosed 7 (demo_hex 32 1)) =
    (demo_state 3, Err (EventSequenceGap 5 7)) /\
  snd (project_one (demo_state 3) (demo_fresh 0) (GenerationClosed 4 (demo_hex 32 1))) = Err (EventReplayConflict 4).
Proof.
  split; [|vm_compute; reflexivity].
  assert (last_event_seq (chn (demo_state 3)) = 4) as E by (vm_compute; reflexivity).
  pose proof (journal_exact (demo_state 3) (demo_fresh 0) (GenerationClosed 7 (demo_hex 32 1)) (demo_state_reachable 3)
    ltac:(vm_compute; reflexivity) ltac:(vm_compute; congruence)) as H.
  cbv zeta in H. rewrite E in H. apply H; vm_compute; congruence.
Defined.
