(* ===== verification/SigningFence.v ===== *)
(** The signing fence survives crashes: the request a batch was authorised with is rebuilt, byte
    for byte, from the tables at any later time, whatever happened to the ledger, the policies
    and the destinations since (crates/wcash-pool-store/src/postgres.rs: authorize_payout_signing,
    signing_payout_request, ledger_snapshot at the sequence cutoff). *)

From Stdlib Require Import ZArith Lia.
From stdpp Require Import prelude gmap sorting strings.
From S2P Require Import Prelude Wire Backend Hex LargestRemainder Pplns PayoutFees Ledger PayoutRequest StoreDb PayoutStore Configuration PayoutWatch WinnerStore Books BatchPlan StoreInv WinnerInv StoreOps StoreEvolve StoreDemo Solvency StoreProps.
Open Scope Z_scope.

Section Fence.
Context {env : StoreEnv}.

(** ** What later operations keep *)

Lemma receivers_kept_trans t1 t2 t3 : receivers_kept t1 t2 -> receivers_kept t2 t3 -> receivers_kept t1 t3.
Proof.
  intros H1 H2 id d Hd. destruct (H1 id d Hd) as (d2 & Hd2 & [A1 K1]). destruct (H2 id d2 Hd2) as (d3 & Hd3 & [A2 K2]).
  exists d3. split; [done|]. split; congruence.
Qed.

Definition kept (db db' : Db) : Prop :=
  led_evolves (led db) (led db') /\ receivers_kept (pay db) (pay db') /\ items (pay db) ⊆ items (pay db').

Lemma ops_kept db ops : reachable db -> Forall op_wf ops -> kept db (run_ops db ops).
Proof.
  revert db ops. apply run_ops_ind.
  - intros db _. split_and!; [done|by apply receivers_kept_refl|done].
  - intros d1 d2 op Hr Hop (Hl & Hk & Hi). pose proof (reachable_evolves d2 op Hr Hop) as Hev. split_and!.
    + etrans; [done|apply Hev].
    + eapply receivers_kept_trans; [done|apply Hev].
    + etrans; [done|apply Hev].
Qed.

(** ** The ledger below a cutoff *)

Lemma snapshot_transactions_stable t t' chain cutoff : led_evolves t t' -> cutoff < next_sequence t ->
  snapshot_transactions t' chain (Some cutoff) = snapshot_transactions t chain (Some cutoff).
Proof.
  intros [(_ & new & Hl & _ & Hnew) _ _ _] Hc. unfold snapshot_transactions. rewrite Hl, filter_app.
  rewrite (filter_none _ new), app_nil_r; [done|]. intros x Hin [_ Hw].
  rewrite Forall_forall in Hnew. destruct (Hnew x Hin) as [Hx _]. unfold within_cutoff in Hw. apply Z.leb_le in Hw. lia.
Qed.

Lemma ledger_snapshot_stable t t' chain cutoff : led_evolves t t' -> cutoff < next_sequence t ->
  ledger_snapshot t' chain (Some cutoff) = ledger_snapshot t chain (Some cutoff).
Proof. intros He Hc. unfold ledger_snapshot. by rewrite (snapshot_transactions_stable t t'). Qed.

Lemma policy_at_stable t t' chain version p : led_evolves t t' ->
  policy_at t chain version = Some p -> policy_at t' chain version = Some p.
Proof.
  unfold policy_at. intros He Hp. destruct (policies t !! chain) as [q|] eqn:Hq; [|done].
  by rewrite (lookup_weaken _ _ _ _ Hq (le_policies _ _ He)).
Qed.

(** ** Reading the batch again *)

Definition in_state (b : PayoutBatch) (s : PayoutBatchState) : PayoutBatch :=
  mkPayoutBatch (pb_id b) (pb_chain b) s (pb_policy_version b) (pb_reconciliation_id b) (pb_ledger_root b)
    (pb_ledger_sequence_cutoff b) (pb_miner_total_zat b) (pb_payout_total_zat b) (pb_maximum_network_fee_zat b)
    (pb_outputs b).

Lemma load_payout_batch_stable b db db' id row row' batch :
  store_inv b db -> kept db db' -> batches (pay db) !! id = Some row -> batches (pay db') !! id = Some row' ->
  advanced row row' -> load_payout_batch db id = Ok batch ->
  load_payout_batch db' id = Ok (in_state batch (br_state row')).
Proof.
  intros Hinv (Hl & Hk & Hi) Hrow Hrow' Ha H. unfold load_payout_batch in *. rewrite Hrow in H. rewrite Hrow'.
  cbn [ok_or] in *. rewrite (ad_seal _ _ Ha), (ad_chain _ _ Ha), (ad_version _ _ Ha).
  destruct (si_batches _ _ Hinv id row Hrow) as ([its Hits] & _).
  pose proof (lookup_weaken _ _ _ _ Hits Hi) as Hits'.
  assert (items_bound (pay db) (default [] (items (pay db) !! id))) as Hb by (rewrite Hits; by eapply (si_items _ _ Hinv)).
  assert (Forall2 row_agrees (item_rows (pay db) id) (item_rows (pay db') id)) as Hrows.
  { unfold item_rows. rewrite Hits' , Hits in *. apply sort_by_Forall2; [|by apply joined_rows_agree].
    intros x x' y y' [-> _] [-> _]. done. }
  rewrite (load_outputs_stable (pay db) (pay db')) by (done || congruence).
  destruct (ok_or (br_seal row) _); [|done]. destruct (exact_hash _ _); [|done]. destruct (u64_from _ _); [|done].
  cbv zeta in *. case_bool_decide; [done|]. rewrite bool_decide_eq_false_2.
  - run_steps H. by simplify_eq.
  - intros Hnil. rewrite Hnil in Hrows. by apply Forall2_nil_inv_r in Hrows.
Qed.

Lemma payout_signer_request_stable db db' batch s request :
  sequenced (led db) -> led_evolves (led db) (led db') ->
  payout_signer_request db batch = Ok request -> payout_signer_request db' (in_state batch s) = Ok request.
Proof.
  intros (_ & _ & Hseq) Hev H. unfold payout_signer_request in *.
  cbn [pb_chain pb_ledger_sequence_cutoff pb_ledger_root in_state] in *.
  bind_in H derived Hd. case_bool_decide as Hroot; [done|]. unfold frozen_payout_signer_request in H.
  bind_in H cutoff Hcut. destruct (negb (existsb _ _)) eqn:Hx; [done|]. apply negb_false_iff in Hx.
  assert (cutoff = pb_ledger_sequence_cutoff batch) as -> by (unfold as_i64 in Hcut; run_steps Hcut; by simplify_eq).
  pose proof Hx as (x & Hin & Hx2)%existsb_exists. rewrite <- list_elem_of_In in Hin. rewrite Forall_forall in Hseq.
  specialize (Hseq x Hin). boolprop.
  rewrite (ledger_snapshot_stable (led db) (led db')), Hd by (done || lia). cbn.
  rewrite bool_decide_eq_false_2 by tauto. unfold frozen_payout_signer_request.
  cbn [pb_chain pb_ledger_sequence_cutoff pb_ledger_root pb_policy_version pb_id pb_miner_total_zat pb_outputs
       pb_maximum_network_fee_zat pb_payout_total_zat in_state] in *. rewrite Hcut.
  destruct (le_ledger _ _ Hev) as (_ & new & Hnew & _). rewrite Hnew, existsb_app, Hx. cbn [orb negb].
  bind_in H policy Hp. apply ok_or_Ok in Hp. rewrite (policy_at_stable (led db) (led db') _ _ policy) by done.
  exact H.
Qed.

Lemma authorized_request db now id request : snd (authorize_payout_signing db now id) = Ok request ->
  Uuid_is_nil id = false /\
  exists batch, load_payout_batch db id = Ok batch /\ payout_signer_request db batch = Ok request.
Proof.
  unfold authorize_payout_signing. destruct (Uuid_is_nil id); [done|]. intros H. split; [done|].
  match type of H with snd (transaction db ?body) = _ =>
    destruct body as [[d r|r]|] eqn:Hbody end; cbn in H; simplify_eq.
  all: bind_in Hbody batch Hload; exists batch; split; [done|]; run_steps Hbody; by simplify_eq.
Qed.

(** C21. The signing request is reproducible: once a batch is authorised for signing, as long as it
    waits for its signature the store gives the same request again (same outputs, addresses, fee
    limit, ledger root and checkpoint), however the ledger, the policies and the destinations
    moved meanwhile, so a restarted worker never asks for a different transaction. *)
Theorem signing_request_stable db now id request ops row' :
  reachable db -> Forall op_wf ops ->
  snd (authorize_payout_signing db now id) = Ok request ->
  let db' := run_ops (fst (authorize_payout_signing db now id)) ops in
  batches (pay db') !! id = Some row' -> br_state row' = Signing ->
  snd (signing_payout_request db' id) = Ok request /\
  forall now', snd (authorize_payout_signing db' now' id) = Ok request.
Proof.
  intros Hr Hwf Hauth db' Hrow' Hst'.
  assert (Forall op_wf (OpAuthorizeSigning now id :: ops)) as Hwf' by (by constructor).
  change (run_ops db (OpAuthorizeSigning now id :: ops)) in (value of db').
  apply authorized_request in Hauth as (Hnil & batch & Hload & Hreq).
  pose proof Hload as (row & _ & Hrow & _)%load_payout_batch_Ok. pose proof (reachable_ok db Hr) as Hok.
  destruct (ops_advanced db _ id row Hr Hwf' Hrow) as (r & Hr2 & Ha). fold db' in Hr2. rewrite Hrow' in Hr2. injection Hr2 as <-.
  pose proof (ops_kept db _ Hr Hwf') as Hk. fold db' in Hk.
  pose proof (load_payout_batch_stable _ db db' id row row' batch (ok_inv _ Hok) Hk Hrow Hrow' Ha Hload) as Hload'.
  pose proof (payout_signer_request_stable db db' batch (br_state row') request (ok_sequenced _ Hok) (proj1 Hk) Hreq) as Hreq'.
  rewrite Hst' in *. unfold signing_payout_request, authorize_payout_signing. rewrite Hnil, Hload'.
  cbn [pb_state in_state]. rewrite Hreq'. by split.
Qed.
End Fence.

Lemma signing_request_stable_witness :
  exists request, snd (authorize_payout_signing (demo_state 6) 170 71) = Ok request /\
    snd (signing_payout_request (run_ops (fst (authorize_payout_signing (demo_state 6) 170 71)) [demo_regression]) 71) = Ok request /\
    frozen (led (run_ops (fst (authorize_payout_signing (demo_state 6) 170 71)) [demo_regression])) Wcash.
Proof.
  eexists. split; [vm_compute; reflexivity|]. split; [|eexists; vm_compute; split; reflexivity].
  refine (proj1 (signing_request_stable (demo_state 6) 170 71 _ [demo_regression] (demo_row 7) (demo_state_reachable 6) _ _ _ _)).
  - repeat constructor.
  - vm_compute. reflexivity.
  - vm_compute. reflexivity.
  - vm_compute. reflexivity.
Defined.
