(* ===== verification/WatchRotation.v ===== *)
(** The rotation of the payout observer visits every confirmed payout: rounds of
    [list_payout_watches] and [advance_confirmed_payout_watch_cursor]
    (crates/wcash-pool-store/src/postgres.rs) never fail on a stored row and leave none out. *)

From Stdlib Require Import ZArith Lia.
From stdpp Require Import prelude gmap sorting strings.
From S2P Require Import Prelude Wire Backend Hex LargestRemainder Pplns PayoutFees Ledger PayoutRequest StoreDb PayoutStore Configuration PayoutWatch WinnerStore Books BatchPlan StoreInv WinnerInv StoreOps StoreEvolve StoreDemo Solvency StoreProps.
Open Scope Z_scope.

(** ** Stored rows can be watched *)

(** What [mark_payout_signed] checked of the facts it recorded. *)
Definition facts_checked (f : SignedFacts) : Prop :=
  length (sf_transaction_id f) = 32%nat /\ all_zero (sf_transaction_id f) = false /\
  all_zero (sf_unsigned_digest f) = false /\ sf_signed_transaction f <> [] /\
  Z.of_nat (length (sf_signed_transaction f)) <= MAX_SIGNED_TRANSACTION_BYTES.

Definition row_watchable (row : PayoutBatchRow) : Prop :=
  (forall f, br_signed row = Some f -> facts_checked f) /\
  (forall c, br_confirmation row = Some c ->
     length (pc_block_hash c) = 32%nat /\ PayoutConfirmation_validate c = Ok tt) /\
  (br_state row = Confirmed -> is_Some (br_confirmation row)).

Definition watchable (db : Db) : Prop :=
  map_Forall (fun id row => id <> 0 /\ row_watchable row) (batches (pay db)).

Lemma watchable_frame db db' : batches (pay db') = batches (pay db) -> watchable db -> watchable db'.
Proof. unfold watchable. by intros ->. Qed.

Lemma watchable_put db db1 id row row' : watchable db -> batches (pay db) !! id = Some row ->
  (row_watchable row -> row_watchable row') -> watchable db1 -> watchable (put_batch db1 id row').
Proof.
  intros Hdb Hrow Hw H1. destruct (Hdb id row Hrow) as [Hid Hr].
  apply map_Forall_insert_2; [by split; [|apply Hw]|done].
Qed.

Lemma watchable_update (db1 : Db) id s s' db2 :
  s' <> Confirmed -> watchable db1 -> update_payout_state db1 id s s' = Ok db2 -> watchable db2.
Proof.
  unfold update_payout_state. intros Hs Hw H. run_steps H; simplify_eq. eapply watchable_put; [done|eassumption| |done].
  by intros (H1 & H2 & _).
Qed.

Lemma watchable_ledger db lid c kind ev ref es db1 :
  watchable db -> insert_ledger db lid c kind ev ref es = Ok db1 -> watchable db1.
Proof. intros Hw (Hp & _)%insert_ledger_tables. apply (watchable_frame db); [by rewrite Hp|done]. Qed.

Section Watchable.
Context {env : StoreEnv}.

Lemma mark_signed_watchable db id facts : length (sf_transaction_id facts) = 32%nat -> watchable db ->
  watchable (fst (mark_payout_signed db id facts)).
Proof.
  intros Hl Hw. unfold mark_payout_signed. destruct (_ || _) eqn:Hz; [done|]. boolprop.
  apply transition_payout_Ok; [done|]. intros row Hrow _ _. apply (watchable_put db db id row); try done.
  intros (_ & Hc & _). split_and!; [|exact Hc|done]. intros f [= <-]. by split_and!.
Qed.

Lemma confirm_watchable db lid id c : length (pc_block_hash c) = 32%nat -> watchable db ->
  watchable (fst (confirm_payout db lid id c)).
Proof.
  intros Hl Hw. unfold confirm_payout. destruct (PayoutConfirmation_validate c) as [[]|] eqn:Hv; [|done].
  apply (transaction_cases watchable); [done|]. intros db' r H'. run_steps H'; injection H' as <- <-.
  all: match goal with Hr : ok_or (batches _ !! _) _ = Ok ?row, Hi : insert_ledger _ _ _ _ _ _ _ = Ok ?d |- _ =>
    apply ok_or_Ok in Hr; apply (watchable_put db d id row); [done|done| |by eapply watchable_ledger] end.
  all: intros [Hs _]; split_and!; [exact Hs| |by eexists]; intros c' [= <-]; done.
Qed.

Lemma create_watchable db now fresh draws bid lid c key rid : bid <> 0 -> watchable db ->
  watchable (fst (create_payout_batch db now fresh draws bid lid c key rid)).
Proof.
  intros Hb Hw. apply (create_payout_batch_cases watchable); [done|done|]. intros policy cap plan es db1 sealed Hc.
  destruct Hc as (_ & _ & _ & _ & _ & _ & _ & _ & _ & _ & (Hpay & _)%insert_ledger_tables & _).
  unfold watchable. cbn. rewrite Hpay. apply map_Forall_insert_2; [|done]. split; [done|]. by split_and!.
Qed.

Lemma run_op_watchable db op : reachable db -> op_wf op -> watchable db -> watchable (run_op db op).
Proof.
  intros Hr Hop Hw. destruct (is_projection op) eqn:Hp.
  { destruct op; try done. cbn [run_op]. unfold project_replay_page. case_match; [done|].
    destruct (project_events_moves db fresh events (ok_inv _ (reachable_ok db Hr))) as (_ & Hpay & _).
    apply (watchable_frame db); [by rewrite Hpay|done]. }
  destruct op; try done; cbn [run_op op_wf] in *; clear Hp.
  all: lazymatch goal with
       | |- watchable (fst (create_payout_batch _ _ _ _ _ _ _ _ _)) => by apply create_watchable
       | |- watchable (fst (mark_payout_signed _ _ _)) => apply mark_signed_watchable; [apply Hop|done]
       | |- watchable (fst (confirm_payout _ _ _ _)) => by apply confirm_watchable
       | _ => idtac
       end.
  all: unfold bind_chain_policy, bind_zero_fee_launch_policies, configure_payout, record_opening_pool_equity,
         record_wallet_reconciliation, authorize_payout_signing,
         mark_payout_broadcast, transition_payout, authorize_payout_broadcast, hold_expired_payout,
         expire_held_payout, mark_confirmed_payout_reorged, cancel_payout_draft,
         cancel_rejected_payout_signing, advance_confirmed_payout_watch_cursor.
  all: repeat (case_match; try done).
  all: try (apply (transaction_cases watchable); [done|]; intros db' r H').
  all: try (run_steps H'; injection H' as <- <-; try done).
  all: cbn [fst transaction].
  all: repeat match goal with
         | H : ok_or (batches _ !! _) _ = Ok _ |- _ => apply ok_or_Ok in H
         | H : insert_policy _ _ _ = Ok _ |- _ => apply insert_policy_frame in H as (_ & _ & _ & H & _)
         | H : configure_payout_destination _ _ _ _ _ _ _ _ _ _ _ _ _ = Ok _ |- _ =>
             apply configure_payout_destination_frame in H as (_ & H & _)
         | H : update_payout_state _ _ _ _ = Ok ?d |- watchable ?d => refine (watchable_update _ _ _ _ _ _ _ H); [done|]
         | H : insert_ledger _ _ _ _ _ _ _ = Ok ?d |- watchable ?d => by eapply watchable_ledger
         | H : batches (pay ?d) !! ?id = Some ?row |- watchable (put_batch _ ?id _) =>
             apply (watchable_put d _ id row); [done|done|by intros (? & ? & _)|]
         | |- watchable (set_led ?d _) => apply (watchable_frame d); [done|]
         | |- watchable (set_pay ?d (set_expiry_finalized _ _)) => apply (watchable_frame d); [done|]
         end; try done.
  all: match goal with Hd : watchable ?d |- _ => apply (watchable_frame d); [cbn; congruence|done] end.
Qed.

Lemma reachable_watchable db : reachable db -> watchable db.
Proof.
  revert db. apply reachable_ind_op; [apply map_Forall_empty|]. intros db op Hr Hop Hw. by apply run_op_watchable.
Qed.

(** A stored broadcast or confirmed row is a watch. *)
Lemma watch_of_stored db chain id row : reachable db -> batches (pay db) !! id = Some row ->
  br_state row = Broadcast \/ br_state row = Confirmed ->
  exists w, watch_of_row chain (id, row) = Ok w /\ pw_batch_id w = id /\ pw_state w = br_state row.
Proof.
  intros Hr Hrow Hst. destruct (reachable_watchable db Hr id row Hrow) as [_ (Hs & Hc & Hsome)].
  pose proof (reachable_ok db Hr) as Hok. destruct (proj1 (ok_rows _ Hok) id row Hrow) as [_ Hconf].
  destruct (si_batches _ _ (ok_inv _ Hok) id row Hrow) as (_ & _ & Hsig). unfold watch_of_row, exact_hash.
  destruct Hst as [Hst|Hst]; rewrite Hst in *.
  - destruct Hsig as (f & Hf & _). destruct (Hs f Hf) as (Hl & Hz & _). rewrite Hf, Hconf. cbn [ok_or].
    rewrite Hl. cbn. rewrite Hz. by eexists.
  - destruct Hsig as (f & _ & Hf & _). destruct (Hs f Hf) as (Hl & Hz & _). destruct (Hsome eq_refl) as [c Hc'].
    destruct (Hc c Hc') as [Hcl Hv]. rewrite Hf, Hc'. cbn [ok_or]. rewrite Hl. cbn. rewrite Hz, Hcl. cbn. rewrite Hv. by eexists.
Qed.

Lemma watches_of_stored db chain rows : reachable db ->
  Forall (fun p => batches (pay db) !! fst p = Some (snd p) /\
                   (br_state (snd p) = Broadcast \/ br_state (snd p) = Confirmed)) rows ->
  exists ws, watches_of_rows chain rows = Ok ws /\
    Forall2 (fun p w => pw_batch_id w = fst p /\ pw_state w = br_state (snd p)) rows ws.
Proof.
  intros Hr. induction 1 as [|[id row] rows [Hrow Hst] _ (ws & Hws & Hf)].
  { exists []. by split. }
  destruct (watch_of_stored db chain id row Hr Hrow Hst) as (w & Hw & Hid & Hs).
  exists (w :: ws). cbn [watches_of_rows]. rewrite Hw, Hws. split; [done|]. by constructor.
Qed.
End Watchable.

(** ** The order of the rotation *)

Definition lt_at (c : option Uuid) (x y : Uuid) : Prop :=
  after_cursor c x < after_cursor c y \/ after_cursor c x = after_cursor c y /\ x < y.

Definition confirmed_ids (db : Db) (chain : Chain) (c : option Uuid) : list Uuid :=
  fst <$> confirmed_rows db chain c.

Lemma confirmed_rows_stored db chain c :
  Forall (fun p => batches (pay db) !! fst p = Some (snd p) /\ br_chain (snd p) = chain /\
                   br_state (snd p) = Confirmed) (confirmed_rows db chain c).
Proof.
  unfold confirmed_rows. rewrite sort_by_perm. apply Forall_forall. intros [id row] [Hs Hin]%list_elem_of_filter.
  apply elem_of_map_to_list in Hin. cbn in *. tauto.
Qed.

Lemma confirmed_ids_perm db chain c c' : confirmed_ids db chain c ≡ₚ confirmed_ids db chain c'.
Proof. unfold confirmed_ids, confirmed_rows. by rewrite !sort_by_perm. Qed.

Lemma confirmed_ids_NoDup db chain c : NoDup (confirmed_ids db chain c).
Proof.
  unfold confirmed_ids, confirmed_rows. rewrite sort_by_perm. unfold rows_in.
  eapply sublist_NoDup; [apply (NoDup_fst_map_to_list (batches (pay db)))|]. apply fmap_sublist, sublist_filter.
Qed.

Lemma confirmed_ids_sorted db chain c : StronglySorted (lt_at c) (confirmed_ids db chain c).
Proof.
  pose proof (confirmed_ids_NoDup db chain c) as Hn. unfold confirmed_ids in *.
  assert (StronglySorted (fun a b : Uuid * PayoutBatchRow => cmp_le (cmp_then (after_cursor c (fst a) ?= after_cursor c (fst b))
    (fst a ?= fst b)) = true) (confirmed_rows db chain c)) as Hs.
  { apply sort_by_sorted.
    - intros x y. apply (cmp_then_total (fun p => after_cursor c (fst p)) (fun a b => fst a ?= fst b)), cmp_le_Z_total.
    - intros x y z. apply (cmp_then_trans (fun p => after_cursor c (fst p)) (fun a b => fst a ?= fst b)).
      rewrite !cmp_le_Z. lia. }
  revert Hn. induction Hs as [|p rows _ IH Hp]; intros Hn; [constructor|]. rewrite fmap_cons in *.
  apply NoDup_cons in Hn as [Hnin Hn]. constructor; [by apply IH|]. apply Forall_fmap, Forall_forall.
  intros q Hq. rewrite Forall_forall in Hp. specialize (Hp q Hq). cbn in *. rewrite cmp_then_Z, cmp_le_Z in Hp.
  unfold lt_at. assert (fst p <> fst q) by (intros Heq; apply Hnin; rewrite Heq; by apply list_elem_of_fmap_2). lia.
Qed.

Lemma sorted_weaken {A} (R R' : A -> A -> Prop) (l : list A) :
  (forall x y, x ∈ l -> y ∈ l -> R x y -> R' x y) -> StronglySorted R l -> StronglySorted R' l.
Proof.
  intros HR Hs. induction Hs as [|x l _ IH Hx]; constructor.
  - apply IH. intros a b Ha Hb. apply HR; by right.
  - apply Forall_forall. intros y Hy. rewrite Forall_forall in Hx. apply HR; [by left|by right|by apply Hx].
Qed.

(** Checking through the [m]-th batch of a round makes the rest of the round come first. *)
Lemma rotation_step db chain c c' m : confirmed_ids db chain c !! m = Some c' ->
  confirmed_ids db chain (Some c') = drop (S m) (confirmed_ids db chain c) ++ take (S m) (confirmed_ids db chain c).
Proof.
  intros Hm. set (R := confirmed_ids db chain c) in *.
  apply (StronglySorted_unique_strong (lt_at (Some c'))).
  - intros x y _ _. unfold lt_at. lia.
  - apply confirmed_ids_sorted.
  - pose proof (confirmed_ids_sorted db chain c) as Hs. fold R in Hs.
    assert (forall x, x ∈ take (S m) R -> x = c' \/ lt_at c x c') as Ht.
    { intros x Hx. erewrite take_S_r in Hx by done. apply elem_of_app in Hx as [Hx|Hx]; [|left; by apply list_elem_of_singleton].
      right. eapply (StronglySorted_take_drop _ R m); [done|done|]. apply (list_elem_of_lookup_2 _ 0). by rewrite lookup_drop, Nat.add_0_r. }
    assert (forall x, x ∈ drop (S m) R -> lt_at c c' x) as Hd.
    { intros x Hx. eapply (StronglySorted_take_drop _ R (S m)); [done| |done].
      erewrite take_S_r by done. apply elem_of_app. right. by apply list_elem_of_singleton. }
    assert (StronglySorted (lt_at c) (take (S m) R) /\ StronglySorted (lt_at c) (drop (S m) R)) as [Hs1 Hs2].
    { rewrite <- (take_drop (S m) R) in Hs. apply StronglySorted_app in Hs. tauto. }
    apply StronglySorted_app_2.
    + intros x y Hx%Hd Hy%Ht. revert Hx Hy. unfold lt_at, after_cursor. destruct c; repeat case_match; lia.
    + apply (sorted_weaken (lt_at c)); [|done]. intros x y Hx%Hd Hy%Hd. revert Hx Hy.
      unfold lt_at, after_cursor. destruct c; repeat case_match; lia.
    + apply (sorted_weaken (lt_at c)); [|done]. intros x y Hx%Ht Hy%Ht. revert Hx Hy.
      unfold lt_at, after_cursor. destruct c; repeat case_match; lia.
  - rewrite (confirmed_ids_perm db chain (Some c') c). fold R. rewrite <- (take_drop (S m) R) at 1. apply Permutation_app_comm.
Qed.

(** ** Rounds *)

Section Rounds.
Context {env : StoreEnv}.

(** One round of the observer: it reads a page, checks the payouts on it and advances the cursor.
    The confirmed payouts checked are returned. *)
Definition watch_round (db : Db) (chain : Chain) (maximum : Z) : result (Db * list Uuid) StoreError :=
  let? page := list_payout_watches db chain maximum in
  let checked := pw_batch_id <$> filter (fun w => pw_state w = Confirmed) (wp_watches page) in
  match wp_confirmed_cursor page with
  | None => Ok (db, checked)
  | Some cursor =>
      match advance_confirmed_payout_watch_cursor db chain cursor with
      | (db', Ok _) => Ok (db', checked)
      | (_, Err e) => Err e
      end
  end.

Fixpoint watch_rounds (db : Db) (chain : Chain) (maximum : Z) (n : nat) : result (Db * list Uuid) StoreError :=
  match n with
  | O => Ok (db, [])
  | S n => let? p := watch_round db chain maximum in
           let? q := watch_rounds (fst p) chain maximum n in
           Ok (fst q, snd p ++ snd q)
  end.

Lemma broadcast_rows_stored db chain :
  Forall (fun p => batches (pay db) !! fst p = Some (snd p) /\ br_state (snd p) = Broadcast) (broadcast_rows db chain).
Proof.
  unfold broadcast_rows. rewrite sort_by_perm. apply Forall_forall. intros [id row] [Hs Hin]%list_elem_of_filter.
  apply elem_of_map_to_list in Hin. cbn in *. tauto.
Qed.

(** What a page lists: the broadcast payouts, then the confirmed ones next in the rotation. *)
Lemma page_watches db chain c k : reachable db ->
  let broadcast := take k (broadcast_rows db chain) in
  exists ws1 ws2, watches_of_rows chain (broadcast ++ take k (confirmed_rows db chain c)) = Ok (ws1 ++ ws2) /\
    length ws1 = length broadcast /\ Forall (fun w => pw_state w <> Confirmed) ws1 /\
    Forall (fun w => pw_state w = Confirmed) ws2 /\ pw_batch_id <$> ws2 = take k (confirmed_ids db chain c).
Proof.
  intros Hr broadcast.
  destruct (watches_of_stored db chain (broadcast ++ take k (confirmed_rows db chain c)) Hr) as (ws & Hws & Hf).
  { apply Forall_app. split; apply Forall_take.
    - eapply Forall_impl; [apply broadcast_rows_stored|]. intros p [? ?]. by split; [|left].
    - eapply Forall_impl; [apply confirmed_rows_stored|]. intros p (? & _ & ?). by split; [|right]. }
  apply Forall2_app_inv_l in Hf as (ws1 & ws2 & Hf1 & Hf2 & ->). exists ws1, ws2.
  split_and!; [done|by rewrite (Forall2_length _ _ _ Hf1)| | |].
  - pose proof (Forall_take _ k _ (broadcast_rows_stored db chain)) as Hb. fold broadcast in Hb. clear Hws.
    induction Hf1 as [|p w rows ws1 [_ Hs] _ IH]; [constructor|]. apply Forall_cons in Hb as [[_ Hp] Hb].
    constructor; [congruence|by apply IH].
  - pose proof (Forall_take _ k _ (confirmed_rows_stored db chain c)) as Hb. clear Hws.
    induction Hf2 as [|p w rows ws2 [_ Hs] _ IH]; [constructor|]. apply Forall_cons in Hb as [(_ & _ & Hp) Hb].
    constructor; [congruence|by apply IH].
  - unfold confirmed_ids. rewrite <- fmap_take. clear Hws.
    induction Hf2 as [|p w rows ws2 [Hid _] _ IH]; [done|]. rewrite !fmap_cons. f_equal; [done|exact IH].
Qed.

(** A round checks the confirmed payouts next in the rotation and moves the cursor behind them. *)
Lemma watch_round_Ok db chain maximum c g k : reachable db ->
  watch_cursors (pay db) !! chain = Some (c, g) -> c <> Some 0 -> 0 <= g < I64_MAX -> 1 <= maximum <= 10000 ->
  let page := take (Z.to_nat maximum) (confirmed_ids db chain c) in
  last page = Some k ->
  exists db', watch_round db chain maximum = Ok (db', page) /\ reachable db' /\
    batches (pay db') = batches (pay db) /\ watch_cursors (pay db') !! chain = Some (Some k, g + 1) /\ k <> 0.
Proof.
  intros Hr Hcur Hc Hg Hmax page Hk. unfold watch_round, list_payout_watches.
  rewrite (proj2 (Z.leb_le 1 maximum)), (proj2 (Z.leb_le maximum 10000)) by lia. cbn [andb negb]. rewrite Hcur. cbn [ok_or].
  rewrite bool_decide_eq_false_2 by done. unfold u64_from. rewrite (proj2 (Z.ltb_ge g 0)) by lia.
  destruct (page_watches db chain c (Z.to_nat maximum) Hr) as (ws1 & ws2 & Hws & Hlen & Hw1 & Hw2 & Hids).
  cbv zeta in *. rewrite Hws. fold page in Hids.
  assert (take (Z.to_nat maximum) (confirmed_rows db chain c) <> []) as Hne.
  { intros Hnil. unfold page, confirmed_ids in Hk. rewrite <- fmap_take, Hnil in Hk. done. }
  rewrite (bool_decide_eq_false_2 _ Hne). cbn [negb andb]. rewrite <- Hlen, drop_app_length.
  rewrite existsb_false by (eapply Forall_impl; [exact Hw2|]; intros w Hw; by rewrite bool_decide_eq_true_2).
  assert (pw_batch_id <$> filter (fun w => pw_state w = Confirmed) (ws1 ++ ws2) = page) as Hpage.
  { rewrite filter_app, (filter_none _ ws1), (filter_all _ ws2) by (done || (by intros w Hw; rewrite Forall_forall in Hw1; apply Hw1)).
    exact Hids. }
  assert (exists w, last ws2 = Some w /\ pw_batch_id w = k) as (w & Hw & Hwk).
  { rewrite <- Hids, fmap_last in Hk. by apply fmap_Some in Hk as (w & Hw & ->); exists w. }
  rewrite last_app, Hw, Hwk. cbn [wp_watches wp_confirmed_cursor]. rewrite Hpage.
  assert (k ∈ page) as Hin by (apply last_Some in Hk as [l' ->]; apply elem_of_app; right; by left).
  apply elem_of_take in Hin as (i & Hi & _). apply list_elem_of_lookup_2, list_elem_of_fmap in Hi as ([id row] & -> & Hin).
  pose proof (confirmed_rows_stored db chain c) as Hst. rewrite Forall_forall in Hst.
  destruct (Hst _ Hin) as (Hrow & Hch & Hconf). cbn [fst snd] in *.
  destruct (reachable_watchable db Hr id row Hrow) as [Hid _].
  set (cursor := mkConfirmedPayoutWatchCursor g c id).
  pose proof (reachable_op db (OpAdvanceWatch chain cursor) Hr I) as Hr'. cbn [run_op] in Hr'.
  unfold advance_confirmed_payout_watch_cursor in *. cbn [cursor wc_checked_through_batch_id wc_previous_batch_id wc_generation] in *.
  unfold Uuid_is_nil in *. rewrite (proj2 (Z.eqb_neq id 0)) in * by done. rewrite (bool_decide_eq_false_2 (c = Some 0)) in * by done.
  rewrite (proj2 (Z.ltb_ge I64_MAX g)) in * by lia. cbn [orb] in *. rewrite Hrow, Hcur in *.
  rewrite (bool_decide_eq_true_2 (br_chain row = chain)), (bool_decide_eq_true_2 (br_state row = Confirmed)) in * by done.
  cbn [orb negb] in *. rewrite (bool_decide_eq_true_2 ((c, g) = (c, g))) in * by done.
  rewrite (proj2 (Z.ltb_ge I64_MAX (g + 1))) in * by lia. eexists. split; [reflexivity|]. cbn [fst] in Hr'.
  split_and!; [done|done| |done]. cbn. apply lookup_insert_eq.
Qed.

Lemma confirmed_ids_batches db db' chain c : batches (pay db') = batches (pay db) ->
  confirmed_ids db' chain c = confirmed_ids db chain c.
Proof. intros Hb. unfold confirmed_ids, confirmed_rows, rows_in. by rewrite Hb. Qed.

(** A payout at position [p] of the rotation is checked within [p / maximum + 1] rounds. *)
Lemma watch_rounds_reach n : forall db chain maximum c g, reachable db ->
  watch_cursors (pay db) !! chain = Some (c, g) -> c <> Some 0 -> 0 <= g -> g + Z.of_nat n <= I64_MAX ->
  1 <= maximum <= 10000 -> confirmed_ids db chain c <> [] ->
  exists db' checked, watch_rounds db chain maximum n = Ok (db', checked) /\
    forall p x, confirmed_ids db chain c !! p = Some x -> (p < n * Z.to_nat maximum)%nat -> x ∈ checked.
Proof.
  induction n as [|n IH]; intros db chain maximum c g Hr Hcur Hc Hg Hgn Hmax Hne.
  { exists db, []. split; [done|]. intros p x _ Hp. lia. }
  set (m := Z.to_nat maximum). assert (1 <= m)%nat as Hm by lia. set (R := confirmed_ids db chain c) in *.
  destruct (last (take m R)) as [k|] eqn:Hk.
  2:{ apply last_None in Hk. destruct R; [done|]. destruct m; [lia|]. done. }
  destruct (watch_round_Ok db chain maximum c g k Hr Hcur Hc ltac:(lia) Hmax Hk) as (db1 & Hround & Hr1 & Hb1 & Hcur1 & Hk0).
  pose proof (confirmed_ids_batches db db1 chain (Some k) Hb1) as Hids.
  destruct (IH db1 chain maximum (Some k) (g + 1) Hr1 Hcur1 ltac:(congruence) ltac:(lia) ltac:(lia) Hmax) as (db2 & checked & Hrest & Hreach).
  { rewrite Hids. intros Hnil. pose proof (confirmed_ids_perm db chain (Some k) c) as Hp. rewrite Hnil in Hp.
    by apply Permutation_nil_l in Hp. }
  exists db2, (take m R ++ checked). cbn [watch_rounds]. rewrite Hround. cbn [fst snd]. rewrite Hrest. split; [done|].
  intros p x Hx Hp. apply elem_of_app. destruct (decide (p < m)%nat) as [Hlt|Hge].
  { left. apply list_elem_of_lookup_2 with p. by rewrite lookup_take_lt. }
  right. apply (Hreach (p - m)%nat); [|unfold m in *; lia]. rewrite Hids.
  assert (R !! (m - 1)%nat = Some k) as Hkth.
  { rewrite last_lookup, length_take, Nat.min_l in Hk by (apply lookup_lt_Some in Hx; lia).
    rewrite lookup_take_lt in Hk by lia. by rewrite Nat.sub_1_r. }
  rewrite (rotation_step db chain c k (m - 1) Hkth). fold R. replace (S (m - 1)) with m by lia.
  rewrite lookup_app_l, lookup_drop by (rewrite length_drop; apply lookup_lt_Some in Hx; lia).
  by replace (m + (p - m))%nat with p by lia.
Qed.

(** C25. The rotation leaves no payout out: with [maximum] payouts a page, after enough rounds to
    cover the confirmed payouts of a chain every one of them has been checked, and no round fails. *)
Theorem every_confirmed_payout_watched db chain maximum c g n : reachable db ->
  watch_cursors (pay db) !! chain = Some (c, g) -> c <> Some 0 -> 0 <= g -> g + Z.of_nat n <= I64_MAX ->
  1 <= maximum <= 10000 -> Z.of_nat (length (confirmed_ids db chain None)) <= Z.of_nat n * maximum ->
  (0 < length (confirmed_ids db chain None))%nat ->
  exists db' checked, watch_rounds db chain maximum n = Ok (db', checked) /\
    forall id row, batches (pay db) !! id = Some row -> br_chain row = chain -> br_state row = Confirmed -> id ∈ checked.
Proof.
  intros Hr Hcur Hc Hg Hgn Hmax Hcover Hpos. pose proof (confirmed_ids_perm db chain c None) as Hperm.
  pose proof (Permutation_length Hperm) as Hlen.
  destruct (watch_rounds_reach n db chain maximum c g Hr Hcur Hc Hg Hgn Hmax) as (db' & checked & Hrun & Hreach).
  { intros Hnil. rewrite Hnil in Hlen. cbn in Hlen. lia. }
  exists db', checked. split; [done|]. intros id row Hrow Hch Hst.
  assert (id ∈ confirmed_ids db chain c) as Hin.
  { unfold confirmed_ids, confirmed_rows. rewrite sort_by_perm. apply list_elem_of_fmap. exists (id, row). split; [done|].
    apply list_elem_of_filter. split; [done|]. by apply elem_of_map_to_list. }
  apply list_elem_of_lookup in Hin as [p Hp]. apply (Hreach p id Hp). apply lookup_lt_Some in Hp. nia.
Qed.
End Rounds.

Lemma every_confirmed_payout_watched_witness :
  exists db' checked, watch_rounds (demo_state 11) Wcash 1 2 = Ok (db', checked) /\ 71 ∈ checked.
Proof.
  assert (Z.of_nat (length (confirmed_ids (demo_state 11) Wcash None)) = 1) as Hn by (vm_compute; reflexivity).
  destruct (every_confirmed_payout_watched (demo_state 11) Wcash 1 None 0 2 (demo_state_reachable 11)
    ltac:(vm_compute; reflexivity) ltac:(discriminate) ltac:(lia) ltac:(vm_compute; discriminate) ltac:(lia)
    ltac:(lia) ltac:(lia)) as (db' & checked & Hrun & Hall).
  exists db', checked. split; [exact Hrun|]. apply (Hall 71 (demo_row 11)); vm_compute; reflexivity.
Defined.
