(* ===== verification/Proc.v ===== *)
(** Procedures that wait for other components: the asynchronous methods of the payout worker and
    the signers as finite trees of calls, with two readings.  [run] answers every call in turn
    with an executable handler.  The transition system lets any number of procedures run at once:
    between two calls of one of them the others and the environment may act, and a procedure may
    stop at any call for good, which is what a crash or a restart of the process does.  [wp] is
    the rely-guarantee logic that relates them. *)

From stdpp Require Import prelude.
From S2P Require Import Prelude.

(** ** Procedures *)

(** [E R] are the calls answered by an [R]. *)
Inductive proc (E : Type -> Type) (A : Type) : Type :=
| Ret (a : A)
| Vis (R : Type) (e : E R) (k : R -> proc E A).
Arguments Ret {E A} a.
Arguments Vis {E A R} e k.

Fixpoint bind {E A B} (p : proc E A) (f : A -> proc E B) : proc E B :=
  match p with
  | Ret a => f a
  | Vis e k => Vis e (fun r => bind (k r) f)
  end.

Definition call {E R} (e : E R) : proc E R := Vis e Ret.

(** The [?] operator of a fallible step. *)
Definition bind_ok {E A B X} (p : proc E (result A X)) (f : A -> proc E (result B X))
    : proc E (result B X) :=
  bind p (fun r => match r with Ok a => f a | Err x => Ret (Err x) end).

(** A call whose error is wrapped on the way out. *)
Definition call_err {E A X Y} (e : E (result A X)) (wrap : X -> Y) : proc E (result A Y) :=
  Vis e (fun r => Ret (map_err wrap r)).

Definition void {E A} (p : proc E A) : proc E unit := bind p (fun _ => Ret tt).

Notation "'let!' x ':=' p 'in' k" := (bind_ok p (fun x => k))
  (at level 10, x name, p at level 100, k at level 200,
   format "'[v' 'let!'  x  ':='  p  'in' '//' k ']'") : pool_scope.
Notation "'do!' p 'in' k" := (bind_ok p (fun _ => k))
  (at level 10, p at level 100, k at level 200,
   format "'[v' 'do!'  p  'in' '//' k ']'") : pool_scope.
Notation "'let+' x ':=' p 'in' k" := (bind p (fun x => k))
  (at level 10, x name, p at level 100, k at level 200,
   format "'[v' 'let+'  x  ':='  p  'in' '//' k ']'") : pool_scope.

(** ** Running alone *)

Section Run.
Context {E : Type -> Type} {S : Type} (handler : forall R, E R -> S -> S * R).

Fixpoint run {A} (p : proc E A) (s : S) : S * A :=
  match p with
  | Ret a => (s, a)
  | Vis e k => let '(s', r) := handler _ e s in run (k r) s'
  end.

(** The state a crash leaves after at most [n] calls. *)
Fixpoint crash {A} (n : nat) (p : proc E A) (s : S) : S :=
  match n, p with
  | Datatypes.S n', Vis e k => let '(s', r) := handler _ e s in crash n' (k r) s'
  | _, _ => s
  end.

(** The same, with the procedure that is left. *)
Fixpoint advance {A} (n : nat) (p : proc E A) (s : S) : S * proc E A :=
  match n, p with
  | Datatypes.S n', Vis e k => let '(s', r) := handler _ e s in advance n' (k r) s'
  | _, _ => (s, p)
  end.

Lemma advance_crash {A} n (p : proc E A) s : fst (advance n p s) = crash n p s.
Proof.
  revert n s. induction p as [a|R e k IH]; intros [|n] s; cbn; try done. destruct (handler R e s) as [s' r]. apply IH.
Qed.

Lemma run_bind {A B} (p : proc E A) (f : A -> proc E B) s :
  run (bind p f) s = let '(s', a) := run p s in run (f a) s'.
Proof.
  revert s. induction p as [a|R e k IH]; intros s; cbn; [done|].
  destruct (handler R e s) as [s' r]. apply IH.
Qed.
End Run.

(** At most [n] calls on every path. *)
Fixpoint calls_within {E A} (n : nat) (p : proc E A) {struct p} : Prop :=
  match p, n with
  | Ret _, _ => True
  | Vis _ _, O => False
  | Vis e k, S n' => forall r, calls_within n' (k r)
  end.

Lemma calls_within_mono {E A} (p : proc E A) n m : (n <= m)%nat -> calls_within n p -> calls_within m p.
Proof.
  revert n m. induction p as [a|R e k IH]; intros n m Hle H; [done|].
  destruct n as [|n]; [done|]. destruct m as [|m]; [lia|]. intros r. eapply IH; [|apply H]. lia.
Qed.

Lemma calls_within_bind {E A B} (p : proc E A) (f : A -> proc E B) n m :
  calls_within n p -> (forall a, calls_within m (f a)) -> calls_within (n + m) (bind p f).
Proof.
  intros Hp Hf. revert n Hp. induction p as [a|R e k IH]; intros n Hp; cbn.
  - eapply calls_within_mono; [|apply Hf]. lia.
  - destruct n as [|n]; [done|]. cbn. intros r. apply IH. apply Hp.
Qed.

Lemma calls_within_ok {E A B X} (p : proc E (result A X)) (f : A -> proc E (result B X)) n m :
  calls_within n p -> (forall a, calls_within m (f a)) -> calls_within (n + m) (bind_ok p f).
Proof. intros Hp Hf. apply calls_within_bind; [done|]. intros [a|x]; [apply Hf|done]. Qed.

(** [P] of every result. *)
Fixpoint returns {E A} (P : A -> Prop) (p : proc E A) : Prop :=
  match p with
  | Ret a => P a
  | Vis e k => forall r, returns P (k r)
  end.

Lemma returns_bind {E A B} (P : A -> Prop) (Q : B -> Prop) (p : proc E A) (f : A -> proc E B) :
  returns P p -> (forall a, P a -> returns Q (f a)) -> returns Q (bind p f).
Proof. intros Hp Hf. induction p as [a|R e k IH]; cbn; [by apply Hf|]. intros r. by apply IH. Qed.

Lemma returns_any {E A} (p : proc E A) : returns (fun _ => True) p.
Proof. induction p; cbn; auto. Qed.

Lemma returns_bind_ok {E A B X} (Q : result B X -> Prop) (p : proc E (result A X)) (f : A -> proc E (result B X)) :
  (forall x, Q (Err x)) -> (forall a, returns Q (f a)) -> returns Q (bind_ok p f).
Proof. intros Hx Hf. eapply returns_bind; [apply returns_any|]. intros [a|x] _; [apply Hf|apply Hx]. Qed.

(** ** Running among others *)

Section Logic.
Context {E : Type -> Type} {S : Type}.
(** What a call may answer and leave, what a procedure must establish before it makes a call,
    and what the others may do between two calls. *)
Variable handles : forall R, E R -> S -> R -> S -> Prop.
Variable permitted : forall R, E R -> S -> Prop.
Variable rely : S -> S -> Prop.
Arguments handles {R}.
Arguments permitted {R}.

Fixpoint wp {A} (p : proc E A) (Q : A -> S -> Prop) (s : S) : Prop :=
  forall s0, rely s s0 ->
  match p with
  | Ret a => Q a s0
  | Vis e k => permitted e s0 /\ forall r s1, handles e s0 r s1 -> wp (k r) Q s1
  end.

Context `{!PreOrder rely}.

Lemma wp_rely {A} (p : proc E A) Q s s' : rely s s' -> wp p Q s -> wp p Q s'.
Proof. intros Hr Hp. destruct p; intros s0 H0; apply Hp; by etrans. Qed.

Lemma wp_ret {A} (a : A) (Q : A -> S -> Prop) s : (forall s0, rely s s0 -> Q a s0) -> wp (Ret a) Q s.
Proof. intros H s0 H0. by apply H. Qed.

Lemma wp_mono {A} (p : proc E A) (Q Q' : A -> S -> Prop) s :
  (forall a s', Q a s' -> Q' a s') -> wp p Q s -> wp p Q' s.
Proof.
  intros HQ. revert s. induction p as [a|R e k IH]; intros s Hp s0 H0.
  - apply HQ. by apply Hp.
  - destruct (Hp s0 H0) as [Hpre Hk]. split; [done|]. intros r s1 Hh. apply IH. by apply Hk.
Qed.

Lemma wp_bind {A B} (p : proc E A) (f : A -> proc E B) Q s :
  wp p (fun a s' => wp (f a) Q s') s -> wp (bind p f) Q s.
Proof.
  revert s. induction p as [a|R e k IH]; intros s Hp; cbn.
  - eapply wp_rely; [|by apply (Hp s)]. done.
  - intros s0 H0. destruct (Hp s0 H0) as [Hpre Hk]. split; [done|]. intros r s1 Hh. apply IH. by apply Hk.
Qed.

Lemma wp_vis {A R} (e : E R) (k : R -> proc E A) Q s :
  (forall s0, rely s s0 -> permitted e s0 /\ forall r s1, handles e s0 r s1 -> wp (k r) Q s1) ->
  wp (Vis e k) Q s.
Proof. done. Qed.

(** ** The system *)

Variable program : proc E unit -> Prop.
Variable environment : S -> S -> Prop.

Inductive sys_step : S * list (proc E unit) -> S * list (proc E unit) -> Prop :=
| step_environment s s' ps : environment s s' -> sys_step (s, ps) (s', ps)
| step_start s ps p : program p -> sys_step (s, ps) (s, p :: ps)
| step_stop s ps p ps' : sys_step (s, ps ++ p :: ps') (s, ps ++ ps')
| step_call s s' ps R (e : E R) k r ps' :
    handles e s r s' -> sys_step (s, ps ++ Vis e k :: ps') (s', ps ++ k r :: ps').

(** A run among nobody is one of the system's. *)
Lemma advance_sys (handler : forall R, E R -> S -> S * R) n p s :
  (forall R (e : E R) s, handles e s (snd (handler R e s)) (fst (handler R e s))) ->
  rtc sys_step (s, [p]) (fst (advance handler n p s), [snd (advance handler n p s)]).
Proof.
  intros Hh. revert n s. induction p as [a|R e k IH]; intros [|n] s; cbn; try done.
  destruct (handler R e s) as [s' r] eqn:He. eapply rtc_l; [|apply IH].
  apply (step_call s s' [] R e k r []). specialize (Hh R e s). by rewrite He in Hh.
Qed.

Variable Inv : S -> Prop.
Hypothesis environment_rely : forall s s', Inv s -> environment s s' -> rely s s' /\ Inv s'.
Hypothesis call_rely : forall R (e : E R) s r s',
  Inv s -> permitted e s -> handles e s r s' -> rely s s' /\ Inv s'.
Hypothesis programs_safe : forall p s, program p -> Inv s -> wp p (fun _ _ => True) s.

Definition sys_ok (c : S * list (proc E unit)) : Prop :=
  Inv (fst c) /\ Forall (fun p => wp p (fun _ _ => True) (fst c)) (snd c).

Lemma sys_ok_step c c' : sys_ok c -> sys_step c c' -> sys_ok c'.
Proof.
  intros [HI Hps] Hstep. destruct Hstep as [s s' ps He|s ps p Hp|s ps p ps'|s s' ps R e k r ps' Hh]; cbn in *.
  - destruct (environment_rely s s' HI He) as [Hr HI']. split; [done|]. eapply Forall_impl; [done|].
    intros p. by apply wp_rely.
  - split; [done|]. constructor; [|done]. by apply programs_safe.
  - split; [done|]. apply Forall_app in Hps as [H1 H2]. apply Forall_cons in H2 as [_ H2]. by apply Forall_app.
  - apply Forall_app in Hps as [H1 H2]. apply Forall_cons in H2 as [He H2].
    destruct (He s ltac:(done)) as [Hpre Hk]. destruct (call_rely R e s r s' HI Hpre Hh) as [Hr HI'].
    split; [done|]. cbn. apply Forall_app. split; [|constructor].
    + eapply Forall_impl; [done|]. intros p. by apply wp_rely.
    + by apply Hk.
    + eapply Forall_impl; [done|]. intros p. by apply wp_rely.
Qed.

(** The invariant holds in every state the system can be in, and no procedure is about to make a
    call that is not permitted. *)
Lemma sys_invariant s c : Inv s -> rtc sys_step (s, []) c -> sys_ok c.
Proof.
  intros HI Hsteps. assert (sys_ok (s, [])) as H0 by (split; [done|constructor]).
  revert H0. induction Hsteps as [|c1 c2 c3 Hstep _ IH]; intros H0; [done|]. apply IH. by eapply sys_ok_step.
Qed.
End Logic.

(** ** Running one at a time *)

(** Procedures behind an exclusive lock: each runs alone, to its end or to a crash. *)
Section Sequential.
Context {E : Type -> Type} {S : Type}.
Variable handles : forall R, E R -> S -> R -> S -> Prop.
Variable permitted : forall R, E R -> S -> Prop.
Arguments handles {R}.
Arguments permitted {R}.

(** The answer is [None] after a crash. *)
Inductive ran {A} : proc E A -> S -> option A -> S -> Prop :=
| ran_crash p s : ran p s None s
| ran_return a s : ran (Ret a) s (Some a) s
| ran_call R (e : E R) k s r s1 o s2 : handles e s r s1 -> ran (k r) s1 o s2 -> ran (Vis e k) s o s2.

Variable Inv : S -> Prop.
Hypothesis call_inv : forall R (e : E R) s r s', Inv s -> permitted e s -> handles e s r s' -> Inv s'.

Lemma ran_wp {A} (p : proc E A) Q s o s' : ran p s o s' -> Inv s -> wp (@handles) (@permitted) eq p Q s ->
  Inv s' /\ forall a, o = Some a -> Q a s'.
Proof.
  induction 1 as [p s|a s|R e k s r s1 o s2 Hh Hran IH]; intros HI Hwp.
  - by split.
  - split; [done|]. intros b [= <-]. by apply Hwp.
  - destruct (Hwp s eq_refl) as [Hp Hk]. apply IH; [by eapply call_inv|by apply Hk].
Qed.

Lemma ran_run (handler : forall R, E R -> S -> S * R) {A} (p : proc E A) s :
  (forall R (e : E R) s, handles e s (snd (handler R e s)) (fst (handler R e s))) ->
  ran p s (Some (snd (run handler p s))) (fst (run handler p s)).
Proof.
  intros Hh. revert s. induction p as [a|R e k IH]; intros s; cbn; [constructor|].
  destruct (handler R e s) as [s1 r] eqn:He. eapply ran_call; [|apply IH]. specialize (Hh R e s). by rewrite He in Hh.
Qed.

Lemma ran_crashed (handler : forall R, E R -> S -> S * R) n {A} (p : proc E A) s :
  (forall R (e : E R) s, handles e s (snd (handler R e s)) (fst (handler R e s))) ->
  ran p s None (crash handler n p s).
Proof.
  intros Hh. revert n s. induction p as [a|R e k IH]; intros [|n] s; cbn; try constructor.
  destruct (handler R e s) as [s1 r] eqn:He. eapply ran_call; [|apply IH]. specialize (Hh R e s). by rewrite He in Hh.
Qed.
End Sequential.

(** ** Running alone among others *)

(** One procedure and an environment that acts between its calls; [None] when it stops at a call for
    good. *)
Section Interleaved.
Context {E : Type -> Type} {S : Type}.
Variable handles : forall R, E R -> S -> R -> S -> Prop.
Variable permitted : forall R, E R -> S -> Prop.
Variable environment : S -> S -> Prop.
Arguments handles {R}.
Arguments permitted {R}.

Inductive interleaved {A} : proc E A -> S -> option A -> S -> Prop :=
| interleaved_stop p s : interleaved p s None s
| interleaved_return a s : interleaved (Ret a) s (Some a) s
| interleaved_others p s s1 o s2 : environment s s1 -> interleaved p s1 o s2 -> interleaved p s o s2
| interleaved_call R (e : E R) k s r s1 o s2 :
    handles e s r s1 -> interleaved (k r) s1 o s2 -> interleaved (Vis e k) s o s2.

Variable Inv : S -> Prop.
Hypothesis others_inv : forall s s', Inv s -> environment s s' -> Inv s'.
Hypothesis own_inv : forall R (e : E R) s r s', Inv s -> permitted e s -> handles e s r s' -> Inv s'.

Lemma interleaved_wp {A} (p : proc E A) Q s o s' :
  interleaved p s o s' -> Inv s -> wp (@handles) (@permitted) (rtc environment) p Q s ->
  Inv s' /\ forall a, o = Some a -> Q a s'.
Proof.
  induction 1 as [p s|a s|p s s1 o s2 He Hran IH|R e k s r s1 o s2 Hh Hran IH]; intros HI Hwp.
  - by split.
  - split; [done|]. intros b [= <-]. by apply Hwp.
  - apply IH; [by eapply others_inv|]. eapply wp_rely; [typeclasses eauto|by apply rtc_once|done].
  - destruct (Hwp s ltac:(done)) as [Hp Hk]. apply IH; [by eapply own_inv|by apply Hk].
Qed.

Lemma interleaved_later {A} (p : proc E A) s o s1 s2 : interleaved p s o s1 -> rtc environment s1 s2 -> interleaved p s o s2.
Proof.
  intros Hi He. induction Hi as [p s|a s|p s s1 o s3 Hs _ IH|R e k s r s1 o s3 Hh _ IH].
  - induction He; [constructor|by eapply interleaved_others].
  - induction He; [constructor|by eapply interleaved_others].
  - eapply interleaved_others; [done|by apply IH].
  - eapply interleaved_call; [done|by apply IH].
Qed.

(** A handler that answers some calls, and a run in which it answers all of them. *)
Fixpoint try_run (handler : forall R, E R -> S -> option (S * R)) {A} (p : proc E A) (s : S) : option (S * A) :=
  match p with
  | Ret a => Some (s, a)
  | Vis e k => match handler _ e s with Some (s', r) => try_run handler (k r) s' | None => None end
  end.

Lemma interleaved_try handler {A} (p : proc E A) s s' a :
  (forall R (e : E R) s r s', handler R e s = Some (s', r) -> handles e s r s') ->
  try_run handler p s = Some (s', a) -> interleaved p s (Some a) s'.
Proof.
  intros Hh. revert s. induction p as [a0|R e k IH]; intros s; cbn; [intros [= <- <-]; constructor|].
  destruct (handler R e s) as [[s1 r]|] eqn:He; [|done]. intros Hr. eapply interleaved_call; [by apply Hh|by apply IH].
Qed.
End Interleaved.
