(* ===== verification/WecSigner.v ===== *)
(** The Wcash payout signer (crates/wcash-wec-payout-signer/src): the pinned policy, the boundary
    to the native wallet, the journal with one record per batch, and the resumable pipeline from
    a store-authored request to exact signed bytes.  Calls to the wallet, the journal and the
    interruption hook are the calls of the procedures. *)

From Stdlib Require Import ZArith Lia.
From stdpp Require Import prelude gmap sorting strings.
From S2P Require Import Prelude Wire Backend Hex LargestRemainder Pplns PayoutFees Ledger PayoutRequest Proc.
Open Scope Z_scope.

(** ** Errors and stages *)

Inductive WecPipelineStage : Type :=
| StageReserved | StageSigned | StageBroadcastUnresolved | StageRejected | StageCompleted.

Inductive WecPayoutError : Type :=
| WecInvalidRequest | WecWrongAsset | WecWrongNetwork | WecWrongAccount | WecWrongFundSource
| WecUnsafeCredential | WecIdempotencyConflict | WecJournalUnavailable | WecJournalCorrupt
| WecWalletUnavailable | WecWalletRejected | WecWalletProtocolViolation | WecWalletAmbiguous
| WecBroadcastRejected | WecBroadcastAmbiguous | WecInterrupted.

#[global] Instance WecPayoutError_eq_dec : EqDecision WecPayoutError.
Proof. solve_decision. Defined.

(** ** The wallet boundary *)

Definition WCASH_TESTNET_GENESIS_HASH : string :=
  "6b66fff119977d36d9c989093b516a876dbf6596536791ff35bb4c581e3fda98".
Definition WCASH_TESTNET_BRANCH_ID : string := "54ba2bfb".
Definition WCASH_MAINNET_GENESIS_HASH : string :=
  "5bae12c8662a577b04ce1591af1a137c128f0cb51018a5f1622d861d1bb6fc48".
Definition WCASH_MAINNET_BRANCH_ID : string := "d9c6a7ee".
Definition WCASH_REGTEST_GENESIS_HASH : string :=
  "70bf0bab17eff361a6331bb825b3b7253c8c96ff96407f948161d2912658bb1c".
Definition WCASH_REGTEST_BRANCH_ID : string := "c3a6678a".

Inductive WalletNetwork : Type := WalletTestnet | WalletRegtest | WalletMainnet.
Inductive WalletFundSource : Type := FundIronwood | FundSapling | FundTransparent.

#[global] Instance WalletNetwork_eq_dec : EqDecision WalletNetwork.
Proof. solve_decision. Defined.
#[global] Instance WalletFundSource_eq_dec : EqDecision WalletFundSource.
Proof. solve_decision. Defined.

Record WalletIdentity : Type := mkWalletIdentity {
  id_network : WalletNetwork;
  id_genesis_hash : string;
  id_branch_id : string;
  id_account_id : Uuid;
  id_collector_payout_commitment : list Z;
  id_fund_source : WalletFundSource;
  id_synchronized : bool
}.

Record WalletOutput : Type := mkWalletOutput {
  out_allocation_id : Uuid;
  out_canonical_address : string;
  out_receiver_kind : ReceiverKind;
  out_amount_zat : Z;
  out_memo : list Z
}.

#[global] Instance WalletOutput_eq_dec : EqDecision WalletOutput.
Proof. solve_decision. Defined.

Record WalletRecoveryCall : Type := mkWalletRecoveryCall {
  rcv_batch_id : Uuid;
  rcv_request_commitment : list Z;
  rcv_timeout : Z;
  rcv_max_response_bytes : Z
}.

Record WalletSignCall : Type := mkWalletSignCall {
  sgn_batch_id : Uuid;
  sgn_request_commitment : list Z;
  sgn_identity : WalletIdentity;
  sgn_outputs : list WalletOutput;
  sgn_confirmations : Z;
  sgn_max_fee_zat : Z;
  sgn_timeout : Z;
  sgn_max_response_bytes : Z
}.

Record WalletSignedTransaction : Type := mkWalletSignedTransaction {
  wst_batch_id : Uuid;
  wst_request_commitment : list Z;
  wst_transaction_id : string;
  wst_raw_transaction_hex : string;
  wst_unsigned_digest : list Z;
  wst_fee_zat : Z;
  wst_target_height : Z;
  wst_expiry_height : Z;
  wst_stored : bool;
  wst_internal_change_receiver_verified : bool
}.

Record WalletInspectionCall : Type := mkWalletInspectionCall {
  ins_batch_id : Uuid;
  ins_request_commitment : list Z;
  ins_transaction_id : string;
  ins_raw_transaction_hex : string;
  ins_timeout : Z;
  ins_max_response_bytes : Z
}.

Record PersistedIntent : Type := mkPersistedIntent {
  pin_identity : WalletIdentity;
  pin_batch_id : Uuid;
  pin_request_commitment : list Z;
  pin_ordered_outputs : list WalletOutput;
  pin_unsigned_digest : list Z;
  pin_transaction_id : string;
  pin_raw_transaction_sha256 : list Z;
  pin_fee_zat : Z;
  pin_target_height : Z;
  pin_expiry_height : Z;
  pin_stored : bool;
  pin_internal_change_receiver_verified : bool
}.

Record WalletBroadcastCall : Type := mkWalletBroadcastCall {
  bct_batch_id : Uuid;
  bct_request_commitment : list Z;
  bct_transaction_id : string;
  bct_raw_transaction_hex : string;
  bct_timeout : Z;
  bct_max_response_bytes : Z
}.

Inductive BroadcastDisposition : Type := DispositionAccepted | DispositionAlreadyKnown.

Record BroadcastOutcome : Type := mkBroadcastOutcome {
  bo_transaction_id : string;
  bo_disposition : BroadcastDisposition
}.

Inductive BroadcastFailure : Type :=
| BroadcastFailedRejected | BroadcastFailedTimeout | BroadcastFailedUnavailable
| BroadcastFailedAmbiguous | BroadcastFailedProtocolViolation.

Inductive NativeWalletError : Type :=
| NativeTimeout | NativeUnavailable | NativeRejected | NativeIdempotencyConflict | NativeAmbiguous
| NativeProtocolViolation.

Definition map_readonly_wallet_error (error : NativeWalletError) : WecPayoutError :=
  match error with
  | NativeIdempotencyConflict => WecIdempotencyConflict
  | NativeRejected | NativeProtocolViolation => WecWalletProtocolViolation
  | NativeTimeout | NativeUnavailable | NativeAmbiguous => WecWalletUnavailable
  end.

Definition map_recovery_error (error : NativeWalletError) : WecPayoutError :=
  match error with
  | NativeIdempotencyConflict => WecIdempotencyConflict
  | NativeProtocolViolation | NativeRejected => WecWalletProtocolViolation
  | NativeTimeout | NativeUnavailable | NativeAmbiguous => WecWalletAmbiguous
  end.

Definition map_signing_error (error : NativeWalletError) : WecPayoutError :=
  match error with
  | NativeIdempotencyConflict => WecIdempotencyConflict
  | NativeRejected => WecWalletRejected
  | NativeProtocolViolation => WecWalletProtocolViolation
  | NativeTimeout | NativeUnavailable | NativeAmbiguous => WecWalletAmbiguous
  end.

Definition map_inspection_error (error : NativeWalletError) : WecPayoutError :=
  match error with
  | NativeIdempotencyConflict => WecIdempotencyConflict
  | NativeProtocolViolation | NativeRejected => WecWalletProtocolViolation
  | NativeTimeout | NativeUnavailable | NativeAmbiguous => WecWalletUnavailable
  end.

Definition map_portal_error (error : WecPayoutError) : SignerError :=
  match error with
  | WecWrongNetwork => WrongNetwork
  | WecIdempotencyConflict => IdempotencyConflict
  | WecBroadcastAmbiguous | WecWalletAmbiguous => AmbiguousBroadcast
  | _ => SignerRejected
  end.

(** ** Policy *)

(** Durations are nanoseconds. *)
Record NativeCallLimits : Type := mkNativeCallLimits {
  recovery_timeout : Z;
  sign_timeout : Z;
  inspection_timeout : Z;
  broadcast_timeout : Z;
  max_response_bytes : Z
}.

Definition seconds (s : Z) : Z := s * 1000000000.

Definition NativeCallLimits_validate (self : NativeCallLimits) : result unit WecPayoutError :=
  if (recovery_timeout self =? 0) || (seconds 60 <? recovery_timeout self)
     || (sign_timeout self =? 0) || (seconds 600 <? sign_timeout self)
     || (inspection_timeout self =? 0) || (seconds 60 <? inspection_timeout self)
     || (broadcast_timeout self =? 0) || (seconds 60 <? broadcast_timeout self)
     || negb ((1024 <=? max_response_bytes self) && (max_response_bytes self <=? 16 * 1024 * 1024))
  then Err WecInvalidRequest else Ok tt.

Definition NativeCallLimits_default : NativeCallLimits :=
  mkNativeCallLimits (seconds 15) (seconds 300) (seconds 30) (seconds 15) (8 * 1024 * 1024).

(** The seed source is named by the calls that read it. *)
Record WecSignerConfig : Type := mkWecSignerConfig {
  cfg_network : ChainNetwork;
  cfg_journal_directory : string;
  cfg_source_account : Uuid;
  cfg_expected_payout_commitment : list Z;
  cfg_confirmations : Z;
  cfg_max_outputs : Z;
  cfg_max_fee_zat : Z;
  cfg_limits : NativeCallLimits;
  cfg_transparent_payouts_enabled : bool
}.

Definition WecSignerConfig_validate (self : WecSignerConfig) : result unit WecPayoutError :=
  let? _ := NativeCallLimits_validate (cfg_limits self) in
  if negb (absolute_without_parents (str_bytes (cfg_journal_directory self)))
     || Uuid_is_nil (cfg_source_account self)
     || all_zero (cfg_expected_payout_commitment self)
     || (cfg_confirmations self <? 100)
     || negb ((1 <=? cfg_max_outputs self) && (cfg_max_outputs self <=? 100))
     || (cfg_max_fee_zat self =? 0)
     || (100000000 <? cfg_max_fee_zat self)
  then Err WecInvalidRequest else Ok tt.

Definition wallet_network (self : WecSignerConfig) : WalletNetwork :=
  match cfg_network self with
  | Mainnet => WalletMainnet | Regtest => WalletRegtest | Testnet => WalletTestnet
  end.
Definition genesis_hash (self : WecSignerConfig) : string :=
  match cfg_network self with
  | Mainnet => WCASH_MAINNET_GENESIS_HASH | Regtest => WCASH_REGTEST_GENESIS_HASH
  | Testnet => WCASH_TESTNET_GENESIS_HASH
  end.
Definition branch_id (self : WecSignerConfig) : string :=
  match cfg_network self with
  | Mainnet => WCASH_MAINNET_BRANCH_ID | Regtest => WCASH_REGTEST_BRANCH_ID
  | Testnet => WCASH_TESTNET_BRANCH_ID
  end.

(** ** The journal *)

Record StoredArtifact : Type := mkStoredArtifact {
  sa_raw_transaction_hex : string;
  sa_transaction_id : string;
  sa_unsigned_digest : list Z;
  sa_fee_zat : Z;
  sa_target_height : Z;
  sa_expiry_height : Z
}.

#[global] Instance StoredArtifact_eq_dec : EqDecision StoredArtifact.
Proof. solve_decision. Defined.

(** [StoredBroadcastDisposition] has the values of [BroadcastDisposition]. *)
Inductive StoredStage : Type :=
| Reserved
| Prepared (artifact : StoredArtifact)
| SignedStage (artifact : StoredArtifact)
| BroadcastUnresolved (artifact : StoredArtifact)
| RejectedStage (artifact : StoredArtifact)
| Completed (artifact : StoredArtifact) (disposition : BroadcastDisposition).

Record JournalRecord : Type := mkJournalRecord {
  jr_batch_id : Uuid;
  jr_pipeline_commitment : list Z;
  jr_portal_commitment : list Z;
  jr_output_total_zat : Z;
  jr_stage : StoredStage
}.

Record Envelope : Type := mkEnvelope {
  en_schema_version : Z;
  en_record : JournalRecord;
  en_checksum : string
}.

Definition SCHEMA_VERSION : Z := 1.
Definition CHECKSUM_DOMAIN : list Z := str_bytes "zecwec/wec-payout-journal/v1".
Definition MAX_JOURNAL_BYTES : Z := 6 * 1024 * 1024.
Definition MAX_RAW_TRANSACTION_HEX_BYTES : Z := 4 * 1024 * 1024.

(** Lower-case hexadecimal digits. *)
Definition lower_hex_text (s : string) : bool := forallb is_lower_hex (str_bytes s).
Definition text_len (s : string) : Z := Z.of_nat (String.length s).

Definition StoredArtifact_validate (self : StoredArtifact) : result unit WecPayoutError :=
  if (text_len (sa_raw_transaction_hex self) =? 0)
     || (MAX_RAW_TRANSACTION_HEX_BYTES <? text_len (sa_raw_transaction_hex self))
     || negb (text_len (sa_raw_transaction_hex self) mod 2 =? 0)
     || negb (lower_hex_text (sa_raw_transaction_hex self))
     || negb (text_len (sa_transaction_id self) =? 64)
     || negb (lower_hex_text (sa_transaction_id self))
     || all_zero (sa_unsigned_digest self)
     || (sa_fee_zat self =? 0)
     || (sa_target_height self =? 0)
     || (sa_expiry_height self <=? sa_target_height self)
  then Err WecJournalCorrupt else Ok tt.

Definition public_stage (self : StoredStage) : WecPipelineStage :=
  match self with
  | Reserved => StageReserved
  | Prepared _ | SignedStage _ => StageSigned
  | BroadcastUnresolved _ => StageBroadcastUnresolved
  | RejectedStage _ => StageRejected
  | Completed _ _ => StageCompleted
  end.

Definition stage_artifact (self : StoredStage) : option StoredArtifact :=
  match self with
  | Reserved => None
  | Prepared artifact | SignedStage artifact | BroadcastUnresolved artifact
  | RejectedStage artifact | Completed artifact _ => Some artifact
  end.

Definition StoredStage_validate (self : StoredStage) : result unit WecPayoutError :=
  match stage_artifact self with
  | Some artifact => StoredArtifact_validate artifact
  | None => Ok tt
  end.

(** [serde_json] on the journal's types. *)
Class JournalJson : Type := {
  record_to_vec : JournalRecord -> option (list Z);
  envelope_to_vec : Envelope -> option (list Z);
  envelope_from_slice : list Z -> option Envelope
}.

(** A record's file: its kind, permissions, link count and contents. *)
Record JournalFile : Type := mkJournalFile {
  jf_regular : bool;
  jf_mode : Z;
  jf_nlink : Z;
  jf_bytes : list Z
}.

(** The directory, by the batch identifier in the file name. *)
Abbreviation JournalDir := (gmap Uuid JournalFile) (only parsing).

(** Where [write_and_replace] fails: before the new file is renamed into place, or when the
    directory is synchronised after it. *)
Inductive StoreFault : Type := NoFault | NotRenamed | NotSynchronized.

Section Journal.
Context {env : StoreEnv} {json : JournalJson}.

Definition checksum (record : JournalRecord) : result string WecPayoutError :=
  let? serialized := ok_or (record_to_vec record) WecJournalUnavailable in
  Ok (hex_encode (env_sha256 (CHECKSUM_DOMAIN ++ serialized))).

(** [unreadable]: the metadata, open or read call fails. *)
Definition journal_load (dir : JournalDir) (unreadable : bool) (batch_id : Uuid)
    : result (option JournalRecord) WecPayoutError :=
  if unreadable then Err WecJournalUnavailable else
  match dir !! batch_id with
  | None => Ok None
  | Some file =>
      if negb (jf_regular file) then Err WecJournalCorrupt else
      if negb (Z.land (jf_mode file) 511 =? 384) || negb (jf_nlink file =? 1)
      then Err WecJournalCorrupt else
      if MAX_JOURNAL_BYTES <? Z.of_nat (length (jf_bytes file)) then Err WecJournalCorrupt else
      let? envelope := ok_or (envelope_from_slice (jf_bytes file)) WecJournalCorrupt in
      let record := en_record envelope in
      if negb (en_schema_version envelope =? SCHEMA_VERSION) || negb (jr_batch_id record =? batch_id)
      then Err WecJournalCorrupt else
      let? sum := checksum record in
      if negb (String.eqb (en_checksum envelope) sum)
         || all_zero (jr_pipeline_commitment record)
         || all_zero (jr_portal_commitment record)
         || (jr_output_total_zat record =? 0)
      then Err WecJournalCorrupt else
      let? _ := StoredStage_validate (jr_stage record) in
      Ok (Some record)
  end.

Definition journal_store (dir : JournalDir) (fault : StoreFault) (record : JournalRecord)
    : JournalDir * result unit WecPayoutError :=
  match StoredStage_validate (jr_stage record) with
  | Err e => (dir, Err e)
  | Ok _ =>
  match checksum record with
  | Err e => (dir, Err e)
  | Ok sum =>
  match envelope_to_vec (mkEnvelope SCHEMA_VERSION record sum) with
  | None => (dir, Err WecJournalUnavailable)
  | Some bytes =>
      if MAX_JOURNAL_BYTES <? Z.of_nat (length bytes) then (dir, Err WecJournalUnavailable) else
      let dir' := <[jr_batch_id record := mkJournalFile true 384 1 bytes]> dir in
      match fault with
      | NoFault => (dir', Ok tt)
      | NotRenamed => (dir, Err WecJournalUnavailable)
      | NotSynchronized => (dir', Err WecJournalUnavailable)
      end
  end end end.
End Journal.

(** ** Requests *)

Record WecPayoutRequest : Type := mkWecPayoutRequest {
  wr_batch : PayoutBatchRequest;
  wr_source_account : Uuid;
  wr_fund_source : WalletFundSource
}.

Record ValidatedRequest : Type := mkValidatedRequest {
  vr_portal_commitment : list Z;
  vr_pipeline_commitment : list Z;
  vr_output_total_zat : Z;
  vr_outputs : list WalletOutput
}.

Definition PIPELINE_COMMITMENT_DOMAIN : list Z := str_bytes "zecwec/wec-payout-pipeline/v2".
Definition OUTPUT_MEMO_DOMAIN : list Z := str_bytes "ZECWEC-WEC-PAYOUT-V1".
Definition MAX_WEC_ZAT : Z := 2100000000000000.
Definition MAX_EXPIRY_DELTA : Z := 100.

Definition fund_source_tag (source : WalletFundSource) : Z :=
  match source with FundIronwood => 1 | FundSapling => 2 | FundTransparent => 3 end.

Definition output_memo (batch_id : Uuid) (portal_commitment : list Z) (allocation_id : Uuid)
    (ordinal : Z) : result (list Z) WecPayoutError :=
  if 65535 <? ordinal then Err WecInvalidRequest else
  Ok (OUTPUT_MEMO_DOMAIN ++ [0] ++ Uuid_as_bytes batch_id ++ portal_commitment
      ++ Uuid_as_bytes allocation_id ++ be_bytes 2 ordinal).

Fixpoint wallet_outputs (batch_id : Uuid) (portal_commitment : list Z) (ordinal : Z)
    (outputs : list PayoutOutput) : result (list WalletOutput) WecPayoutError :=
  match outputs with
  | [] => Ok []
  | o :: rest =>
      let? memo := match po_receiver_kind o with
                   | Transparent => Ok []
                   | Ironwood => output_memo batch_id portal_commitment (po_allocation_id o) ordinal
                   end in
      let? tail := wallet_outputs batch_id portal_commitment (ordinal + 1) rest in
      Ok (mkWalletOutput (po_allocation_id o) (po_canonical_address o) (po_receiver_kind o)
            (po_amount_zat o) memo :: tail)
  end.

(** Every output has the receiver kind of the first. *)
Definition mixed_receivers (outputs : list PayoutOutput) : bool :=
  match outputs with
  | [] => false
  | first :: _ => existsb (fun o => bool_decide (po_receiver_kind o <> po_receiver_kind first)) outputs
  end.

Definition valid_transaction_id (value : string) : bool :=
  (text_len value =? 64) && lower_hex_text value.

Definition valid_raw_transaction (value : string) : bool :=
  negb (text_len value =? 0) && (text_len value <=? MAX_RAW_TRANSACTION_HEX_BYTES)
  && (text_len value mod 2 =? 0) && lower_hex_text value.

(** [hex::decode] into a vector. *)
Definition hex_decode `{!HexOps} (s : string) : result (list Z) unit :=
  if Nat.even (String.length s)
  then map_err (fun _ => tt) (hex_decode_to_slice (String.length s / 2) s) else Err tt.

(** ** The pipeline *)

Inductive Checkpoint : Type :=
| IdentityReturned | RecoveryReturned | SigningReturned | InspectionReturned
| BroadcastReturned (stage : WecPipelineStage)
| StagePersisted (stage : WecPipelineStage).

(** The calls of the signer.  The seed stays behind the boundary: the calls that read or probe it
    answer with success or an error. *)
Inductive SignerCall : Type -> Type :=
| JournalLock : SignerCall (result unit WecPayoutError)
| JournalLoad (batch_id : Uuid) : SignerCall (result (option JournalRecord) WecPayoutError)
| JournalStore (record : JournalRecord) : SignerCall (result unit WecPayoutError)
| SeedProbe : SignerCall (result unit WecPayoutError)
| SeedRead : SignerCall (result unit WecPayoutError)
| WalletIdentify (timeout max_response_bytes : Z) : SignerCall (result WalletIdentity NativeWalletError)
| WalletRecover (c : WalletRecoveryCall) : SignerCall (result (option WalletSignedTransaction) NativeWalletError)
| WalletSign (c : WalletSignCall) : SignerCall (result WalletSignedTransaction NativeWalletError)
| WalletInspect (c : WalletInspectionCall) : SignerCall (result PersistedIntent NativeWalletError)
| WalletBroadcast (c : WalletBroadcastCall) : SignerCall (result BroadcastOutcome BroadcastFailure)
| ShouldInterrupt (c : Checkpoint) : SignerCall bool.

Record WecPreparedPayout : Type := mkWecPreparedPayout {
  wp_receipt : BroadcastReceipt;
  wp_unsigned_digest : list Z;
  wp_transaction_id_bytes : list Z;
  wp_signed_transaction : list Z;
  wp_network_fee_zat : Z;
  wp_target_height : Z;
  wp_expiry_height : Z
}.

Record WecPayoutExecution : Type := mkWecPayoutExecution {
  we_receipt : BroadcastReceipt;
  we_unsigned_digest : list Z;
  we_transaction_id_bytes : list Z;
  we_signed_transaction : list Z;
  we_network_fee_zat : Z;
  we_disposition : BroadcastDisposition
}.

Definition with_stage (record : JournalRecord) (stage : StoredStage) : JournalRecord :=
  mkJournalRecord (jr_batch_id record) (jr_pipeline_commitment record) (jr_portal_commitment record)
    (jr_output_total_zat record) stage.

Section Pipeline.
Context {env : StoreEnv}.
Variable config : WecSignerConfig.

Abbreviation signer A := (proc SignerCall (result A WecPayoutError)).

Definition pipeline_commitment (request : WecPayoutRequest) (portal_commitment : list Z) : list Z :=
  env_sha256 (PIPELINE_COMMITMENT_DOMAIN ++ portal_commitment ++ Uuid_as_bytes (wr_source_account request)
    ++ cfg_expected_payout_commitment config ++ [fund_source_tag (wr_fund_source request)]
    ++ be_bytes 4 (cfg_confirmations config) ++ be_bytes 8 (cfg_max_fee_zat config)
    ++ str_bytes (genesis_hash config) ++ str_bytes (branch_id config)).

Definition validate_request (request : WecPayoutRequest) : result ValidatedRequest WecPayoutError :=
  let batch := wr_batch request in
  if bool_decide (rq_asset batch <> Wec) then Err WecWrongAsset else
  if bool_decide (rq_network batch <> cfg_network config) then Err WecWrongNetwork else
  if negb (wr_source_account request =? cfg_source_account config) then Err WecWrongAccount else
  if bool_decide (wr_fund_source request <> FundIronwood) then Err WecWrongFundSource else
  let? output_total_zat := map_err (fun _ => WecInvalidRequest) (PayoutBatchRequest_validate batch) in
  if (cfg_max_outputs config <? Z.of_nat (length (rq_outputs batch)))
     || (cfg_max_fee_zat config <? rq_maximum_network_fee_zat batch)
     || (MAX_WEC_ZAT <? output_total_zat)
     || match checked_add U64_MAX output_total_zat (rq_maximum_network_fee_zat batch) with
        | Some total => MAX_WEC_ZAT <? total
        | None => true
        end
     || mixed_receivers (rq_outputs batch)
  then Err WecInvalidRequest else
  let? portal_commitment := map_err (fun _ => WecInvalidRequest)
                              (PayoutBatchRequest_commitment env_sha256 batch) in
  let? outputs := wallet_outputs (rq_batch_id batch) portal_commitment 0 (rq_outputs batch) in
  Ok (mkValidatedRequest portal_commitment (pipeline_commitment request portal_commitment)
        output_total_zat outputs).

Definition verify_identity (identity : WalletIdentity) : result unit WecPayoutError :=
  if bool_decide (id_network identity <> wallet_network config)
     || negb (String.eqb (id_genesis_hash identity) (genesis_hash config))
     || negb (String.eqb (id_branch_id identity) (branch_id config))
  then Err WecWrongNetwork else
  if negb (id_account_id identity =? cfg_source_account config) then Err WecWrongAccount else
  if bool_decide (id_collector_payout_commitment identity <> cfg_expected_payout_commitment config)
  then Err WecWrongAccount else
  if bool_decide (id_fund_source identity <> FundIronwood) then Err WecWrongFundSource else
  if negb (id_synchronized identity) then Err WecWalletUnavailable else Ok tt.

Definition verify_signed (signed : WalletSignedTransaction) (request : WecPayoutRequest)
    (validated : ValidatedRequest) : result unit WecPayoutError :=
  let valid_expiry := match checked_sub (wst_expiry_height signed) (wst_target_height signed) with
                      | Some delta => (1 <=? delta) && (delta <=? MAX_EXPIRY_DELTA)
                      | None => false
                      end in
  if negb (wst_batch_id signed =? rq_batch_id (wr_batch request))
     || bool_decide (wst_request_commitment signed <> vr_pipeline_commitment validated)
     || negb (valid_transaction_id (wst_transaction_id signed))
     || negb (valid_raw_transaction (wst_raw_transaction_hex signed))
     || all_zero (wst_unsigned_digest signed)
     || (wst_fee_zat signed =? 0)
     || (rq_maximum_network_fee_zat (wr_batch request) <? wst_fee_zat signed)
     || (wst_target_height signed =? 0)
     || negb valid_expiry
     || negb (wst_stored signed)
     || negb (wst_internal_change_receiver_verified signed)
  then Err WecWalletProtocolViolation else Ok tt.

Definition verify_inspection (inspected : PersistedIntent) (signed : WalletSignedTransaction)
    (request : WecPayoutRequest) (validated : ValidatedRequest) : result unit WecPayoutError :=
  let? _ := map_err (fun _ => WecWalletProtocolViolation) (verify_identity (pin_identity inspected)) in
  let? raw := map_err (fun _ => WecWalletProtocolViolation) (hex_decode (wst_raw_transaction_hex signed)) in
  if negb (pin_batch_id inspected =? rq_batch_id (wr_batch request))
     || bool_decide (pin_request_commitment inspected <> vr_pipeline_commitment validated)
     || bool_decide (pin_ordered_outputs inspected <> vr_outputs validated)
     || bool_decide (pin_unsigned_digest inspected <> wst_unsigned_digest signed)
     || negb (String.eqb (pin_transaction_id inspected) (wst_transaction_id signed))
     || bool_decide (pin_raw_transaction_sha256 inspected <> env_sha256 raw)
     || negb (pin_fee_zat inspected =? wst_fee_zat signed)
     || negb (pin_target_height inspected =? wst_target_height signed)
     || negb (pin_expiry_height inspected =? wst_expiry_height signed)
     || negb (pin_stored inspected)
     || negb (pin_internal_change_receiver_verified inspected)
  then Err WecWalletProtocolViolation else Ok tt.

Definition prepared_from_record (record : JournalRecord) : result WecPreparedPayout WecPayoutError :=
  let? artifact := ok_or (stage_artifact (jr_stage record)) WecJournalCorrupt in
  let? signed_transaction := map_err (fun _ => WecJournalCorrupt)
                               (hex_decode (sa_raw_transaction_hex artifact)) in
  let? transaction_id := map_err (fun _ => WecJournalCorrupt) (hex_decode (sa_transaction_id artifact)) in
  if negb (length transaction_id =? 32)%nat then Err WecJournalCorrupt else
  Ok (mkWecPreparedPayout
        (mkBroadcastReceipt (jr_batch_id record) (jr_portal_commitment record) Wec
           (sa_transaction_id artifact) (jr_output_total_zat record))
        (sa_unsigned_digest artifact) transaction_id signed_transaction (sa_fee_zat artifact)
        (sa_target_height artifact) (sa_expiry_height artifact)).

Definition execution_from_record (record : JournalRecord) (disposition : BroadcastDisposition)
    : result WecPayoutExecution WecPayoutError :=
  let? prepared := prepared_from_record record in
  Ok (mkWecPayoutExecution (wp_receipt prepared) (wp_unsigned_digest prepared)
        (wp_transaction_id_bytes prepared) (wp_signed_transaction prepared)
        (wp_network_fee_zat prepared) disposition).

Definition checkpoint (c : Checkpoint) : signer unit :=
  let+ interrupt := call (ShouldInterrupt c) in
  Ret (if (interrupt : bool) then Err WecInterrupted else Ok tt).

Definition persist (record : JournalRecord) : signer unit :=
  do! call (JournalStore record) in
  checkpoint (StagePersisted (public_stage (jr_stage record))).

Definition persist_broadcast_result (record : JournalRecord) (stage : WecPipelineStage) : signer unit :=
  do! checkpoint (BroadcastReturned stage) in
  persist record.

(** The batch is bound to other facts. *)
Definition bound_otherwise (record : JournalRecord) (validated : ValidatedRequest) : bool :=
  bool_decide (jr_pipeline_commitment record <> vr_pipeline_commitment validated)
  || bool_decide (jr_portal_commitment record <> vr_portal_commitment validated)
  || negb (jr_output_total_zat record =? vr_output_total_zat validated).

Definition load_or_reserve (request : WecPayoutRequest) (validated : ValidatedRequest)
    : signer JournalRecord :=
  let batch := wr_batch request in
  let! loaded := call (JournalLoad (rq_batch_id batch)) in
  match loaded with
  | Some record =>
      if bound_otherwise record validated then Ret (Err WecIdempotencyConflict) else Ret (Ok record)
  | None =>
      if match rq_outputs batch with
         | first :: _ => bool_decide (po_receiver_kind first = Transparent)
         | [] => false
         end && negb (cfg_transparent_payouts_enabled config)
      then Ret (Err WecInvalidRequest) else
      let record := mkJournalRecord (rq_batch_id batch) (vr_pipeline_commitment validated)
                      (vr_portal_commitment validated) (vr_output_total_zat validated) Reserved in
      do! persist record in
      Ret (Ok record)
  end.

Definition limits : NativeCallLimits := cfg_limits config.

(** The identity check every wallet operation starts with. *)
Definition attested_identity : signer WalletIdentity :=
  let! identity := call_err (WalletIdentify (recovery_timeout limits) (max_response_bytes limits))
                     map_readonly_wallet_error in
  do! Ret (verify_identity identity) in
  do! checkpoint IdentityReturned in
  Ret (Ok identity).

Definition recovered_transaction (request : WecPayoutRequest) (validated : ValidatedRequest)
    : signer (option WalletSignedTransaction) :=
  let! recovered := call_err (WalletRecover (mkWalletRecoveryCall (rq_batch_id (wr_batch request))
                                (vr_pipeline_commitment validated) (recovery_timeout limits)
                                (max_response_bytes limits))) map_recovery_error in
  do! checkpoint RecoveryReturned in
  Ret (Ok recovered).

(** The checks of what the wallet holds, and the artifact they yield. *)
Definition inspected_artifact (request : WecPayoutRequest) (validated : ValidatedRequest)
    (signed : WalletSignedTransaction) : signer StoredArtifact :=
  do! Ret (verify_signed signed request validated) in
  let! inspected := call_err (WalletInspect (mkWalletInspectionCall (rq_batch_id (wr_batch request))
                                (vr_pipeline_commitment validated) (wst_transaction_id signed)
                                (wst_raw_transaction_hex signed) (inspection_timeout limits)
                                (max_response_bytes limits))) map_inspection_error in
  do! Ret (verify_inspection inspected signed request validated) in
  do! checkpoint InspectionReturned in
  Ret (Ok (mkStoredArtifact (wst_raw_transaction_hex signed) (wst_transaction_id signed)
             (wst_unsigned_digest signed) (wst_fee_zat signed) (wst_target_height signed)
             (wst_expiry_height signed))).

Definition create_or_recover (request : WecPayoutRequest) (validated : ValidatedRequest)
    : signer StoredArtifact :=
  let! identity := attested_identity in
  let! recovered := recovered_transaction request validated in
  let! signed :=
    match recovered with
    | Some signed => Ret (Ok signed)
    | None =>
        do! call SeedRead in
        let! signed := call_err (WalletSign (mkWalletSignCall (rq_batch_id (wr_batch request))
                                   (vr_pipeline_commitment validated) identity (vr_outputs validated)
                                   (cfg_confirmations config)
                                   (rq_maximum_network_fee_zat (wr_batch request))
                                   (sign_timeout limits) (max_response_bytes limits)))
                         map_signing_error in
        do! checkpoint SigningReturned in
        Ret (Ok signed)
    end in
  inspected_artifact request validated signed.

Definition recover_existing (request : WecPayoutRequest) (validated : ValidatedRequest)
    : signer (option StoredArtifact) :=
  let! _identity := attested_identity in
  let! recovered := recovered_transaction request validated in
  match recovered with
  | None => Ret (Ok None)
  | Some signed =>
      let! artifact := inspected_artifact request validated signed in Ret (Ok (Some artifact))
  end.

(** The loops, [fuel] iterations at most; [None] is an iteration too many. *)
Fixpoint prepare_loop (fuel : nat) (request : WecPayoutRequest) (validated : ValidatedRequest)
    (record : JournalRecord) : signer (option WecPreparedPayout) :=
  match fuel with
  | O => Ret (Ok None)
  | S fuel' =>
      match jr_stage record with
      | Reserved =>
          let! artifact := create_or_recover request validated in
          let record := with_stage record (Prepared artifact) in
          do! persist record in
          prepare_loop fuel' request validated record
      | Prepared _ | SignedStage _ | BroadcastUnresolved _ | Completed _ _ =>
          let! prepared := Ret (prepared_from_record record) in Ret (Ok (Some prepared))
      | RejectedStage _ => Ret (Err WecBroadcastRejected)
      end
  end.

Definition prepare_locked (fuel : nat) (request : WecPayoutRequest) (validated : ValidatedRequest)
    : signer (option WecPreparedPayout) :=
  let! record := load_or_reserve request validated in
  prepare_loop fuel request validated record.

(** The call of the [Signed] and [BroadcastUnresolved] arms and what its answer persists. *)
Definition broadcast_artifact (record : JournalRecord) (artifact : StoredArtifact)
    : signer WecPayoutExecution :=
  let+ answer := call (WalletBroadcast (mkWalletBroadcastCall (jr_batch_id record)
                         (jr_pipeline_commitment record) (sa_transaction_id artifact)
                         (sa_raw_transaction_hex artifact) (broadcast_timeout limits)
                         (max_response_bytes limits))) in
  match answer with
  | Ok outcome =>
      if negb (String.eqb (bo_transaction_id outcome) (sa_transaction_id artifact)) then
        do! persist_broadcast_result (with_stage record (BroadcastUnresolved artifact))
              StageBroadcastUnresolved in
        Ret (Err WecBroadcastAmbiguous)
      else
        do! checkpoint (BroadcastReturned StageCompleted) in
        let disposition := bo_disposition outcome in
        let record := with_stage record (Completed artifact disposition) in
        do! persist record in
        Ret (execution_from_record record disposition)
  | Err BroadcastFailedRejected =>
      do! checkpoint (BroadcastReturned StageRejected) in
      do! persist (with_stage record (RejectedStage artifact)) in
      Ret (Err WecBroadcastRejected)
  | Err _ =>
      do! checkpoint (BroadcastReturned StageBroadcastUnresolved) in
      do! persist (with_stage record (BroadcastUnresolved artifact)) in
      Ret (Err WecBroadcastAmbiguous)
  end.

Fixpoint execute_loop (fuel : nat) (request : WecPayoutRequest) (validated : ValidatedRequest)
    (record : JournalRecord) : signer (option WecPayoutExecution) :=
  match fuel with
  | O => Ret (Ok None)
  | S fuel' =>
      match jr_stage record with
      | Reserved =>
          let! artifact := create_or_recover request validated in
          let record := with_stage record (Prepared artifact) in
          do! persist record in
          execute_loop fuel' request validated record
      | Prepared artifact =>
          let record := with_stage record (BroadcastUnresolved artifact) in
          do! persist record in
          execute_loop fuel' request validated record
      | SignedStage artifact | BroadcastUnresolved artifact =>
          let! execution := broadcast_artifact record artifact in Ret (Ok (Some execution))
      | RejectedStage _ => Ret (Err WecBroadcastRejected)
      | Completed _ disposition =>
          let! execution := Ret (execution_from_record record disposition) in Ret (Ok (Some execution))
      end
  end.

Definition execute_locked (fuel : nat) (request : WecPayoutRequest) (validated : ValidatedRequest)
    : signer (option WecPayoutExecution) :=
  let! record := load_or_reserve request validated in
  execute_loop fuel request validated record.

(** Validation and the exclusive lock, in front of every operation on the journal. *)
Definition locked {A} (request : WecPayoutRequest) (operation : ValidatedRequest -> signer A) : signer A :=
  do! Ret (WecSignerConfig_validate config) in
  let! validated := Ret (validate_request request) in
  do! call JournalLock in
  operation validated.

Definition prepare (fuel : nat) (request : WecPayoutRequest) : signer (option WecPreparedPayout) :=
  locked request (prepare_locked fuel request).

Definition execute (fuel : nat) (request : WecPayoutRequest) : signer (option WecPayoutExecution) :=
  locked request (execute_locked fuel request).

(** The answer of [recover_prepared] from a record whose stage is known. *)
Definition recovery_from_record (record : JournalRecord) : signer (option WecPreparedPayout) :=
  match jr_stage record with
  | Reserved => Ret (Err WecJournalCorrupt)
  | RejectedStage _ => Ret (Err WecBroadcastRejected)
  | _ => let! payout := Ret (prepared_from_record record) in Ret (Ok (Some payout))
  end.

Definition recover_prepared (request : WecPayoutRequest) : signer (option WecPreparedPayout) :=
  locked request (fun validated =>
    let! loaded := call (JournalLoad (rq_batch_id (wr_batch request))) in
    match loaded with
    | None => Ret (Ok None)
    | Some record =>
        if bound_otherwise record validated then Ret (Err WecIdempotencyConflict) else
        match jr_stage record with
        | Reserved =>
            let! recovered := recover_existing request validated in
            match recovered with
            | None => Ret (Ok None)
            | Some artifact =>
                let record := with_stage record (Prepared artifact) in
                do! persist record in
                recovery_from_record record
            end
        | _ => recovery_from_record record
        end
    end).

Definition inspect_prepared (request : WecPayoutRequest) : signer WecPreparedPayout :=
  locked request (fun validated =>
    let! loaded := call (JournalLoad (rq_batch_id (wr_batch request))) in
    let! record := Ret (ok_or loaded WecJournalCorrupt) in
    if bound_otherwise record validated || bool_decide (stage_artifact (jr_stage record) = None)
    then Ret (Err WecIdempotencyConflict) else
    let! expected := Ret (ok_or (stage_artifact (jr_stage record)) WecJournalCorrupt) in
    let! found := recover_existing request validated in
    let! inspected := Ret (ok_or found WecJournalCorrupt) in
    if bool_decide (inspected <> expected) then Ret (Err WecIdempotencyConflict)
    else Ret (prepared_from_record record)).

Definition readiness : signer unit :=
  do! Ret (WecSignerConfig_validate config) in
  do! call SeedProbe in
  let! identity := call_err (WalletIdentify (recovery_timeout limits) (max_response_bytes limits))
                     map_readonly_wallet_error in
  Ret (verify_identity identity).

(** [IsolatedPayoutSigner::sign_and_broadcast]. *)
Definition wec_sign_and_broadcast (fuel : nat) (request : PayoutBatchRequest)
    : proc SignerCall (result (option BroadcastReceipt) SignerError) :=
  let+ execution := execute fuel (mkWecPayoutRequest request (cfg_source_account config) FundIronwood) in
  Ret (map_err map_portal_error (let? e := execution in Ok (we_receipt <$> e))).
End Pipeline.
