(* ===== verification/Settlement.v ===== *)
(** Crash-safe recovery of reserved payouts (crates/wcash-poold/src/settlement.rs): the coordinator
    that takes the oldest incomplete batch of a chain through the store's fences, the chain's
    signer and its broadcaster.  The traits are records of procedures; [PostgresStore] and the
    two chain boundaries are given over the calls of the payout worker. *)

From Stdlib Require Import ZArith Lia.
From stdpp Require Import prelude gmap sorting strings.
From S2P Require Import Prelude Wire Backend Hex LargestRemainder Pplns PayoutFees Ledger PayoutRequest StoreDb PayoutStore Configuration PayoutWatch SigningFence Proc WecSigner.
Open Scope Z_scope.

(** ** Failures *)

Inductive BoundaryFailure : Type := Retryable | Ambiguous | BoundaryRejected | Conflict | BoundaryInvariant.

#[global] Instance BoundaryFailure_eq_dec : EqDecision BoundaryFailure.
Proof. solve_decision. Defined.

Inductive SettlementError : Type :=
| Persistence (operation : string) (source : StoreError)
| Boundary (chain : Chain) (failure : BoundaryFailure)
| SettlementInvariant (what : string).

(** ** What a signer attests *)

Record RichPayoutExecution : Type := mkRichPayoutExecution {
  rx_batch_id : Uuid;
  rx_asset : Asset;
  rx_request_commitment : list Z;
  rx_transaction_id : string;
  rx_transaction_id_bytes : list Z;
  rx_output_total_zat : Z;
  rx_unsigned_digest : list Z;
  rx_signed_transaction : list Z;
  rx_network_fee_zat : Z
}.

Section Execution.
Context {env : StoreEnv}.

Definition validate_against (self : RichPayoutExecution) (request : PayoutBatchRequest)
    : result unit SettlementError :=
  let? total := map_err (fun _ => SettlementInvariant "store-authored signer request")
                  (PayoutBatchRequest_validate request) in
  let? commitment := map_err (fun _ => SettlementInvariant "store-authored request commitment")
                       (PayoutBatchRequest_commitment env_sha256 request) in
  if negb (rx_batch_id self =? rq_batch_id request)
     || bool_decide (rx_asset self <> rq_asset request)
     || bool_decide (rx_request_commitment self <> commitment)
     || negb (rx_output_total_zat self =? total)
     || all_zero (rx_unsigned_digest self)
     || all_zero (rx_transaction_id_bytes self)
     || bool_decide (rx_signed_transaction self = [])
     || (MAX_SIGNED_TRANSACTION_BYTES <? Z.of_nat (length (rx_signed_transaction self)))
     || (rx_network_fee_zat self =? 0)
     || (rq_maximum_network_fee_zat request <? rx_network_fee_zat self)
     || negb (String.eqb (hex_encode (rx_transaction_id_bytes self)) (rx_transaction_id self))
  then Err (SettlementInvariant "rich signer artifact") else Ok tt.
End Execution.

Definition as_store_artifact (self : RichPayoutExecution) (chain : Chain) : SignedPayoutArtifact :=
  mkSignedPayoutArtifact (rx_batch_id self) chain Signed
    (mkSignedFacts (rx_unsigned_digest self) (rx_transaction_id_bytes self)
       (rx_signed_transaction self) (rx_network_fee_zat self)).

(** The conversions from what the Wcash signer returns. *)
Definition rich_of_prepared (p : WecPreparedPayout) : RichPayoutExecution :=
  let receipt := wp_receipt p in
  mkRichPayoutExecution (rc_batch_id receipt) (rc_asset receipt) (rc_request_commitment receipt)
    (rc_transaction_id receipt) (wp_transaction_id_bytes p) (rc_output_total_zat receipt)
    (wp_unsigned_digest p) (wp_signed_transaction p) (wp_network_fee_zat p).

Definition rich_of_execution (x : WecPayoutExecution) : RichPayoutExecution :=
  let receipt := we_receipt x in
  mkRichPayoutExecution (rc_batch_id receipt) (rc_asset receipt) (rc_request_commitment receipt)
    (rc_transaction_id receipt) (we_transaction_id_bytes x) (rc_output_total_zat receipt)
    (we_unsigned_digest x) (we_signed_transaction x) (we_network_fee_zat x).

Definition map_wec_error (error : WecPayoutError) : BoundaryFailure :=
  match error with
  | WecWalletUnavailable | WecJournalUnavailable => Retryable
  | WecWalletAmbiguous | WecBroadcastAmbiguous | WecInterrupted => Ambiguous
  | WecWalletRejected | WecBroadcastRejected => BoundaryRejected
  | WecIdempotencyConflict => Conflict
  | WecInvalidRequest | WecWrongAsset | WecWrongNetwork | WecWrongAccount | WecWrongFundSource
  | WecUnsafeCredential | WecJournalCorrupt | WecWalletProtocolViolation => BoundaryInvariant
  end.

(** [WecExecutionSigner]: the Wcash signer on its blocking thread; [joined] is false when that
    thread panicked. *)
Definition wec_boundary {A B} (joined : bool) (convert : A -> B) (r : result A WecPayoutError)
    : result B BoundaryFailure :=
  if joined then map_err map_wec_error (let? a := r in Ok (convert a)) else Err Ambiguous.

Definition wec_request (source_account : Uuid) (request : PayoutBatchRequest) : WecPayoutRequest :=
  mkWecPayoutRequest request source_account FundIronwood.

(** The inner option is the fuel of the signer's loop. *)
Definition wec_prepare_exact `{StoreEnv} (joined : bool) (config : WecSignerConfig) (fuel : nat) (source_account : Uuid)
    (request : PayoutBatchRequest) : proc SignerCall (result (option RichPayoutExecution) BoundaryFailure) :=
  let+ r := prepare config fuel (wec_request source_account request) in
  Ret (wec_boundary joined (fmap rich_of_prepared) r).

Definition wec_recover_exact `{StoreEnv} (joined : bool) (config : WecSignerConfig) (source_account : Uuid)
    (request : PayoutBatchRequest) : proc SignerCall (result (option RichPayoutExecution) BoundaryFailure) :=
  let+ r := recover_prepared config (wec_request source_account request) in
  Ret (wec_boundary joined (fmap rich_of_prepared) r).

(** ** The traits *)

Record SettlementStore (E : Type -> Type) : Type := mkSettlementStore {
  oldest_resumable : Chain -> proc E (result (option PayoutBatch) SettlementError);
  authorize_signing : Uuid -> proc E (result PayoutBatchRequest SettlementError);
  signing_request : Uuid -> proc E (result PayoutBatchRequest SettlementError);
  cancel_rejected_signing : Uuid -> proc E (result unit SettlementError);
  mark_signed : SignedPayoutArtifact -> proc E (result unit SettlementError);
  signed_artifact : Uuid -> proc E (result (option SignedPayoutArtifact) SettlementError);
  authorize_broadcast : Uuid -> proc E (result SignedPayoutArtifact SettlementError);
  mark_broadcast : Uuid -> proc E (result unit SettlementError)
}.
Arguments oldest_resumable {E}.
Arguments authorize_signing {E}.
Arguments signing_request {E}.
Arguments cancel_rejected_signing {E}.
Arguments mark_signed {E}.
Arguments signed_artifact {E}.
Arguments authorize_broadcast {E}.
Arguments mark_broadcast {E}.

(** [RecoveredPayoutExecution] has the payout as its only field. *)
Record ExactExecutionSigner (E : Type -> Type) : Type := mkExactExecutionSigner {
  signer_chain : Chain;
  prepare_exact : PayoutBatchRequest -> proc E (result RichPayoutExecution BoundaryFailure);
  recover_exact : PayoutBatchRequest -> proc E (result (option RichPayoutExecution) BoundaryFailure)
}.
Arguments signer_chain {E}.
Arguments prepare_exact {E}.
Arguments recover_exact {E}.

Record ExactTransactionBroadcaster (E : Type -> Type) : Type := mkExactTransactionBroadcaster {
  broadcaster_chain : Chain;
  rebroadcast_exact : SignedPayoutArtifact -> proc E (result unit BoundaryFailure)
}.
Arguments broadcaster_chain {E}.
Arguments rebroadcast_exact {E}.

(** ** The coordinator *)

Inductive ResumeOutcome : Type :=
| Idle
| Broadcasted (batch_id : Uuid) (chain : Chain) (transaction_id : list Z)
| AwaitingConfirmation (batch_id : Uuid) (chain : Chain) (transaction_id : list Z)
| FrozenAfterReorg (batch_id : Uuid) (chain : Chain) (transaction_id : list Z)
| Terminal (batch_id : Uuid) (state : PayoutBatchState).

Inductive ReconciliationGate : Type := Safe | ExternalEffectPending.

Record ChainBoundary (E : Type -> Type) : Type := mkChainBoundary {
  cb_signer : ExactExecutionSigner E;
  cb_broadcaster : ExactTransactionBroadcaster E
}.
Arguments cb_signer {E}.
Arguments cb_broadcaster {E}.

Record SettlementOrchestrator (E : Type -> Type) : Type := mkSettlementOrchestrator {
  so_store : SettlementStore E;
  so_wec : ChainBoundary E;
  so_zec : option (ChainBoundary E)
}.
Arguments mkSettlementOrchestrator {E}.
Arguments so_store {E}.
Arguments so_wec {E}.
Arguments so_zec {E}.

Section Orchestrator.
Context {E : Type -> Type} {env : StoreEnv}.

Definition SettlementOrchestrator_new (store : SettlementStore E)
    (wec_signer : ExactExecutionSigner E) (wec_broadcaster : ExactTransactionBroadcaster E)
    (zec_signer : ExactExecutionSigner E) (zec_broadcaster : ExactTransactionBroadcaster E)
    : result (SettlementOrchestrator E) SettlementError :=
  if bool_decide (signer_chain wec_signer <> Wcash)
     || bool_decide (broadcaster_chain wec_broadcaster <> Wcash)
     || bool_decide (signer_chain zec_signer <> Zcash)
     || bool_decide (broadcaster_chain zec_broadcaster <> Zcash)
  then Err (SettlementInvariant "chain boundary binding")
  else Ok (mkSettlementOrchestrator store (mkChainBoundary _ wec_signer wec_broadcaster)
             (Some (mkChainBoundary _ zec_signer zec_broadcaster))).

Definition SettlementOrchestrator_new_wec_only (store : SettlementStore E)
    (wec_signer : ExactExecutionSigner E) (wec_broadcaster : ExactTransactionBroadcaster E)
    : result (SettlementOrchestrator E) SettlementError :=
  if bool_decide (signer_chain wec_signer <> Wcash)
     || bool_decide (broadcaster_chain wec_broadcaster <> Wcash)
  then Err (SettlementInvariant "chain boundary binding")
  else Ok (mkSettlementOrchestrator store (mkChainBoundary _ wec_signer wec_broadcaster) None).

Variable self : SettlementOrchestrator E.

Definition boundary (chain : Chain) : result (ChainBoundary E) SettlementError :=
  match chain with
  | Wcash => Ok (so_wec self)
  | Zcash => ok_or (so_zec self) (SettlementInvariant "automatic chain disabled")
  end.

(** The wallet's failure, attributed to the chain. *)
Definition at_boundary {A} (chain : Chain) (p : proc E (result A BoundaryFailure))
    : proc E (result A SettlementError) :=
  let+ r := p in Ret (map_err (Boundary chain) r).

Definition load_exact_artifact (batch : PayoutBatch)
    : proc E (result SignedPayoutArtifact SettlementError) :=
  let! found := signed_artifact (so_store self) (pb_id batch) in
  let! artifact := Ret (ok_or found (SettlementInvariant "missing signed payout artifact")) in
  let facts := ar_facts artifact in
  if negb (ar_batch_id artifact =? pb_id batch)
     || bool_decide (ar_chain artifact <> pb_chain batch)
     || bool_decide (ar_state artifact <> pb_state batch)
     || all_zero (sf_unsigned_digest facts)
     || all_zero (sf_transaction_id facts)
     || bool_decide (sf_signed_transaction facts = [])
     || (MAX_SIGNED_TRANSACTION_BYTES <? Z.of_nat (length (sf_signed_transaction facts)))
  then Ret (Err (SettlementInvariant "stored payout artifact"))
  else Ret (Ok artifact).

Definition rebroadcast_committed (batch : PayoutBatch) (artifact : SignedPayoutArtifact)
    (b : ChainBoundary E) : proc E (result ResumeOutcome SettlementError) :=
  if bool_decide (ar_state artifact <> Broadcast)
  then Ret (Err (SettlementInvariant "committed broadcast fence")) else
  do! at_boundary (pb_chain batch) (rebroadcast_exact (cb_broadcaster b) artifact) in
  Ret (Ok (AwaitingConfirmation (pb_id batch) (pb_chain batch) (sf_transaction_id (ar_facts artifact)))).

Definition submit_authorized (batch : PayoutBatch) (artifact : SignedPayoutArtifact)
    (b : ChainBoundary E) : proc E (result ResumeOutcome SettlementError) :=
  if bool_decide (ar_state artifact <> Broadcasting)
  then Ret (Err (SettlementInvariant "broadcast authorization fence")) else
  do! at_boundary (pb_chain batch) (rebroadcast_exact (cb_broadcaster b) artifact) in
  do! mark_broadcast (so_store self) (pb_id batch) in
  Ret (Ok (Broadcasted (pb_id batch) (pb_chain batch) (sf_transaction_id (ar_facts artifact)))).

Definition resume_broadcasting (batch : PayoutBatch) (b : ChainBoundary E)
    : proc E (result ResumeOutcome SettlementError) :=
  let! artifact := load_exact_artifact batch in
  submit_authorized batch artifact b.

Definition resume_signed (batch : PayoutBatch) (b : ChainBoundary E)
    : proc E (result ResumeOutcome SettlementError) :=
  let! artifact := authorize_broadcast (so_store self) (pb_id batch) in
  if negb (ar_batch_id artifact =? pb_id batch) || bool_decide (ar_chain artifact <> pb_chain batch)
  then Ret (Err (SettlementInvariant "authorized broadcast artifact")) else
  match ar_state artifact with
  | Broadcasting => submit_authorized batch artifact b
  | Broadcast => Ret (Ok (AwaitingConfirmation (pb_id batch) (pb_chain batch)
                            (sf_transaction_id (ar_facts artifact))))
  | _ => Ret (Err (SettlementInvariant "authorized broadcast artifact"))
  end.

Definition sign_and_submit (batch : PayoutBatch) (request : PayoutBatchRequest)
    (b : ChainBoundary E) : proc E (result ResumeOutcome SettlementError) :=
  if negb (rq_batch_id request =? pb_id batch)
     || bool_decide (rq_asset request <> asset_for_chain (pb_chain batch))
  then Ret (Err (SettlementInvariant "signer request batch binding")) else
  let+ prepared := prepare_exact (cb_signer b) request in
  match prepared with
  | Err BoundaryRejected =>
      do! cancel_rejected_signing (so_store self) (pb_id batch) in
      Ret (Ok (Terminal (pb_id batch) Cancelled))
  | Err failure => Ret (Err (Boundary (pb_chain batch) failure))
  | Ok execution =>
      do! Ret (validate_against execution request) in
      do! mark_signed (so_store self) (as_store_artifact execution (pb_chain batch)) in
      resume_signed (in_state batch Signed) b
  end.

Definition resume_signing (batch : PayoutBatch) (b : ChainBoundary E)
    : proc E (result ResumeOutcome SettlementError) :=
  let! request := signing_request (so_store self) (pb_id batch) in
  sign_and_submit batch request b.

Definition resume_draft (batch : PayoutBatch) (b : ChainBoundary E)
    : proc E (result ResumeOutcome SettlementError) :=
  let! request := authorize_signing (so_store self) (pb_id batch) in
  sign_and_submit (in_state batch Signing) request b.

Definition resume_next (chain : Chain) : proc E (result ResumeOutcome SettlementError) :=
  let! found := oldest_resumable (so_store self) chain in
  match found with
  | None => Ret (Ok Idle)
  | Some batch =>
      if bool_decide (pb_chain batch <> chain)
      then Ret (Err (SettlementInvariant "resumable batch chain")) else
      let! b := Ret (boundary chain) in
      match pb_state batch with
      | Draft => resume_draft batch b
      | Signing => resume_signing batch b
      | Signed => resume_signed batch b
      | Broadcasting => resume_broadcasting batch b
      | Broadcast =>
          let! artifact := load_exact_artifact batch in
          rebroadcast_committed batch artifact b
      | Reorged =>
          let! artifact := load_exact_artifact batch in
          Ret (Ok (FrozenAfterReorg (pb_id batch) chain (sf_transaction_id (ar_facts artifact))))
      | Confirmed | Cancelled | ExpiryPending | Expired =>
          Ret (Ok (Terminal (pb_id batch) (pb_state batch)))
      end
  end.

(** The [Signing] arm of the start-up recovery. *)
Definition recover_signing (chain : Chain) (batch : PayoutBatch) (b : ChainBoundary E)
    : proc E (result ReconciliationGate SettlementError) :=
  let! request := signing_request (so_store self) (pb_id batch) in
  if negb (rq_batch_id request =? pb_id batch)
     || bool_decide (rq_asset request <> asset_for_chain (pb_chain batch))
  then Ret (Err (SettlementInvariant "signer request batch binding")) else
  let! recovered := at_boundary chain (recover_exact (cb_signer b) request) in
  let finish payout :=
    do! Ret (validate_against payout request) in
    do! mark_signed (so_store self) (as_store_artifact payout chain) in
    Ret (Ok ExternalEffectPending) in
  match recovered with
  | Some payout => finish payout
  | None =>
      let+ prepared := prepare_exact (cb_signer b) request in
      match prepared with
      | Ok payout => finish payout
      | Err BoundaryRejected =>
          do! cancel_rejected_signing (so_store self) (pb_id batch) in Ret (Ok Safe)
      | Err failure => Ret (Err (Boundary chain failure))
      end
  end.

Definition recover_before_wallet_reconciliation (chain : Chain)
    : proc E (result ReconciliationGate SettlementError) :=
  let! found := oldest_resumable (so_store self) chain in
  match found with
  | None => Ret (Ok Safe)
  | Some batch =>
      if bool_decide (pb_chain batch <> chain)
      then Ret (Err (SettlementInvariant "resumable batch chain")) else
      let! b := Ret (boundary chain) in
      match pb_state batch with
      | Draft => Ret (Ok Safe)
      | Signing => recover_signing chain batch b
      | Signed => Ret (Ok ExternalEffectPending)
      | Broadcasting => do! resume_broadcasting batch b in Ret (Ok ExternalEffectPending)
      | Broadcast => Ret (Ok ExternalEffectPending)
      | Reorged | Confirmed | ExpiryPending | Expired | Cancelled =>
          Ret (Err (SettlementInvariant "startup payout reconciliation state"))
      end
  end.
End Orchestrator.
