(* ===== verification/PayoutRuntime.v ===== *)
(** The automatic payout lifecycle of one chain (crates/wcash-poold/src/payout_runtime.rs): the
    validation of wallet and validator responses, one pass of the worker, the deterministic
    identity of a batch and the bounded retry loop. *)

From Stdlib Require Import ZArith Lia.
From stdpp Require Import prelude gmap sorting strings.
From S2P Require Import Prelude Wire Backend Hex LargestRemainder Pplns PayoutFees Ledger PayoutRequest StoreDb PayoutStore Configuration PayoutWatch SigningFence Proc Settlement.
Open Scope Z_scope.

(** ** Failures *)

Inductive LifecycleStoreFailure : Type :=
| LcNoPayableBalances | LcDeferred | LcUnavailable | LcFrozen | LcInvariant.

#[global] Instance LifecycleStoreFailure_eq_dec : EqDecision LifecycleStoreFailure.
Proof. solve_decision. Defined.

Inductive ObservationFailure : Type := ObservationUnavailable | ObservationInvariant.

Inductive PayoutRuntimeError : Type :=
| InvalidConfiguration
| StoreUnavailable (chain : Chain) (operation : string)
| AuthorityUnavailable (chain : Chain) (operation : string)
| SettlementFailed (chain : Chain) (source : SettlementError)
| RuntimeFrozen (chain : Chain)
| RuntimeInvariant (chain : Chain) (operation : string)
| FailureBudgetExhausted (chain : Chain) (attempts : Z).

Definition classify_store_error (error : StoreError) : LifecycleStoreFailure :=
  match error with
  | NoPayableBalances => LcNoPayableBalances
  | WalletReconciliationBlocked | WalletReconciliationPending
  | PrematurePayoutConfirmation _ _ => LcDeferred
  | InvalidWalletObservation | WalletReconciliationStale | PayoutRandomnessUnavailable
  | Database _ => LcUnavailable
  | PayoutsFrozen _ | CollectorReconciliationFailed => LcFrozen
  | _ => LcInvariant
  end.

Definition is_retryable (e : PayoutRuntimeError) : bool :=
  match e with
  | StoreUnavailable _ _ | AuthorityUnavailable _ _ => true
  | SettlementFailed _ source =>
      match source with
      | Persistence _ _ => true
      | Boundary _ failure => bool_decide (failure = Retryable) || bool_decide (failure = Ambiguous)
      | SettlementInvariant _ => false
      end
  | InvalidConfiguration | RuntimeFrozen _ | RuntimeInvariant _ _ | FailureBudgetExhausted _ _ => false
  end.

(** ** Validator responses *)

Inductive AuthorityPayoutState : Type :=
| AuthorityPending
| AuthorityMined (confirmation : PayoutConfirmation)
| AuthorityReorged (evidence : PayoutReorg).

Record AuthorityPayoutObservation : Type := mkAuthorityPayoutObservation {
  ao_batch_id : Uuid;
  ao_transaction_id : list Z;
  ao_state : AuthorityPayoutState
}.

Record AuthoritySnapshot : Type := mkAuthoritySnapshot {
  as_chain : Chain;
  as_best_tip_hash : list Z;
  as_best_tip_height : Z;
  as_observed_at : Z;
  as_payouts : list AuthorityPayoutObservation
}.

Definition validate_wallet_observation (chain : Chain) (observation : WalletObservation)
    (snapshot : AuthoritySnapshot) : result unit PayoutRuntimeError :=
  if bool_decide (wo_chain observation <> chain)
     || all_zero (wo_wallet_state_digest observation)
     || all_zero (wo_best_tip_hash observation)
     || (wo_best_tip_height observation =? 0)
     || (wo_observed_at observation =? 0)
     || (wo_valid_until observation <=? wo_observed_at observation)
  then Err (RuntimeInvariant chain "wallet_observation") else
  if bool_decide (wo_best_tip_hash observation <> as_best_tip_hash snapshot)
     || negb (wo_best_tip_height observation =? as_best_tip_height snapshot)
  then Err (AuthorityUnavailable chain "wallet_validator_tip_race") else Ok tt.

Definition validate_resume_outcome (chain : Chain) (outcome : ResumeOutcome)
    : result unit PayoutRuntimeError :=
  let valid := match outcome with
               | Idle => true
               | Broadcasted batch_id outcome_chain transaction_id
               | AwaitingConfirmation batch_id outcome_chain transaction_id
               | FrozenAfterReorg batch_id outcome_chain transaction_id =>
                   negb (Uuid_is_nil batch_id) && bool_decide (outcome_chain = chain)
                   && negb (all_zero transaction_id)
               | Terminal batch_id _ => negb (Uuid_is_nil batch_id)
               end in
  if valid then Ok tt else Err (RuntimeInvariant chain "settlement_outcome_binding").

Definition validate_confirmation (chain : Chain) (snapshot : AuthoritySnapshot)
    (confirmation : PayoutConfirmation) : result unit PayoutRuntimeError :=
  let expected := checked_sub (as_best_tip_height snapshot) (pc_block_height confirmation)
                    ≫= (fun depth => checked_add U32_MAX depth 1) in
  if all_zero (pc_block_hash confirmation)
     || (pc_block_height confirmation =? 0)
     || bool_decide (expected <> Some (pc_confirmations confirmation))
  then Err (RuntimeInvariant chain "payout_confirmation_evidence") else Ok tt.

(** The first loop of [validate_authority_snapshot]. *)
Fixpoint index_watches (chain : Chain) (watches : list PayoutWatch) (requested : gmap Uuid PayoutWatch)
    : result (gmap Uuid PayoutWatch) PayoutRuntimeError :=
  match watches with
  | [] => Ok requested
  | watch :: rest =>
      if bool_decide (pw_chain watch <> chain)
         || Uuid_is_nil (pw_batch_id watch)
         || all_zero (pw_transaction_id watch)
         || negb (bool_decide (pw_state watch = Broadcast) || bool_decide (pw_state watch = Confirmed))
         || negb (Bool.eqb (bool_decide (pw_state watch = Confirmed))
                           (bool_decide (is_Some (pw_prior_confirmation watch))))
         || bool_decide (is_Some (requested !! pw_batch_id watch))
      then Err (RuntimeInvariant chain "payout_watch")
      else index_watches chain rest (<[pw_batch_id watch := watch]> requested)
  end.

(** What one response may say of the watch it answers. *)
Definition validate_response (chain : Chain) (snapshot : AuthoritySnapshot) (watch : PayoutWatch)
    (response : AuthorityPayoutObservation) : result unit PayoutRuntimeError :=
  match pw_state watch, ao_state response with
  | Broadcast, AuthorityPending => Ok tt
  | Broadcast, AuthorityMined confirmation | Confirmed, AuthorityMined confirmation =>
      let? _ := validate_confirmation chain snapshot confirmation in
      match pw_prior_confirmation watch with
      | Some prior =>
          if bool_decide (pc_block_hash confirmation <> pc_block_hash prior)
             || negb (pc_block_height confirmation =? pc_block_height prior)
             || (pc_confirmations confirmation <? pc_confirmations prior)
          then Err (RuntimeInvariant chain "confirmed_payout_continuity") else Ok tt
      | None => Ok tt
      end
  | Confirmed, AuthorityReorged evidence =>
      if bool_decide (pw_prior_confirmation watch <> Some (rg_prior_confirmation evidence))
         || bool_decide (rg_replacement_tip_hash evidence <> as_best_tip_hash snapshot)
         || negb (rg_replacement_tip_height evidence =? as_best_tip_height snapshot)
         || negb (rg_observed_at evidence =? as_observed_at snapshot)
      then Err (RuntimeInvariant chain "payout_reorg_evidence") else Ok tt
  | _, _ => Err (RuntimeInvariant chain "validator_state_transition")
  end.

(** The second loop. *)
Fixpoint index_responses (chain : Chain) (snapshot : AuthoritySnapshot)
    (requested : gmap Uuid PayoutWatch) (payouts : list AuthorityPayoutObservation)
    (responses : gmap Uuid AuthorityPayoutObservation) (transaction_ids : gset (list Z))
    : result (gmap Uuid AuthorityPayoutObservation) PayoutRuntimeError :=
  match payouts with
  | [] => Ok responses
  | response :: rest =>
      let? watch := ok_or (requested !! ao_batch_id response)
                      (RuntimeInvariant chain "validator_result_set") in
      if bool_decide (ao_transaction_id response <> pw_transaction_id watch)
         || bool_decide (ao_transaction_id response ∈ transaction_ids)
         || bool_decide (is_Some (responses !! ao_batch_id response))
      then Err (RuntimeInvariant chain "validator_result_binding") else
      let? _ := validate_response chain snapshot watch response in
      index_responses chain snapshot requested rest (<[ao_batch_id response := response]> responses)
        ({[ao_transaction_id response]} ∪ transaction_ids)
  end.

Definition validate_authority_snapshot (chain : Chain) (watches : list PayoutWatch)
    (snapshot : AuthoritySnapshot)
    : result (gmap Uuid AuthorityPayoutObservation) PayoutRuntimeError :=
  if bool_decide (as_chain snapshot <> chain)
     || all_zero (as_best_tip_hash snapshot)
     || (as_best_tip_height snapshot =? 0)
     || (as_observed_at snapshot =? 0)
     || negb (length (as_payouts snapshot) =? length watches)%nat
  then Err (RuntimeInvariant chain "validator_snapshot") else
  let? requested := index_watches chain watches ∅ in
  index_responses chain snapshot requested (as_payouts snapshot) ∅ ∅.

(** The counters of [validate_watch_page]'s loop. *)
Record PageCount : Type := mkPageCount {
  pg_broadcast_count : Z;
  pg_confirmed_count : Z;
  pg_last_confirmed : option Uuid;
  pg_reached_confirmed : bool
}.

Fixpoint count_page (chain : Chain) (watches : list PayoutWatch) (n : PageCount)
    : result PageCount PayoutRuntimeError :=
  match watches with
  | [] => Ok n
  | watch :: rest =>
      if bool_decide (pw_chain watch <> chain)
      then Err (RuntimeInvariant chain "payout_watch_page") else
      match pw_state watch with
      | Broadcast =>
          if pg_reached_confirmed n then Err (RuntimeInvariant chain "payout_watch_page")
          else count_page chain rest (mkPageCount (pg_broadcast_count n + 1) (pg_confirmed_count n)
                                        (pg_last_confirmed n) false)
      | Confirmed =>
          count_page chain rest (mkPageCount (pg_broadcast_count n) (pg_confirmed_count n + 1)
                                   (Some (pw_batch_id watch)) true)
      | _ => Err (RuntimeInvariant chain "payout_watch_page")
      end
  end.

Definition validate_watch_page (chain : Chain) (maximum : Z) (page : PayoutWatchPage)
    : result unit PayoutRuntimeError :=
  let invalid := RuntimeInvariant chain "payout_watch_page" in
  let? n := count_page chain (wp_watches page) (mkPageCount 0 0 None false) in
  if (maximum <? pg_broadcast_count n) || (maximum <? pg_confirmed_count n) then Err invalid else
  match wp_confirmed_cursor page, pg_last_confirmed n with
  | None, None => Ok tt
  | Some cursor, Some last =>
      if negb (Uuid_is_nil (wc_checked_through_batch_id cursor))
         && (wc_checked_through_batch_id cursor =? last)
         && negb (match wc_previous_batch_id cursor with Some b => Uuid_is_nil b | None => false end)
      then Ok tt else Err invalid
  | _, _ => Err invalid
  end.

(** ** The identity of a batch *)

Definition IDEMPOTENCY_DOMAIN : list Z := str_bytes "ZECWEC-PAYOUT-BATCH-IDEMPOTENCY-V1" ++ [0].

Definition batch_key_preimage (namespace : Uuid) (chain : Chain) (reconciliation : WalletReconciliation)
    : list Z :=
  IDEMPOTENCY_DOMAIN ++ Uuid_as_bytes namespace ++ [match chain with Wcash => 0 | Zcash => 1 end]
  ++ Uuid_as_bytes (rec_id reconciliation) ++ rec_ledger_root reconciliation
  ++ be_bytes 8 (rec_ledger_transaction_count reconciliation).

(** The version and variant bits. *)
Definition uuid_v8 (digest : list Z) : Uuid :=
  let bytes := take 16 digest in
  let bytes := alter (fun b => Z.lor (Z.land b 15) 128) 6%nat bytes in
  be_val (alter (fun b => Z.lor (Z.land b 63) 128) 8%nat bytes).

Definition deterministic_batch_key (sha256 : list Z -> list Z) (namespace : Uuid) (chain : Chain)
    (reconciliation : WalletReconciliation) : Uuid :=
  uuid_v8 (sha256 (batch_key_preimage namespace chain reconciliation)).

(** ** Scheduling *)

(** A [Duration] in nanoseconds. *)
Definition DURATION_MAX : Z := U64_MAX * 1000000000 + 999999999.
Definition from_secs (s : Z) : Z := s * 1000000000.

Record PayoutLoopPolicy : Type := mkPayoutLoopPolicy {
  poll_interval : Z;
  retry_initial : Z;
  retry_maximum : Z;
  maximum_consecutive_failures : Z;
  maximum_confirmation_watches : Z
}.

Definition PayoutLoopPolicy_validate (self : PayoutLoopPolicy)
    : result PayoutLoopPolicy PayoutRuntimeError :=
  if (poll_interval self =? 0)
     || (from_secs (5 * 60) <? poll_interval self)
     || (retry_initial self =? 0)
     || (retry_maximum self <? retry_initial self)
     || (from_secs (5 * 60) <? retry_maximum self)
     || (maximum_consecutive_failures self =? 0)
     || (100 <? maximum_consecutive_failures self)
     || negb ((1 <=? maximum_confirmation_watches self) && (maximum_confirmation_watches self <=? 10000))
  then Err InvalidConfiguration else Ok self.

Definition retry_delay (self : PayoutLoopPolicy) (consecutive_failures : Z) : Z :=
  let shifts := Z.min (saturating_sub consecutive_failures 1) 31 in
  Z.min (default (retry_maximum self)
           (checked_mul DURATION_MAX (retry_initial self) (Z.shiftl 1 shifts)))
        (retry_maximum self).

(** ** The runtime *)

Record PayoutLifecycleStore (E : Type -> Type) : Type := mkPayoutLifecycleStore {
  record_reconciliation : WalletObservation -> proc E (result WalletReconciliation LifecycleStoreFailure);
  create_batch : Chain -> Uuid -> Uuid -> proc E (result PayoutBatch LifecycleStoreFailure);
  payout_watches : Chain -> Z -> proc E (result PayoutWatchPage LifecycleStoreFailure);
  advance_confirmed_watch_cursor :
    Chain -> ConfirmedPayoutWatchCursor -> proc E (result unit LifecycleStoreFailure);
  confirm : Uuid -> PayoutConfirmation -> proc E (result unit LifecycleStoreFailure);
  mark_reorged : Uuid -> PayoutReorg -> proc E (result unit LifecycleStoreFailure)
}.
Arguments record_reconciliation {E}.
Arguments create_batch {E}.
Arguments payout_watches {E}.
Arguments advance_confirmed_watch_cursor {E}.
Arguments confirm {E}.
Arguments mark_reorged {E}.

Record WalletObservationSource (E : Type -> Type) : Type := mkWalletObservationSource {
  source_chain : Chain;
  observe : proc E (result WalletObservation ObservationFailure)
}.
Arguments source_chain {E}.
Arguments observe {E}.

Record PayoutConfirmationAuthority (E : Type -> Type) : Type := mkPayoutConfirmationAuthority {
  authority_chain : Chain;
  snapshot : list PayoutWatch -> proc E (result AuthoritySnapshot ObservationFailure)
}.
Arguments authority_chain {E}.
Arguments snapshot {E}.

Record PayoutTick : Type := mkPayoutTick {
  watches_checked : Z;
  confirmations_recorded : Z;
  batch_created : option Uuid;
  settlement : ResumeOutcome
}.

(** [ar_settlement] is the [SettlementDriver], [ar_expiry_recovery] the optional
    [PayoutExpiryDriver]. *)
Record AutomaticPayoutRuntime (E : Type -> Type) : Type := mkAutomaticPayoutRuntime {
  rt_chain : Chain;
  rt_idempotency_namespace : Uuid;
  rt_policy : PayoutLoopPolicy;
  rt_store : PayoutLifecycleStore E;
  rt_wallet : WalletObservationSource E;
  rt_authority : PayoutConfirmationAuthority E;
  rt_settlement : Chain -> proc E (result ResumeOutcome SettlementError);
  rt_expiry_recovery : option (proc E (result bool PayoutRuntimeError))
}.
Arguments mkAutomaticPayoutRuntime {E}.
Arguments rt_chain {E}.
Arguments rt_idempotency_namespace {E}.
Arguments rt_policy {E}.
Arguments rt_store {E}.
Arguments rt_wallet {E}.
Arguments rt_authority {E}.
Arguments rt_settlement {E}.
Arguments rt_expiry_recovery {E}.

(** The totals of a freshly created batch. *)
Definition checked_sum (l : list Z) : option Z :=
  foldl (fun acc x => acc ≫= (fun sum => checked_add U64_MAX sum x)) (Some 0) l.

Definition derived_liability_total (outputs : list PayoutInstruction) : option Z :=
  foldl (fun acc o => acc ≫= (fun sum =>
           if amount_zat o <=? liability_amount_zat o
           then checked_add U64_MAX sum (liability_amount_zat o) else None)) (Some 0) outputs.

Definition created_batch_bound (chain : Chain) (reconciliation : WalletReconciliation)
    (batch : PayoutBatch) : bool :=
  negb (bool_decide (pb_chain batch <> chain)
        || negb (pb_reconciliation_id batch =? rec_id reconciliation)
        || Uuid_is_nil (pb_id batch)
        || bool_decide (pb_state batch <> Draft)
        || (pb_policy_version batch =? 0)
        || all_zero (pb_ledger_root batch)
        || (pb_ledger_sequence_cutoff batch =? 0)
        || (pb_miner_total_zat batch =? 0)
        || (pb_payout_total_zat batch =? 0)
        || (pb_maximum_network_fee_zat batch =? 0)
        || bool_decide (checked_add U64_MAX (pb_payout_total_zat batch) (pb_maximum_network_fee_zat batch)
                        <> Some (pb_miner_total_zat batch))
        || bool_decide (checked_sum (amount_zat <$> pb_outputs batch) <> Some (pb_payout_total_zat batch))
        || bool_decide (derived_liability_total (pb_outputs batch) <> Some (pb_miner_total_zat batch))
        || bool_decide (pb_outputs batch = [])).

Section Runtime.
Context {E : Type -> Type} {env : StoreEnv}.

Definition AutomaticPayoutRuntime_new (chain : Chain) (idempotency_namespace : Uuid)
    (policy : PayoutLoopPolicy) (store : PayoutLifecycleStore E) (wallet : WalletObservationSource E)
    (authority : PayoutConfirmationAuthority E)
    (settlement : Chain -> proc E (result ResumeOutcome SettlementError))
    : result (AutomaticPayoutRuntime E) PayoutRuntimeError :=
  let? policy := PayoutLoopPolicy_validate policy in
  if Uuid_is_nil idempotency_namespace || bool_decide (source_chain wallet <> chain)
     || bool_decide (authority_chain authority <> chain)
  then Err InvalidConfiguration
  else Ok (mkAutomaticPayoutRuntime chain idempotency_namespace policy store wallet authority
             settlement None).

Definition with_expiry_recovery (self : AutomaticPayoutRuntime E)
    (recovery : proc E (result bool PayoutRuntimeError))
    : result (AutomaticPayoutRuntime E) PayoutRuntimeError :=
  if bool_decide (rt_chain self <> Wcash) then Err InvalidConfiguration
  else Ok (mkAutomaticPayoutRuntime (rt_chain self) (rt_idempotency_namespace self) (rt_policy self)
             (rt_store self) (rt_wallet self) (rt_authority self) (rt_settlement self) (Some recovery)).

Variable self : AutomaticPayoutRuntime E.

Definition store_error (operation : string) (failure : LifecycleStoreFailure) : PayoutRuntimeError :=
  match failure with
  | LcFrozen => RuntimeFrozen (rt_chain self)
  | LcInvariant | LcNoPayableBalances => RuntimeInvariant (rt_chain self) operation
  | LcDeferred | LcUnavailable => StoreUnavailable (rt_chain self) operation
  end.

Definition observation_error (operation : string) (failure : ObservationFailure) : PayoutRuntimeError :=
  match failure with
  | ObservationUnavailable => AuthorityUnavailable (rt_chain self) operation
  | ObservationInvariant => RuntimeInvariant (rt_chain self) operation
  end.

(** A step whose error is classified on the way out. *)
Definition mapping {A X Y} (wrap : X -> Y) (p : proc E (result A X)) : proc E (result A Y) :=
  let+ r := p in Ret (map_err wrap r).

Definition resume_settlement : proc E (result ResumeOutcome PayoutRuntimeError) :=
  mapping (SettlementFailed (rt_chain self)) (rt_settlement self (rt_chain self)).

Fixpoint apply_observations (watches : list PayoutWatch)
    (observations : gmap Uuid AuthorityPayoutObservation) (confirmations : Z)
    : proc E (result Z PayoutRuntimeError) :=
  match watches with
  | [] => Ret (Ok confirmations)
  | watch :: rest =>
      let! observation := Ret (ok_or (observations !! pw_batch_id watch)
                                 (RuntimeInvariant (rt_chain self) "validator_result_set")) in
      match pw_state watch, ao_state observation with
      | Broadcast, AuthorityPending => apply_observations rest observations confirmations
      | Broadcast, AuthorityMined evidence =>
          let+ confirmed := confirm (rt_store self) (pw_batch_id watch) evidence in
          match confirmed with
          | Ok _ => apply_observations rest observations (confirmations + 1)
          | Err LcDeferred => apply_observations rest observations confirmations
          | Err failure => Ret (Err (store_error "confirm_payout" failure))
          end
      | Confirmed, AuthorityMined _ => apply_observations rest observations confirmations
      | Confirmed, AuthorityReorged evidence =>
          do! mapping (store_error "mark_reorged") (mark_reorged (rt_store self) (pw_batch_id watch) evidence) in
          Ret (Err (RuntimeFrozen (rt_chain self)))
      | _, _ => Ret (Err (RuntimeInvariant (rt_chain self) "validator_state_transition"))
      end
  end.

Definition apply_snapshot (watches : list PayoutWatch) (s : AuthoritySnapshot)
    : proc E (result Z PayoutRuntimeError) :=
  let! observations := Ret (validate_authority_snapshot (rt_chain self) watches s) in
  apply_observations watches observations 0.

(** The second half of a pass: a fresh reconciliation, its batch, and the batch's settlement. *)
Definition pay_fresh_balances (checked confirmations : Z) (s : AuthoritySnapshot)
    : proc E (result PayoutTick PayoutRuntimeError) :=
  let idle := mkPayoutTick checked confirmations None Idle in
  let! observation := mapping (observation_error "wallet_observe") (observe (rt_wallet self)) in
  do! Ret (validate_wallet_observation (rt_chain self) observation s) in
  let+ recorded := record_reconciliation (rt_store self) observation in
  match recorded with
  | Err LcDeferred => Ret (Ok idle)
  | Err failure => Ret (Err (store_error "record_reconciliation" failure))
  | Ok reconciliation =>
      if bool_decide (rec_chain reconciliation <> rt_chain self)
         || Uuid_is_nil (rec_id reconciliation)
         || bool_decide (rec_best_tip_hash reconciliation <> wo_best_tip_hash observation)
         || negb (rec_best_tip_height reconciliation =? wo_best_tip_height observation)
      then Ret (Err (RuntimeInvariant (rt_chain self) "reconciliation_binding")) else
      let key := deterministic_batch_key env_sha256 (rt_idempotency_namespace self) (rt_chain self)
                   reconciliation in
      let+ created := create_batch (rt_store self) (rt_chain self) key (rec_id reconciliation) in
      match created with
      | Err LcNoPayableBalances | Err LcDeferred => Ret (Ok idle)
      | Err failure => Ret (Err (store_error "create_batch" failure))
      | Ok batch =>
          if negb (created_batch_bound (rt_chain self) reconciliation batch)
          then Ret (Err (RuntimeInvariant (rt_chain self) "created_batch_binding")) else
          let! resumed := resume_settlement in
          do! Ret (validate_resume_outcome (rt_chain self) resumed) in
          let resumes_created_batch :=
            match resumed with
            | Broadcasted batch_id chain _ =>
                (batch_id =? pb_id batch) && bool_decide (chain = rt_chain self)
            | Terminal batch_id Cancelled => batch_id =? pb_id batch
            | _ => false
            end in
          if negb resumes_created_batch
          then Ret (Err (RuntimeInvariant (rt_chain self) "created_batch_resume_binding"))
          else Ret (Ok (mkPayoutTick checked confirmations (Some (pb_id batch)) resumed))
      end
  end.

(** A pass once the expiry gate is open. *)
Definition settle_pass : proc E (result PayoutTick PayoutRuntimeError) :=
  let maximum := maximum_confirmation_watches (rt_policy self) in
  let! page := mapping (store_error "list_watches") (payout_watches (rt_store self) (rt_chain self) maximum) in
  do! Ret (validate_watch_page (rt_chain self) maximum page) in
  let watches := wp_watches page in
  let! s := mapping (observation_error "validator_snapshot") (snapshot (rt_authority self) watches) in
  let! confirmations := apply_snapshot watches s in
  do! match wp_confirmed_cursor page with
      | Some cursor => mapping (store_error "advance_watch_cursor")
                         (advance_confirmed_watch_cursor (rt_store self) (rt_chain self) cursor)
      | None => Ret (Ok tt)
      end in
  let! resumed := resume_settlement in
  do! Ret (validate_resume_outcome (rt_chain self) resumed) in
  let checked := Z.of_nat (length watches) in
  match resumed with
  | Broadcasted _ _ _ | AwaitingConfirmation _ _ _ =>
      Ret (Ok (mkPayoutTick checked confirmations None resumed))
  | FrozenAfterReorg _ _ _ => Ret (Err (RuntimeFrozen (rt_chain self)))
  | Terminal _ _ => Ret (Err (RuntimeInvariant (rt_chain self) "terminal_resumable_batch"))
  | Idle => pay_fresh_balances checked confirmations s
  end.

Definition tick : proc E (result PayoutTick PayoutRuntimeError) :=
  match rt_expiry_recovery self with
  | Some recover =>
      let! ready := recover in
      if (ready : bool) then settle_pass else Ret (Ok (mkPayoutTick 0 0 None Idle))
  | None => settle_pass
  end.

(** What the loop does with the result of a pass: go on after a delay with a failure count, or
    return. *)
Definition after_tick (consecutive_failures : Z) (r : result PayoutTick PayoutRuntimeError)
    : result (Z * Z) PayoutRuntimeError :=
  match r with
  | Ok _ => Ok (0, poll_interval (rt_policy self))
  | Err error =>
      if is_retryable error then
        let failures := Z.min (consecutive_failures + 1) U32_MAX in
        if maximum_consecutive_failures (rt_policy self) <=? failures
        then Err (FailureBudgetExhausted (rt_chain self) failures)
        else Ok (failures, retry_delay (rt_policy self) failures)
      else Err error
  end.

(** [run] for at most [fuel] passes; [shutdown] reads the flag, [sleep_or_shutdown] waits for the
    delay or a change of the flag and says whether to return. *)
Fixpoint run_loop (shutdown : proc E bool) (sleep_or_shutdown : Z -> proc E bool) (fuel : nat)
    (consecutive_failures : Z) : proc E (option (result unit PayoutRuntimeError)) :=
  match fuel with
  | O => Ret None
  | S fuel' =>
      let+ stop := shutdown in
      if (stop : bool) then Ret (Some (Ok tt)) else
      let+ r := tick in
      match after_tick consecutive_failures r with
      | Err e => Ret (Some (Err e))
      | Ok (failures, delay) =>
          let+ stopped := sleep_or_shutdown delay in
          if (stopped : bool) then Ret (Some (Ok tt))
          else run_loop shutdown sleep_or_shutdown fuel' failures
      end
  end.
End Runtime.
