(* ===== verification/PayoutExpiry.v ===== *)
(** Recovery of expired Wcash payouts (crates/wcash-poold/src/payout_expiry.rs): one bounded pass
    that re-inspects signed artifacts against the signer, asks the validator for their fate, and
    holds, confirms or releases them only on evidence bound to the exact bytes. *)

From Stdlib Require Import ZArith Lia.
From stdpp Require Import prelude gmap sorting strings.
From S2P Require Import Prelude Wire Backend Hex LargestRemainder Pplns PayoutFees Ledger PayoutRequest StoreDb PayoutStore Configuration PayoutWatch SigningFence Proc WecSigner Settlement PayoutRuntime.
Open Scope Z_scope.

Definition MAX_EXPIRY_CANDIDATES : Z := 2.
Definition WCASH_EXPIRY_FINALITY_DEPTH : Z := 1001.

Definition invariant (operation : string) : PayoutRuntimeError := RuntimeInvariant Wcash operation.

Definition store_failure (operation : string) (error : StoreError) : PayoutRuntimeError :=
  match classify_store_error error with
  | LcFrozen => RuntimeFrozen Wcash
  | LcInvariant | LcNoPayableBalances => invariant operation
  | _ => StoreUnavailable Wcash operation
  end.

Record ExpiryWatch : Type := mkExpiryWatch {
  xw_candidate : PayoutExpiryCandidate;
  xw_expiry_height : Z
}.

Inductive ExpiryChainState : Type :=
| Unexpired
| Missing (evidence : PayoutExpiryEvidence)
| ExpiredOrphan (evidence : PayoutExpiryEvidence)
| ExpiryMined (confirmation : PayoutConfirmation)
| Unresolved
| FinalMissing (evidence : PayoutExpiryEvidence).

Record ExpiryObservation : Type := mkExpiryObservation {
  xo_batch_id : Uuid;
  xo_state : ExpiryChainState
}.

Record InspectedExpiry : Type := mkInspectedExpiry {
  ie_transaction_id : list Z;
  ie_raw_digest : list Z;
  ie_request_commitment : list Z;
  ie_expiry_height : Z;
  ie_unsigned_digest : list Z;
  ie_network_fee_zat : Z
}.

Record RecoveryProgress : Type := mkRecoveryProgress {
  after_held : option Uuid;
  inspected : gmap Uuid InspectedExpiry
}.

Definition RecoveryProgress_default : RecoveryProgress := mkRecoveryProgress None ∅.

(** The store, the inspector, the authority, and the cell behind the mutex. *)
Record WecPayoutExpiryRecovery (E : Type -> Type) : Type := mkWecPayoutExpiryRecovery {
  xr_candidates : option Uuid -> proc E (result (list PayoutExpiryCandidate) PayoutRuntimeError);
  xr_hold : Uuid -> PayoutExpiryEvidence -> proc E (result unit PayoutRuntimeError);
  xr_expire : Uuid -> PayoutExpiryEvidence -> proc E (result unit PayoutRuntimeError);
  xr_confirm : Uuid -> PayoutConfirmation -> proc E (result bool PayoutRuntimeError);
  xr_inspect : PayoutExpiryCandidate -> proc E (result WecPreparedPayout PayoutRuntimeError);
  xr_expiry_snapshot : list ExpiryWatch -> proc E (result (list ExpiryObservation) ObservationFailure);
  xr_progress : proc E RecoveryProgress;
  xr_set_progress : RecoveryProgress -> proc E unit
}.
Arguments xr_candidates {E}.
Arguments xr_hold {E}.
Arguments xr_expire {E}.
Arguments xr_confirm {E}.
Arguments xr_inspect {E}.
Arguments xr_expiry_snapshot {E}.
Arguments xr_progress {E}.
Arguments xr_set_progress {E}.

Definition is_held (artifact : SignedPayoutArtifact) : bool :=
  bool_decide (ar_state artifact = ExpiryPending).

Section Recovery.
Context {env : StoreEnv}.

Definition raw_digest (artifact : SignedPayoutArtifact) : list Z :=
  env_sha256 (sf_signed_transaction (ar_facts artifact)).

(** ** Checks *)

Definition candidate_bound (candidate : PayoutExpiryCandidate) (watches : list ExpiryWatch) : bool :=
  let artifact := ec_artifact candidate in
  let facts := ar_facts artifact in
  negb (bool_decide (ar_chain artifact <> Wcash)
        || Uuid_is_nil (ar_batch_id artifact)
        || all_zero (sf_transaction_id facts)
        || all_zero (sf_unsigned_digest facts)
        || negb (rq_batch_id (ec_request candidate) =? ar_batch_id artifact)
        || bool_decide (rq_asset (ec_request candidate) <> Wec)
        || bool_decide (sf_signed_transaction facts = [])
        || (4 * 1024 * 1024 <? Z.of_nat (length (sf_signed_transaction facts)))
        || negb match ar_state artifact with
                | Signed | Broadcasting | Broadcast | ExpiryPending => true
                | _ => false
                end
        || negb (Bool.eqb (is_held artifact) (bool_decide (is_Some (ec_quarantine candidate))))
        || existsb (fun w => let a := ec_artifact (xw_candidate w) in
                     (ar_batch_id a =? ar_batch_id artifact)
                     || bool_decide (sf_transaction_id (ar_facts a) = sf_transaction_id facts)) watches).

Definition inspection_bound (candidate : PayoutExpiryCandidate) (commitment : list Z)
    (verified : WecPreparedPayout) : bool :=
  let artifact := ec_artifact candidate in
  let facts := ar_facts artifact in
  let receipt := wp_receipt verified in
  negb (negb (rc_batch_id receipt =? ar_batch_id artifact)
        || bool_decide (rc_asset receipt <> Wec)
        || negb (String.eqb (rc_transaction_id receipt) (hex_encode (sf_transaction_id facts)))
        || bool_decide (rc_request_commitment receipt <> commitment)
        || bool_decide (checked_sum (po_amount_zat <$> rq_outputs (ec_request candidate))
                        <> Some (rc_output_total_zat receipt))
        || bool_decide (wp_transaction_id_bytes verified <> sf_transaction_id facts)
        || bool_decide (wp_signed_transaction verified <> sf_signed_transaction facts)
        || bool_decide (wp_unsigned_digest verified <> sf_unsigned_digest facts)
        || negb (wp_network_fee_zat verified =? sf_network_fee_zat facts)
        || (wp_target_height verified =? 0)
        || match checked_sub (wp_expiry_height verified) (wp_target_height verified) with
           | Some d => negb ((1 <=? d) && (d <=? 100))
           | None => true
           end).

Definition cached_bound (candidate : PayoutExpiryCandidate) (commitment : list Z)
    (verified : InspectedExpiry) : bool :=
  let artifact := ec_artifact candidate in
  let facts := ar_facts artifact in
  negb (bool_decide (ie_transaction_id verified <> sf_transaction_id facts)
        || bool_decide (ie_raw_digest verified <> raw_digest artifact)
        || bool_decide (ie_request_commitment verified <> commitment)
        || bool_decide (ie_unsigned_digest verified <> sf_unsigned_digest facts)
        || negb (ie_network_fee_zat verified =? sf_network_fee_zat facts)
        || match ec_quarantine candidate with
           | Some e => bool_decide (ev_transaction_id e <> sf_transaction_id facts)
                       || bool_decide (ev_signed_transaction_sha256 e <> raw_digest artifact)
                       || negb (ev_expiry_height e =? ie_expiry_height verified)
           | None => false
           end).

Definition validate_evidence (watch : ExpiryWatch) (evidence : PayoutExpiryEvidence) (finality : bool)
    : result unit PayoutRuntimeError :=
  let artifact := ec_artifact (xw_candidate watch) in
  if bool_decide (ev_transaction_id evidence <> sf_transaction_id (ar_facts artifact))
     || bool_decide (ev_signed_transaction_sha256 evidence <> raw_digest artifact)
     || negb (ev_expiry_height evidence =? xw_expiry_height watch)
     || all_zero (ev_tip_hash evidence)
     || (ev_observed_at evidence =? 0)
     || (ev_tip_height evidence <=? ev_expiry_height evidence)
     || (finality && match checked_add U32_MAX (ev_expiry_height evidence) WCASH_EXPIRY_FINALITY_DEPTH with
                     | Some h => ev_tip_height evidence <? h
                     | None => true
                     end)
  then Err (invariant "expiry_evidence_binding") else Ok tt.

Definition watch_of (watches : list ExpiryWatch) (batch_id : Uuid) : option ExpiryWatch :=
  head (filter (fun w => ar_batch_id (ec_artifact (xw_candidate w)) = batch_id) watches).

(** The first loop over the observations: nothing is written until all of them are bound. *)
Fixpoint validate_observations (watches : list ExpiryWatch) (observations : list ExpiryObservation)
    (seen : list Uuid) : result unit PayoutRuntimeError :=
  match observations with
  | [] => Ok tt
  | o :: rest =>
      let? watch := ok_or (watch_of watches (xo_batch_id o)) (invariant "expiry_result_binding") in
      if bool_decide (xo_batch_id o ∈ seen) then Err (invariant "expiry_duplicate_result") else
      let held := is_held (ec_artifact (xw_candidate watch)) in
      let? _ := match xo_state o with
                | Unexpired => if held then Err (invariant "expiry_state_transition") else Ok tt
                | ExpiryMined c =>
                    if all_zero (pc_block_hash c) || (pc_block_height c =? 0) || (pc_confirmations c =? 0)
                    then Err (invariant "expiry_confirmation_binding") else Ok tt
                | Unresolved => Ok tt
                | Missing evidence | ExpiredOrphan evidence => validate_evidence watch evidence false
                | FinalMissing evidence => validate_evidence watch evidence held
                end in
      validate_observations watches rest (seen ++ [xo_batch_id o])
  end.

Context {E : Type -> Type}.
Variable self : WecPayoutExpiryRecovery E.

(** ** The pass *)

(** The loop over the candidates: the watches it builds, and whether it inspected one. *)
Fixpoint inspect_candidates (candidates : list PayoutExpiryCandidate) (progress : RecoveryProgress)
    (did_inspect : bool) (watches : list ExpiryWatch)
    : proc E (result (RecoveryProgress * bool * list ExpiryWatch) PayoutRuntimeError) :=
  match candidates with
  | [] => Ret (Ok (progress, did_inspect, watches))
  | candidate :: rest =>
      let artifact := ec_artifact candidate in
      let facts := ar_facts artifact in
      let id := ar_batch_id artifact in
      if negb (candidate_bound candidate watches) then Ret (Err (invariant "expiry_candidate_binding")) else
      let! commitment := Ret (map_err (fun _ => invariant "expiry_request_commitment")
                                (PayoutBatchRequest_commitment env_sha256 (ec_request candidate))) in
      let! step :=
        match inspected progress !! id with
        | Some _ => Ret (Ok (progress, did_inspect))
        | None =>
            let! verified := xr_inspect self candidate in
            if negb (inspection_bound candidate commitment verified)
            then Ret (Err (invariant "expiry_inspected_artifact")) else
            let entry := mkInspectedExpiry (sf_transaction_id facts) (raw_digest artifact) commitment
                           (wp_expiry_height verified) (sf_unsigned_digest facts) (sf_network_fee_zat facts) in
            let progress := mkRecoveryProgress (after_held progress) (<[id := entry]> (inspected progress)) in
            let+ _ := xr_set_progress self progress in
            Ret (Ok (progress, true))
        end in
      let (progress, did_inspect) := (step : RecoveryProgress * bool) in
      let! verified := Ret (ok_or (inspected progress !! id) (invariant "expiry_inspection_cache")) in
      if negb (cached_bound candidate commitment verified)
      then Ret (Err (invariant "expiry_cached_binding")) else
      inspect_candidates rest progress did_inspect
        (watches ++ [mkExpiryWatch candidate (ie_expiry_height verified)])
  end.

(** The second loop over the observations. *)
Fixpoint apply_expiry (watches : list ExpiryWatch) (observations : list ExpiryObservation) (ready : bool)
    : proc E (result bool PayoutRuntimeError) :=
  match observations with
  | [] => Ret (Ok ready)
  | o :: rest =>
      let id := xo_batch_id o in
      let! watch := Ret (ok_or (watch_of watches id) (invariant "expiry_result_binding")) in
      let held := is_held (ec_artifact (xw_candidate watch)) in
      let! ready' :=
        match xo_state o, held with
        | Unexpired, false => Ret (Ok ready)
        | ExpiryMined c, true => do! xr_confirm self id c in Ret (Ok false)
        | ExpiryMined _, false => Ret (Ok ready)
        | Unresolved, _ => Ret (Ok (ready && negb held))
        | Missing e, false | ExpiredOrphan e, false | FinalMissing e, false =>
            do! Ret (validate_evidence watch e false) in
            do! xr_hold self id e in
            Ret (Ok false)
        | Missing e, true | ExpiredOrphan e, true =>
            do! Ret (validate_evidence watch e false) in Ret (Ok ready)
        | FinalMissing e, true =>
            do! Ret (validate_evidence watch e true) in
            do! xr_expire self id e in
            Ret (Ok false)
        | Unexpired, true => Ret (Err (invariant "expiry_state_transition"))
        end in
      apply_expiry watches rest ready'
  end.

Definition expiry_observation_error (e : ObservationFailure) : PayoutRuntimeError :=
  match e with
  | ObservationUnavailable => AuthorityUnavailable Wcash "expiry_snapshot"
  | ObservationInvariant => invariant "expiry_snapshot"
  end.

(** [retain] on the inspection cache. *)
Definition retained (candidates : list PayoutExpiryCandidate) (m : gmap Uuid InspectedExpiry)
    : gmap Uuid InspectedExpiry :=
  filter (fun p => fst p ∈ (ar_batch_id ∘ ec_artifact <$> candidates)) m.

Definition pass : proc E (result bool PayoutRuntimeError) :=
  let+ progress := xr_progress self in
  let! candidates := xr_candidates self (after_held progress) in
  if (MAX_EXPIRY_CANDIDATES <? Z.of_nat (length candidates))
     || (1 <? Z.of_nat (length (filter (fun c => is_held (ec_artifact c) = false) candidates)))
  then Ret (Err (invariant "expiry_candidate_bound")) else
  if bool_decide (candidates = []) then
    let+ _ := xr_set_progress self RecoveryProgress_default in Ret (Ok true)
  else
    let progress := mkRecoveryProgress (after_held progress) (retained candidates (inspected progress)) in
    let+ _ := xr_set_progress self progress in
    let! inspection := inspect_candidates candidates progress false [] in
    let '(progress, did_inspect, watches) := (inspection : RecoveryProgress * bool * list ExpiryWatch) in
    if (did_inspect : bool) then Ret (Ok false) else
    let+ answer := xr_expiry_snapshot self watches in
    let! observations := Ret (map_err expiry_observation_error answer) in
    if negb (length observations =? length watches)%nat
    then Ret (Err (invariant "expiry_result_set")) else
    do! Ret (validate_observations watches observations []) in
    let! ready := apply_expiry watches observations true in
    let held := filter (fun w => is_held (ec_artifact (xw_candidate w)) = true) watches in
    let+ _ := xr_set_progress self
                (mkRecoveryProgress (last (ar_batch_id ∘ ec_artifact ∘ xw_candidate <$> held))
                   (inspected progress)) in
    Ret (Ok ready).
End Recovery.
