(* ===== verification/Worker.v ===== *)
(** The payout worker among others: its calls, what the store, the wallets and the validators may
    answer, and the system of any number of passes, start-up recoveries and resumptions, stopped
    anywhere and interleaved with every other writer of the store. *)

From Stdlib Require Import ZArith Lia.
From stdpp Require Import prelude gmap sorting strings.
From S2P Require Import Prelude Wire Backend Hex LargestRemainder Pplns PayoutFees Ledger PayoutRequest StoreDb PayoutStore Configuration PayoutWatch WinnerStore StoreOps SigningFence Proc WecSigner Settlement PayoutRuntime PayoutExpiry.
Open Scope Z_scope.

(** ** Calls *)

Inductive WorkerCall : Type -> Type :=
(* the store *)
| ListResumable (chain : Chain) : WorkerCall (result (list PayoutBatch) StoreError)
| AuthorizeSigning (batch_id : Uuid) : WorkerCall (result PayoutBatchRequest StoreError)
| SigningRequest (batch_id : Uuid) : WorkerCall (result PayoutBatchRequest StoreError)
| CancelRejectedSigning (batch_id : Uuid) : WorkerCall (result unit StoreError)
| MarkSigned (artifact : SignedPayoutArtifact) : WorkerCall (result unit StoreError)
| SignedArtifact (batch_id : Uuid) : WorkerCall (result (option SignedPayoutArtifact) StoreError)
| AuthorizeBroadcast (batch_id : Uuid) : WorkerCall (result SignedPayoutArtifact StoreError)
| MarkBroadcast (batch_id : Uuid) : WorkerCall (result unit StoreError)
| RecordReconciliation (observation : WalletObservation) : WorkerCall (result WalletReconciliation StoreError)
| CreateBatch (chain : Chain) (key reconciliation_id : Uuid) : WorkerCall (result PayoutBatch StoreError)
| ListWatches (chain : Chain) (maximum : Z) : WorkerCall (result PayoutWatchPage StoreError)
| AdvanceWatchCursor (chain : Chain) (cursor : ConfirmedPayoutWatchCursor) : WorkerCall (result unit StoreError)
| ConfirmPayout (batch_id : Uuid) (confirmation : PayoutConfirmation) : WorkerCall (result unit StoreError)
| MarkReorged (batch_id : Uuid) (evidence : PayoutReorg) : WorkerCall (result unit StoreError)
| ExpiryCandidates (after : option Uuid) : WorkerCall (result (list PayoutExpiryCandidate) StoreError)
| HoldExpired (batch_id : Uuid) (evidence : PayoutExpiryEvidence) : WorkerCall (result unit StoreError)
| ExpireHeld (batch_id : Uuid) (evidence : PayoutExpiryEvidence) : WorkerCall (result unit StoreError)
(* the wallets and validators of a chain *)
| PrepareExact (chain : Chain) (request : PayoutBatchRequest) : WorkerCall (result RichPayoutExecution BoundaryFailure)
| RecoverExact (chain : Chain) (request : PayoutBatchRequest) : WorkerCall (result (option RichPayoutExecution) BoundaryFailure)
| RebroadcastExact (chain : Chain) (artifact : SignedPayoutArtifact) : WorkerCall (result unit BoundaryFailure)
| ObserveWallet (chain : Chain) : WorkerCall (result WalletObservation ObservationFailure)
| ObservePayouts (chain : Chain) (watches : list PayoutWatch) : WorkerCall (result AuthoritySnapshot ObservationFailure)
| InspectPrepared (request : PayoutBatchRequest) : WorkerCall (result WecPreparedPayout WecPayoutError)
| ObserveExpiry (watches : list ExpiryWatch) : WorkerCall (result (list ExpiryObservation) ObservationFailure)
(* the worker itself *)
| LockProgress : WorkerCall RecoveryProgress
| SetProgress (progress : RecoveryProgress) : WorkerCall unit
| ReadShutdown : WorkerCall bool
| SleepOrShutdown (delay : Z) : WorkerCall bool.

(** ** The implementations of the traits *)

Definition postgres_settlement_store : SettlementStore WorkerCall :=
  mkSettlementStore WorkerCall
    (fun chain => let! found := call_err (ListResumable chain) (Persistence "list_resumable") in
                  Ret (Ok (last found)))
    (fun id => call_err (AuthorizeSigning id) (Persistence "authorize_signing"))
    (fun id => call_err (SigningRequest id) (Persistence "signing_request"))
    (fun id => call_err (CancelRejectedSigning id) (Persistence "cancel_rejected_signing"))
    (fun artifact => call_err (MarkSigned artifact) (Persistence "mark_signed"))
    (fun id => call_err (SignedArtifact id) (Persistence "signed_artifact"))
    (fun id => call_err (AuthorizeBroadcast id) (Persistence "authorize_broadcast"))
    (fun id => call_err (MarkBroadcast id) (Persistence "mark_broadcast")).

Definition postgres_lifecycle_store : PayoutLifecycleStore WorkerCall :=
  mkPayoutLifecycleStore WorkerCall
    (fun observation => call_err (RecordReconciliation observation) classify_store_error)
    (fun chain key rid => call_err (CreateBatch chain key rid) classify_store_error)
    (fun chain maximum => call_err (ListWatches chain maximum) classify_store_error)
    (fun chain cursor => call_err (AdvanceWatchCursor chain cursor) classify_store_error)
    (fun id confirmation => call_err (ConfirmPayout id confirmation) classify_store_error)
    (fun id evidence => call_err (MarkReorged id evidence) classify_store_error).

(** [ExpiryStore::confirm]: a confirmation that is not deep enough is not an error. *)
Definition expiry_confirm (id : Uuid) (confirmation : PayoutConfirmation)
    : proc WorkerCall (result bool PayoutRuntimeError) :=
  let+ r := call (ConfirmPayout id confirmation) in
  Ret match r with
      | Ok _ => Ok true
      | Err (PrematurePayoutConfirmation _ _) => Ok false
      | Err e => Err (store_failure "confirm_held" e)
      end.

Definition inspection_error (error : WecPayoutError) : PayoutRuntimeError :=
  match error with
  | WecWalletUnavailable | WecJournalUnavailable => AuthorityUnavailable Wcash "expiry_wallet_inspection"
  | _ => invariant "expiry_wallet_binding"
  end.

Definition postgres_expiry_recovery : WecPayoutExpiryRecovery WorkerCall :=
  mkWecPayoutExpiryRecovery WorkerCall
    (fun after => call_err (ExpiryCandidates after) (store_failure "expiry_candidates"))
    (fun id evidence => call_err (HoldExpired id evidence) (store_failure "hold_expired"))
    (fun id evidence => call_err (ExpireHeld id evidence) (store_failure "expire_held"))
    expiry_confirm
    (fun candidate => call_err (InspectPrepared (ec_request candidate)) inspection_error)
    (fun watches => call (ObserveExpiry watches))
    (call LockProgress)
    (fun progress => call (SetProgress progress)).

Definition chain_signer (chain : Chain) : ExactExecutionSigner WorkerCall :=
  mkExactExecutionSigner WorkerCall chain
    (fun request => call (PrepareExact chain request)) (fun request => call (RecoverExact chain request)).
Definition chain_broadcaster (chain : Chain) : ExactTransactionBroadcaster WorkerCall :=
  mkExactTransactionBroadcaster WorkerCall chain (fun artifact => call (RebroadcastExact chain artifact)).

(** The coordinator with both chains, or with Wcash only. *)
Definition orchestrator (zec : bool) : SettlementOrchestrator WorkerCall :=
  let boundary chain := mkChainBoundary _ (chain_signer chain) (chain_broadcaster chain) in
  mkSettlementOrchestrator postgres_settlement_store (boundary Wcash)
    (if zec then Some (boundary Zcash) else None).

Section Programs.
Context {env : StoreEnv}.

Definition payout_runtime (zec expiry : bool) (chain : Chain) (namespace : Uuid) (policy : PayoutLoopPolicy)
    : AutomaticPayoutRuntime WorkerCall :=
  mkAutomaticPayoutRuntime chain namespace policy postgres_lifecycle_store
    (mkWalletObservationSource _ chain (call (ObserveWallet chain)))
    (mkPayoutConfirmationAuthority _ chain (fun watches => call (ObservePayouts chain watches)))
    (resume_next (orchestrator zec))
    (if expiry then Some (pass postgres_expiry_recovery) else None).

(** What the process starts: start-up recovery and the loops of the chains. *)
Inductive worker_program : proc WorkerCall unit -> Prop :=
| program_recover zec chain :
    worker_program (void (recover_before_wallet_reconciliation (orchestrator zec) chain))
| program_resume zec chain : worker_program (void (resume_next (orchestrator zec) chain))
| program_run zec expiry chain namespace policy fuel :
    worker_program (void (run_loop (payout_runtime zec expiry chain namespace policy)
                            (call ReadShutdown) (fun d => call (SleepOrShutdown d)) fuel 0)).
End Programs.

(** ** The world *)

(** What the worker did, with the answers it got. *)
Inductive Effect : Type :=
| DidPrepare (chain : Chain) (request : PayoutBatchRequest) (r : result RichPayoutExecution BoundaryFailure)
| DidRecover (chain : Chain) (request : PayoutBatchRequest) (r : result (option RichPayoutExecution) BoundaryFailure)
| DidBroadcast (chain : Chain) (artifact : SignedPayoutArtifact) (r : result unit BoundaryFailure)
| DidMarkSigned (artifact : SignedPayoutArtifact)
| DidCancel (batch_id : Uuid)
| DidMarkBroadcast (batch_id : Uuid)
| DidObserve (chain : Chain) (watches : list PayoutWatch) (r : result AuthoritySnapshot ObservationFailure)
| DidObserveExpiry (watches : list ExpiryWatch) (r : result (list ExpiryObservation) ObservationFailure)
| DidConfirm (batch_id : Uuid) (confirmation : PayoutConfirmation)
| DidReorg (batch_id : Uuid) (evidence : PayoutReorg)
| DidHold (batch_id : Uuid) (evidence : PayoutExpiryEvidence)
| DidExpire (batch_id : Uuid) (evidence : PayoutExpiryEvidence).

Record World : Type := mkWorld {
  w_db : Db;
  w_progress : RecoveryProgress;
  w_log : list Effect
}.

(** The types of what comes from outside: arrays of 32 bytes and unsigned integers. *)
Definition rich_typed (x : RichPayoutExecution) : Prop :=
  0 <= rx_network_fee_zat x /\ length (rx_transaction_id_bytes x) = 32%nat /\
  length (rx_unsigned_digest x) = 32%nat.
Definition confirmation_typed (c : PayoutConfirmation) : Prop := length (pc_block_hash c) = 32%nat.
Definition observation_typed (o : AuthorityPayoutObservation) : Prop :=
  match ao_state o with AuthorityMined c => confirmation_typed c | _ => True end.
Definition expiry_typed (o : ExpiryObservation) : Prop :=
  match xo_state o with ExpiryMined c => confirmation_typed c | _ => True end.

(** A transaction of the store either answers, or the connection fails, before or after its
    commit. *)
Definition wrote {A} (w w' : World) (effects : list Effect) (outcome : Db * result A StoreError)
    (r : result A StoreError) : Prop :=
  w_progress w' = w_progress w /\ w_log w' = w_log w ++ effects /\
  ((w_db w' = fst outcome /\ r = snd outcome) \/
   (exists e, r = Err (Database e) /\ (w_db w' = w_db w \/ w_db w' = fst outcome))).

Definition read {A} (w w' : World) (answer r : result A StoreError) : Prop :=
  w' = w /\ (r = answer \/ exists e, r = Err (Database e)).

(** An answer from outside: anything of its type. *)
Definition heard {A} (w w' : World) (effects : list Effect) (typed : A -> Prop) {X} (r : result A X) : Prop :=
  w_db w' = w_db w /\ w_progress w' = w_progress w /\ w_log w' = w_log w ++ effects /\
  match r with Ok x => typed x | Err _ => True end.

Section Semantics.
Context {env : StoreEnv}.

(** Clocks, drawn identifiers and randomness are whatever the database and the generator give. *)
Definition handles (R : Type) (e : WorkerCall R) : World -> R -> World -> Prop :=
  match e in WorkerCall R return World -> R -> World -> Prop with
  | ListResumable chain => fun w r w' => read w w' (list_resumable_payout_batches (w_db w) chain 1) r
  | AuthorizeSigning id => fun w r w' => exists now, wrote w w' [] (authorize_payout_signing (w_db w) now id) r
  | SigningRequest id => fun w r w' => wrote w w' [] (signing_payout_request (w_db w) id) r
  | CancelRejectedSigning id => fun w r w' => exists ledger_id,
      wrote w w' [DidCancel id] (cancel_rejected_payout_signing (w_db w) ledger_id id) r
  | MarkSigned artifact => fun w r w' =>
      wrote w w' [DidMarkSigned artifact] (mark_payout_signed (w_db w) (ar_batch_id artifact) (ar_facts artifact)) r
  | SignedArtifact id => fun w r w' => read w w' (signed_payout_artifact (w_db w) id) r
  | AuthorizeBroadcast id => fun w r w' => wrote w w' [] (authorize_payout_broadcast (w_db w) id) r
  | MarkBroadcast id => fun w r w' => wrote w w' [DidMarkBroadcast id] (mark_payout_broadcast (w_db w) id) r
  | RecordReconciliation o => fun w r w' => exists id now,
      wrote w w' [] (record_wallet_reconciliation (w_db w) id now o) r
  | CreateBatch chain key rid => fun w r w' => exists now fresh draws batch_id ledger_id, batch_id <> 0 /\
      wrote w w' [] (create_payout_batch (w_db w) now fresh draws batch_id ledger_id chain key rid) r
  | ListWatches chain maximum => fun w r w' => read w w' (list_payout_watches (w_db w) chain maximum) r
  | AdvanceWatchCursor chain cursor => fun w r w' =>
      wrote w w' [] (advance_confirmed_payout_watch_cursor (w_db w) chain cursor) r
  | ConfirmPayout id c => fun w r w' => exists ledger_id,
      wrote w w' [DidConfirm id c] (confirm_payout (w_db w) ledger_id id c) r
  | MarkReorged id e => fun w r w' => exists event_id,
      wrote w w' [DidReorg id e] (mark_confirmed_payout_reorged (w_db w) event_id id e) r
  | ExpiryCandidates after => fun w r w' =>
      read w w' (list_payout_expiry_candidates_page (w_db w) MAX_EXPIRY_CANDIDATES after) r
  | HoldExpired id e => fun w r w' => exists now,
      wrote w w' [DidHold id e] (hold_expired_payout (w_db w) now id e) r
  | ExpireHeld id e => fun w r w' => exists now ledger_id,
      wrote w w' [DidExpire id e] (expire_held_payout (w_db w) now ledger_id id e) r
  | PrepareExact chain request => fun w r w' => heard w w' [DidPrepare chain request r] rich_typed r
  | RecoverExact chain request => fun w r w' =>
      heard w w' [DidRecover chain request r] (fun x => match x with Some x => rich_typed x | None => True end) r
  | RebroadcastExact chain artifact => fun w r w' => heard w w' [DidBroadcast chain artifact r] (fun _ => True) r
  | ObserveWallet chain => fun w r w' => heard w w' [] (fun _ => True) r
  | ObservePayouts chain watches => fun w r w' =>
      heard w w' [DidObserve chain watches r] (fun s => Forall observation_typed (as_payouts s)) r
  | InspectPrepared request => fun w r w' => heard w w' [] (fun _ => True) r
  | ObserveExpiry watches => fun w r w' =>
      heard w w' [DidObserveExpiry watches r] (fun os => Forall expiry_typed os) r
  | LockProgress => fun w r w' => w' = w /\ r = w_progress w
  | SetProgress p => fun w _ w' => w' = mkWorld (w_db w) p (w_log w)
  | ReadShutdown | SleepOrShutdown _ => fun w _ w' => w' = w
  end.

(** The other writers: the projector, the portal, an operator, another worker; and a restart of
    the process, which forgets the progress of the expiry recovery. *)
Definition others (w w' : World) : Prop :=
  w_log w' = w_log w /\
  (w_progress w' = w_progress w /\ (exists op, op_wf op /\ w_db w' = run_op (w_db w) op) \/
   w_progress w' = RecoveryProgress_default /\ w_db w' = w_db w).

Definition worker_step := sys_step handles worker_program others.

(** A state of the world with its running procedures, from any reachable store. *)
Definition worker_reachable (c : World * list (proc WorkerCall unit)) : Prop :=
  exists w, reachable (w_db w) /\ w_log w = [] /\ rtc worker_step (w, []) c.
End Semantics.
