(* ===== verification/WorkerSafe.v ===== *)
(** Every external effect of the payout worker is warranted, in every interleaving and after
    every crash: what is asked of a signer, handed to a broadcaster, or recorded in the store. *)

From Stdlib Require Import ZArith Lia.
From stdpp Require Import prelude gmap sorting strings.
From S2P Require Import Prelude Wire Backend Hex LargestRemainder Pplns PayoutFees Ledger PayoutRequest StoreDb PayoutStore Configuration PayoutWatch WinnerStore Books BatchPlan StoreInv WinnerInv StoreOps StoreEvolve StoreDemo Solvency StoreProps SigningFence WatchRotation Proc WecSigner Settlement PayoutRuntime PayoutExpiry Worker.
Open Scope Z_scope.

Section Warrants.
Context {env : StoreEnv}.

(** ** The store between two calls *)

Definition grows (db db' : Db) : Prop := exists ops, Forall op_wf ops /\ db' = run_ops db ops.

#[global] Instance grows_preorder : PreOrder grows.
Proof.
  split; [intros db; by exists []|]. intros d1 d2 d3 (o1 & H1 & ->) (o2 & H2 & ->).
  exists (o1 ++ o2). split; [by apply Forall_app|]. unfold run_ops. by rewrite foldl_app.
Qed.

Lemma grows_op db op : op_wf op -> grows db (run_op db op).
Proof. intros H. exists [op]. split; [by constructor|done]. Qed.

Lemma grows_reachable db db' : grows db db' -> reachable db -> reachable db'.
Proof. intros (ops & Hwf & ->) Hr. by apply reachable_ops. Qed.

Lemma grows_advanced db db' id row : reachable db -> grows db db' -> batches (pay db) !! id = Some row ->
  exists row', batches (pay db') !! id = Some row' /\ advanced row row'.
Proof. intros Hr (ops & Hwf & ->). by apply ops_advanced. Qed.

Lemma advanced_rank row row' : advanced row row' -> rank (br_state row) <= rank (br_state row').
Proof. intros [_ _ _ _ _ _ [->|H]]; lia. Qed.

(** ** Warrants *)

(** The request the store authored for a batch past its signing fence. *)
Definition requested (db : Db) (chain : Chain) (request : PayoutBatchRequest) : Prop :=
  exists row batch, batches (pay db) !! rq_batch_id request = Some row /\ br_chain row = chain /\
    1 <= rank (br_state row) /\ load_payout_batch db (rq_batch_id request) = Ok batch /\
    payout_signer_request db batch = Ok request.

(** Bytes the store holds for a batch. *)
Definition carried (db : Db) (artifact : SignedPayoutArtifact) : Prop :=
  exists row, batches (pay db) !! ar_batch_id artifact = Some row /\ br_chain row = ar_chain artifact /\
    br_signed row = Some (ar_facts artifact).

(** The broadcast fence was crossed with exactly these bytes. *)
Definition authorized (db : Db) (chain : Chain) (artifact : SignedPayoutArtifact) : Prop :=
  exists row, batches (pay db) !! ar_batch_id artifact = Some row /\ br_chain row = chain /\
    ar_chain artifact = chain /\ br_signed row = Some (ar_facts artifact) /\ 3 <= rank (br_state row).

(** The transaction a batch was signed with. *)
Definition signed_txid (db : Db) (chain : Chain) (id : Uuid) (txid : list Z) : Prop :=
  exists row f, batches (pay db) !! id = Some row /\ br_chain row = chain /\ br_signed row = Some f /\
    sf_transaction_id f = txid.

Lemma requested_grows db db' chain request : reachable db -> grows db db' ->
  requested db chain request -> requested db' chain request.
Proof.
  intros Hr Hg (row & batch & Hrow & Hc & Hrank & Hload & Hreq).
  destruct (grows_advanced db db' _ row Hr Hg Hrow) as (row' & Hrow' & Ha).
  pose proof (reachable_ok db Hr) as Hok. destruct Hg as (ops & Hwf & ->). pose proof (ops_kept db ops Hr Hwf) as Hk.
  exists row', (in_state batch (br_state row')). split_and!; [done|by rewrite (ad_chain _ _ Ha)| | |].
  - pose proof (advanced_rank _ _ Ha). lia.
  - by apply (load_payout_batch_stable _ db _ _ row row' batch (ok_inv _ Hok) Hk).
  - apply (payout_signer_request_stable db); [apply Hok|apply Hk|done].
Qed.

Lemma carried_grows db db' artifact : reachable db -> grows db db' -> carried db artifact -> carried db' artifact.
Proof.
  intros Hr Hg (row & Hrow & Hc & Hs). destruct (grows_advanced db db' _ row Hr Hg Hrow) as (row' & Hrow' & Ha).
  exists row'. split_and!; [done|by rewrite (ad_chain _ _ Ha)|by apply (ad_signed _ _ Ha)].
Qed.

Lemma authorized_grows db db' chain artifact : reachable db -> grows db db' ->
  authorized db chain artifact -> authorized db' chain artifact.
Proof.
  intros Hr Hg (row & Hrow & Hc & Ha2 & Hs & Hk). destruct (grows_advanced db db' _ row Hr Hg Hrow) as (row' & Hrow' & Ha).
  exists row'. pose proof (advanced_rank _ _ Ha).
  split_and!; [done|by rewrite (ad_chain _ _ Ha)|done|by apply (ad_signed _ _ Ha)|lia].
Qed.

Lemma signed_txid_grows db db' chain id txid : reachable db -> grows db db' ->
  signed_txid db chain id txid -> signed_txid db' chain id txid.
Proof.
  intros Hr Hg (row & f & Hrow & Hc & Hs & Ht). destruct (grows_advanced db db' _ row Hr Hg Hrow) as (row' & Hrow' & Ha).
  exists row', f. split_and!; [done|by rewrite (ad_chain _ _ Ha)|by apply (ad_signed _ _ Ha)|done].
Qed.

(** The validator of the chain reported the batch's own transaction as mined, at this depth. *)
Definition mined_reported (log : list Effect) (chain : Chain) (id : Uuid) (txid : list Z)
    (c : PayoutConfirmation) : Prop :=
  (exists watches s, DidObserve chain watches (Ok s) ∈ log /\
     mkAuthorityPayoutObservation id txid (AuthorityMined c) ∈ as_payouts s /\
     pc_confirmations c = as_best_tip_height s - pc_block_height c + 1) \/
  (chain = Wcash /\ exists watches os wt, DidObserveExpiry watches (Ok os) ∈ log /\
     mkExpiryObservation id (ExpiryMined c) ∈ os /\ wt ∈ watches /\
     ar_batch_id (ec_artifact (xw_candidate wt)) = id /\
     sf_transaction_id (ar_facts (ec_artifact (xw_candidate wt))) = txid).

Definition reorg_reported (log : list Effect) (chain : Chain) (id : Uuid) (txid : list Z)
    (e : PayoutReorg) : Prop :=
  exists watches s, DidObserve chain watches (Ok s) ∈ log /\
    mkAuthorityPayoutObservation id txid (AuthorityReorged e) ∈ as_payouts s /\
    rg_replacement_tip_hash e = as_best_tip_hash s /\ rg_replacement_tip_height e = as_best_tip_height s.

(** The Wcash validator reported the exact bytes as absent at a tip beyond their expiry; with
    [final], as absent from the whole chain beyond the finality depth. *)
Definition absent (state : ExpiryChainState) (e : PayoutExpiryEvidence) (final : bool) : Prop :=
  match state with
  | FinalMissing x => x = e
  | Missing x | ExpiredOrphan x => x = e /\ final = false
  | _ => False
  end.

Definition absence_reported (log : list Effect) (id : Uuid) (f : SignedFacts) (e : PayoutExpiryEvidence)
    (final : bool) : Prop :=
  (exists watches os o wt, DidObserveExpiry watches (Ok os) ∈ log /\ o ∈ os /\ xo_batch_id o = id /\
     absent (xo_state o) e final /\ wt ∈ watches /\ ar_batch_id (ec_artifact (xw_candidate wt)) = id) /\
  ev_transaction_id e = sf_transaction_id f /\
  ev_signed_transaction_sha256 e = env_sha256 (sf_signed_transaction f) /\
  ev_expiry_height e < ev_tip_height e /\
  (final = true -> ev_expiry_height e + WCASH_EXPIRY_FINALITY_DEPTH <= ev_tip_height e).

(** What must hold for an effect, at the time it is made and ever after. *)
Definition warranted (w : World) (effect : Effect) : Prop :=
  match effect with
  | DidPrepare chain request _ | DidRecover chain request _ => requested (w_db w) chain request
  | DidBroadcast chain artifact _ => authorized (w_db w) chain artifact
  | DidMarkSigned artifact =>
      exists request x, rq_batch_id request = ar_batch_id artifact /\
        (DidPrepare (ar_chain artifact) request (Ok x) ∈ w_log w \/
         DidRecover (ar_chain artifact) request (Ok (Some x)) ∈ w_log w) /\
        validate_against x request = Ok tt /\ rich_typed x /\
        artifact = as_store_artifact x (ar_chain artifact)
  | DidCancel id =>
      exists chain request, rq_batch_id request = id /\
        DidPrepare chain request (Err BoundaryRejected) ∈ w_log w
  | DidMarkBroadcast id =>
      exists chain artifact, ar_batch_id artifact = id /\ DidBroadcast chain artifact (Ok tt) ∈ w_log w
  | DidObserve _ _ _ | DidObserveExpiry _ _ => True
  | DidConfirm id c =>
      confirmation_typed c /\
      exists chain txid, signed_txid (w_db w) chain id txid /\ mined_reported (w_log w) chain id txid c
  | DidReorg id e =>
      exists chain txid, signed_txid (w_db w) chain id txid /\ reorg_reported (w_log w) chain id txid e
  | DidHold id e =>
      exists row f, batches (pay (w_db w)) !! id = Some row /\ br_chain row = Wcash /\
        br_signed row = Some f /\ absence_reported (w_log w) id f e false
  | DidExpire id e =>
      exists row f, batches (pay (w_db w)) !! id = Some row /\ br_chain row = Wcash /\
        br_signed row = Some f /\ absence_reported (w_log w) id f e true
  end.

(** What the others may do between two calls. *)
Definition rely (w w' : World) : Prop := grows (w_db w) (w_db w') /\ w_log w ⊆ w_log w'.

#[global] Instance rely_preorder : PreOrder rely.
Proof. split; [by intros w|]. intros w1 w2 w3 [H1 L1] [H2 L2]. split; by etrans. Qed.

Lemma mined_reported_mono log log' chain id txid c : log ⊆ log' ->
  mined_reported log chain id txid c -> mined_reported log' chain id txid c.
Proof. intros Hl [(ws & s & H & H')|(-> & ws & os & wt & H & H')]; [left|right; split; [done|]]; set_solver. Qed.

Lemma absence_reported_mono log log' id f e final : log ⊆ log' ->
  absence_reported log id f e final -> absence_reported log' id f e final.
Proof.
  intros Hl [(ws & os & o & wt & Ho & Hrest) Hrest']. split; [|done]. exists ws, os, o, wt. split; [by apply Hl|done].
Qed.

Lemma warranted_rely w w' effect : reachable (w_db w) -> rely w w' -> warranted w effect -> warranted w' effect.
Proof.
  intros Hr [Hg Hl]. destruct effect; cbn.
  - by apply requested_grows.
  - by apply requested_grows.
  - by apply authorized_grows.
  - intros (q & x & Hid & Hin & Hrest). exists q, x. split_and!; [done| |apply Hrest..]. set_solver.
  - intros (c & q & Hid & Hin). exists c, q. split; [done|by apply Hl].
  - intros (c & a & Hid & Hin). exists c, a. split; [done|by apply Hl].
  - done.
  - done.
  - intros (Ht & c & txid & Hs & Hm). split; [done|]. exists c, txid.
    split; [by eapply signed_txid_grows|by eapply mined_reported_mono].
  - intros (c & txid & Hs & ws & s & Hin & Hrest). exists c, txid. split; [by eapply signed_txid_grows|].
    exists ws, s. split; [by apply Hl|done].
  - intros (row & f & Hrow & Hc & Hf & Ha). destruct (grows_advanced _ _ _ row Hr Hg Hrow) as (row' & Hrow' & Had).
    exists row', f. split_and!; [done|by rewrite (ad_chain _ _ Had)|by apply (ad_signed _ _ Had)|by eapply absence_reported_mono].
  - intros (row & f & Hrow & Hc & Hf & Ha). destruct (grows_advanced _ _ _ row Hr Hg Hrow) as (row' & Hrow' & Had).
    exists row', f. split_and!; [done|by rewrite (ad_chain _ _ Had)|by apply (ad_signed _ _ Had)|by eapply absence_reported_mono].
Qed.

(** ** Calls *)

Definition permitted (R : Type) (e : WorkerCall R) (w : World) : Prop :=
  match e with
  | PrepareExact chain request | RecoverExact chain request => requested (w_db w) chain request
  | RebroadcastExact chain artifact => authorized (w_db w) chain artifact
  | MarkSigned artifact => warranted w (DidMarkSigned artifact)
  | CancelRejectedSigning id => warranted w (DidCancel id)
  | MarkBroadcast id => warranted w (DidMarkBroadcast id)
  | ConfirmPayout id c => warranted w (DidConfirm id c)
  | MarkReorged id e => warranted w (DidReorg id e)
  | HoldExpired id e => warranted w (DidHold id e)
  | ExpireHeld id e => warranted w (DidExpire id e)
  | _ => True
  end.

Definition all_warranted (w : World) : Prop := reachable (w_db w) /\ Forall (warranted w) (w_log w).

(** The store grew and warranted effects were logged. *)
Definition progressed (w w' : World) : Prop :=
  grows (w_db w) (w_db w') /\ exists effects, w_log w' = w_log w ++ effects /\ Forall (warranted w) effects.

Lemma progressed_rely w w' : progressed w w' -> rely w w'.
Proof. intros (Hg & effects & Hl & _). split; [done|]. rewrite Hl. set_solver. Qed.

Lemma progressed_warranted w w' : all_warranted w -> progressed w w' -> rely w w' /\ all_warranted w'.
Proof.
  intros [Hr Hw] Hp. pose proof (progressed_rely w w' Hp) as Hrely. destruct Hp as (Hg & effects & Hl & He).
  split; [done|]. split; [by eapply grows_reachable|].
  rewrite Hl. apply Forall_app. split; (eapply Forall_impl; [done|]; intros x; by apply warranted_rely).
Qed.

(** A transaction is one operation of the store machine. *)
Lemma wrote_progressed {A} w w' effects (outcome : Db * result A StoreError) r op :
  wrote w w' effects outcome r -> fst outcome = run_op (w_db w) op -> op_wf op ->
  Forall (warranted w) effects -> progressed w w'.
Proof.
  intros (_ & Hl & Hdb) Ho Hop He. split; [|by exists effects].
  destruct Hdb as [[-> _]|(e & _ & [->| ->])]; rewrite ?Ho; try by apply grows_op. done.
Qed.

Lemma heard_progressed {A X} w w' effects typed (r : result A X) :
  heard w w' effects typed r -> Forall (warranted w) effects -> progressed w w'.
Proof. intros (Hdb & _ & Hl & _) He. split; [by rewrite Hdb|by exists effects]. Qed.

Lemma progressed_refl w : progressed w w.
Proof. split; [done|]. exists []. by rewrite app_nil_r. Qed.

Lemma signing_payout_request_db db id : fst (signing_payout_request db id) = db.
Proof.
  unfold signing_payout_request. destruct (Uuid_is_nil id); [done|]. destruct (load_payout_batch db id) as [b|]; [|done].
  destruct (bool_decide _); [done|]. by destruct (payout_signer_request db b).
Qed.

Lemma call_progressed R (e : WorkerCall R) w r w' :
  permitted R e w -> handles R e w r w' -> progressed w w'.
Proof.
  intros Hp Hh. pose proof (progressed_refl w) as Hrefl.
  destruct e; cbn in Hp, Hh; try (by subst w'); try (by destruct Hh as [-> ?]).
  - destruct Hh as (now & Hh). by eapply (wrote_progressed _ _ _ _ _ (OpAuthorizeSigning now batch_id)).
  - destruct Hh as (Hpr & Hl & Hdb). rewrite signing_payout_request_db in Hdb.
    split; [by destruct Hdb as [[-> _]|(e & _ & [->| ->])]|by exists []].
  - destruct Hh as (lid & Hh). eapply (wrote_progressed _ _ _ _ _ (OpCancelRejected lid batch_id)); [done..|by constructor].
  - eapply (wrote_progressed _ _ _ _ _ (OpMarkSigned (ar_batch_id artifact) (ar_facts artifact)));
      [done|done| |by constructor].
    destruct Hp as (q & x & _ & _ & _ & (H1 & H2 & H3) & ->). done.
  - by eapply (wrote_progressed _ _ _ _ _ (OpAuthorizeBroadcast batch_id)).
  - eapply (wrote_progressed _ _ _ _ _ (OpMarkBroadcast batch_id)); [done..|by constructor].
  - destruct Hh as (id & now & Hh). by eapply (wrote_progressed _ _ _ _ _ (OpReconcile id now observation)).
  - destruct Hh as (now & fresh & draws & bid & lid & Hb & Hh).
    by eapply (wrote_progressed _ _ _ _ _ (OpCreate now fresh draws bid lid chain key reconciliation_id)).
  - by eapply (wrote_progressed _ _ _ _ _ (OpAdvanceWatch chain cursor)).
  - destruct Hh as (lid & Hh). eapply (wrote_progressed _ _ _ _ _ (OpConfirm lid batch_id confirmation));
      [done|done|apply Hp|by constructor].
  - destruct Hh as (eid & Hh). eapply (wrote_progressed _ _ _ _ _ (OpReorg eid batch_id evidence)); [done..|by constructor].
  - destruct Hh as (now & Hh). eapply (wrote_progressed _ _ _ _ _ (OpHoldExpired now batch_id evidence)); [done..|by constructor].
  - destruct Hh as (now & lid & Hh).
    eapply (wrote_progressed _ _ _ _ _ (OpExpireHeld now lid batch_id evidence)); [done..|by constructor].
  - eapply heard_progressed; [done..|by constructor].
  - eapply heard_progressed; [done..|by constructor].
  - eapply heard_progressed; [done..|by constructor].
  - by eapply heard_progressed.
  - eapply heard_progressed; [done..|by constructor].
  - by eapply heard_progressed.
  - eapply heard_progressed; [done..|by constructor].
Qed.

Lemma others_progressed w w' : others w w' -> progressed w w'.
Proof.
  intros (Hl & Hdb). split; [|exists []; by rewrite app_nil_r].
  destruct Hdb as [(_ & op & Hop & ->)|(_ & ->)]; [by apply grows_op|done].
Qed.
End Warrants.
