(* ===== verification/WorkerReads.v ===== *)
(** What the payout worker may conclude from an answer of the store: the facts behind a request,
    an artifact, a watch and an expiry candidate, which every later state keeps. *)

From Stdlib Require Import ZArith Lia.
From stdpp Require Import prelude gmap sorting strings.
From S2P Require Import Prelude Wire Backend Hex LargestRemainder Pplns PayoutFees Ledger PayoutRequest StoreDb PayoutStore Configuration PayoutWatch WinnerStore Books BatchPlan StoreInv WinnerInv StoreOps StoreEvolve StoreDemo Solvency StoreProps SigningFence WatchRotation Proc WecSigner Settlement PayoutRuntime PayoutExpiry Worker WorkerSafe.
Open Scope Z_scope.

Section Reads.
Context {env : StoreEnv}.

(** ** The chain of a batch *)

Definition of_chain (db : Db) (chain : Chain) (id : Uuid) : Prop :=
  exists row, batches (pay db) !! id = Some row /\ br_chain row = chain.

Lemma of_chain_grows db db' chain id : reachable db -> grows db db' -> of_chain db chain id -> of_chain db' chain id.
Proof.
  intros Hr Hg (row & Hrow & Hc). destruct (grows_advanced db db' _ row Hr Hg Hrow) as (row' & Hrow' & Ha).
  exists row'. split; [done|]. by rewrite (ad_chain _ _ Ha).
Qed.

Lemma load_batches_Ok db ids found : load_batches db ids = Ok found ->
  Forall (fun b => load_payout_batch db (pb_id b) = Ok b) found.
Proof.
  revert found. induction ids as [|id ids IH]; intros found H; cbn in H; [by simplify_eq|].
  bind_in H b Hb. bind_in H bs Hbs. simplify_eq. constructor; [|by apply IH].
  pose proof Hb as (row & seal & _ & _ & -> & _)%load_payout_batch_Ok. done.
Qed.

Lemma oldest_resumable_of_chain db chain found batch :
  list_resumable_payout_batches db chain 1 = Ok found -> last found = Some batch ->
  of_chain db (pb_chain batch) (pb_id batch).
Proof.
  intros H Hlast. unfold list_resumable_payout_batches in H. cbn [negb andb Z.leb Z.compare] in H.
  apply load_batches_Ok in H. rewrite Forall_forall in H.
  destruct (load_payout_batch_Ok db (pb_id batch) batch) as (row & seal & Hrow & _ & _ & Hc & _).
  { apply H. apply last_Some in Hlast as [l ->]. set_solver. }
  by exists row.
Qed.

(** ** Requests *)

Lemma payout_signer_request_id db batch request :
  payout_signer_request db batch = Ok request -> rq_batch_id request = pb_id batch.
Proof.
  unfold payout_signer_request, frozen_payout_signer_request. intros H. run_steps H; by simplify_eq.
Qed.

Lemma requested_later db db' id row' batch request : reachable db -> grows db db' ->
  load_payout_batch db id = Ok batch -> payout_signer_request db batch = Ok request ->
  batches (pay db') !! id = Some row' -> 1 <= rank (br_state row') ->
  requested db' (br_chain row') request /\ rq_batch_id request = id.
Proof.
  intros Hr Hg Hload Hreq Hrow' Hrank. pose proof (load_payout_batch_Ok _ _ _ Hload) as (row & seal & Hrow & _ & Hid & _).
  destruct (grows_advanced db db' _ row Hr Hg Hrow) as (r & Hr' & Ha). rewrite Hrow' in Hr'. injection Hr' as <-.
  pose proof (payout_signer_request_id _ _ _ Hreq) as Hq. rewrite Hid in Hq. split; [|done].
  pose proof (reachable_ok db Hr) as Hok. destruct Hg as (ops & Hwf & ->). pose proof (ops_kept db ops Hr Hwf) as Hk.
  exists row', (in_state batch (br_state row')). rewrite Hq. split_and!; [done|done|done| |].
  - by apply (load_payout_batch_stable _ db _ _ row row' batch (ok_inv _ Hok) Hk).
  - apply (payout_signer_request_stable db); [apply Hok|apply Hk|done].
Qed.

Lemma authorized_signing_state db now id request : snd (authorize_payout_signing db now id) = Ok request ->
  exists row', batches (pay (fst (authorize_payout_signing db now id))) !! id = Some row' /\ br_state row' = Signing.
Proof.
  unfold authorize_payout_signing. destruct (Uuid_is_nil id); [done|]. intros H.
  match type of H with snd (transaction db ?body) = _ =>
    destruct body as [[d r|r]|] eqn:Hbody end; cbn in H; simplify_eq; cbn.
  - bind_in Hbody batch Hload. destruct (pb_state batch) eqn:Hst; try done; [|by run_steps Hbody].
    bind_in Hbody u1 H1. bind_in Hbody u2 H2. bind_in Hbody q H3. bind_in Hbody d' H4. simplify_eq.
    unfold update_payout_state in H4. destruct (batches (pay db) !! id) as [row|]; [|done].
    case_bool_decide; [|done]. simplify_eq. cbn. eexists. by rewrite lookup_insert_eq.
  - bind_in Hbody batch Hload. pose proof (load_payout_batch_Ok _ _ _ Hload) as (row & seal & Hrow & _ & _ & _ & Hs & _).
    exists row. split; [done|]. rewrite <- Hs. destruct (pb_state batch); try done. by run_steps Hbody.
Qed.

(** The answers of [authorize_signing] and [signing_request]. *)
Lemma authorize_signing_requested db now id chain request : reachable db -> of_chain db chain id ->
  snd (authorize_payout_signing db now id) = Ok request ->
  requested (fst (authorize_payout_signing db now id)) chain request /\ rq_batch_id request = id.
Proof.
  intros Hr Hc H. assert (grows db (fst (authorize_payout_signing db now id))) as Hg by (by apply (grows_op db (OpAuthorizeSigning now id))).
  pose proof (of_chain_grows _ _ _ _ Hr Hg Hc) as (row' & Hrow' & <-).
  destruct (authorized_signing_state _ _ _ _ H) as (row & Hrow & Hst). assert (row = row') as -> by congruence.
  pose proof (authorized_request _ _ _ _ H) as (_ & batch & Hload & Hreq).
  eapply (requested_later db); [done|exact Hg|exact Hload|exact Hreq|exact Hrow'|]. by rewrite Hst.
Qed.

Lemma signing_request_requested db id chain request : reachable db -> of_chain db chain id ->
  snd (signing_payout_request db id) = Ok request -> requested db chain request /\ rq_batch_id request = id.
Proof.
  intros Hr (row & Hrow & <-) H. unfold signing_payout_request in H. destruct (Uuid_is_nil id); [done|].
  match type of H with snd (transaction db ?body) = _ =>
    destruct body as [[d r|r]|] eqn:Hbody end; cbn in H; simplify_eq; bind_in Hbody batch Hload;
    case_bool_decide as Hst; try done; bind_in Hbody q Hreq; simplify_eq.
  apply (requested_later db db id row batch); try done.
  pose proof (load_payout_batch_Ok _ _ _ Hload) as (row2 & seal & Hrow2 & _ & _ & _ & Hs & _).
  assert (row2 = row) as -> by congruence. destruct (decide (pb_state batch = Signing)) as [Hsig|]; [|tauto].
  rewrite <- Hs, Hsig. done.
Qed.

(** ** Artifacts *)

Lemma signed_artifact_from_row_Ok id state row artifact : signed_artifact_from_row id state row = Ok artifact ->
  ar_batch_id artifact = id /\ ar_state artifact = state /\ ar_chain artifact = br_chain row /\
  br_signed row = Some (ar_facts artifact).
Proof.
  unfold signed_artifact_from_row. intros H. bind_in H f Hf. apply ok_or_Ok in Hf.
  run_steps H. by simplify_eq.
Qed.

Lemma signed_payout_artifact_Ok db id artifact : signed_payout_artifact db id = Ok (Some artifact) ->
  exists row, batches (pay db) !! id = Some row /\ ar_batch_id artifact = id /\ ar_state artifact = br_state row /\
    ar_chain artifact = br_chain row /\ br_signed row = Some (ar_facts artifact).
Proof.
  unfold signed_payout_artifact. intros H. bind_in H row Hrow. apply ok_or_Ok in Hrow. exists row.
  destruct (br_state row); try done; bind_in H a Ha; simplify_eq; by apply signed_artifact_from_row_Ok in Ha as (-> & -> & -> & ->).
Qed.

(** The exact bytes behind a crossed broadcast fence. *)
Lemma loaded_authorized db id artifact : signed_payout_artifact db id = Ok (Some artifact) ->
  ar_state artifact = Broadcasting \/ ar_state artifact = Broadcast -> authorized db (ar_chain artifact) artifact.
Proof.
  intros (row & Hrow & Hid & Hst & Hc & Hs)%signed_payout_artifact_Ok Hor. exists row. rewrite Hid.
  split_and!; [done..|]. rewrite <- Hst. by destruct Hor as [-> | ->].
Qed.

Lemma authorize_broadcast_authorized db id artifact : snd (authorize_payout_broadcast db id) = Ok artifact ->
  authorized (fst (authorize_payout_broadcast db id)) (ar_chain artifact) artifact.
Proof.
  unfold authorize_payout_broadcast. destruct (Uuid_is_nil id); [done|]. intros H.
  match type of H with snd (transaction db ?body) = _ =>
    destruct body as [[d r|r]|] eqn:Hbody end; cbn in H; simplify_eq; bind_in Hbody row Hrow; apply ok_or_Ok in Hrow;
    destruct (br_state row) eqn:Hst; try done; cbn.
  - bind_in Hbody u Hu. bind_in Hbody d2 Hd. bind_in Hbody a Ha. simplify_eq.
    apply signed_artifact_from_row_Ok in Ha as (Hid & Hs & Hc & Hf). unfold update_payout_state in Hd. rewrite Hrow in Hd.
    rewrite bool_decide_eq_true_2 in Hd by done. simplify_eq. exists (set_state row Broadcasting). cbn.
    rewrite lookup_insert_eq. done.
  - bind_in Hbody a Ha. simplify_eq. apply signed_artifact_from_row_Ok in Ha as (Hid & Hs & Hc & Hf).
    exists row. rewrite Hid, Hst. done.
  - bind_in Hbody a Ha. simplify_eq. apply signed_artifact_from_row_Ok in Ha as (Hid & Hs & Hc & Hf).
    exists row. rewrite Hid, Hst. done.
  - bind_in Hbody u Hu. bind_in Hbody d2 Hd. by bind_in Hbody a Ha.
  - by bind_in Hbody a Ha.
  - by bind_in Hbody a Ha.
Qed.

(** ** Watches and candidates *)

Lemma watches_of_rows_signed db chain rows ws : watches_of_rows chain rows = Ok ws ->
  Forall (fun p => batches (pay db) !! fst p = Some (snd p) /\ br_chain (snd p) = chain) rows ->
  Forall (fun w => signed_txid db chain (pw_batch_id w) (pw_transaction_id w)) ws.
Proof.
  revert ws. induction rows as [|[id row] rows IH]; intros ws H Hrows; cbn in H; [by simplify_eq|].
  apply Forall_cons in Hrows as [[Hrow Hc] Hrows].
  match type of H with context [match ?x with Ok _ => _ | Err _ => _ end] => destruct x as [w|] eqn:Hw; [|done] end.
  bind_in H ws' Hws. simplify_eq. constructor; [|by apply IH].
  bind_in Hw f Hf. apply ok_or_Ok in Hf. bind_in Hw t Ht. destruct (all_zero t); [done|].
  bind_in Hw prior Hp. simplify_eq. exists row, f. split_and!; [done..|]. cbn.
  unfold exact_hash in Ht. by run_steps Ht; simplify_eq.
Qed.

Lemma listed_watches_signed db chain maximum page : list_payout_watches db chain maximum = Ok page ->
  Forall (fun w => signed_txid db chain (pw_batch_id w) (pw_transaction_id w)) (wp_watches page).
Proof.
  unfold list_payout_watches. intros H. case_match; [done|]. bind_in H c Hc. destruct c as [prev gen].
  case_bool_decide; [done|]. bind_in H g Hg. cbv zeta in H. bind_in H ws Hws. case_match; [done|]. simplify_eq. cbn.
  eapply watches_of_rows_signed; [exact Hws|]. apply Forall_app. split; apply Forall_take.
  all: unfold broadcast_rows, confirmed_rows; rewrite Forall_forall; intros [id row];
    rewrite (sort_by_perm _ (rows_in _ _ _)); unfold rows_in; intros [[Hch _] Hin]%list_elem_of_filter; cbn in *;
    by apply elem_of_map_to_list in Hin.
Qed.

Lemma expiry_candidates_carried db ids cs : expiry_candidates db ids = Ok cs ->
  Forall (fun c => carried db (ec_artifact c)) cs.
Proof.
  revert cs. induction ids as [|id ids IH]; intros cs H; cbn [expiry_candidates] in H; [by simplify_eq|].
  bind_in H c Hc. bind_in H cs' Hcs. simplify_eq. constructor; [|by apply IH].
  unfold expiry_candidate in Hc. bind_in Hc row Hrow. apply ok_or_Ok in Hrow. bind_in Hc sl Hseal. bind_in Hc cp Hcp.
  bind_in Hc a Ha. cbv zeta in Hc. case_match; [done|]. bind_in Hc b Hb. bind_in Hc q Hq. case_match; [done|]. simplify_eq.
  apply signed_artifact_from_row_Ok in Ha as (Hid & _ & Hch & Hf). exists row. cbn. rewrite Hid. done.
Qed.

Lemma listed_candidates_carried db maximum after cs : list_payout_expiry_candidates_page db maximum after = Ok cs ->
  Forall (fun c => carried db (ec_artifact c)) cs.
Proof.
  unfold list_payout_expiry_candidates_page. intros H. case_match; [done|]. case_bool_decide; [done|].
  bind_in H ids Hids. by eapply expiry_candidates_carried.
Qed.
End Reads.
