(* ===== verification/WorkerSteps.v ===== *)
(** Symbolic execution of the payout worker: every call it makes is permitted, from any state of
    the world and whatever the others do between two calls. *)

From Stdlib Require Import ZArith Lia.
From stdpp Require Import prelude gmap sorting strings.
From S2P Require Import Prelude Wire Backend Hex LargestRemainder Pplns PayoutFees Ledger PayoutRequest StoreDb PayoutStore Configuration PayoutWatch WinnerStore Books BatchPlan StoreInv WinnerInv StoreOps StoreEvolve StoreDemo Solvency StoreProps SigningFence WatchRotation Proc WecSigner Settlement PayoutRuntime PayoutExpiry Worker WorkerSafe WorkerReads.
Open Scope Z_scope.

Section Steps.
Context {env : StoreEnv}.

(** A procedure that runs to [Q] from [w], making permitted calls only. *)
Definition safe {A} (p : proc WorkerCall A) (Q : A -> World -> Prop) (w : World) : Prop :=
  wp handles permitted rely p Q w.

Definition anything {A} (_ : A) (_ : World) : Prop := True.

Lemma rely_reachable w w' : rely w w' -> reachable (w_db w) -> reachable (w_db w').
Proof. intros [Hg _]. by apply grows_reachable. Qed.

Lemma safe_ret {A} (a : A) (Q : A -> World -> Prop) w : (forall w', rely w w' -> Q a w') -> safe (Ret a) Q w.
Proof. by apply wp_ret. Qed.

Lemma safe_done {A} (a : A) w : safe (Ret a) anything w.
Proof. by apply safe_ret. Qed.

Lemma safe_call {A R} (e : WorkerCall R) (k : R -> proc WorkerCall A) Q w : reachable (w_db w) ->
  (forall w0, rely w w0 -> permitted R e w0) ->
  (forall r w0 w1, rely w w0 -> rely w0 w1 -> rely w w1 -> reachable (w_db w0) -> reachable (w_db w1) ->
     handles R e w0 r w1 -> safe (k r) Q w1) ->
  safe (Vis e k) Q w.
Proof.
  intros Hr Hp Hk. apply wp_vis. intros w0 H0. split; [by apply Hp|]. intros r w1 Hh.
  pose proof (progressed_rely _ _ (call_progressed R e w0 r w1 (Hp w0 H0) Hh)) as H1.
  apply (Hk r w0); [done..|by etrans| | |done]; eauto using rely_reachable.
Qed.

(** A call that needs no warrant and whose answer is not relied on. *)
Lemma safe_any {A R} (e : WorkerCall R) (k : R -> proc WorkerCall A) Q w : reachable (w_db w) ->
  (forall w0, permitted R e w0) ->
  (forall r w1, rely w w1 -> reachable (w_db w1) -> safe (k r) Q w1) -> safe (Vis e k) Q w.
Proof. intros Hr Hp Hk. apply safe_call; [done|auto|]. intros r w0 w1 _ _ H1 _ Hr1 _. by apply Hk. Qed.

Lemma safe_bind {A B} (p : proc WorkerCall A) (f : A -> proc WorkerCall B) P Q w :
  safe p P w -> (forall a w', P a w' -> safe (f a) Q w') -> safe (bind p f) Q w.
Proof. intros Hp Hf. apply wp_bind; [apply _|]. eapply wp_mono; [|exact Hp]. done. Qed.

Lemma safe_bind_ok {A B X} (p : proc WorkerCall (result A X)) (f : A -> proc WorkerCall (result B X)) P Q w :
  safe p P w -> (forall a w', P (Ok a) w' -> safe (f a) Q w') ->
  (forall x w', P (Err x) w' -> safe (Ret (Err x)) Q w') -> safe (bind_ok p f) Q w.
Proof. intros Hp Hf Hx. eapply safe_bind; [exact Hp|]. intros [a|x] w' HP; [by apply Hf|by apply Hx]. Qed.

Lemma safe_mono {A} (p : proc WorkerCall A) (P Q : A -> World -> Prop) w :
  (forall a w', P a w' -> Q a w') -> safe p P w -> safe p Q w.
Proof. by apply wp_mono. Qed.

(** The state a procedure may be left in, which keeps what was known before it. *)
Definition after {A} (w : World) (Q : A -> World -> Prop) (a : A) (w' : World) : Prop :=
  rely w w' /\ Q a w'.

Lemma safe_after {A} (p : proc WorkerCall A) Q w : reachable (w_db w) -> safe p Q w -> safe p (after w Q) w.
Proof.
  intros Hr. assert (forall v, rely w v -> safe p Q v -> safe p (after w Q) v) as H; [|by apply H].
  induction p as [a|R e k IH]; intros v Hv Hp v0 H0.
  - split; [by etrans|by apply Hp].
  - destruct (Hp v0 H0) as [Hpre Hk]. split; [done|]. intros r v1 Hh. apply IH; [|by apply Hk].
    etrans; [by etrans|]. by eapply progressed_rely, call_progressed.
Qed.

(** [safe_bind] when only the store's history matters afterwards. *)
Lemma safe_seq {A B} (p : proc WorkerCall A) (f : A -> proc WorkerCall B) Q w : reachable (w_db w) ->
  safe p anything w -> (forall a w', rely w w' -> reachable (w_db w') -> safe (f a) Q w') ->
  safe (bind p f) Q w.
Proof.
  intros Hr Hp Hf. eapply safe_bind; [by apply safe_after|]. intros a w' [Hrely _]. eauto using rely_reachable.
Qed.

Lemma safe_seq_ok {A B X} (p : proc WorkerCall (result A X)) (f : A -> proc WorkerCall (result B X)) w :
  reachable (w_db w) -> safe p anything w ->
  (forall a w', rely w w' -> reachable (w_db w') -> safe (f a) anything w') -> safe (bind_ok p f) anything w.
Proof. intros Hr Hp Hf. apply safe_seq; [done|done|]. intros [a|x] w' H1 H2; [by apply Hf|apply safe_done]. Qed.

Lemma safe_seq_mapping {A X Y} (wrap : X -> Y) (p : proc WorkerCall (result A X)) w :
  reachable (w_db w) -> safe p anything w -> safe (mapping wrap p) anything w.
Proof. intros Hr Hp. apply safe_seq; [done|done|]. intros a w' _ _. apply safe_done. Qed.

Lemma safe_rely {A} (p : proc WorkerCall A) Q w w' : rely w w' -> safe p Q w -> safe p Q w'.
Proof. apply wp_rely. apply _. Qed.
End Steps.

(** One call at the head of the procedure. *)
Ltac step_call :=
  cbn [bind bind_ok call call_err at_boundary mapping map_err ok_or]; apply safe_call; [done| |].
Ltac step_any :=
  cbn [bind bind_ok call call_err at_boundary mapping map_err ok_or]; apply safe_any; [done|done|].
