(* ===== verification/WorkerSettles.v ===== *)
(** The settlement coordinator over the calls of the worker makes permitted calls only. *)

From Stdlib Require Import ZArith Lia.
From stdpp Require Import prelude gmap sorting strings.
From S2P Require Import Prelude Wire Backend Hex LargestRemainder Pplns PayoutFees Ledger PayoutRequest StoreDb PayoutStore Configuration PayoutWatch WinnerStore Books BatchPlan StoreInv WinnerInv StoreOps StoreEvolve StoreDemo Solvency StoreProps SigningFence WatchRotation Proc WecSigner Settlement PayoutRuntime PayoutExpiry Worker WorkerSafe WorkerReads WorkerSteps.
Open Scope Z_scope.

Section Settles.
Context {env : StoreEnv}.
Variable zec : bool.

Definition chain_boundary (chain : Chain) : ChainBoundary WorkerCall :=
  mkChainBoundary _ (chain_signer chain) (chain_broadcaster chain).

Lemma boundary_chain chain b : boundary (orchestrator zec) chain = Ok b -> b = chain_boundary chain.
Proof. destruct chain, zec; cbn; intros H; by simplify_eq. Qed.

(** ** Broadcasting *)

Lemma submit_authorized_safe batch artifact w : reachable (w_db w) ->
  ar_batch_id artifact = pb_id batch -> authorized (w_db w) (pb_chain batch) artifact ->
  safe (submit_authorized (orchestrator zec) batch artifact (chain_boundary (pb_chain batch))) anything w.
Proof.
  intros Hr Hid Ha. unfold submit_authorized. case_bool_decide; [apply safe_done|]. step_call.
  { intros w0 [Hg _]. cbn. by apply (authorized_grows (w_db w)). }
  intros [[]|x] w0 w1 _ _ _ _ Hr1 Hh; cbn [bind map_err]; [|apply safe_done].
  step_call; [|intros [u|x] w2 w3 _ _ _ _ _ _; apply safe_done].
  intros w2 [_ Hl]. cbn. exists (pb_chain batch), artifact. split; [done|]. apply Hl.
  destruct Hh as (_ & _ & -> & _). set_solver.
Qed.

Lemma rebroadcast_committed_safe batch artifact w : reachable (w_db w) ->
  (ar_state artifact = Broadcast -> authorized (w_db w) (pb_chain batch) artifact) ->
  safe (rebroadcast_committed batch artifact (chain_boundary (pb_chain batch))) anything w.
Proof.
  intros Hr Ha. unfold rebroadcast_committed. case_bool_decide as Hst; [apply safe_done|].
  destruct (decide (ar_state artifact = Broadcast)) as [Hb|]; [|tauto]. step_call.
  { intros w0 [Hg _]. cbn. apply (authorized_grows (w_db w)); auto. }
  intros [u|x] w0 w1 _ _ _ _ _ _; apply safe_done.
Qed.

Definition loaded (batch : PayoutBatch) (r : result SignedPayoutArtifact SettlementError) (w : World) : Prop :=
  reachable (w_db w) /\
  match r with
  | Ok artifact => ar_batch_id artifact = pb_id batch /\
      (ar_state artifact = Broadcasting \/ ar_state artifact = Broadcast ->
       authorized (w_db w) (pb_chain batch) artifact)
  | Err _ => True
  end.

Lemma loaded_rely batch r w w' : rely w w' -> loaded batch r w -> loaded batch r w'.
Proof.
  intros Hrely [Hr H]. split; [by eapply rely_reachable|]. destruct r as [artifact|]; [|done]. destruct H as [Hid Ha].
  split; [done|]. intros Hst. apply (authorized_grows (w_db w)); [done|apply Hrely|auto].
Qed.

Lemma load_exact_artifact_safe batch w : reachable (w_db w) -> safe (load_exact_artifact (orchestrator zec) batch) (loaded batch) w.
Proof.
  intros Hr. unfold load_exact_artifact. cbn [so_store orchestrator signed_artifact postgres_settlement_store].
  step_call; [done|]. intros r w0 w1 _ _ _ Hr0 Hr1 [-> Hread].
  assert (forall x, safe (Ret (Err x)) (loaded batch) w0) as Herr.
  { intros x. apply safe_ret. intros w' H. split; [by eapply rely_reachable|done]. }
  destruct Hread as [-> |(x & ->)]; [|apply Herr].
  destruct (signed_payout_artifact (w_db w0) (pb_id batch)) as [[artifact|]|x] eqn:Hart; cbn; [|apply Herr..].
  case_match eqn:Hbad; [apply Herr|]. boolprop. apply safe_ret. intros w' H'. eapply loaded_rely; [done|]. split; [done|].
  pose proof (signed_payout_artifact_Ok _ _ _ Hart) as (row & _ & Hid & _). split; [done|]. intros Hst.
  replace (pb_chain batch) with (ar_chain artifact); [by eapply loaded_authorized|].
  destruct (decide (ar_chain artifact = pb_chain batch)); [done|]. tauto.
Qed.

Lemma resume_broadcasting_safe batch w : reachable (w_db w) ->
  safe (resume_broadcasting (orchestrator zec) batch (chain_boundary (pb_chain batch))) anything w.
Proof.
  intros Hr. eapply safe_bind_ok; [by apply load_exact_artifact_safe| |intros; apply safe_done].
  intros artifact w' (Hr' & Hid & Ha).
  destruct (decide (ar_state artifact = Broadcasting)) as [Hst|Hst].
  - apply submit_authorized_safe; auto.
  - unfold submit_authorized. rewrite bool_decide_eq_true_2 by done. apply safe_done.
Qed.

Lemma resume_signed_safe batch w : reachable (w_db w) ->
  safe (resume_signed (orchestrator zec) batch (chain_boundary (pb_chain batch))) anything w.
Proof.
  intros Hr. unfold resume_signed. cbn [so_store orchestrator authorize_broadcast postgres_settlement_store].
  step_call; [done|]. intros r w0 w1 _ _ _ Hr0 Hr1 (_ & _ & Hdb).
  destruct r as [artifact|x]; cbn [bind map_err]; [|apply safe_done].
  destruct Hdb as [[Hdb Hs]|(e & ? & _)]; [|done]. symmetry in Hs. apply authorize_broadcast_authorized in Hs.
  rewrite <- Hdb in Hs. case_match eqn:Hb; [apply safe_done|]. apply orb_false_iff in Hb as [Hb1 Hb2].
  apply bool_decide_eq_false in Hb2. boolprop.
  destruct (ar_state artifact); try apply safe_done. apply submit_authorized_safe; [done|done|].
  destruct (decide (ar_chain artifact = pb_chain batch)) as [<-|]; [done|tauto].
Qed.

(** ** Signing *)

Lemma validate_against_id x request : validate_against x request = Ok tt -> rq_batch_id request = rx_batch_id x.
Proof.
  unfold validate_against. intros H. bind_in H t Ht. bind_in H c Hc. case_match eqn:Hbad; [done|].
  repeat apply orb_false_iff in Hbad as [Hbad _]. boolprop. done.
Qed.

(** A validated execution of a request may be recorded. *)
Lemma mark_signed_permitted chain request x w : validate_against x request = Ok tt -> rich_typed x ->
  DidPrepare chain request (Ok x) ∈ w_log w \/ DidRecover chain request (Ok (Some x)) ∈ w_log w ->
  permitted _ (MarkSigned (as_store_artifact x chain)) w.
Proof. intros Hv Ht Hl. exists request, x. split_and!; [by apply validate_against_id|done..]. Qed.

Lemma cancel_permitted chain request id w : rq_batch_id request = id ->
  DidPrepare chain request (Err BoundaryRejected) ∈ w_log w -> permitted _ (CancelRejectedSigning id) w.
Proof. intros Hid Hl. by exists chain, request. Qed.

Lemma prepare_permitted chain request w w0 : reachable (w_db w) -> requested (w_db w) chain request ->
  rely w w0 -> requested (w_db w0) chain request.
Proof. intros Hr Hq [Hg _]. by apply (requested_grows (w_db w)). Qed.

Lemma sign_and_submit_safe batch request w : reachable (w_db w) -> requested (w_db w) (pb_chain batch) request ->
  safe (sign_and_submit (orchestrator zec) batch request (chain_boundary (pb_chain batch))) anything w.
Proof.
  intros Hr Hq. unfold sign_and_submit. case_match eqn:Hb; [apply safe_done|]. apply orb_false_iff in Hb as [Hb _]. boolprop.
  cbn [prepare_exact cb_signer chain_boundary chain_signer]. step_call; [intros w0; by apply prepare_permitted|].
  intros [x|failure] w0 w1 _ _ _ _ Hr1 (_ & _ & Hl & Ht).
  - destruct (validate_against x request) as [[]|] eqn:Hv; cbn [bind_ok bind]; [|apply safe_done].
    cbn [so_store orchestrator mark_signed postgres_settlement_store]. step_call.
    { intros w2 [_ Hl2]. apply (mark_signed_permitted _ request); [done..|]. left. apply Hl2. rewrite Hl. set_solver. }
    intros [u|e] w2 w3 _ _ _ _ Hr3 _; cbn [bind map_err]; [|apply safe_done].
    by apply (resume_signed_safe (in_state batch Signed)).
  - destruct failure; try apply safe_done.
    cbn [so_store orchestrator cancel_rejected_signing postgres_settlement_store]. step_call.
    { intros w2 [_ Hl2]. apply (cancel_permitted (pb_chain batch) request); [done|]. apply Hl2. rewrite Hl. set_solver. }
    intros [u|e] w2 w3 _ _ _ _ _ _; apply safe_done.
Qed.

Lemma resume_signing_safe batch w : reachable (w_db w) -> of_chain (w_db w) (pb_chain batch) (pb_id batch) ->
  safe (resume_signing (orchestrator zec) batch (chain_boundary (pb_chain batch))) anything w.
Proof.
  intros Hr Hc. unfold resume_signing. cbn [so_store orchestrator signing_request postgres_settlement_store].
  step_call; [done|]. intros [request|e] w0 w1 H0 _ _ Hr0 Hr1 (_ & _ & Hdb); cbn [bind map_err]; [|apply safe_done].
  destruct Hdb as [[Hdb Hs]|(e & ? & _)]; [|done]. rewrite signing_payout_request_db in Hdb. symmetry in Hs.
  apply sign_and_submit_safe; [done|]. rewrite Hdb.
  eapply signing_request_requested; [done|by apply (of_chain_grows (w_db w)); [|apply H0|]|exact Hs].
Qed.

Lemma resume_draft_safe batch w : reachable (w_db w) -> of_chain (w_db w) (pb_chain batch) (pb_id batch) ->
  safe (resume_draft (orchestrator zec) batch (chain_boundary (pb_chain batch))) anything w.
Proof.
  intros Hr Hc. unfold resume_draft. cbn [so_store orchestrator authorize_signing postgres_settlement_store].
  step_call; [done|]. intros [request|e] w0 w1 H0 _ _ Hr0 Hr1 (now & _ & _ & Hdb); cbn [bind map_err]; [|apply safe_done].
  destruct Hdb as [[Hdb Hs]|(e & ? & _)]; [|done]. symmetry in Hs.
  apply (sign_and_submit_safe (in_state batch Signing)); [done|]. rewrite Hdb.
  eapply authorize_signing_requested; [done|by apply (of_chain_grows (w_db w)); [|apply H0|]|exact Hs].
Qed.

(** ** The two entry points *)

(** The oldest incomplete batch is one of the chain. *)
Lemma oldest_resumable_safe {B} chain (f : option PayoutBatch -> proc WorkerCall (result B SettlementError)) w :
  reachable (w_db w) ->
  (forall found w', reachable (w_db w') ->
     (forall batch, found = Some batch -> of_chain (w_db w') (pb_chain batch) (pb_id batch)) ->
     safe (f found) anything w') ->
  safe (bind_ok (oldest_resumable (so_store (orchestrator zec)) chain) f) anything w.
Proof.
  intros Hr Hf. cbn [so_store orchestrator oldest_resumable postgres_settlement_store]. step_call; [done|].
  intros r w0 w1 _ _ _ Hr0 _ [-> Hread]. destruct Hread as [-> |(x & ->)]; [|apply safe_done].
  destruct (list_resumable_payout_batches (w_db w0) chain 1) as [found|] eqn:Hlist; cbn; [|apply safe_done].
  apply Hf; [done|]. intros batch Hlast. by eapply oldest_resumable_of_chain.
Qed.

Lemma resume_next_safe chain w : reachable (w_db w) -> safe (resume_next (orchestrator zec) chain) anything w.
Proof.
  intros Hr. apply oldest_resumable_safe; [done|]. intros [batch|] w' Hr' Hc; [|apply safe_done].
  specialize (Hc batch eq_refl). case_bool_decide as Hch; [apply safe_done|].
  destruct (boundary (orchestrator zec) chain) as [b|] eqn:Hb; cbn [bind_ok bind]; [|apply safe_done].
  apply boundary_chain in Hb as ->. destruct (decide (pb_chain batch = chain)) as [<-|]; [|tauto].
  destruct (pb_state batch); try apply safe_done.
  - by apply resume_draft_safe.
  - by apply resume_signing_safe.
  - by apply resume_signed_safe.
  - by apply resume_broadcasting_safe.
  - eapply safe_bind_ok; [by apply load_exact_artifact_safe| |intros; apply safe_done].
    intros artifact w2 (Hr2 & _ & Ha). apply rebroadcast_committed_safe; auto.
  - eapply safe_bind_ok; [by apply load_exact_artifact_safe|intros; apply safe_done..].
Qed.

Lemma recover_signing_safe chain batch w : reachable (w_db w) -> of_chain (w_db w) (pb_chain batch) (pb_id batch) ->
  pb_chain batch = chain -> safe (recover_signing (orchestrator zec) chain batch (chain_boundary chain)) anything w.
Proof.
  intros Hr Hc <-. unfold recover_signing. cbn [so_store orchestrator signing_request postgres_settlement_store].
  step_call; [done|]. intros [request|e] w0 w1 H0 _ _ Hr0 Hr1 (_ & _ & Hdb); cbn [bind map_err]; [|apply safe_done].
  destruct Hdb as [[Hdb Hs]|(e & ? & _)]; [|done]. rewrite signing_payout_request_db in Hdb. symmetry in Hs.
  assert (requested (w_db w1) (pb_chain batch) request) as Hq.
  { rewrite Hdb. eapply signing_request_requested; [done|by apply (of_chain_grows (w_db w)); [|apply H0|]|exact Hs]. }
  case_match eqn:Hb; [apply safe_done|]. apply orb_false_iff in Hb as [Hb _]. boolprop.
  assert (forall x w2, reachable (w_db w2) -> rich_typed x ->
    DidPrepare (pb_chain batch) request (Ok x) ∈ w_log w2 \/ DidRecover (pb_chain batch) request (Ok (Some x)) ∈ w_log w2 ->
    safe (do! Ret (validate_against x request) in
          do! mark_signed (so_store (orchestrator zec)) (as_store_artifact x (pb_chain batch)) in
          Ret (Ok ExternalEffectPending)) anything w2) as Hfinish.
  { intros x w2 Hr2 Ht Hl. destruct (validate_against x request) as [[]|] eqn:Hv; cbn [bind_ok bind]; [|apply safe_done].
    cbn [so_store orchestrator mark_signed postgres_settlement_store]. step_call.
    - intros w3 [_ Hl3]. apply (mark_signed_permitted _ request); [done..|]. set_solver.
    - intros [u|e] w3 w4 _ _ _ _ _ _; apply safe_done. }
  cbn [recover_exact cb_signer chain_boundary chain_signer]. step_call; [intros w2; by apply prepare_permitted|].
  intros [[x|]|failure] w2 w3 _ _ H13 _ Hr3 (_ & _ & Hl & Ht); cbn [bind map_err]; [| |apply safe_done].
  - apply Hfinish; [done..|]. right. rewrite Hl. set_solver.
  - cbn [prepare_exact cb_signer chain_boundary chain_signer]. step_call.
    { intros w4 H4. apply (prepare_permitted _ _ w1); [done..|by etrans]. }
    intros [x|failure] w4 w5 _ _ _ _ Hr5 (_ & _ & Hl5 & Ht5).
    + apply Hfinish; [done..|]. left. rewrite Hl5. set_solver.
    + destruct failure; try apply safe_done.
      cbn [so_store orchestrator cancel_rejected_signing postgres_settlement_store]. step_call.
      { intros w6 [_ Hl6]. apply (cancel_permitted (pb_chain batch) request); [done|]. apply Hl6. rewrite Hl5. set_solver. }
      intros [u|e] w6 w7 _ _ _ _ _ _; apply safe_done.
Qed.

Lemma recover_safe chain w : reachable (w_db w) ->
  safe (recover_before_wallet_reconciliation (orchestrator zec) chain) anything w.
Proof.
  intros Hr. apply oldest_resumable_safe; [done|]. intros [batch|] w' Hr' Hc; [|apply safe_done].
  specialize (Hc batch eq_refl). case_bool_decide as Hch; [apply safe_done|].
  destruct (boundary (orchestrator zec) chain) as [b|] eqn:Hb; cbn [bind_ok bind]; [|apply safe_done].
  apply boundary_chain in Hb as ->. destruct (decide (pb_chain batch = chain)) as [<-|]; [|tauto].
  destruct (pb_state batch); try apply safe_done.
  - by apply recover_signing_safe.
  - apply safe_seq_ok; [done|by apply resume_broadcasting_safe|intros; apply safe_done].
Qed.
End Settles.
