(* ===== verification/RuntimeChecks.v ===== *)
(** What the payout runtime's checks establish (crates/wcash-poold/src/payout_runtime.rs): a
    validator snapshot answers every watch exactly once with evidence bound to it; the retry
    delays stay within the policy; the idempotency key commits to its inputs. *)

From Stdlib Require Import ZArith Lia.
From stdpp Require Import prelude gmap sorting strings.
From S2P Require Import Prelude Wire Backend Hex LargestRemainder Pplns PayoutFees Ledger PayoutRequest StoreDb PayoutStore Configuration PayoutWatch WinnerStore Books BatchPlan StoreInv WinnerInv StoreOps StoreDemo Proc Settlement PayoutRuntime.
Open Scope Z_scope.

(** ** Validator snapshots *)

(** The response of a snapshot that answers a watch. *)
Definition answers (s : AuthoritySnapshot) (watch : PayoutWatch) (o : AuthorityPayoutObservation) : Prop :=
  o ∈ as_payouts s /\ ao_batch_id o = pw_batch_id watch /\ ao_transaction_id o = pw_transaction_id watch /\
  match ao_state o with
  | AuthorityPending => pw_state watch = Broadcast
  | AuthorityMined c =>
      pc_confirmations c = as_best_tip_height s - pc_block_height c + 1 /\ 0 < pc_confirmations c <= U32_MAX /\
      all_zero (pc_block_hash c) = false /\ pc_block_height c <> 0 /\
      forall prior, pw_prior_confirmation watch = Some prior ->
        pc_block_hash c = pc_block_hash prior /\ pc_block_height c = pc_block_height prior /\
        pc_confirmations prior <= pc_confirmations c
  | AuthorityReorged e =>
      pw_state watch = Confirmed /\ pw_prior_confirmation watch = Some (rg_prior_confirmation e) /\
      rg_replacement_tip_hash e = as_best_tip_hash s /\ rg_replacement_tip_height e = as_best_tip_height s /\
      rg_observed_at e = as_observed_at s
  end.

(** A watch the store may hand out. *)
Definition watch_wf (chain : Chain) (watch : PayoutWatch) : Prop :=
  pw_chain watch = chain /\ Uuid_is_nil (pw_batch_id watch) = false /\ all_zero (pw_transaction_id watch) = false /\
  (pw_state watch = Broadcast /\ pw_prior_confirmation watch = None \/
   pw_state watch = Confirmed /\ is_Some (pw_prior_confirmation watch)).

Lemma validate_confirmation_Ok chain s c : validate_confirmation chain s c = Ok tt <->
  pc_confirmations c = as_best_tip_height s - pc_block_height c + 1 /\ 0 < pc_confirmations c <= U32_MAX /\
  all_zero (pc_block_hash c) = false /\ pc_block_height c <> 0.
Proof.
  unfold validate_confirmation. cbv zeta. unfold checked_sub, checked_add. split.
  - case_match eqn:Hb; [done|]. intros _. boolprop. match goal with H : ~ (_ <> _) |- _ => apply dec_stable in H; rename H into Hx end.
    destruct (pc_block_height c <=? as_best_tip_height s) eqn:Hl; [|done]. cbn in Hx. destruct (_ <=? U32_MAX) eqn:Hm in Hx; [|done]. simplify_eq. boolprop. by split_and!; try lia.
  - intros (Hc & Hr & -> & Hh). rewrite (proj2 (Z.eqb_neq _ _) Hh).
    rewrite (proj2 (Z.leb_le _ _)) by lia. cbn. rewrite (proj2 (Z.leb_le _ _)) by lia.
    rewrite bool_decide_eq_false_2; [done|]. intros H. apply H. f_equal. lia.
Qed.

Lemma validate_response_Ok chain s watch o : validate_response chain s watch o = Ok tt ->
  o ∈ as_payouts s -> ao_batch_id o = pw_batch_id watch -> ao_transaction_id o = pw_transaction_id watch ->
  answers s watch o.
Proof.
  unfold validate_response, answers. intros H Hin Hid Ht. split_and!; [done..|].
  destruct (ao_state o) as [|c|e]; [by destruct (pw_state watch)| |].
  - assert (validate_confirmation chain s c = Ok tt /\ match pw_prior_confirmation watch with
      | Some prior => bool_decide (pc_block_hash c <> pc_block_hash prior)
             || negb (pc_block_height c =? pc_block_height prior) || (pc_confirmations c <? pc_confirmations prior) = false
      | None => True end) as [Hc Hprior].
    { destruct (pw_state watch); try done; bind_in H u Hu; destruct u; (split; [done|]);
        destruct (pw_prior_confirmation watch); try done; by case_match. }
    apply validate_confirmation_Ok in Hc. split_and!; [apply Hc..|]. intros prior Hp. rewrite Hp in Hprior.
    boolprop. split_and!; try lia. apply dec_stable. tauto.
  - destruct (pw_state watch); try done. case_match eqn:Hb; [done|]. boolprop.
    split_and!; try done; try lia; apply dec_stable; tauto.
Qed.

(** Nothing else is asked of a response. *)
Lemma answers_validate chain s watch o : watch_wf chain watch -> answers s watch o -> validate_response chain s watch o = Ok tt.
Proof.
  unfold validate_response, answers. intros (_ & _ & _ & Hst) (_ & _ & _ & H). destruct (ao_state o) as [|c|e].
  - by rewrite H.
  - assert (validate_confirmation chain s c = Ok tt) as -> by (apply validate_confirmation_Ok; tauto).
    destruct H as (_ & _ & _ & _ & Hp). destruct Hst as [[-> ->]|[-> [prior Eq]]]; [done|]. rewrite Eq. cbn [bind_ok].
    destruct (Hp prior Eq) as (H1 & H2 & H3). rewrite bool_decide_eq_false_2 by tauto.
    rewrite (proj2 (Z.eqb_eq _ _) H2), (proj2 (Z.ltb_ge _ _) H3). done.
  - destruct H as (-> & H1 & H2 & H3 & H4). rewrite !bool_decide_eq_false_2 by tauto. by rewrite H3, H4, !Z.eqb_refl.
Qed.

Lemma index_watches_Ok chain ws acc m : index_watches chain ws acc = Ok m ->
  acc ⊆ m /\ Forall (fun w => m !! pw_batch_id w = Some w) ws /\
  dom m = dom acc ∪ list_to_set (pw_batch_id <$> ws) /\
  NoDup (pw_batch_id <$> ws) /\ Forall (fun w => pw_chain w = chain /\ acc !! pw_batch_id w = None) ws.
Proof.
  revert acc. induction ws as [|w ws IH]; intros acc H; cbn in H; [simplify_eq; split_and!; [done..|cbn; set_solver|constructor|done]|].
  case_match eqn:Hb; [done|]. repeat (apply orb_false_iff in Hb as [Hb ?]). boolprop.
  assert (acc !! pw_batch_id w = None) as Hfresh.
  { apply eq_None_not_Some. intros Hs. tauto. }
  apply IH in H as (Hsub & Hall & Hdom & Hnd & Hch). rewrite Forall_forall in Hch. split_and!.
  - etrans; [|exact Hsub]. by apply insert_subseteq.
  - constructor; [|done]. eapply lookup_weaken; [|exact Hsub]. apply lookup_insert_eq.
  - rewrite Hdom, dom_insert_L. cbn. set_solver.
  - cbn. constructor; [|done]. intros (w' & Heq & Hin)%list_elem_of_fmap. destruct (Hch w' Hin) as [_ Hn].
    by rewrite <- Heq, lookup_insert_eq in Hn.
  - constructor; [split; [apply dec_stable; tauto|done]|]. rewrite Forall_forall. intros w' Hin.
    destruct (Hch w' Hin) as [Hc Hn]. split; [done|]. by apply lookup_insert_None in Hn as [? _].
Qed.

Lemma index_responses_Ok chain s requested ps acc seen m :
  index_responses chain s requested ps acc seen = Ok m -> ps ⊆ as_payouts s ->
  (forall id o, acc !! id = Some o -> exists watch, requested !! id = Some watch /\ answers s watch o) ->
  (forall id watch, requested !! id = Some watch -> pw_batch_id watch = id) ->
  (forall id o, m !! id = Some o -> exists watch, requested !! id = Some watch /\ answers s watch o) /\
  size m = (size acc + length ps)%nat.
Proof.
  intros H Hps Hacc Hreq. revert acc seen H Hps Hacc. induction ps as [|o ps IH]; intros acc seen H Hps Hacc; cbn in H.
  { simplify_eq. split; [done|cbn; lia]. }
  bind_in H watch Hw. apply ok_or_Ok in Hw. case_match eqn:Hb; [done|]. boolprop. bind_in H u Hu. destruct u.
  assert (acc !! ao_batch_id o = None) as Hfresh by (apply eq_None_not_Some; tauto).
  assert (answers s watch o) as Hans.
  { eapply validate_response_Ok; [done|set_solver|by rewrite (Hreq _ _ Hw)|apply dec_stable; tauto]. }
  apply IH in H as [Hm Hsize]; [|set_solver|].
  - split; [done|]. rewrite Hsize, map_size_insert_None by done. cbn. lia.
  - intros id o' [[<- <-]|[_ Ho]]%lookup_insert_Some; [by exists watch|by apply Hacc].
Qed.

Lemma index_watches_keys chain ws m : index_watches chain ws ∅ = Ok m ->
  forall id watch, m !! id = Some watch -> pw_batch_id watch = id.
Proof.
  assert (forall acc, (forall id watch, acc !! id = Some watch -> pw_batch_id watch = id) ->
    index_watches chain ws acc = Ok m -> forall id watch, m !! id = Some watch -> pw_batch_id watch = id) as Hgen.
  { induction ws as [|w ws IH]; intros acc Hacc H; cbn in H; [by simplify_eq|]. case_match; [done|].
    eapply IH; [|exact H]. intros id watch [[<- <-]|[_ Hl]]%lookup_insert_Some; [done|by apply Hacc]. }
  apply Hgen. intros id watch. by rewrite lookup_empty.
Qed.

Lemma validated_answers chain watches s observations :
  validate_authority_snapshot chain watches s = Ok observations ->
  NoDup (pw_batch_id <$> watches) /\ Forall (fun watch => pw_chain watch = chain) watches /\
  size observations = length watches /\
  dom observations ⊆ list_to_set (pw_batch_id <$> watches) /\
  (forall watch o, watch ∈ watches -> observations !! pw_batch_id watch = Some o -> answers s watch o).
Proof.
  unfold validate_authority_snapshot. intros H. case_match eqn:Hb; [done|]. boolprop.
  bind_in H req Hreq. pose proof (index_watches_keys _ _ _ Hreq) as Hkeys.
  pose proof (index_watches_Ok _ _ _ _ Hreq) as (_ & Hall & Hdom & Hnd & Hch).
  pose proof (index_responses_Ok _ _ _ _ _ _ _ H ltac:(done) ltac:(intros id o; by rewrite lookup_empty) Hkeys) as [Hm Hsize].
  rewrite map_size_empty in Hsize. cbn in Hsize. rewrite dom_empty_L, (union_empty_l_L (C := gset Uuid)) in Hdom. split_and!.
  - done.
  - eapply Forall_impl; [exact Hch|]. by intros w [? _].
  - rewrite Hsize. by apply Nat.eqb_eq.
  - intros id [o Ho]%elem_of_dom. destruct (Hm id o Ho) as (watch & Hw & _). rewrite <- Hdom. by apply elem_of_dom_2 in Hw.
  - intros watch o Hin Ho. destruct (Hm _ o Ho) as (watch' & Hw & Ha). rewrite Forall_forall in Hall.
    rewrite (Hall watch Hin) in Hw. by simplify_eq.
Qed.

(** ** The loops accept what is well formed *)

Lemma index_watches_wf chain ws acc m : index_watches chain ws acc = Ok m -> Forall (watch_wf chain) ws.
Proof.
  revert acc. induction ws as [|w ws IH]; intros acc H; cbn in H; [done|]. case_match eqn:Hb; [done|]. boolprop.
  constructor; [|by eapply IH]. split; [apply dec_stable; tauto|]. split; [done|]. split; [done|].
  destruct (pw_state w), (pw_prior_confirmation w); try done; [by left|by right; eauto].
Qed.

Lemma index_watches_total chain ws acc : Forall (watch_wf chain) ws -> NoDup (pw_batch_id <$> ws) ->
  Forall (fun w => acc !! pw_batch_id w = None) ws -> exists m, index_watches chain ws acc = Ok m.
Proof.
  revert acc. induction ws as [|w ws IH]; intros acc Hwf Hnd Hacc; [by exists acc|]. cbn [index_watches].
  apply Forall_cons in Hwf as [(Hc & Hn & Hz & Hst) Hwf]. apply Forall_cons in Hacc as [Hw Hacc]. cbn in Hnd. apply NoDup_cons in Hnd as [Hin Hnd].
  rewrite Hn, Hz, Hw, (bool_decide_eq_false_2 (pw_chain w <> chain)), (bool_decide_eq_false_2 (is_Some None)) by (tauto || by intros []).
  assert (negb (bool_decide (pw_state w = Broadcast) || bool_decide (pw_state w = Confirmed)) = false /\
    negb (Bool.eqb (bool_decide (pw_state w = Confirmed)) (bool_decide (is_Some (pw_prior_confirmation w)))) = false) as [-> ->].
  { by destruct Hst as [[-> ->]|[-> [prior ->]]]. }
  cbn [orb]. apply IH; [done|done|]. rewrite Forall_forall in *. intros x Hx. rewrite lookup_insert_ne; [by apply Hacc|].
  intros E. apply Hin. apply list_elem_of_fmap. by exists x.
Qed.

Lemma index_responses_distinct chain s requested ps acc seen m : index_responses chain s requested ps acc seen = Ok m ->
  NoDup (ao_transaction_id <$> ps) /\ Forall (fun o => ao_transaction_id o ∉ seen) ps.
Proof.
  revert acc seen. induction ps as [|o ps IH]; intros acc seen H; cbn in H; [by split; constructor|].
  bind_in H watch Hw. case_match eqn:Hb; [done|]. boolprop. bind_in H u Hu. apply IH in H as [Hnd Hs]. rewrite Forall_forall in Hs.
  split; [|constructor; [done|]].
  - cbn. constructor; [|done]. intros (o' & Heq & Hin)%list_elem_of_fmap. apply (Hs o' Hin). set_solver.
  - apply Forall_forall. intros o' Hin. specialize (Hs o' Hin). set_solver.
Qed.

Lemma index_responses_total chain s requested ps acc seen :
  Forall (fun o => exists watch, requested !! ao_batch_id o = Some watch /\ ao_transaction_id o = pw_transaction_id watch /\
    validate_response chain s watch o = Ok tt) ps ->
  NoDup (ao_transaction_id <$> ps) -> Forall (fun o => ao_transaction_id o ∉ seen) ps ->
  NoDup (ao_batch_id <$> ps) -> Forall (fun o => acc !! ao_batch_id o = None) ps ->
  exists m, index_responses chain s requested ps acc seen = Ok m.
Proof.
  revert acc seen. induction ps as [|o ps IH]; intros acc seen Hok Ht Hseen Hb Hacc; [by exists acc|]. cbn [index_responses].
  apply Forall_cons in Hok as [(watch & Hw & Htx & Hv) Hok]. apply Forall_cons in Hseen as [Hs Hseen]. apply Forall_cons in Hacc as [Ha Hacc].
  cbn in Ht, Hb. apply NoDup_cons in Ht as [Ht' Ht], Hb as [Hb' Hb]. rewrite Hw. cbn [ok_or].
  rewrite Ha, (bool_decide_eq_false_2 (_ <> _)), !bool_decide_eq_false_2 by (tauto || by intros []). cbn [orb]. rewrite Hv.
  rewrite Forall_forall in Hseen, Hacc. apply IH; [done|done| |done|]; apply Forall_forall; intros x Hx.
  - intros [Heq%elem_of_singleton|Hin]%elem_of_union; [|by apply (Hseen x Hx)].
    apply Ht', list_elem_of_fmap. by exists x.
  - rewrite lookup_insert_ne; [by apply Hacc|]. intros Heq. apply Hb', list_elem_of_fmap. by exists x.
Qed.

(** Answers to all watches, as many as there are, are one per batch. *)
Lemma answers_distinct s watches : NoDup (pw_batch_id <$> watches) -> length (as_payouts s) = length watches ->
  Forall (fun watch => exists o, answers s watch o) watches ->
  pw_batch_id <$> watches ≡ₚ ao_batch_id <$> as_payouts s.
Proof.
  intros Hnd Hlen Hall. apply submseteq_length_Permutation; [|by rewrite !length_fmap, Hlen].
  apply NoDup_submseteq; [done|]. intros id (watch & -> & Hin)%list_elem_of_fmap. rewrite Forall_forall in Hall.
  destruct (Hall watch Hin) as (o & Ho & <- & _). apply list_elem_of_fmap. by exists o.
Qed.

Lemma accepted_answers chain watches s observations :
  validate_authority_snapshot chain watches s = Ok observations ->
  dom observations = list_to_set (pw_batch_id <$> watches) /\
  Forall (fun watch => exists o, observations !! pw_batch_id watch = Some o /\ answers s watch o) watches.
Proof.
  intros H. pose proof (validated_answers _ _ _ _ H) as (Hnd & Hch & Hsize & Hdom & Hans).
  assert (dom observations = list_to_set (pw_batch_id <$> watches)) as Hobs.
  { apply set_subseteq_size_eq; [done|]. rewrite size_list_to_set, length_fmap, size_dom by done. lia. }
  split; [done|]. rewrite Forall_forall. intros watch Hin.
  assert (pw_batch_id watch ∈ dom observations) as [o Ho]%elem_of_dom; [|exists o; auto].
  rewrite Hobs. apply elem_of_list_to_set, list_elem_of_fmap. by exists watch.
Qed.

(** Two ways to name the answers agree. *)
Lemma answers_agree s watches (m m' : gmap Uuid AuthorityPayoutObservation) : NoDup (ao_batch_id <$> as_payouts s) ->
  dom m = list_to_set (pw_batch_id <$> watches) -> dom m' = list_to_set (pw_batch_id <$> watches) ->
  Forall (fun watch => exists o, m !! pw_batch_id watch = Some o /\ answers s watch o) watches ->
  Forall (fun watch => exists o, m' !! pw_batch_id watch = Some o /\ answers s watch o) watches -> m = m'.
Proof.
  intros Hnd Hd Hd' Ha Ha'. apply map_eq. intros id. destruct (decide (id ∈ dom m)) as [Hin|Hin].
  - pose proof Hin as Hin2. rewrite Hd in Hin2. apply elem_of_list_to_set, list_elem_of_fmap in Hin2 as (watch & -> & Hw).
    rewrite Forall_forall in Ha, Ha'. destruct (Ha watch Hw) as (o & -> & Ho & Hb & _), (Ha' watch Hw) as (o' & -> & Ho' & Hb' & _). f_equal.
    apply list_elem_of_lookup in Ho as [i Hi], Ho' as [j Hj].
    assert (i = j) as ->; [|congruence]. eapply NoDup_lookup; [exact Hnd|..]; rewrite list_lookup_fmap; [by rewrite Hi|].
    rewrite Hj. cbn. congruence.
  - pose proof Hin as Hin'. rewrite Hd, <- Hd' in Hin'. apply not_elem_of_dom in Hin, Hin'. congruence.
Qed.

Lemma snapshot_total chain watches s : as_chain s = chain -> all_zero (as_best_tip_hash s) = false ->
  as_best_tip_height s <> 0 -> as_observed_at s <> 0 -> Forall (watch_wf chain) watches -> NoDup (pw_batch_id <$> watches) ->
  length (as_payouts s) = length watches -> NoDup (ao_transaction_id <$> as_payouts s) ->
  Forall (fun watch => exists o, answers s watch o) watches ->
  exists m, validate_authority_snapshot chain watches s = Ok m.
Proof.
  intros Hc Hz Hh Ho Hwf Hnd Hlen Ht Ha. pose proof (answers_distinct _ _ Hnd Hlen Ha) as Hperm.
  assert (NoDup (ao_batch_id <$> as_payouts s)) as Hnb by by rewrite <- Hperm.
  unfold validate_authority_snapshot. rewrite bool_decide_eq_false_2, Hz by tauto.
  rewrite (proj2 (Z.eqb_neq _ _) Hh), (proj2 (Z.eqb_neq _ _) Ho), Hlen, Nat.eqb_refl. cbn [orb negb].
  destruct (index_watches_total chain watches ∅) as [req Hreq]; [done|done|by apply Forall_true; intros; apply lookup_empty|].
  rewrite Hreq. apply index_responses_total; [|done|by apply Forall_true; intros; apply not_elem_of_empty|done|
    by apply Forall_true; intros; apply lookup_empty].
  apply index_watches_Ok in Hreq as (_ & Hall & _). rewrite Forall_forall in Ha, Hall, Hwf. apply Forall_forall. intros o Hin.
  assert (ao_batch_id o ∈ pw_batch_id <$> watches) as (watch & Hb & Hw)%list_elem_of_fmap.
  { rewrite Hperm. apply list_elem_of_fmap. by exists o. }
  destruct (Ha watch Hw) as (o' & H). assert (o = o') as <-.
  { apply list_elem_of_lookup in Hin as [i Hi]. pose proof (proj1 H) as [j Hj]%list_elem_of_lookup.
    assert (i = j) as ->; [|congruence]. eapply NoDup_lookup; [exact Hnb|..]; rewrite list_lookup_fmap; [by rewrite Hi|].
    rewrite Hj. cbn. f_equal. rewrite Hb. apply H. }
  exists watch. split; [rewrite Hb; by apply Hall|]. split; [apply H|]. apply answers_validate; [by apply Hwf|done].
Qed.

(** C26. A validator snapshot is accepted for a page of watches exactly when it is for the chain, with
    a tip and a time, when the watches are well formed and of distinct batches, and when it answers
    every watch once and nothing else: for its own batch and transaction, no transaction twice, with
    the confirmation depth of the snapshot's tip, continuing the confirmation recorded before; a
    reorganisation only for a confirmed payout, against that confirmation and at the snapshot's tip.
    What is accepted is, for each batch, its answer. *)
Theorem validator_snapshot_exact chain watches s observations :
  validate_authority_snapshot chain watches s = Ok observations <->
  (as_chain s = chain /\ all_zero (as_best_tip_hash s) = false /\ as_best_tip_height s <> 0 /\ as_observed_at s <> 0) /\
  (Forall (watch_wf chain) watches /\ NoDup (pw_batch_id <$> watches)) /\
  length (as_payouts s) = length watches /\ NoDup (ao_transaction_id <$> as_payouts s) /\
  dom observations = list_to_set (pw_batch_id <$> watches) /\
  Forall (fun watch => exists o, observations !! pw_batch_id watch = Some o /\ answers s watch o) watches.
Proof.
  split.
  - intros H. pose proof (accepted_answers _ _ _ _ H) as [Hd Ha]. pose proof (validated_answers _ _ _ _ H) as (Hnd & _).
    unfold validate_authority_snapshot in H. case_match eqn:Hb; [done|]. boolprop. bind_in H req Hreq.
    apply index_responses_distinct in H as [Ht _]. apply index_watches_wf in Hreq.
    split_and!; try done; [apply dec_stable; tauto|by apply Nat.eqb_eq].
  - intros ((Hc & Hz & Hh & Ho) & (Hwf & Hnd) & Hlen & Ht & Hd & Ha).
    assert (pw_batch_id <$> watches ≡ₚ ao_batch_id <$> as_payouts s) as Hperm.
    { apply answers_distinct; [done..|]. eapply Forall_impl; [exact Ha|]. intros w (o & _ & H). by exists o. }
    assert (NoDup (ao_batch_id <$> as_payouts s)) as Hnb by by rewrite <- Hperm.
    destruct (snapshot_total chain watches s) as [m Hm]; [done..| |].
    { eapply Forall_impl; [exact Ha|]. intros w (o & _ & H). by exists o. }
    rewrite Hm. f_equal. destruct (accepted_answers _ _ _ _ Hm) as [Hd' Ha']. by eapply answers_agree.
Qed.

(** Two watches, the second one confirmed before. *)
Definition demo_watches : list PayoutWatch :=
  [mkPayoutWatch 71 Wcash Broadcast (replicate 32 4) None;
   mkPayoutWatch 75 Wcash Confirmed (replicate 32 5) (Some (mkPayoutConfirmation (replicate 32 8) 590 11))].

Definition demo_answer : AuthoritySnapshot :=
  mkAuthoritySnapshot Wcash (replicate 32 6) 609 171
    [mkAuthorityPayoutObservation 75 (replicate 32 5) (AuthorityMined (mkPayoutConfirmation (replicate 32 8) 590 20));
     mkAuthorityPayoutObservation 71 (replicate 32 4) AuthorityPending].

Lemma validator_snapshot_exact_witness :
  exists m, validate_authority_snapshot Wcash demo_watches demo_answer = Ok m /\
    dom m = list_to_set (pw_batch_id <$> demo_watches).
Proof.
  eexists. split; [vm_compute; reflexivity|].
  refine (proj1 (proj2 (proj2 (proj2 (proj2 (proj1 (validator_snapshot_exact Wcash demo_watches demo_answer _) _)))))).
  vm_compute. reflexivity.
Defined.

(** ** The retry loop *)

Lemma PayoutLoopPolicy_validate_Ok p p' : PayoutLoopPolicy_validate p = Ok p' ->
  p' = p /\ poll_interval p <> 0 /\ poll_interval p <= from_secs 300 /\ retry_initial p <> 0 /\
  retry_initial p <= retry_maximum p /\ retry_maximum p <= from_secs 300 /\
  maximum_consecutive_failures p <> 0 /\ maximum_consecutive_failures p <= 100.
Proof.
  unfold PayoutLoopPolicy_validate. case_match eqn:Hb; [done|]. intros [= <-]. boolprop. split_and!; try lia.
  all: (done || unfold from_secs in *; lia).
Qed.

(** C39. The back-off of the payout loop: under any accepted policy the delay after the n-th
    consecutive failure is the initial delay doubled n-1 times (31 at most) and capped by the
    maximum, computed without overflow; it never shrinks as failures accumulate, is never shorter
    than the initial delay and never longer than five minutes. *)
Theorem retry_backoff p n m : PayoutLoopPolicy_validate p = Ok p -> 0 <= retry_initial p -> 1 <= n <= m ->
  retry_delay p n = Z.min (retry_initial p * 2 ^ Z.min (n - 1) 31) (retry_maximum p) /\
  retry_initial p <= retry_delay p n <= from_secs 300 /\ retry_delay p n <= retry_delay p m.
Proof.
  intros (_ & _ & _ & Hi & Him & Hmax & _)%PayoutLoopPolicy_validate_Ok H0 Hn.
  assert (forall k, 1 <= k -> retry_delay p k = Z.min (retry_initial p * 2 ^ Z.min (k - 1) 31) (retry_maximum p)) as Hd.
  { intros k Hk. unfold retry_delay, saturating_sub. rewrite Z.max_r by lia. rewrite Z.shiftl_1_l.
    assert (0 < 2 ^ Z.min (k - 1) 31 <= 2 ^ 31) by (split; [apply Z.pow_pos_nonneg; lia|apply Z.pow_le_mono_r; lia]).
    unfold checked_mul. rewrite (proj2 (Z.leb_le _ _)); [done|]. unfold DURATION_MAX, from_secs in *. widths. nia. }
  rewrite !Hd by lia. assert (2 ^ Z.min (n - 1) 31 <= 2 ^ Z.min (m - 1) 31) by (apply Z.pow_le_mono_r; lia).
  assert (1 <= 2 ^ Z.min (n - 1) 31) by (change 1 with (2 ^ 0); apply Z.pow_le_mono_r; lia).
  split_and!; [done|nia|lia|nia].
Qed.

Lemma retry_backoff_witness :
  retry_delay (mkPayoutLoopPolicy (from_secs 10) (from_secs 1) (from_secs 60) 5 100) 4 = from_secs 8 /\
  retry_delay (mkPayoutLoopPolicy (from_secs 10) (from_secs 1) (from_secs 60) 5 100) 4 <=
  retry_delay (mkPayoutLoopPolicy (from_secs 10) (from_secs 1) (from_secs 60) 5 100) 9.
Proof.
  split; [vm_compute; reflexivity|]. refine (proj2 (proj2 (retry_backoff _ 4 9 _ _ _))); [reflexivity|vm_compute; discriminate|lia].
Defined.

Section Loop.
Context {E : Type -> Type} {S : Type} {env : StoreEnv} (handler : forall R, E R -> S -> S * R).
Variable self : AutomaticPayoutRuntime E.
Variable shutdown : proc E bool.
Variable sleep_or_shutdown : Z -> proc E bool.

(** How the loop may return when every pass fails. *)
Definition gave_up (r : result unit PayoutRuntimeError) : Prop :=
  r = Ok tt \/
  r = Err (FailureBudgetExhausted (rt_chain self) (maximum_consecutive_failures (rt_policy self))) \/
  exists e s s', r = Err e /\ is_retryable e = false /\ run handler (tick self) s = (s', Err e).

Lemma failing_loop_returns fuel k s :
  (forall s, exists s' e, run handler (tick self) s = (s', Err e)) ->
  0 <= k < maximum_consecutive_failures (rt_policy self) -> maximum_consecutive_failures (rt_policy self) <= 100 ->
  maximum_consecutive_failures (rt_policy self) - k <= Z.of_nat fuel ->
  exists s' r, run handler (run_loop self shutdown sleep_or_shutdown fuel k) s = (s', Some r) /\ gave_up r.
Proof.
  intros Hfail Hk H100. revert k s Hk. induction fuel as [|fuel IH]; intros k s Hk Hfuel; [lia|]. cbn [run_loop].
  rewrite run_bind. destruct (run handler shutdown s) as [s1 [|]]; [eexists _, _; split; [done|by left]|]. rewrite run_bind.
  destruct (Hfail s1) as (s2 & e & Ht). rewrite Ht. cbn [after_tick]. destruct (is_retryable e) eqn:He.
  - rewrite Z.min_l by (widths; lia). destruct (Z.leb_spec (maximum_consecutive_failures (rt_policy self)) (k + 1)) as [Hle|Hgt].
    + eexists _, _. split; [reflexivity|]. right. left. do 2 f_equal. lia.
    + rewrite run_bind. destruct (run handler (sleep_or_shutdown _) s2) as [s3 [|]]; [eexists _, _; split; [done|by left]|]. apply IH; lia.
  - eexists _, _. split; [reflexivity|]. right. right. by exists e, s1, s2.
Qed.

(** A worker that keeps failing stops: under an accepted policy, if every pass fails, the loop
    returns within as many passes as the failure budget allows, with the budget error or the
    first error that is not retryable, unless it is shut down before. *)
Theorem failing_worker_stops s :
  PayoutLoopPolicy_validate (rt_policy self) = Ok (rt_policy self) ->
  0 <= maximum_consecutive_failures (rt_policy self) ->
  (forall s, exists s' e, run handler (tick self) s = (s', Err e)) ->
  exists s' r, run handler (run_loop self shutdown sleep_or_shutdown
                              (Z.to_nat (maximum_consecutive_failures (rt_policy self))) 0) s = (s', Some r) /\ gave_up r.
Proof.
  intros (_ & _ & _ & _ & _ & _ & H0 & H100)%PayoutLoopPolicy_validate_Ok Hpos Hfail. apply failing_loop_returns; [done|lia..].
Qed.
End Loop.

(** A worker whose store is down. *)
Definition demo_failing : AutomaticPayoutRuntime (fun _ => Empty_set) :=
  mkAutomaticPayoutRuntime Wcash 5 (mkPayoutLoopPolicy (from_secs 10) (from_secs 1) (from_secs 60) 5 100)
    (mkPayoutLifecycleStore _ (fun _ => Ret (Err LcUnavailable)) (fun _ _ _ => Ret (Err LcUnavailable))
       (fun _ _ => Ret (Err LcUnavailable)) (fun _ _ => Ret (Err LcUnavailable)) (fun _ _ => Ret (Err LcUnavailable))
       (fun _ _ => Ret (Err LcUnavailable)))
    (mkWalletObservationSource _ Wcash (Ret (Err ObservationUnavailable)))
    (mkPayoutConfirmationAuthority _ Wcash (fun _ => Ret (Err ObservationUnavailable)))
    (fun _ => Ret (Err (Boundary Wcash Retryable))) None.

Lemma failing_worker_stops_witness :
  exists s' r, run (fun R (e : Empty_set) (s : unit) => match e with end)
      (run_loop demo_failing (Ret false) (fun _ => Ret false) (Z.to_nat 5) 0) tt = (s', Some r) /\
    r = Err (FailureBudgetExhausted Wcash 5) /\ gave_up (fun R (e : Empty_set) (s : unit) => match e with end) demo_failing r.
Proof.
  destruct (failing_worker_stops (fun R (e : Empty_set) (s : unit) => match e with end) demo_failing (Ret false)
              (fun _ => Ret false) tt) as (s' & r & Hrun & Hg).
  - reflexivity.
  - vm_compute. discriminate.
  - intros s. eexists _, _. reflexivity.
  - exists s', r. split; [exact Hrun|]. split; [|exact Hg]. vm_compute in Hrun. congruence.
Defined.

(** ** The identity of a batch *)

Lemma byte_cases (P : Z -> bool) : forallb P (seqZ 0 256) = true -> forall b, is_byte b -> P b = true.
Proof.
  intros H b Hb. rewrite forallb_forall in H. apply H, list_elem_of_In, elem_of_seqZ. unfold is_byte in Hb. lia.
Qed.

Lemma be_bytes_be_val n l : byte_array n l -> be_bytes n (be_val l) = l.
Proof.
  intros [Hlen Hb]. apply be_val_inj; [by rewrite length_be_bytes|apply be_bytes_is_byte|done|].
  apply be_val_be_bytes. rewrite <- Hlen. by apply be_val_bound.
Qed.

(** A version 8 identifier, never nil. *)
Lemma uuid_v8_versioned digest : byte_array 32 digest ->
  uuid_v8 digest <> 0 /\ exists b6 b8,
    Uuid_as_bytes (uuid_v8 digest) !! 6%nat = Some b6 /\ b6 / 16 = 8 /\
    Uuid_as_bytes (uuid_v8 digest) !! 8%nat = Some b8 /\ b8 / 64 = 2.
Proof.
  intros [Hlen Hb]. set (f6 := fun b => Z.lor (Z.land b 15) 128). set (f8 := fun b => Z.lor (Z.land b 63) 128).
  set (l := alter f8 8%nat (alter f6 6%nat (take 16 digest))).
  assert (forall b, is_byte b -> is_byte (f6 b) /\ f6 b / 16 = 8 /\ is_byte (f8 b) /\ f8 b / 64 = 2) as Hf.
  { intros b Hbyte. pose proof (byte_cases (fun b => is_byteb (f6 b) && (f6 b / 16 =? 8) && is_byteb (f8 b) && (f8 b / 64 =? 2))
      ltac:(vm_compute; reflexivity) b Hbyte) as H. unfold is_byteb, is_byte in *. boolprop. lia. }
  assert (byte_array 16 l) as Hl.
  { split; [unfold l; rewrite !length_alter, length_take; lia|]. unfold l.
    assert (Forall is_byte (take 16 digest)) as Ht by (by apply Forall_take).
    apply Forall_alter; [apply Forall_alter; [done|]|]; intros x Hx Hi; [apply Hf|apply Hf].
    - by eapply Forall_lookup_1.
    - eapply Forall_lookup_1; [|exact Hx]. apply Forall_alter; [done|]. intros y Hy _. apply Hf. by eapply Forall_lookup_1. }
  assert (Uuid_as_bytes (uuid_v8 digest) = l) as Hbytes by (by apply be_bytes_be_val).
  destruct (lookup_lt_is_Some_2 (take 16 digest) 6) as [x Hx]; [rewrite length_take; lia|].
  destruct (lookup_lt_is_Some_2 (take 16 digest) 8) as [y Hy]; [rewrite length_take; lia|].
  assert (l !! 6%nat = Some (f6 x)) as H6 by (unfold l; rewrite list_lookup_alter_ne, list_lookup_alter, Hx by lia; done).
  assert (l !! 8%nat = Some (f8 y)) as H8 by (unfold l; rewrite list_lookup_alter, list_lookup_alter_ne, Hy by lia; done).
  assert (is_byte x /\ is_byte y) as [Hx' Hy'] by (split; (eapply Forall_lookup_1; [|eassumption]; by apply Forall_take)).
  rewrite Hbytes. split; [|by exists (f6 x), (f8 y); split_and!; [|apply Hf| |apply Hf]].
  intros Hz. rewrite Hz in Hbytes. rewrite <- Hbytes in H6. change (Uuid_as_bytes 0 !! 6%nat) with (Some 0) in H6. apply Some_inj in H6.
  pose proof (proj1 (proj2 (Hf x Hx'))) as H16. rewrite <- H6 in H16. discriminate.
Qed.

(** The idempotency key of a batch is a function of what it pays: it hashes an injective
    encoding of the namespace, the chain, the wallet checkpoint, the ledger root and its length,
    so a retry on the same checkpoint asks for the same batch and any other checkpoint, chain or
    ledger state for another; and the key is a well-formed version 8 identifier, never nil. *)
Theorem batch_key_commits sha256 n1 n2 c1 c2 r1 r2 :
  (forall l, byte_array 32 (sha256 l)) ->
  uuid_wf n1 -> uuid_wf n2 -> uuid_wf (rec_id r1) -> uuid_wf (rec_id r2) ->
  length (rec_ledger_root r1) = 32%nat -> length (rec_ledger_root r2) = 32%nat ->
  in_range U64_MAX (rec_ledger_transaction_count r1) -> in_range U64_MAX (rec_ledger_transaction_count r2) ->
  (batch_key_preimage n1 c1 r1 = batch_key_preimage n2 c2 r2 ->
   n1 = n2 /\ c1 = c2 /\ rec_id r1 = rec_id r2 /\ rec_ledger_root r1 = rec_ledger_root r2 /\
   rec_ledger_transaction_count r1 = rec_ledger_transaction_count r2) /\
  deterministic_batch_key sha256 n1 c1 r1 <> 0 /\
  exists b6 b8, Uuid_as_bytes (deterministic_batch_key sha256 n1 c1 r1) !! 6%nat = Some b6 /\ b6 / 16 = 8 /\
    Uuid_as_bytes (deterministic_batch_key sha256 n1 c1 r1) !! 8%nat = Some b8 /\ b8 / 64 = 2.
Proof.
  intros Hsha Hn1 Hn2 Hi1 Hi2 Hl1 Hl2 Ht1 Ht2. split; [|by apply uuid_v8_versioned].
  unfold batch_key_preimage. intros H. apply app_inv_head in H.
  apply app_length_inj in H as [H1 H]; [|unfold Uuid_as_bytes; by rewrite !length_be_bytes].
  apply app_length_inj in H as [H2 H]; [|done].
  apply app_length_inj in H as [H3 H]; [|unfold Uuid_as_bytes; by rewrite !length_be_bytes].
  apply app_length_inj in H as [H4 H]; [|congruence].
  apply Uuid_as_bytes_inj in H1, H3; [|done..]. unfold in_range, U64_MAX in *. apply (be_bytes_inj 8) in H; [|lia..].
  split_and!; try done. by destruct c1, c2.
Qed.

Definition demo_reconciliation (id : Uuid) : WalletReconciliation :=
  mkWalletReconciliation id Wcash (replicate 32 9) 12 1000 (replicate 32 6) 500 100 200.

Lemma batch_key_commits_witness :
  batch_key_preimage 5 Wcash (demo_reconciliation 61) <> batch_key_preimage 5 Wcash (demo_reconciliation 62) /\
  deterministic_batch_key demo_digest 5 Wcash (demo_reconciliation 61) <> 0.
Proof.
  split; [vm_compute; discriminate|].
  refine (proj1 (proj2 (batch_key_commits demo_digest 5 5 Wcash Wcash (demo_reconciliation 61) (demo_reconciliation 62) _ _ _ _ _ _ _ _ _))).
  - intros l. unfold demo_digest. set (h := foldl _ _ _). assert (0 <= h < 65521) as Hh.
    { unfold h. induction l as [|b l IH] using rev_ind; [cbn; lia|]. rewrite foldl_app. apply Z.mod_pos_bound. lia. }
    split; [done|]. apply Forall_app. split; [by apply Forall_replicate|].
    pose proof (Z.div_lt_upper_bound h 256 256). pose proof (Z.div_pos h 256). pose proof (Z.mod_pos_bound h 256).
    apply Forall_cons. split; [unfold is_byte; lia|]. apply Forall_singleton. unfold is_byte. lia.
  - vm_compute; split; congruence.
  - vm_compute; split; congruence.
  - vm_compute; split; congruence.
  - vm_compute; split; congruence.
  - reflexivity.
  - reflexivity.
  - vm_compute; split; congruence.
  - vm_compute; split; congruence.
Defined.
