(* ===== verification/WorkerTicks.v ===== *)
(** A pass of the payout worker, the expiry recovery and the retry loop make permitted calls only. *)

From Stdlib Require Import ZArith Lia.
From stdpp Require Import prelude gmap sorting strings.
From S2P Require Import Prelude Wire Backend Hex LargestRemainder Pplns PayoutFees Ledger PayoutRequest StoreDb PayoutStore Configuration PayoutWatch WinnerStore Books BatchPlan StoreInv WinnerInv StoreOps StoreEvolve StoreDemo Solvency StoreProps SigningFence WatchRotation Proc WecSigner Settlement PayoutRuntime PayoutExpiry Worker WorkerSafe WorkerReads WorkerSteps WorkerSettles RuntimeChecks.
Open Scope Z_scope.

Section Ticks.
Context {env : StoreEnv}.

(** ** Confirmations *)

Section Pass.
Variables zec expiry : bool.
Variable chain : Chain.
Variable namespace : Uuid.
Variable policy : PayoutLoopPolicy.
Let runtime := payout_runtime zec expiry chain namespace policy.

(** The evidence a pass holds for a page of watches. *)
Definition observed (watches : list PayoutWatch) (s : AuthoritySnapshot) (w : World) : Prop :=
  DidObserve chain watches (Ok s) ∈ w_log w /\ Forall observation_typed (as_payouts s) /\
  Forall (fun watch => signed_txid (w_db w) chain (pw_batch_id watch) (pw_transaction_id watch)) watches.

Lemma observed_rely watches s w w' : reachable (w_db w) -> rely w w' -> observed watches s w -> observed watches s w'.
Proof.
  intros Hr [Hg Hl] (Hin & Ht & Hs). split_and!; [by apply Hl|done|].
  eapply Forall_impl; [exact Hs|]. intros watch. by apply signed_txid_grows.
Qed.

(** An answer as it is in the log. *)
Lemma answer_eta o : o = mkAuthorityPayoutObservation (ao_batch_id o) (ao_transaction_id o) (ao_state o).
Proof. by destruct o. Qed.

Lemma confirm_permitted watches s watch o c w : observed watches s w -> watch ∈ watches -> answers s watch o ->
  ao_state o = AuthorityMined c -> permitted _ (ConfirmPayout (pw_batch_id watch) c) w.
Proof.
  intros (Hin & Ht & Hs) Hw (Ho & Hid & Htx & Hst) Hc. rewrite Hc in Hst. rewrite Forall_forall in Hs. rewrite Forall_forall in Ht. split.
  - specialize (Ht o Ho). unfold observation_typed in Ht. by rewrite Hc in Ht.
  - exists chain, (pw_transaction_id watch). split; [by apply Hs|]. left. exists watches, s.
    rewrite <- Hid, <- Htx, <- Hc, <- answer_eta. split_and!; [done..|apply Hst].
Qed.

Lemma reorg_permitted watches s watch o e w : observed watches s w -> watch ∈ watches -> answers s watch o ->
  ao_state o = AuthorityReorged e -> permitted _ (MarkReorged (pw_batch_id watch) e) w.
Proof.
  intros (Hin & Ht & Hs) Hw (Ho & Hid & Htx & Hst) He. rewrite He in Hst. rewrite Forall_forall in Hs.
  exists chain, (pw_transaction_id watch). split; [by apply Hs|]. exists watches, s.
  rewrite <- Hid, <- Htx, <- He, <- answer_eta. split_and!; [done..|apply Hst|apply Hst].
Qed.

Lemma apply_observations_safe watches s observations rest n w : reachable (w_db w) -> observed watches s w ->
  (forall watch o, watch ∈ watches -> observations !! pw_batch_id watch = Some o -> answers s watch o) ->
  rest ⊆ watches -> safe (apply_observations runtime rest observations n) anything w.
Proof.
  intros Hr Hobs Hans. revert n w Hr Hobs. induction rest as [|watch rest IH]; intros n w Hr Hobs Hrest; cbn [apply_observations]; [apply safe_done|].
  assert (watch ∈ watches) as Hw by set_solver. assert (rest ⊆ watches) as Hrest' by set_solver.
  destruct (observations !! pw_batch_id watch) as [o|] eqn:Ho; cbn [ok_or bind_ok bind]; [|apply safe_done].
  specialize (Hans watch o Hw Ho).
  destruct (pw_state watch), (ao_state o) as [|c|e] eqn:Hst; try apply safe_done; auto.
  - step_call; [intros w0 H0; eapply confirm_permitted; [eapply observed_rely; [exact Hr|exact H0|done]|done..]|].
    intros [u|x] w0 w1 _ _ H1 _ Hr1 _; cbn [bind map_err].
    + apply IH; [done|by apply (observed_rely watches s w)|done].
    + destruct (classify_store_error x); try apply safe_done. apply IH; [done|by apply (observed_rely watches s w)|done].
  - step_call; [intros w0 H0; eapply reorg_permitted; [eapply observed_rely; [exact Hr|exact H0|done]|done..]|].
    intros [u|x] w0 w1 _ _ _ _ _ _; apply safe_done.
Qed.

(** ** A pass *)

Lemma resume_settlement_safe w : reachable (w_db w) -> safe (resume_settlement runtime) anything w.
Proof. intros Hr. apply safe_seq_mapping; [done|]. by apply resume_next_safe. Qed.

Lemma pay_fresh_balances_safe n m s w : reachable (w_db w) -> safe (pay_fresh_balances runtime n m s) anything w.
Proof.
  intros Hr. unfold pay_fresh_balances. step_any. intros [o|x] w1 _ Hr1; cbn [bind map_err]; [|apply safe_done].
  destruct (validate_wallet_observation _ _ _) as [[]|]; cbn [bind_ok bind]; [|apply safe_done].
  step_any. intros [reconciliation|x] w2 _ Hr2; cbn [bind map_err].
  2:{ destruct (classify_store_error x); apply safe_done. }
  case_match; [apply safe_done|]. step_any. intros [batch|x] w3 _ Hr3; cbn [bind map_err].
  2:{ destruct (classify_store_error x); apply safe_done. }
  case_match; [apply safe_done|]. apply safe_seq_ok; [done|by apply resume_settlement_safe|].
  intros resumed w4 _ Hr4. destruct (validate_resume_outcome _ _) as [[]|]; cbn [bind_ok bind]; [|apply safe_done].
  case_match; apply safe_done.
Qed.

Lemma settle_pass_safe w : reachable (w_db w) -> safe (settle_pass runtime) anything w.
Proof.
  intros Hr. unfold settle_pass. step_call; [done|]. intros r w0 w1 _ _ _ Hr0 _ [-> Hread].
  destruct Hread as [-> |(x & ->)]; cbn [bind map_err]; [|apply safe_done].
  destruct (list_payout_watches _ _ _) as [page|] eqn:Hpage; cbn [bind map_err]; [|apply safe_done].
  apply listed_watches_signed in Hpage.
  destruct (validate_watch_page _ _ _) as [[]|]; cbn [bind_ok bind]; [|apply safe_done].
  step_call; [done|]. intros [s|x] w1 w2 _ _ H02 Hr1 Hr2 (_ & _ & Hl & Ht); cbn [bind map_err]; [|apply safe_done].
  assert (observed (wp_watches page) s w2) as Hobs.
  { split_and!; [rewrite Hl; set_solver|done|]. eapply Forall_impl; [exact Hpage|]. intros watch.
    apply signed_txid_grows; [done|apply H02]. }
  apply safe_seq_ok; [done| |].
  { unfold apply_snapshot. destruct (validate_authority_snapshot _ _ _) as [m|] eqn:Hv; cbn [bind_ok bind]; [|apply safe_done].
    apply validated_answers in Hv as (_ & _ & _ & _ & Hans). by eapply apply_observations_safe. }
  intros n w3 _ Hr3. apply safe_seq_ok; [done| |].
  { destruct (wp_confirmed_cursor page); [|apply safe_done]. step_any. intros; apply safe_done. }
  intros _ w4 _ Hr4. apply safe_seq_ok; [done|by apply resume_settlement_safe|].
  intros resumed w5 _ Hr5. destruct (validate_resume_outcome _ _) as [[]|]; cbn [bind_ok bind]; [|apply safe_done].
  destruct resumed; try apply safe_done. by apply pay_fresh_balances_safe.
Qed.
End Pass.

(** ** Expiry recovery *)

Definition candidate_watch (candidates : list PayoutExpiryCandidate) (wt : ExpiryWatch) : Prop :=
  xw_candidate wt ∈ candidates /\ ar_chain (ec_artifact (xw_candidate wt)) = Wcash.

Definition inspected_watches (candidates : list PayoutExpiryCandidate)
    (r : result (RecoveryProgress * bool * list ExpiryWatch) PayoutRuntimeError) (_ : World) : Prop :=
  match r with Ok (_, _, watches) => Forall (candidate_watch candidates) watches | Err _ => True end.

Lemma candidate_bound_chain candidate watches : candidate_bound candidate watches = true ->
  ar_chain (ec_artifact candidate) = Wcash.
Proof.
  unfold candidate_bound. intros H%negb_true_iff. repeat (apply orb_false_iff in H as [H _]).
  apply bool_decide_eq_false in H. by apply dec_stable.
Qed.

Lemma inspect_candidates_safe candidates rest progress did watches w : reachable (w_db w) ->
  rest ⊆ candidates -> Forall (candidate_watch candidates) watches ->
  safe (inspect_candidates postgres_expiry_recovery rest progress did watches) (inspected_watches candidates) w.
Proof.
  revert progress did watches w. induction rest as [|candidate rest IH]; intros progress did watches w Hr Hrest Hws; cbn [inspect_candidates].
  { by apply safe_ret. }
  assert (forall x v, safe (Ret (Err x)) (inspected_watches candidates) v) as Herr by (intros; by apply safe_ret).
  destruct (candidate_bound candidate watches) eqn:Hb; cbn [negb]; [|apply Herr]. apply candidate_bound_chain in Hb.
  destruct (PayoutBatchRequest_commitment _ _) as [commitment|]; cbn [map_err bind_ok bind]; [|apply Herr].
  assert (forall p d v, reachable (w_db v) ->
    safe (let! verified := Ret (ok_or (inspected p !! ar_batch_id (ec_artifact candidate)) (invariant "expiry_inspection_cache")) in
          if negb (cached_bound candidate commitment verified) then Ret (Err (invariant "expiry_cached_binding"))
          else inspect_candidates postgres_expiry_recovery rest p d
                 (watches ++ [mkExpiryWatch candidate (ie_expiry_height verified)])) (inspected_watches candidates) v) as Hnext.
  { intros p d v Hv. destruct (inspected p !! _) as [verified|]; cbn [ok_or bind_ok bind]; [|apply Herr].
    case_match; [apply Herr|]. apply IH; [done|set_solver|]. apply Forall_app. split; [done|]. constructor; [|done].
    split; [cbn; set_solver|done]. }
  destruct (inspected progress !! _) as [e|]; [by apply Hnext|].
  cbn [xr_inspect postgres_expiry_recovery]. step_any. intros [verified|x] w1 _ Hr1; cbn [bind map_err]; [|apply Herr].
  case_match; [apply Herr|]. step_any. intros _ w2 _ Hr2. by apply Hnext.
Qed.

(** The evidence a pass holds for the watches it built. *)
Definition expiry_observed (watches : list ExpiryWatch) (os : list ExpiryObservation) (w : World) : Prop :=
  DidObserveExpiry watches (Ok os) ∈ w_log w /\ Forall expiry_typed os /\
  Forall (fun wt => carried (w_db w) (ec_artifact (xw_candidate wt)) /\
                    ar_chain (ec_artifact (xw_candidate wt)) = Wcash) watches.

Lemma expiry_observed_rely watches os w w' : reachable (w_db w) -> rely w w' ->
  expiry_observed watches os w -> expiry_observed watches os w'.
Proof.
  intros Hr [Hg Hl] (Hin & Ht & Hs). split_and!; [by apply Hl|done|].
  eapply Forall_impl; [exact Hs|]. intros wt [Hc Hch]. split; [by apply (carried_grows (w_db w))|done].
Qed.

Lemma watch_of_Some watches id wt : watch_of watches id = Some wt ->
  wt ∈ watches /\ ar_batch_id (ec_artifact (xw_candidate wt)) = id.
Proof.
  unfold watch_of. intros H. apply head_Some_elem_of in H. apply list_elem_of_filter in H. tauto.
Qed.

Lemma validate_evidence_Ok wt e final : validate_evidence wt e final = Ok tt ->
  let f := ar_facts (ec_artifact (xw_candidate wt)) in
  ev_transaction_id e = sf_transaction_id f /\ ev_signed_transaction_sha256 e = env_sha256 (sf_signed_transaction f) /\
  ev_expiry_height e < ev_tip_height e /\
  (final = true -> ev_expiry_height e + WCASH_EXPIRY_FINALITY_DEPTH <= ev_tip_height e).
Proof.
  unfold validate_evidence, raw_digest. intros H. cbv zeta in *. case_match eqn:Hb; [done|]. boolprop.
  split_and!; [apply dec_stable; tauto..|lia|]. intros ->. unfold checked_add in *.
  repeat case_match; try done; boolprop; simplify_eq; lia.
Qed.

(** Bound evidence of absence warrants a hold, and beyond the finality depth a release. *)
Lemma absence_warranted watches os o wt e final w : expiry_observed watches os w -> o ∈ os -> wt ∈ watches ->
  ar_batch_id (ec_artifact (xw_candidate wt)) = xo_batch_id o -> absent (xo_state o) e final ->
  validate_evidence wt e final = Ok tt ->
  exists row f, batches (pay (w_db w)) !! xo_batch_id o = Some row /\ br_chain row = Wcash /\
    br_signed row = Some f /\ absence_reported (w_log w) (xo_batch_id o) f e final.
Proof.
  intros (Hin & _ & Hs) Ho Hw Hid Habs Hev. rewrite Forall_forall in Hs. destruct (Hs wt Hw) as [(row & Hrow & Hc & Hf) Hch].
  exists row, (ar_facts (ec_artifact (xw_candidate wt))). rewrite <- Hid. split_and!; [done|congruence|done|]. split.
  - by exists watches, os, o, wt.
  - by apply validate_evidence_Ok.
Qed.

Lemma expiry_confirm_permitted watches os o wt c w : expiry_observed watches os w -> o ∈ os -> wt ∈ watches ->
  ar_batch_id (ec_artifact (xw_candidate wt)) = xo_batch_id o -> xo_state o = ExpiryMined c ->
  permitted _ (ConfirmPayout (xo_batch_id o) c) w.
Proof.
  intros (Hin & Ht & Hs) Ho Hw Hid Hst. rewrite Forall_forall in Hs. destruct (Hs wt Hw) as [(row & Hrow & Hc & Hf) Hch].
  rewrite Forall_forall in Ht. split.
  - specialize (Ht o Ho). unfold expiry_typed in Ht. by rewrite Hst in Ht.
  - exists Wcash, (sf_transaction_id (ar_facts (ec_artifact (xw_candidate wt)))). rewrite <- Hid in *. split.
    + exists row, (ar_facts (ec_artifact (xw_candidate wt))). split_and!; [done|congruence|done|done].
    + right. split; [done|]. exists watches, os, wt. rewrite Hid, <- Hst. split_and!; [done| |done..]. by destruct o.
Qed.

(** One observation, then the rest. *)
Lemma apply_expiry_one {X} watches os (p : proc WorkerCall (result bool X)) (f : bool -> proc WorkerCall (result bool X)) w :
  reachable (w_db w) -> expiry_observed watches os w -> safe p anything w ->
  (forall b w', reachable (w_db w') -> expiry_observed watches os w' -> safe (f b) anything w') ->
  safe (bind_ok p f) anything w.
Proof.
  intros Hr Hobs Hp Hf. apply safe_seq_ok; [done|done|]. intros b w' Hrely Hr'. apply Hf; [done|].
  by apply (expiry_observed_rely watches os w).
Qed.

Lemma apply_expiry_safe watches os rest ready w : reachable (w_db w) -> expiry_observed watches os w -> rest ⊆ os ->
  safe (apply_expiry postgres_expiry_recovery watches rest ready) anything w.
Proof.
  revert ready w. induction rest as [|o rest IH]; intros ready w Hr Hobs Hrest; cbn [apply_expiry]; [apply safe_done|].
  assert (o ∈ os) as Ho by set_solver. assert (rest ⊆ os) as Hrest' by set_solver.
  destruct (watch_of watches (xo_batch_id o)) as [wt|] eqn:Hw; cbn [ok_or bind_ok bind]; [|apply safe_done].
  apply watch_of_Some in Hw as [Hw Hid].
  apply (apply_expiry_one watches os); [done|done| |auto]. clear IH.
  assert (forall e final, absent (xo_state o) e final -> validate_evidence wt e final = Ok tt -> forall w0, rely w w0 ->
    exists row f, batches (pay (w_db w0)) !! xo_batch_id o = Some row /\ br_chain row = Wcash /\
      br_signed row = Some f /\ absence_reported (w_log w0) (xo_batch_id o) f e final) as Hwarrant.
  { intros e final Habs Hev w0 H0. eapply absence_warranted; [by apply (expiry_observed_rely watches os w)|done..]. }
  assert (forall e, absent (xo_state o) e false ->
    safe (do! Ret (validate_evidence wt e false) in
          do! xr_hold postgres_expiry_recovery (xo_batch_id o) e in Ret (Ok false)) anything w) as Hhold.
  { intros e Habs. destruct (validate_evidence wt e false) as [[]|] eqn:Hev; cbn [bind_ok bind]; [|apply safe_done].
    cbn [xr_hold postgres_expiry_recovery]. step_call; [intros w0 H0; by apply (Hwarrant e false)|].
    intros [u|x] w0 w1 _ _ _ _ _ _; apply safe_done. }
  destruct (xo_state o) as [| | |c| |e] eqn:Hst, (is_held _); try apply safe_done; try (by apply Hhold).
  all: try (destruct (validate_evidence wt _ false) as [[]|]; apply safe_done).
  - cbn [xr_confirm postgres_expiry_recovery]. unfold expiry_confirm. step_call.
    { intros w0 H0. apply (expiry_confirm_permitted watches os o wt); [by apply (expiry_observed_rely watches os w)|done..]. }
    intros [u|x] w0 w1 _ _ _ _ _ _; cbn [bind]; [apply safe_done|]. destruct x; apply safe_done.
  - destruct (validate_evidence wt e true) as [[]|] eqn:Hev; cbn [bind_ok bind]; [|apply safe_done].
    cbn [xr_expire postgres_expiry_recovery]. step_call; [intros w0 H0; by apply (Hwarrant e true)|].
    intros [u|x] w0 w1 _ _ _ _ _ _; apply safe_done.
Qed.

Lemma pass_safe w : reachable (w_db w) -> safe (pass postgres_expiry_recovery) anything w.
Proof.
  intros Hr. unfold pass. cbn [xr_progress postgres_expiry_recovery]. step_any. intros progress w0 _ Hr0. cbn [bind].
  cbn [xr_candidates postgres_expiry_recovery]. step_call; [done|]. intros r w1 w2 _ _ _ Hr1 _ [-> Hread].
  destruct Hread as [-> |(x & ->)]; cbn [bind map_err]; [|apply safe_done].
  destruct (list_payout_expiry_candidates_page _ _ _) as [candidates|] eqn:Hpage; cbn [bind map_err]; [|apply safe_done].
  apply listed_candidates_carried in Hpage. case_match; [apply safe_done|]. case_bool_decide.
  { cbn [xr_set_progress postgres_expiry_recovery]. step_any. intros; apply safe_done. }
  cbn [xr_set_progress postgres_expiry_recovery]. step_any. intros _ w2 H12 Hr2.
  eapply (safe_bind_ok _ _ (after w2 (inspected_watches candidates)));
    [apply safe_after; [done|by apply inspect_candidates_safe]| |intros; apply safe_done].
  intros [[progress' did] watches] w3 [H23 Hws]. cbn in Hws. pose proof (rely_reachable _ _ H23 Hr2) as Hr3.
  destruct did; [apply safe_done|]. cbn [xr_expiry_snapshot postgres_expiry_recovery]. step_call; [done|].
  intros [os|x] w4 w5 _ _ H35 _ Hr5 (_ & _ & Hl & Ht); cbn [bind map_err bind_ok]; [|apply safe_done].
  case_match; [apply safe_done|]. destruct (validate_observations _ _ _) as [[]|]; cbn [bind_ok bind]; [|apply safe_done].
  assert (expiry_observed watches os w5) as Hobs.
  { split_and!; [rewrite Hl; set_solver|done|]. eapply Forall_impl; [exact Hws|]. intros wt [Hin Hch]. split; [|done].
    rewrite Forall_forall in Hpage. apply (carried_grows (w_db w1)); [done| |by apply Hpage].
    etrans; [apply H12|]. etrans; [apply H23|apply H35]. }
  apply safe_seq_ok; [done|by apply (apply_expiry_safe watches os)|]. intros ready w6 _ Hr6.
  step_any. intros; apply safe_done.
Qed.

(** ** The loop *)

Lemma tick_safe zec expiry chain namespace policy w : reachable (w_db w) ->
  safe (tick (payout_runtime zec expiry chain namespace policy)) anything w.
Proof.
  intros Hr. unfold tick. cbn [rt_expiry_recovery payout_runtime]. destruct expiry; [|by apply settle_pass_safe].
  apply safe_seq_ok; [done|by apply pass_safe|]. intros [] w' _ Hr'; [by apply settle_pass_safe|apply safe_done].
Qed.

Lemma run_loop_safe zec expiry chain namespace policy fuel n w : reachable (w_db w) ->
  safe (run_loop (payout_runtime zec expiry chain namespace policy) (call ReadShutdown)
          (fun d => call (SleepOrShutdown d)) fuel n) anything w.
Proof.
  revert n w. induction fuel as [|fuel IH]; intros n w Hr; cbn [run_loop]; [apply safe_done|].
  step_any. intros [] w1 _ Hr1; cbn [bind]; [apply safe_done|].
  apply safe_seq; [done|by apply tick_safe|]. intros r w2 _ Hr2. destruct (after_tick _ _ _) as [[m d]|]; [|apply safe_done].
  step_any. intros [] w3 _ Hr3; cbn [bind]; [apply safe_done|by apply IH].
Qed.

Lemma worker_program_safe p w : worker_program p -> all_warranted w -> safe p (fun _ _ => True) w.
Proof.
  intros Hp [Hr _]. destruct Hp; (apply safe_seq; [done| |intros; apply safe_done]).
  - by apply recover_safe.
  - by apply resume_next_safe.
  - by apply run_loop_safe.
Qed.

(** Every state of the worker's system is warranted. *)
Lemma worker_reachable_warranted w ps : worker_reachable (w, ps) -> all_warranted w.
Proof.
  intros (w0 & Hr & Hl & Hsteps).
  eapply (sys_invariant handles permitted rely worker_program others all_warranted) in Hsteps; [apply Hsteps| | | |].
  - intros s s' Hs Ho. by apply progressed_warranted, others_progressed.
  - intros R e s r s' Hs Hp Hh. apply progressed_warranted; [done|by eapply call_progressed].
  - intros p s. by apply worker_program_safe.
  - split; [done|]. rewrite Hl. constructor.
Qed.
End Ticks.
