(* ===== verification/WorkerRuns.v ===== *)
(** Running the payout worker: an executable world around it, whose answers are some of those the
    semantics of the calls allows, and a concrete deployment to run it on. *)

From Stdlib Require Import ZArith Lia.
From stdpp Require Import prelude gmap sorting strings.
From S2P Require Import Prelude Wire Backend Hex LargestRemainder Pplns PayoutFees Ledger PayoutRequest StoreDb PayoutStore Configuration PayoutWatch WinnerStore Books BatchPlan StoreInv WinnerInv StoreOps StoreEvolve StoreDemo Solvency StoreProps SigningFence WatchRotation Proc WecSigner Settlement PayoutRuntime PayoutExpiry Worker.
Open Scope Z_scope.

(** ** Surroundings *)

(** The clock, the identifiers drawn, and what the wallets and validators say. *)
Record Surroundings : Type := mkSurroundings {
  su_now : Z;
  su_draw : Uuid;
  su_fresh : nat -> Uuid;
  su_randomness : option (list Z);
  su_prepare : Chain -> PayoutBatchRequest -> result RichPayoutExecution BoundaryFailure;
  su_recover : Chain -> PayoutBatchRequest -> result (option RichPayoutExecution) BoundaryFailure;
  su_broadcast : Chain -> SignedPayoutArtifact -> result unit BoundaryFailure;
  su_wallet : Chain -> result WalletObservation ObservationFailure;
  su_validator : Chain -> list PayoutWatch -> result AuthoritySnapshot ObservationFailure;
  su_inspect : PayoutBatchRequest -> result WecPreparedPayout WecPayoutError;
  su_expiry : list ExpiryWatch -> result (list ExpiryObservation) ObservationFailure;
  su_shutdown : bool
}.

(** The types of the answers. *)
Record surroundings_typed (su : Surroundings) : Prop := {
  st_prepare chain q x : su_prepare su chain q = Ok x -> rich_typed x;
  st_recover chain q x : su_recover su chain q = Ok (Some x) -> rich_typed x;
  st_validator chain ws s : su_validator su chain ws = Ok s -> Forall observation_typed (as_payouts s);
  st_expiry ws os : su_expiry su ws = Ok os -> Forall expiry_typed os;
  st_draw : su_draw su <> 0
}.

Section Respond.
Context {env : StoreEnv}.
Variable su : Surroundings.

Definition log_effects (w : World) (effects : list Effect) : World :=
  mkWorld (w_db w) (w_progress w) (w_log w ++ effects).

Definition commit {A} (w : World) (effects : list Effect) (outcome : Db * result A StoreError)
    : World * result A StoreError :=
  (mkWorld (fst outcome) (w_progress w) (w_log w ++ effects), snd outcome).

Definition respond (R : Type) (e : WorkerCall R) : World -> World * R :=
  match e in WorkerCall R return World -> World * R with
  | ListResumable chain => fun w => (w, list_resumable_payout_batches (w_db w) chain 1)
  | AuthorizeSigning id => fun w => commit w [] (authorize_payout_signing (w_db w) (su_now su) id)
  | SigningRequest id => fun w => commit w [] (signing_payout_request (w_db w) id)
  | CancelRejectedSigning id => fun w =>
      commit w [DidCancel id] (cancel_rejected_payout_signing (w_db w) (su_draw su) id)
  | MarkSigned artifact => fun w =>
      commit w [DidMarkSigned artifact] (mark_payout_signed (w_db w) (ar_batch_id artifact) (ar_facts artifact))
  | SignedArtifact id => fun w => (w, signed_payout_artifact (w_db w) id)
  | AuthorizeBroadcast id => fun w => commit w [] (authorize_payout_broadcast (w_db w) id)
  | MarkBroadcast id => fun w => commit w [DidMarkBroadcast id] (mark_payout_broadcast (w_db w) id)
  | RecordReconciliation o => fun w =>
      commit w [] (record_wallet_reconciliation (w_db w) (su_draw su) (su_now su) o)
  | CreateBatch chain key rid => fun w =>
      commit w [] (create_payout_batch (w_db w) (su_now su) (su_fresh su) (su_randomness su) (su_draw su)
                     (su_draw su) chain key rid)
  | ListWatches chain maximum => fun w => (w, list_payout_watches (w_db w) chain maximum)
  | AdvanceWatchCursor chain cursor => fun w =>
      commit w [] (advance_confirmed_payout_watch_cursor (w_db w) chain cursor)
  | ConfirmPayout id c => fun w => commit w [DidConfirm id c] (confirm_payout (w_db w) (su_draw su) id c)
  | MarkReorged id e => fun w =>
      commit w [DidReorg id e] (mark_confirmed_payout_reorged (w_db w) (su_draw su) id e)
  | ExpiryCandidates after => fun w =>
      (w, list_payout_expiry_candidates_page (w_db w) MAX_EXPIRY_CANDIDATES after)
  | HoldExpired id e => fun w => commit w [DidHold id e] (hold_expired_payout (w_db w) (su_now su) id e)
  | ExpireHeld id e => fun w =>
      commit w [DidExpire id e] (expire_held_payout (w_db w) (su_now su) (su_draw su) id e)
  | PrepareExact chain q => fun w =>
      (log_effects w [DidPrepare chain q (su_prepare su chain q)], su_prepare su chain q)
  | RecoverExact chain q => fun w =>
      (log_effects w [DidRecover chain q (su_recover su chain q)], su_recover su chain q)
  | RebroadcastExact chain a => fun w =>
      (log_effects w [DidBroadcast chain a (su_broadcast su chain a)], su_broadcast su chain a)
  | ObserveWallet chain => fun w => (w, su_wallet su chain)
  | ObservePayouts chain ws => fun w =>
      (log_effects w [DidObserve chain ws (su_validator su chain ws)], su_validator su chain ws)
  | InspectPrepared q => fun w => (w, su_inspect su q)
  | ObserveExpiry ws => fun w => (log_effects w [DidObserveExpiry ws (su_expiry su ws)], su_expiry su ws)
  | LockProgress => fun w => (w, w_progress w)
  | SetProgress p => fun w => (mkWorld (w_db w) p (w_log w), tt)
  | ReadShutdown | SleepOrShutdown _ => fun w => (w, su_shutdown su)
  end.

Lemma commit_wrote {A} w effects (outcome : Db * result A StoreError) :
  wrote w (fst (commit w effects outcome)) effects outcome (snd (commit w effects outcome)).
Proof. split_and!; [done..|]. by left. Qed.

Lemma heard_nothing {A X} w (typed : A -> Prop) (r : result A X) : (forall x, r = Ok x -> typed x) ->
  heard w w [] typed r.
Proof. intros H. split_and!; [done|done|by rewrite app_nil_r|]. destruct r; auto. Qed.

Lemma respond_handles R (e : WorkerCall R) w : surroundings_typed su ->
  handles R e w (snd (respond R e w)) (fst (respond R e w)).
Proof.
  intros [Hp Hrc Hv Hx Hd].
  destruct e; cbn [respond handles]; try (by split; [|left]); try apply commit_wrote; try done.
  all: try (by apply heard_nothing).
  - exists (su_now su). apply commit_wrote.
  - exists (su_draw su). apply commit_wrote.
  - exists (su_draw su), (su_now su). apply commit_wrote.
  - exists (su_now su), (su_fresh su), (su_randomness su), (su_draw su), (su_draw su). split; [done|apply commit_wrote].
  - exists (su_draw su). apply commit_wrote.
  - exists (su_draw su). apply commit_wrote.
  - exists (su_now su). apply commit_wrote.
  - exists (su_now su), (su_draw su). apply commit_wrote.
  - split_and!; [done..|]. cbn. destruct (su_prepare su chain request) eqn:Hr; eauto.
  - split_and!; [done..|]. cbn. destruct (su_recover su chain request) as [[x|]|] eqn:Hr; eauto.
  - split_and!; [done..|]. cbn. by destruct (su_broadcast su chain artifact).
  - split_and!; [done..|]. cbn. destruct (su_validator su chain watches) eqn:Hr; eauto.
  - split_and!; [done..|]. cbn. destruct (su_expiry su watches) eqn:Hr; eauto.
Qed.
End Respond.

(** ** A deployment *)

(** A signer whose transaction depends on the request only. *)
Definition demo_execution (q : PayoutBatchRequest) : result RichPayoutExecution BoundaryFailure :=
  match PayoutBatchRequest_validate q, PayoutBatchRequest_commitment demo_digest q with
  | Ok t, Ok c =>
      Ok (mkRichPayoutExecution (rq_batch_id q) (rq_asset q) c (hex_encode (sf_transaction_id demo_facts))
            (sf_transaction_id demo_facts) t (sf_unsigned_digest demo_facts) (sf_signed_transaction demo_facts)
            (sf_network_fee_zat demo_facts))
  | _, _ => Err BoundaryInvariant
  end.

Definition demo_mined : PayoutConfirmation := mkPayoutConfirmation (replicate 32 8) 600 10.

(** The validator has every watched payout mined ten blocks deep. *)
Definition demo_snapshot (chain : Chain) (ws : list PayoutWatch) : AuthoritySnapshot :=
  mkAuthoritySnapshot chain (replicate 32 6) 609 171
    ((fun w => mkAuthorityPayoutObservation (pw_batch_id w) (pw_transaction_id w) (AuthorityMined demo_mined)) <$> ws).

Definition demo_surroundings : Surroundings :=
  mkSurroundings 170 90 (fun i => 5000 + Z.of_nat i) (Some [5; 7; 11; 13])
    (fun _ => demo_execution) (fun _ _ => Ok None) (fun _ _ => Ok tt)
    (fun _ => Err ObservationUnavailable) (fun chain ws => Ok (demo_snapshot chain ws))
    (fun _ => Err WecWalletUnavailable) (fun _ => Err ObservationUnavailable) false.

Lemma demo_surroundings_typed : surroundings_typed demo_surroundings.
Proof.
  split; cbn; try done.
  - intros chain q x. unfold demo_execution. repeat case_match; try done. intros [= <-]. done.
  - intros chain ws s [= <-]. cbn. apply Forall_fmap, Forall_true. done.
Qed.

Definition demo_world (n : nat) : World := mkWorld (demo_state n) RecoveryProgress_default [].

Definition demo_policy_loop : PayoutLoopPolicy := mkPayoutLoopPolicy (from_secs 10) (from_secs 1) (from_secs 60) 5 100.

(** The worker on the draft batch: two passes. *)
Definition demo_loop : proc WorkerCall unit :=
  void (run_loop (payout_runtime true false Wcash 5 demo_policy_loop) (call ReadShutdown)
          (fun d => call (SleepOrShutdown d)) 2 0).

Definition demo_after (n : nat) : World * proc WorkerCall unit := advance (respond demo_surroundings) n demo_loop (demo_world 6).
