(* ===== verification/WorkerProps.v ===== *)
(** The payout worker as a whole: in every interleaving of its passes, start-up recoveries and
    restarts with all other writers of the store, and whatever the wallets and validators answer,
    its external effects are warranted and each batch has one transaction. *)

From Stdlib Require Import ZArith Lia.
From stdpp Require Import prelude gmap sorting strings.
From S2P Require Import Prelude Wire Backend Hex LargestRemainder Pplns PayoutFees Ledger PayoutRequest StoreDb PayoutStore Configuration PayoutWatch WinnerStore Books BatchPlan StoreInv WinnerInv StoreOps StoreEvolve StoreDemo Solvency StoreProps SigningFence WatchRotation Proc WecSigner Settlement PayoutRuntime PayoutExpiry Worker WorkerSafe WorkerReads WorkerSteps WorkerSettles RuntimeChecks WorkerTicks WorkerRuns.
Open Scope Z_scope.

Section Props.
Context {env : StoreEnv}.

Lemma warranted_in w ps x : worker_reachable (w, ps) -> x ∈ w_log w -> reachable (w_db w) /\ warranted w x.
Proof.
  intros [Hr Hw]%worker_reachable_warranted Hin. split; [done|]. rewrite Forall_forall in Hw. by apply Hw.
Qed.

(** C4. Nothing leaves the payout worker without its warrant, however its passes interleave with
    each other and with every other writer, wherever they crash, and whatever the wallets and
    validators answer: a signer is asked only for the request the store authored for a batch past
    its signing fence; bytes are broadcast only behind the committed broadcast fence and are the
    stored ones; a transaction is recorded only if the signer returned it for that request and it
    passed validation; a reservation is cancelled only after the signer rejected it; and
    confirmations, reorganisations, holds and releases are recorded only on what the chain's
    validator reported of that batch's own transaction. *)
Theorem effects_warranted w ps : worker_reachable (w, ps) -> Forall (warranted w) (w_log w).
Proof. intros [_ H]%worker_reachable_warranted. exact H. Qed.

(** C5. One transaction per payout: all broadcasts of a batch, by any worker at any time, carry the
    same bytes to the same chain, no two batches of a chain are paid by one transaction, and a
    batch that was broadcast holds exactly those bytes and is neither unsigned nor cancelled. *)
Theorem one_transaction_per_batch w ps chain artifact r :
  worker_reachable (w, ps) -> DidBroadcast chain artifact r ∈ w_log w ->
  (exists row, batches (pay (w_db w)) !! ar_batch_id artifact = Some row /\ br_chain row = chain /\
     br_signed row = Some (ar_facts artifact) /\ br_state row ∉ [Draft; Signing; Signed; Cancelled]) /\
  forall chain' artifact' r', DidBroadcast chain' artifact' r' ∈ w_log w ->
    (ar_batch_id artifact' = ar_batch_id artifact -> chain' = chain /\ ar_facts artifact' = ar_facts artifact) /\
    (chain' = chain -> sf_transaction_id (ar_facts artifact') = sf_transaction_id (ar_facts artifact) ->
     ar_batch_id artifact' = ar_batch_id artifact).
Proof.
  intros Hw Hin. destruct (warranted_in w ps _ Hw Hin) as [Hr (row & Hrow & Hc & _ & Hs & Hrank)]. split.
  - exists row. split_and!; [done..|].
    destruct (si_batches _ _ (ok_inv _ (reachable_ok _ Hr)) _ row Hrow) as (_ & _ & Hok).
    intros Hst. rewrite !elem_of_cons in Hst. destruct Hst as [Hst|[Hst|[Hst|[Hst|[]%elem_of_nil]]]];
      rewrite Hst in *; try (cbn in Hrank; lia). congruence.
  - intros chain' artifact' r' Hin'. destruct (warranted_in w ps _ Hw Hin') as [_ (row' & Hrow' & Hc' & _ & Hs' & _)]. split.
    + intros Hid. rewrite Hid, Hrow in Hrow'. simplify_eq. split; congruence.
    + intros Hch Htx. destruct (decide (ar_batch_id artifact' = ar_batch_id artifact)) as [|Hne]; [done|]. exfalso.
      destruct (reachable_distinct (w_db w) _ _ row' row Hr Hne Hrow' Hrow) as (_ & _ & H3).
      apply (H3 (ar_facts artifact') (ar_facts artifact)); [congruence|done..].
Qed.

(** The batch and the request of a call to a signer. *)
Definition asked (x : Effect) : option (Chain * PayoutBatchRequest) :=
  match x with DidPrepare chain q _ | DidRecover chain q _ => Some (chain, q) | _ => None end.

(** One request per payout: whenever a signer is asked about a batch, by any worker, on any
    pass or recovery, before or after restarts, it is asked with the same request: the same
    outputs, addresses, amounts, fee limit, ledger root and checkpoint, on the same chain. *)
Theorem one_request_per_batch w ps x y chain chain' q q' :
  worker_reachable (w, ps) -> x ∈ w_log w -> y ∈ w_log w ->
  asked x = Some (chain, q) -> asked y = Some (chain', q') -> rq_batch_id q = rq_batch_id q' ->
  chain = chain' /\ q = q'.
Proof.
  intros Hw Hx Hy Hax Hay Hid.
  assert (forall z c r, z ∈ w_log w -> asked z = Some (c, r) -> requested (w_db w) c r) as Hreq.
  { intros z c r Hz Ha. destruct (warranted_in w ps z Hw Hz) as [_ Hz']. destruct z; cbn in *; by simplify_eq. }
  destruct (Hreq x chain q Hx Hax) as (row & batch & Hrow & <- & _ & Hload & Hq).
  destruct (Hreq y chain' q' Hy Hay) as (row' & batch' & Hrow' & <- & _ & Hload' & Hq').
  rewrite Hid in *. rewrite Hrow in Hrow'. rewrite Hload in Hload'. simplify_eq. split; congruence.
Qed.
End Props.

(** ** The worker restarted between a broadcast and its record *)

(** The worker stops after its first broadcast, an operator's recovery runs, a new loop starts. *)
Definition demo_restarted (n m k : nat) : World :=
  let w := fst (demo_after n) in
  let w := fst (advance (respond demo_surroundings) m
                  (void (recover_before_wallet_reconciliation (orchestrator true) Wcash)) w) in
  fst (advance (respond demo_surroundings) k demo_loop w).

Lemma demo_run n p w c : worker_program p -> rtc worker_step c (w, []) ->
  rtc worker_step c (fst (advance (respond demo_surroundings) n p w), []).
Proof.
  intros Hp Hc. etrans; [exact Hc|]. eapply rtc_l; [by apply step_start|]. eapply rtc_r.
  - apply (advance_sys handles worker_program others (respond demo_surroundings) n p w).
    intros R e v. apply respond_handles, demo_surroundings_typed.
  - apply (step_stop handles worker_program others _ [] _ []).
Qed.

Lemma demo_restarted_reachable n m k : worker_reachable (demo_restarted n m k, []).
Proof.
  exists (demo_world 6). split_and!; [apply (demo_state_reachable 6)|done|].
  apply demo_run; [constructor|]. apply demo_run; [constructor|]. apply demo_run; [constructor|done].
Qed.

Definition demo_artifact (state : PayoutBatchState) : SignedPayoutArtifact :=
  mkSignedPayoutArtifact 71 Wcash state demo_facts.

Lemma effects_warranted_witness :
  length (w_log (demo_restarted 9 10 40)) = 9%nat /\
  Forall (warranted (demo_restarted 9 10 40)) (w_log (demo_restarted 9 10 40)).
Proof.
  split; [vm_compute; reflexivity|]. exact (effects_warranted _ [] (demo_restarted_reachable 9 10 40)).
Defined.

Lemma one_transaction_per_batch_witness :
  exists a b, w_log (demo_restarted 9 10 40) !! 3%nat = Some (DidBroadcast Wcash a (Ok tt)) /\
    w_log (demo_restarted 9 10 40) !! 4%nat = Some (DidBroadcast Wcash b (Ok tt)) /\
    ar_batch_id b = ar_batch_id a /\ ar_facts b = ar_facts a.
Proof.
  exists (demo_artifact Broadcasting), (demo_artifact Broadcasting). split; [vm_compute; reflexivity|]. split; [vm_compute; reflexivity|].
  split; [reflexivity|].
  refine (proj2 (proj1 (proj2 (one_transaction_per_batch (demo_restarted 9 10 40) [] Wcash (demo_artifact Broadcasting) (Ok tt)
    (demo_restarted_reachable 9 10 40) _) Wcash (demo_artifact Broadcasting) (Ok tt) _) _)).
  - apply (list_elem_of_lookup_2 _ 3). vm_compute. reflexivity.
  - apply (list_elem_of_lookup_2 _ 4). vm_compute. reflexivity.
  - reflexivity.
Defined.

(** The crash is before the signature was recorded: the recovery asks the signer again. *)
Definition demo_batch_request : PayoutBatchRequest :=
  mkPayoutBatchRequest 71 Wec Regtest (replicate 30 1 ++ [82; 165]) 61 10
    [mkPayoutOutput 2000 "wcash-regtest-address" Ironwood 990].

Definition demo_asked (i : nat) : option (Chain * PayoutBatchRequest) := w_log (demo_restarted 6 10 0) !! i ≫= asked.

Lemma one_request_per_batch_witness :
  demo_asked 1 = Some (Wcash, demo_batch_request) /\ demo_asked 3 = Some (Wcash, demo_batch_request) /\
  Wcash = Wcash /\ demo_batch_request = demo_batch_request.
Proof.
  split; [vm_compute; reflexivity|]. split; [vm_compute; reflexivity|].
  refine (one_request_per_batch (demo_restarted 6 10 0) []
    (DidPrepare Wcash demo_batch_request (demo_execution demo_batch_request)) (DidPrepare Wcash demo_batch_request (demo_execution demo_batch_request))
    Wcash Wcash demo_batch_request demo_batch_request (demo_restarted_reachable 6 10 0) _ _ _ _ _).
  - apply (list_elem_of_lookup_2 _ 1). vm_compute. reflexivity.
  - apply (list_elem_of_lookup_2 _ 3). vm_compute. reflexivity.
  - reflexivity.
  - reflexivity.
  - reflexivity.
Defined.
