(* ===== verification/WorkerCrash.v ===== *)
(** A crash anywhere in the settlement of a batch, then a restart: the batch ends as it would have
    without the crash. *)

From Stdlib Require Import ZArith Lia.
From stdpp Require Import prelude gmap sorting strings.
From S2P Require Import Prelude Wire Backend Hex LargestRemainder Pplns PayoutFees Ledger PayoutRequest StoreDb PayoutStore Configuration PayoutWatch WinnerStore Books BatchPlan StoreInv WinnerInv StoreOps StoreEvolve StoreDemo Solvency StoreProps SigningFence WatchRotation Proc WecSigner Settlement PayoutRuntime PayoutExpiry Worker WorkerSafe WorkerReads WorkerSteps WorkerSettles WorkerRuns.
Open Scope Z_scope.

(** ** The queue of incomplete batches *)

Definition queue_key (p : Uuid * PayoutBatchRow) : Z * Uuid := (br_created_at (snd p), fst p).
Definition queue_cmp (a b : Z * Uuid) : comparison := cmp_then (fst a ?= fst b) (snd a ?= snd b).

Lemma queue_sort_perm (l l' : list (Z * Uuid)) : l ≡ₚ l' -> sort_by queue_cmp l = sort_by queue_cmp l'.
Proof.
  intros Hp. assert (forall l, StronglySorted (fun x y => cmp_le (queue_cmp x y) = true) (sort_by queue_cmp l)) as Hs.
  { apply sort_by_sorted.
    - intros x y. apply (cmp_then_total fst (fun a b => snd a ?= snd b)). apply cmp_le_Z_total.
    - intros x y z. apply (cmp_then_trans fst (fun a b => snd a ?= snd b)). rewrite !cmp_le_Z. lia. }
  eapply StronglySorted_unique_strong; [|apply Hs|apply Hs|by rewrite !sort_by_perm].
  intros [a b] [c d] _ _. unfold queue_cmp. rewrite !cmp_then_Z, !cmp_le_Z. cbn. intros H1 H2. f_equal; lia.
Qed.

Lemma resumable_rows_keys db chain : queue_key <$> resumable_rows db chain =
  sort_by queue_cmp (queue_key <$> filter (fun p => br_chain (snd p) = chain /\ resumable (br_state (snd p)) = true)
                                     (map_to_list (batches (pay db)))).
Proof.
  unfold resumable_rows. apply list_eq_Forall2, Forall2_fmap_l, sort_by_Forall2.
  - by intros x x' y y' <- <-.
  - apply Forall2_fmap_r, Forall_Forall2_diag, Forall_true. done.
Qed.

Lemma queued_first (P : Uuid * PayoutBatchRow -> Prop) `{!forall p, Decision (P p)} m id row :
  m !! id = Some row -> P (id, row) -> filter P (map_to_list m) ≡ₚ (id, row) :: filter P (map_to_list (delete id m)).
Proof.
  intros Hrow HP. assert (map_to_list m ≡ₚ (id, row) :: map_to_list (delete id m)) as ->.
  { rewrite <- map_to_list_insert by apply lookup_delete_eq. by rewrite insert_delete_id. }
  by rewrite filter_cons_True.
Qed.

Section Queue.
Context {env : StoreEnv}.

(** A step of an incomplete batch leaves it where it is in the queue. *)
Lemma resumable_ids_put db chain id row row' : batches (pay db) !! id = Some row ->
  br_chain row = chain -> resumable (br_state row) = true -> br_chain row' = chain ->
  resumable (br_state row') = true -> br_created_at row' = br_created_at row ->
  fst <$> resumable_rows (put_batch db id row') chain = fst <$> resumable_rows db chain.
Proof.
  intros Hrow Hc Hs Hc' Hs' Hcr.
  assert (queue_key <$> resumable_rows (put_batch db id row') chain = queue_key <$> resumable_rows db chain) as Hk.
  { rewrite !resumable_rows_keys. apply queue_sort_perm. cbn.
    rewrite (queued_first _ (<[id:=row']> _) id row') by (try done; by rewrite lookup_insert_eq).
    rewrite (queued_first _ (batches (pay db)) id row) by done. rewrite delete_insert_eq. cbn. unfold queue_key at 1 3.
    cbn. by rewrite Hcr. }
  assert (forall l : list (Uuid * PayoutBatchRow), fst <$> l = snd <$> (queue_key <$> l)) as Hfst.
  { intros l. rewrite <- list_fmap_compose. done. }
  by rewrite !Hfst, Hk.
Qed.

Lemma oldest_is db chain batch : list_resumable_payout_batches db chain 1 = Ok [batch] ->
  exists row rest, fst <$> resumable_rows db chain = pb_id batch :: rest /\ load_payout_batch db (pb_id batch) = Ok batch /\
    batches (pay db) !! pb_id batch = Some row /\ br_state row = pb_state batch /\ br_chain row = pb_chain batch /\
    br_chain row = chain /\ resumable (br_state row) = true.
Proof.
  unfold list_resumable_payout_batches. intros H. change (negb ((1 <=? 1) && (1 <=? 1000))) with false in H.
  destruct (fst <$> resumable_rows db chain) as [|id rest] eqn:Hids; [done|].
  change (Z.to_nat 1) with 1%nat in H. cbn [take load_batches] in H. bind_in H b Hb. rewrite take_0 in H. cbn in H. simplify_eq.
  pose proof (load_payout_batch_Ok _ _ _ Hb) as (row & sl & Hrow & _ & Hid & Hc & Hs & _). subst id.
  exists row, rest. split_and!; try done.
  all: assert (exists row0, (pb_id batch, row0) ∈ resumable_rows db chain) as (row0 & Hin) by
    (assert (pb_id batch ∈ fst <$> resumable_rows db chain) as ([i r] & Hi & Hr)%list_elem_of_fmap by (rewrite Hids; by left);
     cbn in Hi; subst i; by exists r).
  all: unfold resumable_rows in Hin; rewrite sort_by_perm in Hin; apply list_elem_of_filter in Hin as [[H1 H2] H3];
    apply elem_of_map_to_list in H3; cbn in *; congruence.
Qed.

Lemma oldest_found db chain found batch : list_resumable_payout_batches db chain 1 = Ok found -> last found = Some batch ->
  list_resumable_payout_batches db chain 1 = Ok [batch].
Proof.
  intros H Hlast. rewrite H. unfold list_resumable_payout_batches in H.
  change (negb ((1 <=? 1) && (1 <=? 1000))) with false in H. change (Z.to_nat 1) with 1%nat in H.
  destruct (fst <$> resumable_rows db chain) as [|id rest]; cbn [take load_batches] in H; [by injection H as <-|].
  bind_in H b Hb. rewrite take_0 in H. cbn in H. injection H as <-. by injection Hlast as ->.
Qed.

(** After a step of the oldest batch it is still the oldest. *)
Lemma oldest_put db chain batch row row' : reachable db -> list_resumable_payout_batches db chain 1 = Ok [batch] ->
  batches (pay db) !! pb_id batch = Some row -> grows db (put_batch db (pb_id batch) row') ->
  resumable (br_state row') = true ->
  list_resumable_payout_batches (put_batch db (pb_id batch) row') chain 1 = Ok [in_state batch (br_state row')].
Proof.
  intros Hr Hl Hrow Hg Hs'. pose proof (oldest_is db chain batch Hl) as (row0 & rest & Hids & Hload & Hrow0 & Hst & Hc & Hch & Hs).
  assert (row0 = row) as -> by congruence. destruct (grows_advanced _ _ _ _ Hr Hg Hrow) as (row1 & Hrow1 & Ha).
  assert (row1 = row') as -> by (cbn in Hrow1; rewrite lookup_insert_eq in Hrow1; congruence).
  pose proof (resumable_ids_put db chain (pb_id batch) row row' Hrow Hch Hs) as Hput.
  specialize (Hput ltac:(by rewrite (ad_chain _ _ Ha)) Hs' (ad_created _ _ Ha)).
  unfold list_resumable_payout_batches. change (negb ((1 <=? 1) && (1 <=? 1000))) with false. change (Z.to_nat 1) with 1%nat.
  rewrite Hput, Hids. cbn [take load_batches].
  pose proof (reachable_ok db Hr) as Hok. destruct Hg as (ops & Hwf & Heq).
  rewrite (load_payout_batch_stable _ db _ _ row row' batch (ok_inv _ Hok)); try done.
  rewrite Heq. by apply ops_kept.
Qed.

(** ** The fences, as the store leaves them *)

Lemma authorize_signing_put db now id q : snd (authorize_payout_signing db now id) = Ok q ->
  forall batch row, load_payout_batch db id = Ok batch -> batches (pay db) !! id = Some row -> br_state row = Draft ->
  fst (authorize_payout_signing db now id) = put_batch db id (set_state row Signing).
Proof.
  unfold authorize_payout_signing. destruct (Uuid_is_nil id); [done|]. intros H batch row Hload Hrow Hst.
  pose proof (load_payout_batch_Ok _ _ _ Hload) as (row0 & sl & Hrow0 & _ & _ & _ & Hs & _).
  assert (row0 = row) as -> by congruence. rewrite Hload in *. rewrite Hs, Hst in *.
  repeat match type of H with
  | snd (transaction _ (match ?x with _ => _ end)) = _ => destruct x eqn:?; [|done]
  end.
  unfold update_payout_state in *. rewrite Hrow in *. rewrite bool_decide_eq_true_2 in * by done. by simplify_eq.
Qed.

Lemma mark_signed_put db id facts row : snd (mark_payout_signed db id facts) = Ok tt ->
  batches (pay db) !! id = Some row -> br_state row = Signing ->
  fst (mark_payout_signed db id facts) = put_batch db id (set_signed row Signed (Some facts)).
Proof.
  unfold mark_payout_signed, transition_payout. case_match eqn:Hbad; [done|]. intros H Hrow Hst. rewrite Hrow in *. cbn [ok_or] in *.
  rewrite Hst in *.
  repeat match type of H with
  | snd (transaction _ (match ?x with _ => _ end)) = _ => destruct x eqn:?; try done
  end.
Qed.

Lemma authorize_broadcast_put db id artifact row : snd (authorize_payout_broadcast db id) = Ok artifact ->
  batches (pay db) !! id = Some row -> br_state row = Signed ->
  fst (authorize_payout_broadcast db id) = put_batch db id (set_state row Broadcasting) /\
  signed_artifact_from_row id Broadcasting row = Ok artifact.
Proof.
  unfold authorize_payout_broadcast. destruct (Uuid_is_nil id); [done|]. intros H Hrow Hst.
  rewrite Hrow in *. cbn [ok_or] in *. rewrite Hst in *.
  destruct (lock_unfrozen_chain _ _); [|done]. unfold update_payout_state in *. rewrite Hrow in *.
  rewrite bool_decide_eq_true_2 in * by done. destruct (signed_artifact_from_row _ _ _); [|done]. by cbn in H; simplify_eq.
Qed.

Lemma mark_broadcast_put db id row : snd (mark_payout_broadcast db id) = Ok tt ->
  batches (pay db) !! id = Some row -> br_state row = Broadcasting ->
  fst (mark_payout_broadcast db id) = put_batch db id (set_signed row Broadcast None).
Proof.
  unfold mark_payout_broadcast, transition_payout. intros H Hrow Hst. rewrite Hrow in *. cbn [ok_or] in *. rewrite Hst in *.
  repeat match type of H with
  | snd (transaction _ (match ?x with _ => _ end)) = _ => destruct x eqn:?; try done
  end.
Qed.
End Queue.

(** ** Stages of a settlement *)

Section Crash.
Context {env : StoreEnv}.
Variable zec : bool.
Variable chain : Chain.
Variable su : Surroundings.
(** The broadcaster looks at the bytes, not at the recorded state. *)
Hypothesis broadcast_by_bytes : forall a b, ar_batch_id a = ar_batch_id b -> ar_chain a = ar_chain b ->
  ar_facts a = ar_facts b -> su_broadcast su chain a = su_broadcast su chain b.

Let resume := resume_next (orchestrator zec) chain.
Let fence := chain_boundary chain.

(** The surroundings of the restart: another time, the same wallets. *)
Definition same_wallets (su' : Surroundings) : Prop :=
  (forall q, su_prepare su' chain q = su_prepare su chain q) /\
  (forall a, su_broadcast su' chain a = su_broadcast su chain a).

(** Restarted on [db], the coordinator leaves [final] with the batch broadcast. *)
Definition settles (final : Db) (id : Uuid) (txid : list Z) (db : Db) : Prop :=
  forall su' v, same_wallets su' -> w_db v = db ->
  exists v' o, run (respond su') resume v = (v', Ok o) /\ w_db v' = final /\
    (o = Broadcasted id chain txid \/ o = AwaitingConfirmation id chain txid).

Definition branch (batch : PayoutBatch) : proc WorkerCall (result ResumeOutcome SettlementError) :=
  match pb_state batch with
  | Draft => resume_draft (orchestrator zec) batch fence
  | Signing => resume_signing (orchestrator zec) batch fence
  | Signed => resume_signed (orchestrator zec) batch fence
  | Broadcasting => resume_broadcasting (orchestrator zec) batch fence
  | Broadcast => let! artifact := load_exact_artifact (orchestrator zec) batch in
                 rebroadcast_committed batch artifact fence
  | Reorged => let! artifact := load_exact_artifact (orchestrator zec) batch in
               Ret (Ok (FrozenAfterReorg (pb_id batch) chain (sf_transaction_id (ar_facts artifact))))
  | _ => Ret (Ok (Terminal (pb_id batch) (pb_state batch)))
  end.

Hypothesis enabled : boundary (orchestrator zec) chain = Ok fence.

Lemma resume_branch su' v batch : list_resumable_payout_batches (w_db v) chain 1 = Ok [batch] -> pb_chain batch = chain ->
  run (respond su') resume v = run (respond su') (branch batch) v.
Proof.
  intros Hl Hc. unfold resume, resume_next. cbn [so_store orchestrator oldest_resumable postgres_settlement_store].
  cbn [bind_ok bind call_err run respond]. rewrite Hl. cbn [map_err bind last]. rewrite bool_decide_eq_false_2 by tauto.
  rewrite enabled. cbn [bind_ok bind]. unfold branch. destruct (pb_state batch); reflexivity.
Qed.

Lemma signed_artifact_restate id s s' row row' a : signed_artifact_from_row id s row = Ok a ->
  br_signed row' = br_signed row -> br_chain row' = br_chain row ->
  signed_artifact_from_row id s' row' = Ok (mkSignedPayoutArtifact id (br_chain row) s' (ar_facts a)).
Proof.
  unfold signed_artifact_from_row. intros H -> ->. destruct (br_signed row) as [f|]; cbn [ok_or] in *; [|done].
  repeat match type of H with
  | match ?x with _ => _ end = _ => destruct x eqn:?; try done
  end; by simplify_eq.
Qed.

Lemma load_exact_artifact_run su' v batch row a : reachable (w_db v) -> batches (pay (w_db v)) !! pb_id batch = Some row ->
  br_state row = pb_state batch -> br_chain row = pb_chain batch -> pb_state batch = Broadcasting \/ pb_state batch = Broadcast ->
  signed_artifact_from_row (pb_id batch) (pb_state batch) row = Ok a ->
  run (respond su') (load_exact_artifact (orchestrator zec) batch) v = (v, Ok a).
Proof.
  intros Hr Hrow Hst Hc Hor Ha. unfold load_exact_artifact. cbn [so_store orchestrator signed_artifact postgres_settlement_store].
  cbn [bind_ok bind call_err run respond]. unfold signed_payout_artifact. rewrite Hrow. cbn [ok_or].
  pose proof (signed_artifact_from_row_Ok _ _ _ _ Ha) as (Hid & Hs & Hch & Hf).
  destruct (reachable_watchable _ Hr _ _ Hrow) as [_ (Hfacts & _)]. destruct (Hfacts _ Hf) as (_ & Hz1 & Hz2 & Hne & Hlen).
  assert ((match br_state row with Draft | Signing | Cancelled => Ok None
    | state => let? artifact := signed_artifact_from_row (pb_id batch) state row in Ok (Some artifact) end) = Ok (Some a)) as ->
    by (rewrite Hst; destruct Hor as [E|E]; rewrite E in *; by rewrite Ha).
  cbn [map_err bind ok_or bind_ok]. rewrite Hid, Z.eqb_refl, Hz1, Hz2, !bool_decide_eq_false_2 by congruence.
  rewrite (proj2 (Z.ltb_ge _ _)) by done. done.
Qed.

Lemma stage_broadcast db batch row a : reachable db -> list_resumable_payout_batches db chain 1 = Ok [batch] ->
  pb_state batch = Broadcast -> batches (pay db) !! pb_id batch = Some row ->
  signed_artifact_from_row (pb_id batch) Broadcast row = Ok a -> su_broadcast su chain a = Ok tt ->
  settles db (pb_id batch) (sf_transaction_id (ar_facts a)) db.
Proof.
  intros Hr Hl Hst Hrow Ha Hb su' v [_ Hsb] <-. pose proof (oldest_is _ _ _ Hl) as (row0 & _ & _ & _ & Hrow0 & Hs & Hc & Hch & _).
  assert (row0 = row) as -> by congruence. rewrite (resume_branch su' v batch Hl) by congruence. unfold branch. rewrite Hst.
  unfold bind_ok at 1. rewrite run_bind, (load_exact_artifact_run su' v batch row a) by (try done; rewrite Hst; auto).
  pose proof (signed_artifact_from_row_Ok _ _ _ _ Ha) as (_ & Has & _ & _). unfold rebroadcast_committed.
  rewrite bool_decide_eq_false_2 by tauto. cbn. rewrite Hsb, Hb. cbn. eexists _, _. split; [reflexivity|]. split; [done|].
  right. f_equal. congruence.
Qed.

Lemma stage_broadcasting db batch row a : reachable db -> list_resumable_payout_batches db chain 1 = Ok [batch] ->
  pb_state batch = Broadcasting -> batches (pay db) !! pb_id batch = Some row ->
  signed_artifact_from_row (pb_id batch) Broadcasting row = Ok a -> su_broadcast su chain a = Ok tt ->
  snd (mark_payout_broadcast db (pb_id batch)) = Ok tt ->
  let final := fst (mark_payout_broadcast db (pb_id batch)) in
  settles final (pb_id batch) (sf_transaction_id (ar_facts a)) db /\
  settles final (pb_id batch) (sf_transaction_id (ar_facts a)) final.
Proof.
  intros Hr Hl Hst Hrow Ha Hb Hm final. pose proof (oldest_is _ _ _ Hl) as (row0 & _ & _ & _ & Hrow0 & Hs & Hc & Hch & _).
  assert (row0 = row) as -> by congruence. pose proof (signed_artifact_from_row_Ok _ _ _ _ Ha) as (Hid & Has & Hac & _). split.
  - intros su' v [_ Hsb] <-. rewrite (resume_branch su' v batch Hl) by congruence. unfold branch. rewrite Hst.
    unfold resume_broadcasting, bind_ok at 1. rewrite run_bind, (load_exact_artifact_run su' v batch row a) by (try done; rewrite Hst; auto).
    unfold submit_authorized. rewrite bool_decide_eq_false_2 by tauto. cbn. rewrite Hsb, Hb. cbn. rewrite Hm. cbn.
    eexists _, _. split; [reflexivity|]. split; [done|]. left. f_equal. congruence.
  - pose proof (mark_broadcast_put db (pb_id batch) row Hm Hrow ltac:(congruence)) as Hput.
    assert (grows db final) as Hg by (by apply (grows_op db (OpMarkBroadcast (pb_id batch)))).
    unfold final in *. rewrite Hput in *.
    set (a' := mkSignedPayoutArtifact (pb_id batch) (br_chain row) Broadcast (ar_facts a)).
    apply (stage_broadcast _ (in_state batch Broadcast) (set_signed row Broadcast None) a').
    + by eapply grows_reachable.
    + by eapply (oldest_put db chain batch row (set_signed row Broadcast None)).
    + done.
    + cbn. by rewrite lookup_insert_eq.
    + by eapply signed_artifact_restate.
    + rewrite <- Hb. by apply broadcast_by_bytes.
Qed.

(** ** Crash points *)

(** [P] holds of the store at every point where the procedure can stop. *)
Fixpoint all_along {A} (P : Db -> Prop) (p : proc WorkerCall A) (v : World) : Prop :=
  P (w_db v) /\
  match p with
  | Ret _ => True
  | Vis e k => let '(v', r) := respond su _ e v in all_along P (k r) v'
  end.

Lemma crash_along {A} P (p : proc WorkerCall A) n v : all_along P p v -> P (w_db (crash (respond su) n p v)).
Proof.
  revert n v. induction p as [a|R e k IH]; intros [|n] v [HP Hk]; cbn; try done.
  destruct (respond su R e v) as [v' r]. by apply IH.
Qed.

(** What a completed submission established. *)
Lemma submit_authorized_inv batch a v v' id txid : pb_chain batch = chain ->
  run (respond su) (submit_authorized (orchestrator zec) batch a fence) v = (v', Ok (Broadcasted id chain txid)) ->
  ar_state a = Broadcasting /\ su_broadcast su chain a = Ok tt /\
  snd (mark_payout_broadcast (w_db v) (pb_id batch)) = Ok tt /\
  w_db v' = fst (mark_payout_broadcast (w_db v) (pb_id batch)) /\ id = pb_id batch /\ txid = sf_transaction_id (ar_facts a).
Proof.
  intros Hc. unfold submit_authorized. case_bool_decide as Hs; [done|]. cbn.
  destruct (su_broadcast su chain a) as [[]|]; cbn; [|done].
  destruct (mark_payout_broadcast (w_db v) (pb_id batch)) as [d [[]|]]; cbn; [|done]. intros [= <- <- _ <-]. done.
Qed.

Lemma submit_authorized_along P batch a v : ar_state a = Broadcasting -> su_broadcast su chain a = Ok tt ->
  snd (mark_payout_broadcast (w_db v) (pb_id batch)) = Ok tt -> P (w_db v) ->
  P (fst (mark_payout_broadcast (w_db v) (pb_id batch))) ->
  all_along P (submit_authorized (orchestrator zec) batch a fence) v.
Proof.
  intros Hs Hb Hm H0 H1. unfold submit_authorized. rewrite bool_decide_eq_false_2 by tauto. cbn. rewrite Hb. cbn. by rewrite Hm.
Qed.

(** From a signed batch. *)
Lemma stage_signed batch v v' id txid : reachable (w_db v) -> list_resumable_payout_batches (w_db v) chain 1 = Ok [batch] ->
  pb_state batch = Signed ->
  run (respond su) (resume_signed (orchestrator zec) batch fence) v = (v', Ok (Broadcasted id chain txid)) ->
  id = pb_id batch /\ settles (w_db v') id txid (w_db v') /\
  all_along (settles (w_db v') id txid) (resume_signed (orchestrator zec) batch fence) v.
Proof.
  intros Hr Hl Hst Hrun. pose proof (oldest_is _ _ _ Hl) as (row & _ & _ & _ & Hrow & Hs & Hc & Hch & _).
  set (db := w_db v) in *. set (db3 := fst (authorize_payout_broadcast db (pb_id batch))).
  unfold resume_signed in Hrun. cbn in Hrun. fold db in Hrun.
  destruct (snd (authorize_payout_broadcast db (pb_id batch))) as [a|] eqn:Ha; [|done]. cbn in Hrun.
  destruct (authorize_broadcast_put db (pb_id batch) a row Ha Hrow ltac:(congruence)) as [Hput Hfrom].
  pose proof (signed_artifact_from_row_Ok _ _ _ _ Hfrom) as (Hid & Has & Hac & _).
  rewrite Hid, Z.eqb_refl, bool_decide_eq_false_2 in Hrun by congruence. cbn in Hrun. rewrite Has in Hrun.
  set (v3 := mkWorld db3 (w_progress v) (w_log v ++ [])) in *.
  pose proof (submit_authorized_inv batch a v3 v' id txid ltac:(congruence) Hrun) as (_ & Hb & Hm & Hfinal & -> & ->).
  cbn [w_db v3] in Hm, Hfinal.
  assert (grows db db3) as Hg by (by apply (grows_op db (OpAuthorizeBroadcast (pb_id batch)))).
  assert (reachable db3) as Hr3 by (by eapply grows_reachable).
  assert (list_resumable_payout_batches db3 chain 1 = Ok [in_state batch Broadcasting]) as Hl3.
  { unfold db3 in *. rewrite Hput in *. by apply (oldest_put db chain batch row). }
  assert (batches (pay db3) !! pb_id batch = Some (set_state row Broadcasting)) as Hrow3.
  { unfold db3. rewrite Hput. cbn. apply lookup_insert_eq. }
  assert (signed_artifact_from_row (pb_id batch) Broadcasting (set_state row Broadcasting) = Ok a) as Ha3 by (exact Hfrom).
  destruct (stage_broadcasting db3 (in_state batch Broadcasting) _ a Hr3 Hl3 eq_refl Hrow3 Ha3 Hb Hm) as [H3 H4].
  cbn [pb_id in_state] in H3, H4. rewrite Hfinal. split_and!; [done|exact H4|].
  assert (settles (fst (mark_payout_broadcast db3 (pb_id batch))) (pb_id batch) (sf_transaction_id (ar_facts a)) db) as H2.
  { intros su' u [_ Hsb] Hu. rewrite (resume_branch su' u batch) by (rewrite ?Hu; (done || congruence)). unfold branch. rewrite Hst.
    unfold resume_signed. cbn. rewrite Hu, Ha. cbn. rewrite Hid, Z.eqb_refl, bool_decide_eq_false_2 by congruence. cbn. rewrite Has.
    unfold submit_authorized. rewrite bool_decide_eq_false_2 by tauto. cbn. rewrite Hsb, Hb. cbn. fold db3. rewrite Hm. cbn.
    eexists _, _. split; [reflexivity|]. split; [done|]. left. f_equal. congruence. }
  unfold resume_signed. cbn [all_along bind_ok bind call_err respond so_store orchestrator authorize_broadcast postgres_settlement_store commit].
  split; [exact H2|]. fold db. rewrite Ha. cbn [map_err bind]. rewrite Hid, Z.eqb_refl, bool_decide_eq_false_2 by congruence.
  cbn [negb orb]. rewrite Has. by apply submit_authorized_along.
Qed.

Hypothesis typed : surroundings_typed su.

(** What a signature that was taken to the broadcast established. *)
Lemma sign_and_submit_inv batch q v v' id txid : pb_chain batch = chain ->
  run (respond su) (sign_and_submit (orchestrator zec) batch q fence) v = (v', Ok (Broadcasted id chain txid)) ->
  rq_batch_id q = pb_id batch /\ rq_asset q = asset_for_chain (pb_chain batch) /\
  exists x, su_prepare su chain q = Ok x /\ validate_against x q = Ok tt /\ rx_batch_id x = pb_id batch /\
    let artifact := as_store_artifact x chain in
    let signed := mark_payout_signed (w_db v) (pb_id batch) (ar_facts artifact) in
    snd signed = Ok tt /\
    run (respond su) (resume_signed (orchestrator zec) (in_state batch Signed) fence)
      (mkWorld (fst signed) (w_progress v) ((w_log v ++ [DidPrepare chain q (Ok x)]) ++ [DidMarkSigned artifact]))
    = (v', Ok (Broadcasted id chain txid)).
Proof.
  intros Hc. unfold sign_and_submit. case_match eqn:Hbad; [done|]. apply orb_false_iff in Hbad as [Hid Has].
  apply bool_decide_eq_false, dec_stable in Has. boolprop. cbn [run bind call prepare_exact cb_signer fence chain_boundary chain_signer respond].
  destruct (su_prepare su chain q) as [x|f] eqn:Hx.
  2:{ destruct f; cbn; try done. by destruct (snd (cancel_rejected_payout_signing _ _ _)). }
  destruct (validate_against x q) as [[]|] eqn:Hv; cbn [bind_ok bind]; [|done]. pose proof (validate_against_id _ _ Hv) as Hxi.
  cbn [so_store orchestrator mark_signed postgres_settlement_store bind bind_ok call_err run respond].
  rewrite Hc. cbn [ar_batch_id as_store_artifact commit fst snd log_effects w_db w_progress w_log]. rewrite <- Hxi, Hid.
  destruct (snd (mark_payout_signed (w_db v) _ _)) as [[]|] eqn:Hm; cbn [map_err bind]; [|done].
  intros Hrun. split; [done|]. split; [congruence|]. exists x. split_and!; [done..|congruence|exact Hm|]. exact Hrun.
Qed.

(** The signature path from any world on the same store: the signature, then a restart. *)
Lemma sign_and_submit_run su' batch q x v : same_wallets su' -> pb_chain batch = chain ->
  rq_batch_id q = pb_id batch -> rq_asset q = asset_for_chain (pb_chain batch) ->
  su_prepare su chain q = Ok x -> validate_against x q = Ok tt -> rx_batch_id x = pb_id batch ->
  snd (mark_payout_signed (w_db v) (pb_id batch) (ar_facts (as_store_artifact x chain))) = Ok tt ->
  exists log, run (respond su') (sign_and_submit (orchestrator zec) batch q fence) v =
    run (respond su') (resume_signed (orchestrator zec) (in_state batch Signed) fence)
      (mkWorld (fst (mark_payout_signed (w_db v) (pb_id batch) (ar_facts (as_store_artifact x chain)))) (w_progress v) log).
Proof.
  intros [Hsp _] Hc Hid Has Hx Hv Hxi Hm. unfold sign_and_submit. rewrite Hid, Z.eqb_refl, bool_decide_eq_false_2 by tauto.
  cbn [negb orb run bind call prepare_exact cb_signer fence chain_boundary chain_signer respond].
  rewrite Hsp, Hx. cbn. rewrite Hv. cbn in Hm. cbn. rewrite Hc, Hxi, Hm. cbn. eexists. reflexivity.
Qed.

Lemma mark_signed_grows db q x id : su_prepare su chain q = Ok x ->
  grows db (fst (mark_payout_signed db id (ar_facts (as_store_artifact x chain)))).
Proof.
  intros Hx. destruct (st_prepare _ typed _ _ _ Hx) as (Hfee & Ht & Hd).
  apply (grows_op db (OpMarkSigned id (ar_facts (as_store_artifact x chain)))). done.
Qed.

(** From a batch past its signing fence. *)
Lemma stage_signing batch q v v' id txid : reachable (w_db v) -> list_resumable_payout_batches (w_db v) chain 1 = Ok [batch] ->
  pb_state batch = Signing -> snd (signing_payout_request (w_db v) (pb_id batch)) = Ok q ->
  run (respond su) (sign_and_submit (orchestrator zec) batch q fence) v = (v', Ok (Broadcasted id chain txid)) ->
  settles (w_db v') id txid (w_db v) /\
  all_along (settles (w_db v') id txid) (sign_and_submit (orchestrator zec) batch q fence) v.
Proof.
  intros Hr Hl Hst Hq Hrun. pose proof (oldest_is _ _ _ Hl) as (row & _ & _ & _ & Hrow & Hs & Hc & Hch & _).
  destruct (sign_and_submit_inv batch q v v' id txid ltac:(congruence) Hrun) as (Hid & Has & x & Hx & Hv & Hxi & Hm & Hrest).
  set (facts := ar_facts (as_store_artifact x chain)) in *. set (db2 := fst (mark_payout_signed (w_db v) (pb_id batch) facts)) in *.
  pose proof (mark_signed_grows (w_db v) q x (pb_id batch) Hx) as Hg. fold facts db2 in Hg.
  assert (list_resumable_payout_batches db2 chain 1 = Ok [in_state batch Signed]) as Hl2.
  { unfold db2 in *. rewrite (mark_signed_put (w_db v) (pb_id batch) facts row Hm Hrow) in * by congruence.
    by apply (oldest_put (w_db v) chain batch row). }
  pose proof (fun r l => stage_signed (in_state batch Signed) _ v' id txid r l eq_refl Hrest) as Hstage.
  destruct Hstage as (-> & _ & Halong); [by eapply grows_reachable|exact Hl2|].
  assert (settles (w_db v') (pb_id batch) txid db2) as H2 by (destruct (resume_signed _ _ _); apply Halong).
  assert (settles (w_db v') (pb_id batch) txid (w_db v)) as H1.
  { intros su' u Hsu Hu. rewrite (resume_branch su' u batch) by (rewrite ?Hu; (done || congruence)). unfold branch. rewrite Hst.
    unfold resume_signing. cbn [so_store orchestrator signing_request postgres_settlement_store bind_ok bind call_err run respond commit].
    rewrite Hu, Hq, signing_payout_request_db. cbn [map_err bind].
    set (u1 := mkWorld (w_db v) _ _). destruct (sign_and_submit_run su' batch q x u1 Hsu) as [log2 ->]; try done; [congruence|].
    cbn [w_db u1]. fold facts db2. set (u2 := mkWorld db2 _ _).
    pose proof (resume_branch su' u2 (in_state batch Signed) Hl2 ltac:(cbn; congruence)) as Hb. unfold branch in Hb. cbn [pb_state in_state] in Hb.
    rewrite <- Hb. by apply H2. }
  split; [exact H1|]. unfold sign_and_submit. rewrite Hid, Z.eqb_refl, bool_decide_eq_false_2 by tauto.
  cbn [negb orb all_along bind call prepare_exact cb_signer fence chain_boundary chain_signer respond]. split; [exact H1|].
  rewrite Hx. cbn [bind_ok bind]. rewrite Hv. cbn [bind all_along bind_ok call_err so_store orchestrator mark_signed postgres_settlement_store respond].
  split; [exact H1|]. replace (pb_chain batch) with chain by congruence. cbn [ar_batch_id as_store_artifact commit fst snd log_effects w_db w_progress w_log]. rewrite Hxi.
  fold facts db2. rewrite Hm. cbn [map_err bind]. exact Halong.
Qed.

Lemma all_along_now {A} P (p : proc WorkerCall A) v : all_along P p v -> P (w_db v).
Proof. by destruct p; intros [? _]. Qed.

(** From a batch past its broadcast fence. *)
Lemma broadcasting_along batch v v' id txid : reachable (w_db v) -> list_resumable_payout_batches (w_db v) chain 1 = Ok [batch] ->
  pb_state batch = Broadcasting ->
  run (respond su) (resume_broadcasting (orchestrator zec) batch fence) v = (v', Ok (Broadcasted id chain txid)) ->
  all_along (settles (w_db v') id txid) (resume_broadcasting (orchestrator zec) batch fence) v.
Proof.
  intros Hr Hl Hst Hrun. pose proof (oldest_is _ _ _ Hl) as (row & _ & _ & _ & Hrow & Hs & Hc & Hch & _).
  unfold resume_broadcasting, load_exact_artifact in *.
  cbn [so_store orchestrator signed_artifact postgres_settlement_store bind_ok bind call_err run respond all_along] in *.
  destruct (signed_payout_artifact (w_db v) (pb_id batch)) as [[a|]|] eqn:Ha; cbn [map_err bind ok_or bind_ok] in *; [|done..].
  pose proof (signed_payout_artifact_Ok _ _ _ Ha) as (row0 & Hrow0 & Hid & Has & Hac & Hf). assert (row0 = row) as -> by congruence.
  unfold signed_payout_artifact in Ha. rewrite Hrow in Ha. cbn [ok_or] in Ha. rewrite Hs, Hst in Ha. bind_in Ha a' Ha'. simplify_eq.
  destruct (_ || _); cbn [bind run] in *; [done|].
  pose proof (submit_authorized_inv batch a v v' id txid ltac:(congruence) Hrun) as (Hbs & Hb & Hm & Hfinal & -> & ->).
  destruct (stage_broadcasting (w_db v) batch row a Hr Hl Hst Hrow Ha' Hb Hm) as [H3 H4]. rewrite Hfinal.
  split; [exact H3|]. by apply submit_authorized_along.
Qed.

(** The request survives its fence. *)
Lemma authorized_signing_replays db now batch row q : reachable db -> batches (pay db) !! pb_id batch = Some row ->
  snd (authorize_payout_signing db now (pb_id batch)) = Ok q ->
  list_resumable_payout_batches (fst (authorize_payout_signing db now (pb_id batch))) chain 1 = Ok [in_state batch Signing] ->
  snd (signing_payout_request (fst (authorize_payout_signing db now (pb_id batch))) (pb_id batch)) = Ok q.
Proof.
  intros Hr Hrow Hq Hl.
  destruct (authorize_signing_requested _ _ _ (br_chain row) _ Hr ltac:(by exists row) Hq) as [(row1 & b1 & _ & _ & _ & Hload & Hreq) Hid].
  rewrite Hid in *. pose proof (oldest_is _ _ _ Hl) as (_ & _ & _ & Hload' & _). cbn [pb_id in_state] in Hload'.
  rewrite Hload in Hload'. simplify_eq. unfold signing_payout_request. destruct (authorized_request _ _ _ _ Hq) as [Hnil _].
  rewrite Hnil, Hload. cbn [pb_state in_state]. rewrite bool_decide_eq_false_2 by tauto. by rewrite Hreq.
Qed.

(** From a draft: the fence first, and from then on any time will do. *)
Lemma draft_recovers batch v v' id txid : reachable (w_db v) -> list_resumable_payout_batches (w_db v) chain 1 = Ok [batch] ->
  pb_state batch = Draft ->
  run (respond su) (resume_draft (orchestrator zec) batch fence) v = (v', Ok (Broadcasted id chain txid)) ->
  (forall n, settles (w_db v') id txid (w_db (crash (respond su) (S n) (resume_draft (orchestrator zec) batch fence) v))) /\
  forall su' u, same_wallets su' -> su_now su' = su_now su -> w_db u = w_db v ->
    exists u' o, run (respond su') resume u = (u', Ok o) /\ w_db u' = w_db v' /\
      (o = Broadcasted id chain txid \/ o = AwaitingConfirmation id chain txid).
Proof.
  intros Hr Hl Hst Hrun. pose proof (oldest_is _ _ _ Hl) as (row & _ & _ & Hload & Hrow & Hs & Hc & Hch & _).
  unfold resume_draft in *. cbn [so_store orchestrator authorize_signing postgres_settlement_store bind_ok bind call_err run respond commit crash] in *.
  destruct (snd (authorize_payout_signing (w_db v) (su_now su) (pb_id batch))) as [q|] eqn:Hq; cbn [map_err bind] in *; [|done].
  set (db1 := fst (authorize_payout_signing (w_db v) (su_now su) (pb_id batch))) in *.
  assert (grows (w_db v) db1) as Hg by (by apply (grows_op (w_db v) (OpAuthorizeSigning (su_now su) (pb_id batch)))).
  assert (list_resumable_payout_batches db1 chain 1 = Ok [in_state batch Signing]) as Hl1.
  { unfold db1 in *. rewrite (authorize_signing_put _ _ _ _ Hq batch row) in * by (done || congruence). by apply (oldest_put (w_db v) chain batch row). }
  assert (snd (signing_payout_request db1 (pb_id batch)) = Ok q) as Hq1 by (by eapply authorized_signing_replays).
  assert (reachable db1) as Hr1 by (by eapply grows_reachable).
  pose proof (fun r l s => stage_signing (in_state batch Signing) q _ v' id txid r l eq_refl s Hrun) as Hstage.
  destruct Hstage as [H1 Halong]; [done|exact Hl1|exact Hq1|]. split.
  - intros n. by apply crash_along.
  - intros su' u Hsu Hnow Hu. rewrite (resume_branch su' u batch) by (rewrite ?Hu; (done || congruence)). unfold branch. rewrite Hst.
    unfold resume_draft. cbn [so_store orchestrator authorize_signing postgres_settlement_store bind_ok bind call_err run respond commit].
    rewrite Hnow, Hu, Hq. fold db1. cbn [map_err bind]. set (u1 := mkWorld db1 _ _).
    destruct (H1 su' u1 Hsu eq_refl) as (u' & o & Hrun1 & Hrest).
    rewrite (resume_branch su' u1 (in_state batch Signing)) in Hrun1 by (done || cbn; congruence). unfold branch in Hrun1. cbn [pb_state in_state] in Hrun1.
    unfold resume_signing in Hrun1. cbn [so_store orchestrator signing_request postgres_settlement_store bind_ok bind call_err run respond commit u1 w_db pb_id in_state w_progress w_log] in Hrun1.
    rewrite Hq1, signing_payout_request_db, !app_nil_r in Hrun1. cbn [map_err bind] in Hrun1. unfold u1. rewrite app_nil_r.
    by exists u', o.
Qed.

(** The first call reads the queue. *)
Lemma crash_resume n v batch : list_resumable_payout_batches (w_db v) chain 1 = Ok [batch] -> pb_chain batch = chain ->
  crash (respond su) (S n) resume v = crash (respond su) n (branch batch) v.
Proof.
  intros Hl Hc. unfold resume, resume_next. cbn [so_store orchestrator oldest_resumable postgres_settlement_store].
  cbn [bind_ok bind call_err crash respond]. rewrite Hl. cbn [map_err bind last]. rewrite bool_decide_eq_false_2 by tauto.
  rewrite enabled. cbn [bind_ok bind]. unfold branch. destruct (pb_state batch); reflexivity.
Qed.

Lemma branch_inv batch v v' id txid :
  run (respond su) (branch batch) v = (v', Ok (Broadcasted id chain txid)) ->
  pb_state batch = Draft \/ pb_state batch = Signing \/ pb_state batch = Signed \/ pb_state batch = Broadcasting.
Proof.
  unfold branch. destruct (pb_state batch); try tauto; try done; unfold bind_ok at 1; rewrite run_bind.
  - destruct (run _ _ v) as [u [a|]]; [|done]. unfold rebroadcast_committed. case_bool_decide; [done|]. cbn.
    by destruct (su_broadcast _ _ _) as [[]|].
  - by destruct (run _ _ v) as [u [a|]].
Qed.

Lemma signing_along batch v v' id txid : reachable (w_db v) -> list_resumable_payout_batches (w_db v) chain 1 = Ok [batch] ->
  pb_state batch = Signing ->
  run (respond su) (resume_signing (orchestrator zec) batch fence) v = (v', Ok (Broadcasted id chain txid)) ->
  all_along (settles (w_db v') id txid) (resume_signing (orchestrator zec) batch fence) v.
Proof.
  intros Hr Hl Hst Hrun. unfold resume_signing in *.
  cbn [so_store orchestrator signing_request postgres_settlement_store bind_ok bind call_err run respond commit all_along] in *.
  rewrite signing_payout_request_db, app_nil_r in *.
  destruct (snd (signing_payout_request (w_db v) (pb_id batch))) as [q|] eqn:Hq; cbn [map_err bind] in *; [|done].
  replace (mkWorld (w_db v) (w_progress v) (w_log v)) with v in * by (by destruct v).
  destruct (stage_signing batch q v v' id txid Hr Hl Hst Hq Hrun) as [H1 Halong]. by split.
Qed.

(** Past its draft a batch is recovered from every crash point. *)
Lemma branch_along batch v v' id txid : reachable (w_db v) -> list_resumable_payout_batches (w_db v) chain 1 = Ok [batch] ->
  run (respond su) (branch batch) v = (v', Ok (Broadcasted id chain txid)) -> pb_state batch <> Draft ->
  all_along (settles (w_db v') id txid) (branch batch) v.
Proof.
  intros Hr Hl Hrun Hnd. pose proof (branch_inv _ _ _ _ _ Hrun) as Hst. unfold branch in *.
  destruct Hst as [Hst|[Hst|[Hst|Hst]]]; rewrite Hst in *; [done|by apply signing_along| |by apply broadcasting_along].
  by apply stage_signed.
Qed.
End Crash.

(** C6. A crash in a settlement that would have broadcast is recovered.  Take a pass over a chain's
    oldest batch that, left alone, ends with the batch broadcast.  Stop it after any number of its
    calls and start a new pass: the new pass ends with the store exactly as the uninterrupted pass
    leaves it, and with the same batch and transaction broadcast.  Assumed: the new pass finds the
    wallets answering as before, each signing request with the same answer and each broadcast by its
    bytes alone; the clock may have moved on once two calls were made, which is when the signing fence
    is committed, and reads the same if the stop was earlier; and nothing else writes to the store
    between the two passes or during them. *)
Theorem crash_recovery `{env : StoreEnv} zec chain su su' w w' id txid n :
  reachable (w_db w) -> surroundings_typed su ->
  (forall a b, ar_batch_id a = ar_batch_id b -> ar_chain a = ar_chain b -> ar_facts a = ar_facts b ->
     su_broadcast su chain a = su_broadcast su chain b) ->
  same_wallets chain su su' -> (su_now su' = su_now su \/ (2 <= n)%nat) ->
  run (respond su) (resume_next (orchestrator zec) chain) w = (w', Ok (Broadcasted id chain txid)) ->
  exists w2 o, run (respond su') (resume_next (orchestrator zec) chain)
                 (crash (respond su) n (resume_next (orchestrator zec) chain) w) = (w2, Ok o) /\
    w_db w2 = w_db w' /\ (o = Broadcasted id chain txid \/ o = AwaitingConfirmation id chain txid).
Proof.
  intros Hr Ht Hbytes Hsu Hn Hrun.
  assert (exists batch, list_resumable_payout_batches (w_db w) chain 1 = Ok [batch] /\ pb_chain batch = chain /\
    boundary (orchestrator zec) chain = Ok (chain_boundary chain)) as (batch & Hl & Hc & Hb).
  { unfold resume_next in Hrun. cbn [so_store orchestrator oldest_resumable postgres_settlement_store bind_ok bind call_err run respond] in Hrun.
    destruct (list_resumable_payout_batches (w_db w) chain 1) as [found|] eqn:Hf; cbn [map_err bind] in Hrun; [|done].
    destruct (last found) as [batch|] eqn:Hlast; [|done]. case_bool_decide as Hch; [done|]. exists batch.
    rewrite <- Hf, (oldest_found _ _ _ _ Hf Hlast). split_and!; [done|by destruct (decide (pb_chain batch = chain))|].
    destruct (boundary (orchestrator zec) chain) as [b|] eqn:Hb; [|done]. by rewrite (boundary_chain _ _ _ Hb). }
  rewrite (resume_branch zec chain Hb su w batch Hl Hc) in Hrun.
  destruct (decide (pb_state batch = Draft)) as [Hd|Hd].
  - unfold branch in Hrun. rewrite Hd in Hrun.
    destruct (draft_recovers zec chain su Hbytes Hb Ht batch w w' id txid Hr Hl Hd Hrun) as [Hlate Hearly].
    destruct n as [|[|n]].
    + destruct Hn as [Hn|]; [|lia]. by apply Hearly.
    + destruct Hn as [Hn|]; [|lia]. apply Hearly; [done..|]. rewrite (crash_resume zec chain su Hb 0 w batch Hl Hc). by destruct (branch _ _ _).
    + rewrite (crash_resume zec chain su Hb (S n) w batch Hl Hc). unfold branch. rewrite Hd. by apply (Hlate n su').
  - pose proof (branch_along zec chain su Hbytes Hb Ht batch w w' id txid Hr Hl Hrun Hd) as Halong.
    destruct n as [|n]; [cbn; by apply (all_along_now _ _ _ _ Halong su')|].
    rewrite (crash_resume zec chain su Hb n w batch Hl Hc). by apply (crash_along _ _ _ n _ Halong su').
Qed.

Definition demo_later : Surroundings :=
  mkSurroundings 3770 91 (su_fresh demo_surroundings) None (su_prepare demo_surroundings) (su_recover demo_surroundings)
    (su_broadcast demo_surroundings) (su_wallet demo_surroundings) (su_validator demo_surroundings)
    (su_inspect demo_surroundings) (su_expiry demo_surroundings) false.

(** The worker crashes right after the transaction was handed out, and restarts an hour later. *)
Lemma crash_recovery_witness :
  exists w2 o, run (respond demo_later) (resume_next (orchestrator true) Wcash)
                 (crash (respond demo_surroundings) 6 (resume_next (orchestrator true) Wcash) (demo_world 6)) = (w2, Ok o) /\
    w_db w2 = w_db (fst (run (respond demo_surroundings) (resume_next (orchestrator true) Wcash) (demo_world 6))) /\
    (o = Broadcasted 71 Wcash (replicate 32 4) \/ o = AwaitingConfirmation 71 Wcash (replicate 32 4)).
Proof.
  refine (crash_recovery true Wcash demo_surroundings demo_later (demo_world 6)
    (fst (run (respond demo_surroundings) (resume_next (orchestrator true) Wcash) (demo_world 6))) 71 (replicate 32 4) 6
    (demo_state_reachable 6) demo_surroundings_typed _ _ _ _).
  - reflexivity.
  - split; reflexivity.
  - right. lia.
  - apply pair_of_snd. vm_compute. reflexivity.
Defined.
