(* ===== verification/WecSignerRuns.v ===== *)
(** The Wcash signer among crashes: its journal directory and its wallet, the histories of
    attempts behind the journal lock, and what every call of the pipeline must respect. *)

From Stdlib Require Import ZArith Lia.
From stdpp Require Import prelude gmap sorting strings.
From S2P Require Import Prelude Wire Backend Hex LargestRemainder Pplns PayoutFees Ledger PayoutRequest StoreDb Proc WecSigner.
Open Scope Z_scope.

(** ** The world *)

(** A call of the wallet and its answer; a signature and a broadcast with the journal directory as it
    was when the wallet was asked. *)
Inductive SignerEffect : Type :=
| DidWalletRecover (c : WalletRecoveryCall) (r : result (option WalletSignedTransaction) NativeWalletError)
| DidWalletSign (journal : gmap Uuid JournalFile) (c : WalletSignCall) (r : result WalletSignedTransaction NativeWalletError)
| DidWalletBroadcast (journal : gmap Uuid JournalFile) (c : WalletBroadcastCall) (r : result BroadcastOutcome BroadcastFailure).

Record SignerWorld : Type := mkSignerWorld {
  sw_dir : gmap Uuid JournalFile;
  sw_log : list SignerEffect
}.

Definition sw_did (w : SignerWorld) (x : SignerEffect) : SignerWorld := mkSignerWorld (sw_dir w) (sw_log w ++ [x]).

(** What was serialised is read back. *)
Class JournalJsonOk `{JournalJson} : Prop :=
  envelope_roundtrip e bytes : envelope_to_vec e = Some bytes -> envelope_from_slice bytes = Some e.

Section Runs.
Context {env : StoreEnv} {json : JournalJson} {json_ok : JournalJsonOk}.

(** The journal's calls may fail at any point; the wallet may answer anything. *)
Definition signer_handles (R : Type) (e : SignerCall R) : SignerWorld -> R -> SignerWorld -> Prop :=
  match e in SignerCall R return SignerWorld -> R -> SignerWorld -> Prop with
  | JournalLoad id => fun w r w' => w' = w /\ exists unreadable, r = journal_load (sw_dir w) unreadable id
  | JournalStore record => fun w r w' => exists fault,
      sw_log w' = sw_log w /\ journal_store (sw_dir w) fault record = (sw_dir w', r)
  | WalletRecover c => fun w r w' => w' = sw_did w (DidWalletRecover c r)
  | WalletSign c => fun w r w' => w' = sw_did w (DidWalletSign (sw_dir w) c r)
  | WalletBroadcast c => fun w r w' => w' = sw_did w (DidWalletBroadcast (sw_dir w) c r)
  | JournalLock | SeedProbe | SeedRead => fun w _ w' => w' = w
  | WalletIdentify _ _ => fun w _ w' => w' = w
  | WalletInspect _ => fun w _ w' => w' = w
  | ShouldInterrupt _ => fun w _ w' => w' = w
  end.

(** ** The journal *)

(** The record in a batch's file. *)
Definition holds (dir : gmap Uuid JournalFile) (id : Uuid) (record : JournalRecord) : Prop :=
  exists file sum, dir !! id = Some file /\
    envelope_from_slice (jf_bytes file) = Some (mkEnvelope SCHEMA_VERSION record sum) /\ jr_batch_id record = id.

Lemma holds_unique dir id r r' : holds dir id r -> holds dir id r' -> r = r'.
Proof. intros (f & s & Hf & He & _) (f' & s' & Hf' & He' & _). congruence. Qed.

Lemma journal_load_holds dir unreadable id record : journal_load dir unreadable id = Ok (Some record) -> holds dir id record.
Proof.
  unfold journal_load. destruct unreadable; [done|]. destruct (dir !! id) as [file|] eqn:Hf; [|done].
  repeat (case_match; [done|]). intros HL. bind_in HL e He. apply ok_or_Ok in He. case_match eqn:Hbad; [done|].
  bind_in HL cs Hsum. case_match eqn:Hbad2; [done|]. bind_in HL u Hu. simplify_eq. boolprop.
  exists file, (en_checksum e). split_and!; [done| |done]. rewrite He. f_equal. destruct e. cbn in *. congruence.
Qed.

Lemma journal_load_None dir unreadable id : journal_load dir unreadable id = Ok None -> dir !! id = None.
Proof.
  unfold journal_load. destruct unreadable; [done|]. destruct (dir !! id) as [file|] eqn:Hf; [|done].
  repeat (case_match; [done|]). intros HL. bind_in HL e He. case_match eqn:Hbad; [done|].
  bind_in HL cs Hsum. case_match eqn:Hbad2; [done|]. by bind_in HL u Hu.
Qed.

(** A write replaces the record or leaves the directory as it was. *)
Lemma journal_store_cases dir fault record dir' r : journal_store dir fault record = (dir', r) ->
  (dir' = dir /\ r <> Ok tt) \/
  (holds dir' (jr_batch_id record) record /\ forall id, id <> jr_batch_id record -> dir' !! id = dir !! id).
Proof.
  unfold journal_store. destruct (StoredStage_validate _) as [u|]; [|intros [= <- <-]; by left].
  destruct (checksum record) as [sum|]; [|intros [= <- <-]; by left].
  destruct (envelope_to_vec _) as [bytes|] eqn:Hb; [|intros [= <- <-]; by left].
  case_match; [intros [= <- <-]; by left|]. apply envelope_roundtrip in Hb.
  destruct fault; intros [= <- <-]; [right|by left|right].
  all: (split; [|intros id Hid; by rewrite lookup_insert_ne]).
  all: eexists _, sum; by rewrite lookup_insert_eq.
Qed.

(** ** Progress of a record *)

Definition same_facts (r r' : JournalRecord) : Prop :=
  jr_batch_id r' = jr_batch_id r /\ jr_pipeline_commitment r' = jr_pipeline_commitment r /\
  jr_portal_commitment r' = jr_portal_commitment r /\ jr_output_total_zat r' = jr_output_total_zat r.

Definition stage_rank (s : StoredStage) : Z :=
  match s with
  | Reserved => 0 | Prepared _ | SignedStage _ => 1 | BroadcastUnresolved _ => 2
  | RejectedStage _ | Completed _ _ => 3
  end.

(** An artifact once recorded stays, and a final stage is final. *)
Definition stage_advances (s s' : StoredStage) : Prop :=
  (forall a, stage_artifact s = Some a -> stage_artifact s' = Some a) /\
  stage_rank s <= stage_rank s' /\ (stage_rank s = 3 -> s' = s).

Definition record_advances (r r' : JournalRecord) : Prop := same_facts r r' /\ stage_advances (jr_stage r) (jr_stage r').

#[global] Instance record_advances_preorder : PreOrder record_advances.
Proof.
  split; [by split; split_and!|]. intros r1 r2 r3 [(A1 & A2 & A3 & A4) (B1 & B2 & B3)] [(C1 & C2 & C3 & C4) (D1 & D2 & D3)].
  split; [split_and!; congruence|]. split_and!; [auto|lia|]. intros H. pose proof (B3 H) as HE. rewrite <- HE. apply D3. by rewrite HE.
Qed.

Definition journal_evolves (dir dir' : gmap Uuid JournalFile) : Prop :=
  forall id r, holds dir id r -> exists r', holds dir' id r' /\ record_advances r r'.

#[global] Instance journal_evolves_preorder : PreOrder journal_evolves.
Proof.
  split; [intros dir id r H; by exists r|]. intros d1 d2 d3 H1 H2 id r Hr.
  destruct (H1 id r Hr) as (r2 & Hr2 & A2). destruct (H2 id r2 Hr2) as (r3 & Hr3 & A3). exists r3. split; [done|by etrans].
Qed.

(** ** Calls *)

(** A write is a new reservation or advances the record it replaces. *)
Definition store_allowed (dir : gmap Uuid JournalFile) (record : JournalRecord) : Prop :=
  (dir !! jr_batch_id record = None /\ jr_stage record = Reserved) \/
  (exists old, holds dir (jr_batch_id record) old /\ record_advances old record).

(** Signing needs a reservation for the request and a wallet that just said it has no transaction
    for it; broadcasting needs the journaled bytes. *)
Definition signer_permitted (R : Type) (e : SignerCall R) (w : SignerWorld) : Prop :=
  match e with
  | JournalStore record => store_allowed (sw_dir w) record
  | WalletSign c =>
      (exists record, holds (sw_dir w) (sgn_batch_id c) record /\ jr_stage record = Reserved /\
         jr_pipeline_commitment record = sgn_request_commitment c) /\
      exists r, last (sw_log w) = Some (DidWalletRecover r (Ok None)) /\ rcv_batch_id r = sgn_batch_id c /\
        rcv_request_commitment r = sgn_request_commitment c
  | WalletBroadcast c =>
      exists record artifact, holds (sw_dir w) (bct_batch_id c) record /\
        (jr_stage record = SignedStage artifact \/ jr_stage record = BroadcastUnresolved artifact) /\
        jr_pipeline_commitment record = bct_request_commitment c /\
        sa_transaction_id artifact = bct_transaction_id c /\ sa_raw_transaction_hex artifact = bct_raw_transaction_hex c
  | _ => True
  end.

(** The effects of a history: broadcasts carry the journaled bytes of their batch, and a
    signature follows the wallet's answer that it has none. *)
Definition broadcast_journaled (dir : gmap Uuid JournalFile) (x : SignerEffect) : Prop :=
  match x with
  | DidWalletBroadcast _ c _ =>
      exists record artifact, holds dir (bct_batch_id c) record /\ stage_artifact (jr_stage record) = Some artifact /\
        jr_pipeline_commitment record = bct_request_commitment c /\
        sa_transaction_id artifact = bct_transaction_id c /\ sa_raw_transaction_hex artifact = bct_raw_transaction_hex c
  | _ => True
  end.

Definition signature_after_recovery (log : list SignerEffect) : Prop :=
  forall i d c r, log !! i = Some (DidWalletSign d c r) ->
    exists j q, i = S j /\ log !! j = Some (DidWalletRecover q (Ok None)) /\ rcv_batch_id q = sgn_batch_id c /\
      rcv_request_commitment q = sgn_request_commitment c.

(** What the journal held when the wallet was asked: a reservation for the request to sign it, and to
    broadcast it, its exact bytes at the signed or the unresolved stage. *)
Definition journaled_first (x : SignerEffect) : Prop :=
  match x with
  | DidWalletSign dir c _ =>
      exists record, holds dir (sgn_batch_id c) record /\ jr_stage record = Reserved /\
        jr_pipeline_commitment record = sgn_request_commitment c
  | DidWalletBroadcast dir c _ =>
      exists record artifact, holds dir (bct_batch_id c) record /\
        (jr_stage record = SignedStage artifact \/ jr_stage record = BroadcastUnresolved artifact) /\
        jr_pipeline_commitment record = bct_request_commitment c /\
        sa_transaction_id artifact = bct_transaction_id c /\ sa_raw_transaction_hex artifact = bct_raw_transaction_hex c
  | _ => True
  end.

(** From one state of a history to a later one. *)
Record signer_extends (w w' : SignerWorld) : Prop := {
  se_journal : journal_evolves (sw_dir w) (sw_dir w');
  se_log : sw_log w `prefix_of` sw_log w';
  se_broadcasts : Forall (broadcast_journaled (sw_dir w)) (sw_log w) -> Forall (broadcast_journaled (sw_dir w')) (sw_log w');
  se_stages : Forall journaled_first (sw_log w) -> Forall journaled_first (sw_log w');
  se_signatures : signature_after_recovery (sw_log w) -> signature_after_recovery (sw_log w')
}.

#[global] Instance signer_extends_preorder : PreOrder signer_extends.
Proof.
  split; [by split|]. intros w1 w2 w3 [A1 A2 A3 A4 A5] [B1 B2 B3 B4 B5]. split; [by etrans|by etrans|auto|auto|auto].
Qed.

Lemma broadcast_journaled_evolves dir dir' x : journal_evolves dir dir' ->
  broadcast_journaled dir x -> broadcast_journaled dir' x.
Proof.
  intros Hev. destruct x as [| |d c r]; try done. intros (rec & a & Hh & Ha & Hc & Ht & Hx).
  destruct (Hev _ _ Hh) as (rec' & Hh' & ((_ & Hp & _) & (Hart & _))). exists rec', a. split_and!; [done|auto|congruence|done|done].
Qed.

Lemma signature_after_recovery_app log x : signature_after_recovery log ->
  (forall d c r, x = DidWalletSign d c r -> exists q, last log = Some (DidWalletRecover q (Ok None)) /\
     rcv_batch_id q = sgn_batch_id c /\ rcv_request_commitment q = sgn_request_commitment c) ->
  signature_after_recovery (log ++ [x]).
Proof.
  intros Hlog Hx i d c r [Hi|[Hlen Hi]]%lookup_app_Some.
  - destruct (Hlog i d c r Hi) as (j & q & -> & Hj & Hq). exists j, q. split; [done|]. split; [|done]. by apply lookup_app_l_Some.
  - apply list_lookup_singleton_Some in Hi as [Hn ->]. destruct (Hx d c r eq_refl) as (q & Hq & Hrest).
    apply last_Some in Hq as [l ->]. rewrite length_app in *. cbn in *. exists (length l), q. split; [lia|]. split; [|done].
    rewrite <- app_assoc. by apply list_lookup_middle.
Qed.

(** An effect that leaves the journal alone. *)
Lemma did_extends w x : broadcast_journaled (sw_dir w) x -> journaled_first x ->
  (forall d c r, x = DidWalletSign d c r -> exists q, last (sw_log w) = Some (DidWalletRecover q (Ok None)) /\
     rcv_batch_id q = sgn_batch_id c /\ rcv_request_commitment q = sgn_request_commitment c) ->
  signer_extends w (sw_did w x).
Proof.
  intros Hb Hj Hs. split; cbn; [done|by apply prefix_app_r| | |].
  - intros Hall. apply Forall_app. by split; [|constructor].
  - intros Hall. apply Forall_app. by split; [|constructor].
  - intros Hlog. by apply signature_after_recovery_app.
Qed.

Lemma store_extends w w' fault record r : store_allowed (sw_dir w) record -> sw_log w' = sw_log w ->
  journal_store (sw_dir w) fault record = (sw_dir w', r) -> signer_extends w w'.
Proof.
  intros Hal Hl Hst. assert (journal_evolves (sw_dir w) (sw_dir w')) as Hev.
  { apply journal_store_cases in Hst as [[-> _]|[Hh Hother]]; [done|]. intros id rec Hrec.
    destruct (decide (id = jr_batch_id record)) as [->|Hne].
    - exists record. split; [done|]. destruct Hal as [[Hnone _]|(old & Hold & Hadv)].
      + destruct Hrec as (f & s & Hf & _). congruence.
      + by rewrite (holds_unique _ _ _ _ Hrec Hold).
    - exists rec. split; [|done]. destruct Hrec as (f & s & Hf & Hrest). exists f, s. by rewrite Hother. }
  split; rewrite ?Hl; [done|done| |done|done]. intros Hall. eapply Forall_impl; [exact Hall|].
  intros x. by apply broadcast_journaled_evolves.
Qed.

Lemma signer_call_extends R (e : SignerCall R) w r w' : signer_permitted R e w -> signer_handles R e w r w' -> signer_extends w w'.
Proof.
  destruct e; cbn; try (by intros _ ->); try (by intros _ [-> _]).
  - intros Hal (fault & Hl & Hst). by eapply store_extends.
  - intros _ ->. by apply did_extends.
  - intros (Hr & q & Hq) ->. apply did_extends; [done|exact Hr|]. intros d' c' r' [= <- <- <-]. by exists q.
  - intros (rec & a & Hh & Hst & Hrest) ->. apply did_extends; [| |done]; exists rec, a.
    + split_and!; [done| |apply Hrest..]. by destruct Hst as [-> | ->].
    + by split_and!; [| |apply Hrest..].
Qed.
End Runs.
