(* ===== verification/WecSignerProps.v ===== *)
(** The Wcash signer is idempotent: over any history of attempts and crashes behind the journal
    lock, a batch is bound to one request and one transaction (crates/wcash-wec-payout-signer). *)

From Stdlib Require Import ZArith Lia.
From stdpp Require Import prelude gmap sorting strings.
From S2P Require Import Prelude Wire Backend Hex LargestRemainder Pplns PayoutFees Ledger PayoutRequest StoreDb PayoutStore Configuration PayoutWatch SigningFence Proc WecSigner Settlement WecSignerRuns.
Open Scope Z_scope.

Section Sound.
Context {env : StoreEnv} {json : JournalJson} {json_ok : JournalJsonOk}.
Variable config : WecSignerConfig.

(** ** The pipeline, call by call *)

Definition sound {A} (p : proc SignerCall A) (Q : A -> SignerWorld -> Prop) (w : SignerWorld) : Prop :=
  wp signer_handles signer_permitted eq p Q w.

Lemma sound_ret {A} (a : A) (Q : A -> SignerWorld -> Prop) w : Q a w -> sound (Ret a) Q w.
Proof. intros H. apply wp_ret. by intros w0 <-. Qed.

Lemma sound_call {A R} (e : SignerCall R) (k : R -> proc SignerCall A) Q w : signer_permitted R e w ->
  (forall r w', signer_handles R e w r w' -> sound (k r) Q w') -> sound (Vis e k) Q w.
Proof. intros Hp Hk. apply wp_vis. by intros w0 <-. Qed.

Lemma sound_bind {A B} (p : proc SignerCall A) (f : A -> proc SignerCall B) P Q w :
  sound p P w -> (forall a w', P a w' -> sound (f a) Q w') -> sound (bind p f) Q w.
Proof. intros Hp Hf. apply wp_bind; [apply _|]. eapply wp_mono; [|exact Hp]. done. Qed.

Lemma sound_bind_ok {A B X} (p : proc SignerCall (result A X)) (f : A -> proc SignerCall (result B X)) P
    (Q : result B X -> SignerWorld -> Prop) w :
  sound p P w -> (forall a w', P (Ok a) w' -> sound (f a) Q w') ->
  (forall x w', P (Err x) w' -> Q (Err x) w') -> sound (bind_ok p f) Q w.
Proof. intros Hp Hf Hx. eapply sound_bind; [exact Hp|]. intros [a|x] w' HP; [by apply Hf|apply sound_ret; by apply Hx]. Qed.

Lemma sound_mono {A} (p : proc SignerCall A) (P Q : A -> SignerWorld -> Prop) w :
  (forall a w', P a w' -> Q a w') -> sound p P w -> sound p Q w.
Proof. by apply wp_mono. Qed.

(** A step that leaves the world, or only the journal, as it was. *)
Definition unchanged {A} (w : SignerWorld) (_ : A) (w' : SignerWorld) : Prop := w' = w.
Definition journal_kept {A} (w : SignerWorld) (_ : A) (w' : SignerWorld) : Prop := sw_dir w' = sw_dir w.

Lemma checkpoint_sound c w : sound (checkpoint c) (unchanged w) w.
Proof. apply sound_call; [done|]. intros r w' ->. by apply sound_ret. Qed.

(** What a write establishes when it reports success. *)
Definition written (record : JournalRecord) (r : result unit WecPayoutError) (w : SignerWorld) : Prop :=
  r = Ok tt -> holds (sw_dir w) (jr_batch_id record) record.

Lemma persist_sound record w : store_allowed (sw_dir w) record -> sound (persist record) (written record) w.
Proof.
  intros Hal. apply sound_call; [done|]. intros [[]|x] w' (fault & _ & Hst); cbn [bind]; [|by apply sound_ret].
  eapply sound_mono; [|apply checkpoint_sound]. intros r w2 -> _.
  apply journal_store_cases in Hst as [[_ ?]|[Hh _]]; done.
Qed.

Lemma attested_identity_sound w : sound (attested_identity config) (unchanged w) w.
Proof.
  unfold attested_identity. cbn [bind_ok bind call_err]. apply sound_call; [done|]. intros [i|x] w' ->; cbn [map_err bind]; [|by apply sound_ret].
  destruct (verify_identity config i) as [[]|]; cbn [bind_ok bind]; [|by apply sound_ret].
  eapply sound_bind_ok; [apply checkpoint_sound| |done]. intros u w2 ->. by apply sound_ret.
Qed.

Section Request.
Variable request : WecPayoutRequest.
Variable validated : ValidatedRequest.
Let id := rq_batch_id (wr_batch request).

(** The record of the batch, bound to this request. *)
Definition reserved_for (record : JournalRecord) (w : SignerWorld) : Prop :=
  holds (sw_dir w) id record /\ bound_otherwise record validated = false.

Lemma reserved_for_batch record w : reserved_for record w -> jr_batch_id record = id.
Proof. by intros [(f & s & _ & _ & H) _]. Qed.

Lemma bound_facts record : bound_otherwise record validated = false ->
  jr_pipeline_commitment record = vr_pipeline_commitment validated /\
  jr_portal_commitment record = vr_portal_commitment validated /\
  jr_output_total_zat record = vr_output_total_zat validated.
Proof. unfold bound_otherwise. intros H. boolprop. split_and!; [apply dec_stable; tauto..|done]. Qed.

Lemma reserved_for_kept record w w' : sw_dir w' = sw_dir w -> reserved_for record w -> reserved_for record w'.
Proof. unfold reserved_for. by intros ->. Qed.

Definition nothing_recovered (w : SignerWorld) (r : result (option WalletSignedTransaction) WecPayoutError)
    (w' : SignerWorld) : Prop :=
  sw_dir w' = sw_dir w /\
  (r = Ok None -> exists q, last (sw_log w') = Some (DidWalletRecover q (Ok None)) /\ rcv_batch_id q = id /\
     rcv_request_commitment q = vr_pipeline_commitment validated).

Lemma recovered_transaction_sound w :
  sound (recovered_transaction config request validated) (nothing_recovered w) w.
Proof.
  unfold recovered_transaction. cbn [bind_ok bind call_err]. apply sound_call; [done|].
  intros [t|x] w' ->; cbn [map_err bind]; [|by apply sound_ret].
  eapply sound_bind_ok; [apply checkpoint_sound| |by intros x w2 ->]. intros u w2 ->. apply sound_ret.
  split; [done|]. intros [= ->]. eexists. cbn. rewrite last_snoc. by split.
Qed.

Lemma inspected_artifact_sound signed w :
  sound (inspected_artifact config request validated signed) (unchanged w) w.
Proof.
  unfold inspected_artifact. destruct (verify_signed _ _ _) as [[]|]; cbn [bind_ok bind]; [|by apply sound_ret].
  apply sound_call; [done|]. intros [i|x] w' ->; cbn [map_err bind]; [|by apply sound_ret].
  destruct (verify_inspection _ _ _ _ _) as [[]|]; cbn [bind_ok bind]; [|by apply sound_ret].
  eapply sound_bind_ok; [apply checkpoint_sound| |done]. intros u w2 ->. by apply sound_ret.
Qed.

Lemma create_or_recover_sound record w : reserved_for record w -> jr_stage record = Reserved ->
  sound (create_or_recover config request validated) (journal_kept w) w.
Proof.
  intros Hres Hst. destruct (bound_facts record (proj2 Hres)) as (Hp & _). unfold create_or_recover.
  eapply sound_bind_ok; [apply attested_identity_sound| |by intros x w1 ->]. intros identity w1 ->.
  eapply sound_bind_ok; [apply recovered_transaction_sound| |by intros x w1 [? _]]. intros recovered w1 [Hd Hnone].
  eapply (sound_bind_ok _ _ (journal_kept w)); [| |done].
  - destruct recovered as [t|]; [by apply sound_ret|]. cbn [bind_ok bind call call_err]. apply sound_call; [done|].
    intros [u|x] w2 ->; cbn [bind]; [|by apply sound_ret]. apply sound_call.
    { split.
      - exists record. rewrite Hd. split_and!; [apply Hres|done|done].
      - destruct (Hnone eq_refl) as (q & Hq & Hrest). by exists q. }
    intros [t|x] w3 ->; cbn [map_err bind]; [|by apply sound_ret].
    eapply sound_bind_ok; [apply checkpoint_sound| |by intros x w4 ->]. intros u2 w4 ->. by apply sound_ret.
  - intros t w2 Hd2. eapply sound_mono; [|apply inspected_artifact_sound]. by intros r w3 ->.
Qed.

Lemma recover_existing_sound w : sound (recover_existing config request validated) (journal_kept w) w.
Proof.
  unfold recover_existing. eapply sound_bind_ok; [apply attested_identity_sound| |by intros x w1 ->]. intros identity w1 ->.
  eapply sound_bind_ok; [apply recovered_transaction_sound| |by intros x w1 [? _]]. intros [t|] w1 [Hd _]; [|by apply sound_ret].
  eapply sound_bind_ok; [apply inspected_artifact_sound| |by intros x w2 ->]. intros a w2 ->. by apply sound_ret.
Qed.

(** ** The journal behind the lock *)

Definition reservation (r : result JournalRecord WecPayoutError) (w : SignerWorld) : Prop :=
  match r with Ok record => reserved_for record w | Err _ => True end.

Lemma load_or_reserve_sound w : sound (load_or_reserve config request validated) reservation w.
Proof.
  unfold load_or_reserve. cbn [bind_ok bind call]. apply sound_call; [done|]. intros r w' [-> (unreadable & ->)].
  destruct (journal_load _ _ _) as [[record|]|x] eqn:Hl; cbn [bind]; [| |by apply sound_ret].
  - apply journal_load_holds in Hl. destruct (bound_otherwise record validated) eqn:Hb; by apply sound_ret.
  - apply journal_load_None in Hl. destruct (_ && _); [by apply sound_ret|].
    eapply sound_bind_ok; [apply persist_sound; by left| |done]. intros [] w2 Hw. apply sound_ret.
    split; [by apply Hw|]. unfold bound_otherwise. cbn. by rewrite !bool_decide_eq_false_2, Z.eqb_refl by tauto.
Qed.

(** The next stage of a record may be written. *)
Lemma with_stage_allowed record stage w : reserved_for record w -> stage_advances (jr_stage record) stage ->
  store_allowed (sw_dir w) (with_stage record stage).
Proof.
  intros Hres Hadv. right. exists record. cbn. rewrite (reserved_for_batch _ _ Hres). split; [apply Hres|]. by split.
Qed.

Lemma with_stage_written record stage w r : reserved_for record w -> bound_otherwise record validated = false ->
  written (with_stage record stage) (Ok tt) r -> reserved_for (with_stage record stage) r.
Proof. intros Hres Hb Hw. specialize (Hw eq_refl). cbn in Hw. rewrite (reserved_for_batch _ _ Hres) in Hw. by split. Qed.

(** Persisting the next stage: the record is then the one held, or the operation ends. *)
Lemma next_stage_sound {A} record stage (f : unit -> proc SignerCall (result A WecPayoutError)) Q w :
  reserved_for record w -> stage_advances (jr_stage record) stage ->
  (forall x w', Q (Err x) w') -> (forall w', reserved_for (with_stage record stage) w' -> sound (f tt) Q w') ->
  sound (bind_ok (persist (with_stage record stage)) f) Q w.
Proof.
  intros Hres Hadv Hx Hf. eapply sound_bind_ok; [by apply persist_sound, with_stage_allowed| |auto].
  intros [] w' Hw. apply Hf. by apply (with_stage_written record stage w); [|apply Hres|].
Qed.

(** The payout a record stands for. *)
Definition journaled {A} (payout : JournalRecord -> A -> Prop) (r : result (option A) WecPayoutError) (w : SignerWorld) : Prop :=
  match r with Ok (Some p) => exists record, reserved_for record w /\ payout record p | _ => True end.

Definition prepared_payout (record : JournalRecord) (p : WecPreparedPayout) : Prop := prepared_from_record record = Ok p.
Definition executed_payout (record : JournalRecord) (x : WecPayoutExecution) : Prop :=
  exists d artifact, execution_from_record record d = Ok x /\ jr_stage record = Completed artifact d.

Lemma prepared_sound record w : reserved_for record w ->
  sound (let! prepared := Ret (prepared_from_record record) in Ret (Ok (Some prepared))) (journaled prepared_payout) w.
Proof. intros Hres. destruct (prepared_from_record record) as [p|] eqn:Hp; apply sound_ret; [by exists record|done]. Qed.

Lemma prepare_loop_sound fuel record w : reserved_for record w ->
  sound (prepare_loop config fuel request validated record) (journaled prepared_payout) w.
Proof.
  revert record w. induction fuel as [|fuel IH]; intros record w Hres; cbn [prepare_loop]; [by apply sound_ret|].
  destruct (jr_stage record) eqn:Hst; try (by apply prepared_sound); [|by apply sound_ret].
  eapply sound_bind_ok; [by eapply create_or_recover_sound| |done]. intros artifact w1 Hd.
  pose proof (reserved_for_kept record w w1 Hd Hres) as Hres1. apply next_stage_sound; [done| |done|auto].
  rewrite Hst. split_and!; done.
Qed.

(** The broadcast of a journaled artifact and the record of its outcome. *)
Lemma broadcast_artifact_sound record artifact w : reserved_for record w ->
  jr_stage record = SignedStage artifact \/ jr_stage record = BroadcastUnresolved artifact ->
  sound (broadcast_artifact config record artifact)
    (fun r w' => match r with Ok x => exists record', reserved_for record' w' /\ executed_payout record' x | Err _ => True end) w.
Proof.
  intros Hres Hst. assert (forall s, stage_artifact s = Some artifact -> 2 <= stage_rank s -> stage_advances (jr_stage record) s) as Hadv.
  { intros s Hs Hr. destruct Hst as [-> | ->]; split_and!; cbn; (done || lia || congruence). }
  apply sound_call.
  { exists record, artifact. cbn. rewrite (reserved_for_batch _ _ Hres). split_and!; [apply Hres|done|done|done|done]. }
  intros answer w' ->. set (w1 := sw_did w _). assert (reserved_for record w1) as Hres1 by exact Hres.
  destruct answer as [outcome|failure]; cbn [bind].
  - destruct (negb _).
    + unfold persist_broadcast_result. eapply (sound_bind_ok _ _ (fun _ _ => True)); [|intros; by apply sound_ret|done].
      eapply sound_bind_ok; [apply checkpoint_sound| |done]. intros u w2 ->.
      eapply sound_mono; [|apply persist_sound, with_stage_allowed; [done|apply Hadv; done]]. done.
    + eapply sound_bind_ok; [apply checkpoint_sound| |done]. intros u w2 ->.
      apply next_stage_sound; [done|apply Hadv; done|done|]. intros w3 Hres3.
      destruct (execution_from_record _ _) as [x|] eqn:Hx; apply sound_ret; [|done].
      eexists. split; [exact Hres3|]. by eexists _, _.
  - destruct failure; (eapply sound_bind_ok; [apply checkpoint_sound| |done]); intros u w2 ->;
      (apply next_stage_sound; [done|apply Hadv; done|done|]); intros; by apply sound_ret.
Qed.

Lemma execute_loop_sound fuel record w : reserved_for record w ->
  sound (execute_loop config fuel request validated record) (journaled executed_payout) w.
Proof.
  revert record w. induction fuel as [|fuel IH]; intros record w Hres; cbn [execute_loop]; [by apply sound_ret|].
  destruct (jr_stage record) as [|artifact|artifact|artifact|artifact|artifact d] eqn:Hst.
  - eapply sound_bind_ok; [by eapply create_or_recover_sound| |done]. intros artifact w1 Hd.
    pose proof (reserved_for_kept record w w1 Hd Hres) as Hres1. apply next_stage_sound; [done| |done|auto].
    rewrite Hst. split_and!; done.
  - apply next_stage_sound; [done| |done|auto]. rewrite Hst. split_and!; done.
  - eapply sound_bind_ok; [apply broadcast_artifact_sound; auto| |done]. intros x w' Hx. by apply sound_ret.
  - eapply sound_bind_ok; [apply broadcast_artifact_sound; auto| |done]. intros x w' Hx. by apply sound_ret.
  - by apply sound_ret.
  - destruct (execution_from_record record d) as [x|] eqn:Hx; apply sound_ret; [|done]. exists record. split; [done|]. by exists d, artifact.
Qed.
End Request.

(** ** The operations *)

Lemma locked_sound {A} request (operation : ValidatedRequest -> proc SignerCall (result A WecPayoutError)) Q w :
  (forall x w', Q (Err x) w') ->
  (forall validated, validate_request config request = Ok validated -> sound (operation validated) Q w) ->
  sound (locked config request operation) Q w.
Proof.
  intros Hx Hop. unfold locked. destruct (WecSignerConfig_validate config) as [[]|]; cbn [bind_ok bind]; [|by apply sound_ret].
  destruct (validate_request config request) as [validated|] eqn:Hv; cbn [bind_ok bind]; [|by apply sound_ret].
  apply sound_call; [done|]. intros [[]|x] w' ->; cbn [bind]; [by apply Hop|by apply sound_ret].
Qed.

(** The record behind an answer. *)
Definition answered {A} (request : WecPayoutRequest) (payout : JournalRecord -> A -> Prop) (a : A) (w : SignerWorld) : Prop :=
  exists validated record, validate_request config request = Ok validated /\
    reserved_for request validated record w /\ payout record a.

Lemma journaled_answered {A} request validated (payout : JournalRecord -> A -> Prop) r w :
  validate_request config request = Ok validated -> journaled request validated payout r w ->
  match r with Ok (Some a) => answered request payout a w | _ => True end.
Proof. intros Hv. destruct r as [[a|]|]; [|done..]. intros (record & Hres & Hp). by exists validated, record. Qed.

Lemma prepare_sound fuel request w : sound (prepare config fuel request)
  (fun r w' => match r with Ok (Some p) => answered request prepared_payout p w' | _ => True end) w.
Proof.
  apply locked_sound; [done|]. intros validated Hv. unfold prepare_locked.
  eapply sound_bind_ok; [apply load_or_reserve_sound| |done]. intros record w1 Hres.
  eapply sound_mono; [|by apply prepare_loop_sound]. intros r w'. by apply journaled_answered.
Qed.

Lemma execute_sound fuel request w : sound (execute config fuel request)
  (fun r w' => match r with Ok (Some x) => answered request executed_payout x w' | _ => True end) w.
Proof.
  apply locked_sound; [done|]. intros validated Hv. unfold execute_locked.
  eapply sound_bind_ok; [apply load_or_reserve_sound| |done]. intros record w1 Hres.
  eapply sound_mono; [|by apply execute_loop_sound]. intros r w'. by apply journaled_answered.
Qed.

Lemma recovery_from_record_sound request validated record w : reserved_for request validated record w ->
  sound (recovery_from_record record) (journaled request validated prepared_payout) w.
Proof. intros Hres. unfold recovery_from_record. destruct (jr_stage record); try (by apply sound_ret); by apply prepared_sound. Qed.

Lemma recover_prepared_sound request w : sound (recover_prepared config request)
  (fun r w' => match r with Ok (Some p) => answered request prepared_payout p w' | _ => True end) w.
Proof.
  apply locked_sound; [done|]. intros validated Hv.
  eapply (sound_mono _ (journaled request validated prepared_payout)); [intros r w'; by apply journaled_answered|].
  cbn [bind_ok bind call]. apply sound_call; [done|]. intros r w' [-> (unreadable & ->)].
  destruct (journal_load _ _ _) as [[record|]|x] eqn:Hl; cbn [bind]; [|by apply sound_ret..]. apply journal_load_holds in Hl.
  destruct (bound_otherwise record validated) eqn:Hb; [by apply sound_ret|].
  assert (reserved_for request validated record w) as Hres by (by split).
  destruct (jr_stage record) eqn:Hst; try (by apply recovery_from_record_sound).
  eapply sound_bind_ok; [apply recover_existing_sound| |done]. intros [artifact|] w1 Hd; [|by apply sound_ret].
  eapply next_stage_sound; [by eapply reserved_for_kept| |done|]; [rewrite Hst; split_and!; done|].
  intros w2 Hres2. by apply recovery_from_record_sound.
Qed.

Lemma inspect_prepared_sound request w : sound (inspect_prepared config request)
  (fun r w' => match r with Ok p => answered request prepared_payout p w' | _ => True end) w.
Proof.
  apply locked_sound; [done|]. intros validated Hv. cbn [bind_ok bind call]. apply sound_call; [done|]. intros r w' [-> (unreadable & ->)].
  destruct (journal_load _ _ _) as [[record|]|x] eqn:Hl; cbn [bind ok_or]; [|by apply sound_ret..]. apply journal_load_holds in Hl.
  destruct (bound_otherwise record validated || _) eqn:Hb; [by apply sound_ret|]. apply orb_false_iff in Hb as [Hb _].
  destruct (stage_artifact _) as [a|]; cbn [ok_or bind]; [|by apply sound_ret].
  eapply sound_bind_ok; [apply recover_existing_sound| |done]. intros found w1 Hd.
  destruct found as [i|]; cbn [ok_or bind_ok bind]; [|by apply sound_ret]. case_bool_decide; [by apply sound_ret|]. apply sound_ret.
  destruct (prepared_from_record record) as [p|] eqn:Hp; [|done]. exists validated, record. split_and!; [done| |done].
  by eapply reserved_for_kept; [exact Hd|].
Qed.

Lemma readiness_sound w : sound (readiness config) (fun _ _ => True) w.
Proof.
  unfold readiness. destruct (WecSignerConfig_validate config) as [[]|]; cbn [bind_ok bind call]; [|by apply sound_ret].
  apply sound_call; [done|]. intros [[]|x] w1 ->; cbn [bind]; [|by apply sound_ret].
  apply sound_call; [done|]. intros [i|x] w2 ->; by apply sound_ret.
Qed.
End Sound.
