(* ===== verification/WecSignerDemo.v ===== *)
(** A concrete Wcash signer to run: a journal codec, a configuration, and a wallet that keeps what
    it signed. *)

From Stdlib Require Import ZArith Lia.
From stdpp Require Import prelude gmap sorting strings countable.
From S2P Require Import Prelude Wire Backend Hex LargestRemainder Pplns PayoutFees Ledger PayoutRequest StoreDb PayoutStore Configuration PayoutWatch WinnerStore Books BatchPlan StoreInv WinnerInv StoreOps StoreDemo Proc WecSigner WecSignerRuns.
Open Scope Z_scope.

(** ** A codec in the place of JSON *)

#[global] Instance BroadcastDisposition_eq_dec : EqDecision BroadcastDisposition.
Proof. solve_decision. Defined.
#[global] Instance StoredStage_eq_dec : EqDecision StoredStage.
Proof. solve_decision. Defined.
#[global] Instance JournalRecord_eq_dec : EqDecision JournalRecord.
Proof. solve_decision. Defined.
#[global] Instance Envelope_eq_dec : EqDecision Envelope.
Proof. solve_decision. Defined.

#[global] Instance StoredArtifact_countable : Countable StoredArtifact.
Proof.
  refine (inj_countable'
    (fun a => (sa_raw_transaction_hex a, sa_transaction_id a, sa_unsigned_digest a, sa_fee_zat a, sa_target_height a, sa_expiry_height a))
    (fun '(a, b, c, d, e, f) => mkStoredArtifact a b c d e f) _). by intros [].
Defined.

Definition stage_code (s : StoredStage) : Z * option StoredArtifact :=
  (match s with
   | Reserved => 0 | Prepared _ => 1 | SignedStage _ => 2 | BroadcastUnresolved _ => 3 | RejectedStage _ => 4
   | Completed _ DispositionAccepted => 5 | Completed _ DispositionAlreadyKnown => 6
   end, stage_artifact s).

Definition stage_decode (c : Z * option StoredArtifact) : option StoredStage :=
  match c with
  | (0, None) => Some Reserved
  | (1, Some a) => Some (Prepared a)
  | (2, Some a) => Some (SignedStage a)
  | (3, Some a) => Some (BroadcastUnresolved a)
  | (4, Some a) => Some (RejectedStage a)
  | (5, Some a) => Some (Completed a DispositionAccepted)
  | (6, Some a) => Some (Completed a DispositionAlreadyKnown)
  | _ => None
  end.

#[global] Instance StoredStage_countable : Countable StoredStage.
Proof. refine (inj_countable stage_code stage_decode _). by intros [| | | | |? []]. Defined.

#[global] Instance JournalRecord_countable : Countable JournalRecord.
Proof.
  refine (inj_countable'
    (fun r => (jr_batch_id r, jr_pipeline_commitment r, jr_portal_commitment r, jr_output_total_zat r, jr_stage r))
    (fun '(a, b, c, d, e) => mkJournalRecord a b c d e) _). by intros [].
Defined.

#[global] Instance Envelope_countable : Countable Envelope.
Proof.
  refine (inj_countable' (fun e => (en_schema_version e, en_record e, en_checksum e))
    (fun '(a, b, c) => mkEnvelope a b c) _). by intros [].
Defined.

#[global] Instance demo_json : JournalJson := {|
  record_to_vec r := Some [Zpos (encode r)];
  envelope_to_vec e := Some [Zpos (encode e)];
  envelope_from_slice l := match l with [Zpos p] => decode p | _ => None end
|}.

#[global] Instance demo_json_ok : JournalJsonOk.
Proof. intros e bytes [= <-]. cbn. by rewrite decode_encode. Qed.

(** ** A deployment *)

Definition demo_signer_config : WecSignerConfig :=
  mkWecSignerConfig Regtest "/var/lib/wec" 500 (replicate 32 7) 100 50 1000 NativeCallLimits_default false.

Definition demo_wec_request (amount : Z) : WecPayoutRequest :=
  mkWecPayoutRequest
    (mkPayoutBatchRequest 71 Wec Regtest (replicate 32 1) 61 10
       [mkPayoutOutput 2000 "wcash-regtest-address" Ironwood amount]) 500 FundIronwood.

Definition demo_identity : WalletIdentity :=
  mkWalletIdentity WalletRegtest WCASH_REGTEST_GENESIS_HASH WCASH_REGTEST_BRANCH_ID 500 (replicate 32 7) FundIronwood true.

Definition demo_txid : string := hex_encode (replicate 32 4).

Definition demo_signed (c : WalletSignCall) : WalletSignedTransaction :=
  mkWalletSignedTransaction (sgn_batch_id c) (sgn_request_commitment c) demo_txid "010203" (replicate 32 3) 8 600 640 true true.

(** The wallet's own record: the last signature it made. *)
Definition demo_kept (w : SignerWorld) : option WalletSignCall :=
  head (omap (fun x => match x with DidWalletSign _ c (Ok _) => Some c | _ => None end) (sw_log w)).

(** The journal and the wallet work; broadcasts are answered with [broadcast]. *)
Definition demo_respond (broadcast : result BroadcastOutcome BroadcastFailure) (R : Type) (e : SignerCall R)
    : SignerWorld -> SignerWorld * R :=
  match e in SignerCall R return SignerWorld -> SignerWorld * R with
  | JournalLock => fun w => (w, Ok tt)
  | JournalLoad id => fun w => (w, journal_load (sw_dir w) false id)
  | JournalStore record => fun w =>
      let '(dir, r) := journal_store (sw_dir w) NoFault record in (mkSignerWorld dir (sw_log w), r)
  | SeedProbe | SeedRead => fun w => (w, Ok tt)
  | WalletIdentify _ _ => fun w => (w, Ok demo_identity)
  | WalletRecover c => fun w =>
      let r := Ok (demo_signed <$> demo_kept w) in (sw_did w (DidWalletRecover c r), r)
  | WalletSign c => fun w => (sw_did w (DidWalletSign (sw_dir w) c (Ok (demo_signed c))), Ok (demo_signed c))
  | WalletInspect c => fun w =>
      (w, Ok (mkPersistedIntent demo_identity (ins_batch_id c) (ins_request_commitment c)
                (default [] (sgn_outputs <$> demo_kept w)) (replicate 32 3) demo_txid (demo_digest [1; 2; 3])
                8 600 640 true true))
  | WalletBroadcast c => fun w => (sw_did w (DidWalletBroadcast (sw_dir w) c broadcast), broadcast)
  | ShouldInterrupt _ => fun w => (w, false)
  end.

Lemma demo_respond_handles broadcast R (e : SignerCall R) w :
  signer_handles R e w (snd (demo_respond broadcast R e w)) (fst (demo_respond broadcast R e w)).
Proof.
  destruct e; cbn; try done.
  - split; [done|]. by exists false.
  - exists NoFault. by destruct (journal_store _ _ _).
Qed.

Definition demo_accepts : result BroadcastOutcome BroadcastFailure := Ok (mkBroadcastOutcome demo_txid DispositionAccepted).

(** The signer crashes between the signature and its journal entry, prepares again, loses the
    answer to a broadcast, and executes again. *)
Definition demo_signer_crashed : SignerWorld :=
  crash (demo_respond demo_accepts) 12 (prepare demo_signer_config 2 (demo_wec_request 990)) (mkSignerWorld ∅ []).
Definition demo_prepare := run (demo_respond demo_accepts) (prepare demo_signer_config 2 (demo_wec_request 990)) demo_signer_crashed.
Definition demo_lost :=
  run (demo_respond (Err BroadcastFailedTimeout)) (execute demo_signer_config 3 (demo_wec_request 990)) (fst demo_prepare).
Definition demo_execute := run (demo_respond demo_accepts) (execute demo_signer_config 3 (demo_wec_request 990)) (fst demo_lost).
