(* ===== verification/WecSignerIdempotent.v ===== *)
(** Histories of the Wcash signer: any number of attempts, each to its end or to a crash, under
    any configuration, on any journal directory, with a wallet that may answer anything. *)

From Stdlib Require Import ZArith Lia.
From stdpp Require Import prelude gmap sorting strings.
From S2P Require Import Prelude Wire Backend Hex LargestRemainder Pplns PayoutFees Ledger PayoutRequest StoreDb PayoutStore Configuration PayoutWatch WinnerStore Books BatchPlan StoreInv WinnerInv StoreOps StoreDemo SigningFence Proc WecSigner Settlement WecSignerRuns WecSignerProps WecSignerDemo.
Open Scope Z_scope.

Section Histories.
Context {env : StoreEnv} {json : JournalJson} {json_ok : JournalJsonOk}.

Inductive attempt (w w' : SignerWorld) : Prop :=
| attempt_prepare config fuel request o : ran signer_handles (prepare config fuel request) w o w' -> attempt w w'
| attempt_execute config fuel request o : ran signer_handles (execute config fuel request) w o w' -> attempt w w'
| attempt_recover config request o : ran signer_handles (recover_prepared config request) w o w' -> attempt w w'
| attempt_inspect config request o : ran signer_handles (inspect_prepared config request) w o w' -> attempt w w'
| attempt_readiness config o : ran signer_handles (readiness config) w o w' -> attempt w w'.

(** What the settlement coordinator gets out of an operation on a batch. *)
Inductive returned (config : WecSignerConfig) (request : WecPayoutRequest) (w : SignerWorld)
    : RichPayoutExecution -> SignerWorld -> Prop :=
| returned_prepare fuel p w' : ran signer_handles (prepare config fuel request) w (Some (Ok (Some p))) w' ->
    returned config request w (rich_of_prepared p) w'
| returned_recover p w' : ran signer_handles (recover_prepared config request) w (Some (Ok (Some p))) w' ->
    returned config request w (rich_of_prepared p) w'
| returned_inspect p w' : ran signer_handles (inspect_prepared config request) w (Some (Ok p)) w' ->
    returned config request w (rich_of_prepared p) w'
| returned_execute fuel x w' : ran signer_handles (execute config fuel request) w (Some (Ok (Some x))) w' ->
    returned config request w (rich_of_execution x) w'.

Lemma ran_extends {A} (p : proc SignerCall A) Q w o w' : ran signer_handles p w o w' -> sound p Q w ->
  signer_extends w w' /\ forall a, o = Some a -> Q a w'.
Proof.
  intros Hran Hp. eapply (ran_wp signer_handles signer_permitted (signer_extends w)); [|exact Hran|done|exact Hp].
  intros R e s r s' Hs Hperm Hh. etrans; [exact Hs|]. by eapply signer_call_extends.
Qed.

Lemma attempt_extends w w' : attempt w w' -> signer_extends w w'.
Proof.
  intros [c f q o H|c f q o H|c q o H|c q o H|c o H]; eapply ran_extends in H as [H _];
    eauto using prepare_sound, execute_sound, recover_prepared_sound, inspect_prepared_sound, readiness_sound.
Qed.

Lemma history_extends w w' : rtc attempt w w' -> signer_extends w w'.
Proof. induction 1 as [w|w1 w2 w3 H _ IH]; [done|]. etrans; [by apply attempt_extends|done]. Qed.

(** The transaction of a record, as the settlement coordinator sees it. *)
Definition record_payout (record : JournalRecord) (x : RichPayoutExecution) : Prop :=
  exists p, prepared_from_record record = Ok p /\ x = rich_of_prepared p.

Lemma returned_record config request w x w' : returned config request w x w' ->
  signer_extends w w' /\ exists validated record, validate_request config request = Ok validated /\
    reserved_for request validated record w' /\ record_payout record x.
Proof.
  intros [fuel p v H|p v H|p v H|fuel e v H].
  - eapply ran_extends in H as [He HQ]; [|apply prepare_sound]. destruct (HQ _ eq_refl) as (va & rec & Hv & Hres & Hp).
    split; [done|]. exists va, rec. split_and!; [done|done|]. by exists p.
  - eapply ran_extends in H as [He HQ]; [|apply recover_prepared_sound]. destruct (HQ _ eq_refl) as (va & rec & Hv & Hres & Hp).
    split; [done|]. exists va, rec. split_and!; [done|done|]. by exists p.
  - eapply ran_extends in H as [He HQ]; [|apply inspect_prepared_sound]. destruct (HQ _ eq_refl) as (va & rec & Hv & Hres & Hp).
    split; [done|]. exists va, rec. split_and!; [done|done|]. by exists p.
  - eapply ran_extends in H as [He HQ]; [|apply execute_sound]. destruct (HQ _ eq_refl) as (va & rec & Hv & Hres & d & a & Hx & _).
    split; [done|]. exists va, rec. split_and!; [done|done|]. unfold execution_from_record in Hx. bind_in Hx p Hp. simplify_eq. by exists p.
Qed.

Lemma record_payout_advances r r' x : record_advances r r' -> record_payout r x -> record_payout r' x.
Proof.
  intros [(Hb & _ & Hportal & Htotal) (Hart & _)] (p & Hp & ->). unfold prepared_from_record in Hp. bind_in Hp a Ha. apply ok_or_Ok in Ha.
  exists p. split; [|done]. unfold prepared_from_record. rewrite (Hart a Ha), Hb, Hportal, Htotal. exact Hp.
Qed.

(** C18. The signer is idempotent: whatever operations, crashes, journal failures and wallet answers
    lie between them, any two operations on a batch that return a transaction return the same
    one, bytes, fee and commitments included, and were given the same request and policy up to
    the commitments it was journaled under. *)
Theorem wec_signer_idempotent c1 q1 c2 q2 w0 w1 w2 w3 x1 x2 :
  returned c1 q1 w0 x1 w1 -> rtc attempt w1 w2 -> returned c2 q2 w2 x2 w3 ->
  rq_batch_id (wr_batch q1) = rq_batch_id (wr_batch q2) ->
  x1 = x2 /\ exists v1 v2, validate_request c1 q1 = Ok v1 /\ validate_request c2 q2 = Ok v2 /\
    vr_portal_commitment v1 = vr_portal_commitment v2 /\ vr_pipeline_commitment v1 = vr_pipeline_commitment v2.
Proof.
  intros (_ & v1 & r1 & Hv1 & [Hh1 Hb1] & Hx1)%returned_record Hhist (He & v2 & r2 & Hv2 & [Hh2 Hb2] & Hx2)%returned_record Hid.
  assert (journal_evolves (sw_dir w1) (sw_dir w3)) as Hev by (etrans; [apply (se_journal _ _ (history_extends _ _ Hhist))|apply He]).
  destruct (Hev _ _ Hh1) as (r & Hr & Hadv). rewrite Hid in Hr. rewrite (holds_unique _ _ _ _ Hr Hh2) in Hadv.
  apply (record_payout_advances _ _ _ Hadv) in Hx1. destruct Hadv as [(_ & Hpipe & Hportal & _) _].
  destruct (bound_facts _ _ Hb1) as (A1 & A2 & _), (bound_facts _ _ Hb2) as (B1 & B2 & _). split.
  - destruct Hx1 as (p & Hp & ->), Hx2 as (p' & Hp' & ->). congruence.
  - exists v1, v2. split_and!; congruence.
Qed.

(** C19. The wallet is asked to sign a batch only right after it answered that it holds no
    transaction for that batch and request, while the journal has the batch reserved for that
    request.  It is asked to broadcast only when the journal already holds, for that batch and
    request, exactly those bytes at the signed or the unresolved stage: never from a reserved or merely
    prepared record, nor from a rejected or completed one.  Everything it is asked to broadcast for a batch, over the whole history, is one
    transaction, the one still in the journal at the end. *)
Theorem wec_signer_one_transaction w0 w : sw_log w0 = [] -> rtc attempt w0 w ->
  signature_after_recovery (sw_log w) /\ Forall journaled_first (sw_log w) /\
  Forall (broadcast_journaled (sw_dir w)) (sw_log w) /\
  forall d c r d' c' r', DidWalletBroadcast d c r ∈ sw_log w -> DidWalletBroadcast d' c' r' ∈ sw_log w ->
    bct_batch_id c = bct_batch_id c' ->
    bct_transaction_id c = bct_transaction_id c' /\ bct_raw_transaction_hex c = bct_raw_transaction_hex c' /\
    bct_request_commitment c = bct_request_commitment c'.
Proof.
  intros Hl [_ _ Hb Hj Hs]%history_extends. rewrite Hl in *. specialize (Hs ltac:(by intros i d c r)).
  specialize (Hb (Forall_nil_2 _)). specialize (Hj (Forall_nil_2 _)).
  split_and!; [done..|]. rewrite Forall_forall in Hb.
  intros d c r d' c' r' (rec & a & Hh & Ha & H1 & H2 & H3)%Hb (rec' & a' & Hh' & Ha' & H1' & H2' & H3')%Hb Hid.
  rewrite Hid in Hh. pose proof (holds_unique _ _ _ _ Hh Hh') as <-. simplify_eq. split_and!; congruence.
Qed.

(** ** Refusals *)

Definition reads_only (R : Type) (e : SignerCall R) (_ : SignerWorld) : Prop :=
  match e with JournalLock | JournalLoad _ => True | _ => False end.

Lemma ran_reads {A} (p : proc SignerCall A) Q w o w' : ran signer_handles p w o w' -> wp signer_handles reads_only eq p Q w ->
  w' = w /\ forall a, o = Some a -> Q a w'.
Proof.
  intros Hran Hp. eapply (ran_wp signer_handles reads_only (fun v => v = w)); [|exact Hran|done|exact Hp].
  intros R e s r s' -> Hperm Hh. destruct e; try done. by destruct Hh as [-> _].
Qed.

Lemma locked_refused {A} config request validated (operation : ValidatedRequest -> proc SignerCall (result A WecPayoutError)) w :
  validate_request config request = Ok validated ->
  wp signer_handles reads_only eq (operation validated) (fun r _ => exists e, r = Err e) w ->
  wp signer_handles reads_only eq (locked config request operation) (fun r _ => exists e, r = Err e) w.
Proof.
  intros Hv Hop. unfold locked. destruct (WecSignerConfig_validate config) as [[]|x]; cbn [bind_ok bind]; [|apply wp_ret; eauto].
  rewrite Hv. cbn [bind_ok bind]. apply wp_vis. intros w0 <-. split; [done|].
  intros [[]|x] w1 ->; cbn [bind]; [done|apply wp_ret; eauto].
Qed.

(** The journal answers with the record of another request, or not at all. *)
Lemma load_refused {A} id record w (f : option JournalRecord -> proc SignerCall (result A WecPayoutError)) :
  journal_load (sw_dir w) false id = Ok (Some record) ->
  wp signer_handles reads_only eq (f (Some record)) (fun r _ => exists e, r = Err e) w ->
  wp signer_handles reads_only eq (bind_ok (call (JournalLoad id)) f) (fun r _ => exists e, r = Err e) w.
Proof.
  intros Hl Hf. cbn [bind_ok bind call]. apply wp_vis. intros w0 <-. split; [done|]. intros r w1 [-> (u & ->)].
  destruct u; [apply wp_ret; eauto|]. by rewrite Hl.
Qed.

Lemma bind_refused {A B} (p : proc SignerCall (result A WecPayoutError)) (f : A -> proc SignerCall (result B WecPayoutError)) w :
  wp signer_handles reads_only eq p (fun r _ => exists e, r = Err e) w ->
  wp signer_handles reads_only eq (bind_ok p f) (fun r _ => exists e, r = Err e) w.
Proof.
  intros Hp. apply wp_bind; [apply _|]. eapply wp_mono; [|exact Hp]. intros r w' (e & ->). apply wp_ret. eauto.
Qed.

Lemma load_or_reserve_refused config request validated record w :
  journal_load (sw_dir w) false (rq_batch_id (wr_batch request)) = Ok (Some record) -> bound_otherwise record validated = true ->
  wp signer_handles reads_only eq (load_or_reserve config request validated) (fun r _ => exists e, r = Err e) w.
Proof. intros Hl Hb. eapply load_refused; [exact Hl|]. rewrite Hb. apply wp_ret. eauto. Qed.

(** A batch that is journaled for one request is refused for any other: when the commitments of
    the request and policy differ from the record's, every operation fails and leaves the journal
    and the wallet untouched, in every run. *)
Theorem wec_conflict_refused config fuel request validated record w :
  validate_request config request = Ok validated ->
  journal_load (sw_dir w) false (rq_batch_id (wr_batch request)) = Ok (Some record) ->
  bound_otherwise record validated = true ->
  (forall o w', ran signer_handles (prepare config fuel request) w o w' -> w' = w /\ forall r, o = Some r -> exists e, r = Err e) /\
  (forall o w', ran signer_handles (execute config fuel request) w o w' -> w' = w /\ forall r, o = Some r -> exists e, r = Err e) /\
  (forall o w', ran signer_handles (recover_prepared config request) w o w' -> w' = w /\ forall r, o = Some r -> exists e, r = Err e) /\
  (forall o w', ran signer_handles (inspect_prepared config request) w o w' -> w' = w /\ forall r, o = Some r -> exists e, r = Err e).
Proof.
  intros Hv Hl Hb. split_and!; intros o w' Hran; (eapply ran_reads in Hran; [exact Hran|]); apply (locked_refused _ _ _ _ _ Hv).
  - by eapply bind_refused, load_or_reserve_refused.
  - by eapply bind_refused, load_or_reserve_refused.
  - eapply load_refused; [exact Hl|]. cbn. rewrite Hb. apply wp_ret. eauto.
  - eapply load_refused; [exact Hl|]. cbn. rewrite Hb. apply wp_ret. eauto.
Qed.

(** ** Termination *)

Lemma execute_loop_returns config request validated record :
  returns (fun r => r <> Ok None) (execute_loop config 3 request validated record).
Proof.
  cbn [execute_loop]. destruct (jr_stage record); cbn [with_stage jr_stage].
  all: repeat (apply returns_bind_ok; [done|]; intros); try done.
Qed.

Lemma prepare_loop_returns config request validated record :
  returns (fun r => r <> Ok None) (prepare_loop config 2 request validated record).
Proof.
  cbn [prepare_loop]. destruct (jr_stage record); cbn [with_stage jr_stage].
  all: repeat (apply returns_bind_ok; [done|]; intros); try done.
Qed.

Lemma checkpoint_calls c : calls_within 1 (checkpoint c).
Proof. done. Qed.

Lemma persist_calls record : calls_within 2 (persist record).
Proof. apply (calls_within_ok _ _ 1 1); [done|]. done. Qed.

Lemma attested_identity_calls config : calls_within 2 (attested_identity config).
Proof. apply (calls_within_ok _ _ 1 1); [done|]. intros i. apply (calls_within_ok _ _ 0 1); [done|]. intros u. by apply (calls_within_ok _ _ 1 0). Qed.

Lemma recovered_transaction_calls config request validated : calls_within 2 (recovered_transaction config request validated).
Proof. apply (calls_within_ok _ _ 1 1); [done|]. intros t. by apply (calls_within_ok _ _ 1 0). Qed.

Lemma inspected_artifact_calls config request validated signed : calls_within 2 (inspected_artifact config request validated signed).
Proof.
  apply (calls_within_ok _ _ 0 2); [done|]. intros u. apply (calls_within_ok _ _ 1 1); [done|]. intros i.
  apply (calls_within_ok _ _ 0 1); [done|]. intros u'. by apply (calls_within_ok _ _ 1 0).
Qed.

Lemma create_or_recover_calls config request validated : calls_within 9 (create_or_recover config request validated).
Proof.
  apply (calls_within_ok _ _ 2 7); [apply attested_identity_calls|]. intros i.
  apply (calls_within_ok _ _ 2 5); [apply recovered_transaction_calls|]. intros t.
  apply (calls_within_ok _ _ 3 2); [|intros; apply inspected_artifact_calls]. destruct t as [t|]; [done|].
  apply (calls_within_ok _ _ 1 2); [done|]. intros u. apply (calls_within_ok _ _ 1 1); [done|]. intros u'. by apply (calls_within_ok _ _ 1 0).
Qed.

Lemma load_or_reserve_calls config request validated : calls_within 3 (load_or_reserve config request validated).
Proof.
  apply (calls_within_ok _ _ 1 2); [done|]. intros [r|]; [by destruct (bound_otherwise _ _)|]. destruct (_ && _); [done|].
  apply (calls_within_ok _ _ 2 0); [apply persist_calls|done].
Qed.

Lemma broadcast_artifact_calls config record artifact : calls_within 4 (broadcast_artifact config record artifact).
Proof.
  apply (calls_within_bind _ _ 1 3); [done|]. intros [outcome|failure].
  - destruct (negb _).
    + apply (calls_within_ok _ _ 3 0); [|done]. apply (calls_within_ok _ _ 1 2); [done|]. intros; apply persist_calls.
    + apply (calls_within_ok _ _ 1 2); [done|]. intros u. apply (calls_within_ok _ _ 2 0); [apply persist_calls|]. intros u'. done.
  - destruct failure; (apply (calls_within_ok _ _ 1 2); [done|]); intros u; (apply (calls_within_ok _ _ 2 0); [apply persist_calls|done]).
Qed.

Lemma locked_calls {A} config request n (operation : ValidatedRequest -> proc SignerCall (result A WecPayoutError)) :
  (forall v, calls_within n (operation v)) -> calls_within (S n) (locked config request operation).
Proof.
  intros Hop. apply (calls_within_ok _ _ 0 (S n)); [done|]. intros u. apply (calls_within_ok _ _ 0 (S n)); [done|]. intros v.
  by apply (calls_within_ok _ _ 1 n).
Qed.

Lemma prepare_loop_calls config request validated record : calls_within 11 (prepare_loop config 2 request validated record).
Proof.
  cbn [prepare_loop]. destruct (jr_stage record); cbn [with_stage jr_stage]; try done; try (by apply (calls_within_ok _ _ 0 11)).
  apply (calls_within_ok _ _ 9 2); [apply create_or_recover_calls|]. intros a.
  apply (calls_within_ok _ _ 2 0); [apply persist_calls|]. intros u. by apply (calls_within_ok _ _ 0 0).
Qed.

Lemma execute_loop_calls config request validated record : calls_within 17 (execute_loop config 3 request validated record).
Proof.
  cbn [execute_loop]. destruct (jr_stage record); cbn [with_stage jr_stage]; try done; try (by apply (calls_within_ok _ _ 0 17)).
  - apply (calls_within_ok _ _ 9 8); [apply create_or_recover_calls|]. intros a. apply (calls_within_ok _ _ 2 6); [apply persist_calls|].
    intros u. apply (calls_within_ok _ _ 2 4); [apply persist_calls|]. intros u'. by apply (calls_within_ok _ _ 4 0); [apply broadcast_artifact_calls|].
  - apply (calls_within_ok _ _ 2 15); [apply persist_calls|]. intros u. by apply (calls_within_ok _ _ 4 11); [apply broadcast_artifact_calls|].
  - by apply (calls_within_ok _ _ 4 13); [apply broadcast_artifact_calls|].
  - by apply (calls_within_ok _ _ 4 13); [apply broadcast_artifact_calls|].
Qed.

(** C27. The signer's loops end: two rounds are enough to prepare a batch and three to execute it
    from any journaled stage, whatever the journal and the wallet answer, within a fixed number of
    calls; the stage they work on only moves forward. *)
Theorem wec_signer_terminates config request :
  returns (fun r => r <> Ok None) (prepare config 2 request) /\ calls_within 15 (prepare config 2 request) /\
  returns (fun r => r <> Ok None) (execute config 3 request) /\ calls_within 21 (execute config 3 request).
Proof.
  split_and!.
  - unfold prepare, locked. repeat (apply returns_bind_ok; [done|]; intros). apply prepare_loop_returns.
  - apply locked_calls. intros v. apply (calls_within_ok _ _ 3 11); [apply load_or_reserve_calls|]. intros r. apply prepare_loop_calls.
  - unfold execute, locked. repeat (apply returns_bind_ok; [done|]; intros). apply execute_loop_returns.
  - apply locked_calls. intros v. apply (calls_within_ok _ _ 3 17); [apply load_or_reserve_calls|]. intros r. apply execute_loop_calls.
Qed.

(** A broadcast the node rejected cancels the payout although its transaction exists: on a
    journal whose record of the batch is at its rejected stage, with the signed bytes, the signer's
    answer to the settlement coordinator is the same rejection that a request refused before
    signing gets, and the coordinator's next call releases the reservation. *)
Theorem rejected_broadcast_cancels {S} (handler : forall R, SignerCall R -> S -> S * R) config fuel request validated record artifact s s1 s2 :
  WecSignerConfig_validate config = Ok tt -> validate_request config request = Ok validated ->
  handler _ JournalLock s = (s1, Ok tt) ->
  handler _ (JournalLoad (rq_batch_id (wr_batch request))) s1 = (s2, Ok (Some record)) ->
  bound_otherwise record validated = false -> jr_stage record = RejectedStage artifact ->
  run handler (prepare config (Datatypes.S fuel) request) s = (s2, Err WecBroadcastRejected) /\
  map_wec_error WecBroadcastRejected = BoundaryRejected /\
  map_wec_error WecBroadcastRejected = map_wec_error WecWalletRejected.
Proof.
  intros Hc Hv Hlock Hload Hb Hst. split; [|done]. unfold prepare, locked. rewrite Hc. cbn [bind_ok bind]. rewrite Hv.
  cbn [bind_ok bind call run]. rewrite Hlock. cbn [bind]. unfold prepare_locked, load_or_reserve. cbn [bind_ok bind call run].
  rewrite Hload. cbn [bind]. rewrite Hb. cbn [bind prepare_loop]. by rewrite Hst.
Qed.
End Histories.

(** ** A history with a crash and a lost answer *)

Lemma demo_run_ran broadcast {A} (p : proc SignerCall A) w :
  ran signer_handles p w (Some (snd (run (demo_respond broadcast) p w))) (fst (run (demo_respond broadcast) p w)).
Proof. apply ran_run, demo_respond_handles. Qed.

Lemma demo_crashed_attempt : attempt (mkSignerWorld ∅ []) demo_signer_crashed.
Proof.
  exact (attempt_prepare _ _ demo_signer_config 2 (demo_wec_request 990) None
           (ran_crashed _ (demo_respond demo_accepts) 12 _ _ (demo_respond_handles demo_accepts))).
Qed.

Lemma demo_prepare_attempt : attempt demo_signer_crashed (fst demo_prepare).
Proof. exact (attempt_prepare _ _ demo_signer_config 2 (demo_wec_request 990) _ (demo_run_ran demo_accepts _ _)). Qed.

Lemma demo_lost_attempt : attempt (fst demo_prepare) (fst demo_lost).
Proof. exact (attempt_execute _ _ demo_signer_config 3 (demo_wec_request 990) _ (demo_run_ran (Err BroadcastFailedTimeout) _ _)). Qed.

Lemma demo_execute_attempt : attempt (fst demo_lost) (fst demo_execute).
Proof. exact (attempt_execute _ _ demo_signer_config 3 (demo_wec_request 990) _ (demo_run_ran demo_accepts _ _)). Qed.

Definition demo_rich : RichPayoutExecution :=
  mkRichPayoutExecution 71 Wec (replicate 30 1 ++ [159; 179]) demo_txid (replicate 32 4) 990 (replicate 32 3) [1; 2; 3] 8.

Lemma demo_prepared : exists p, snd demo_prepare = Ok (Some p) /\ rich_of_prepared p = demo_rich.
Proof. eexists. split; [vm_compute; reflexivity|]. vm_compute. reflexivity. Qed.

Lemma demo_executed : exists x, snd demo_execute = Ok (Some x) /\ rich_of_execution x = demo_rich.
Proof. eexists. split; [vm_compute; reflexivity|]. vm_compute. reflexivity. Qed.

Lemma demo_prepare_returned :
  returned demo_signer_config (demo_wec_request 990) demo_signer_crashed demo_rich (fst demo_prepare).
Proof.
  destruct demo_prepared as (p & Hp & <-). apply (returned_prepare _ _ _ 2). rewrite <- Hp. exact (demo_run_ran demo_accepts _ _).
Qed.

Lemma demo_execute_returned :
  returned demo_signer_config (demo_wec_request 990) (fst demo_lost) demo_rich (fst demo_execute).
Proof.
  destruct demo_executed as (x & Hx & <-). apply (returned_execute _ _ _ 3). rewrite <- Hx. exact (demo_run_ran demo_accepts _ _).
Qed.

(** The transaction signed before the crash is the one prepared after it and the one executed
    after a broadcast without an answer. *)
Lemma wec_signer_idempotent_witness :
  snd demo_lost = Err WecBroadcastAmbiguous /\ demo_rich = demo_rich /\
  exists v1 v2, validate_request demo_signer_config (demo_wec_request 990) = Ok v1 /\
    validate_request demo_signer_config (demo_wec_request 990) = Ok v2 /\
    vr_portal_commitment v1 = vr_portal_commitment v2 /\ vr_pipeline_commitment v1 = vr_pipeline_commitment v2.
Proof.
  split; [vm_compute; reflexivity|].
  refine (wec_signer_idempotent demo_signer_config (demo_wec_request 990) demo_signer_config (demo_wec_request 990)
    demo_signer_crashed (fst demo_prepare) (fst demo_lost) (fst demo_execute) demo_rich demo_rich
    demo_prepare_returned _ demo_execute_returned _).
  - apply rtc_once. exact demo_lost_attempt.
  - reflexivity.
Defined.

Lemma wec_signer_one_transaction_witness :
  length (sw_log (fst demo_execute)) = 5%nat /\ Forall journaled_first (sw_log (fst demo_execute)).
Proof.
  split; [vm_compute; reflexivity|].
  refine (proj1 (proj2 (wec_signer_one_transaction (mkSignerWorld ∅ []) (fst demo_execute) _ _))); [reflexivity|].
  apply (rtc_l _ _ demo_signer_crashed); [exact demo_crashed_attempt|]. apply (rtc_l _ _ (fst demo_prepare)); [exact demo_prepare_attempt|].
  apply (rtc_l _ _ (fst demo_lost)); [exact demo_lost_attempt|]. apply rtc_once. exact demo_execute_attempt.
Defined.

(** The same batch with another amount. *)
Definition demo_other_validated : ValidatedRequest :=
  match validate_request demo_signer_config (demo_wec_request 991) with Ok v => v | Err _ => mkValidatedRequest [] [] 0 [] end.
Definition demo_journaled : JournalRecord :=
  match journal_load (sw_dir (fst demo_prepare)) false 71 with Ok (Some r) => r | _ => mkJournalRecord 0 [] [] 0 Reserved end.

Lemma wec_conflict_refused_witness :
  jr_output_total_zat demo_journaled = 990 /\ vr_output_total_zat demo_other_validated = 991 /\
  ~ ran signer_handles (prepare demo_signer_config 2 (demo_wec_request 991)) (fst demo_prepare) (Some (Ok None)) (fst demo_prepare).
Proof.
  split; [vm_compute; reflexivity|]. split; [vm_compute; reflexivity|]. intros Hran.
  assert (validate_request demo_signer_config (demo_wec_request 991) = Ok demo_other_validated) as Hv by (vm_compute; reflexivity).
  assert (journal_load (sw_dir (fst demo_prepare)) false 71 = Ok (Some demo_journaled)) as Hl by (vm_compute; reflexivity).
  assert (bound_otherwise demo_journaled demo_other_validated = true) as Hb by (vm_compute; reflexivity).
  destruct (proj2 (proj1 (wec_conflict_refused demo_signer_config 2 (demo_wec_request 991) demo_other_validated demo_journaled
    (fst demo_prepare) Hv Hl Hb) _ _ Hran) _ eq_refl) as [e He].
  discriminate He.
Defined.
